(* ===== verification/_CoqProject ===== *)
-Q . S2P
Prelude.v
Codec.v
Float32.v
ByteArray.v
ByteArraySpec.v
ByteArrayIO.v
Timer.v
TimerSpec.v
TimerUse.v
Fiber.v
Scheduler.v
SchedulerSpec.v
TaskFlow.v
IOScheduler.v
IOSchedulerSpec.v
WakeUp.v
Hook.v
HookWait.v
HookWaitSpec.v
HookSleep.v
HookSleepSpec.v
HookCalls.v
Address.v
AddressSpec.v
Socket.v
Stream.v
SocketStream.v
Regex.v
Scanner.v
UriTable.v
Uri.v
UriGrammar.v
UriSpec.v
UriParts.v
UriSafe.v
TcpServer.v
TcpServerSpec.v
Strings.v
StringsSpec.v
ByteArrayText.v
Locks.v
Mutexes.v
MutexesSpec.v
Threads.v
ThreadsSpec.v
LogFormat.v
Logger.v
LogSpec.v
LoggerSpec.v
Yaml.v
Config.v
ConfigSpec.v
ConfigParse.v
LexicalCast.v
LexicalSpec.v
GlobalConfig.v
GlobalSpec.v
GlobalWiring.v
LogYaml.v
