(* ===== verification/Prelude.v ===== *)
(** * LoNetfw: a verification development

    LoNetfw is a C++11 network framework: a coroutine runtime on ucontext, a
    scheduler of fibers over threads, an epoll scheduler with timers, hooks
    that make the blocking system calls of a fiber yield, and above these the
    addresses, URIs, sockets, streams and byte buffers of a TCP server; a log
    and a typed configuration that is read from YAML serve all of them. The
    sources are under src/; the Linux branches are the ones modelled.

    ** The parts and where they are

    - [Prelude] (this file): outcomes of C++ code ([outcome]: a value, an
      exception with the state at the throw, or a [fault], a behaviour the
      language leaves undefined or the program aborts on), the state monad
      [M] over it, machine integers ([wrapu], [wraps] and their ranges), byte
      lists, chains of equal blocks, tactics.
    - [Codec] (util/endian.h, the head of util/serializer.cpp): byte order of
      the platform (class [Platform]) and of a buffer, byte swaps, the memory
      image of an integer, ZigZag and Varint. [Float32]: the single precision
      arithmetic that [ByteArray::addTotalSize] and [writeFloat] use.
    - [ByteArray] (util/serializer.h, .cpp): the chain of blocks with its
      cursor, and each operation on raw bytes with its loops, pointers and
      range checks. [abs] maps it to a byte string with a position ([buffer]),
      [wf] is its invariant. [ByteArraySpec] holds the properties, among them
      that the chain is one flat memory ([memory_of]),
      [ByteArrayIO] the typed reads and writes (integers, varints, floats,
      strings), [ByteArrayText] the text in hexadecimal and the destructor.
    - [Timer] (scheduler/timer.cpp): the timers, the ordered set with its
      comparator, and the manager's operations; [TimerSpec] runs them against
      a clock. The callbacks are opaque. [TimerUse] holds what clients need of
      them: which timers can run a callback of theirs, and what an operation
      of others leaves alone.
    - [Fiber] (fiber/fiber.cpp): a coroutine runs a program ([prog]) that
      yields, schedules, throws or returns; swapIn, swapOut, reset, the
      destructor with their guards, and control passing between the main
      fiber and a coroutine.
    - [Scheduler] (scheduler/scheduler.cpp): the task queue, construction,
      start, stop, and [run()] as the steps of a worker: take a task, switch
      to its fiber, each call of schedule in there, the switch back, the
      decrement of the counter, and what is done with the fiber then; they
      interleave with those of the other workers;
      [SchedulerSpec] proves the invariants over all interleavings, [TaskFlow]
      that no task is lost or run twice.
    - [IOScheduler] (scheduler/ioscheduler.cpp): fd contexts, the epoll
      interest list, registration, cancellation and delivery of events, and a
      round of [idle()] with the timers; [IOSchedulerSpec]. [WakeUp] takes the
      round apart where [epoll_wait] waits, interleaves it with other threads'
      use of the timers, and shows that they wake it in time.
    - [Hook] (hook/hook.cpp, hook/fd.cpp): the table of descriptors and the
      hooked calls, among them the loop that hides EINTR and EAGAIN ([io]).
      There the ends of its waits are given; [HookWait] is the same call on
      the timers of [Timer] and the events of [IOScheduler], statement by
      statement, and [HookWaitSpec] interleaves it with everything else that
      uses them. connect waits in the same way, once. [HookSleep] is sleep,
      usleep and nanosleep of any number of fibers on the timers of [Timer],
      [HookSleepSpec] their interleavings; [HookCalls] the variadic calls with
      every command, the options and class Hook.
    - [Address] (net/address.cpp): addresses as sockaddr structures and as
      bytes, masks, order, text, and the splitting of "host:service";
      [AddressSpec].
    - [Socket] (net/socket.cpp): a socket object over the hooked calls.
    - [Stream] (util/stream.cpp): the stream interface as a class, its laws
      as a second class ([StreamLaws]), and the loops [readF] and [writeF],
      proved against the laws. [SocketStream] (net/socketstream.cpp) is the
      implementation, whose instance discharges the laws from [Hook], [Socket]
      and [ByteArray].
    - [Uri] (net/uri.rl, uri.rl.cpp): Uri::create, which runs the scanner that
      Ragel generated, and the accessors. [UriTable] is the transition code
      state by state, [UriGrammar] the rules of uri.rl as expressions of
      [Regex], [Scanner] a search that decides whether scanner and expression
      agree; [UriSpec] (what is accepted), [UriParts] (what is stored) and
      [UriSafe] (when nothing goes wrong) hold the properties.
    - [TcpServer] (server/tcpserver.cpp): the server and its shared sockets,
      the jobs it gives the schedulers and the accept loops, as events;
      [TcpServerSpec].
    - [Strings] (util/util.cpp): case, split, trim, names, decimal numbers,
      colours and the parser of format strings; [StringsSpec].
    - [Locks] (thread/mutex.cpp, scopedlock.h): locks as one thread sees them
      and guarded blocks, on a lock in a larger state or of an object in a
      heap, which the log and the configuration use. [Mutexes] (the same
      sources) are all classes of locks and guards in the hands of several
      threads, with the errors of the C library; [MutexesSpec] proves what
      guards promise and that [Locks] is what one of the threads sees. [Threads]
      (thread/thread.cpp, semaphore.cpp): the construction of a thread and
      Thread::run as interleaving statements; [ThreadsSpec].
    - [LogFormat] and [Logger] (log/): levels, events and formatters;
      appenders, loggers, their registry and the macros that log, over heaps of
      shared objects. [LogSpec] (what is printed), [LoggerSpec] (every
      operation, and any use of them).
    - [Yaml]: what is used of yaml-cpp as classes, and the flattening of a
      tree. [LexicalCast] (util/lexicalcast.h): values as text; [LexicalSpec].
      [Config] (config/): data with callbacks and their registry, for any
      family of types (class [ConfigTypes]); [ConfigSpec], [ConfigParse].
    - [GlobalConfig] (config/globalconfig.h): the data of the framework, an
      instance of [ConfigTypes], and their callbacks, which work on [Logger];
      [GlobalSpec] is about the callback of the loggers, [GlobalWiring] about
      configuration, callbacks and log together. [LogYaml] (getYaml in log/)
      prints the log, and reads the text back as a description.

    A class is a Record with the members' names (m_...), a member function a
    definition of its name in the monad of that record; where several classes
    have a function of that name the file tells them apart, and where a file
    has several the class is part of the name ([IPv4_create]).

    ** What the theorems show

    - Data: a ByteArray refines one flat memory with a size and a position
      under any sequence of operations on raw bytes; typed values, files, varints and ZigZag codes,
      addresses, timeouts and file status flags are read back as written; the
      vectors handed to the kernel describe the bytes that read and write
      would move; the order of addresses is total.
    - Timers: the set stays sorted, the due timers fire in order and no other,
      a cancelled one never, and a thread in idle() is awake by the deadline of
      each, whatever others add while it waits.
    - Fibers and schedulers: a coroutine runs each part once; the counters are
      exact in every interleaving; tasks are taken in order, and each is begun
      once; once stopping
      with no fiber between its switch back and its next scheduling, always
      stopping, with nothing left; the contexts, the interest list and
      the waiting count agree, and an event is delivered once.
    - Locks: a mutex is held by exactly the guards that say so, a writer
      alone, no unlock and no destructor fails in any interleaving, and what
      one thread sees of this is the lock that the other files use.
    - Threads: the constructor returns in the end, and when its thread has
      everything it needs; each thread calls its callback once; join waits for
      the end of it.
    - Hooks, sockets, streams: a hooked call behaves as the blocking call; on
      the real timers and events it ends as its loop says, its fiber is
      registered or scheduled once while it waits, a call times out only after
      its timeout has passed, and does so when nothing else ends the wait, except
      when its timer fires before addEvent; a fiber
      that sleeps has one wake-up, not before its time, and gets up; fcntl
      hands on what fcntl(2) says, with the exceptions listed; a
      managed socket is non-blocking in the kernel whatever the program does
      with its flags, but for FIONBIO with 0; a connected socket has a managed descriptor; a stream
      moves everything or says that it did not.
    - URIs: the generated scanner accepts exactly the grammar, each component
      is stored as it was written (but for the users and ports named there), and
      the text of a URI is the one it was made from.
    - The server: nothing faults through any sequence of its events in which a
      start waits for the end of the last run, every connection is handed over
      once, and after a stop the closed sockets and cancelled waits end the
      loops.
    - Log: a format string is read by its grammar, a formatter prints its
      items, an event reaches each appender that takes it once and in order
      while the disk takes it, and through any sequence of calls no lock stays
      held and nothing dangles.
    - Configuration: a datum keeps its type through everything, a YAML tree
      sets what its nodes name and nothing else, values are read back as
      printed (8-bit integers are characters there), and a change of the description of the loggers rebuilds the
      registry as described, and printing the registry gives the description.
    - The limits of these (the theorems named ..._hazards, ..._race,
      ..._limits, ..._edges, ..._fault and parts of others): the inputs and
      interleavings with which the code leaves its guarantees, each with the
      fault it ends in.

    ** Bounds, fuel, parameters

    Loops that are not structural take fuel. Callers pass the length of what
    the loop consumes plus one (bytes to transfer, blocks of the chain, bits
    of a varint, results of a system call, characters of a text, the depth of
    a YAML tree), and the theorems, which state that
    a result is returned, show that it is enough; [OutOfFuel] is a fault of its own. A
    ByteArray is proved for block sizes below 2^24 and single requests below
    2^24 bytes (where the float arithmetic is exact) with a total size below
    2^64. What is not under src/ is an argument: results of system calls and,
    except in [HookWait], ends of waits (lists, one entry for each call), the kernel's descriptor
    table and epoll set, [getaddrinfo], [getifaddrs], [inet_pton], file
    contents, the clock, strftime, the answers of the disk, YAML nodes, the
    order of a hashed container, [dlsym], and what a callback does. A step of a worker thread is
    one locked operation on the queue, one decrement of a counter, or one
    context switch; the test of the fiber's state and the increment of the idle
    counter are one step with the switch they lead to; the log and the
    configuration are seen from one thread, which finds the locks of others
    free in the end ([MutexesSpec.locks_view]). The accept scheduler of a server has one thread. The
    search of [Scanner] is bounded by numbers of visited pairs that [found],
    proved for the grammar by computation, shows to be enough.

    ** Not modelled

    What only prints or wraps a system call: the print of a YAML tree, the dump
    of Socket, the clock, thread names, backtraces and file sizes of util.cpp,
    the file that parseFromYaml opens; the log output of the other components.
    The threads of [Threads] inside the schedulers, which take their steps as
    given; the singletons and the macros besides those that log; the Windows
    branches, the tests and the third-party libraries. The generated scanner is
    modelled as its tables; what Ragel left in it as comments, labels and line
    marks has no counterpart. The memory orders of the C++ atomics are not
    considered: steps are atomic. *)

From Stdlib Require Export ZArith Lia.
From stdpp Require Export base tactics list option gmap strings.
From coqutil Require Export Byte Word.LittleEndianList.

#[global] Open Scope Z_scope.
#[global] Set Default Goal Selector "!".
#[global] Set Warnings "-clear-no-such-hyp".

(** ** Outcomes of C++ code

    A C++ member function takes the object (or the group of objects) it
    works on to one of three ends: it returns, it lets an exception
    escape (the state is the one at the throw), or it runs into a
    behaviour the language does not define or the program aborts on. *)

Inductive fault :=
| NullDeref        (* member access through a null pointer *)
| OutOfBounds      (* index outside an array or a std::vector *)
| EraseEnd         (* erase or dereference of the end() iterator *)
| BadShift         (* shift or signed arithmetic outside the type *)
| BadConversion    (* floating point value outside the integer type *)
| DivByZero        (* integer % or / by zero *)
| AssertFailed     (* LON_ASSERT / assert *)
| Terminate        (* std::terminate: an exception leaves a destructor or a thread *)
| Dangling         (* access to an object that was destroyed *)
| Deadlock         (* a thread waits for a lock it holds itself *)
| ForeignSwitch    (* control moves to a fiber the operation does not wait for *)
| OutOfFuel.       (* the model's loop bound was too small *)

(** A [std::runtime_error]: the text of the literal part of the message,
    and the numbers the code appends to it with [std::to_string]; and the
    [std::length_error] of the standard containers. *)
Inductive exn :=
| runtime_error (what : string) (args : list Z)
| length_error (what : string).

Inductive outcome (S A : Type) :=
| Ret (a : A) (s : S)
| Throw (e : exn) (s : S)
| Fault (f : fault).
Arguments Ret {S A} a s.
Arguments Throw {S A} e s.
Arguments Fault {S A} f.

(** Stateful code that may throw or fault. *)
Definition M (S A : Type) : Type := S → outcome S A.

Section Monad.
Context {S : Type}.

Definition mreturn {A} (a : A) : M S A := λ s, Ret a s.
Definition mbind' {A B} (m : M S A) (k : A → M S B) : M S B :=
  λ s, match m s with
       | Ret a s' => k a s'
       | Throw e s' => Throw e s'
       | Fault f => Fault f
       end.
Definition mget : M S S := λ s, Ret s s.
Definition mput (s' : S) : M S unit := λ _, Ret tt s'.
Definition mmodify (f : S → S) : M S unit := λ s, Ret tt (f s).
Definition mthrow {A} (e : exn) : M S A := λ s, Throw e s.
Definition mfault {A} (f : fault) : M S A := λ _, Fault f.

(** [for (const auto &x : l) body(x)] *)
Fixpoint mfor {A} (l : list A) (body : A → M S unit) : M S unit :=
  match l with
  | [] => mreturn tt
  | x :: l' => mbind' (body x) (λ _, mfor l' body)
  end.
End Monad.

Declare Scope lon_scope.
Delimit Scope lon_scope with lon.
Notation "x <- m ;; k" := (mbind' m (λ x, k))
  (at level 100, m at next level, right associativity) : lon_scope.
Notation "m ;; k" := (mbind' m (λ _, k))
  (at level 100, right associativity) : lon_scope.
#[global] Open Scope lon_scope.

Section MonadLaws.
Context {S A B : Type} (m : M S A) (k : A → M S B) (s : S).

Lemma bind_Ret a s' : m s = Ret a s' → (x <- m;; k x) s = k a s'.
Proof. unfold mbind'. by intros ->. Qed.
Lemma bind_Throw e s' : m s = Throw e s' → (x <- m;; k x) s = Throw e s'.
Proof. unfold mbind'. by intros ->. Qed.
Lemma bind_Fault f : m s = Fault f → (x <- m;; k x) s = Fault f.
Proof. unfold mbind'. by intros ->. Qed.
End MonadLaws.

Lemma bind_modify {S B} (g : S → S) (k : unit → M S B) s : mbind' (mmodify g) k s = k tt (g s).
Proof. done. Qed.

Lemma Ret_inj {S A} (a b : A) (s t : S) : Ret a s = Ret b t → a = b ∧ s = t.
Proof. by intros [= -> ->]. Qed.

(** Taking a run that returned apart. *)
Lemma bind_Ret_inv {S A B} (m : M S A) (k : A → M S B) s b s' : mbind' m k s = Ret b s' →
  ∃ a s1, m s = Ret a s1 ∧ k a s1 = Ret b s'.
Proof. unfold mbind'. destruct (m s); naive_solver. Qed.

(** A run is [safe] when it neither faults nor loops: it returns or throws. *)
Definition safe {S A} (o : outcome S A) : Prop :=
  match o with Fault _ => False | _ => True end.

(** ** Machine integers

    A w-bit integer is the [Z] it denotes; [wrapu] and [wraps] are the
    conversions to the unsigned and the (two's complement) signed type. *)

Definition wrapu (w z : Z) : Z := z mod 2 ^ w.
Definition wraps (w z : Z) : Z := (z + 2 ^ (w - 1)) mod 2 ^ w - 2 ^ (w - 1).
Definition urange (w z : Z) : Prop := 0 ≤ z < 2 ^ w.
Definition srange (w z : Z) : Prop := - 2 ^ (w - 1) ≤ z < 2 ^ (w - 1).
Abbreviation u8 := (wrapu 8).
Abbreviation u16 := (wrapu 16).
Abbreviation u32 := (wrapu 32).
Abbreviation u64 := (wrapu 64).
Abbreviation s32 := (wraps 32).
Abbreviation s64 := (wraps 64).

#[global] Instance urange_dec w z : Decision (urange w z).
Proof. unfold urange. apply _. Defined.
#[global] Instance srange_dec w z : Decision (srange w z).
Proof. unfold srange. apply _. Defined.

Create HintDb lon discriminated.

Section Wrap.
Context (w : Z) (Hw : 0 < w).

Lemma pow2_pos : 0 < 2 ^ w.
Proof using Hw. apply Z.pow_pos_nonneg; lia. Qed.

Lemma pow2_half : 2 ^ w = 2 * 2 ^ (w - 1).
Proof using Hw.
  replace w with (1 + (w - 1)) at 1 by lia.
  rewrite Z.pow_add_r by lia. reflexivity.
Qed.

Lemma wrapu_range z : urange w (wrapu w z).
Proof using Hw. apply Z.mod_pos_bound, pow2_pos. Qed.

Lemma wraps_range z : srange w (wraps w z).
Proof using Hw.
  unfold srange, wraps. pose proof pow2_half.
  pose proof (Z.mod_pos_bound (z + 2 ^ (w - 1)) (2 ^ w) pow2_pos). lia.
Qed.

Lemma wrapu_small z : urange w z → wrapu w z = z.
Proof using Hw. intros H. apply Z.mod_small, H. Qed.

Lemma wraps_small z : srange w z → wraps w z = z.
Proof using Hw.
  unfold srange, wraps. intros H. pose proof pow2_half.
  rewrite Z.mod_small; lia.
Qed.

(** Converting to the unsigned type forgets the signed conversion, and
    the other way round. *)
Lemma wrapu_wraps z : wrapu w (wraps w z) = wrapu w z.
Proof using Type.
  unfold wrapu, wraps. rewrite Zminus_mod_idemp_l. f_equal. lia.
Qed.

Lemma wraps_wrapu z : wraps w (wrapu w z) = wraps w z.
Proof using Type. unfold wrapu, wraps. by rewrite Zplus_mod_idemp_l. Qed.

Lemma wraps_wrapu_id z : srange w z → wraps w (wrapu w z) = z.
Proof using Hw. intros. rewrite wraps_wrapu. by apply wraps_small. Qed.
End Wrap.

(** The signed conversion depends on the value modulo 2^w only. *)
Lemma wraps_mod w a b : a mod 2 ^ w = b mod 2 ^ w → wraps w a = wraps w b.
Proof.
  intros E. rewrite <-(wraps_wrapu w a), <-(wraps_wrapu w b). unfold wrapu. by rewrite E.
Qed.
Lemma wraps_wide w v a : 0 < w ≤ v → wraps w (wrapu v a) = wraps w a.
Proof.
  intros Hw. apply wraps_mod. unfold wrapu. apply Z.mod_mod_divide.
  exists (2 ^ (v - w)). rewrite <-Z.pow_add_r by lia. f_equal. lia.
Qed.

(** Disjoint bits add up. *)
Lemma lor_shift_add data k x : 0 ≤ k → 0 ≤ data < 2 ^ k →
  Z.lor data (Z.shiftl x k) = data + 2 ^ k * x.
Proof.
  intros Hk Hd. pose proof (Z.add_lor_land data (Z.shiftl x k)) as Ha.
  assert (Hl : Z.land data (Z.shiftl x k) = 0).
  { apply Z.bits_inj'. intros i Hi. rewrite Z.land_spec, Z.bits_0.
    destruct (Z.ltb_spec i k).
    - rewrite Z.shiftl_spec_low by lia. apply andb_false_r.
    - rewrite <-(Z.mod_small data (2 ^ k)) by lia.
      by rewrite Z.mod_pow2_bits_high by lia. }
  rewrite Hl, (Z.shiftl_mul_pow2 x) in Ha by lia.
  rewrite (Z.shiftl_mul_pow2 x) by lia. lia.
Qed.

#[export] Hint Resolve wrapu_range wraps_range : lon.

(** ** Byte lists *)

Abbreviation byte := Corelib.Init.Byte.byte.

(** [memcpy(dst + pos, src, len)] on a block: [src] overwrites the bytes
    of [l] from [pos] on. *)
Definition splice {A} (pos : Z) (src l : list A) : list A :=
  take (Z.to_nat pos) l ++ src ++ drop (Z.to_nat pos + length src) l.

(** [len] elements of [l] from [pos] on. *)
Definition slice {A} (pos len : Z) (l : list A) : list A :=
  take (Z.to_nat len) (drop (Z.to_nat pos) l).

Definition zlen {A} (l : list A) : Z := Z.of_nat (length l).

Section Slices.
Context {A : Type}.
Implicit Types l src : list A.

Lemma zlen_nonneg l : 0 ≤ zlen l.
Proof. unfold zlen. lia. Qed.

Lemma zlen_app l1 l2 : zlen (l1 ++ l2) = zlen l1 + zlen l2.
Proof. unfold zlen. rewrite length_app. lia. Qed.

Lemma zlen_nil_inv l : zlen l = 0 → l = [].
Proof. unfold zlen. destruct l; simpl; [done|lia]. Qed.

Lemma zlen_splice pos src l :
  0 ≤ pos → pos + zlen src ≤ zlen l → zlen (splice pos src l) = zlen l.
Proof.
  unfold zlen, splice. intros. rewrite !length_app, length_take, length_drop. lia.
Qed.

Lemma zlen_slice pos len l :
  0 ≤ pos → 0 ≤ len → pos + len ≤ zlen l → zlen (slice pos len l) = len.
Proof.
  unfold zlen, slice. intros. rewrite length_take, length_drop. lia.
Qed.

Lemma splice_nil pos l : 0 ≤ pos → splice pos [] l = l.
Proof.
  intros. unfold splice. simpl. rewrite Nat.add_0_r. apply take_drop.
Qed.

(** Two adjacent writes are one write. *)
Lemma splice_splice pos s1 s2 l :
  0 ≤ pos ≤ zlen l →
  splice (pos + zlen s1) s2 (splice pos s1 l) = splice pos (s1 ++ s2) l.
Proof.
  unfold zlen, splice. intros.
  replace (Z.to_nat (pos + Z.of_nat (length s1)))
    with (Z.to_nat pos + length s1)%nat by lia.
  set (p := Z.to_nat pos). rewrite length_app.
  rewrite (assoc_L app (take p l) s1).
  rewrite take_app_length' by (rewrite length_app, length_take; lia).
  rewrite drop_app_ge by (rewrite length_app, length_take; lia).
  rewrite drop_drop, length_app, length_take.
  rewrite <-!(assoc_L app). do 3 f_equal. f_equal. lia.
Qed.

(** Reading back what was written. *)
Lemma slice_splice pos src l :
  0 ≤ pos → pos + zlen src ≤ zlen l → slice pos (zlen src) (splice pos src l) = src.
Proof.
  unfold zlen, slice, splice. intros.
  rewrite drop_app_length' by (rewrite length_take; lia).
  rewrite take_app_length'; [done|lia].
Qed.

Lemma slice_app pos n1 n2 l :
  0 ≤ pos → 0 ≤ n1 → 0 ≤ n2 →
  slice pos n1 l ++ slice (pos + n1) n2 l = slice pos (n1 + n2) l.
Proof.
  unfold slice. intros.
  replace (Z.to_nat (pos + n1)) with (Z.to_nat pos + Z.to_nat n1)%nat by lia.
  replace (Z.to_nat (n1 + n2)) with (Z.to_nat n1 + Z.to_nat n2)%nat by lia.
  rewrite <-drop_drop, take_take_drop. done.
Qed.

Lemma slice_all l : slice 0 (zlen l) l = l.
Proof. unfold slice, zlen. rewrite drop_0, take_ge; [done|lia]. Qed.

Lemma slice_0 pos l : slice pos 0 l = [].
Proof. done. Qed.
End Slices.

(** A chain of equally sized blocks, seen as one flat block. *)
Section Blocks.
Context {A : Type} (ns : Z) (Hns : 0 < ns).
Implicit Types (bs : list (list A)) (b : list A).

Definition uniform bs : Prop := Forall (λ b, zlen b = ns) bs.

Lemma zlen_concat bs : uniform bs → zlen (concat bs) = ns * zlen bs.
Proof.
  unfold zlen. induction 1 as [|b bs Hb _ IH]; simpl; [lia|].
  unfold zlen in *. rewrite length_app. lia.
Qed.

Lemma uniform_lookup bs i b : uniform bs → bs !! i = Some b → zlen b = ns.
Proof. intros H Hi. by eapply Forall_lookup_1 in H. Qed.

Lemma drop_concat bs i :
  uniform bs → drop (Z.to_nat (ns * Z.of_nat i)) (concat bs) = concat (drop i bs).
Proof using Hns.
  intros H. revert i. induction H as [|b bs Hb Hbs IH]; intros i.
  { cbn. by rewrite !drop_nil. }
  destruct i as [|i]; simpl.
  { rewrite Z.mul_0_r. done. }
  unfold zlen in Hb. rewrite <-IH.
  rewrite drop_app_ge by lia. f_equal. lia.
Qed.

Lemma take_concat bs i :
  uniform bs → take (Z.to_nat (ns * Z.of_nat i)) (concat bs) = concat (take i bs).
Proof using Hns.
  intros H. revert i. induction H as [|b bs Hb Hbs IH]; intros i.
  { cbn. by rewrite !take_nil. }
  destruct i as [|i]; simpl.
  { rewrite Z.mul_0_r. done. }
  unfold zlen in Hb. rewrite <-IH.
  rewrite take_app_ge by lia. do 2 f_equal. lia.
Qed.

(** A read that stays within block [i] is a read of the flat block. *)
Lemma slice_block bs i b p n :
  uniform bs → bs !! i = Some b → 0 ≤ p → 0 ≤ n → p + n ≤ ns →
  slice p n b = slice (ns * Z.of_nat i + p) n (concat bs).
Proof using Hns.
  intros Hu Hi Hp Hn Hle. unfold slice.
  replace (Z.to_nat (ns * Z.of_nat i + p))
    with (Z.to_nat (ns * Z.of_nat i) + Z.to_nat p)%nat by lia.
  rewrite <-drop_drop, drop_concat by done.
  rewrite (drop_S _ b) by done. simpl.
  pose proof (uniform_lookup _ _ _ Hu Hi) as Hl. unfold zlen in Hl.
  rewrite drop_app_le by lia. rewrite take_app_le; [done|].
  rewrite length_drop. lia.
Qed.

(** A write that stays within block [i] is a write to the flat block. *)
Lemma splice_block bs i b p src :
  uniform bs → bs !! i = Some b → 0 ≤ p → p + zlen src ≤ ns →
  concat (<[i:=splice p src b]> bs) = splice (ns * Z.of_nat i + p) src (concat bs).
Proof using Hns.
  intros Hu Hi Hp Hle. unfold splice.
  pose proof (uniform_lookup _ _ _ Hu Hi) as Hl. unfold zlen in *.
  replace (Z.to_nat (ns * Z.of_nat i + p))
    with (Z.to_nat (ns * Z.of_nat i) + Z.to_nat p)%nat by lia.
  assert (Hlt : (i < length bs)%nat) by (by eapply lookup_lt_Some).
  rewrite insert_take_drop by done. rewrite concat_app. simpl.
  rewrite <-(take_concat bs i), <-(drop_concat bs (S i)) by done.
  rewrite <-take_take_drop, (drop_concat bs i), (drop_S bs b i) by done. simpl.
  rewrite (take_app_le b) by lia. rewrite <-!(assoc_L app). do 3 f_equal.
  rewrite <-Nat.add_assoc, <-(drop_drop _ _ (Z.to_nat (ns * Z.of_nat i))).
  rewrite (drop_concat bs i), (drop_S bs b i) by done. simpl.
  rewrite drop_app_le by lia. f_equal.
  by rewrite drop_concat by done.
Qed.

Lemma uniform_insert bs i b : uniform bs → zlen b = ns → uniform (<[i:=b]> bs).
Proof. intros. by apply Forall_insert. Qed.

Lemma uniform_app bs1 bs2 : uniform bs1 → uniform bs2 → uniform (bs1 ++ bs2).
Proof. apply Forall_app_2. Qed.
End Blocks.

(** Lists on whose elements a predicate is constant. *)
Section Filter.
Context {A : Type} (P : A → Prop) `{!∀ x, Decision (P x)}.

Lemma filter_all (l : list A) : Forall P l → filter P l = l.
Proof. induction 1; [done|]. rewrite filter_cons, decide_True by done. by f_equal. Qed.
Lemma filter_none (l : list A) : Forall (λ x, ¬ P x) l → filter P l = [].
Proof. induction 1; [done|]. by rewrite filter_cons, decide_False by done. Qed.
End Filter.

Lemma omap_id_fmap {A B} (f : A → option B) (l : list A) : omap id (f <$> l) = omap f l.
Proof. induction l as [|a l IH]; [done|]. csimpl. destruct (f a); [|exact IH]. simpl. f_equal. exact IH. Qed.

Lemma delete_keeps {A} (l : list A) i x y : y ∈ l → l !! i = Some x → x ≠ y → y ∈ delete i l.
Proof.
  intros Hy Hi Hne. apply list_elem_of_lookup in Hy as [j Hj]. apply list_elem_of_lookup.
  destruct (decide (j < i)%nat); [exists j; by rewrite list_lookup_delete_lt|].
  exists (j - 1)%nat. destruct (decide (j = i)) as [->|]; [congruence|].
  rewrite list_lookup_delete_ge by lia. by replace (S (j - 1)) with j by lia.
Qed.

(** ** Tactics *)

(** Runs the monadic code in the goal one operation further. *)
Ltac mrun := cbn [mbind' mreturn mget mput mmodify mthrow mfault].

(** The same at the last operation of a run. *)
Ltac mend := unfold mreturn, mget, mput, mmodify, mthrow, mfault; cbv beta.

(** Runs the first operation of the goal, whose outcome [E] states. *)
Ltac mstep E :=
  first [ rewrite (bind_Ret _ _ _ _ _ E) | rewrite (bind_Throw _ _ _ _ _ E)
        | rewrite (bind_Fault _ _ _ _ E) | rewrite E ].

(** Takes a returned run [H] apart, one operation. *)
Tactic Notation "minv" hyp(H) "as" simple_intropattern(a) simple_intropattern(s)
    simple_intropattern(E) :=
  apply bind_Ret_inv in H as (a & s & E & H).

(** Decides the boolean comparisons of the code in the goal. *)
Ltac zcase :=
  match goal with
  | |- context [?a <? ?b] => destruct (Z.ltb_spec a b)
  | |- context [?a <=? ?b] => destruct (Z.leb_spec a b)
  | |- context [?a =? ?b] => destruct (Z.eqb_spec a b)
  end.

(** The address of a new object in a heap. *)
Lemma fresh_None {A} (m : gmap nat A) : m !! fresh (dom m) = None.
Proof. apply not_elem_of_dom, is_fresh. Qed.
Lemma fresh_ne {A} (m : gmap nat A) x : is_Some (m !! x) → fresh (dom m) ≠ x.
Proof. intros [a Ha] <-. by rewrite fresh_None in Ha. Qed.
