(* ===== verification/Codec.v ===== *)
(** * Integer codecs: util/endian.h, and ZigZag and Varint of util/serializer

    - [Endian]: byte order of the host and of a buffer, [byteswap] and the
      native memory image of an integer (util/endian.h).
    - [ZigZag]: the six zigzag conversions, their agreement with the
      arithmetic description and their being inverse to each other.
    - [Varint]: the three base-128 encoders; length bounds and the value
      the bytes stand for. *)

From S2P Require Import Prelude.

(** ** util/endian.h *)

Inductive endian := LON_LITTLE_ENDIAN | LON_BIG_ENDIAN.

#[global] Instance endian_eq_dec : EqDecision endian.
Proof. solve_decision. Defined.

(** What the preprocessor and the machine fix: the host byte order, and
    the content of memory that [new char[n]] leaves uninitialised, and the limit of [std::string]. *)
Class Platform := {
  LON_ENDIAN : endian;
  uninit : byte;
  string_max_size : Z;   (* std::string::max_size() *)
}.

(** A little-endian host with libstdc++, used to run the definitions. *)
Definition x86_64 : Platform :=
  {| LON_ENDIAN := LON_LITTLE_ENDIAN; uninit := Byte.x00; string_max_size := 2 ^ 62 - 1 |}.

(** The fixed-width integer types, by their size in bytes and sign. *)
Record ity := Ity { ity_size : nat; ity_signed : bool }.

Definition int8_t := Ity 1 true.
Definition uint8_t := Ity 1 false.
Definition int16_t := Ity 2 true.
Definition uint16_t := Ity 2 false.
Definition int32_t := Ity 4 true.
Definition uint32_t := Ity 4 false.
Definition int64_t := Ity 8 true.
Definition uint64_t := Ity 8 false.

Definition ity_bits (t : ity) : Z := 8 * Z.of_nat (ity_size t).
Definition ity_range (t : ity) (z : Z) : Prop :=
  if ity_signed t then srange (ity_bits t) z else urange (ity_bits t) z.
(** Conversion of an integer to the type. *)
Definition ity_conv (t : ity) (z : Z) : Z :=
  if ity_signed t then wraps (ity_bits t) z else wrapu (ity_bits t) z.

Lemma ity_conv_small t z : (0 < ity_size t)%nat → ity_range t z → ity_conv t z = z.
Proof.
  unfold ity_range, ity_conv, ity_bits. intros Hs.
  destruct (ity_signed t); [apply wraps_small|apply wrapu_small]; lia.
Qed.

Lemma ity_conv_wrapu t z : (0 < ity_size t)%nat →
  ity_conv t (wrapu (ity_bits t) z) = ity_conv t z.
Proof.
  unfold ity_conv, ity_bits. intros Hs. destruct (ity_signed t).
  - apply wraps_wrapu.
  - unfold wrapu. by rewrite Zmod_mod.
Qed.

Section Endian.
Context `{Platform}.

(** [bswap_16/32/64] of <byteswap.h>: the bytes of the word reversed. *)
Definition bswap (n : nat) (v : Z) : Z := le_combine (rev (le_split n v)).

(** [(T)bswap_N((uintN_t)value)] *)
Definition byteswap (t : ity) (value : Z) : Z :=
  ity_conv t (bswap (ity_size t) (wrapu (ity_bits t) value)).

Definition byteswapToBigEndian (t : ity) (v : Z) : Z :=
  match LON_ENDIAN with
  | LON_LITTLE_ENDIAN => byteswap t v
  | LON_BIG_ENDIAN => v
  end.

Definition byteswapToLittleEndian (t : ity) (v : Z) : Z :=
  match LON_ENDIAN with
  | LON_LITTLE_ENDIAN => v
  | LON_BIG_ENDIAN => byteswap t v
  end.

(** The object representation of an integer on the host, and back. *)
Definition to_mem (t : ity) (v : Z) : list byte :=
  match LON_ENDIAN with
  | LON_LITTLE_ENDIAN => le_split (ity_size t) v
  | LON_BIG_ENDIAN => rev (le_split (ity_size t) v)
  end.
Definition of_mem (t : ity) (bs : list byte) : Z :=
  ity_conv t (le_combine (match LON_ENDIAN with
                          | LON_LITTLE_ENDIAN => bs
                          | LON_BIG_ENDIAN => rev bs
                          end)).

Lemma le_split_wrapu t v :
  le_split (ity_size t) (wrapu (ity_bits t) v) = le_split (ity_size t) v.
Proof.
  rewrite (le_split_mod v). unfold wrapu, ity_bits. f_equal. f_equal. f_equal. lia.
Qed.

Lemma le_split_conv t v : (0 < ity_size t)%nat →
  le_split (ity_size t) (ity_conv t v) = le_split (ity_size t) v.
Proof.
  intros Hs. rewrite <-(le_split_wrapu t v), <-(le_split_wrapu t (ity_conv t v)).
  f_equal. unfold ity_conv. destruct (ity_signed t).
  - apply wrapu_wraps.
  - unfold wrapu. apply Zmod_mod.
Qed.

Lemma le_split_byteswap t v : (0 < ity_size t)%nat →
  le_split (ity_size t) (byteswap t v) = rev (le_split (ity_size t) v).
Proof.
  intros Hs. unfold byteswap. rewrite le_split_conv by done.
  unfold bswap. rewrite split_le_combine', le_split_wrapu; [done|].
  by rewrite length_rev, length_le_split.
Qed.

Lemma ity_conv_le_split t v : (0 < ity_size t)%nat →
  ity_conv t (le_combine (le_split (ity_size t) v)) = ity_conv t v.
Proof.
  intros Hs. rewrite le_combine_split.
  replace (Z.of_nat (ity_size t) * 8) with (ity_bits t) by (unfold ity_bits; lia).
  by apply ity_conv_wrapu.
Qed.

Lemma length_to_mem t v : length (to_mem t v) = ity_size t.
Proof.
  unfold to_mem. destruct LON_ENDIAN; [|rewrite length_rev]; apply length_le_split.
Qed.

Lemma of_to_mem t v : (0 < ity_size t)%nat → of_mem t (to_mem t v) = ity_conv t v.
Proof.
  intros Hs. unfold of_mem, to_mem.
  destruct LON_ENDIAN; rewrite ?rev_involutive; by apply ity_conv_le_split.
Qed.

Lemma byteswap_conv t v : (0 < ity_size t)%nat →
  byteswap t (ity_conv t v) = byteswap t v.
Proof.
  intros Hs. unfold byteswap, bswap. do 3 f_equal.
  unfold ity_conv. destruct (ity_signed t).
  - by rewrite wrapu_wraps.
  - unfold wrapu. by rewrite Zmod_mod.
Qed.

Lemma byteswap_involutive_conv t v : (0 < ity_size t)%nat →
  byteswap t (byteswap t v) = ity_conv t v.
Proof.
  intros Hs. unfold byteswap at 1, bswap.
  rewrite le_split_wrapu, le_split_byteswap, rev_involutive by done.
  by apply ity_conv_le_split.
Qed.
End Endian.

(** ** class ZigZag *)
Module ZigZag.
(** [n] is promoted to [int] where it is narrower; a left shift of a
    signed value keeps the low bits (two's complement). *)
Definition encode16 (n : Z) : Z :=
  u16 (Z.lxor (s32 (Z.shiftl n 1)) (Z.shiftr n (2 * 8 - 1))).
Definition decode16 (n : Z) : Z :=
  wraps 16 (Z.lxor (Z.shiftr n 1) (s32 (- Z.land n 1))).
Definition encode32 (n : Z) : Z :=
  u32 (Z.lxor (s32 (Z.shiftl n 1)) (Z.shiftr n (4 * 8 - 1))).
Definition decode32 (n : Z) : Z :=
  s32 (Z.lxor (Z.shiftr n 1) (u32 (- Z.land n 1))).
Definition encode64 (n : Z) : Z :=
  u64 (Z.lxor (s64 (Z.shiftl n 1)) (Z.shiftr n (8 * 8 - 1))).
Definition decode64 (n : Z) : Z :=
  s64 (Z.lxor (Z.shiftr n 1) (u64 (- Z.land n 1))).

(** The arithmetic description of the code. *)
Definition spec (n : Z) : Z := if n <? 0 then - 2 * n - 1 else 2 * n.
Definition unspec (u : Z) : Z := if Z.even u then u / 2 else - (u / 2) - 1.

Lemma unspec_spec n : unspec (spec n) = n.
Proof.
  unfold unspec, spec. destruct (Z.ltb_spec n 0) as [Hn|Hn].
  - replace (- 2 * n - 1) with (1 + 2 * (- n - 1)) by lia.
    rewrite Z.even_add_mul_2. change (Z.even 1) with false. cbv iota.
    rewrite (Z.mul_comm 2), Z.div_add by lia. change (1 / 2) with 0. lia.
  - rewrite Z.even_mul. change (Z.even 2) with true. cbn [orb].
    rewrite Z.mul_comm, Z.div_mul by lia. done.
Qed.

Lemma spec_unspec u : 0 ≤ u → spec (unspec u) = u.
Proof.
  intros Hu. unfold unspec, spec.
  pose proof (Zmod_even u) as He. pose proof (Z.div_mod u 2).
  destruct (Z.even u).
  - rewrite (proj2 (Z.ltb_ge _ _)); [lia|]. apply Z.div_pos; lia.
  - pose proof (Z.div_pos u 2). rewrite (proj2 (Z.ltb_lt _ _)); lia.
Qed.

Lemma spec_range w n : 0 < w → srange w n → urange w (spec n).
Proof.
  unfold srange, urange, spec. intros Hw H. pose proof (pow2_half w Hw).
  destruct (Z.ltb_spec n 0); lia.
Qed.

Lemma unspec_range w u : 0 < w → urange w u → srange w (unspec u).
Proof.
  unfold srange, urange, unspec. intros Hw H. pose proof (pow2_half w Hw).
  pose proof (Z.div_mod u 2). pose proof (Z.mod_pos_bound u 2).
  destruct (Z.even u); lia.
Qed.

(** The sign smear [n >> (w - 1)] is 0 or -1. *)
Lemma shiftr_sign w n : 0 < w → srange w n →
  Z.shiftr n (w - 1) = if n <? 0 then -1 else 0.
Proof.
  unfold srange. intros Hw Hn. rewrite Z.shiftr_div_pow2 by lia.
  pose proof (Z.pow_pos_nonneg 2 (w - 1)).
  destruct (Z.ltb_spec n 0).
  - symmetry. apply Z.div_unique with (n + 2 ^ (w - 1)); lia.
  - apply Z.div_small. lia.
Qed.

(** Only the low [w] bits of an operand of [^] reach the low bits. *)
Lemma wrapu_lxor_l w v a b : 0 < w ≤ v → wrapu w (Z.lxor (wraps v a) b) = wrapu w (Z.lxor a b).
Proof.
  intros Hw. unfold wrapu. rewrite <-!Z.land_ones by lia.
  apply Z.bits_inj'. intros i Hi.
  rewrite !Z.land_spec, !Z.lxor_spec. destruct (Z.ltb_spec i w).
  - do 2 f_equal.
    assert (E : Z.testbit (wrapu v (wraps v a)) i = Z.testbit (wrapu v a) i)
      by (by rewrite wrapu_wraps).
    unfold wrapu in E. by rewrite !Z.mod_pow2_bits_low in E by lia.
  - rewrite Z.ones_spec_high by lia. by rewrite !andb_false_r.
Qed.

Lemma encode_spec w v n : 0 < w ≤ v → srange w n →
  wrapu w (Z.lxor (wraps v (Z.shiftl n 1)) (Z.shiftr n (w - 1))) = spec n.
Proof.
  intros Hw Hn. rewrite wrapu_lxor_l by done. rewrite shiftr_sign by (done || lia).
  rewrite Z.shiftl_mul_pow2 by lia. change (2 ^ 1) with 2.
  pose proof (spec_range w n ltac:(lia) Hn) as Hr. revert Hr. unfold spec.
  destruct (Z.ltb_spec n 0).
  - rewrite Z.lxor_m1_r, Z.lnot_eq_pred_opp. intros. rewrite <-(wrapu_small w); [|lia|done].
    f_equal. lia.
  - rewrite Z.lxor_0_r. intros. rewrite (Z.mul_comm n). apply wrapu_small; [lia|done].
Qed.

Lemma land_1 u : Z.land u 1 = if Z.even u then 0 else 1.
Proof. change 1 with (Z.ones 1) at 1. rewrite Z.land_ones by lia. apply Zmod_even. Qed.

(** [x ^ (2^v - 1)] and [x ^ -1] complement the low bits. *)
Lemma lxor_ones_l v x : 0 ≤ v → urange v x → Z.lxor x (2 ^ v - 1) = 2 ^ v - 1 - x.
Proof.
  unfold urange. intros Hv Hx.
  replace (2 ^ v - 1) with (Z.ones v) by (rewrite Z.ones_equiv; lia).
  rewrite <-(Z.mod_small x (2 ^ v)) by lia. rewrite <-Z.land_ones by lia.
  replace (Z.ones v - Z.land x (Z.ones v)) with (Z.ldiff (Z.ones v) x).
  - apply Z.bits_inj'. intros i Hi.
    rewrite Z.lxor_spec, Z.land_spec, Z.ldiff_spec.
    destruct (Z.testbit x i), (Z.testbit (Z.ones v) i); done.
  - rewrite <-Z.sub_nocarry_ldiff.
    + f_equal. rewrite Z.land_ones, Z.mod_small by lia. done.
    + apply Z.bits_inj'. intros i Hi. rewrite Z.ldiff_spec, Z.bits_0.
      destruct (Z.testbit x i) eqn:E; [|done].
      rewrite Z.ones_spec_low; [done|]. split; [lia|].
      destruct (Z.ltb_spec i v); [done|]. exfalso.
      rewrite (Z.bits_above_log2 x i) in E; [done|lia|].
      destruct (Z.eq_dec x 0) as [->|]; [simpl; simpl in E; by rewrite Z.bits_0 in E|].
      apply Z.log2_lt_pow2; [lia|]. apply Z.lt_le_trans with (2 ^ v); [lia|].
      apply Z.pow_le_mono_r; lia.
Qed.

Lemma decode_spec_u w u : 1 < w → urange w u →
  wraps w (Z.lxor (Z.shiftr u 1) (wrapu w (- Z.land u 1))) = unspec u.
Proof.
  intros Hw Hu. pose proof (unspec_range w u ltac:(lia) Hu) as Hr.
  rewrite land_1, Z.shiftr_div_pow2 by lia. change (2 ^ 1) with 2.
  revert Hr. unfold unspec. destruct (Z.even u); intros Hr.
  - rewrite wrapu_small by (unfold urange; pose proof (pow2_pos w); lia).
    rewrite Z.lxor_0_r. apply wraps_small; [lia|done].
  - replace (wrapu w (- (1))) with (2 ^ w - 1).
    + rewrite lxor_ones_l; [|lia|].
      * rewrite <-(wraps_small w ltac:(lia) (- (u / 2) - 1)) by done.
        unfold wraps. f_equal.
        replace (2 ^ w - 1 - u / 2 + 2 ^ (w - 1))
          with (- (u / 2) - 1 + 2 ^ (w - 1) + 1 * 2 ^ w) by lia.
        by rewrite Z_mod_plus_full.
      * unfold urange in *. pose proof (Z.div_pos u 2). split; [lia|].
        apply Z.le_lt_trans with u; [|lia]. apply Z.div_le_upper_bound; lia.
    + unfold wrapu. apply Z.mod_unique with (-1); [|lia].
      left. pose proof (pow2_pos w). lia.
Qed.

Lemma decode16_spec u : urange 16 u → decode16 u = unspec u.
Proof.
  intros Hu. pose proof (unspec_range 16 u ltac:(lia) Hu) as Hr. unfold decode16.
  rewrite land_1, Z.shiftr_div_pow2 by lia. change (2 ^ 1) with 2.
  revert Hr. unfold unspec. destruct (Z.even u); intros Hr.
  - change (s32 (- 0)) with 0. rewrite Z.lxor_0_r. apply wraps_small; [lia|done].
  - change (s32 (- (1))) with (-1). rewrite Z.lxor_m1_r, Z.lnot_eq_pred_opp.
    replace (Z.pred (- (u / 2))) with (- (u / 2) - 1) by lia.
    by apply wraps_small.
Qed.

Lemma encode32_spec n : srange 32 n → encode32 n = spec n.
Proof. apply (encode_spec 32 32). lia. Qed.
Lemma encode64_spec n : srange 64 n → encode64 n = spec n.
Proof. apply (encode_spec 64 64). lia. Qed.
Lemma encode16_spec n : srange 16 n → encode16 n = spec n.
Proof. apply (encode_spec 16 32). lia. Qed.
Lemma decode32_spec u : urange 32 u → decode32 u = unspec u.
Proof. apply (decode_spec_u 32). lia. Qed.
Lemma decode64_spec u : urange 64 u → decode64 u = unspec u.
Proof. apply (decode_spec_u 64). lia. Qed.

Lemma decode_encode32 n : srange 32 n → decode32 (encode32 n) = n.
Proof.
  intros Hn. rewrite encode32_spec by done. rewrite decode32_spec by (apply spec_range; [lia|done]).
  apply unspec_spec.
Qed.
Lemma decode_encode64 n : srange 64 n → decode64 (encode64 n) = n.
Proof.
  intros Hn. rewrite encode64_spec by done. rewrite decode64_spec by (apply spec_range; [lia|done]).
  apply unspec_spec.
Qed.
Lemma encode32_range n : srange 32 n → urange 32 (encode32 n).
Proof. intros. rewrite encode32_spec by done. by apply spec_range. Qed.
Lemma encode64_range n : srange 64 n → urange 64 (encode64 n).
Proof. intros. rewrite encode64_spec by done. by apply spec_range. Qed.

(** ZigZag is the bijection 0, -1, 1, -2, ... of the signed onto the
    unsigned integers of each width, and decoding inverts it. *)
Theorem zigzag_bijective :
  (∀ n, srange 16 n → encode16 n = spec n ∧ decode16 (encode16 n) = n) ∧
  (∀ n, srange 32 n → encode32 n = spec n ∧ decode32 (encode32 n) = n) ∧
  (∀ n, srange 64 n → encode64 n = spec n ∧ decode64 (encode64 n) = n) ∧
  (∀ u, urange 16 u → srange 16 (decode16 u) ∧ encode16 (decode16 u) = u) ∧
  (∀ u, urange 32 u → srange 32 (decode32 u) ∧ encode32 (decode32 u) = u) ∧
  (∀ u, urange 64 u → srange 64 (decode64 u) ∧ encode64 (decode64 u) = u).
Proof.
  assert (Hs : ∀ w u, 0 < w → urange w u →
            srange w (unspec u) ∧ spec (unspec u) = u).
  { intros w u Hw Hu. split; [by apply unspec_range|]. apply spec_unspec, Hu. }
  split_and!; intros x Hx.
  - rewrite encode16_spec by done. split; [done|].
    rewrite decode16_spec by (apply spec_range; [lia|done]). apply unspec_spec.
  - split; [by apply encode32_spec|by apply decode_encode32].
  - split; [by apply encode64_spec|by apply decode_encode64].
  - rewrite decode16_spec by done. destruct (Hs 16 x); [lia|done|].
    by rewrite encode16_spec by done.
  - rewrite decode32_spec by done. destruct (Hs 32 x); [lia|done|].
    by rewrite encode32_spec by done.
  - rewrite decode64_spec by done. destruct (Hs 64 x); [lia|done|].
    by rewrite encode64_spec by done.
Qed.
End ZigZag.

(** ** class Varint *)
Module Varint.
(** The loop of the three encoders: [buf[cnt] = (n & 127) | 128; n >>= 7],
    and the last byte without the continuation bit. [fuel] is the number
    of bytes the widest value of the type takes. *)
Fixpoint encode_loop (fuel : nat) (n : Z) : option (list byte) :=
  match fuel with
  | O => None
  | S fuel =>
      if 127 <? n
      then tail ← encode_loop fuel (Z.shiftr n 7);
           Some (byte.of_Z (Z.lor (Z.land n 127) 128) :: tail)
      else Some [byte.of_Z n]
  end.

(** [int8_t encodeN(uint8_t *buf, uintN_t n)]: the return value and the
    bytes put into [buf]; [buf] says whether the pointer is non-null. *)
Definition encode (fuel : nat) (buf : bool) (n : Z) : option (Z * list byte) :=
  if negb buf then Some (-1, [])
  else bs ← encode_loop fuel n; Some (wraps 8 (u8 (zlen bs - 1) + 1), bs).

Definition encode16 (buf : bool) (n : Z) : option (Z * list byte) := encode 3 buf n.
Definition encode32 (buf : bool) (n : Z) : option (Z * list byte) := encode 5 buf n.
Definition encode64 (buf : bool) (n : Z) : option (Z * list byte) := encode 10 buf n.

(** The value of a base-128 number, least significant group first. *)
Fixpoint value (bs : list byte) : Z :=
  match bs with
  | [] => 0
  | b :: bs => Z.land (byte.unsigned b) 127 + 2 ^ 7 * value bs
  end.

(** All bytes but the last carry the continuation bit. *)
Fixpoint well_terminated (bs : list byte) : Prop :=
  match bs with
  | [] => False
  | [b] => byte.unsigned b < 128
  | b :: bs => 128 ≤ byte.unsigned b ∧ well_terminated bs
  end.

Lemma land_127 n : Z.land n 127 = n mod 128.
Proof. change 127 with (Z.ones 7). by rewrite Z.land_ones by lia. Qed.

Lemma lor_128 n : 0 ≤ n → Z.lor (Z.land n 127) 128 = n mod 128 + 128.
Proof.
  intros Hn. rewrite land_127. rewrite <-Z.lxor_lor.
  - rewrite <-Z.add_nocarry_lxor; [done|].
    change 128 with (Z.shiftl 1 7). apply Z.bits_inj'. intros i Hi.
    rewrite Z.land_spec, Z.bits_0, Z.shiftl_spec by lia.
    destruct (Z.ltb_spec i 7).
    + rewrite (Z.testbit_neg_r 1) by lia. apply andb_false_r.
    + change (Z.shiftl 1 7) with (2 ^ 7).
      by rewrite Z.mod_pow2_bits_high by lia.
  - change 128 with (Z.shiftl 1 7). apply Z.bits_inj'. intros i Hi.
    rewrite Z.land_spec, Z.bits_0, Z.shiftl_spec by lia.
    destruct (Z.ltb_spec i 7).
    + rewrite (Z.testbit_neg_r 1) by lia. apply andb_false_r.
    + change (Z.shiftl 1 7) with (2 ^ 7).
      by rewrite Z.mod_pow2_bits_high by lia.
Qed.

Lemma unsigned_of_small z : 0 ≤ z < 256 → byte.unsigned (byte.of_Z z) = z.
Proof. intros. rewrite byte.unsigned_of_Z. apply Z.mod_small. lia. Qed.

(** Everything about one run of the loop. *)
Lemma encode_loop_spec fuel n :
  0 ≤ n < 2 ^ (7 * Z.of_nat fuel) → (0 < fuel)%nat →
  ∃ bs, encode_loop fuel n = Some bs ∧ (0 < length bs ≤ fuel)%nat ∧
        value bs = n ∧ well_terminated bs.
Proof.
  revert n. induction fuel as [|fuel IH]; [lia|]. intros n Hn _.
  cbn [encode_loop]. destruct (Z.ltb_spec 127 n) as [Hbig|Hsmall].
  - destruct fuel as [|fuel].
    { change (2 ^ (7 * Z.of_nat 1)) with 128 in Hn. lia. }
    destruct (IH (Z.shiftr n 7)) as (bs & E & Hl & Hv & Ht); [|lia|].
    { rewrite Z.shiftr_div_pow2 by lia. split; [apply Z.div_pos; lia|].
      apply Z.div_lt_upper_bound; [lia|]. rewrite <-Z.pow_add_r by lia.
      replace (7 + 7 * Z.of_nat (S fuel)) with (7 * Z.of_nat (S (S fuel))) by lia. lia. }
    rewrite E. cbn [mbind option_bind]. eexists. split; [done|].
    rewrite lor_128 by lia. pose proof (Z.mod_pos_bound n 128).
    assert (Hb : byte.unsigned (byte.of_Z (n mod 128 + 128)) = n mod 128 + 128)
      by (apply unsigned_of_small; lia).
    split_and!.
    + simpl. lia.
    + simpl. lia.
    + cbn [value]. rewrite Hb, Hv, land_127, Z.shiftr_div_pow2 by lia.
      replace ((n mod 128 + 128) mod 128) with (n mod 128).
      * change (2 ^ 7) with 128. pose proof (Z.div_mod n 128). lia.
      * rewrite <-Z.add_mod_idemp_r by lia. rewrite Z_mod_same_full, Z.add_0_r.
        by rewrite Z.mod_mod by lia.
    + destruct bs as [|b bs]; [simpl in Hl; lia|].
      cbn [well_terminated]. split; [|exact Ht]. rewrite Hb. lia.
  - eexists. split; [done|]. assert (Hb : byte.unsigned (byte.of_Z n) = n)
      by (apply unsigned_of_small; lia).
    cbn [length value well_terminated]. rewrite Hb. split_and!; try lia.
    rewrite land_127, Z.mod_small by lia. lia.
Qed.

Lemma varint_encode_spec fuel n :
  0 ≤ n < 2 ^ (7 * Z.of_nat fuel) → (0 < fuel ≤ 10)%nat →
  ∃ bs, encode fuel true n = Some (zlen bs, bs) ∧ (0 < length bs ≤ fuel)%nat ∧
        value bs = n ∧ well_terminated bs.
Proof.
  intros Hn Hf. destruct (encode_loop_spec fuel n Hn) as (bs & E & Hl & ?); [lia|].
  exists bs. split; [|done]. unfold encode. simpl. rewrite E. simpl.
  do 2 f_equal. unfold zlen. rewrite wrapu_small by (unfold urange; lia).
  rewrite wraps_small; [lia|lia|]. unfold srange. simpl. lia.
Qed.
End Varint.

(** C40: The three varint encoders always terminate; they fill at most 3, 5 and
    10 bytes of the caller's buffer, return that number, end in the only
    byte without a continuation bit, and the bytes denote the argument. A
    null buffer is refused with -1. *)
Theorem varint_encode_correct :
  (∀ n, urange 16 n → ∃ bs, Varint.encode16 true n = Some (zlen bs, bs) ∧
     1 ≤ zlen bs ≤ 3 ∧ Varint.value bs = n ∧ Varint.well_terminated bs) ∧
  (∀ n, urange 32 n → ∃ bs, Varint.encode32 true n = Some (zlen bs, bs) ∧
     1 ≤ zlen bs ≤ 5 ∧ Varint.value bs = n ∧ Varint.well_terminated bs) ∧
  (∀ n, urange 64 n → ∃ bs, Varint.encode64 true n = Some (zlen bs, bs) ∧
     1 ≤ zlen bs ≤ 10 ∧ Varint.value bs = n ∧ Varint.well_terminated bs) ∧
  (∀ n, Varint.encode16 false n = Some (-1, []) ∧
        Varint.encode32 false n = Some (-1, []) ∧
        Varint.encode64 false n = Some (-1, [])).
Proof.
  unfold urange.
  split_and!; [intros n Hn..|intros n; done].
  - destruct (Varint.varint_encode_spec 3 n) as (bs & ? & ? & ?); [simpl; lia|lia|].
    exists bs. split; [done|]. split; [unfold zlen; lia|done].
  - destruct (Varint.varint_encode_spec 5 n) as (bs & ? & ? & ?); [simpl; lia|lia|].
    exists bs. split; [done|]. split; [unfold zlen; lia|done].
  - destruct (Varint.varint_encode_spec 10 n) as (bs & ? & ? & ?); [simpl; lia|lia|].
    exists bs. split; [done|]. split; [unfold zlen; lia|done].
Qed.
