(* ===== verification/Float32.v ===== *)
(** * The binary32 arithmetic of ByteArray::addTotalSize

    [size_t new_node_count = ceil(size * 1.0f / m_node_size)] converts two
    integers to [float], divides them in [float] and rounds up. The model
    keeps a positive float as (mantissa, exponent), the value
    mantissa * 2^exponent with a 24-bit mantissa, and rounds to nearest,
    ties to even. The operands lie in [1, 2^64), so no result leaves the
    range of normal floats. *)

From S2P Require Import Prelude.

(** [num / den * 2^(-e)] as a fraction. *)
Definition f32_scale (num den e : Z) : Z * Z :=
  if 0 <=? e then (num, den * 2 ^ e) else (num * 2 ^ (- e), den).

Definition round_half_even (n d : Z) : Z :=
  let q := n / d in
  let r := n mod d in
  if 2 * r <? d then q
  else if d <? 2 * r then q + 1
  else q + q mod 2.

(** The float nearest to [num / den]. *)
Definition f32_round (num den : Z) : Z * Z :=
  let e0 := Z.log2 num - Z.log2 den - 23 in
  let '(n0, d0) := f32_scale num den e0 in
  let e := if n0 / d0 <? 2 ^ 23 then e0 - 1 else e0 in
  let '(n, d) := f32_scale num den e in
  (round_half_even n d, e).

(** [(float)n] *)
Definition f32_of_Z (n : Z) : Z * Z := f32_round n 1.

Definition f32_div (a b : Z * Z) : Z * Z :=
  let '(m, e) := f32_round a.1 b.1 in (m, e + a.2 - b.2).

(** [(size_t)ceil(x)] *)
Definition f32_ceil (x : Z * Z) : Z :=
  let '(m, e) := x in
  if 0 <=? e then m * 2 ^ e else - ((- m) / 2 ^ (- e)).

Example f32_sevenths : f32_div (f32_of_Z 22) (f32_of_Z 7) = (13182098, -22).
Proof. vm_compute. reflexivity. Qed.
Example f32_ties_to_even : f32_of_Z 16777217 = (8388608, 1).
Proof. vm_compute. reflexivity. Qed.

Lemma round_half_even_close n d : 0 < d →
  - d ≤ 2 * (round_half_even n d * d - n) ≤ d.
Proof.
  intros Hd. unfold round_half_even.
  pose proof (Z.div_mod n d). pose proof (Z.mod_pos_bound n d).
  pose proof (Z.mod_pos_bound (n / d) 2).
  destruct (Z.ltb_spec (2 * (n mod d)) d); [nia|].
  destruct (Z.ltb_spec d (2 * (n mod d))); nia.
Qed.

(** The numerator and denominator the final rounding sees. *)
Lemma f32_scale_pos num den e : 0 < num → 0 < den →
  0 < (f32_scale num den e).1 ∧ 0 < (f32_scale num den e).2.
Proof.
  intros. unfold f32_scale. destruct (Z.leb_spec 0 e); simpl.
  - pose proof (Z.pow_pos_nonneg 2 e). split; nia.
  - pose proof (Z.pow_pos_nonneg 2 (- e)). split; nia.
Qed.

(** Lowering the exponent by one doubles the scaled fraction. *)
Lemma f32_scale_pred num den e :
  let '(n, d) := f32_scale num den e in
  let '(n', d') := f32_scale num den (e - 1) in
  2 * n * d' = n' * d.
Proof.
  unfold f32_scale. destruct (Z.leb_spec 0 e), (Z.leb_spec 0 (e - 1)); try lia.
  - replace e with ((e - 1) + 1) at 2 by lia. rewrite Z.pow_add_r by lia. lia.
  - replace e with 0 by lia. simpl. lia.
  - replace (- (e - 1)) with (- e + 1) by lia. rewrite Z.pow_add_r by lia. lia.
Qed.

Lemma f32_scale_initial num den : 0 < num → 0 < den →
  let '(n, d) := f32_scale num den (Z.log2 num - Z.log2 den - 23) in
  2 ^ 22 * d ≤ n.
Proof.
  intros Hn Hd. unfold f32_scale.
  pose proof (Z.log2_spec num Hn) as [Hn1 _].
  pose proof (Z.log2_spec den Hd) as [_ Hd2].
  pose proof (Z.log2_nonneg num). pose proof (Z.log2_nonneg den).
  rewrite Z.pow_succ_r in Hd2 by done.
  destruct (Z.leb_spec 0 (Z.log2 num - Z.log2 den - 23)) as [He|He].
  - assert (2 ^ Z.log2 num = 2 ^ (Z.log2 num - Z.log2 den - 23) * 2 ^ Z.log2 den * 2 ^ 23) as E.
    { rewrite <-!Z.pow_add_r by lia. f_equal. lia. }
    set (a := 2 ^ (Z.log2 num - Z.log2 den - 23)) in *.
    assert (0 < a) by (apply Z.pow_pos_nonneg; lia). nia.
  - assert (2 ^ Z.log2 num * 2 ^ (- (Z.log2 num - Z.log2 den - 23)) = 2 ^ Z.log2 den * 2 ^ 23) as E.
    { rewrite <-!Z.pow_add_r by lia. f_equal. lia. }
    set (a := 2 ^ (- (Z.log2 num - Z.log2 den - 23))) in *.
    assert (0 < a) by (apply Z.pow_pos_nonneg; lia). nia.
Qed.

Lemma f32_round_spec num den m e : 0 < num → 0 < den → f32_round num den = (m, e) →
  ∃ n d, f32_scale num den e = (n, d) ∧ 0 < n ∧ 0 < d ∧
         2 ^ 23 * d ≤ n ∧ - d ≤ 2 * (m * d - n) ≤ d.
Proof.
  intros Hn Hd. unfold f32_round.
  pose proof (f32_scale_initial num den Hn Hd) as Hi.
  set (e0 := Z.log2 num - Z.log2 den - 23) in *.
  destruct (f32_scale num den e0) as [n0 d0] eqn:E0.
  pose proof (f32_scale_pos num den e0 Hn Hd) as [Hp1 Hp2]. rewrite E0 in Hp1, Hp2.
  simpl in Hp1, Hp2. set (e1 := if n0 / d0 <? 2 ^ 23 then e0 - 1 else e0).
  destruct (f32_scale num den e1) as [n d] eqn:E1. intros [= <- <-].
  pose proof (f32_scale_pos num den e1 Hn Hd) as [Hq1 Hq2]. rewrite E1 in Hq1, Hq2.
  simpl in Hq1, Hq2. exists n, d. rewrite E1.
  split; [done|]. do 2 (split; [done|]). split; [|by apply round_half_even_close].
  subst e1. revert E1. destruct (Z.ltb_spec (n0 / d0) (2 ^ 23)) as [Hlt|Hge]; intros E1.
  - pose proof (f32_scale_pred num den e0) as Hp. rewrite E0, E1 in Hp. nia.
  - rewrite E0 in E1. injection E1 as <- <-.
    pose proof (Z.mul_div_le n0 d0). nia.
Qed.

(** Integers below 2^24 are floats. *)
Lemma f32_of_Z_exact n m e : 0 < n < 2 ^ 24 → f32_of_Z n = (m, e) →
  e ≤ 0 ∧ m = n * 2 ^ (- e).
Proof.
  intros Hn E. unfold f32_of_Z in E.
  destruct (f32_round_spec n 1 m e) as (n' & d & Es & ? & ? & Hge & Hc); [lia|lia|done|].
  unfold f32_scale in Es. destruct (Z.leb_spec 0 e) as [He|He]; injection Es as <- <-.
  - assert (e = 0) as ->.
    { destruct (Z.eq_dec e 0); [done|]. exfalso.
      assert (2 ^ 1 ≤ 2 ^ e) by (apply Z.pow_le_mono_r; lia). lia. }
    split; [lia|]. simpl in *. lia.
  - split; [lia|]. lia.
Qed.

(** The ceiling of a rounded quotient [m] whose fraction is [n / d]: with an
    exponent that is not negative the divisor was one; otherwise the rounding
    does not pass the ceiling [c]. *)
Lemma ceil_whole n1 n2 n d m ee : 0 < n1 < 2 ^ 24 → 0 < n2 → 0 < d → 2 ^ 23 * d ≤ n →
  - d ≤ 2 * (m * d - n) ≤ d → 0 ≤ ee → n * n2 * 2 ^ ee = d * n1 → n2 = 1 ∧ ee = 0 ∧ m = n1.
Proof.
  intros H1 H2 Hd Hge Hc Hee Hfrac.
  assert (Hee2 : 1 ≤ 2 ^ ee) by (pose proof (Z.pow_pos_nonneg 2 ee); lia).
  assert (Hq : n2 * 2 ^ ee < 2).
  { set (Q := n2 * 2 ^ ee) in *. assert (HQ : n * Q = d * n1) by (subst Q; lia).
    assert (2 ^ 23 * d * Q ≤ d * n1) by (rewrite <-HQ; apply Z.mul_le_mono_nonneg_r; nia).
    assert (2 ^ 23 * Q ≤ n1) by nia. lia. }
  assert (n2 = 1) as -> by nia.
  assert (ee = 0) as ->.
  { destruct (Z.eq_dec ee 0); [done|]. exfalso.
    assert (2 ^ 1 ≤ 2 ^ ee) by (apply Z.pow_le_mono_r; lia). lia. }
  change (2 ^ 0) with 1 in *. assert (n = n1 * d) by lia. split; [done|]. split; [done|]. nia.
Qed.
Lemma ceil_fraction n1 n2 n d m P c : 0 < n1 → 0 < n2 < 2 ^ 24 → n1 < 2 ^ 24 → 0 < d → 0 < P → 2 ^ 23 * d ≤ n →
  - d ≤ 2 * (m * d - n) ≤ d → n * n2 = d * P * n1 → (c - 1) * n2 < n1 ≤ c * n2 → (c - 1) * P < m ≤ c * P.
Proof.
  intros H1 H2 H1' Hd Hp Hge Hc Hk Hcdef. assert (Hk0 : 0 < d * P) by nia. set (k := d * P) in *.
  assert (n ≤ k * c).
  { apply Z.mul_le_mono_pos_r with n2; [lia|]. rewrite Hk. nia. }
  assert (Hm : m ≤ c * P).
  { assert (2 * (m * d) ≤ d + 2 * (d * (P * c))) by lia. nia. }
  assert (Hn2 : n2 < 2 * P).
  { assert (2 ^ 23 * d * n2 ≤ k * n1) by nia.
    assert (2 ^ 23 * n2 ≤ n1 * P) by (subst k; nia). nia. }
  split; [|done]. destruct (Z.lt_ge_cases ((c - 1) * P) m) as [|Hbad]; [done|]. exfalso.
  assert (k ≤ (n - k * (c - 1)) * n2) by nia.
  assert (2 * (n - k * (c - 1)) ≤ d) by (subst k; nia).
  subst k. assert (2 * (d * P) ≤ d * n2) by nia. nia.
Qed.

(** Below 2^24 the float computation is the exact ceiling division. *)
Lemma f32_ceil_div_exact n1 n2 : 0 < n1 < 2 ^ 24 → 0 < n2 < 2 ^ 24 →
  f32_ceil (f32_div (f32_of_Z n1) (f32_of_Z n2)) = (n1 + n2 - 1) / n2.
Proof.
  intros H1 H2.
  destruct (f32_of_Z n1) as [m1 e1] eqn:E1. destruct (f32_of_Z n2) as [m2 e2] eqn:E2.
  apply f32_of_Z_exact in E1 as [He1 Hm1], E2 as [He2 Hm2]; [|done..].
  unfold f32_div. simpl. destruct (f32_round m1 m2) as [m e] eqn:E.
  pose proof (Z.pow_pos_nonneg 2 (- e1) ltac:(lia) ltac:(lia)) as Hp1.
  pose proof (Z.pow_pos_nonneg 2 (- e2) ltac:(lia) ltac:(lia)) as Hp2.
  destruct (f32_round_spec m1 m2 m e) as (n & d & Es & Hn & Hd & Hge & Hc); [nia|nia|done|].
  set (ee := e + e1 - e2). set (c := (n1 + n2 - 1) / n2).
  assert (Hcdef : (c - 1) * n2 < n1 ≤ c * n2).
  { subst c. pose proof (Z.div_mod (n1 + n2 - 1) n2).
    pose proof (Z.mod_pos_bound (n1 + n2 - 1) n2). nia. }
  (* the fraction rounded is n1 / n2 scaled by a power of two *)
  assert (Hfrac : n * n2 * 2 ^ Z.max 0 ee = d * n1 * 2 ^ Z.max 0 (- ee)).
  { unfold f32_scale in Es. destruct (Z.leb_spec 0 e); injection Es as <- <-.
    - assert (2 ^ (- e1) * 2 ^ Z.max 0 ee = 2 ^ (- e2) * 2 ^ e * 2 ^ Z.max 0 (- ee)).
      { rewrite <-!Z.pow_add_r by lia. f_equal. lia. } subst. nia.
    - assert (2 ^ (- e1) * 2 ^ (- e) * 2 ^ Z.max 0 ee = 2 ^ (- e2) * 2 ^ Z.max 0 (- ee)).
      { rewrite <-!Z.pow_add_r by lia. f_equal. lia. } subst. nia. }
  unfold f32_ceil. destruct (Z.leb_spec 0 ee) as [Hee|Hee].
  - replace (Z.max 0 (- ee)) with 0 in Hfrac by lia.
    replace (Z.max 0 ee) with ee in Hfrac by lia. rewrite Z.mul_1_r in Hfrac.
    destruct (ceil_whole n1 n2 n d m ee) as (-> & -> & ->); try lia.
  - replace (Z.max 0 ee) with 0 in Hfrac by lia.
    replace (Z.max 0 (- ee)) with (- ee) in Hfrac by lia. change (2 ^ 0) with 1 in Hfrac.
    pose proof (Z.pow_pos_nonneg 2 (- ee) ltac:(lia) ltac:(lia)) as Hp.
    destruct (ceil_fraction n1 n2 n d m (2 ^ (- ee)) c) as [Hlo Hhi]; try lia.
    enough ((- m) / 2 ^ (- ee) = - c) by lia.
    symmetry. apply Z.div_unique with (c * 2 ^ (- ee) - m); lia.
Qed.
