(* ===== verification/ByteArray.v ===== *)
(** * class ByteArray (util/serializer.h, util/serializer.cpp)

    A growing byte buffer kept as a singly linked chain of equally sized
    blocks, with one cursor for reading and writing. This file holds the
    state, every operation on raw bytes, and the refinement of the chain to
    a plain byte list with a position. [ByteArrayIO] adds the typed reads
    and writes.

    The chain from [m_root] along [next] is the list [m_nodes]; [m_cur] is
    the index of the block it points to, [None] for the null pointer. *)

From S2P Require Import Prelude Codec Float32.

(** [std::to_string] arguments of the two range errors. *)
Definition read_out_of_range (data_size pos : Z) : exn :=
  runtime_error "ByteArray::read: read out of range" [data_size; pos].
Definition pos_out_of_range (data_size pos : Z) : exn :=
  runtime_error "ByteArray::setPosition: pos out of range" [data_size; pos].

(** A ByteArrayNode is its [data] block; [size] is the block's length. *)
Abbreviation ByteArrayNode := (list byte).

Record ByteArray := mkByteArray {
  m_nodes : list ByteArrayNode;
  m_cur : option nat;
  m_node_size : Z;
  m_total_size : Z;
  m_data_size : Z;
  m_position : Z;
  m_ba_endian : endian;
}.

(** One entry of the [iovec] vectors: [len] bytes from offset [off] of block
    number [node]. *)
Record iovec := mkIovec { iov_node : nat; iov_off : Z; iov_len : Z }.

Definition set_chain (nodes : list ByteArrayNode) (cur : option nat) (pos : Z)
    (ba : ByteArray) : ByteArray :=
  mkByteArray nodes cur (m_node_size ba) (m_total_size ba) (m_data_size ba) pos
    (m_ba_endian ba).
Definition set_data_size (n : Z) (ba : ByteArray) : ByteArray :=
  mkByteArray (m_nodes ba) (m_cur ba) (m_node_size ba) (m_total_size ba) n
    (m_position ba) (m_ba_endian ba).

Section Ops.
Context `{Platform}.

(** [ByteArrayNode::ByteArrayNode(size_t s)] *)
Definition new_node (s : Z) : ByteArrayNode := replicate (Z.to_nat s) uninit.

(** [ByteArray::ByteArray(size_t node_size)] *)
Definition ByteArray_new (node_size : Z) : ByteArray :=
  mkByteArray [new_node node_size] (Some 0%nat) node_size node_size 0 0 LON_BIG_ENDIAN.

Definition getPosition (ba : ByteArray) : Z := m_position ba.
Definition getNodeSize (ba : ByteArray) : Z := m_node_size ba.
Definition getReadSize (ba : ByteArray) : Z := u64 (m_data_size ba - m_position ba).
Definition getRemainSize (ba : ByteArray) : Z := u64 (m_total_size ba - m_position ba).
Definition size (ba : ByteArray) : Z := m_data_size ba.
Definition count (ba : ByteArray) : Z :=
  m_data_size ba / m_node_size ba +
  (if 0 <? m_data_size ba mod m_node_size ba then 1 else 0).
Definition isLittleEndian (ba : ByteArray) : bool :=
  bool_decide (m_ba_endian ba = LON_LITTLE_ENDIAN).
Definition setLittleEndian (is_little : bool) (ba : ByteArray) : ByteArray :=
  mkByteArray (m_nodes ba) (m_cur ba) (m_node_size ba) (m_total_size ba) (m_data_size ba)
    (m_position ba) (if is_little then LON_LITTLE_ENDIAN else LON_BIG_ENDIAN).

(** [p->next] for the block with index [i] *)
Definition next_of (nodes : list ByteArrayNode) (i : nat) : option nat :=
  if (S i <? length nodes)%nat then Some (S i) else None.

(** Following a block pointer. *)
Definition deref (nodes : list ByteArrayNode) (p : option nat) : option (nat * ByteArrayNode) :=
  i ← p; b ← nodes !! i; Some (i, b).

(** [memcpy] into and out of a block, with the bounds the block has. *)
Definition memcpy_to (pos : Z) (src : list byte) (b : ByteArrayNode) : option ByteArrayNode :=
  if (0 <=? pos) && (pos + zlen src <=? zlen b) then Some (splice pos src b) else None.
Definition memcpy_from (pos len : Z) (b : ByteArrayNode) : option (list byte) :=
  if (0 <=? pos) && (0 <=? len) && (pos + len <=? zlen b) then Some (slice pos len b) else None.

(** [ceil(size * 1.0f / m_node_size)] *)
Definition new_node_count (size node_size : Z) : Z :=
  f32_ceil (f32_div (f32_of_Z size) (f32_of_Z node_size)).

(** The loop that appends [n] blocks behind the last one. *)
Fixpoint append_nodes (n : nat) (ba : ByteArray) : ByteArray :=
  match n with
  | O => ba
  | S n => append_nodes n
      (mkByteArray (m_nodes ba ++ [new_node (m_node_size ba)]) (m_cur ba) (m_node_size ba)
         (u64 (m_total_size ba + m_node_size ba)) (m_data_size ba) (m_position ba)
         (m_ba_endian ba))
  end.

Definition addTotalSize (size : Z) : M ByteArray unit :=
  if size =? 0 then mreturn tt else
  ba <- mget;;
  let old_remain_size := getRemainSize ba in
  if size <=? old_remain_size then mreturn tt else
  let size := u64 (size - old_remain_size) in
  let n := Z.to_nat (new_node_count size (m_node_size ba)) in
  let new_node_first := if (n =? 0)%nat then None else Some (length (m_nodes ba)) in
  let ba' := append_nodes n ba in
  mput (if old_remain_size =? 0
        then set_chain (m_nodes ba') new_node_first (m_position ba') ba'
        else ba').

(** The [while (size > 0)] loop of [write]; [buf] is the part of the
    source not yet copied, [fuel] bounds the iterations. *)
Fixpoint write_loop (fuel : nat) (buf : list byte) (node_pos node_remain : Z)
    : M ByteArray unit :=
  match fuel with
  | O => mfault OutOfFuel
  | S fuel =>
      if zlen buf =? 0 then mreturn tt else
      ba <- mget;;
      match deref (m_nodes ba) (m_cur ba) with
      | None => mfault NullDeref
      | Some (i, node) =>
          if zlen buf <=? node_remain then
            match memcpy_to node_pos buf node with
            | None => mfault OutOfBounds
            | Some node' =>
                let cur' := if zlen node =? node_pos + zlen buf
                            then next_of (m_nodes ba) i else Some i in
                mput (set_chain (<[i:=node']> (m_nodes ba)) cur'
                        (u64 (m_position ba + zlen buf)) ba);;
                write_loop fuel [] node_pos node_remain
            end
          else
            match memcpy_to node_pos (take (Z.to_nat node_remain) buf) node with
            | None => mfault OutOfBounds
            | Some node' =>
                let nodes' := <[i:=node']> (m_nodes ba) in
                let cur' := next_of nodes' i in
                mput (set_chain nodes' cur' (u64 (m_position ba + node_remain)) ba);;
                match deref nodes' cur' with
                | None => mfault NullDeref
                | Some (_, next) =>
                    write_loop fuel (drop (Z.to_nat node_remain) buf) 0 (zlen next)
                end
            end
      end
  end.

Definition write (buf : list byte) : M ByteArray unit :=
  if zlen buf =? 0 then mreturn tt else
  addTotalSize (zlen buf);;
  ba <- mget;;
  if m_node_size ba =? 0 then mfault DivByZero else
  let node_pos := m_position ba mod m_node_size ba in
  match deref (m_nodes ba) (m_cur ba) with
  | None => mfault NullDeref
  | Some (_, node) =>
      write_loop (S (length buf)) buf node_pos (u64 (zlen node - node_pos));;
      mmodify (λ ba, if m_data_size ba <? m_position ba
                     then set_data_size (m_position ba) ba else ba)
  end.

(** The copying loop shared by the two [read]s: from block [cur] on,
    collect [size] bytes; the result is the bytes and the final block
    pointer. *)
Fixpoint read_loop (fuel : nat) (nodes : list ByteArrayNode) (cur : option nat)
    (node_pos node_remain size : Z) (buf : list byte) : M ByteArray (list byte * option nat) :=
  match fuel with
  | O => mfault OutOfFuel
  | S fuel =>
      if size =? 0 then mreturn (buf, cur) else
      match deref nodes cur with
      | None => mfault NullDeref
      | Some (i, node) =>
          if size <=? node_remain then
            match memcpy_from node_pos size node with
            | None => mfault OutOfBounds
            | Some bs =>
                let cur' := if zlen node =? node_pos + size then next_of nodes i else Some i in
                read_loop fuel nodes cur' node_pos node_remain 0 (buf ++ bs)
            end
          else
            match memcpy_from node_pos node_remain node with
            | None => mfault OutOfBounds
            | Some bs =>
                let cur' := next_of nodes i in
                match deref nodes cur' with
                | None => mfault NullDeref
                | Some (_, next) =>
                    read_loop fuel nodes cur' 0 (zlen next) (size - node_remain) (buf ++ bs)
                end
            end
      end
  end.

(** [void read(void *buf, size_t size)] *)
Definition read (size : Z) : M ByteArray (list byte) :=
  if size =? 0 then mreturn [] else
  ba <- mget;;
  if getReadSize ba <? size
  then mthrow (read_out_of_range (m_data_size ba) (m_position ba)) else
  if m_node_size ba =? 0 then mfault DivByZero else
  let node_pos := m_position ba mod m_node_size ba in
  match deref (m_nodes ba) (m_cur ba) with
  | None => mfault NullDeref
  | Some (_, node) =>
      r <- read_loop (S (Z.to_nat size)) (m_nodes ba) (m_cur ba) node_pos
             (u64 (zlen node - node_pos)) size [];;
      mput (set_chain (m_nodes ba) r.2 (u64 (m_position ba + size)) ba);;
      mreturn r.1
  end.

(** [void read(void *buf, size_t size, size_t position) const]; the walk
    starts at [m_cur], as in the code. *)
Definition read_at (size position : Z) : M ByteArray (list byte) :=
  if size =? 0 then mreturn [] else
  ba <- mget;;
  if u64 (m_data_size ba - position) <? size
  then mthrow (read_out_of_range (m_data_size ba) (m_position ba)) else
  if m_node_size ba =? 0 then mfault DivByZero else
  let node_pos := position mod m_node_size ba in
  match deref (m_nodes ba) (m_cur ba) with
  | None => mfault NullDeref
  | Some (_, node) =>
      r <- read_loop (S (Z.to_nat size)) (m_nodes ba) (m_cur ba) node_pos
             (u64 (zlen node - node_pos)) size [];;
      mreturn r.1
  end.

(** The two loops of [setPosition] that look for the block of [pos]. *)
Fixpoint seek_loop (fuel : nat) (nodes : list ByteArrayNode) (cur : option nat) (pos : Z)
    : M ByteArray (option nat) :=
  match fuel with
  | O => mfault OutOfFuel
  | S fuel =>
      match deref nodes cur with
      | None => mfault NullDeref
      | Some (i, node) =>
          if zlen node <? pos then
            match deref nodes (next_of nodes i) with
            | None => mfault NullDeref
            | Some (j, next) => seek_loop fuel nodes (Some j) (u64 (pos - zlen next))
            end
          else mreturn (if pos =? zlen node then next_of nodes i else Some i)
      end
  end.

Definition setPosition (pos : Z) : M ByteArray unit :=
  ba <- mget;;
  if m_total_size ba <? pos
  then mthrow (pos_out_of_range (m_data_size ba) pos) else
  let data_size := if m_data_size ba <? pos then pos else m_data_size ba in
  cur <- seek_loop (S (length (m_nodes ba))) (m_nodes ba) (Some 0%nat) pos;;
  mput (set_data_size data_size (set_chain (m_nodes ba) cur pos ba)).

Definition clear (ba : ByteArray) : ByteArray :=
  mkByteArray (take 1 (m_nodes ba)) (Some 0%nat) (m_node_size ba) (m_node_size ba) 0 0
    (m_ba_endian ba).

(** [std::string toString() const] *)
Definition toString : M ByteArray (list byte) :=
  ba <- mget;;
  let n := u64 (m_data_size ba - m_position ba) in
  if n =? 0 then mreturn [] else read_at n (m_position ba).

(** The loop of the three buffer-vector functions. *)
Fixpoint iov_loop (fuel : nat) (nodes : list ByteArrayNode) (cur : option nat)
    (node_pos node_remain len : Z) (bufs : list iovec) : M ByteArray (list iovec) :=
  match fuel with
  | O => mfault OutOfFuel
  | S fuel =>
      if len =? 0 then mreturn bufs else
      match deref nodes cur with
      | None => mfault NullDeref
      | Some (i, _) =>
          if len <=? node_remain then
            iov_loop fuel nodes cur node_pos node_remain 0 (bufs ++ [mkIovec i node_pos len])
          else
            let cur' := next_of nodes i in
            match deref nodes cur' with
            | None => mfault NullDeref
            | Some (_, next) =>
                iov_loop fuel nodes cur' 0 (zlen next) (len - node_remain)
                  (bufs ++ [mkIovec i node_pos node_remain])
            end
      end
  end.

(** [getReadBuffers(bufs, len) const]: the buffers appended and the result *)
Definition getReadBuffers (len : Z) : M ByteArray (list iovec * Z) :=
  ba <- mget;;
  let rest := u64 (m_data_size ba - m_position ba) in
  let len := if rest <? len then rest else len in
  if len =? 0 then mreturn ([], 0) else
  if m_node_size ba =? 0 then mfault DivByZero else
  let node_pos := m_position ba mod m_node_size ba in
  match deref (m_nodes ba) (m_cur ba) with
  | None => mfault NullDeref
  | Some (_, node) =>
      bufs <- iov_loop (S (Z.to_nat len)) (m_nodes ba) (m_cur ba) node_pos
                (u64 (zlen node - node_pos)) len [];;
      mreturn (bufs, len)
  end.

(** [getReadBuffers(bufs, len, position) const]: the size of the first
    block is taken from [m_cur], the walk starts [position / m_node_size]
    blocks behind [m_root]. *)
Definition getReadBuffers_at (len position : Z) : M ByteArray (list iovec * Z) :=
  ba <- mget;;
  let rest := u64 (m_data_size ba - position) in
  let len := if rest <? len then rest else len in
  if len =? 0 then mreturn ([], 0) else
  if m_node_size ba =? 0 then mfault DivByZero else
  let node_pos := position mod m_node_size ba in
  match deref (m_nodes ba) (m_cur ba) with
  | None => mfault NullDeref
  | Some (_, node) =>
      let start := position / m_node_size ba in
      if zlen (m_nodes ba) <? start then mfault NullDeref else
      let cur := if start <? zlen (m_nodes ba) then Some (Z.to_nat start) else None in
      bufs <- iov_loop (S (Z.to_nat len)) (m_nodes ba) cur node_pos
                (u64 (zlen node - node_pos)) len [];;
      mreturn (bufs, len)
  end.

Definition getWriteBuffers (len : Z) : M ByteArray (list iovec * Z) :=
  if len =? 0 then mreturn ([], 0) else
  addTotalSize len;;
  ba <- mget;;
  if m_node_size ba =? 0 then mfault DivByZero else
  let node_pos := m_position ba mod m_node_size ba in
  match deref (m_nodes ba) (m_cur ba) with
  | None => mfault NullDeref
  | Some (_, node) =>
      bufs <- iov_loop (S (Z.to_nat len)) (m_nodes ba) (m_cur ba) node_pos
                (u64 (zlen node - node_pos)) len [];;
      mreturn (bufs, len)
  end.

(** The loop of [writeToFile]; the result is what reaches the stream. A
    negative count is outside the contract of [ostream::write]. *)
Fixpoint file_loop (fuel : nat) (ba : ByteArray) (cur : option nat) (pos read_size : Z)
    (out : list byte) : M ByteArray (list byte) :=
  match fuel with
  | O => mfault OutOfFuel
  | S fuel =>
      if read_size =? 0 then mreturn out else
      if m_node_size ba =? 0 then mfault DivByZero else
      let node_pos := pos mod m_node_size ba in
      let len := s64 (u64 ((if u64 (s64 (m_node_size ba)) <? read_size
                            then m_node_size ba else read_size) - node_pos)) in
      match deref (m_nodes ba) cur with
      | None => mfault NullDeref
      | Some (i, node) =>
          match memcpy_from node_pos len node with
          | None => mfault OutOfBounds
          | Some bs =>
              file_loop fuel ba (next_of (m_nodes ba) i) (u64 (pos + len))
                (u64 (read_size - len)) (out ++ bs)
          end
      end
  end.

Definition open_failed (op : string) : exn := runtime_error op [].

(** [bool writeToFile(path)]: [opened] tells whether the stream opened;
    the result is the content of the file. *)
Definition writeToFile (opened : bool) : M ByteArray (list byte) :=
  if negb opened
  then mthrow (open_failed "ByteArray::writeToFile: open file failed, path: ") else
  ba <- mget;;
  file_loop (S (length (m_nodes ba)) + Z.to_nat (getReadSize ba)) ba (m_cur ba)
    (m_position ba) (getReadSize ba) [].

(** The loop of [readFromFile]: [in.read] takes up to [m_node_size] bytes
    and hits the end of file when it gets fewer. *)
Fixpoint load_loop (fuel : nat) (node_size : Z) (rest : list byte) : M ByteArray unit :=
  match fuel with
  | O => mfault OutOfFuel
  | S fuel =>
      let got := take (Z.to_nat node_size) rest in
      write got;;
      if zlen got <? node_size then mreturn tt
      else load_loop fuel node_size (drop (Z.to_nat node_size) rest)
  end.

(** [bool readFromFile(path)], [file] is [None] when it cannot be opened. *)
Definition readFromFile (file : option (list byte)) : M ByteArray unit :=
  match file with
  | None => mthrow (open_failed "ByteArray::readFromFile: open file failed, path: ")
  | Some bytes =>
      ba <- mget;; load_loop (S (length bytes)) (m_node_size ba) bytes
  end.
End Ops.

(** ** The abstract buffer and the representation invariant *)

(** What a ByteArray promises: a byte string and a position in it. *)
Record buffer := mkBuffer { content : list byte; pos : Z }.

Definition buf_write (bs : list byte) (b : buffer) : buffer :=
  mkBuffer (splice (pos b) bs (content b)) (pos b + zlen bs).
Definition buf_read (n : Z) (b : buffer) : option (list byte * buffer) :=
  if zlen (content b) - pos b <? n then None
  else Some (slice (pos b) n (content b), mkBuffer (content b) (pos b + n)).

Definition flat (ba : ByteArray) : list byte := concat (m_nodes ba).

Definition abs (ba : ByteArray) : buffer :=
  mkBuffer (take (Z.to_nat (m_data_size ba)) (flat ba)) (m_position ba).

(** The block pointer for block number [k]: null one past the end. *)
Definition cursor (nodes : list ByteArrayNode) (k : Z) : option nat :=
  if k <? zlen nodes then Some (Z.to_nat k) else None.

Record wf (ba : ByteArray) : Prop := {
  wf_node_size : 0 < m_node_size ba < 2 ^ 24;
  wf_uniform : uniform (m_node_size ba) (m_nodes ba);
  wf_total : m_total_size ba = m_node_size ba * zlen (m_nodes ba);
  wf_nonempty : 0 < zlen (m_nodes ba);
  wf_bound : m_total_size ba < 2 ^ 64;
  wf_pos : 0 ≤ m_position ba ≤ m_data_size ba;
  wf_data : m_data_size ba ≤ m_total_size ba;
  wf_cur : m_cur ba = cursor (m_nodes ba) (m_position ba / m_node_size ba);
}.

(** The state component a buffer operation may not touch. *)
Definition same_shape (ba ba' : ByteArray) : Prop :=
  m_node_size ba' = m_node_size ba ∧ m_ba_endian ba' = m_ba_endian ba.

(** Room for [n] more bytes below 2^64, and [n] exact as a float. *)
Definition room (ba : ByteArray) (n : Z) : Prop :=
  n < 2 ^ 24 ∧ m_total_size ba + n + m_node_size ba < 2 ^ 64.

Lemma zlen_flat ba : wf ba → zlen (flat ba) = m_total_size ba.
Proof. intros H. unfold flat. rewrite (zlen_concat _ _ (wf_uniform _ H)). by rewrite (wf_total _ H). Qed.

Lemma cursor_Some nodes k : 0 ≤ k < zlen nodes → cursor nodes k = Some (Z.to_nat k).
Proof. intros. unfold cursor. destruct (Z.ltb_spec k (zlen nodes)); [done|lia]. Qed.

Lemma cursor_insert nodes i b k : cursor (<[i:=b]> nodes) k = cursor nodes k.
Proof. unfold cursor, zlen. by rewrite length_insert. Qed.

Lemma next_of_cursor nodes i : next_of nodes i = cursor nodes (Z.of_nat i + 1).
Proof.
  unfold next_of, cursor, zlen.
  destruct (Nat.ltb_spec (S i) (length nodes)), (Z.ltb_spec (Z.of_nat i + 1) (Z.of_nat (length nodes)));
    try lia; [|done]. f_equal. lia.
Qed.

Lemma deref_Some (nodes : list ByteArrayNode) i b :
  nodes !! i = Some b → deref nodes (Some i) = Some (i, b).
Proof. intros E. unfold deref. simpl. by rewrite E. Qed.

(** Any position below the total size is in a block. *)
Lemma deref_cursor ns nodes p :
  0 < ns → uniform ns nodes → 0 ≤ p < ns * zlen nodes →
  ∃ node, deref nodes (cursor nodes (p / ns)) = Some (Z.to_nat (p / ns), node) ∧
          nodes !! Z.to_nat (p / ns) = Some node ∧ zlen node = ns.
Proof.
  intros Hns Hu Hp.
  assert (Hk : 0 ≤ p / ns < zlen nodes).
  { split; [apply Z.div_pos; lia|]. apply Z.div_lt_upper_bound; lia. }
  rewrite cursor_Some by done.
  destruct (lookup_lt_is_Some_2 nodes (Z.to_nat (p / ns))) as [node Hn]; [unfold zlen in Hk; lia|].
  exists node. split_and!; [by apply deref_Some|done|by eapply uniform_lookup].
Qed.

(** Position arithmetic inside a chain of blocks. *)
Lemma pos_split ns p : 0 < ns → 0 ≤ p →
  p = ns * Z.of_nat (Z.to_nat (p / ns)) + p mod ns ∧ 0 ≤ p mod ns < ns.
Proof.
  intros Hns Hp. pose proof (Z.div_pos p ns). pose proof (Z.div_mod p ns).
  pose proof (Z.mod_pos_bound p ns). rewrite Z2Nat.id by lia. lia.
Qed.

Lemma div_block ns i p : 0 < ns → 0 ≤ p < ns → (ns * i + p) / ns = i.
Proof.
  intros. rewrite Z.mul_comm, Z.div_add_l by lia. rewrite Z.div_small by lia. lia.
Qed.

Lemma memcpy_to_ok p src b : 0 ≤ p → p + zlen src ≤ zlen b → memcpy_to p src b = Some (splice p src b).
Proof.
  intros. unfold memcpy_to. destruct (Z.leb_spec 0 p), (Z.leb_spec (p + zlen src) (zlen b)); done || lia.
Qed.
Lemma memcpy_from_ok p n b : 0 ≤ p → 0 ≤ n → p + n ≤ zlen b → memcpy_from p n b = Some (slice p n b).
Proof.
  intros. unfold memcpy_from.
  destruct (Z.leb_spec 0 p), (Z.leb_spec 0 n), (Z.leb_spec (p + n) (zlen b)); done || lia.
Qed.

Lemma zlen_take_le {A} (n : Z) (l : list A) : 0 ≤ n ≤ zlen l → zlen (take (Z.to_nat n) l) = n.
Proof. unfold zlen. rewrite length_take. lia. Qed.
Lemma zlen_drop_le {A} (n : Z) (l : list A) : 0 ≤ n ≤ zlen l → zlen (drop (Z.to_nat n) l) = zlen l - n.
Proof. unfold zlen. rewrite length_drop. lia. Qed.

(** *** The write loop *)
Section WriteLoop.
Context `{Platform} (ns : Z) (Hns : 0 < ns).

Lemma write_loop_nil fuel p r ba : (0 < fuel)%nat → write_loop fuel [] p r ba = Ret tt ba.
Proof. destruct fuel; [lia|done]. Qed.

(** [buf] fits into block [i], the last one that is touched. *)
Lemma write_loop_last fuel buf p i node ba :
  uniform ns (m_nodes ba) → m_nodes ba !! i = Some node → m_cur ba = Some i →
  0 ≤ p → 0 < zlen buf ≤ ns - p → 0 ≤ m_position ba → m_position ba + zlen buf < 2 ^ 64 → (0 < fuel)%nat →
  ∃ nodes', write_loop (S fuel) buf p (ns - p) ba =
      Ret tt (set_chain nodes' (cursor nodes' ((ns * Z.of_nat i + p + zlen buf) / ns))
                (m_position ba + zlen buf) ba) ∧
    concat nodes' = splice (ns * Z.of_nat i + p) buf (flat ba) ∧
    length nodes' = length (m_nodes ba) ∧ uniform ns nodes'.
Proof using Hns.
  intros Hu Hi Hc Hp Hin Hpos Hbd Hf. pose proof (uniform_lookup _ _ _ _ Hu Hi) as Hl.
  assert (Hil : Z.of_nat i < zlen (m_nodes ba)) by (apply lookup_lt_Some in Hi; unfold zlen; lia).
  cbn [write_loop]. destruct (Z.eqb_spec (zlen buf) 0); [lia|].
  mrun. rewrite Hc, (deref_Some _ _ _ Hi). destruct (Z.leb_spec (zlen buf) (ns - p)); [|lia].
  rewrite memcpy_to_ok by lia. mrun. rewrite write_loop_nil by done.
  exists (<[i:=splice p buf node]> (m_nodes ba)). split_and!.
  - do 2 f_equal; [|by rewrite wrapu_small by (unfold urange; lia)].
    rewrite next_of_cursor, cursor_insert, Hl.
    destruct (Z.eqb_spec ns (p + zlen buf)) as [He|He].
    + replace (ns * Z.of_nat i + p + zlen buf) with (ns * (Z.of_nat i + 1) + 0) by lia.
      rewrite div_block by lia. done.
    + replace ((ns * Z.of_nat i + p + zlen buf) / ns) with (Z.of_nat i)
        by (rewrite <-(div_block ns (Z.of_nat i) (p + zlen buf)) at 1 by lia; f_equal; lia).
      rewrite cursor_Some by lia. by rewrite Nat2Z.id.
  - apply splice_block; [done|done|done|lia|lia].
  - apply length_insert.
  - apply uniform_insert; [done|]. rewrite zlen_splice; lia.
Qed.

(** From offset [p] of block [i] the loop writes [buf] into the flat
    block and leaves the cursor behind it. *)
Lemma write_loop_spec fuel buf p i node ba :
  uniform ns (m_nodes ba) → m_nodes ba !! i = Some node → m_cur ba = Some i →
  0 ≤ p < ns → ns * Z.of_nat i + p + zlen buf ≤ ns * zlen (m_nodes ba) →
  0 ≤ m_position ba → m_position ba + zlen buf < 2 ^ 64 → (length buf < fuel)%nat →
  ∃ nodes', write_loop fuel buf p (ns - p) ba =
      Ret tt (set_chain nodes' (cursor nodes' ((ns * Z.of_nat i + p + zlen buf) / ns))
                (m_position ba + zlen buf) ba) ∧
    concat nodes' = splice (ns * Z.of_nat i + p) buf (flat ba) ∧
    length nodes' = length (m_nodes ba) ∧ uniform ns nodes'.
Proof using Hns.
  revert buf p i node ba. induction fuel as [|fuel IH]; [lia|].
  intros buf p i node ba Hu Hi Hc Hp Hle Hpos Hbd Hf.
  assert (Hil : Z.of_nat i < zlen (m_nodes ba))
    by (apply lookup_lt_Some in Hi; unfold zlen; lia).
  pose proof (uniform_lookup _ _ _ _ Hu Hi) as Hl.
  destruct (Z.eq_dec (zlen buf) 0) as [H0|H0].
  { apply zlen_nil_inv in H0 as ->. exists (m_nodes ba).
    unfold zlen at 1 2. simpl. rewrite !Z.add_0_r, div_block by done.
    rewrite splice_nil by lia. rewrite cursor_Some, Nat2Z.id, <-Hc by lia.
    split_and!; [by destruct ba|done..]. }
  pose proof (zlen_nonneg buf). destruct (Z_le_gt_dec (zlen buf) (ns - p)) as [Hin|Hout].
  - apply (write_loop_last fuel buf p i node ba); try done; try lia.
    destruct buf; [done|simpl in Hf; lia].
  - cbn [write_loop]. destruct (Z.eqb_spec (zlen buf) 0); [lia|].
    mrun. rewrite Hc, (deref_Some _ _ _ Hi). destruct (Z.leb_spec (zlen buf) (ns - p)); [lia|].
    rewrite memcpy_to_ok by (rewrite ?zlen_take_le; lia). mrun.
    set (n1 := Z.to_nat (ns - p)). set (s1 := take n1 buf). set (s2 := drop n1 buf).
    assert (Hs : buf = s1 ++ s2) by (symmetry; apply take_drop).
    assert (Hs1 : zlen s1 = ns - p) by (apply zlen_take_le; lia).
    assert (Hs2 : zlen s2 = zlen buf - (ns - p)) by (apply zlen_drop_le; lia).
    set (node' := splice p s1 node). set (nodes1 := <[i:=node']> (m_nodes ba)).
    assert (Hl1 : zlen nodes1 = zlen (m_nodes ba)) by (unfold zlen, nodes1; by rewrite length_insert).
    assert (Hu1 : uniform ns nodes1)
      by (apply uniform_insert; [done|]; unfold node'; rewrite zlen_splice; lia).
    destruct (lookup_lt_is_Some_2 nodes1 (S i)) as [next Hnext].
    { assert (Z.of_nat i + 1 < zlen (m_nodes ba)) by nia. unfold zlen in *. lia. }
    assert (Hnx : next_of nodes1 i = Some (S i)).
    { unfold next_of. apply lookup_lt_Some in Hnext.
      by destruct (Nat.ltb_spec (S i) (length nodes1)); [|lia]. }
    rewrite Hnx, (deref_Some _ _ _ Hnext).
    rewrite (uniform_lookup _ _ _ _ Hu1 Hnext).
    rewrite (wrapu_small 64) by (unfold urange; lia).
    destruct (IH s2 0 (S i) next (set_chain nodes1 (Some (S i)) (m_position ba + (ns - p)) ba))
      as (nodes' & E & Hcat & Hlen & Hu'); simpl; try done; try lia.
    { unfold zlen in *. subst s2. rewrite length_drop in *. lia. }
    rewrite Z.sub_0_r in E. exists nodes'. split_and!; [..|done].
    + rewrite E. f_equal. unfold set_chain. simpl. f_equal; [|lia].
      f_equal. f_equal. lia.
    + rewrite Hcat. simpl. unfold flat, nodes1, node'. simpl.
      rewrite (splice_block ns Hns) by (done || lia).
      replace (ns * Z.of_nat (S i) + 0) with (ns * Z.of_nat i + p + zlen s1) by lia.
      rewrite splice_splice, <-Hs; [done|].
      rewrite (zlen_concat ns) by done. lia.
    + rewrite Hlen. simpl. unfold nodes1. by rewrite length_insert.
Qed.
End WriteLoop.

(** *** The read loop and the buffer-vector loop *)

(** The vector describes, in order and without gaps, the bytes [a .. b) of
    the flat block; no entry leaves its block or is empty. *)
Fixpoint covers (ns : Z) (iovs : list iovec) (a b : Z) : Prop :=
  match iovs with
  | [] => a = b
  | v :: vs =>
      ns * Z.of_nat (iov_node v) + iov_off v = a ∧ 0 ≤ iov_off v ∧ 0 < iov_len v ∧
      iov_off v + iov_len v ≤ ns ∧ covers ns vs (a + iov_len v) b
  end.

(** What [sendmsg] takes from a vector of buffers, and what [recvmsg] puts
    into one: the buffers are filled in order. *)
Definition iov_gather (nodes : list ByteArrayNode) (iovs : list iovec) : list byte :=
  concat ((λ v, slice (iov_off v) (iov_len v) (nth (iov_node v) nodes [])) <$> iovs).

Fixpoint iov_scatter (bs : list byte) (iovs : list iovec) (nodes : list ByteArrayNode)
    : list ByteArrayNode :=
  match iovs with
  | [] => nodes
  | v :: vs =>
      let n := Z.to_nat (iov_len v) in
      iov_scatter (drop n bs) vs
        (match nodes !! iov_node v with
         | Some b => <[iov_node v := splice (iov_off v) (take n bs) b]> nodes
         | None => nodes
         end)
  end.

Section ReadLoop.
Context (ns : Z) (Hns : 0 < ns) (nodes : list ByteArrayNode) (Hu : uniform ns nodes).

Lemma next_block i node : nodes !! i = Some node → Z.of_nat i + 1 < zlen nodes →
  ∃ next, next_of nodes i = Some (S i) ∧ nodes !! S i = Some next ∧ zlen next = ns.
Proof using Hu.
  intros Hi Hlt. destruct (lookup_lt_is_Some_2 nodes (S i)) as [next Hnext].
  { unfold zlen in *. lia. }
  exists next. split_and!; [|done|by eapply uniform_lookup].
  unfold next_of. destruct (Nat.ltb_spec (S i) (length nodes)); [done|].
  unfold zlen in *. lia.
Qed.

Lemma read_loop_0 fuel cur p r buf s : (0 < fuel)%nat →
  read_loop fuel nodes cur p r 0 buf s = Ret (buf, cur) s.
Proof using Type. destruct fuel; [lia|done]. Qed.

Lemma read_loop_spec fuel p i node size buf s :
  nodes !! i = Some node → 0 ≤ p < ns → 0 ≤ size →
  ns * Z.of_nat i + p + size ≤ ns * zlen nodes → (Z.to_nat size < fuel)%nat →
  read_loop fuel nodes (Some i) p (ns - p) size buf s =
    Ret (buf ++ slice (ns * Z.of_nat i + p) size (concat nodes),
         cursor nodes ((ns * Z.of_nat i + p + size) / ns)) s.
Proof using Hns Hu.
  revert p i node size buf. induction fuel as [|fuel IH]; [lia|].
  intros p i node size buf Hi Hp Hsz Hle Hf.
  assert (Hil : Z.of_nat i < zlen nodes) by (apply lookup_lt_Some in Hi; unfold zlen; lia).
  pose proof (uniform_lookup _ _ _ _ Hu Hi) as Hl.
  cbn [read_loop]. destruct (Z.eqb_spec size 0) as [->|H0].
  { rewrite Z.add_0_r, div_block, slice_0, app_nil_r, cursor_Some, Nat2Z.id by lia. done. }
  rewrite (deref_Some _ _ _ Hi).
  destruct (Z.leb_spec size (ns - p)) as [Hin|Hout].
  - rewrite memcpy_from_ok by lia. rewrite read_loop_0 by lia. do 2 f_equal.
    + by rewrite (slice_block ns Hns nodes i node) by (done || lia).
    + rewrite next_of_cursor, Hl. destruct (Z.eqb_spec ns (p + size)).
      * replace (ns * Z.of_nat i + p + size) with (ns * (Z.of_nat i + 1) + 0) by lia.
        by rewrite div_block by lia.
      * replace ((ns * Z.of_nat i + p + size) / ns) with (Z.of_nat i)
          by (rewrite <-(div_block ns (Z.of_nat i) (p + size)) at 1 by lia; f_equal; lia).
        rewrite cursor_Some by lia. by rewrite Nat2Z.id.
  - rewrite memcpy_from_ok by lia.
    destruct (next_block i node Hi) as (next & Hnx & Hnext & Hln); [nia|].
    rewrite Hnx, (deref_Some _ _ _ Hnext), Hln.
    pose proof (IH 0 (S i) next (size - (ns - p)) (buf ++ slice p (ns - p) node)) as IH'.
    rewrite Z.sub_0_r in IH'. rewrite IH'; [|done|lia|lia|lia|lia]. clear IH IH'. do 2 f_equal.
    + rewrite <-(assoc_L app), (slice_block ns Hns nodes i node) by (done || lia).
      f_equal. replace (ns * Z.of_nat (S i) + 0) with (ns * Z.of_nat i + p + (ns - p)) by lia.
      rewrite slice_app by lia. f_equal. lia.
    + f_equal. f_equal. lia.
Qed.

Lemma iov_loop_0 fuel cur p r bufs s : (0 < fuel)%nat →
  iov_loop fuel nodes cur p r 0 bufs s = Ret bufs s.
Proof using Type. destruct fuel; [lia|done]. Qed.

Lemma iov_loop_spec fuel p i node len bufs s :
  nodes !! i = Some node → 0 ≤ p < ns → 0 ≤ len →
  ns * Z.of_nat i + p + len ≤ ns * zlen nodes → (Z.to_nat len < fuel)%nat →
  ∃ iovs, iov_loop fuel nodes (Some i) p (ns - p) len bufs s = Ret (bufs ++ iovs) s ∧
          covers ns iovs (ns * Z.of_nat i + p) (ns * Z.of_nat i + p + len).
Proof using Hns Hu.
  revert p i node len bufs. induction fuel as [|fuel IH]; [lia|].
  intros p i node len bufs Hi Hp Hsz Hle Hf.
  assert (Hil : Z.of_nat i < zlen nodes) by (apply lookup_lt_Some in Hi; unfold zlen; lia).
  cbn [iov_loop]. destruct (Z.eqb_spec len 0) as [->|H0].
  { exists []. rewrite app_nil_r. split; [done|]. simpl. lia. }
  rewrite (deref_Some _ _ _ Hi).
  destruct (Z.leb_spec len (ns - p)) as [Hin|Hout].
  - rewrite iov_loop_0 by lia. eexists. split; [done|]. simpl. lia.
  - destruct (next_block i node Hi) as (next & Hnx & Hnext & Hln); [nia|].
    rewrite Hnx, (deref_Some _ _ _ Hnext), Hln.
    destruct (IH 0 (S i) next (len - (ns - p)) (bufs ++ [mkIovec i p (ns - p)]))
      as (iovs & E & Hcov); [done|lia|lia|lia|lia|].
    rewrite Z.sub_0_r in E. rewrite E. exists (mkIovec i p (ns - p) :: iovs).
    rewrite <-(assoc_L app). split; [done|]. cbn [covers iov_node iov_off iov_len].
    replace (ns * Z.of_nat (S i) + 0) with (ns * Z.of_nat i + p + (ns - p)) in Hcov by lia.
    replace (ns * Z.of_nat i + p + (ns - p) + (len - (ns - p)))
      with (ns * Z.of_nat i + p + len) in Hcov by lia.
    split_and!; try lia. done.
Qed.

(** Gathering a covering vector reads the flat block. *)
Lemma iov_gather_covers iovs a b : covers ns iovs a b → 0 ≤ a → b ≤ ns * zlen nodes →
  a ≤ b ∧ iov_gather nodes iovs = slice a (b - a) (concat nodes).
Proof using Hns Hu.
  revert a. induction iovs as [|[i p n] iovs IH]; intros a Hc Ha Hb; simpl in Hc.
  { subst. by rewrite Z.sub_diag, slice_0. }
  destruct Hc as (<- & Hp & Hn & Hpn & Hc).
  destruct (IH _ Hc) as [Hab E]; [lia|done|]. split; [lia|].
  unfold iov_gather. cbn [fmap list_fmap concat iov_node iov_off iov_len].
  fold (iov_gather nodes iovs). rewrite E.
  destruct (lookup_lt_is_Some_2 nodes i) as [node Hi]; [unfold zlen in Hb; nia|].
  rewrite (nth_lookup_Some _ _ _ _ Hi).
  rewrite (slice_block ns Hns nodes i node), slice_app by (done || lia).
  f_equal. lia.
Qed.
End ReadLoop.

(** Scattering into a covering vector writes the flat block. *)
Lemma iov_scatter_covers ns bs iovs a b nodes :
  0 < ns → uniform ns nodes → covers ns iovs a b → 0 ≤ a → b ≤ ns * zlen nodes →
  zlen bs ≤ b - a →
  concat (iov_scatter bs iovs nodes) = splice a bs (concat nodes) ∧
  length (iov_scatter bs iovs nodes) = length nodes ∧
  uniform ns (iov_scatter bs iovs nodes).
Proof.
  intros Hns. revert bs a nodes. induction iovs as [|[i p n] iovs IH]; intros bs a nodes Hu Hc Ha Hb Hl;
    simpl in Hc.
  { subst. pose proof (zlen_nonneg bs). rewrite (zlen_nil_inv bs) by lia.
    simpl. by rewrite splice_nil. }
  destruct Hc as (<- & Hp & Hn & Hpn & Hc). cbn [iov_scatter iov_node iov_off iov_len].
  set (s1 := take (Z.to_nat n) bs). set (s2 := drop (Z.to_nat n) bs).
  destruct (iov_gather_covers ns Hns nodes Hu _ _ _ Hc) as [Hab _]; [lia|done|].
  destruct (lookup_lt_is_Some_2 nodes i) as [node Hi]; [unfold zlen in Hb; nia|].
  pose proof (uniform_lookup _ _ _ _ Hu Hi) as Hln.
  assert (Hs1 : zlen s1 ≤ n) by (unfold s1, zlen; rewrite length_take; lia).
  rewrite Hi.
  destruct (IH s2 (ns * Z.of_nat i + p + n) (<[i:=splice p s1 node]> nodes)) as (E & El & Eu);
    [ |exact Hc|lia| |..].
  { apply uniform_insert; [done|]. rewrite zlen_splice; lia. }
  { unfold zlen. rewrite length_insert. fold (zlen nodes). lia. }
  { unfold s2, zlen in *. rewrite length_drop. lia. }
  rewrite E, El, length_insert. split_and!; [|done..].
  rewrite (splice_block ns Hns nodes i node) by (done || lia).
  destruct (Z.le_gt_cases (zlen bs) n) as [Hle|Hgt].
  - assert (s1 = bs) as -> by (apply take_ge; unfold zlen in Hle; lia).
    assert (s2 = []) as -> by (apply drop_ge; unfold zlen in Hle; lia).
    by rewrite splice_nil by lia.
  - assert (Hz : zlen s1 = n) by (apply zlen_take_le; lia).
    rewrite <-Hz at 1. rewrite splice_splice.
    + f_equal. apply take_drop.
    + rewrite (zlen_concat ns) by done. lia.
Qed.

(** *** Growing *)
Section Grow.
Context `{Platform}.

Lemma zlen_new_node s : 0 ≤ s → zlen (new_node s) = s.
Proof. intros. unfold zlen, new_node. rewrite length_replicate. lia. Qed.

Lemma append_nodes_spec n ba :
  0 ≤ m_node_size ba → 0 ≤ m_total_size ba →
  m_total_size ba + Z.of_nat n * m_node_size ba < 2 ^ 64 →
  append_nodes n ba =
    mkByteArray (m_nodes ba ++ replicate n (new_node (m_node_size ba))) (m_cur ba)
      (m_node_size ba) (m_total_size ba + Z.of_nat n * m_node_size ba) (m_data_size ba)
      (m_position ba) (m_ba_endian ba).
Proof.
  revert ba. induction n as [|n IH]; intros ba Hns Ht Hb.
  { simpl. rewrite app_nil_r, Z.add_0_r. by destruct ba. }
  cbn [append_nodes]. assert (u64 (m_total_size ba + m_node_size ba) =
    m_total_size ba + m_node_size ba) as E by (apply wrapu_small; unfold urange; lia).
  rewrite IH; simpl; rewrite ?E; [|lia..]. f_equal; [|lia].
  rewrite <-(assoc_L app). done.
Qed.

(** The growth is sufficient, and less than one block too much, as long as
    the sizes are exact as floats. *)
Lemma new_node_count_exact size ns : 0 < size < 2 ^ 24 → 0 < ns < 2 ^ 24 →
  size ≤ new_node_count size ns * ns < size + ns.
Proof.
  intros Hs Hns. unfold new_node_count. rewrite f32_ceil_div_exact by done.
  pose proof (Z.div_mod (size + ns - 1) ns). pose proof (Z.mod_pos_bound (size + ns - 1) ns).
  lia.
Qed.

Definition grown (ba ba' : ByteArray) : Prop :=
  same_shape ba ba' ∧ m_position ba' = m_position ba ∧ m_data_size ba' = m_data_size ba ∧
  ∃ junk, flat ba' = flat ba ++ junk.

Lemma getRemainSize_wf ba : wf ba → getRemainSize ba = m_total_size ba - m_position ba.
Proof.
  intros W. pose proof (wf_pos _ W). pose proof (wf_data _ W). pose proof (wf_bound _ W).
  apply wrapu_small; unfold urange; lia.
Qed.

(** The blocks together, with room for [n] bytes from position [p] on: whole
    blocks of new memory behind what there is. *)
Definition round_up (ns n : Z) : Z := ns * ((n + ns - 1) / ns).
Definition with_room (ns n p : Z) (cells : list byte) : list byte :=
  cells ++ replicate (Z.to_nat (round_up ns (p + n) - zlen cells)) uninit.

Lemma round_up_eq ns n k : 0 < ns → ns * (k - 1) < n ≤ ns * k → round_up ns n = ns * k.
Proof. intros Hns Hn. unfold round_up. f_equal. symmetry. apply (Z.div_unique _ _ _ (n - 1 - ns * (k - 1))); lia. Qed.
Lemma with_room_enough ns n p cells k : 0 < ns → zlen cells = ns * k → p + n ≤ zlen cells →
  with_room ns n p cells = cells.
Proof.
  intros Hns Hk Hle. unfold with_room, round_up. assert ((p + n + ns - 1) / ns ≤ k).
  { assert (((p + n + ns - 1) / ns) < k + 1); [|lia]. apply Z.div_lt_upper_bound; lia. }
  replace (Z.to_nat _) with 0%nat by nia. apply app_nil_r.
Qed.
Lemma concat_new_nodes ns k : 0 ≤ ns →
  concat (replicate k (new_node ns)) = replicate (k * Z.to_nat ns) uninit.
Proof.
  intros Hns. induction k as [|k IH]; [done|]. simpl. unfold new_node in *. by rewrite IH, replicate_add.
Qed.

Lemma addTotalSize_flat n ba : wf ba → 0 < n → room ba n →
  ∃ ba', addTotalSize n ba = Ret tt ba' ∧ wf ba' ∧ grown ba ba' ∧
         m_position ba + n ≤ m_total_size ba' ∧
         m_total_size ba' < m_total_size ba + n + m_node_size ba ∧
         flat ba' = with_room (m_node_size ba) n (m_position ba) (flat ba).
Proof.
  intros W Hn [Hr1 Hr2]. unfold addTotalSize.
  pose proof (wf_pos _ W). pose proof (wf_data _ W). pose proof (wf_bound _ W).
  pose proof (wf_node_size _ W). pose proof (wf_total _ W) as Ht.
  destruct (Z.eqb_spec n 0); [lia|]. mrun. rewrite getRemainSize_wf by done.
  destruct (Z.leb_spec n (m_total_size ba - m_position ba)) as [Hle|Hgt].
  { exists ba. split; [done|]. split; [done|]. split.
    { repeat split; try done. exists []. by rewrite app_nil_r. }
    split; [lia|]. split; [lia|]. symmetry.
    eapply with_room_enough; rewrite ?zlen_flat by done; [lia|exact Ht|lia]. }
  rewrite wrapu_small by (unfold urange; lia).
  set (sz := n - (m_total_size ba - m_position ba)).
  pose proof (new_node_count_exact sz (m_node_size ba) ltac:(lia) ltac:(lia)) as Hc.
  set (k := new_node_count sz (m_node_size ba)) in *.
  assert (Hk : 0 < k) by nia.
  destruct (Nat.eqb_spec (Z.to_nat k) 0); [lia|].
  rewrite append_nodes_spec by (rewrite ?Z2Nat.id; lia). rewrite Z2Nat.id by lia. simpl.
  set (nodes' := m_nodes ba ++ replicate (Z.to_nat k) (new_node (m_node_size ba))).
  assert (Hz : zlen nodes' = zlen (m_nodes ba) + k)
    by (unfold nodes'; rewrite zlen_app; unfold zlen; rewrite length_replicate; lia).
  assert (Hu : uniform (m_node_size ba) nodes').
  { apply uniform_app; [apply (wf_uniform _ W)|]. apply Forall_replicate, zlen_new_node. lia. }
  pose proof (wf_nonempty _ W). pose proof (zlen_nonneg (m_nodes ba)).
  assert (Hf : concat nodes' = flat ba ++ concat (replicate (Z.to_nat k) (new_node (m_node_size ba))))
    by (apply concat_app).
  assert (Hw : concat nodes' = with_room (m_node_size ba) n (m_position ba) (flat ba)).
  { rewrite Hf. unfold with_room. f_equal. rewrite concat_new_nodes, zlen_flat by (done || lia).
    rewrite (round_up_eq _ _ (zlen (m_nodes ba) + k)) by nia. f_equal. nia. }
  destruct (Z.eqb_spec (m_total_size ba - m_position ba) 0) as [Hz0|Hz0]; mrun;
    (eexists; split; [done|]); (split; [|split; [repeat split; try done; by eexists|simpl; split_and!; [lia|lia|done]]]);
    split; simpl; try done; try lia.
  - (* the cursor was null and becomes the first new block *)
    assert (m_position ba / m_node_size ba = zlen (m_nodes ba)) as ->.
    { replace (m_position ba) with (m_node_size ba * zlen (m_nodes ba) + 0) by lia.
      apply div_block; lia. }
    rewrite cursor_Some by lia. f_equal. unfold zlen. lia.
  - rewrite (wf_cur _ W). assert (0 ≤ m_position ba / m_node_size ba < zlen (m_nodes ba)).
    { split; [apply Z.div_pos; lia|]. apply Z.div_lt_upper_bound; lia. }
    by rewrite !cursor_Some by lia.
Qed.
Lemma addTotalSize_spec n ba : wf ba → 0 < n → room ba n →
  ∃ ba', addTotalSize n ba = Ret tt ba' ∧ wf ba' ∧ grown ba ba' ∧
         m_position ba + n ≤ m_total_size ba' ∧
         m_total_size ba' < m_total_size ba + n + m_node_size ba.
Proof.
  intros W Hn Hr. destruct (addTotalSize_flat n ba W Hn Hr) as (ba' & ? & ? & ? & ? & ? & _). by exists ba'.
Qed.

Lemma abs_grown ba ba' : wf ba → grown ba ba' → abs ba' = abs ba.
Proof.
  intros W (_ & Hp & Hd & junk & Hf). unfold abs. rewrite Hp, Hd, Hf.
  rewrite take_app_le; [done|]. pose proof (zlen_flat _ W) as Hz. pose proof (wf_data _ W).
  unfold zlen in Hz. lia.
Qed.
End Grow.

(** The data kept by a write: the prefix up to the larger of the old size
    and the end of the write. *)
Lemma take_splice {A} (d p : Z) (bs l : list A) :
  0 ≤ p ≤ d → d ≤ zlen l → p + zlen bs ≤ zlen l →
  take (Z.to_nat (Z.max d (p + zlen bs))) (splice p bs l) = splice p bs (take (Z.to_nat d) l).
Proof.
  unfold splice, zlen. intros.
  rewrite take_take, (Nat.min_l _ (Z.to_nat d)) by lia.
  rewrite take_app_ge by (rewrite length_take; lia). f_equal.
  rewrite length_take, Nat.min_l by lia.
  rewrite take_app_ge by lia. f_equal.
  rewrite skipn_firstn_comm. f_equal. lia.
Qed.

(** *** Refinement: the operations on the chain are those of the buffer *)
Section Refinement.
Context `{Platform}.

(** Where the cursor stands when there is a byte behind the position. *)
Lemma cur_node ba : wf ba → m_position ba < m_total_size ba →
  ∃ node, let i := Z.to_nat (m_position ba / m_node_size ba) in
    m_cur ba = Some i ∧ m_nodes ba !! i = Some node ∧ zlen node = m_node_size ba ∧
    m_position ba = m_node_size ba * Z.of_nat i + m_position ba mod m_node_size ba ∧
    0 ≤ m_position ba mod m_node_size ba < m_node_size ba.
Proof.
  intros W Hlt. pose proof (wf_node_size _ W). pose proof (wf_pos _ W).
  pose proof (wf_total _ W).
  destruct (deref_cursor (m_node_size ba) (m_nodes ba) (m_position ba))
    as (node & _ & Hi & Hl); [lia|apply (wf_uniform _ W)|lia|].
  exists node. simpl. split_and!; try done.
  - rewrite (wf_cur _ W), cursor_Some; [done|]. split; [apply Z.div_pos; lia|].
    apply Z.div_lt_upper_bound; lia.
  - apply pos_split; lia.
  - apply pos_split; lia.
  - apply pos_split; lia.
Qed.

Lemma set_data_size_same ba d : m_data_size ba = d → set_data_size d ba = ba.
Proof. intros <-. by destruct ba. Qed.

Lemma write_flat bs ba : wf ba → room ba (zlen bs) →
  ∃ ba', write bs ba = Ret tt ba' ∧ wf ba' ∧ same_shape ba ba' ∧
         abs ba' = buf_write bs (abs ba) ∧
         m_total_size ba' < m_total_size ba + zlen bs + m_node_size ba ∧
         flat ba' = splice (m_position ba) bs (with_room (m_node_size ba) (zlen bs) (m_position ba) (flat ba)) ∧
         m_data_size ba' = Z.max (m_data_size ba) (m_position ba + zlen bs) ∧
         m_position ba' = m_position ba + zlen bs.
Proof.
  intros W Hroom. unfold write. pose proof (wf_node_size _ W) as Hns.
  destruct (Z.eqb_spec (zlen bs) 0) as [H0|H0].
  { apply zlen_nil_inv in H0 as ->. exists ba. split; [done|]. split; [done|].
    pose proof (wf_pos _ W). pose proof (wf_data _ W). rewrite !splice_nil by lia.
    change (zlen []) with 0. split; [done|]. split; [unfold buf_write; simpl|split; [lia|split; [|lia]]].
    { rewrite splice_nil by lia. change (zlen []) with 0. by rewrite Z.add_0_r. }
    symmetry. eapply with_room_enough; rewrite ?zlen_flat by done; [lia|apply (wf_total _ W)|lia]. }
  pose proof (zlen_nonneg bs) as Hbs.
  destruct (addTotalSize_flat (zlen bs) ba W) as (b1 & E1 & W1 & G & Hrm & Hgrow & Hflat); [lia|done|].
  mstep E1. mrun. pose proof G as ([Hs1 Hs2] & Hp & Hd & _).
  pose proof (wf_pos _ W1). pose proof (wf_data _ W1). pose proof (wf_bound _ W1).
  destruct (cur_node b1 W1) as (node & Hc & Hi & Hl & Hpos & Hmod); [lia|].
  destruct (Z.eqb_spec (m_node_size b1) 0); [lia|].
  rewrite Hc, (deref_Some _ _ _ Hi), Hl. rewrite wrapu_small by (unfold urange; lia).
  set (i := Z.to_nat (m_position b1 / m_node_size b1)) in *.
  destruct (write_loop_spec (m_node_size b1) ltac:(lia) (S (length bs)) bs
    (m_position b1 mod m_node_size b1) i node b1) as (nodes' & E & Hcat & Hlen & Hu);
    [apply (wf_uniform _ W1)|done|done|done| |lia|lia|lia|].
  { rewrite <-Hpos, <-(wf_total _ W1). lia. }
  mstep E. mrun. rewrite <-Hpos in Hcat |- *. simpl.
  set (b2 := set_chain nodes' _ _ b1).
  assert (Hres : (if m_data_size b2 <? m_position b2
                  then set_data_size (m_position b2) b2 else b2)
                 = set_data_size (Z.max (m_data_size b1) (m_position b1 + zlen bs)) b2).
  { simpl. destruct (Z.ltb_spec (m_data_size b1) (m_position b1 + zlen bs)).
    - f_equal. lia.
    - symmetry. apply set_data_size_same. simpl. lia. }
  exists (set_data_size (Z.max (m_data_size b1) (m_position b1 + zlen bs)) b2).
  split; [rewrite <-Hres; reflexivity|]. clear Hres.
  assert (Hz : zlen nodes' = zlen (m_nodes b1)) by (unfold zlen; lia).
  split_and!; simpl; try lia.
  - pose proof (wf_nonempty _ W1).
    split; simpl; rewrite ?Hz; try done; try lia; apply W1.
  - by split.
  - rewrite <-(abs_grown _ _ W G). unfold abs, buf_write. simpl. f_equal.
    change (flat (set_data_size _ b2)) with (concat nodes'). rewrite Hcat.
    apply take_splice; rewrite ?zlen_flat by done; lia.
  - change (concat nodes' = splice (m_position ba) bs
      (with_room (m_node_size ba) (zlen bs) (m_position ba) (flat ba))).
    by rewrite Hcat, Hp, Hflat.
Qed.
Lemma write_spec bs ba : wf ba → room ba (zlen bs) →
  ∃ ba', write bs ba = Ret tt ba' ∧ wf ba' ∧ same_shape ba ba' ∧
         abs ba' = buf_write bs (abs ba) ∧
         m_total_size ba' < m_total_size ba + zlen bs + m_node_size ba.
Proof.
  intros W Hr. destruct (write_flat bs ba W Hr) as (ba' & ? & ? & ? & ? & ? & _). by exists ba'.
Qed.

Lemma zlen_content ba : wf ba → zlen (content (abs ba)) = m_data_size ba.
Proof.
  intros W. simpl. apply zlen_take_le. rewrite zlen_flat by done.
  pose proof (wf_pos _ W). pose proof (wf_data _ W). lia.
Qed.

Lemma slice_take {A} p n d (l : list A) : 0 ≤ p → 0 ≤ n → p + n ≤ d →
  slice p n (take (Z.to_nat d) l) = slice p n l.
Proof.
  intros. unfold slice. rewrite skipn_firstn_comm, take_take. f_equal. lia.
Qed.

Lemma getReadSize_wf ba : wf ba → getReadSize ba = m_data_size ba - m_position ba.
Proof.
  intros W. pose proof (wf_pos _ W). pose proof (wf_data _ W). pose proof (wf_bound _ W).
  apply wrapu_small; unfold urange; lia.
Qed.

(** What the loop of the two [read]s delivers from the position. *)
Lemma read_from_cur n ba : wf ba → 0 < n ≤ m_data_size ba - m_position ba →
  ∃ i node, m_cur ba = Some i ∧ m_nodes ba !! i = Some node ∧
    read_loop (S (Z.to_nat n)) (m_nodes ba) (m_cur ba) (m_position ba mod m_node_size ba)
      (u64 (zlen node - m_position ba mod m_node_size ba)) n [] ba =
    Ret (slice (m_position ba) n (flat ba),
         cursor (m_nodes ba) ((m_position ba + n) / m_node_size ba)) ba.
Proof.
  intros W Hn. pose proof (wf_node_size _ W). pose proof (wf_pos _ W).
  pose proof (wf_data _ W). pose proof (wf_bound _ W).
  destruct (cur_node ba W) as (node & Hc & Hi & Hl & Hpos & Hmod); [lia|].
  eexists _, node. split; [exact Hc|]. split; [exact Hi|].
  rewrite Hl, wrapu_small by (unfold urange; lia). rewrite Hc.
  rewrite (read_loop_spec (m_node_size ba)) with (node := node);
    [|lia|apply (wf_uniform _ W)|done|done|lia| |lia].
  - by rewrite <-Hpos.
  - rewrite <-Hpos, <-(wf_total _ W). lia.
Qed.

Lemma read_spec n ba : wf ba → 0 ≤ n →
  match buf_read n (abs ba) with
  | Some (bs, b') => ∃ ba', read n ba = Ret bs ba' ∧ wf ba' ∧ same_shape ba ba' ∧
                            abs ba' = b' ∧ m_nodes ba' = m_nodes ba ∧
                            m_total_size ba' = m_total_size ba
  | None => read n ba = Throw (read_out_of_range (m_data_size ba) (m_position ba)) ba
  end.
Proof.
  intros W Hn. unfold buf_read. rewrite zlen_content by done. simpl.
  pose proof (wf_pos _ W). pose proof (wf_data _ W). pose proof (wf_bound _ W).
  pose proof (wf_node_size _ W).
  unfold read. destruct (Z.eqb_spec n 0) as [->|Hn0].
  { destruct (Z.ltb_spec (m_data_size ba - m_position ba) 0); [lia|].
    exists ba. rewrite slice_0, Z.add_0_r. done. }
  mrun. rewrite getReadSize_wf by done.
  destruct (Z.ltb_spec (m_data_size ba - m_position ba) n) as [|Hge]; [done|].
  destruct (read_from_cur n ba W) as (i & node & Hc & Hi & E); [lia|].
  destruct (Z.eqb_spec (m_node_size ba) 0); [lia|].
  rewrite Hc, (deref_Some _ _ _ Hi), <-Hc. mstep E. mrun. simpl.
  rewrite (wrapu_small 64) by (unfold urange; lia).
  eexists. rewrite slice_take by lia. split; [done|]. split; [|done].
  split; simpl; try done; try lia; apply W.
Qed.

Lemma toString_spec ba : wf ba →
  toString ba = Ret (drop (Z.to_nat (pos (abs ba))) (content (abs ba))) ba.
Proof.
  intros W. unfold toString. mrun.
  pose proof (wf_pos _ W). pose proof (wf_data _ W). pose proof (wf_bound _ W).
  pose proof (wf_node_size _ W). pose proof (zlen_flat _ W) as Hz. unfold zlen in Hz.
  rewrite wrapu_small by (unfold urange; lia). simpl. set (n := m_data_size ba - m_position ba).
  assert (Hd : drop (Z.to_nat (m_position ba)) (take (Z.to_nat (m_data_size ba)) (flat ba))
               = slice (m_position ba) n (flat ba)).
  { unfold slice. rewrite skipn_firstn_comm. f_equal. lia. }
  rewrite Hd. unfold read_at. destruct (Z.eqb_spec n 0) as [->|]; [done|].
  mrun. rewrite (wrapu_small 64) by (unfold urange; lia). fold n.
  destruct (Z.ltb_spec n n); [lia|]. destruct (Z.eqb_spec (m_node_size ba) 0); [lia|].
  destruct (read_from_cur n ba W) as (i & node & Hc & Hi & E); [lia|].
  rewrite Hc, (deref_Some _ _ _ Hi), <-Hc. by mstep E.
Qed.

(** The search of [setPosition] ends at the block of the position. *)
Lemma seek_loop_spec ns fuel nodes i p s :
  0 < ns → uniform ns nodes → 0 ≤ p → Z.of_nat i < zlen nodes →
  ns * Z.of_nat i + p ≤ ns * zlen nodes → p < 2 ^ 64 → p < ns * Z.of_nat fuel + 1 →
  (0 < fuel)%nat →
  seek_loop fuel nodes (Some i) p s = Ret (cursor nodes ((ns * Z.of_nat i + p) / ns)) s.
Proof.
  intros Hns Hu. revert i p. induction fuel as [|fuel IH]; [lia|].
  intros i p Hp Hi Hle Hb Hf _. cbn [seek_loop].
  destruct (lookup_lt_is_Some_2 nodes i) as [node En]; [unfold zlen in Hi; lia|].
  rewrite (deref_Some _ _ _ En), (uniform_lookup _ _ _ _ Hu En).
  destruct (Z.ltb_spec ns p) as [Hlt|Hge].
  - destruct (next_block ns nodes Hu i node En) as (next & Hnx & Hnext & Hln); [nia|].
    rewrite Hnx, (deref_Some _ _ _ Hnext), Hln.
    assert (Z.of_nat (S i) < zlen nodes) by (apply lookup_lt_Some in Hnext; unfold zlen; lia).
    rewrite wrapu_small by (unfold urange; lia).
    rewrite IH by lia. do 2 f_equal. f_equal. lia.
  - mrun. do 2 f_equal. rewrite next_of_cursor. destruct (Z.eqb_spec p ns) as [->|].
    + replace (ns * Z.of_nat i + ns) with (ns * (Z.of_nat i + 1) + 0) by lia.
      by rewrite div_block by lia.
    + rewrite div_block by lia. rewrite cursor_Some by lia. by rewrite Nat2Z.id.
Qed.

Lemma setPosition_spec p ba : wf ba → 0 ≤ p →
  setPosition p ba =
    (if m_total_size ba <? p
     then Throw (pos_out_of_range (m_data_size ba) p) ba
     else Ret tt (set_data_size (Z.max (m_data_size ba) p)
                    (set_chain (m_nodes ba) (cursor (m_nodes ba) (p / m_node_size ba)) p ba))).
Proof.
  intros W Hp. unfold setPosition. mrun.
  destruct (Z.ltb_spec (m_total_size ba) p) as [|Hle]; [done|].
  pose proof (wf_node_size _ W). pose proof (wf_total _ W). pose proof (wf_bound _ W).
  pose proof (wf_nonempty _ W).
  assert (E : seek_loop (S (length (m_nodes ba))) (m_nodes ba) (Some 0%nat) p ba =
              Ret (cursor (m_nodes ba) (p / m_node_size ba)) ba).
  { rewrite (seek_loop_spec (m_node_size ba));
      [|lia|apply (wf_uniform _ W)|lia|lia|lia|lia|unfold zlen in *; nia|lia].
    do 3 f_equal. lia. }
  mstep E. mend. do 2 f_equal. destruct (Z.ltb_spec (m_data_size ba) p); f_equal; lia.
Qed.

Lemma setPosition_wf p ba ba' : wf ba → 0 ≤ p → setPosition p ba = Ret tt ba' →
  wf ba' ∧ same_shape ba ba' ∧ m_nodes ba' = m_nodes ba ∧ m_position ba' = p ∧
  m_data_size ba' = Z.max (m_data_size ba) p ∧ m_total_size ba' = m_total_size ba.
Proof.
  intros W Hp. rewrite setPosition_spec by done.
  destruct (Z.ltb_spec (m_total_size ba) p); [done|]. intros [= <-]. simpl.
  split; [|done]. pose proof (wf_data _ W).
  split; simpl; try done; try lia; apply W.
Qed.

(** Seeking inside the data only moves the position. *)
Lemma setPosition_inside p ba : wf ba → 0 ≤ p ≤ m_data_size ba →
  ∃ ba', setPosition p ba = Ret tt ba' ∧ wf ba' ∧ same_shape ba ba' ∧
         abs ba' = mkBuffer (content (abs ba)) p ∧ m_nodes ba' = m_nodes ba ∧
         m_total_size ba' = m_total_size ba.
Proof.
  intros W Hp. pose proof (wf_data _ W). pose proof (wf_pos _ W).
  assert (E : setPosition p ba = Ret tt (set_data_size (Z.max (m_data_size ba) p)
              (set_chain (m_nodes ba) (cursor (m_nodes ba) (p / m_node_size ba)) p ba))).
  { rewrite setPosition_spec by (done || lia). destruct (Z.ltb_spec (m_total_size ba) p); [lia|done]. }
  destruct (setPosition_wf p ba _ W ltac:(lia) E) as (W' & ? & ? & ? & Hd & ?).
  eexists. split; [exact E|]. split_and!; try done.
  unfold abs. simpl. by rewrite Z.max_l by lia.
Qed.
End Refinement.

(** *** The vectors handed to [sendmsg] and [recvmsg] *)
Section Buffers.
Context `{Platform}.

Lemma iov_from_cur n ba : wf ba → 0 < n → m_position ba + n ≤ m_total_size ba →
  ∃ i node iovs, m_cur ba = Some i ∧ m_nodes ba !! i = Some node ∧
    iov_loop (S (Z.to_nat n)) (m_nodes ba) (m_cur ba) (m_position ba mod m_node_size ba)
      (u64 (zlen node - m_position ba mod m_node_size ba)) n [] ba = Ret iovs ba ∧
    covers (m_node_size ba) iovs (m_position ba) (m_position ba + n).
Proof.
  intros W Hn Hle. pose proof (wf_node_size _ W).
  destruct (cur_node ba W) as (node & Hc & Hi & Hl & Hpos & Hmod); [lia|].
  set (i := Z.to_nat (m_position ba / m_node_size ba)) in *.
  destruct (iov_loop_spec (m_node_size ba) ltac:(lia) (m_nodes ba) (wf_uniform _ W)
    (S (Z.to_nat n)) (m_position ba mod m_node_size ba) i node n [] ba) as (iovs & E & Hcov);
    [done|done|lia| |lia|].
  { rewrite <-Hpos, <-(wf_total _ W). lia. }
  exists i, node, iovs. split; [done|]. split; [done|]. rewrite Hc, Hl.
  rewrite wrapu_small by (unfold urange; lia). rewrite <-Hpos in Hcov. done.
Qed.

(** [getReadBuffers] describes the next [min len rest] unread bytes. *)
Lemma getReadBuffers_spec len ba : wf ba → 0 ≤ len →
  ∃ iovs n, getReadBuffers len ba = Ret (iovs, n) ba ∧
    n = Z.min len (m_data_size ba - m_position ba) ∧
    covers (m_node_size ba) iovs (m_position ba) (m_position ba + n) ∧
    iov_gather (m_nodes ba) iovs = slice (pos (abs ba)) n (content (abs ba)).
Proof.
  intros W Hlen. unfold getReadBuffers. mrun.
  pose proof (wf_pos _ W). pose proof (wf_data _ W). pose proof (wf_bound _ W).
  pose proof (wf_node_size _ W). pose proof (wf_total _ W).
  rewrite wrapu_small by (unfold urange; lia).
  set (rest := m_data_size ba - m_position ba).
  assert (Hmin : (if rest <? len then rest else len) = Z.min len rest)
    by (destruct (Z.ltb_spec rest len); lia).
  rewrite Hmin. set (n := Z.min len rest).
  destruct (Z.eqb_spec n 0) as [Hn0|Hn0].
  { exists [], 0. split; [done|]. rewrite <-Hn0 at 1. split; [done|]. simpl.
    split; [lia|]. done. }
  destruct (iov_from_cur n ba W) as (i & node & iovs & Hc & Hi & E & Hcov); [lia|lia|].
  destruct (Z.eqb_spec (m_node_size ba) 0); [lia|].
  rewrite Hc, (deref_Some _ _ _ Hi), <-Hc. mstep E. mend.
  exists iovs, n. split_and!; try done.
  destruct (iov_gather_covers (m_node_size ba) ltac:(lia) _ (wf_uniform _ W) _ _ _ Hcov) as [_ Hg]; [lia|lia|].
  rewrite Hg. simpl. rewrite slice_take by lia. f_equal. lia.
Qed.

(** [getWriteBuffers] makes room and describes the next [len] bytes. *)
Lemma getWriteBuffers_spec len ba : wf ba → 0 < len → room ba len →
  ∃ iovs ba', getWriteBuffers len ba = Ret (iovs, len) ba' ∧ wf ba' ∧ grown ba ba' ∧
    m_position ba + len ≤ m_total_size ba' < m_total_size ba + len + m_node_size ba ∧
    covers (m_node_size ba') iovs (m_position ba') (m_position ba' + len).
Proof.
  intros W Hlen Hroom. unfold getWriteBuffers.
  destruct (addTotalSize_spec len ba W) as (b1 & E1 & W1 & G & Hrm & Hrm'); [done|done|].
  destruct (Z.eqb_spec len 0); [lia|]. mstep E1. mrun.
  pose proof (wf_node_size _ W1). pose proof G as (_ & Hp & _ & _).
  destruct (Z.eqb_spec (m_node_size b1) 0); [lia|].
  destruct (iov_from_cur len b1 W1) as (i & node & iovs & Hc & Hi & E & Hcov); [lia|lia|].
  rewrite Hc, (deref_Some _ _ _ Hi), <-Hc. mstep E. mend.
  exists iovs, b1. done.
Qed.

(** Receiving [bs] into the buffers and moving the position behind it is
    a write of [bs]. *)
Lemma receive_spec len bs ba iovs ba' :
  wf ba → 0 < len → room ba len → zlen bs ≤ len →
  getWriteBuffers len ba = Ret (iovs, len) ba' →
  let ba1 := set_chain (iov_scatter bs iovs (m_nodes ba')) (m_cur ba') (m_position ba') ba' in
  wf ba1 ∧ m_position ba1 = m_position ba ∧
  ∃ ba2, setPosition (m_position ba1 + zlen bs) ba1 = Ret tt ba2 ∧ wf ba2 ∧
         same_shape ba ba2 ∧ abs ba2 = buf_write bs (abs ba) ∧ m_total_size ba2 = m_total_size ba'.
Proof.
  intros W Hlen Hroom Hbs E. simpl.
  destruct (getWriteBuffers_spec len ba W Hlen Hroom) as (iovs' & b' & E' & W' & G & Hrm & Hcov).
  rewrite E in E'. injection E' as <- <-. pose proof G as ([Hs1 Hs2] & Hp & Hd & _).
  pose proof (wf_node_size _ W'). pose proof (wf_pos _ W'). pose proof (wf_data _ W').
  pose proof (wf_total _ W'). pose proof (zlen_nonneg bs).
  destruct (iov_scatter_covers (m_node_size ba') bs iovs (m_position ba') (m_position ba' + len)
    (m_nodes ba')) as (Hcat & Hl & Hu); [lia|apply (wf_uniform _ W')|done|lia|lia|lia|].
  assert (Hz : zlen (iov_scatter bs iovs (m_nodes ba')) = zlen (m_nodes ba'))
    by (unfold zlen; lia).
  set (ba1 := set_chain _ _ _ ba').
  assert (W1 : wf ba1).
  { pose proof (wf_nonempty _ W').
    split; simpl; rewrite ?Hz; try done; try lia; try apply W'.
    rewrite (wf_cur _ W'). unfold cursor. by rewrite Hz. }
  split; [done|]. split; [done|].
  destruct (setPosition (m_position ba' + zlen bs) ba1) as [[] ba2|e s|f] eqn:E2.
  - destruct (setPosition_wf (m_position ba' + zlen bs) ba1 ba2 W1 ltac:(lia) E2) as (W2 & [? ?] & Hn2 & Hp2 & Hd2 & ?).
    exists ba2. split; [done|]. split; [done|]. split; [split; simpl in *; congruence|]. split; [|done].
    rewrite <-(abs_grown _ _ W G). unfold abs, buf_write. rewrite Hp2, Hd2. simpl.
    f_equal. unfold flat at 1. rewrite Hn2. simpl. rewrite Hcat.
    apply take_splice; rewrite ?zlen_flat by done; lia.
  - rewrite setPosition_spec in E2 by (done || lia). simpl in E2.
    destruct (Z.ltb_spec (m_total_size ba') (m_position ba' + zlen bs)); [lia|done].
  - rewrite setPosition_spec in E2 by (done || lia). simpl in E2.
    destruct (Z.ltb_spec (m_total_size ba') (m_position ba' + zlen bs)); [lia|done].
Qed.
End Buffers.

(** *** Construction, clearing, files *)
Section Lifecycle.
Context `{Platform}.

Lemma ByteArray_new_wf ns : 0 < ns < 2 ^ 24 → wf (ByteArray_new ns).
Proof.
  intros Hns. split; simpl; try (unfold zlen; simpl; lia).
  - apply Forall_singleton, zlen_new_node. lia.
  - rewrite Z.div_0_l by lia. done.
Qed.

Lemma clear_spec ba : wf ba →
  wf (clear ba) ∧ same_shape ba (clear ba) ∧ abs (clear ba) = mkBuffer [] 0 ∧
  m_total_size (clear ba) ≤ m_total_size ba.
Proof.
  intros W. pose proof (wf_node_size _ W). pose proof (wf_nonempty _ W).
  pose proof (wf_uniform _ W) as Hu. pose proof (wf_total _ W).
  assert (E : zlen (take 1 (m_nodes ba)) = 1).
  { unfold zlen in *. rewrite length_take. lia. }
  split; [|split; [done|split; [done|simpl; nia]]].
  split; simpl; rewrite ?E; try lia.
  - by apply Forall_take.
  - rewrite Z.div_0_l by lia. rewrite cursor_Some by lia. done.
Qed.

(** With the position at a block boundary, each round of [writeToFile]
    writes the rest of one block. *)
Lemma file_loop_spec fuel ba i n out :
  wf ba → n ≤ m_total_size ba - m_node_size ba * Z.of_nat i → 0 ≤ n →
  (Z.to_nat n < fuel)%nat →
  file_loop fuel ba (cursor (m_nodes ba) (Z.of_nat i)) (m_node_size ba * Z.of_nat i) n out ba =
    Ret (out ++ slice (m_node_size ba * Z.of_nat i) n (flat ba)) ba.
Proof.
  intros W. revert i n out. induction fuel as [|fuel IH]; [lia|]. intros i n out Hn Hn0 Hf.
  cbn [file_loop]. destruct (Z.eqb_spec n 0) as [->|Hnz].
  { by rewrite slice_0, app_nil_r. }
  pose proof (wf_node_size _ W) as Hns. pose proof (wf_total _ W). pose proof (wf_bound _ W).
  set (ns := m_node_size ba) in *. destruct (Z.eqb_spec ns 0); [lia|].
  rewrite (Z.mul_comm ns), Z.mod_mul, Z.sub_0_r, (Z.mul_comm _ ns) by lia.
  rewrite (wraps_small 64 ltac:(lia) ns) by (unfold srange; simpl; lia).
  rewrite (wrapu_small 64 ltac:(lia) ns) by (unfold urange; lia).
  assert (Hlen : (if ns <? n then ns else n) = Z.min ns n) by (destruct (Z.ltb_spec ns n); lia).
  rewrite Hlen. set (len := Z.min ns n).
  rewrite (wrapu_small 64 ltac:(lia) len) by (unfold urange; lia).
  rewrite (wraps_small 64 ltac:(lia) len) by (unfold srange; simpl; lia).
  assert (Hi : Z.of_nat i < zlen (m_nodes ba)) by nia.
  destruct (lookup_lt_is_Some_2 (m_nodes ba) i) as [node En]; [unfold zlen in Hi; lia|].
  rewrite cursor_Some, Nat2Z.id, (deref_Some _ _ _ En) by lia.
  rewrite memcpy_from_ok by (rewrite ?(uniform_lookup _ _ _ _ (wf_uniform _ W) En); lia).
  rewrite !wrapu_small by (unfold urange; nia).
  rewrite next_of_cursor. pose proof (wf_uniform _ W) as Hu. fold ns in Hu.
  rewrite (slice_block ns ltac:(lia) (m_nodes ba) i node), Z.add_0_r by (done || lia).
  fold (flat ba). destruct (Z.le_gt_cases n ns) as [Hle|Hgt].
  - replace len with n by lia. rewrite Z.sub_diag. by destruct fuel; [lia|].
  - replace len with ns by lia.
    replace (ns * Z.of_nat i + ns) with (ns * Z.of_nat (S i)) by lia.
    replace (Z.of_nat i + 1) with (Z.of_nat (S i)) by lia.
    rewrite IH by lia. f_equal. rewrite <-(assoc_L app). f_equal.
    replace (ns * Z.of_nat (S i)) with (ns * Z.of_nat i + ns) by lia.
    rewrite slice_app by lia. f_equal. lia.
Qed.

Lemma writeToFile_spec ba k : wf ba → m_position ba = m_node_size ba * Z.of_nat k →
  writeToFile true ba = Ret (drop (Z.to_nat (pos (abs ba))) (content (abs ba))) ba.
Proof.
  intros W Hk. unfold writeToFile. cbn [negb]. mrun.
  pose proof (wf_node_size _ W). pose proof (wf_pos _ W). pose proof (wf_data _ W).
  rewrite getReadSize_wf by done. rewrite (wf_cur _ W), Hk.
  replace (m_node_size ba * Z.of_nat k / m_node_size ba) with (Z.of_nat k)
    by (rewrite Z.mul_comm, Z.div_mul; lia).
  rewrite file_loop_spec by (done || lia). simpl. f_equal. unfold slice.
  rewrite skipn_firstn_comm. rewrite Hk. f_equal. lia.
Qed.

(** [readFromFile] appends the file block by block. *)
Lemma load_loop_spec fuel ns bs ba :
  wf ba → ns = m_node_size ba → (length bs < fuel)%nat →
  m_total_size ba + 2 * ns * (zlen bs + 1) < 2 ^ 64 →
  ∃ ba', load_loop fuel ns bs ba = Ret tt ba' ∧ wf ba' ∧ same_shape ba ba' ∧
         pos (abs ba') = pos (abs ba) + zlen bs ∧
         (pos (abs ba) = zlen (content (abs ba)) →
          content (abs ba') = content (abs ba) ++ bs).
Proof.
  intros W -> Hf Hb. revert bs ba W Hf Hb.
  induction fuel as [|fuel IH]; [lia|]. intros bs ba W Hf Hb. cbn [load_loop].
  pose proof (wf_node_size _ W) as Hns. set (ns := m_node_size ba) in *.
  set (got := take (Z.to_nat ns) bs).
  pose proof (zlen_nonneg bs).
  assert (Hg : zlen got = Z.min ns (zlen bs)) by (unfold got, zlen; rewrite length_take; lia).
  destruct (write_spec got ba W) as (b1 & E1 & W1 & [Hs1 Hs2] & A1 & T1).
  { split; fold ns; nia. }
  mstep E1. assert (Hpos : pos (abs b1) = pos (abs ba) + zlen got) by (rewrite A1; done).
  assert (Hcont : pos (abs ba) = zlen (content (abs ba)) →
            content (abs b1) = content (abs ba) ++ got).
  { intros Hend. rewrite A1. unfold buf_write, splice. rewrite Hend. simpl.
    unfold zlen. rewrite Nat2Z.id, take_ge, drop_ge, app_nil_r by (simpl; lia). done. }
  destruct (Z.ltb_spec (zlen got) ns) as [Hlt|Hge].
  - assert (got = bs) as Hall by (apply take_ge; unfold zlen in *; lia).
    exists b1. rewrite Hall in *. done.
  - set (rest := drop (Z.to_nat ns) bs).
    assert (Hr : zlen rest = zlen bs - ns) by (apply zlen_drop_le; lia).
    destruct (IH rest b1 W1) as (b2 & E2 & W2 & [? ?] & P2 & C2).
    { unfold zlen in Hr. lia. }
    { rewrite Hs1. fold ns. nia. }
    rewrite Hs1 in E2. exists b2. split; [exact E2|]. split; [done|].
    split; [split; congruence|]. split; [lia|]. intros Hend.
    rewrite C2.
    + rewrite Hcont by done. rewrite <-(assoc_L app). f_equal. apply take_drop.
    + rewrite Hpos, Hcont, zlen_app by done. lia.
Qed.
End Lifecycle.
