(* ===== verification/ByteArraySpec.v ===== *)
(** * What class ByteArray promises

    The refinement of the block chain to a plain byte buffer for whole
    sequences of calls, the buffer vectors, the file round trip, and the
    limits of the allocation arithmetic. *)

From S2P Require Import Prelude Codec Float32 ByteArray.

(** One call on a ByteArray, and what its caller sees of it. *)
Inductive op :=
| OWrite (bs : list byte)
| ORead (n : Z)
| OSeek (p : Z)
| OClear
| OToString
| OGetPosition
| OSize
| OGetReadSize
| OGetRemainSize.

Inductive obs :=
| Done
| Bytes (bs : list byte)
| Number (n : Z)
| Raised (e : exn).

(** The blocks together are one flat memory, of which [mem_size] bytes are the
    data; [mem_pos] is where the next byte is read or written. *)
Record memory := mkMemory { cells : list byte; mem_size : Z; mem_pos : Z }.
Definition memory_of (ba : ByteArray) : memory := mkMemory (flat ba) (m_data_size ba) (m_position ba).

Section Sequences.
Context `{Platform}.

Definition see {A} (f : A → obs) (o : outcome ByteArray A) : option (obs * ByteArray) :=
  match o with
  | Ret a ba => Some (f a, ba)
  | Throw e ba => Some (Raised e, ba)
  | Fault _ => None
  end.

(** The calls on the block chain; [None] is undefined behaviour. *)
Definition exec (o : op) (ba : ByteArray) : option (obs * ByteArray) :=
  match o with
  | OWrite bs => see (λ _, Done) (write bs ba)
  | ORead n => see Bytes (read n ba)
  | OSeek p => see (λ _, Done) (setPosition p ba)
  | OClear => Some (Done, clear ba)
  | OToString => see Bytes (toString ba)
  | OGetPosition => Some (Number (getPosition ba), ba)
  | OSize => Some (Number (size ba), ba)
  | OGetReadSize => Some (Number (getReadSize ba), ba)
  | OGetRemainSize => Some (Number (getRemainSize ba), ba)
  end.

(** The same calls on a flat memory that grows by blocks of [ns] bytes: a write
    makes room and extends the data, a seek behind the data extends it, one
    behind the memory and a read behind the data are refused. *)
Definition spec_exec (ns : Z) (o : op) (m : memory) : obs * memory :=
  let '(mkMemory cells size pos) := m in
  match o with
  | OWrite bs =>
      let pos' := pos + zlen bs in
      (Done, mkMemory (splice pos bs (with_room ns (zlen bs) pos cells)) (Z.max size pos') pos')
  | ORead n => if size - pos <? n then (Raised (read_out_of_range size pos), m)
               else (Bytes (slice pos n cells), mkMemory cells size (pos + n))
  | OSeek p => if zlen cells <? p then (Raised (pos_out_of_range size p), m)
               else (Done, mkMemory cells (Z.max size p) p)
  | OClear => (Done, mkMemory (take (Z.to_nat ns) cells) 0 0)
  | OToString => (Bytes (slice pos (size - pos) cells), m)
  | OGetPosition => (Number pos, m)
  | OSize => (Number size, m)
  | OGetReadSize => (Number (size - pos), m)
  | OGetRemainSize => (Number (zlen cells - pos), m)
  end.

(** Arguments of type size_t, and writes that a float counts exactly. *)
Definition op_ok (o : op) : Prop :=
  match o with
  | OWrite bs => zlen bs < 2 ^ 24
  | ORead n | OSeek n => urange 64 n
  | _ => True
  end.

Fixpoint exec_all (os : list op) (ba : ByteArray) : option (list obs * ByteArray) :=
  match os with
  | [] => Some ([], ba)
  | o :: os => '(x, ba1) ← exec o ba; '(xs, ba2) ← exec_all os ba1; Some (x :: xs, ba2)
  end.
Fixpoint spec_all (ns : Z) (os : list op) (m : memory) : list obs * memory :=
  match os with
  | [] => ([], m)
  | o :: os => let '(x, m1) := spec_exec ns o m in
               let '(xs, m2) := spec_all ns os m1 in (x :: xs, m2)
  end.

Lemma read_memory n ba : wf ba → 0 ≤ n →
  let '(x, m) := spec_exec (m_node_size ba) (ORead n) (memory_of ba) in
  ∃ ba', see Bytes (read n ba) = Some (x, ba') ∧ wf ba' ∧ memory_of ba' = m ∧ same_shape ba ba' ∧
         m_total_size ba' = m_total_size ba.
Proof.
  intros W Hn. pose proof (read_spec n ba W Hn) as R. unfold buf_read in R. rewrite zlen_content in R by done.
  simpl in *. destruct (m_data_size ba - m_position ba <? n) eqn:E.
  - exists ba. by rewrite R.
  - destruct R as (ba' & -> & W' & ? & Ab & Hn' & ?). exists ba'.
    pose proof (zlen_content _ W') as Hz. rewrite Ab in Hz. simpl in Hz. pose proof (zlen_content _ W) as Hz'.
    simpl in Hz'. rewrite Hz' in Hz. pose proof (wf_pos _ W). apply Z.ltb_ge in E.
    rewrite slice_take by lia. split; [done|]. split; [done|]. split; [|done].
    unfold memory_of, flat. rewrite Hn', Hz. f_equal. change (pos (abs ba') = m_position ba + n). by rewrite Ab.
Qed.
Lemma clear_memory ba : wf ba → flat (clear ba) = take (Z.to_nat (m_node_size ba)) (flat ba).
Proof.
  intros W. pose proof (wf_nonempty _ W). pose proof (wf_uniform _ W) as Hu. unfold flat. simpl.
  destruct (m_nodes ba) as [|b l]; [by unfold zlen in *|]. apply Forall_cons in Hu as [<- _].
  simpl. rewrite app_nil_r. unfold zlen. by rewrite Nat2Z.id, take_app_length.
Qed.

(** One call simulates the call on the flat memory. *)
Lemma exec_refines o ba : wf ba → op_ok o →
  m_total_size ba + 2 ^ 24 + m_node_size ba < 2 ^ 64 →
  let '(x, m) := spec_exec (m_node_size ba) o (memory_of ba) in
  ∃ ba', exec o ba = Some (x, ba') ∧ wf ba' ∧ memory_of ba' = m ∧ same_shape ba ba' ∧
         m_total_size ba' ≤ m_total_size ba + 2 ^ 24 + m_node_size ba.
Proof.
  intros W Hok Hb. pose proof (wf_node_size _ W). pose proof (wf_pos _ W). pose proof (wf_data _ W).
  destruct o as [bs|n|p| | | | | |]; cbn [exec op_ok] in Hok |- *.
  - destruct (write_flat bs ba W) as (ba' & E & ? & ? & _ & ? & Hf & Hs & Hp); [split; lia|].
    simpl. exists ba'. rewrite E. split_and!; try done; [|lia]. unfold memory_of. by rewrite Hf, Hs, Hp.
  - pose proof (read_memory n ba W (proj1 Hok)) as R. destruct (spec_exec _ _ _) as [x m].
    destruct R as (ba' & ? & ? & ? & ? & ?). exists ba'. split_and!; try done. lia.
  - simpl. rewrite setPosition_spec, zlen_flat by (done || apply Hok).
    destruct (m_total_size ba <? p) eqn:E; [exists ba; split_and!; try done; lia|].
    eexists. split; [done|]. split.
    { refine (proj1 (setPosition_wf p ba _ W (proj1 Hok) _)). rewrite setPosition_spec by (done || apply Hok).
      by rewrite E. }
    split_and!; try done. simpl. lia.
  - destruct (clear_spec ba W) as (? & ? & _ & ?). exists (clear ba). split_and!; try done; [|lia].
    unfold memory_of. by rewrite clear_memory.
  - simpl. exists ba. rewrite toString_spec by done. split_and!; try done; [|lia].
    simpl. do 3 f_equal. unfold slice. rewrite skipn_firstn_comm. f_equal. lia.
  - simpl. exists ba. split_and!; try done. lia.
  - simpl. exists ba. split_and!; try done. lia.
  - simpl. exists ba. rewrite getReadSize_wf by done. split_and!; try done. lia.
  - simpl. exists ba. rewrite getRemainSize_wf, zlen_flat by done. split_and!; try done. lia.
Qed.

Lemma exec_all_refines os ba : wf ba → Forall op_ok os →
  m_total_size ba + (2 ^ 24 + m_node_size ba) * zlen os < 2 ^ 64 →
  let '(xs, m) := spec_all (m_node_size ba) os (memory_of ba) in
  ∃ ba', exec_all os ba = Some (xs, ba') ∧ wf ba' ∧ memory_of ba' = m.
Proof.
  revert ba. induction os as [|o os IH]; intros ba W Hok Hb; [by exists ba|].
  assert (Hz : zlen (o :: os) = 1 + zlen os) by (unfold zlen; simpl; lia).
  rewrite Hz in Hb. pose proof (wf_node_size _ W). pose proof (zlen_nonneg os).
  apply Forall_cons in Hok as [Ho Hos]. cbn [spec_all exec_all].
  pose proof (exec_refines o ba W Ho ltac:(nia)) as R. destruct (spec_exec _ o _) as [x m1].
  destruct R as (ba1 & E1 & W1 & <- & [S1 _] & T1). specialize (IH ba1 W1 Hos). rewrite S1 in IH.
  destruct (spec_all _ os _) as [xs m2]. destruct IH as (ba2 & E2 & W2 & A2); [nia|].
  exists ba2. rewrite E1. cbn. rewrite E2. done.
Qed.
End Sequences.

(** Past the last block the loop follows a null pointer. *)
Lemma write_loop_overflow ns fuel buf p i node ba : 0 < ns →
  uniform ns (m_nodes ba) → m_nodes ba !! i = Some node → m_cur ba = Some i →
  0 ≤ p < ns → ns * zlen (m_nodes ba) < ns * Z.of_nat i + p + zlen buf →
  (length buf < fuel)%nat →
  write_loop fuel buf p (ns - p) ba = Fault NullDeref.
Proof.
  intros Hns. revert buf p i node ba. induction fuel as [|fuel IH]; [lia|].
  intros buf p i node ba Hu Hi Hc Hp Hlt Hf.
  assert (Hil : Z.of_nat i < zlen (m_nodes ba)) by (apply lookup_lt_Some in Hi; unfold zlen; lia).
  pose proof (uniform_lookup _ _ _ _ Hu Hi) as Hl. pose proof (zlen_nonneg buf).
  cbn [write_loop]. destruct (Z.eqb_spec (zlen buf) 0); [nia|].
  mrun. rewrite Hc, (deref_Some _ _ _ Hi).
  destruct (Z.leb_spec (zlen buf) (ns - p)); [nia|].
  rewrite memcpy_to_ok by (rewrite ?zlen_take_le; lia). mrun.
  set (nodes1 := <[i:=_]> (m_nodes ba)).
  assert (Hl1 : length nodes1 = length (m_nodes ba)) by apply length_insert.
  assert (Hu1 : uniform ns nodes1)
    by (apply uniform_insert; [done|]; rewrite zlen_splice; rewrite ?zlen_take_le; lia).
  unfold next_of. destruct (Nat.ltb_spec (S i) (length nodes1)); [|done].
  destruct (lookup_lt_is_Some_2 nodes1 (S i)) as [next Hnext]; [done|].
  rewrite (deref_Some _ _ _ Hnext), (uniform_lookup _ _ _ _ Hu1 Hnext).
  replace (write_loop fuel (drop (Z.to_nat (ns - p)) buf) 0 ns)
    with (write_loop fuel (drop (Z.to_nat (ns - p)) buf) 0 (ns - 0)) by (f_equal; lia).
  apply (IH _ _ (S i) next); try done.
  - cbn [set_chain m_nodes]. unfold zlen at 1. rewrite Hl1. fold (zlen (m_nodes ba)).
    rewrite zlen_drop_le by lia. lia.
  - rewrite length_drop. unfold zlen in *. lia.
Qed.

(** C1: Any sequence of [write], [read], [setPosition], [clear], [toString],
    [getPosition], [size], [getReadSize] and [getRemainSize] calls on a fresh
    ByteArray with blocks of less than 2^24 bytes shows its callers exactly what
    one flat memory with a data size and a position shows, which grows by whole
    blocks: what was written is where it was written, a seek behind the data
    extends them, one behind the memory and a read behind the data throw and
    change nothing. No call faults, and the representation invariant is kept.
    Each write has less than 2^24 bytes, which a float counts exactly (longer
    ones: [allocation_limit]), and there are less than 2^38 calls. *)
Theorem bytearray_refines_buffer `{Platform} ns os :
  0 < ns < 2 ^ 24 → zlen os < 2 ^ 38 → Forall op_ok os →
  let '(xs, m) := spec_all ns os (mkMemory (replicate (Z.to_nat ns) uninit) 0 0) in
  ∃ ba, exec_all os (ByteArray_new ns) = Some (xs, ba) ∧ wf ba ∧ memory_of ba = m.
Proof.
  intros Hns Hlen Hok. pose proof (zlen_nonneg os).
  assert (E : mkMemory (replicate (Z.to_nat ns) uninit) 0 0 = memory_of (ByteArray_new ns)).
  { unfold memory_of, flat. simpl. by rewrite app_nil_r. }
  rewrite E. apply (exec_all_refines os (ByteArray_new ns)); [by apply ByteArray_new_wf|done|].
  simpl. nia.
Qed.

Lemma bytearray_refines_buffer_witness :
  ∃ ba, exec_all (H := x86_64) [OWrite [Byte.x01; Byte.x02; Byte.x03]; OSeek 1; ORead 2; ORead 1; OSeek 5;
                                OSeek 4; OSize; OGetPosition; OWrite [Byte.x04]; OGetRemainSize; OSeek 2; OToString]
          (ByteArray_new (H := x86_64) 2) =
        Some ([Done; Done; Bytes [Byte.x02; Byte.x03]; Raised (read_out_of_range 3 3);
               Raised (pos_out_of_range 3 5); Done; Number 4; Number 4; Done; Number 1; Done;
               Bytes [Byte.x03; Byte.x00; Byte.x04]], ba) ∧ wf ba ∧
        memory_of ba = mkMemory [Byte.x01; Byte.x02; Byte.x03; Byte.x00; Byte.x04; Byte.x00] 5 2.
Proof.
  apply (bytearray_refines_buffer (H := x86_64) 2 [OWrite [Byte.x01; Byte.x02; Byte.x03]; OSeek 1; ORead 2;
    ORead 1; OSeek 5; OSeek 4; OSize; OGetPosition; OWrite [Byte.x04]; OGetRemainSize; OSeek 2; OToString]);
    [lia|done|]. repeat constructor; vm_compute; done.
Defined.

(** What [sendmsg] gathers from the vectors of [getReadBuffers] and
    [recvmsg] scatters into those of [getWriteBuffers] of another array
    arrives there as a write of the sender's next [n] unread bytes: [n] is the smaller of
    the length asked for and what is unread, neither side reads nor writes
    outside its blocks, and the sender is not changed. *)
Theorem buffers_transfer `{Platform} len src dst :
  wf src → wf dst → 0 < len → room dst len →
  ∃ out n ins dst', getReadBuffers len src = Ret (out, n) src ∧
    n = Z.min len (zlen (content (abs src)) - pos (abs src)) ∧
    getWriteBuffers len dst = Ret (ins, len) dst' ∧
    let bs := iov_gather (m_nodes src) out in
    bs = slice (pos (abs src)) n (content (abs src)) ∧
    ∃ dst2, setPosition (m_position dst' + zlen bs)
              (set_chain (iov_scatter bs ins (m_nodes dst')) (m_cur dst') (m_position dst') dst')
              = Ret tt dst2 ∧
            wf dst2 ∧ abs dst2 = buf_write bs (abs dst).
Proof.
  intros Ws Wd Hlen Hroom.
  destruct (getReadBuffers_spec len src Ws ltac:(lia)) as (out & n & E1 & Hn & _ & Hg).
  destruct (getWriteBuffers_spec len dst Wd Hlen Hroom) as (ins & dst' & E2 & _).
  exists out, n, ins, dst'. rewrite zlen_content by done. split_and!; try done.
  pose proof (wf_pos _ Ws). pose proof (zlen_content _ Ws).
  assert (zlen (iov_gather (m_nodes src) out) = n)
    by (rewrite Hg; apply zlen_slice; simpl in *; lia).
  destruct (receive_spec len (iov_gather (m_nodes src) out) dst ins dst' Wd Hlen Hroom ltac:(lia) E2)
    as (_ & _ & dst2 & E3 & W3 & _ & A3 & _).
  split; [done|]. by exists dst2.
Qed.

Lemma buffers_transfer_witness :
  ∃ out n ins dst',
    getReadBuffers 3 (ByteArray_new (H := x86_64) 2) = Ret (out, n) (ByteArray_new (H := x86_64) 2) ∧
    n = Z.min 3 (zlen (content (abs (ByteArray_new (H := x86_64) 2))) -
                 pos (abs (ByteArray_new (H := x86_64) 2))) ∧
    getWriteBuffers (H := x86_64) 3 (ByteArray_new (H := x86_64) 4) = Ret (ins, 3) dst' ∧
    let bs := iov_gather (m_nodes (ByteArray_new (H := x86_64) 2)) out in
    bs = slice (pos (abs (ByteArray_new (H := x86_64) 2))) n
           (content (abs (ByteArray_new (H := x86_64) 2))) ∧
    ∃ dst2, setPosition (m_position dst' + zlen bs)
              (set_chain (iov_scatter bs ins (m_nodes dst')) (m_cur dst') (m_position dst') dst')
              = Ret tt dst2 ∧
            wf dst2 ∧ abs dst2 = buf_write bs (abs (ByteArray_new (H := x86_64) 4)).
Proof.
  apply (buffers_transfer (H := x86_64)); [apply ByteArray_new_wf; lia|apply ByteArray_new_wf; lia|lia|].
  split; done.
Defined.

(** A file written by [writeToFile] from a block boundary (in
    particular from position 0) and loaded by [readFromFile] into a
    fresh array of any block size gives back the unread bytes; a file that
    cannot be opened raises on both sides and leaves the arrays alone. *)
Theorem file_roundtrip `{Platform} ba k ns :
  wf ba → m_position ba = m_node_size ba * Z.of_nat k →
  0 < ns < 2 ^ 24 → m_data_size ba < 2 ^ 38 →
  (∃ file ba', writeToFile true ba = Ret file ba ∧
     readFromFile (Some file) (ByteArray_new ns) = Ret tt ba' ∧ wf ba' ∧
     content (abs ba') = drop (Z.to_nat (pos (abs ba))) (content (abs ba))) ∧
  (∃ e, writeToFile false ba = Throw e ba) ∧
  (∃ e, readFromFile None ba = Throw e ba).
Proof.
  intros W Hk Hns Hd. split; [|by split; eexists].
  rewrite (writeToFile_spec ba k W Hk).
  set (file := drop (Z.to_nat (pos (abs ba))) (content (abs ba))).
  pose proof (wf_pos _ W). pose proof (zlen_content _ W).
  assert (Hf : zlen file = m_data_size ba - m_position ba)
    by (unfold file; rewrite zlen_drop_le; simpl in *; lia).
  destruct (load_loop_spec (S (length file)) ns file (ByteArray_new ns)) as (ba' & E & W' & _ & _ & C).
  { by apply ByteArray_new_wf. }
  { done. }
  { lia. }
  { simpl. nia. }
  exists file, ba'. split_and!; try done. by rewrite C.
Qed.

Lemma file_roundtrip_witness :
  let ba := ByteArray_new (H := x86_64) 2 in
  (∃ file ba', writeToFile true ba = Ret file ba ∧
     readFromFile (H := x86_64) (Some file) (ByteArray_new (H := x86_64) 3) = Ret tt ba' ∧ wf ba' ∧
     content (abs ba') = drop (Z.to_nat (pos (abs ba))) (content (abs ba))) ∧
  (∃ e, writeToFile false ba = Throw e ba) ∧
  (∃ e, readFromFile (H := x86_64) None ba = Throw e ba).
Proof.
  apply (file_roundtrip (H := x86_64) _ 0); [apply ByteArray_new_wf; lia|done|lia|done].
Defined.

Lemma fresh_4096_grown `{Platform} n : n = 2 ^ 24 + 1 + 4096 →
  addTotalSize n (ByteArray_new 4096) =
  Ret tt (append_nodes 4096 (ByteArray_new 4096)).
Proof. intros ->. reflexivity. Qed.

(** The block count of [addTotalSize], computed in single precision, is
    exact below 2^24 bytes and too small right above: a write of
    2^24 + 1 + 4096 bytes into a fresh array of 4096-byte blocks ends in a null pointer
    access. *)
Theorem allocation_limit `{Platform} :
  (∀ n ns, 0 < n < 2 ^ 24 → 0 < ns < 2 ^ 24 → new_node_count n ns = (n + ns - 1) / ns) ∧
  new_node_count (2 ^ 24 + 1) 4096 * 4096 < 2 ^ 24 + 1 ∧
  (∀ bs, zlen bs = 2 ^ 24 + 1 + 4096 → write bs (ByteArray_new 4096) = Fault NullDeref).
Proof.
  split; [intros; by apply f32_ceil_div_exact|]. split; [by vm_compute|].
  intros bs Hbs. unfold write. destruct (Z.eqb_spec (zlen bs) 0); [lia|].
  mstep (fresh_4096_grown (zlen bs) Hbs).
  rewrite append_nodes_spec by (simpl; lia). mrun.
  cbn [ByteArray_new m_nodes m_cur m_node_size m_position].
  destruct (Z.eqb_spec 4096 0); [lia|]. rewrite Z.mod_0_l by lia.
  assert (Hn : zlen (new_node 4096) = 4096) by (apply zlen_new_node; lia).
  rewrite (deref_Some _ 0 (new_node 4096)) by done. rewrite Hn.
  erewrite bind_Fault; [done|]. rewrite wrapu_small by (unfold urange; lia).
  apply (write_loop_overflow 4096 _ _ _ 0 (new_node 4096)); try done; try lia.
  - apply Forall_app_2; [by apply Forall_singleton|]. apply Forall_replicate. done.
  - cbn [m_nodes]. unfold zlen at 1. rewrite length_app, length_replicate. simpl. lia.
Qed.
