(* ===== verification/ByteArrayIO.v ===== *)
(** * Typed reads and writes of class ByteArray (util/serializer.cpp)

    The [writeF*]/[readF*] functions for fixed-width integers, the varint
    pairs, the length-prefixed strings and the floating point pairs, over
    the raw operations of [ByteArray]. The shared law is: what one function
    writes, its counterpart reads back ([Codec]). *)

From S2P Require Import Prelude Codec ByteArray.

Section Typed.
Context `{Platform}.

(** [(m_ba_endian == LON_ENDIAN) ? data : util::byteswap(data)] *)
Definition host_order (t : ity) (ba : ByteArray) (data : Z) : Z :=
  if bool_decide (m_ba_endian ba = LON_ENDIAN) then data else byteswap t data.

Definition write_fixed (t : ity) (data : Z) : M ByteArray unit :=
  ba <- mget;; write (to_mem t (host_order t ba data)).
Definition read_fixed (t : ity) : M ByteArray Z :=
  buf <- read (Z.of_nat (ity_size t));; ba <- mget;;
  mreturn (host_order t ba (of_mem t buf)).

Definition writeFInt8 (data : Z) : M ByteArray unit := write (to_mem int8_t data).
Definition writeFUInt8 (data : Z) : M ByteArray unit := write (to_mem uint8_t data).
Definition writeFInt16 (data : Z) : M ByteArray unit := write_fixed int16_t data.
Definition writeFUInt16 (data : Z) : M ByteArray unit := write_fixed uint16_t data.
Definition writeFInt32 (data : Z) : M ByteArray unit := write_fixed int32_t data.
Definition writeFUInt32 (data : Z) : M ByteArray unit := write_fixed uint32_t data.
Definition writeFInt64 (data : Z) : M ByteArray unit := write_fixed int64_t data.
Definition writeFUInt64 (data : Z) : M ByteArray unit := write_fixed uint64_t data.

Definition readFInt8 : M ByteArray Z := buf <- read 1;; mreturn (of_mem int8_t buf).
Definition readFUInt8 : M ByteArray Z := buf <- read 1;; mreturn (of_mem uint8_t buf).
Definition readFInt16 : M ByteArray Z := read_fixed int16_t.
Definition readFUInt16 : M ByteArray Z := read_fixed uint16_t.
Definition readFInt32 : M ByteArray Z := read_fixed int32_t.
Definition readFUInt32 : M ByteArray Z := read_fixed uint32_t.
Definition readFInt64 : M ByteArray Z := read_fixed int64_t.
Definition readFUInt64 : M ByteArray Z := read_fixed uint64_t.

(** [uint8_t len = encodeN(buf, data); write(buf, len);] *)
Definition write_varint (enc : option (Z * list byte)) : M ByteArray unit :=
  match enc with
  | None => mfault OutOfFuel
  | Some (ret, buf) => write (take (Z.to_nat (u8 ret)) buf)
  end.
Definition writeUInt32 (data : Z) : M ByteArray unit :=
  write_varint (Varint.encode32 true data).
Definition writeInt32 (data : Z) : M ByteArray unit := writeUInt32 (ZigZag.encode32 data).
Definition writeUInt64 (data : Z) : M ByteArray unit :=
  write_varint (Varint.encode64 true data).
Definition writeInt64 (data : Z) : M ByteArray unit := writeUInt64 (ZigZag.encode64 data).

(** [for (uint8_t cnt = 0; cnt < w; cnt += 7)] of the two varint reads;
    [w] is the width of the result. *)
Fixpoint varint_loop (w : Z) (fuel : nat) (cnt data : Z) : M ByteArray Z :=
  match fuel with
  | O => mfault OutOfFuel
  | S fuel =>
      if cnt <? w then
        tmp <- readFUInt8;;
        if tmp <? 128
        then mreturn (Z.lor data (wrapu w (Z.shiftl tmp cnt)))
        else varint_loop w fuel (u8 (cnt + 7))
               (Z.lor data (wrapu w (Z.shiftl (Z.land tmp 127) cnt)))
      else mreturn data
  end.
Definition readUInt32 : M ByteArray Z := varint_loop 32 6 0 0.
Definition readInt32 : M ByteArray Z := u <- readUInt32;; mreturn (ZigZag.decode32 u).
Definition readUInt64 : M ByteArray Z := varint_loop 64 11 0 0.
Definition readInt64 : M ByteArray Z := u <- readUInt64;; mreturn (ZigZag.decode64 u).

(** A [float] or [double] is its bit pattern: [mb] mantissa and [eb]
    exponent bits. The conversion to an integer drops the fraction. *)
Definition float_trunc (mb eb bits : Z) : option Z :=
  let ex := Z.shiftr bits mb mod 2 ^ eb in
  let m := bits mod 2 ^ mb in
  if ex =? 2 ^ eb - 1 then None else
  let sig := if ex =? 0 then m else m + 2 ^ mb in
  let e := (if ex =? 0 then 1 else ex) - (2 ^ (eb - 1) - 1) - mb in
  let t := if 0 <=? e then sig * 2 ^ e else sig / 2 ^ (- e) in
  Some (if Z.testbit bits (mb + eb) then - t else t).

(** [writeFUInt32(data)] with a floating point [data]: the argument is
    converted by value; the copy in [tmp] is not used. *)
Definition writeFloat (bits : Z) : M ByteArray unit :=
  match float_trunc 23 8 bits with
  | Some v => if decide (urange 32 v) then writeFUInt32 v else mfault BadConversion
  | None => mfault BadConversion
  end.
Definition writeDouble (bits : Z) : M ByteArray unit :=
  match float_trunc 52 11 bits with
  | Some v => if decide (urange 64 v) then writeFUInt64 v else mfault BadConversion
  | None => mfault BadConversion
  end.
Definition readFloat : M ByteArray Z := readFUInt32.
Definition readDouble : M ByteArray Z := readFUInt64.

Definition writeStringFInt16 (data : list byte) : M ByteArray unit :=
  writeFUInt16 (u16 (zlen data));; write data.
Definition writeStringFInt32 (data : list byte) : M ByteArray unit :=
  writeFUInt32 (u32 (zlen data));; write data.
Definition writeStringFInt64 (data : list byte) : M ByteArray unit :=
  writeFUInt64 (u64 (zlen data));; write data.
Definition writeStringVInt (data : list byte) : M ByteArray unit :=
  writeUInt64 (u64 (zlen data));; write data.
Definition writeString (data : list byte) : M ByteArray unit := write data.

(** [res.resize(len); read(&res[0], len)] *)
Definition read_string (len : Z) : M ByteArray (list byte) :=
  if string_max_size <? len then mthrow (length_error "basic_string::resize")
  else read len.
Definition readStringFInt16 : M ByteArray (list byte) := len <- readFUInt16;; read_string len.
Definition readStringFInt32 : M ByteArray (list byte) := len <- readFUInt32;; read_string len.
Definition readStringFInt64 : M ByteArray (list byte) := len <- readFUInt64;; read_string len.
Definition readStringVInt : M ByteArray (list byte) := len <- readUInt64;; read_string len.
End Typed.

(** ** Writing and reading as concatenation and consumption *)

Definition unread (ba : ByteArray) : list byte :=
  drop (Z.to_nat (pos (abs ba))) (content (abs ba)).

Section Laws.
Context `{Platform}.

(** [put] writes exactly [bs], growing by at most [bs] and [k] blocks. *)
Definition emits (e : endian) (k : Z) (put : M ByteArray unit) (bs : list byte) : Prop :=
  ∀ ba, wf ba → m_ba_endian ba = e → zlen bs < 2 ^ 24 →
    m_total_size ba + zlen bs + k * m_node_size ba < 2 ^ 64 →
    ∃ ba', put ba = Ret tt ba' ∧ wf ba' ∧ same_shape ba ba' ∧
      abs ba' = buf_write bs (abs ba) ∧
      m_total_size ba' ≤ m_total_size ba + zlen bs + k * m_node_size ba.

(** [get] returns [v] when the unread bytes start with [bs], and consumes them. *)
Definition consumes {A} (e : endian) (get : M ByteArray A) (bs : list byte) (v : A) : Prop :=
  ∀ ba rest, wf ba → m_ba_endian ba = e → unread ba = bs ++ rest →
    ∃ ba', get ba = Ret v ba' ∧ wf ba' ∧ same_shape ba ba' ∧
      unread ba' = rest ∧ content (abs ba') = content (abs ba) ∧
      pos (abs ba') = pos (abs ba) + zlen bs.

Lemma emits_write e bs : emits e 1 (write bs) bs.
Proof.
  intros ba W _ H1 H2. pose proof (wf_node_size _ W).
  destruct (write_spec bs ba W) as (ba' & ? & ? & ? & ? & ?); [split; lia|].
  exists ba'. split_and!; try done. lia.
Qed.

Lemma wf_abs ba : wf ba → 0 ≤ pos (abs ba) ≤ zlen (content (abs ba)).
Proof. intros W. rewrite zlen_content by done. apply (wf_pos _ W). Qed.

Lemma buf_write_write b1 b2 b : 0 ≤ pos b ≤ zlen (content b) →
  buf_write b2 (buf_write b1 b) = buf_write (b1 ++ b2) b.
Proof.
  intros Hp. unfold buf_write. simpl. rewrite splice_splice by done.
  rewrite zlen_app. f_equal. lia.
Qed.

Lemma unread_write bs ba ba' : wf ba → abs ba' = buf_write bs (abs ba) → unread ba' =
  drop (Z.to_nat (zlen bs)) (unread ba).
Proof.
  intros W E. pose proof (wf_abs ba W). unfold unread. rewrite E. unfold buf_write, splice.
  cbn [pos content]. rewrite drop_drop. rewrite (assoc_L app).
  rewrite drop_app_ge by (rewrite length_app, length_take; unfold zlen in *; lia).
  rewrite drop_drop. f_equal. rewrite length_app, length_take. unfold zlen in *. lia.
Qed.

Lemma zlen_unread ba : wf ba → zlen (unread ba) = zlen (content (abs ba)) - pos (abs ba).
Proof. intros W. pose proof (wf_abs ba W). by apply zlen_drop_le. Qed.

Lemma consumes_read e bs : consumes e (read (zlen bs)) bs bs.
Proof.
  intros ba rest W _ E. pose proof (wf_abs ba W) as Hp.
  pose proof (read_spec (zlen bs) ba W (zlen_nonneg bs)) as R. revert R. unfold buf_read.
  assert (Hz : zlen (content (abs ba)) - pos (abs ba) = zlen bs + zlen rest)
    by (by rewrite <-zlen_unread, E, zlen_app).
  rewrite Hz. pose proof (zlen_nonneg rest).
  destruct (Z.ltb_spec (zlen bs + zlen rest) (zlen bs)); [lia|].
  assert (Hs : slice (pos (abs ba)) (zlen bs) (content (abs ba)) = bs).
  { unfold slice. fold (unread ba). rewrite E. unfold zlen. rewrite Nat2Z.id.
    apply take_app_length. }
  rewrite Hs. intros (ba' & R & W' & S' & A' & _). exists ba'. split_and!; try done.
  - unfold unread. rewrite A'. cbn [pos content].
    assert (E' : drop (Z.to_nat (zlen bs)) (unread ba) = rest)
      by (rewrite E; unfold zlen; rewrite Nat2Z.id; apply drop_app_length).
    rewrite <-E'. unfold unread at 1. rewrite drop_drop. f_equal. unfold zlen. lia.
  - by rewrite A'.
  - by rewrite A'.
Qed.

Lemma consumes_bind {A B} e (m : M ByteArray A) (k : A → M ByteArray B) b1 b2 a v :
  consumes e m b1 a → consumes e (k a) b2 v → consumes e (x <- m;; k x) (b1 ++ b2) v.
Proof.
  intros Hm Hk ba rest W He E. rewrite <-(assoc_L app) in E.
  destruct (Hm ba _ W He E) as (ba1 & R1 & W1 & [S1 S1'] & U1 & C1 & P1).
  destruct (Hk ba1 _ W1 ltac:(congruence) U1) as (ba2 & R2 & W2 & [S2 S2'] & U2 & C2 & P2).
  exists ba2. mstep R1. split_and!; try done; try congruence.
  - split; congruence.
  - rewrite zlen_app. lia.
Qed.

Lemma consumes_ret {A} e (v : A) : consumes e (mreturn v) [] v.
Proof. intros ba rest W _ E. exists ba. split_and!; try done. unfold zlen. simpl. lia. Qed.

Lemma consumes_map {A B} e (m : M ByteArray A) (f : A → B) bs a :
  consumes e m bs a → consumes e (x <- m;; mreturn (f x)) bs (f a).
Proof.
  intros Hm. rewrite <-(app_nil_r bs). eapply consumes_bind; [done|apply consumes_ret].
Qed.

(** *** Fixed-width integers *)

(** The bytes on the wire: the buffer's byte order, whatever the host's. *)
Definition wire (e : endian) (t : ity) (v : Z) : list byte :=
  match e with
  | LON_LITTLE_ENDIAN => le_split (ity_size t) v
  | LON_BIG_ENDIAN => rev (le_split (ity_size t) v)
  end.

Lemma zlen_wire e t v : zlen (wire e t v) = Z.of_nat (ity_size t).
Proof. unfold zlen, wire. destruct e; rewrite ?length_rev, length_le_split; done. Qed.

Lemma to_mem_host_order t ba v : (0 < ity_size t)%nat →
  to_mem t (host_order t ba v) = wire (m_ba_endian ba) t v.
Proof.
  intros Hs. unfold host_order, to_mem, wire. case_bool_decide as Heq.
  - by rewrite Heq.
  - rewrite le_split_byteswap by done.
    destruct (m_ba_endian ba), LON_ENDIAN; try done. by rewrite rev_involutive.
Qed.

Lemma host_order_of_mem t ba v : (0 < ity_size t)%nat →
  host_order t ba (of_mem t (wire (m_ba_endian ba) t v)) = ity_conv t v.
Proof.
  intros Hs. rewrite <-(to_mem_host_order t ba v) by done. rewrite of_to_mem by done.
  unfold host_order. case_bool_decide; [done|].
  rewrite byteswap_conv by done. by apply byteswap_involutive_conv.
Qed.

Lemma emits_fixed e t v : (0 < ity_size t)%nat → emits e 1 (write_fixed t v) (wire e t v).
Proof.
  intros Hs ba W He H1 H2. unfold write_fixed. mrun.
  rewrite to_mem_host_order, He by done. exact (emits_write e _ ba W He H1 H2).
Qed.

Lemma consumes_fixed e t v : (0 < ity_size t)%nat →
  consumes e (read_fixed t) (wire e t v) (ity_conv t v).
Proof.
  intros Hs ba rest W He E. unfold read_fixed. rewrite <-(zlen_wire e t v).
  destruct (consumes_read e _ ba rest W He E) as (ba' & R & W' & [S1 S2] & ?).
  mstep R. mrun. exists ba'. split; [|done]. mend. f_equal.
  rewrite <-He, <-S2. by apply host_order_of_mem.
Qed.

(** One byte has no byte order. *)
Lemma to_mem_8 t v e : ity_size t = 1%nat → to_mem t v = wire e t v.
Proof. intros Hs. unfold to_mem, wire. rewrite Hs. simpl. by destruct LON_ENDIAN, e. Qed.

Lemma emits_8 e t v : ity_size t = 1%nat → emits e 1 (write (to_mem t v)) (wire e t v).
Proof. intros Hs. rewrite (to_mem_8 t v e Hs). apply emits_write. Qed.

Lemma consumes_8 e t v : ity_size t = 1%nat →
  consumes e (buf <- read 1;; mreturn (of_mem t buf)) (wire e t v) (ity_conv t v).
Proof.
  intros Hs. replace 1 with (zlen (wire e t v)) by (rewrite zlen_wire, Hs; done).
  rewrite <-(of_to_mem t v) by lia. rewrite (to_mem_8 t v e Hs).
  apply consumes_map, consumes_read.
Qed.

(** *** Varints *)

Lemma consumes_byte e b : consumes e readFUInt8 [b] (byte.unsigned b).
Proof.
  replace (byte.unsigned b) with (ity_conv uint8_t (byte.unsigned b)).
  - replace [b] with (wire e uint8_t (byte.unsigned b)); [by apply consumes_8|].
    unfold wire. cbn [ity_size uint8_t].
    change (le_split 1 (byte.unsigned b)) with [byte.of_Z (byte.unsigned b)].
    rewrite byte.of_Z_unsigned. by destruct e.
  - apply ity_conv_small; [simpl; lia|]. apply byte.unsigned_range.
Qed.

Lemma consumes_varint_loop e w bs fuel cnt data :
  w < 256 - 7 → Varint.well_terminated bs → 0 ≤ cnt → 0 ≤ data < 2 ^ cnt →
  data + 2 ^ cnt * Varint.value bs < 2 ^ w → cnt + 7 * (zlen bs - 1) < w →
  (length bs ≤ fuel)%nat →
  consumes e (varint_loop w fuel cnt data) bs (data + 2 ^ cnt * Varint.value bs).
Proof.
  intros Hw. revert fuel cnt data. induction bs as [|b bs IH]; [done|].
  intros fuel cnt data Ht Hc Hd Hv Hlen Hf. destruct fuel as [|fuel]; [simpl in Hf; lia|].
  cbn [varint_loop]. pose proof (zlen_nonneg bs).
  assert (Hz : zlen (b :: bs) = 1 + zlen bs) by (unfold zlen; simpl; lia). rewrite Hz in Hlen.
  destruct (Z.ltb_spec cnt w); [|lia].
  pose proof (byte.unsigned_range b) as Hb. set (x := byte.unsigned b) in *.
  cbn [Varint.value] in Hv |- *. fold x in Hv |- *. rewrite Varint.land_127 in Hv |- *.
  pose proof (Z.mod_pos_bound x 128 ltac:(lia)) as Hm.
  assert (Hvn : 0 ≤ Varint.value bs).
  { clear. induction bs as [|c bs IH]; simpl; [lia|]. rewrite Varint.land_127.
    pose proof (Z.mod_pos_bound (byte.unsigned c) 128). lia. }
  assert (Hp : 0 < 2 ^ cnt) by (apply Z.pow_pos_nonneg; lia).
  assert (Hgrp : wrapu w (Z.shiftl (x mod 128) cnt) = Z.shiftl (x mod 128) cnt).
  { apply wrapu_small; [lia|]. rewrite Z.shiftl_mul_pow2 by lia. unfold urange. nia. }
  change (b :: bs) with ([b] ++ bs).
  eapply consumes_bind; [apply consumes_byte|]. fold x.
  destruct bs as [|b' bs'].
  - cbn [Varint.well_terminated] in Ht. fold x in Ht.
    destruct (Z.ltb_spec x 128); [|lia]. rewrite <-(Z.mod_small x 128) at 1 by lia.
    rewrite Hgrp, lor_shift_add by done. cbn [Varint.value].
    replace (data + 2 ^ cnt * (x mod 128 + 2 ^ 7 * 0)) with (data + 2 ^ cnt * (x mod 128)) by lia.
    apply consumes_ret.
  - destruct Ht as [Hx Ht]. fold x in Hx. destruct (Z.ltb_spec x 128); [lia|].
    assert (Hz' : 1 ≤ zlen (b' :: bs')) by (unfold zlen; simpl; lia).
    rewrite Varint.land_127, Hgrp, lor_shift_add by done.
    rewrite wrapu_small by (unfold urange; lia).
    assert (E7 : 2 ^ (cnt + 7) = 2 ^ cnt * 128) by (rewrite Z.pow_add_r by lia; done).
    replace (data + 2 ^ cnt * (x mod 128 + 2 ^ 7 * Varint.value (b' :: bs')))
      with (data + 2 ^ cnt * (x mod 128) + 2 ^ (cnt + 7) * Varint.value (b' :: bs'))
      by (rewrite E7; lia).
    apply IH; try done; try lia; rewrite ?E7; try nia. simpl in Hf |- *. lia.
Qed.

Lemma varint_bytes (fuel : nat) n : (0 < fuel ≤ 10)%nat → 0 ≤ n < 2 ^ (7 * Z.of_nat fuel) →
  ∃ bs, Varint.encode fuel true n = Some (zlen bs, bs) ∧ (0 < length bs ≤ fuel)%nat ∧
        Varint.value bs = n ∧ Varint.well_terminated bs ∧
        ∀ e, emits e 1 (write_varint (Varint.encode fuel true n)) bs.
Proof.
  intros Hf Hn. destruct (Varint.varint_encode_spec fuel n Hn Hf) as (bs & E & Hl & Hv & Ht).
  exists bs. split_and!; try done; try lia. intros e. rewrite E. simpl.
  rewrite wrapu_small by (unfold urange, zlen; lia).
  unfold zlen. rewrite Nat2Z.id, firstn_all. apply emits_write.
Qed.
End Laws.

Section Codecs.
Context `{Platform}.

Lemma emits_bind e k1 k2 p1 p2 b1 b2 : 0 ≤ k1 → 0 ≤ k2 →
  emits e k1 p1 b1 → emits e k2 p2 b2 → emits e (k1 + k2) (p1;; p2) (b1 ++ b2).
Proof.
  intros Hk1 Hk2 P1 P2 ba W He H1 H2. pose proof (wf_node_size _ W).
  rewrite zlen_app in H1, H2. pose proof (zlen_nonneg b1). pose proof (zlen_nonneg b2).
  destruct (P1 ba W He ltac:(lia) ltac:(nia)) as (ba1 & R1 & W1 & [S1 S1'] & A1 & T1).
  destruct (P2 ba1 W1 ltac:(congruence) ltac:(lia) ltac:(rewrite S1; nia))
    as (ba2 & R2 & W2 & [S2 S2'] & A2 & T2).
  exists ba2. mstep R1. split_and!; try done.
  - split; congruence.
  - rewrite A2, A1. apply buf_write_write, wf_abs, W.
  - rewrite zlen_app. rewrite S1 in T2. lia.
Qed.

Lemma emits_weaken e k k' put bs : k ≤ k' → emits e k put bs → emits e k' put bs.
Proof.
  intros Hk P ba W He H1 H2. pose proof (wf_node_size _ W).
  destruct (P ba W He H1 ltac:(nia)) as (ba' & ? & ? & ? & ? & ?).
  exists ba'. split_and!; try done. nia.
Qed.

(** A write function and its read function agree on [bs] for the value
    written as [put] and read as [v]; at most [m] bytes in [k] writes. *)
Definition codec {A} (k m : Z) (put : M ByteArray unit) (get : M ByteArray A) (v : A) : Prop :=
  ∀ e, ∃ bs, zlen bs ≤ m ∧ emits e k put bs ∧ consumes e get bs v.

Lemma codec_fixed t v : (0 < ity_size t)%nat → ity_range t v →
  codec 1 (Z.of_nat (ity_size t)) (write_fixed t v) (read_fixed t) v.
Proof.
  intros Hs Hr e. exists (wire e t v). split; [by rewrite zlen_wire|]. split.
  - by apply emits_fixed.
  - rewrite <-(ity_conv_small t v) at 2 by done. by apply consumes_fixed.
Qed.

Lemma codec_8 t v : ity_size t = 1%nat → ity_range t v →
  codec 1 1 (write (to_mem t v)) (buf <- read 1;; mreturn (of_mem t buf)) v.
Proof.
  intros Hs Hr e. exists (wire e t v). split; [by rewrite zlen_wire, Hs|]. split.
  - by apply emits_8.
  - rewrite <-(ity_conv_small t v) at 2 by (done || lia). by apply consumes_8.
Qed.

Lemma codec_varint (fuel : nat) w n : w < 256 - 7 → (0 < fuel ≤ 10)%nat →
  w ≤ 7 * Z.of_nat fuel → 7 * (Z.of_nat fuel - 1) < w → urange w n →
  codec 1 10 (write_varint (Varint.encode fuel true n)) (varint_loop w (S fuel) 0 0) n.
Proof.
  intros Hw Hf Hle Hlt Hn e.
  assert (2 ^ w ≤ 2 ^ (7 * Z.of_nat fuel)) by (apply Z.pow_le_mono_r; lia).
  unfold urange in Hn.
  destruct (varint_bytes fuel n Hf ltac:(lia)) as (bs & _ & Hl & Hv & Ht & P).
  exists bs. split; [unfold zlen; lia|]. split; [apply P|].
  replace n with (0 + 2 ^ 0 * Varint.value bs) by (simpl; lia).
  apply consumes_varint_loop; try done; try (simpl; lia); try (unfold zlen; lia).
Qed.

Lemma codec_map {A B} k m put (get : M ByteArray A) (f : A → B) v :
  codec k m put get v → codec k m put (x <- get;; mreturn (f x)) (f v).
Proof.
  intros C e. destruct (C e) as (bs & ? & ? & ?). exists bs. split; [done|].
  split; [done|]. by apply consumes_map.
Qed.

Lemma codec_weaken {A} k k' m m' put (get : M ByteArray A) v : k ≤ k' → m ≤ m' →
  codec k m put get v → codec k' m' put get v.
Proof.
  intros Hk Hm C e. destruct (C e) as (bs & ? & ? & ?). exists bs.
  split; [lia|]. split; [by eapply emits_weaken|done].
Qed.

(** A length that fits, then the bytes. *)
Lemma codec_string m put get (s : list byte) : 0 ≤ m ≤ 10 →
  codec 1 m put get (zlen s) → zlen s ≤ string_max_size →
  codec 2 (10 + zlen s) (put;; write s) (len <- get;; read_string len) s.
Proof.
  intros Hm C Hs e. destruct (C e) as (bs & Hb & P & G). exists (bs ++ s). split_and!.
  - rewrite zlen_app. lia.
  - apply (emits_bind e 1 1); [lia|lia|done|apply emits_write].
  - eapply consumes_bind; [done|]. unfold read_string.
    destruct (Z.ltb_spec string_max_size (zlen s)); [lia|]. apply consumes_read.
Qed.
End Codecs.

(** ** Sequences of heterogeneous values *)

(** One call of a write function with its argument. *)
Inductive item :=
| FInt8 (v : Z) | FUInt8 (v : Z) | FInt16 (v : Z) | FUInt16 (v : Z)
| FInt32 (v : Z) | FUInt32 (v : Z) | FInt64 (v : Z) | FUInt64 (v : Z)
| VInt32 (v : Z) | VUInt32 (v : Z) | VInt64 (v : Z) | VUInt64 (v : Z)
| SFInt16 (s : list byte) | SFInt32 (s : list byte) | SFInt64 (s : list byte)
| SVInt (s : list byte).

Section Items.
Context `{Platform}.

Definition put_item (x : item) : M ByteArray unit :=
  match x with
  | FInt8 v => writeFInt8 v | FUInt8 v => writeFUInt8 v
  | FInt16 v => writeFInt16 v | FUInt16 v => writeFUInt16 v
  | FInt32 v => writeFInt32 v | FUInt32 v => writeFUInt32 v
  | FInt64 v => writeFInt64 v | FUInt64 v => writeFUInt64 v
  | VInt32 v => writeInt32 v | VUInt32 v => writeUInt32 v
  | VInt64 v => writeInt64 v | VUInt64 v => writeUInt64 v
  | SFInt16 s => writeStringFInt16 s | SFInt32 s => writeStringFInt32 s
  | SFInt64 s => writeStringFInt64 s | SVInt s => writeStringVInt s
  end.

(** The read function that belongs to the write of [x]. *)
Definition get_item (x : item) : M ByteArray item :=
  match x with
  | FInt8 _ => v <- readFInt8;; mreturn (FInt8 v)
  | FUInt8 _ => v <- readFUInt8;; mreturn (FUInt8 v)
  | FInt16 _ => v <- readFInt16;; mreturn (FInt16 v)
  | FUInt16 _ => v <- readFUInt16;; mreturn (FUInt16 v)
  | FInt32 _ => v <- readFInt32;; mreturn (FInt32 v)
  | FUInt32 _ => v <- readFUInt32;; mreturn (FUInt32 v)
  | FInt64 _ => v <- readFInt64;; mreturn (FInt64 v)
  | FUInt64 _ => v <- readFUInt64;; mreturn (FUInt64 v)
  | VInt32 _ => v <- readInt32;; mreturn (VInt32 v)
  | VUInt32 _ => v <- readUInt32;; mreturn (VUInt32 v)
  | VInt64 _ => v <- readInt64;; mreturn (VInt64 v)
  | VUInt64 _ => v <- readUInt64;; mreturn (VUInt64 v)
  | SFInt16 _ => s <- readStringFInt16;; mreturn (SFInt16 s)
  | SFInt32 _ => s <- readStringFInt32;; mreturn (SFInt32 s)
  | SFInt64 _ => s <- readStringFInt64;; mreturn (SFInt64 s)
  | SVInt _ => s <- readStringVInt;; mreturn (SVInt s)
  end.

Definition string_fits (s : list byte) : Prop := zlen s < 2 ^ 24 - 10 ∧ zlen s ≤ string_max_size.

(** The argument is in the range of its C++ type. *)
Definition item_ok (x : item) : Prop :=
  match x with
  | FInt8 v => srange 8 v | FUInt8 v => urange 8 v
  | FInt16 v => srange 16 v | FUInt16 v => urange 16 v
  | FInt32 v | VInt32 v => srange 32 v | FUInt32 v | VUInt32 v => urange 32 v
  | FInt64 v | VInt64 v => srange 64 v | FUInt64 v | VUInt64 v => urange 64 v
  | SFInt16 s => string_fits s ∧ zlen s < 2 ^ 16
  | SFInt32 s | SFInt64 s | SVInt s => string_fits s
  end.

Fixpoint put_items (xs : list item) : M ByteArray unit :=
  match xs with [] => mreturn tt | x :: xs => put_item x;; put_items xs end.
Fixpoint get_items (xs : list item) : M ByteArray (list item) :=
  match xs with
  | [] => mreturn []
  | x :: xs => y <- get_item x;; ys <- get_items xs;; mreturn (y :: ys)
  end.
End Items.

Section ItemLaws.
Context `{Platform}.

Definition item_size (x : item) : Z :=
  match x with
  | SFInt16 s | SFInt32 s | SFInt64 s | SVInt s => 10 + zlen s
  | _ => 10
  end.

Lemma codec_VUInt32 v : urange 32 v → codec 1 10 (writeUInt32 v) readUInt32 v.
Proof. intros. apply codec_varint; done || lia. Qed.
Lemma codec_VUInt64 v : urange 64 v → codec 1 10 (writeUInt64 v) readUInt64 v.
Proof. intros. apply codec_varint; done || lia. Qed.

Lemma codec_VInt32 v : srange 32 v → codec 1 10 (writeInt32 v) readInt32 v.
Proof.
  intros. rewrite <-(ZigZag.decode_encode32 v) at 2 by done.
  apply codec_map, codec_VUInt32, ZigZag.encode32_range. done.
Qed.
Lemma codec_VInt64 v : srange 64 v → codec 1 10 (writeInt64 v) readInt64 v.
Proof.
  intros. rewrite <-(ZigZag.decode_encode64 v) at 2 by done.
  apply codec_map, codec_VUInt64, ZigZag.encode64_range. done.
Qed.

(** A length prefix kept in [w] bits. *)
Lemma codec_len w m put get (s : list byte) : 0 < w → 0 ≤ m ≤ 10 → zlen s < 2 ^ w →
  string_fits s → (∀ v, urange w v → codec 1 m (put v) get v) →
  codec 2 (10 + zlen s) (put (wrapu w (zlen s));; write s) (len <- get;; read_string len) s.
Proof.
  intros Hw Hm Hl [_ Hs] C. assert (Hr : urange w (zlen s)) by (split; [apply zlen_nonneg|done]).
  rewrite wrapu_small by done. eapply codec_string; [done|by apply C|done].
Qed.

Lemma codec_int {A} m put (get : M ByteArray A) v : m ≤ 10 → codec 1 m put get v → codec 2 10 put get v.
Proof. intros. eapply codec_weaken; [| |done]; lia. Qed.

Lemma item_codec x : item_ok x → codec 2 (item_size x) (put_item x) (get_item x) x.
Proof.
  assert (Hf : ∀ s w, 24 ≤ w → string_fits s → zlen s < 2 ^ w).
  { intros s w Hw [Hs _]. assert (2 ^ 24 ≤ 2 ^ w) by (apply Z.pow_le_mono_r; lia). lia. }
  destruct x as [v|v|v|v|v|v|v|v|v|v|v|v|s|s|s|s]; simpl; intros Hok; apply codec_map.
  1-2: eapply codec_int; [|by apply codec_8]; lia.
  1-6: eapply codec_int; [|by apply codec_fixed; [simpl; lia|]]; simpl; lia.
  - eapply codec_int; [|by apply codec_VInt32]; lia.
  - eapply codec_int; [|by apply codec_VUInt32]; lia.
  - eapply codec_int; [|by apply codec_VInt64]; lia.
  - eapply codec_int; [|by apply codec_VUInt64]; lia.
  - destruct Hok. apply (codec_len 16 2); [lia|lia|done|done|].
    intros v Hv. apply (codec_fixed uint16_t); [simpl; lia|done].
  - apply (codec_len 32 4); [lia|lia|by apply Hf; [lia|]|done|].
    intros v Hv. apply (codec_fixed uint32_t); [simpl; lia|done].
  - apply (codec_len 64 8); [lia|lia|by apply Hf; [lia|]|done|].
    intros v Hv. apply (codec_fixed uint64_t); [simpl; lia|done].
  - apply (codec_len 64 10); [lia|lia|by apply Hf; [lia|]|done|]. apply codec_VUInt64.
Qed.

(** All the items of a list, one behind the other. *)
Lemma items_codec xs : Forall item_ok xs → ∀ e ba, wf ba → m_ba_endian ba = e →
  m_total_size ba + (2 ^ 24 + 2 * m_node_size ba) * zlen xs < 2 ^ 64 →
  ∃ bs ba', put_items xs ba = Ret tt ba' ∧ wf ba' ∧ same_shape ba ba' ∧
    abs ba' = buf_write bs (abs ba) ∧ consumes e (get_items xs) bs xs.
Proof.
  induction 1 as [|x xs Hx Hxs IH]; intros e ba W He Hb.
  { exists [], ba. split_and!; try done; [|apply consumes_ret]. unfold buf_write.
    rewrite splice_nil by (pose proof (wf_abs ba W); lia).
    destruct (abs ba). f_equal. unfold zlen. simpl. lia. }
  assert (Hz : zlen (x :: xs) = 1 + zlen xs) by (unfold zlen; simpl; lia).
  rewrite Hz in Hb. pose proof (wf_node_size _ W). pose proof (zlen_nonneg xs).
  destruct (item_codec x Hx e) as (b1 & Hl & P & G).
  assert (zlen b1 < 2 ^ 24) by (destruct x; simpl in Hl, Hx; unfold string_fits in Hx; lia).
  destruct (P ba W He ltac:(lia) ltac:(nia)) as (ba1 & R1 & W1 & [S1 S2] & A1 & T1).
  destruct (IH e ba1 W1 ltac:(congruence)) as (b2 & ba2 & R2 & W2 & [S3 S4] & A2 & G2).
  { rewrite S1. nia. }
  exists (b1 ++ b2), ba2. cbn [put_items]. mstep R1. split_and!; try done.
  - split; congruence.
  - rewrite A2, A1. apply buf_write_write, wf_abs, W.
  - cbn [get_items]. eapply consumes_bind; [done|]. by apply consumes_map.
Qed.
End ItemLaws.

Section Roundtrip.
Context `{Platform}.

Definition fresh (ns : Z) (little : bool) : ByteArray := setLittleEndian little (ByteArray_new ns).

Lemma fresh_wf ns little : 0 < ns < 2 ^ 24 → wf (fresh ns little).
Proof. intros Hns. destruct (ByteArray_new_wf ns Hns). by constructor. Qed.

Lemma fresh_abs ns little bs : buf_write bs (abs (fresh ns little)) = mkBuffer bs (zlen bs).
Proof.
  unfold buf_write, splice. f_equal. change (content _) with (@nil byte).
  by rewrite take_nil, drop_nil, app_nil_r.
Qed.

(** Rewinding after [bs] was written makes [bs] readable. *)
Lemma rewind_reads {A} e ba bs (get : M ByteArray A) v :
  wf ba → m_ba_endian ba = e → abs ba = mkBuffer bs (zlen bs) → consumes e get bs v →
  ∃ ba1 ba2, setPosition 0 ba = Ret tt ba1 ∧ get ba1 = Ret v ba2 ∧ wf ba2 ∧
             getReadSize ba2 = 0.
Proof.
  intros W He Ab G. pose proof (wf_pos _ W).
  destruct (setPosition_inside 0 ba W ltac:(lia)) as (ba1 & R1 & W1 & [_ S1] & A1 & _).
  destruct (G ba1 [] W1 ltac:(congruence)) as (ba2 & R2 & W2 & _ & U2 & C2 & P2).
  { unfold unread. rewrite A1, Ab. by rewrite app_nil_r. }
  exists ba1, ba2. split_and!; try done. unfold getReadSize.
  assert (E : m_data_size ba2 = m_position ba2).
  { rewrite <-zlen_content, C2 by done. change (m_position ba2) with (pos (abs ba2)).
    rewrite P2, A1, Ab. simpl. lia. }
  rewrite E, Z.sub_diag. done.
Qed.
End Roundtrip.

Section Lossy.
Context `{Platform}.

(** Beyond 65535 bytes the 16-bit length wraps around: the bytes all
    reach the buffer, the prefix covers only the first of them. *)
Lemma long_string_emits e s : zlen s < 2 ^ 24 - 10 →
  ∃ pre, zlen pre = 2 ∧ emits e 2 (writeStringFInt16 s) (pre ++ s) ∧
         consumes e readFUInt16 pre (zlen s mod 2 ^ 16).
Proof.
  intros Hs. exists (wire e uint16_t (u16 (zlen s))). split_and!.
  - by rewrite zlen_wire.
  - apply (emits_bind e 1 1); [lia|lia|apply emits_fixed; simpl; lia|apply emits_write].
  - rewrite <-(ity_conv_small uint16_t (zlen s mod 2 ^ 16)); [|simpl; lia|].
    + apply (consumes_fixed e uint16_t). simpl. lia.
    + apply (Z.mod_pos_bound (zlen s)). done.
Qed.

Lemma consumes_prefix {A} e (get : M ByteArray A) bs v n s ba :
  wf ba → m_ba_endian ba = e → unread ba = bs ++ s → consumes e get bs v → n ≤ zlen s → 0 ≤ n →
  ∃ ba1 ba2, get ba = Ret v ba1 ∧ read n ba1 = Ret (take (Z.to_nat n) s) ba2 ∧
             unread ba2 = drop (Z.to_nat n) s.
Proof.
  intros W He U G Hn H0. destruct (G ba s W He U) as (ba1 & R1 & W1 & [_ S1] & U1 & _).
  rewrite <-(take_drop (Z.to_nat n) s) in U1.
  destruct (consumes_read e (take (Z.to_nat n) s) ba1 _ W1 ltac:(congruence) U1)
    as (ba2 & R2 & _ & _ & U2 & _).
  rewrite zlen_take_le in R2 by (split; [done|exact Hn]). by exists ba1, ba2.
Qed.

Lemma fresh_put e k put bs ns little :
  0 < ns < 2 ^ 24 → 0 ≤ k ≤ 2 → m_ba_endian (fresh ns little) = e →
  emits e k put bs → zlen bs < 2 ^ 24 →
  ∃ ba ba1, put (fresh ns little) = Ret tt ba ∧ setPosition 0 ba = Ret tt ba1 ∧ wf ba1 ∧
            m_ba_endian ba1 = e ∧ unread ba1 = bs.
Proof.
  intros Hns Hk He P Hb.
  destruct (P (fresh ns little) (fresh_wf _ _ Hns) He Hb) as (ba & R & W & [_ S1] & Ab & _).
  { simpl. nia. }
  rewrite fresh_abs in Ab. pose proof (wf_pos _ W).
  destruct (setPosition_inside 0 ba W ltac:(lia)) as (ba1 & R1 & W1 & [_ S2] & A1 & _).
  exists ba, ba1. split_and!; try done; [congruence|].
  unfold unread. by rewrite A1, Ab.
Qed.
End Lossy.

(** C2: Everything a program writes with the typed functions (fixed width,
    varint and length-prefixed string, in any order and number below 2^38, in
    either byte order and on either kind of host) is read back unchanged, and
    completely, by the corresponding reads after [setPosition(0)]. Strings
    have less than 2^24 - 10 bytes, and less than 2^16 with
    [writeStringFInt16], which cuts the length of a longer one
    ([long_string_truncated]). *)
Theorem typed_roundtrip `{Platform} ns little xs :
  0 < ns < 2 ^ 24 → zlen xs < 2 ^ 38 → Forall item_ok xs →
  ∃ ba ba1 ba2, put_items xs (fresh ns little) = Ret tt ba ∧
    setPosition 0 ba = Ret tt ba1 ∧ get_items xs ba1 = Ret xs ba2 ∧
    wf ba2 ∧ getReadSize ba2 = 0.
Proof.
  intros Hns Hlen Hok. pose proof (zlen_nonneg xs).
  destruct (items_codec xs Hok _ (fresh ns little) (fresh_wf ns little Hns) eq_refl)
    as (bs & ba & R & W & [_ S] & A & G).
  { simpl. nia. }
  rewrite fresh_abs in A.
  destruct (rewind_reads _ ba bs _ _ W S A G) as (ba1 & ba2 & R1 & R2 & W2 & Z2).
  exists ba, ba1, ba2. done.
Qed.

Lemma typed_roundtrip_witness :
  ∃ ba ba1 ba2,
    put_items (H := x86_64) [VInt32 (-5); SVInt [Byte.x61; Byte.x62]; FUInt16 258] (fresh (H := x86_64) 4 false) = Ret tt ba ∧
    setPosition 0 ba = Ret tt ba1 ∧
    get_items (H := x86_64) [VInt32 (-5); SVInt [Byte.x61; Byte.x62]; FUInt16 258] ba1 =
      Ret [VInt32 (-5); SVInt [Byte.x61; Byte.x62]; FUInt16 258] ba2 ∧
    wf ba2 ∧ getReadSize ba2 = 0.
Proof.
  apply (typed_roundtrip (H := x86_64)); [lia|done|].
  repeat constructor; done.
Defined.

(** A string of more than 65535 bytes does not survive
    [writeStringFInt16]: all its bytes are written but
    [readStringFInt16] returns only the first [length mod 65536] of them and leaves the
    others in front of the position, where the next read finds them. *)
Theorem long_string_truncated `{Platform} ns little s :
  0 < ns < 2 ^ 24 → 2 ^ 16 ≤ zlen s < 2 ^ 24 - 10 → 2 ^ 16 ≤ string_max_size →
  ∃ ba ba1 ba2, writeStringFInt16 s (fresh ns little) = Ret tt ba ∧
    setPosition 0 ba = Ret tt ba1 ∧
    readStringFInt16 ba1 = Ret (take (Z.to_nat (zlen s mod 2 ^ 16)) s) ba2 ∧
    unread ba2 = drop (Z.to_nat (zlen s mod 2 ^ 16)) s.
Proof.
  intros Hns Hs Hmax. pose proof (Z.mod_pos_bound (zlen s) (2 ^ 16) ltac:(lia)) as Hm.
  set (e := m_ba_endian (fresh ns little)).
  destruct (long_string_emits e s ltac:(lia)) as (pre & Hpre & P & G).
  destruct (fresh_put e 2 _ _ ns little Hns ltac:(lia) eq_refl P) as (ba & ba1 & R & R1 & W1 & E1 & U1).
  { rewrite zlen_app. lia. }
  destruct (consumes_prefix e _ _ _ (zlen s mod 2 ^ 16) s ba1 W1 E1 U1 G) as (b & ba2 & Ra & Rb & U2);
    [lia|lia|].
  exists ba, ba1, ba2. split_and!; try done. unfold readStringFInt16. mstep Ra.
  unfold read_string. destruct (Z.ltb_spec string_max_size (zlen s mod 2 ^ 16)); [lia|done].
Qed.

Lemma long_string_truncated_witness :
  ∃ ba ba1 ba2,
    writeStringFInt16 (H := x86_64) (replicate (Z.to_nat 65537) Byte.x61) (fresh (H := x86_64) 4096 true) = Ret tt ba ∧
    setPosition 0 ba = Ret tt ba1 ∧
    readStringFInt16 (H := x86_64) ba1 =
      Ret (take (Z.to_nat (zlen (replicate (Z.to_nat 65537) Byte.x61) mod 2 ^ 16))
             (replicate (Z.to_nat 65537) Byte.x61)) ba2 ∧
    unread ba2 = drop (Z.to_nat (zlen (replicate (Z.to_nat 65537) Byte.x61) mod 2 ^ 16))
                   (replicate (Z.to_nat 65537) Byte.x61).
Proof.
  apply (long_string_truncated (H := x86_64)); [lia| |done].
  unfold zlen. rewrite length_replicate. lia.
Defined.

(** [writeFloat]/[readFloat] is not a round trip: what [readFloat]
    reinterprets as a float is the integer part of the number written, for
    every float whose integer part fits a [uint32_t]; for 1.0f the reader gets the
    bit pattern 1, a denormal. *)
Theorem writeFloat_keeps_integer_part `{Platform} ns little bits v :
  0 < ns < 2 ^ 24 → float_trunc 23 8 bits = Some v → urange 32 v →
  ∃ ba ba1 ba2, writeFloat bits (fresh ns little) = Ret tt ba ∧
    setPosition 0 ba = Ret tt ba1 ∧ readFloat ba1 = Ret v ba2.
Proof.
  intros Hns Ht Hv. unfold writeFloat. rewrite Ht. rewrite decide_True by done.
  set (e := m_ba_endian (fresh ns little)).
  destruct (codec_fixed uint32_t v ltac:(simpl; lia) Hv e) as (bs & Hb & P & G). simpl in Hb.
  destruct (fresh_put e 1 _ _ ns little Hns ltac:(lia) eq_refl P ltac:(lia))
    as (ba & ba1 & R & R1 & W1 & E1 & U1).
  destruct (G ba1 [] W1 E1 ltac:(by rewrite app_nil_r)) as (ba2 & R2 & _).
  by exists ba, ba1, ba2.
Qed.

Lemma writeFloat_keeps_integer_part_witness :
  ∃ ba ba1 ba2, writeFloat (H := x86_64) 0x3f800000 (fresh (H := x86_64) 4096 true) = Ret tt ba ∧
    setPosition 0 ba = Ret tt ba1 ∧ readFloat (H := x86_64) ba1 = Ret 1 ba2.
Proof. apply (writeFloat_keeps_integer_part (H := x86_64)); done. Defined.
