(* ===== verification/Timer.v ===== *)
(** * Timer and TimerManager (scheduler/timer.h, scheduler/timer.cpp)

    Timers live on a heap of objects keyed by their address; the manager's
    [std::set<Timer::Ptr, Timer::Comparator>] is the in-order sequence of the
    addresses it holds. [std::set] locates elements with the comparator, whose
    result depends on the timers' mutable [m_next]: the operations below
    search the sequence with the comparator as [std::set] does, and the
    invariant shows that it is always sorted when they do.

    [util::getCurrentMs()] is an argument [now] of each operation that reads
    the clock, and the addresses [new] returns are arguments too. Every
    operation holds [m_mutex] while it touches the set, so that one operation
    is one step. *)

From stdpp Require Import sorting.
From S2P Require Import Prelude.
#[local] Open Scope Z_scope.

(** [std::function<void()>]: a user callback, or the [std::bind] object that
    [addConditionTimer] makes of a weak pointer and another callback. *)
Inductive callback :=
| Plain (id : Z)
| OnTimer (weak_cond : Z) (c : callback)
| OnTimerEmpty (weak_cond : Z).   (* the bound function is empty *)

(** What calling it does: the user callbacks run, or [std::bad_function_call]. *)
Inductive call_result := Ran (ids : list Z) | BadFunctionCall.

Fixpoint call (alive : Z → bool) (c : callback) : call_result :=
  match c with
  | Plain id => Ran [id]
  | OnTimer wc c => if alive wc then call alive c else Ran []
  | OnTimerEmpty wc => if alive wc then BadFunctionCall else Ran []
  end.

Record Timer := mkTimer {
  m_cb : option callback;
  m_is_loop : bool;
  m_ms : Z;
  m_next : Z;
}.

(** [front_calls] counts the calls of the virtual [onTimerInsertAtFront()]. *)
Record TimerManager := mkTimerManager {
  heap : gmap Z Timer;
  m_timers : list Z;
  m_notified : bool;
  m_previous_time : Z;
  front_calls : nat;
}.

Definition set_timers (h : gmap Z Timer) (l : list Z) (tm : TimerManager) : TimerManager :=
  mkTimerManager h l (m_notified tm) (m_previous_time tm) (front_calls tm).
Definition set_notified (b : bool) (tm : TimerManager) : TimerManager :=
  mkTimerManager (heap tm) (m_timers tm) b (m_previous_time tm) (front_calls tm).
Definition set_previous (t : Z) (tm : TimerManager) : TimerManager :=
  mkTimerManager (heap tm) (m_timers tm) (m_notified tm) t (front_calls tm).

(** A [Timer::Ptr]: null, or an address with the object there. *)
Definition Ptr : Type := option (Z * Timer).
Definition ptr (h : gmap Z Timer) (a : Z) : Ptr := (λ t, (a, t)) <$> h !! a.

Definition Comparator (lhs rhs : Ptr) : bool :=
  match lhs, rhs with
  | None, None => false
  | None, Some _ => true
  | Some _, None => false
  | Some (la, l), Some (ra, r) =>
      if m_next l <? m_next r then true
      else if m_next r <? m_next l then false
      else la <? ra
  end.

(** ** std::set over a mutable comparator *)

(** The elements before and from the first one that is not [p]. *)
Fixpoint span {A} (p : A → bool) (l : list A) : list A * list A :=
  match l with
  | [] => ([], [])
  | x :: l' => if p x then let r := span p l' in (x :: r.1, r.2) else ([], l)
  end.

(** [m_timers.lower_bound(key)] as the split of the sequence at the iterator. *)
Definition lower_bound (h : gmap Z Timer) (key : Ptr) (l : list Z) : list Z * list Z :=
  span (λ x, Comparator (ptr h x) key) l.

(** [m_timers.find(key)]: the elements before, at and behind the iterator,
    [None] for [end()]. *)
Definition set_find (h : gmap Z Timer) (key : Ptr) (l : list Z) : option (list Z * Z * list Z) :=
  match lower_bound h key l with
  | (l1, x :: l2) => if Comparator key (ptr h x) then None else Some (l1, x, l2)
  | (_, []) => None
  end.

(** [m_timers.insert(timer)]: the sequence, and whether the iterator is
    [begin()]. An equivalent element keeps its place. *)
Definition set_insert (h : gmap Z Timer) (a : Z) (l : list Z) : list Z * bool :=
  match lower_bound h (ptr h a) l with
  | (l1, x :: l2) =>
      if Comparator (ptr h a) (ptr h x) then (l1 ++ a :: x :: l2, bool_decide (l1 = []))
      else (l, bool_decide (l1 = []))
  | (l1, []) => (l1 ++ [a], bool_decide (l1 = []))
  end.

(** ** The operations *)

(** [Timer::Timer(ms, cb, is_loop, manager)] *)
Definition Timer_new (now ms : Z) (cb : option callback) (is_loop : bool) : Timer :=
  mkTimer cb is_loop ms (u64 (now + ms)).
(** [Timer::Timer(next)] *)
Definition Timer_at (next : Z) : Timer := mkTimer None false 0 next.

Definition TimerManager_new (now : Z) : TimerManager := mkTimerManager ∅ [] false now 0.

(** [this->m_xxx] for the timer at [a]. *)
Definition get_timer (a : Z) : M TimerManager Timer :=
  tm <- mget;;
  match heap tm !! a with Some t => mreturn t | None => mfault NullDeref end.

(** [void addTimer(const Timer::Ptr &timer, WrLock &lock)] *)
Definition addTimer_locked (a : Z) : M TimerManager unit :=
  tm <- mget;;
  let '(l, at_begin) := set_insert (heap tm) a (m_timers tm) in
  let is_front := at_begin && negb (m_notified tm) in
  mput (mkTimerManager (heap tm) l (if is_front then true else m_notified tm)
          (m_previous_time tm) (if is_front then S (front_calls tm) else front_calls tm)).

(** [Timer::Ptr addTimer(ms, cb, is_loop)]; [a] is the address of the new timer. *)
Definition addTimer (now a ms : Z) (cb : option callback) (is_loop : bool)
    : M TimerManager Z :=
  mmodify (λ tm, set_timers (<[a := Timer_new now ms cb is_loop]> (heap tm)) (m_timers tm) tm);;
  addTimer_locked a;;
  mreturn a.

Definition addConditionTimer (now a ms : Z) (cb : option callback) (weak_cond : Z)
    (is_loop : bool) : M TimerManager Z :=
  addTimer now a ms
    (Some (match cb with Some c => OnTimer weak_cond c | None => OnTimerEmpty weak_cond end))
    is_loop.

Definition cancel (a : Z) : M TimerManager bool :=
  t <- get_timer a;;
  match m_cb t with
  | None => mreturn false
  | Some _ =>
      tm <- mget;;
      let h := <[a := mkTimer None (m_is_loop t) (m_ms t) (m_next t)]> (heap tm) in
      match set_find h (ptr h a) (m_timers tm) with
      | None => mfault EraseEnd
      | Some (l1, _, l2) => mput (set_timers h (l1 ++ l2) tm);; mreturn true
      end
  end.

Definition refresh (now a : Z) : M TimerManager bool :=
  t <- get_timer a;;
  match m_cb t with
  | None => mreturn false
  | Some _ =>
      tm <- mget;;
      match set_find (heap tm) (ptr (heap tm) a) (m_timers tm) with
      | None => mreturn false
      | Some (l1, _, l2) =>
          let h := <[a := mkTimer (m_cb t) (m_is_loop t) (m_ms t) (u64 (now + m_ms t))]> (heap tm) in
          mput (set_timers h (set_insert h a (l1 ++ l2)).1 tm);; mreturn true
      end
  end.

Definition reset (now a ms : Z) (from_now : bool) : M TimerManager bool :=
  t <- get_timer a;;
  if (ms =? m_ms t) && negb from_now then mreturn true else
  match m_cb t with
  | None => mreturn false
  | Some _ =>
      tm <- mget;;
      match set_find (heap tm) (ptr (heap tm) a) (m_timers tm) with
      | None => mreturn false
      | Some (l1, _, l2) =>
          let start := if from_now then now else u64 (m_next t - m_ms t) in
          let h := <[a := mkTimer (m_cb t) (m_is_loop t) ms (u64 (start + ms))]> (heap tm) in
          mput (set_timers h (l1 ++ l2) tm);;
          addTimer_locked a;;
          mreturn true
      end
  end.

Definition getNextTimerTimeMs (now : Z) : M TimerManager Z :=
  mmodify (set_notified false);;
  tm <- mget;;
  match m_timers tm with
  | [] => mreturn (u64 (-1))
  | a :: _ =>
      next <- get_timer a;;
      mreturn (if m_next next <=? now then 0 else u64 (m_next next - now))
  end.

Definition detectTimeModified (now : Z) : M TimerManager bool :=
  tm <- mget;;
  let is_modified := (now <? m_previous_time tm) &&
                     (now <? u64 (m_previous_time tm - 60 * 60 * 1000)) in
  mput (set_previous now tm);;
  mreturn is_modified.

(** The [for (const auto &timer : expired_timers)] loop. *)
Fixpoint fire_loop (now : Z) (expired : list Z) : M TimerManager (list (option callback)) :=
  match expired with
  | [] => mreturn []
  | a :: expired =>
      t <- get_timer a;;
      tm <- mget;;
      (if m_is_loop t then
         let h := <[a := mkTimer (m_cb t) true (m_ms t) (u64 (now + m_ms t))]> (heap tm) in
         mput (set_timers h (set_insert h a (m_timers tm)).1 tm)
       else
         mput (set_timers (<[a := mkTimer None false (m_ms t) (m_next t)]> (heap tm))
                 (m_timers tm) tm));;
      cbs <- fire_loop now expired;;
      mreturn (m_cb t :: cbs)
  end.

(** [it] of [getExpiredCbsList]: the elements before and from it. [nt] is the
    address of the temporary [now_timer]. *)
Definition split_expired (now nt : Z) (is_modified : bool) (h : gmap Z Timer) (l : list Z)
    : list Z * list Z :=
  let r := if is_modified then (l, []) else lower_bound h (Some (nt, Timer_at now)) l in
  let q := span (λ x, match h !! x with Some t => m_next t =? now | None => false end) r.2 in
  (r.1 ++ q.1, q.2).

(** [getExpiredCbsList(cbs)]: the callbacks appended to [cbs]. *)
Definition getExpiredCbsList (now nt : Z) : M TimerManager (list (option callback)) :=
  tm <- mget;;
  match m_timers tm with
  | [] => mreturn []
  | first :: _ =>
      is_modified <- detectTimeModified now;;
      f <- get_timer first;;
      if negb is_modified && (now <? m_next f) then mreturn [] else
      tm <- mget;;
      let '(expired, rest) := split_expired now nt is_modified (heap tm) (m_timers tm) in
      mput (set_timers (heap tm) rest tm);;
      fire_loop now expired
  end.

Definition hasTimer (tm : TimerManager) : bool := negb (bool_decide (m_timers tm = [])).

(** The last [Timer::Ptr] to a timer outside the set goes away. *)
Definition release (a : Z) : M TimerManager unit :=
  mmodify (λ tm, set_timers (delete a (heap tm)) (m_timers tm) tm).

(** ** The set stays sorted *)

Definition next_at (h : gmap Z Timer) (a : Z) : Z :=
  match h !! a with Some t => m_next t | None => 0 end.

(** The order of the comparator on timers of the heap. *)
Definition klt (h : gmap Z Timer) (a b : Z) : Prop :=
  next_at h a < next_at h b ∨ (next_at h a = next_at h b ∧ a < b).

Abbreviation sorted h := (StronglySorted (klt h)).
Definition on_heap (h : gmap Z Timer) (l : list Z) : Prop := ∀ a, a ∈ l → is_Some (h !! a).

Lemma Comparator_klt h a b : is_Some (h !! a) → is_Some (h !! b) →
  Comparator (ptr h a) (ptr h b) = true ↔ klt h a b.
Proof.
  intros [t Ht] [u Hu]. unfold ptr, klt, next_at. rewrite Ht, Hu. simpl.
  destruct (Z.ltb_spec (m_next t) (m_next u)); [intuition lia|].
  destruct (Z.ltb_spec (m_next u) (m_next t)); [intuition lia|].
  rewrite Z.ltb_lt. intuition lia.
Qed.

Lemma klt_trans h a b c : klt h a b → klt h b c → klt h a c.
Proof. unfold klt. lia. Qed.
Lemma klt_total h a b : a ≠ b → ¬ klt h a b → klt h b a.
Proof. unfold klt. lia. Qed.
Lemma klt_irrefl h a : ¬ klt h a a.
Proof. unfold klt. lia. Qed.

Lemma next_at_insert_ne h a b t : a ≠ b → next_at (<[a:=t]> h) b = next_at h b.
Proof. intros. unfold next_at. by rewrite lookup_insert_ne by done. Qed.
Lemma next_at_insert h a t : next_at (<[a:=t]> h) a = m_next t.
Proof. unfold next_at. by rewrite lookup_insert_eq. Qed.

(** The order depends on the deadlines of the elements only. *)
Lemma sorted_ext h h' l : (∀ x, x ∈ l → next_at h' x = next_at h x) → sorted h l → sorted h' l.
Proof.
  intros Hx S. induction S as [|x l Hl IH Hlt]; constructor.
  - apply IH. set_solver.
  - rewrite Forall_forall in *. intros y Hy. unfold klt. rewrite !Hx by set_solver. by apply Hlt.
Qed.

Lemma sorted_insert_ne h l a t : a ∉ l → sorted h l → sorted (<[a:=t]> h) l.
Proof. intros Ha. apply sorted_ext. intros x Hx. apply next_at_insert_ne. set_solver. Qed.

Lemma sorted_NoDup h l : sorted h l → NoDup l.
Proof.
  induction 1 as [|x l Hl IH Hx]; constructor; [|done].
  intros Hin. rewrite Forall_forall in Hx. by eapply klt_irrefl, Hx.
Qed.

Lemma span_spec {A} (p : A → bool) l : span p l = ((span p l).1, (span p l).2) ∧
  l = (span p l).1 ++ (span p l).2 ∧ Forall (λ x, p x = true) (span p l).1 ∧
  match (span p l).2 with [] => True | x :: _ => p x = false end.
Proof.
  induction l as [|x l IH]; simpl; [done|]. destruct (p x) eqn:Ep; simpl; [|done].
  destruct IH as (_ & E & F & N). split; [done|]. split; [by f_equal|]. by split; [constructor|].
Qed.

(** A predicate that is closed downwards splits a sorted sequence. *)
Lemma span_sorted h (p : Z → bool) l : sorted h l →
  (∀ a b, a ∈ l → b ∈ l → klt h a b → p b = true → p a = true) →
  Forall (λ x, p x = false) (span p l).2.
Proof.
  intros S Hp. destruct (span_spec p l) as (_ & E & _ & N).
  destruct (span p l) as [l1 [|y l2]]; simpl in *; [constructor|]. constructor; [done|].
  rewrite E in S. apply StronglySorted_app_1_r, StronglySorted_inv in S as [_ S].
  rewrite Forall_forall in *. intros z Hz. destruct (p z) eqn:Ez; [|done].
  rewrite (Hp y z) in N; [done|set_solver|set_solver|by apply S|done].
Qed.

Lemma lower_bound_at h a l : is_Some (h !! a) → on_heap h l → sorted h l →
  ∃ l1 l2, lower_bound h (ptr h a) l = (l1, l2) ∧ l = l1 ++ l2 ∧
    Forall (λ x, klt h x a) l1 ∧ Forall (λ x, ¬ klt h x a) l2.
Proof.
  intros Ha Hl S. unfold lower_bound. set (p := λ x, Comparator (ptr h x) (ptr h a)).
  assert (Hp : ∀ x, x ∈ l → p x = true ↔ klt h x a) by (intros; apply Comparator_klt; auto).
  pose proof (span_sorted h p l S) as F2. destruct (span_spec p l) as (E0 & E & F1 & _).
  destruct (span p l) as [l1 l2]. simpl in *. subst l. exists l1, l2. split; [done|]. split; [done|].
  rewrite Forall_forall in F2. split.
  - rewrite Forall_forall in *. intros x Hx. apply Hp; [set_solver|by apply F1].
  - apply Forall_forall. intros x Hx Hk. apply Hp in Hk; [|set_solver].
    rewrite F2 in Hk; [done| |done]. intros y z Hy Hz Hyz Hpz.
    apply Hp; [done|]. eapply klt_trans; [done|]. by apply Hp.
Qed.

(** [insert] puts a timer that is not in the set at its place. *)
Lemma set_insert_spec h a l : is_Some (h !! a) → on_heap h l → sorted h l → a ∉ l →
  ∃ l1 l2, l = l1 ++ l2 ∧ set_insert h a l = (l1 ++ a :: l2, bool_decide (l1 = [])) ∧
    sorted h (l1 ++ a :: l2).
Proof.
  intros Ha Hl S Hn. destruct (lower_bound_at h a l Ha Hl S) as (l1 & l2 & E & -> & F1 & F2).
  exists l1, l2. split; [done|]. unfold set_insert. rewrite E.
  rewrite Forall_forall in F1, F2.
  assert (Hgt : Forall (klt h a) l2).
  { apply Forall_forall. intros x Hx. apply klt_total; [set_solver|by apply F2]. }
  split.
  - destruct l2 as [|x l2]; [done|].
    by rewrite (proj2 (Comparator_klt h a x Ha ltac:(apply Hl; set_solver))) by (by inversion Hgt).
  - rewrite StronglySorted_app in S |- *. destruct S as (S12 & S1 & S2).
    split_and!; [|done|by constructor].
    intros x1 x2 Hx1 Hx2. apply elem_of_cons in Hx2 as [->|Hx2]; [by apply F1|by apply S12].
Qed.

(** [find] finds exactly the timers of the set. *)
Lemma set_find_in h a l : is_Some (h !! a) → on_heap h l → sorted h l → a ∈ l →
  ∃ l1 l2, l = l1 ++ a :: l2 ∧ set_find h (ptr h a) l = Some (l1, a, l2).
Proof.
  intros Ha Hl S Hin. destruct (lower_bound_at h a l Ha Hl S) as (l1 & l2 & E & -> & F1 & F2).
  rewrite Forall_forall in F1, F2. unfold set_find. rewrite E.
  assert (Hin2 : a ∈ l2).
  { apply elem_of_app in Hin as [Hin|]; [|done]. by apply F1, klt_irrefl in Hin. }
  destruct l2 as [|x l2]; [by apply not_elem_of_nil in Hin2|].
  assert (x = a) as ->.
  { apply elem_of_cons in Hin2 as [|Hin2]; [done|]. exfalso. apply (F2 x); [set_solver|].
    apply StronglySorted_app_1_r, StronglySorted_inv in S as [_ S]. rewrite Forall_forall in S. auto. }
  exists l1, l2. split; [done|].
  destruct (Comparator (ptr h a) (ptr h a)) eqn:C; [|done].
  apply Comparator_klt in C; [|done..]. by apply klt_irrefl in C.
Qed.

Lemma on_heap_insert h a t l : on_heap h l → on_heap (<[a:=t]> h) l.
Proof. intros Hl x Hx. apply lookup_insert_is_Some'. right. auto. Qed.

Lemma sorted_erase h l1 a l2 : sorted h (l1 ++ a :: l2) → sorted h (l1 ++ l2) ∧ a ∉ l1 ++ l2.
Proof.
  intros S. split.
  - rewrite StronglySorted_app in S |- *. destruct S as (S12 & S1 & S2).
    apply StronglySorted_inv in S2 as [S2 _]. split_and!; try done. set_solver.
  - apply sorted_NoDup in S. rewrite (Permutation_app_comm l1 l2).
    rewrite NoDup_app in S. destruct S as (_ & Hd & Hn). apply NoDup_cons in Hn as [Hn _].
    rewrite elem_of_app. intros [?|?]; [done|]. apply (Hd a); set_solver.
Qed.

(** ** The invariant *)

(** The set is sorted and holds live timers, every armed timer is in it,
    deadlines are 64-bit. *)
Record inv (tm : TimerManager) : Prop := {
  inv_heap : on_heap (heap tm) (m_timers tm);
  inv_sorted : sorted (heap tm) (m_timers tm);
  inv_armed : ∀ a t, heap tm !! a = Some t → is_Some (m_cb t) → a ∈ m_timers tm;
  inv_range : ∀ a t, heap tm !! a = Some t → urange 64 (m_next t);
}.

Definition with_cb (cb : option callback) (t : Timer) : Timer :=
  mkTimer cb (m_is_loop t) (m_ms t) (m_next t).

Lemma get_timer_Some a t tm : heap tm !! a = Some t → get_timer a tm = Ret t tm.
Proof. intros E. unfold get_timer. mrun. by rewrite E. Qed.

Lemma TimerManager_new_inv now : inv (TimerManager_new now).
Proof. split; simpl; [|constructor|..]; set_solver. Qed.

(** Adding a timer that is on the heap but not in the set. *)
Lemma addTimer_locked_spec a tm : is_Some (heap tm !! a) → on_heap (heap tm) (m_timers tm) →
  sorted (heap tm) (m_timers tm) → a ∉ m_timers tm →
  ∃ l1 l2, m_timers tm = l1 ++ l2 ∧ sorted (heap tm) (l1 ++ a :: l2) ∧
    let is_front := bool_decide (l1 = []) && negb (m_notified tm) in
    addTimer_locked a tm = Ret tt (mkTimerManager (heap tm) (l1 ++ a :: l2)
      (if is_front then true else m_notified tm) (m_previous_time tm)
      (if is_front then S (front_calls tm) else front_calls tm)).
Proof.
  intros Ha Hl S Hn. destruct (set_insert_spec _ a _ Ha Hl S Hn) as (l1 & l2 & E & Ei & S').
  exists l1, l2. split; [done|]. split; [done|]. unfold addTimer_locked. mrun. by rewrite Ei.
Qed.

(** Updating a timer outside the set and putting it in keeps the invariant. *)
Lemma inv_insert tm a t l1 l2 n p f :
  inv tm →
  (∀ x, x ∈ m_timers tm → x ≠ a → x ∈ l1 ++ l2) → urange 64 (m_next t) →
  on_heap (heap tm) (l1 ++ l2) → sorted (<[a:=t]> (heap tm)) (l1 ++ a :: l2) →
  inv (mkTimerManager (<[a:=t]> (heap tm)) (l1 ++ a :: l2) n p f).
Proof.
  intros I Hsub Hr Hl S. split; simpl; try done.
  - intros x Hx. destruct (decide (x = a)) as [->|]; [by rewrite lookup_insert_eq|].
    apply on_heap_insert with (l := l1 ++ l2); [done|]. set_solver.
  - intros x u Hx Hcb. destruct (decide (x = a)) as [->|]; [set_solver|].
    rewrite lookup_insert_ne in Hx by done.
    assert (x ∈ l1 ++ l2) by (apply Hsub; [by eapply inv_armed|done]). set_solver.
  - intros x u Hx. destruct (decide (x = a)) as [->|].
    + rewrite lookup_insert_eq in Hx. by simplify_eq.
    + rewrite lookup_insert_ne in Hx by done. by eapply inv_range.
Qed.

Lemma addTimer_spec now a ms cb is_loop tm : inv tm → heap tm !! a = None →
  ∃ l1 l2, m_timers tm = l1 ++ l2 ∧
    let is_front := bool_decide (l1 = []) && negb (m_notified tm) in
    let tm' := mkTimerManager (<[a := Timer_new now ms cb is_loop]> (heap tm)) (l1 ++ a :: l2)
                 (if is_front then true else m_notified tm) (m_previous_time tm)
                 (if is_front then S (front_calls tm) else front_calls tm) in
    addTimer now a ms cb is_loop tm = Ret a tm' ∧ inv tm'.
Proof.
  intros I Ha. set (t := Timer_new now ms cb is_loop).
  assert (Hn : a ∉ m_timers tm).
  { intros Hin. apply (inv_heap _ I) in Hin. rewrite Ha in Hin. by destruct Hin. }
  destruct (addTimer_locked_spec a (set_timers (<[a:=t]> (heap tm)) (m_timers tm) tm))
    as (l1 & l2 & E & S & R); simpl in *.
  { by rewrite lookup_insert_eq. }
  { apply on_heap_insert, I. }
  { apply sorted_insert_ne, I. done. }
  { done. }
  exists l1, l2. split; [done|]. split.
  - unfold addTimer, mbind', mmodify. fold t. by rewrite R.
  - apply inv_insert; try done; rewrite <-?E; [done|apply wrapu_range; lia|apply I].
Qed.

(** A timer that can still fire is found in the set, also when its callback
    was just cleared. *)
Lemma armed_find a t tm h : inv tm → heap tm !! a = Some t → is_Some (m_cb t) →
  (∀ x, next_at h x = next_at (heap tm) x) → on_heap h (m_timers tm) →
  ∃ l1 l2, m_timers tm = l1 ++ a :: l2 ∧ sorted (heap tm) (l1 ++ l2) ∧ a ∉ l1 ++ l2 ∧
    on_heap (heap tm) (l1 ++ l2) ∧
    set_find h (ptr h a) (m_timers tm) = Some (l1, a, l2).
Proof.
  intros I Ha Hcb Hx Hh. pose proof (inv_armed _ I a t Ha Hcb) as Hin.
  assert (S : sorted h (m_timers tm)) by (eapply sorted_ext; [by intros; apply Hx|apply I]).
  destruct (set_find_in h a _ (Hh a Hin) Hh S Hin) as (l1 & l2 & E & F).
  pose proof (inv_sorted _ I) as S'. rewrite E in S'. apply sorted_erase in S' as [S' Hn].
  exists l1, l2. split_and!; try done. intros x Hx'. apply (inv_heap _ I). rewrite E. set_solver.
Qed.

Lemma next_at_with_cb h a t cb x : h !! a = Some t →
  next_at (<[a := with_cb cb t]> h) x = next_at h x.
Proof.
  intros Ha. destruct (decide (x = a)) as [->|].
  - rewrite next_at_insert. unfold next_at. by rewrite Ha.
  - by apply next_at_insert_ne.
Qed.

Lemma cancel_spec a t tm : inv tm → heap tm !! a = Some t →
  match m_cb t with
  | None => cancel a tm = Ret false tm
  | Some _ => ∃ l1 l2, m_timers tm = l1 ++ a :: l2 ∧ a ∉ l1 ++ l2 ∧
      let tm' := set_timers (<[a := with_cb None t]> (heap tm)) (l1 ++ l2) tm in
      cancel a tm = Ret true tm' ∧ inv tm'
  end.
Proof.
  intros I Ha. unfold cancel. mstep (get_timer_Some a t tm Ha).
  destruct (m_cb t) as [cb|] eqn:Ecb; [|done]. mrun. fold (with_cb None t).
  set (h := <[a := with_cb None t]> (heap tm)).
  destruct (armed_find a t tm h I Ha) as (l1 & l2 & E & S & Hn & Hl & F).
  { by rewrite Ecb. }
  { intros x. by apply next_at_with_cb. }
  { apply on_heap_insert, I. }
  exists l1, l2. split; [done|]. split; [done|]. rewrite F. split; [done|].
  split; simpl.
  - by apply on_heap_insert.
  - by apply sorted_insert_ne.
  - intros x u Hx Hc. destruct (decide (x = a)) as [->|].
    + unfold h in Hx. rewrite lookup_insert_eq in Hx. simplify_eq. by destruct Hc.
    + unfold h in Hx. rewrite lookup_insert_ne in Hx by done.
      pose proof (inv_armed _ I x u Hx Hc) as Hin. rewrite E in Hin. set_solver.
  - intros x u Hx. unfold h in Hx. apply lookup_insert_Some in Hx as [[<- <-]|[_ Hx]].
    + simpl. by eapply inv_range.
    + by eapply inv_range.
Qed.

(** Taking an armed timer out and putting it back with a new deadline. *)
Lemma rearm_spec a t t' tm : inv tm → heap tm !! a = Some t → is_Some (m_cb t) →
  urange 64 (m_next t') →
  ∃ l1 l2 k1 k2, m_timers tm = l1 ++ a :: l2 ∧ a ∉ l1 ++ l2 ∧ l1 ++ l2 = k1 ++ k2 ∧
    set_find (heap tm) (ptr (heap tm) a) (m_timers tm) = Some (l1, a, l2) ∧
    let h := <[a := t']> (heap tm) in
    set_insert h a (l1 ++ l2) = (k1 ++ a :: k2, bool_decide (k1 = [])) ∧
    ∀ n p f, inv (mkTimerManager h (k1 ++ a :: k2) n p f).
Proof.
  intros I Ha Hcb Hr.
  destruct (armed_find a t tm (heap tm) I Ha Hcb) as (l1 & l2 & E & S & Hn & Hl & F);
    [done|apply I|].
  destruct (set_insert_spec (<[a := t']> (heap tm)) a (l1 ++ l2)) as (k1 & k2 & E' & Ei & S').
  { by rewrite lookup_insert_eq. }
  { by apply on_heap_insert. }
  { by apply sorted_insert_ne. }
  { done. }
  exists l1, l2, k1, k2. do 5 (split; [done|]). intros n p f.
  apply inv_insert; try done; rewrite <-?E'; [|done].
  intros x Hx Hxa. rewrite E in Hx. set_solver.
Qed.

Lemma refresh_spec now a t tm : inv tm → heap tm !! a = Some t →
  match m_cb t with
  | None => refresh now a tm = Ret false tm
  | Some _ => ∃ l1 l2 k1 k2, m_timers tm = l1 ++ a :: l2 ∧ a ∉ l1 ++ l2 ∧ l1 ++ l2 = k1 ++ k2 ∧
      let t' := mkTimer (m_cb t) (m_is_loop t) (m_ms t) (u64 (now + m_ms t)) in
      let tm' := set_timers (<[a := t']> (heap tm)) (k1 ++ a :: k2) tm in
      refresh now a tm = Ret true tm' ∧ inv tm'
  end.
Proof.
  intros I Ha. unfold refresh. mstep (get_timer_Some a t tm Ha).
  destruct (m_cb t) as [cb|] eqn:Ecb; [|done]. mrun.
  destruct (rearm_spec a t (mkTimer (Some cb) (m_is_loop t) (m_ms t) (u64 (now + m_ms t))) tm I Ha)
    as (l1 & l2 & k1 & k2 & E & Hn & E' & F & Ei & HI).
  { by rewrite Ecb. }
  { apply wrapu_range. lia. }
  exists l1, l2, k1, k2. do 3 (split; [done|]). rewrite F. simpl in Ei. rewrite Ei.
  split; [done|apply HI].
Qed.

Lemma reset_spec now a ms from_now t tm : inv tm → heap tm !! a = Some t →
  if (ms =? m_ms t) && negb from_now then reset now a ms from_now tm = Ret true tm else
  match m_cb t with
  | None => reset now a ms from_now tm = Ret false tm
  | Some _ => ∃ l1 l2 k1 k2, m_timers tm = l1 ++ a :: l2 ∧ a ∉ l1 ++ l2 ∧ l1 ++ l2 = k1 ++ k2 ∧
      let start := if from_now then now else u64 (m_next t - m_ms t) in
      let is_front := bool_decide (k1 = []) && negb (m_notified tm) in
      let tm' := mkTimerManager
           (<[a := mkTimer (m_cb t) (m_is_loop t) ms (u64 (start + ms))]> (heap tm)) (k1 ++ a :: k2)
           (if is_front then true else m_notified tm) (m_previous_time tm)
           (if is_front then S (front_calls tm) else front_calls tm) in
      reset now a ms from_now tm = Ret true tm' ∧ inv tm'
  end.
Proof.
  intros I Ha. unfold reset. rewrite (bind_Ret _ _ _ _ _ (get_timer_Some a t tm Ha)).
  destruct ((ms =? m_ms t) && negb from_now); [done|].
  destruct (m_cb t) as [cb|] eqn:Ecb; [|done].
  set (start := if from_now then now else u64 (m_next t - m_ms t)).
  destruct (rearm_spec a t (mkTimer (Some cb) (m_is_loop t) ms (u64 (start + ms))) tm I Ha)
    as (l1 & l2 & k1 & k2 & E & Hn & E' & F & Ei & HI).
  { by rewrite Ecb. }
  { apply wrapu_range. lia. }
  exists l1, l2, k1, k2. do 3 (split; [done|]). split; [|apply HI].
  mrun. rewrite F. unfold addTimer_locked, mbind'. mend. cbn [set_timers heap m_timers].
  simpl in Ei. by rewrite Ei.
Qed.

(** ** Expiry *)

(** What firing does to a timer. *)
Definition fire (now : Z) (t : Timer) : Timer :=
  if m_is_loop t then mkTimer (m_cb t) true (m_ms t) (u64 (now + m_ms t))
  else mkTimer None false (m_ms t) (m_next t).

Definition fired (now : Z) (expired : list Z) (h : gmap Z Timer) : gmap Z Timer :=
  foldl (λ h a, alter (fire now) a h) h expired.

Definition cb_at (h : gmap Z Timer) (a : Z) : option callback := t ← h !! a; m_cb t.
Definition loops (h : gmap Z Timer) (a : Z) : Prop := ∃ t, h !! a = Some t ∧ m_is_loop t = true.

Lemma fired_lookup now expired h a : NoDup expired →
  fired now expired h !! a =
    if decide (a ∈ expired) then fire now <$> h !! a else h !! a.
Proof.
  revert h. induction expired as [|x expired IH]; intros h ND; unfold fired; cbn [foldl].
  { by rewrite decide_False by set_solver. }
  apply NoDup_cons in ND as [Hx ND]. unfold fired in IH. rewrite IH by done.
  destruct (decide (a = x)) as [->|Hne].
  - rewrite (decide_False (P := x ∈ expired)), (decide_True (P := x ∈ x :: expired)) by set_solver.
    by rewrite lookup_alter_eq.
  - rewrite lookup_alter_ne by done. destruct (decide (a ∈ expired)).
    + by rewrite decide_True by set_solver.
    + by rewrite decide_False by set_solver.
Qed.

Lemma alter_insert (h : gmap Z Timer) a t now : h !! a = Some t → alter (fire now) a h = <[a := fire now t]> h.
Proof.
  intros Ha. apply map_eq. intros x. destruct (decide (x = a)) as [->|].
  - by rewrite lookup_alter_eq, lookup_insert_eq, Ha.
  - by rewrite lookup_alter_ne, lookup_insert_ne by done.
Qed.

(** Firing one timer that is not in the set: a loop timer goes back into it. *)
Lemma fire_one now a t h l : h !! a = Some t → a ∉ l → sorted h l → on_heap h l →
  let h1 := <[a := fire now t]> h in
  let l1 := if m_is_loop t then (set_insert h1 a l).1 else l in
  sorted h1 l1 ∧ on_heap h1 l1 ∧ ∀ x, x ∈ l1 ↔ x ∈ l ∨ (x = a ∧ m_is_loop t = true).
Proof.
  intros Ht Hnot S O h1 l1.
  assert (S1 : sorted h1 l) by by apply sorted_insert_ne.
  assert (O1 : on_heap h1 l) by by apply on_heap_insert.
  unfold l1. destruct (m_is_loop t); [|set_solver].
  destruct (set_insert_spec h1 a l) as (k1 & k2 & E & Ei & S2); try done.
  { unfold h1. by rewrite lookup_insert_eq. }
  rewrite Ei, E in *. simpl. split; [done|]. split; [|set_solver].
  intros x Hx. destruct (decide (x = a)) as [->|]; [unfold h1; by rewrite lookup_insert_eq|].
  apply O1. set_solver.
Qed.

Lemma fire_loop_spec now expired tm :
  NoDup expired → (∀ a, a ∈ expired → a ∉ m_timers tm) →
  on_heap (heap tm) expired → on_heap (heap tm) (m_timers tm) →
  sorted (heap tm) (m_timers tm) →
  ∃ l, let h := fired now expired (heap tm) in
    fire_loop now expired tm = Ret (cb_at (heap tm) <$> expired) (set_timers h l tm) ∧
    sorted h l ∧ on_heap h l ∧
    ∀ a, a ∈ l ↔ a ∈ m_timers tm ∨ (a ∈ expired ∧ loops (heap tm) a).
Proof.
  revert tm. induction expired as [|a expired IH]; intros tm ND Hdis He Hl S.
  { exists (m_timers tm). simpl. split; [by destruct tm|]. split; [done|]. split; [done|].
    intros x. set_solver. }
  apply NoDup_cons in ND as [Ha ND]. destruct (He a ltac:(set_solver)) as [t Ht].
  cbn [fire_loop]. rewrite (bind_Ret _ _ _ _ _ (get_timer_Some a t tm Ht)). mrun.
  assert (Hal : alter (fire now) a (heap tm) = <[a := fire now t]> (heap tm)) by by apply alter_insert.
  set (h1 := <[a := fire now t]> (heap tm)) in *.
  set (l1 := if m_is_loop t then (set_insert h1 a (m_timers tm)).1 else m_timers tm).
  assert (Hstep : (if m_is_loop t then
         let h := <[a := mkTimer (m_cb t) true (m_ms t) (u64 (now + m_ms t))]> (heap tm) in
         mput (set_timers h (set_insert h a (m_timers tm)).1 tm)
       else mput (set_timers (<[a := mkTimer None false (m_ms t) (m_next t)]> (heap tm))
                 (m_timers tm) tm)) tm = Ret tt (set_timers h1 l1 tm)).
  { unfold h1, l1, h1, fire. by destruct (m_is_loop t). }
  assert (Hnot : a ∉ m_timers tm) by (apply Hdis; set_solver).
  destruct (fire_one now a t (heap tm) (m_timers tm) Ht Hnot S Hl) as (S1 & O1 & M1). fold h1 l1 in S1, O1, M1.
  assert (Hsame : ∀ x, x ∈ expired → h1 !! x = heap tm !! x)
    by (intros x Hx; apply lookup_insert_ne; set_solver).
  rewrite (bind_Ret _ _ _ _ _ Hstep).
  destruct (IH (set_timers h1 l1 tm)) as (l & R & S2 & O2 & M2); try done; simpl.
  { intros x Hx. rewrite M1. intros [Hin|[-> _]]; [|done]. by apply (Hdis x); [set_solver|]. }
  { intros x Hx. rewrite Hsame by done. apply He. set_solver. }
  simpl in *. rewrite (bind_Ret _ _ _ _ _ R). rewrite Hal. exists l. split_and!; try done.
  - mend. unfold cb_at at 2. rewrite Ht. simpl. do 2 f_equal.
    apply list_fmap_ext. intros i x Hx. apply list_elem_of_lookup_2 in Hx.
    unfold cb_at. by rewrite Hsame.
  - intros x. rewrite M2, M1. unfold loops. split.
    + intros [[?|[-> Hlp]]|[Hx (u & Hu & ?)]]; [by left| |].
      * right. split; [set_solver|]. by exists t.
      * right. split; [set_solver|]. exists u. by rewrite <-Hsame.
    + intros [?|[Hx (u & Hu & ?)]]; [by left; left|].
      apply elem_of_cons in Hx as [->|Hx].
      * left. right. by simplify_eq.
      * right. split; [done|]. exists u. by rewrite Hsame.
Qed.

(** The clock went back by more than an hour. *)
Definition modified (now : Z) (tm : TimerManager) : bool :=
  (now <? m_previous_time tm) && (now <? u64 (m_previous_time tm - 60 * 60 * 1000)).

(** The timers due at [now], in the order of the set; all of them when the
    clock was set back. *)
Definition due (now : Z) (tm : TimerManager) : list Z :=
  if modified now tm then m_timers tm
  else filter (λ a, next_at (heap tm) a ≤ now) (m_timers tm).

(** The two searches of [getExpiredCbsList] split the set at [now], whatever
    the address of the temporary timer. *)
Lemma split_due now nt h l : on_heap h l → sorted h l →
  let r := lower_bound h (Some (nt, Timer_at now)) l in
  let q := span (λ x, match h !! x with Some t => m_next t =? now | None => false end) r.2 in
  r.1 ++ q.1 = filter (λ a, next_at h a ≤ now) l ∧
  q.2 = filter (λ a, ¬ next_at h a ≤ now) l.
Proof.
  intros Hl S. cbv zeta. unfold lower_bound.
  set (p := λ x, Comparator (ptr h x) (Some (nt, Timer_at now))).
  set (e := λ x, match h !! x with Some t => m_next t =? now | None => false end).
  assert (Hp : ∀ x, x ∈ l → p x = true ↔ next_at h x < now ∨ (next_at h x = now ∧ x < nt)).
  { intros x Hx. destruct (Hl x Hx) as [t Ht]. unfold p, ptr, next_at. rewrite Ht. simpl.
    destruct (Z.ltb_spec (m_next t) now); [intuition lia|].
    destruct (Z.ltb_spec now (m_next t)); [intuition lia|]. rewrite Z.ltb_lt. intuition lia. }
  assert (He : ∀ x, x ∈ l → e x = true ↔ next_at h x = now).
  { intros x Hx. destruct (Hl x Hx) as [t Ht]. unfold e, next_at. rewrite Ht. apply Z.eqb_eq. }
  destruct (span_spec p l) as (_ & E & F1 & _).
  assert (F2 : Forall (λ x, p x = false) (span p l).2).
  { apply (span_sorted h); [done|]. intros a b Ha Hb Hab Hpb. apply Hp in Hpb; [|done].
    apply Hp; [done|]. unfold klt in Hab. lia. }
  destruct (span p l) as [l1 l2]. cbn [fst snd] in *.
  assert (S2 : sorted h l2) by (rewrite E in S; by apply StronglySorted_app_1_r in S).
  destruct (span_spec e l2) as (_ & E2 & G1 & _).
  assert (Hge : ∀ x, x ∈ l2 → now ≤ next_at h x).
  { intros x Hx. rewrite Forall_forall in F2. pose proof (F2 x Hx) as Hf.
    destruct (Z.le_gt_cases now (next_at h x)); [done|].
    rewrite (proj2 (Hp x ltac:(rewrite E; set_solver))) in Hf; [done|]. lia. }
  assert (G2 : Forall (λ x, e x = false) (span e l2).2).
  { apply (span_sorted h); [done|]. intros a b Ha Hb Hab Hpb.
    apply He in Hpb; [|rewrite E; set_solver]. apply He; [rewrite E; set_solver|].
    pose proof (Hge a Ha). unfold klt in Hab. lia. }
  destruct (span e l2) as [l3 l4]. cbn [fst snd] in *. subst l2.
  rewrite Forall_forall in F1, G1, G2.
  assert (H1 : Forall (λ a, next_at h a ≤ now) (l1 ++ l3)).
  { apply Forall_app. split; apply Forall_forall; intros x Hx.
    - assert (p x = true) as Hpx by auto. apply Hp in Hpx; [lia|rewrite E; set_solver].
    - assert (e x = true) as Hpx by auto. apply He in Hpx; [lia|rewrite E; set_solver]. }
  assert (H2 : Forall (λ a, ¬ next_at h a ≤ now) l4).
  { apply Forall_forall. intros x Hx Hle.
    assert (e x = false) as Hex by auto. pose proof (Hge x ltac:(set_solver)).
    rewrite (proj2 (He x ltac:(rewrite E; set_solver))) in Hex; [done|lia]. }
  rewrite E, (assoc_L app), !(filter_app _ (l1 ++ l3) l4).
  rewrite (filter_all _ (l1 ++ l3)), (filter_none _ l4), app_nil_r by done.
  rewrite (filter_none (λ a, ¬ _) (l1 ++ l3)), (filter_all (λ a, ¬ _) l4); [done|done|].
  eapply Forall_impl; [done|]. auto.
Qed.

Lemma due_sub now tm a : a ∈ due now tm → a ∈ m_timers tm.
Proof. unfold due. destruct (modified now tm); [done|]. rewrite list_elem_of_filter. tauto. Qed.

Lemma sorted_filter h (P : Z → Prop) `{!∀ x, Decision (P x)} l : sorted h l → sorted h (filter P l).
Proof.
  induction 1 as [|x l Hl IH Hx]; [constructor|]. rewrite filter_cons.
  case_decide; [|done]. constructor; [done|]. rewrite Forall_forall in *.
  intros y Hy. apply list_elem_of_filter in Hy as [_ Hy]. auto.
Qed.

Lemma due_sorted now tm : inv tm → sorted (heap tm) (due now tm).
Proof. intros I. unfold due. destruct (modified now tm); [apply I|]. apply sorted_filter, I. Qed.

(** Firing keeps the invariant: who fired once is disarmed and out. *)
Lemma fired_inv now tm l n p f : inv tm →
  let h := fired now (due now tm) (heap tm) in
  sorted h l → on_heap h l →
  (∀ a, a ∈ l ↔ (a ∈ m_timers tm ∧ a ∉ due now tm) ∨ (a ∈ due now tm ∧ loops (heap tm) a)) →
  inv (mkTimerManager h l n p f).
Proof.
  intros I h S O Hl. pose proof (sorted_NoDup _ _ (due_sorted now tm I)) as ND.
  split; simpl; try done; intros a t Ha; unfold h in Ha;
    rewrite fired_lookup in Ha by done; case_decide as Hd.
  - apply fmap_Some in Ha as (u & Hu & ->). unfold fire. intros Hcb. apply Hl. right.
    split; [done|]. exists u. split; [done|]. destruct (m_is_loop u); [done|]. by destruct Hcb.
  - intros Hcb. apply Hl. left. split; [|done]. by eapply inv_armed.
  - apply fmap_Some in Ha as (u & Hu & ->). unfold fire.
    destruct (m_is_loop u); simpl; [apply wrapu_range; lia|]. by eapply inv_range.
  - by eapply inv_range.
Qed.

Lemma split_expired_spec now nt tm : inv tm →
  ∃ rest, split_expired now nt (modified now tm) (heap tm) (m_timers tm) = (due now tm, rest) ∧
    sorted (heap tm) rest ∧ ∀ a, a ∈ rest ↔ a ∈ m_timers tm ∧ a ∉ due now tm.
Proof.
  intros I. unfold split_expired, due. destruct (modified now tm).
  - exists []. simpl. rewrite app_nil_r. split; [done|]. split; [constructor|]. set_solver.
  - destruct (split_due now nt (heap tm) (m_timers tm) (inv_heap _ I) (inv_sorted _ I)) as [E1 E2].
    rewrite E1, E2. eexists. split; [done|]. split; [apply sorted_filter, I|].
    intros a. rewrite !list_elem_of_filter. tauto.
Qed.

Lemma getExpiredCbsList_spec now nt tm : inv tm →
  ∃ tm', getExpiredCbsList now nt tm = Ret (cb_at (heap tm) <$> due now tm) tm' ∧
    inv tm' ∧ heap tm' = fired now (due now tm) (heap tm) ∧
    (∀ a, a ∈ m_timers tm' ↔
       (a ∈ m_timers tm ∧ a ∉ due now tm) ∨ (a ∈ due now tm ∧ loops (heap tm) a)) ∧
    m_notified tm' = m_notified tm ∧ front_calls tm' = front_calls tm ∧
    m_previous_time tm' = if decide (m_timers tm = []) then m_previous_time tm else now.
Proof.
  intros I. unfold getExpiredCbsList. mrun. destruct (m_timers tm) as [|first ts] eqn:Et.
  { exists tm. assert (due now tm = []) as ->
      by (unfold due; rewrite Et; by destruct (modified now tm)).
    split_and!; try done. rewrite Et. set_solver. }
  rewrite <-Et. assert (Hd : detectTimeModified now tm = Ret (modified now tm) (set_previous now tm)) by done.
  rewrite (bind_Ret _ _ _ _ _ Hd). destruct (inv_heap _ I first) as [f Hf]; [rewrite Et; set_solver|].
  rewrite (bind_Ret _ _ _ _ _ (get_timer_Some first f (set_previous now tm) Hf)).
  rewrite decide_False by (rewrite Et; done).
  destruct (negb (modified now tm) && (now <? m_next f)) eqn:Early.
  - apply andb_true_iff in Early as [Hm Hlt]. apply negb_true_iff in Hm. apply Z.ltb_lt in Hlt.
    assert (due now tm = []) as Hdue.
    { unfold due. rewrite Hm. apply filter_none. pose proof (inv_sorted _ I) as S. rewrite Et in *.
      apply StronglySorted_inv in S as [_ S]. assert (next_at (heap tm) first = m_next f) as E
        by (unfold next_at; by rewrite Hf).
      constructor; [lia|]. eapply Forall_impl; [done|]. unfold klt. intros x ?. lia. }
    rewrite Hdue. exists (set_previous now tm). split_and!; try done; [|set_solver].
    by destruct I.
  - clear Early. mrun. cbn [set_previous heap m_timers].
    destruct (split_expired_spec now nt tm I) as (rest & E & Hs & Hr).
    rewrite E. mrun. set (tm1 := set_timers (heap tm) rest (set_previous now tm)).
    destruct (fire_loop_spec now (due now tm) tm1) as (l & R & S & O & Hl).
    { eapply sorted_NoDup. by apply due_sorted. }
    { intros a Ha. simpl. rewrite Hr. tauto. }
    { intros a Ha. apply (inv_heap _ I). by eapply due_sub. }
    { intros a Ha. apply Hr in Ha as [Ha _]. by apply (inv_heap _ I). }
    { done. }
    simpl in *. assert (Hmem : ∀ a, a ∈ l ↔ (a ∈ m_timers tm ∧ a ∉ due now tm) ∨
        (a ∈ due now tm ∧ loops (heap tm) a)) by (intros a; by rewrite Hl, Hr).
    unfold mbind'. mend. rewrite R. eexists. split; [done|]. split_and!; try done.
    by apply fired_inv.
Qed.

