(* ===== verification/TimerSpec.v ===== *)
(** * What the timers promise

    Runs of the timer manager as a step relation over its public operations,
    with the clock and the addresses chosen by the environment: no operation
    ever erases [end()], expiry is exact, a cancelled timer never fires, and
    no operation brings a deadline before the one a thread sleeps to without a
    call of [onTimerInsertAtFront]. *)

From stdpp Require Import sorting.
From S2P Require Import Prelude Timer.
#[local] Open Scope Z_scope.

(** One call of a public operation. *)
Inductive top :=
| TAdd (now a ms : Z) (cb : option callback) (is_loop : bool)
| TAddCondition (now a ms : Z) (cb : option callback) (weak_cond : Z) (is_loop : bool)
| TCancel (a : Z)
| TRefresh (now a : Z)
| TReset (now a ms : Z) (from_now : bool)
| TNext (now : Z)
| TExpired (now nt : Z)
| TRelease (a : Z).

Inductive tout :=
| OUnit | OTimer (a : Z) | OBool (b : bool) | OMs (ms : Z) | OCbs (cbs : list (option callback)).

Definition texec (o : top) : M TimerManager tout :=
  match o with
  | TAdd now a ms cb is_loop => r <- addTimer now a ms cb is_loop;; mreturn (OTimer r)
  | TAddCondition now a ms cb wc is_loop =>
      r <- addConditionTimer now a ms cb wc is_loop;; mreturn (OTimer r)
  | TCancel a => b <- cancel a;; mreturn (OBool b)
  | TRefresh now a => b <- refresh now a;; mreturn (OBool b)
  | TReset now a ms from_now => b <- reset now a ms from_now;; mreturn (OBool b)
  | TNext now => ms <- getNextTimerTimeMs now;; mreturn (OMs ms)
  | TExpired now nt => cbs <- getExpiredCbsList now nt;; mreturn (OCbs cbs)
  | TRelease a => release a;; mreturn OUnit
  end.

(** [new] returns an unused address, a caller of a method holds a pointer to
    its timer, only timers outside the set lose their last pointer. *)
Definition top_ok (tm : TimerManager) (o : top) : Prop :=
  match o with
  | TAdd _ a _ _ _ | TAddCondition _ a _ _ _ _ => heap tm !! a = None
  | TCancel a | TRefresh _ a | TReset _ a _ _ => is_Some (heap tm !! a)
  | TNext _ | TExpired _ _ => True
  | TRelease a => a ∉ m_timers tm
  end.

Inductive tstep (tm : TimerManager) (o : top) (tm' : TimerManager) : Prop :=
| tstep_intro r : top_ok tm o → texec o tm = Ret r tm' → tstep tm o tm'.

Inductive reach : TimerManager → Prop :=
| reach_init now : reach (TimerManager_new now)
| reach_step tm o tm' : reach tm → tstep tm o tm' → reach tm'.

(** ** The remaining two operations *)

Lemma getNext_spec now tm : inv tm →
  getNextTimerTimeMs now tm = Ret
    (match m_timers tm with
     | [] => 2 ^ 64 - 1
     | a :: _ => if next_at (heap tm) a <=? now then 0 else u64 (next_at (heap tm) a - now)
     end) (set_notified false tm) ∧ inv (set_notified false tm).
Proof.
  intros I. split; [|by destruct I]. unfold getNextTimerTimeMs. mrun. cbn [set_notified m_timers].
  destruct (m_timers tm) as [|a l] eqn:E; [done|].
  destruct (inv_heap _ I a) as [t Ht]; [rewrite E; set_solver|].
  unfold next_at. rewrite Ht. by mstep (get_timer_Some a t (set_notified false tm) Ht).
Qed.

Lemma release_inv a tm : inv tm → a ∉ m_timers tm →
  inv (set_timers (delete a (heap tm)) (m_timers tm) tm).
Proof.
  intros I Ha. assert (Hne : ∀ x, x ∈ m_timers tm → delete a (heap tm) !! x = heap tm !! x)
    by (intros x Hx; apply lookup_delete_ne; set_solver).
  split; simpl.
  - intros x Hx. rewrite Hne by done. by apply (inv_heap _ I).
  - eapply sorted_ext; [|apply I]. intros x Hx. unfold next_at. by rewrite Hne.
  - intros x t Hx. apply lookup_delete_Some in Hx as [_ Hx]. by apply (inv_armed _ I).
  - intros x t Hx. apply lookup_delete_Some in Hx as [_ Hx]. by eapply inv_range.
Qed.

(** Every operation returns, and keeps the invariant. *)
Lemma texec_inv tm o : inv tm → top_ok tm o → ∃ r tm', texec o tm = Ret r tm' ∧ inv tm'.
Proof.
  intros I Hok. destruct o as [now a ms cb lp|now a ms cb wc lp|a|now a|now a ms fn|now|now nt|a];
    simpl in Hok |- *.
  - destruct (addTimer_spec now a ms cb lp tm I Hok) as (l1 & l2 & _ & R & I').
    mstep R. eauto.
  - unfold addConditionTimer. set (c := Some _).
    destruct (addTimer_spec now a ms c lp tm I Hok) as (l1 & l2 & _ & R & I'). mstep R. eauto.
  - destruct Hok as [t Ht]. pose proof (cancel_spec a t tm I Ht) as R.
    destruct (m_cb t); [destruct R as (? & ? & _ & _ & R & ?)|]; mstep R; eauto.
  - destruct Hok as [t Ht]. pose proof (refresh_spec now a t tm I Ht) as R.
    destruct (m_cb t); [destruct R as (? & ? & ? & ? & _ & _ & _ & R & ?)|]; mstep R; eauto.
  - destruct Hok as [t Ht]. pose proof (reset_spec now a ms fn t tm I Ht) as R.
    destruct ((ms =? m_ms t) && negb fn); [mstep R; eauto|].
    destruct (m_cb t); [destruct R as (? & ? & ? & ? & _ & _ & _ & R & ?)|]; mstep R; eauto.
  - destruct (getNext_spec now tm I) as [R I']. mstep R. eauto.
  - destruct (getExpiredCbsList_spec now nt tm I) as (tm' & R & I' & _). mstep R. eauto.
  - eexists _, _. split; [done|]. by apply release_inv.
Qed.

Lemma reach_inv tm : reach tm → inv tm.
Proof.
  induction 1 as [now|tm o tm' _ IH [r Hok E]]; [apply TimerManager_new_inv|].
  destruct (texec_inv tm o IH Hok) as (r' & tm'' & E' & I'). rewrite E in E'. by simplify_eq.
Qed.

(** A manager with a one-shot timer due at 1005 and a looping one at 1100. *)
Definition run_op (o : top) (tm : TimerManager) : TimerManager :=
  match texec o tm with Ret _ tm' => tm' | _ => tm end.
Definition demo : TimerManager :=
  run_op (TAdd 1000 16 100 (Some (Plain 1)) true)
    (run_op (TAdd 1000 32 5 (Some (Plain 2)) false) (TimerManager_new 1000)).

Lemma reach_run_op o tm : reach tm → top_ok tm o → reach (run_op o tm).
Proof.
  intros R Hok. destruct (texec_inv tm o (reach_inv tm R) Hok) as (r & tm' & E & _).
  unfold run_op. rewrite E. by eapply reach_step; [|econstructor].
Qed.

Lemma demo_reach : reach demo.
Proof. repeat apply reach_run_op; [constructor|reflexivity|reflexivity]. Qed.

(** From its construction on, whatever timers are added, cancelled,
    refreshed, reset and expired in whatever order, at whatever clock readings
    and addresses, every operation returns normally (in particular the
    unchecked [m_timers.erase(it)] of [Timer::cancel] never erases [end()]), and the
    set stays sorted by deadline and address, holding every armed timer. *)
Theorem timer_operations_safe tm o :
  reach tm → top_ok tm o → ∃ r tm', texec o tm = Ret r tm' ∧ inv tm'.
Proof. intros R Hok. apply texec_inv; [by apply reach_inv|done]. Qed.

Lemma timer_operations_safe_witness :
  ∃ r tm', texec (TCancel 32) demo = Ret r tm' ∧ inv tm'.
Proof. apply timer_operations_safe; [apply demo_reach|by eexists]. Defined.

(** C33: Without a clock set back, [getExpiredCbsList] hands out exactly the callbacks
    of the timers whose deadline has come, in deadline order, independently of
    the address its temporary [now_timer] gets; one-shot timers among them are disarmed and leave the
    set, looping ones are armed again a period from now, all others are
    untouched. With a clock set back by more than an hour everything
    expires. *)
Theorem expiry_exact tm now nt :
  reach tm →
  let expired := if modified now tm then m_timers tm
                 else filter (λ a, next_at (heap tm) a ≤ now) (m_timers tm) in
  ∃ tm', getExpiredCbsList now nt tm = Ret (cb_at (heap tm) <$> expired) tm' ∧
    sorted (heap tm) expired ∧
    (∀ a t, heap tm !! a = Some t →
       heap tm' !! a = Some (if decide (a ∈ expired) then
         if m_is_loop t then mkTimer (m_cb t) true (m_ms t) (u64 (now + m_ms t))
         else mkTimer None false (m_ms t) (m_next t) else t)) ∧
    (∀ a t, heap tm !! a = Some t →
       (a ∈ m_timers tm' ↔ a ∈ m_timers tm ∧ (a ∉ expired ∨ m_is_loop t = true))).
Proof.
  intros R expired. pose proof (reach_inv tm R) as I. fold (due now tm) in expired. subst expired.
  destruct (getExpiredCbsList_spec now nt tm I) as (tm' & E & _ & Hh & Hm & _).
  pose proof (due_sorted now tm I) as S. exists tm'. split; [done|]. split; [done|]. split.
  - intros a t Ha. rewrite Hh, fired_lookup by (by eapply sorted_NoDup). rewrite Ha.
    case_decide; [|done]. simpl. unfold fire. by destruct (m_is_loop t).
  - intros a t Ha. rewrite Hm. pose proof (due_sub now tm a). unfold loops.
    rewrite Ha. split; [|].
    + intros [[? ?]|[Hd (u & [= <-] & ?)]]; auto.
    + intros [? [?|?]]; [by left|]. destruct (decide (a ∈ due now tm)); [|by left].
      right. split; [done|]. by exists t.
Qed.

Lemma expiry_exact_witness :
  let tm := demo in
  let expired := if modified 2000 tm then m_timers tm
                 else filter (λ a, next_at (heap tm) a ≤ 2000) (m_timers tm) in
  ∃ tm', getExpiredCbsList 2000 16 tm = Ret (cb_at (heap tm) <$> expired) tm' ∧
    sorted (heap tm) expired ∧
    (∀ a t, heap tm !! a = Some t →
       heap tm' !! a = Some (if decide (a ∈ expired) then
         if m_is_loop t then mkTimer (m_cb t) true (m_ms t) (u64 (2000 + m_ms t))
         else mkTimer None false (m_ms t) (m_next t) else t)) ∧
    (∀ a t, heap tm !! a = Some t →
       (a ∈ m_timers tm' ↔ a ∈ m_timers tm ∧ (a ∉ expired ∨ m_is_loop t = true))).
Proof. apply expiry_exact, demo_reach. Defined.

(** ** Cancellation *)

(** The timer at [a] is disarmed and not in the set. *)
Definition quiet (a : Z) (tm : TimerManager) : Prop :=
  (∃ t, heap tm !! a = Some t ∧ m_cb t = None) ∧ a ∉ m_timers tm.

(** Steps during which the caller keeps its pointer to [a]. *)
Definition holding_step (a : Z) (tm tm' : TimerManager) : Prop :=
  ∃ o, o ≠ TRelease a ∧ tstep tm o tm'.

Lemma quiet_insert a b t l1 l2 tm n p f : quiet a tm → a ≠ b → (∀ x, x ∈ l1 ++ l2 → x ∈ m_timers tm) →
  quiet a (mkTimerManager (<[b := t]> (heap tm)) (l1 ++ b :: l2) n p f).
Proof.
  intros [Hq Hn] Hne Hsub. split; simpl.
  - by rewrite lookup_insert_ne by done.
  - intros Hin. apply Hn, Hsub. set_solver.
Qed.

Lemma quiet_step a tm tm' : inv tm → quiet a tm → holding_step a tm tm' → quiet a tm'.
Proof.
  intros I Q (o & Hne & [r Hok E]). pose proof Q as [(t & Ht & Hcb) Hn].
  assert (Hadd : ∀ now b ms cb lp r, heap tm !! b = None →
            addTimer now b ms cb lp tm = Ret r tm' → quiet a tm').
  { intros now b ms cb lp r' Hb R. destruct (addTimer_spec now b ms cb lp tm I Hb) as (l1 & l2 & El & R' & _).
    rewrite R in R'. simplify_eq. apply quiet_insert; [done|intros ->; congruence|]. rewrite El. auto. }
  destruct o as [now b ms cb lp|now b ms cb wc lp|b|now b|now b ms fn|now|now nt|b];
    simpl in Hok, E; unfold mbind', mreturn in E.
  - destruct (addTimer now b ms cb lp tm) eqn:R; simplify_eq. by eapply Hadd.
  - destruct (addConditionTimer now b ms cb wc lp tm) eqn:R; simplify_eq. by eapply Hadd.
  - destruct Hok as [u Hu]. pose proof (cancel_spec b u tm I Hu) as R.
    destruct (m_cb u) eqn:Hc; [|by rewrite R in E; simplify_eq].
    destruct R as (l1 & l2 & El & _ & R & _). rewrite R in E. simplify_eq.
    assert (a ≠ b) by (intros ->; congruence). split; simpl.
    + exists t. by rewrite lookup_insert_ne by done.
    + rewrite El in Hn. set_solver.
  - destruct Hok as [u Hu]. pose proof (refresh_spec now b u tm I Hu) as R.
    destruct (m_cb u) eqn:Hc; [|by rewrite R in E; simplify_eq].
    destruct R as (l1 & l2 & k1 & k2 & El & _ & Ek & R & _). rewrite R in E. simplify_eq.
    apply quiet_insert; [done|intros ->; congruence|]. rewrite <-Ek, El. set_solver.
  - destruct Hok as [u Hu]. pose proof (reset_spec now b ms fn u tm I Hu) as R.
    destruct ((ms =? m_ms u) && negb fn); [by rewrite R in E; simplify_eq|].
    destruct (m_cb u) eqn:Hc; [|by rewrite R in E; simplify_eq].
    destruct R as (l1 & l2 & k1 & k2 & El & _ & Ek & R & _). rewrite R in E. simplify_eq.
    apply quiet_insert; [done|intros ->; congruence|]. rewrite <-Ek, El. set_solver.
  - destruct (getNext_spec now tm I) as [R _]. rewrite R in E. by simplify_eq.
  - destruct (getExpiredCbsList_spec now nt tm I) as (tm1 & R & _ & Hh & Hm & _).
    rewrite R in E. simplify_eq. pose proof (due_sub now tm a) as Hd. split.
    + exists t. rewrite Hh, fired_lookup by (by eapply sorted_NoDup, due_sorted).
      by rewrite decide_False by tauto.
    + rewrite Hm. tauto.
  - unfold release, mmodify in E. simplify_eq. split; simpl; [|done]. exists t.
    rewrite lookup_delete_ne by congruence. done.
Qed.

Lemma quiet_rtc a tm tm' : reach tm → quiet a tm → rtc (holding_step a) tm tm' → reach tm' ∧ quiet a tm'.
Proof.
  intros R Q Hs. revert R Q. induction Hs as [|tm tm1 tm2 H1 _ IH]; [done|]. intros R Q. apply IH.
  - destruct H1 as (o & _ & Hstep). by eapply reach_step.
  - by eapply quiet_step; [apply reach_inv| |].
Qed.

(** A timer whose [cancel()] returned true never fires again: in every
    later state it is disarmed and not in the set, it is not among the timers any
    [getExpiredCbsList] call would expire, and [cancel], [refresh] and
    any [reset] that changes something return false without touching the manager. *)
Theorem cancelled_never_fires tm a tm1 tm2 now :
  reach tm → is_Some (heap tm !! a) → cancel a tm = Ret true tm1 →
  rtc (holding_step a) tm1 tm2 →
  a ∉ due now tm2 ∧ cancel a tm2 = Ret false tm2 ∧ refresh now a tm2 = Ret false tm2 ∧
  ∀ ms, reset now a ms true tm2 = Ret false tm2.
Proof.
  intros R [t Ht] E Hs. pose proof (reach_inv tm R) as I.
  assert (Q : reach tm1 ∧ quiet a tm1).
  { split.
    - eapply (reach_step _ (TCancel a)); [done|]. econstructor; [by eexists|].
      simpl. by mstep E.
    - pose proof (cancel_spec a t tm I Ht) as C. destruct (m_cb t).
      + destruct C as (l1 & l2 & El & Hn & C & _). rewrite E in C. simplify_eq. split; [|done].
        eexists. simpl. by rewrite lookup_insert_eq.
      + rewrite E in C. by simplify_eq. }
  destruct (quiet_rtc a tm1 tm2) as [R2 [(u & Hu & Hc) Hn]]; [tauto..|done|].
  pose proof (reach_inv tm2 R2) as I2. split_and!.
  - intros Hd. by apply due_sub in Hd.
  - pose proof (cancel_spec a u tm2 I2 Hu) as C. by rewrite Hc in C.
  - pose proof (refresh_spec now a u tm2 I2 Hu) as C. by rewrite Hc in C.
  - intros ms. pose proof (reset_spec now a ms true u tm2 I2 Hu) as C. rewrite Hc in C.
    by rewrite andb_false_r in C.
Qed.

Lemma cancelled_never_fires_witness :
  32 ∉ due 9999 (run_op (TCancel 32) demo) ∧
  cancel 32 (run_op (TCancel 32) demo) = Ret false (run_op (TCancel 32) demo) ∧
  refresh 9999 32 (run_op (TCancel 32) demo) = Ret false (run_op (TCancel 32) demo) ∧
  ∀ ms, reset 9999 32 ms true (run_op (TCancel 32) demo) = Ret false (run_op (TCancel 32) demo).
Proof.
  eapply (cancelled_never_fires demo 32 _ _ 9999); [apply demo_reach|by eexists| |apply rtc_refl].
  reflexivity.
Defined.

(** ** Sleeping until the next deadline *)

(** [getNextTimerTimeMs] returns the time to the earliest deadline (0 when
    it has passed, 2^64-1 without timers), and a thread that sleeps that long
    finds at least one expired timer, the earliest. *)
Theorem next_timer_time tm now :
  reach tm → urange 64 now →
  ∃ ms, getNextTimerTimeMs now tm = Ret ms (set_notified false tm) ∧
    (m_timers tm = [] → ms = 2 ^ 64 - 1) ∧
    (∀ a, a ∈ m_timers tm → ms ≤ Z.max 0 (next_at (heap tm) a - now)) ∧
    (m_timers tm ≠ [] → ∃ a, a ∈ m_timers tm ∧ ms = Z.max 0 (next_at (heap tm) a - now) ∧
       a ∈ due (now + ms) (set_notified false tm)).
Proof.
  intros R Hnow. pose proof (reach_inv tm R) as I. destruct (getNext_spec now tm I) as [E _].
  eexists. split; [done|]. pose proof (inv_sorted _ I) as S.
  destruct (m_timers tm) as [|a l] eqn:Et; [set_solver|].
  destruct (inv_heap _ I a) as [t Ht]; [rewrite Et; set_solver|].
  pose proof (inv_range _ I a t Ht) as Hr. assert (Hna : next_at (heap tm) a = m_next t)
    by (unfold next_at; by rewrite Ht).
  set (ms := if next_at (heap tm) a <=? now then 0 else u64 (next_at (heap tm) a - now)).
  unfold urange in Hr, Hnow.
  assert (Hms : ms = Z.max 0 (next_at (heap tm) a - now)).
  { unfold ms. destruct (Z.leb_spec (next_at (heap tm) a) now); [lia|].
    rewrite wrapu_small by (unfold urange; lia). lia. }
  apply StronglySorted_inv in S as [_ S]. rewrite Forall_forall in S.
  assert (Hmin : ∀ b, b ∈ a :: l → next_at (heap tm) a ≤ next_at (heap tm) b).
  { intros b Hb. apply elem_of_cons in Hb as [->|Hb]; [lia|]. apply S in Hb. unfold klt in Hb. lia. }
  split; [done|]. split.
  - intros b Hb. apply Hmin in Hb. lia.
  - intros _. exists a. split; [set_solver|]. split; [done|]. unfold due.
    cbn [set_notified m_timers heap]. rewrite Et. destruct (modified _ _); [set_solver|].
    apply list_elem_of_filter. split; [lia|set_solver].
Qed.

Lemma next_timer_time_witness :
  ∃ ms, getNextTimerTimeMs 1002 demo = Ret ms (set_notified false demo) ∧
    (m_timers demo = [] → ms = 2 ^ 64 - 1) ∧
    (∀ a, a ∈ m_timers demo → ms ≤ Z.max 0 (next_at (heap demo) a - 1002)) ∧
    (m_timers demo ≠ [] → ∃ a, a ∈ m_timers demo ∧ ms = Z.max 0 (next_at (heap demo) a - 1002) ∧
       a ∈ due (1002 + ms) (set_notified false demo)).
Proof. apply next_timer_time; [apply demo_reach|done]. Defined.

(** *** Deadlines while a thread sleeps

    Operations under a clock that does not go back, with deadlines below 2^64.
    [g] is the deadline the last caller of [getNextTimerTimeMs] sleeps to. *)

Definition op_now (o : top) : option Z :=
  match o with
  | TAdd now _ _ _ _ | TAddCondition now _ _ _ _ _ | TRefresh now _ | TReset now _ _ _
  | TNext now | TExpired now _ => Some now
  | TCancel _ | TRelease _ => None
  end.

Definition tick (clock : Z) (o : top) : Z := default clock (op_now o).

Definition in_time (clock : Z) (tm : TimerManager) (o : top) : Prop :=
  clock ≤ tick clock o ∧
  (∀ a t, heap tm !! a = Some t → tick clock o + m_ms t < 2 ^ 64) ∧
  match o with
  | TAdd now _ ms _ _ | TAddCondition now _ ms _ _ _ | TReset now _ ms _ => 0 ≤ ms ∧ now + ms < 2 ^ 64
  | _ => True
  end.

Definition sleep_until (g : Z) (tm : TimerManager) (o : top) : Z :=
  match o with
  | TNext _ => match m_timers tm with [] => 2 ^ 64 - 1 | a :: _ => next_at (heap tm) a end
  | _ => g
  end.

(** The start of each timer's current period lies in the past. *)
Definition started (clock : Z) (h : gmap Z Timer) : Prop :=
  ∀ a t, h !! a = Some t → 0 ≤ m_ms t ∧ 0 ≤ m_next t - m_ms t ≤ clock.

Record watch_inv (clock g : Z) (tm : TimerManager) : Prop := {
  w_inv : inv tm;
  w_clock : 0 ≤ clock;
  w_started : started clock (heap tm);
  w_prev : m_previous_time tm ≤ clock;
  w_wake : m_notified tm = false → ∀ a, a ∈ m_timers tm → g ≤ next_at (heap tm) a;
}.

Lemma started_insert clock clock' h a t : clock ≤ clock' → started clock h → 0 ≤ m_ms t →
  0 ≤ m_next t - m_ms t ≤ clock' → started clock' (<[a:=t]> h).
Proof.
  intros Hc Hs Hm Ht x u Hx. apply lookup_insert_Some in Hx as [[<- <-]|[_ Hx]]; [done|].
  apply Hs in Hx. lia.
Qed.

(** A timer inserted behind others has a deadline not before theirs. *)
Lemma wake_insert clock g tm a t l1 l2 : sorted (<[a:=t]> (heap tm)) (l1 ++ a :: l2) →
  a ∉ l1 ++ l2 → (∀ x, x ∈ l1 ++ l2 → x ∈ m_timers tm) → watch_inv clock g tm →
  (if bool_decide (l1 = []) && negb (m_notified tm) then true else m_notified tm) = false →
  ∀ x, x ∈ l1 ++ a :: l2 → g ≤ next_at (<[a:=t]> (heap tm)) x.
Proof.
  intros S Hn Hsub W Hk. destruct (m_notified tm) eqn:En; [by rewrite andb_false_r in Hk|].
  destruct l1 as [|y l1]; [done|]. simpl in Hk.
  assert (Hold : ∀ x, x ∈ (y :: l1) ++ l2 → g ≤ next_at (<[a:=t]> (heap tm)) x).
  { intros x Hx. rewrite next_at_insert_ne by set_solver. apply (w_wake _ _ _ W); auto. }
  intros x Hx. destruct (decide (x = a)) as [->|]; [|apply Hold; set_solver].
  assert (klt (<[a:=t]> (heap tm)) y a) as Hlt
    by (eapply StronglySorted_app_1_elem_of; [done|set_solver|set_solver]).
  pose proof (Hold y ltac:(set_solver)). unfold klt in Hlt. lia.
Qed.

Lemma watch_add clock g tm now a ms cb lp r tm' : watch_inv clock g tm →
  clock ≤ now → 0 ≤ ms → now + ms < 2 ^ 64 → heap tm !! a = None →
  addTimer now a ms cb lp tm = Ret r tm' → watch_inv now g tm'.
Proof.
  intros W Hc Hms Hb Ha R. pose proof (w_inv _ _ _ W) as I. pose proof (w_clock _ _ _ W).
  destruct (addTimer_spec now a ms cb lp tm I Ha) as (l1 & l2 & El & R' & I'). cbv zeta in R'.
  rewrite R in R'. simplify_eq. assert (Hn : a ∉ l1 ++ l2).
  { rewrite <-El. intros Hin. apply (inv_heap _ I) in Hin. rewrite Ha in Hin. by destruct Hin. }
  split; simpl; try done; [lia| |pose proof (w_prev _ _ _ W); lia|].
  - apply (started_insert clock); simpl; try done; [apply W|].
    rewrite wrapu_small by (unfold urange; lia). lia.
  - intros Hk x Hx.
    eapply (wake_insert clock g tm); [apply I'|done|by rewrite <-El|done|exact Hk|exact Hx].
Qed.

Lemma watch_refresh clock g tm now a r tm' : watch_inv clock g tm → clock ≤ now →
  (∀ b t, heap tm !! b = Some t → now + m_ms t < 2 ^ 64) → is_Some (heap tm !! a) →
  refresh now a tm = Ret r tm' → watch_inv now g tm'.
Proof.
  intros W Hc Hb [t Ht] R. pose proof (w_inv _ _ _ W) as I. pose proof (w_clock _ _ _ W).
  pose proof (w_started _ _ _ W a t Ht) as [Hm Hst]. pose proof (w_prev _ _ _ W).
  pose proof (refresh_spec now a t tm I Ht) as S. destruct (m_cb t) eqn:Ecb.
  - destruct S as (l1 & l2 & k1 & k2 & El & Hn & Ek & R' & I'). cbv zeta in R'.
    rewrite R in R'. simplify_eq. specialize (Hb a t Ht).
    split; simpl; try done; [lia| |lia|].
    + apply (started_insert clock); simpl; try done; [apply W|].
      rewrite wrapu_small by (unfold urange; lia). lia.
    + intros Hk x Hx. destruct (decide (x = a)) as [->|].
      * rewrite next_at_insert. simpl. rewrite wrapu_small by (unfold urange; lia).
        assert (g ≤ next_at (heap tm) a) as Hg by (apply (w_wake _ _ _ W); [done|rewrite El; set_solver]).
        unfold next_at in Hg. rewrite Ht in Hg. lia.
      * rewrite next_at_insert_ne by done. apply (w_wake _ _ _ W); [done|].
        assert (x ∈ k1 ++ k2) as Hxk by set_solver. rewrite <-Ek in Hxk. rewrite El. set_solver.
  - rewrite R in S. simplify_eq. split; try done; [lia| |lia|apply W].
    intros x u Hx. apply (w_started _ _ _ W) in Hx. lia.
Qed.

Lemma watch_reset clock g tm now a ms fn r tm' : watch_inv clock g tm → clock ≤ now →
  0 ≤ ms → now + ms < 2 ^ 64 → is_Some (heap tm !! a) →
  reset now a ms fn tm = Ret r tm' → watch_inv now g tm'.
Proof.
  intros W Hc Hms Hb [t Ht] R. pose proof (w_inv _ _ _ W) as I. pose proof (w_clock _ _ _ W).
  pose proof (w_started _ _ _ W a t Ht) as [Hm Hst]. pose proof (w_prev _ _ _ W).
  assert (Hsame : watch_inv now g tm).
  { split; try done; [lia| |lia|apply W]. intros x u Hx. apply (w_started _ _ _ W) in Hx. lia. }
  pose proof (reset_spec now a ms fn t tm I Ht) as S.
  destruct ((ms =? m_ms t) && negb fn); [rewrite R in S; by simplify_eq|].
  destruct (m_cb t) eqn:Ecb; [|rewrite R in S; by simplify_eq].
  destruct S as (l1 & l2 & k1 & k2 & El & Hn & Ek & R' & I'). cbv zeta in R'.
  rewrite R in R'. simplify_eq.
  assert (Hstart : 0 ≤ (if fn then now else u64 (m_next t - m_ms t)) ≤ now).
  { pose proof (inv_range _ I a t Ht) as Hr. unfold urange in Hr.
    destruct fn; [lia|]. rewrite wrapu_small by (unfold urange; lia). lia. }
  split; simpl; try done; [lia| |lia|].
  - apply (started_insert clock); simpl; try done; [apply W|].
    rewrite wrapu_small by (unfold urange; lia). lia.
  - intros Hk x Hx. eapply (wake_insert clock g tm);
      [apply I'|by rewrite <-Ek| |done|exact Hk|exact Hx].
    intros y Hy. rewrite <-Ek in Hy. rewrite El. set_solver.
Qed.

Lemma watch_expired clock g tm now nt r tm' : watch_inv clock g tm → clock ≤ now →
  (∀ b t, heap tm !! b = Some t → now + m_ms t < 2 ^ 64) →
  getExpiredCbsList now nt tm = Ret r tm' → watch_inv now g tm'.
Proof.
  intros W Hc Hb R. pose proof (w_inv _ _ _ W) as I. pose proof (w_clock _ _ _ W).
  destruct (getExpiredCbsList_spec now nt tm I) as (tm1 & R' & I' & Hh & Hmem & Hn & _ & Hp).
  rewrite R in R'. simplify_eq. pose proof (sorted_NoDup _ _ (due_sorted now tm I)) as ND.
  pose proof (w_prev _ _ _ W). assert (Hmod : modified now tm = false).
  { unfold modified. destruct (Z.ltb_spec now (m_previous_time tm)); [lia|done]. }
  assert (Hnew : ∀ x t, heap tm !! x = Some t → x ∈ due now tm → m_is_loop t = true →
            m_next (fire now t) = now + m_ms t).
  { intros x t Hx _ Hlp. unfold fire. rewrite Hlp. simpl. specialize (Hb x t Hx).
    apply (w_started _ _ _ W) in Hx. apply wrapu_small; [lia|]. unfold urange. lia. }
  split; try done; [lia| |destruct (decide _); lia|].
  - rewrite Hh. intros x u Hx. rewrite fired_lookup in Hx by done. case_decide as Hd.
    + apply fmap_Some in Hx as (t & Hx & ->). pose proof (w_started _ _ _ W x t Hx).
      destruct (m_is_loop t) eqn:Hlp.
      * rewrite (Hnew x) by done. unfold fire. rewrite Hlp. simpl. lia.
      * unfold fire. rewrite Hlp. simpl. lia.
    + apply (w_started _ _ _ W) in Hx. lia.
  - rewrite Hn. intros Hk x Hx. apply Hmem in Hx.
    assert (Hin : x ∈ m_timers tm) by (destruct Hx as [[? _]|[? _]]; [done|by eapply due_sub]).
    pose proof (w_wake _ _ _ W Hk x Hin) as Hg. destruct (inv_heap _ I x Hin) as [t Ht].
    unfold next_at in Hg |- *. rewrite Hh, fired_lookup by done. rewrite Ht in Hg |- *.
    destruct (decide (x ∈ due now tm)) as [Hd|Hd]; [|done].
    destruct Hx as [[_ ?]|[_ (u & Hu & Hlp)]]; [done|]. simplify_eq. simpl.
    rewrite (Hnew x) by done. unfold due in Hd. rewrite Hmod in Hd.
    apply list_elem_of_filter in Hd as [Hle _]. unfold next_at in Hle. rewrite Hu in Hle.
    apply (w_started _ _ _ W) in Hu. lia.
Qed.

Lemma watch_step clock g tm o tm' : watch_inv clock g tm → in_time clock tm o → tstep tm o tm' →
  watch_inv (tick clock o) (sleep_until g tm o) tm'.
Proof.
  intros W (Hc & Hb & Hms) [r Hok E]. pose proof (w_inv _ _ _ W) as I.
  assert (I' : inv tm') by (destruct (texec_inv tm o I Hok) as (? & ? & E' & ?);
    rewrite E in E'; by simplify_eq).
  pose proof (w_prev _ _ _ W). pose proof (w_clock _ _ _ W).
  destruct o as [now a ms cb lp|now a ms cb wc lp|a|now a|now a ms fn|now|now nt|a];
    unfold tick, op_now in Hc, Hb |- *; simpl in Hok, E, Hc, Hb, Hms |- *;
    unfold mbind', mreturn in E.
  - destruct (addTimer now a ms cb lp tm) eqn:R; simplify_eq. destruct Hms. by eapply watch_add; [exact W|..|exact R].
  - destruct (addConditionTimer now a ms cb wc lp tm) eqn:R; simplify_eq. destruct Hms. by eapply watch_add; [exact W|..|exact R].
  - destruct Hok as [t Ht]. pose proof (cancel_spec a t tm I Ht) as R. destruct (m_cb t) eqn:Ecb.
    + destruct R as (l1 & l2 & El & Hn & R & _). rewrite R in E. simplify_eq.
      pose proof (w_started _ _ _ W a t Ht).
      split; simpl; try done.
      * apply (started_insert clock); simpl; try done; try lia. apply W.
      * intros Hk x Hx. rewrite next_at_with_cb by done. apply (w_wake _ _ _ W); [done|].
        rewrite El. set_solver.
    + rewrite R in E. by simplify_eq.
  - destruct (refresh now a tm) eqn:R; simplify_eq. by eapply watch_refresh; [exact W|..|exact R].
  - destruct (reset now a ms fn tm) eqn:R; simplify_eq. destruct Hms. by eapply watch_reset; [exact W|..|exact R].
  - destruct (getNext_spec now tm I) as [R _]. rewrite R in E. simplify_eq.
    split; simpl; try done; [lia| |lia|].
    + intros x u Hx. apply (w_started _ _ _ W) in Hx. lia.
    + intros _ x Hx. pose proof (inv_sorted _ I) as S. destruct (m_timers tm) as [|y l]; [set_solver|].
      apply StronglySorted_inv in S as [_ S]. rewrite Forall_forall in S.
      apply elem_of_cons in Hx as [->|Hx]; [lia|]. apply S in Hx. unfold klt in Hx. lia.
  - destruct (getExpiredCbsList now nt tm) eqn:R; simplify_eq. by eapply watch_expired; [exact W|..|exact R].
  - unfold release, mmodify in E. simplify_eq. split; simpl; try done.
    + intros x u Hx. apply lookup_delete_Some in Hx as [_ Hx]. by apply (w_started _ _ _ W) in Hx.
    + intros Hk x Hx. unfold next_at. rewrite lookup_delete_ne by set_solver.
      by apply (w_wake _ _ _ W).
Qed.
