(* ===== verification/TimerUse.v ===== *)
(** * What the users of the timers rely on

    The hooks give callbacks to timers nobody else has a pointer to. What
    then happens to such a timer, whatever others do with theirs, is shared by
    [HookWaitSpec] and [HookSleepSpec]. *)

From S2P Require Import Prelude Timer TimerSpec.
#[local] Open Scope Z_scope.

(** A callback that calls the user callback [id]. *)
Fixpoint mentions (id : Z) (cb : callback) : bool :=
  match cb with
  | Plain id' => id' =? id
  | OnTimer _ cb => mentions id cb
  | OnTimerEmpty _ => false
  end.
Definition may_fire (id : Z) (cb : option callback) : bool :=
  match cb with Some cb => mentions id cb | None => false end.

Lemma call_Ran al cb ids : call al cb = Ran ids → ∀ id, id ∈ ids → mentions id cb = true.
Proof.
  revert ids. induction cb as [id|wc cb IH|wc]; simpl; intros ids.
  - intros [= <-] id' ->%list_elem_of_singleton. apply Z.eqb_refl.
  - destruct (al wc); [apply IH|intros [= <-] ? []%elem_of_nil].
  - destruct (al wc); [done|intros [= <-] ? []%elem_of_nil].
Qed.

(** The timer an operation is about, and the callback it brings. *)
Definition top_target (o : top) : option Z :=
  match o with
  | TAdd _ a _ _ _ | TAddCondition _ a _ _ _ _ | TCancel a | TRefresh _ a | TReset _ a _ _ | TRelease a => Some a
  | TNext _ | TExpired _ _ => None
  end.
Definition new_cb (o : top) : option callback :=
  match o with TAdd _ _ _ cb _ | TAddCondition _ _ _ cb _ _ => cb | _ => None end.
Definition is_expired (o : top) : bool := match o with TExpired _ _ => true | _ => false end.

(** What an operation on timer [a] leaves of the heap: everything else, and no
    callback that was neither there nor brought. *)
Definition touches (a : Z) (cb : option callback) (h h' : gmap Z Timer) : Prop :=
  (∀ b, a ≠ b → h' !! b = h !! b) ∧
  (∀ id x', h' !! a = Some x' → may_fire id (m_cb x') = true →
    may_fire id cb = true ∨ ∃ x, h !! a = Some x ∧ may_fire id (m_cb x) = true).

Lemma touches_refl a cb h : touches a cb h h.
Proof. split; [done|]. intros id x Hx Hm. right. by exists x. Qed.
Lemma touches_insert a cb h x : (∀ id, may_fire id (m_cb x) = true →
    may_fire id cb = true ∨ ∃ x0, h !! a = Some x0 ∧ may_fire id (m_cb x0) = true) →
  touches a cb h (<[a := x]> h).
Proof.
  intros H. split; [intros b Hb; by apply lookup_insert_ne|].
  intros id x'. rewrite lookup_insert_eq. intros [= <-]. apply H.
Qed.
Lemma touches_same a cb h x x' : h !! a = Some x → m_cb x' = m_cb x ∨ m_cb x' = None →
  touches a cb h (<[a := x']> h).
Proof.
  intros Hx [E|E]; apply touches_insert; intros id; rewrite E; [|done]. intros Hm. right. by exists x.
Qed.

Lemma texec_frame tm o r tm' : inv tm → top_ok tm o → is_expired o = false → texec o tm = Ret r tm' →
  m_previous_time tm' = m_previous_time tm ∧
  match top_target o with
  | Some a => touches a (new_cb o) (heap tm) (heap tm')
  | None => heap tm' = heap tm
  end.
Proof.
  intros I Hok Ho R. destruct o as [now a ms cb lp|now a ms cb wc lp|a|now a|now a ms fn|now|now nt|a];
    simpl in Hok, Ho, R |- *; [minv R as b s1 R1; injection R as _ <-..|].
  - destruct (addTimer_spec now a ms cb lp _ I Hok) as (l1 & l2 & _ & R & _).
    rewrite R in R1. injection R1 as _ <-. split; [done|]. apply touches_insert. intros id Hm. by left.
  - unfold addConditionTimer in R1. set (cb' := Some _) in R1.
    destruct (addTimer_spec now a ms cb' lp _ I Hok) as (l1 & l2 & _ & R & _).
    rewrite R in R1. injection R1 as _ <-. split; [done|]. apply touches_insert. intros id Hm. left. by destruct cb.
  - destruct Hok as [x Hx]. pose proof (cancel_spec a x _ I Hx) as R.
    destruct (m_cb x); [destruct R as (l1 & l2 & _ & _ & R & _)|]; rewrite R in R1; injection R1 as _ <-;
      (split; [done|]); [|by apply touches_refl]. apply (touches_same a None _ x); [done|by right].
  - destruct Hok as [x Hx]. pose proof (refresh_spec now a x _ I Hx) as R.
    destruct (m_cb x) eqn:Ecb; [destruct R as (? & ? & ? & ? & _ & _ & _ & R & _)|]; rewrite R in R1;
      injection R1 as _ <-; (split; [done|]); [|by apply touches_refl].
    apply (touches_same a None _ x); [done|by left].
  - destruct Hok as [x Hx]. pose proof (reset_spec now a ms fn x _ I Hx) as R.
    destruct ((ms =? m_ms x) && negb fn); [rewrite R in R1; injection R1 as _ <-; by split; [|apply touches_refl]|].
    destruct (m_cb x) eqn:Ecb; [destruct R as (? & ? & ? & ? & _ & _ & _ & R & _)|]; rewrite R in R1;
      injection R1 as _ <-; (split; [done|]); [|by apply touches_refl].
    apply (touches_same a None _ x); [done|by left].
  - destruct (getNext_spec now _ I) as [R _]. rewrite R in R1. by injection R1 as _ <-.
  - done.
  - minv R as b s1 R1. injection R1 as <- <-. injection R as _ <-. split; [done|]. split; simpl.
    + intros b Hb. by apply lookup_delete_ne.
    + intros id x. by rewrite lookup_delete_eq.
Qed.

(** ** Expiry *)

(** With a clock that does not go back only the past is due. *)
Lemma due_past t tm a : m_previous_time tm ≤ t → a ∈ due t tm ↔ a ∈ m_timers tm ∧ next_at (heap tm) a ≤ t.
Proof.
  intros Hle. unfold due, modified. destruct (Z.ltb_spec t (m_previous_time tm)); [lia|]. simpl.
  rewrite list_elem_of_filter. tauto.
Qed.

(** What a thread in [idle()] takes, and the timers behind it. *)
Lemma expire_frame t nt tm : inv tm → m_previous_time tm ≤ t →
  ∃ cbs tm', getExpiredCbsList t nt tm = Ret cbs tm' ∧ inv tm' ∧ m_previous_time tm' ≤ t ∧
    omap id cbs = omap (cb_at (heap tm)) (due t tm) ∧
    ∀ a, heap tm' !! a = if decide (a ∈ due t tm) then fire t <$> heap tm !! a else heap tm !! a.
Proof.
  intros I Hle. destruct (getExpiredCbsList_spec t nt tm I) as (tm' & R & I' & Hh & _ & _ & _ & Hprev).
  exists (cb_at (heap tm) <$> due t tm), tm'. split; [done|]. split; [done|]. split; [|split].
  - rewrite Hprev. case_decide; [done|lia].
  - apply omap_id_fmap.
  - intros a. rewrite Hh. apply fired_lookup. by eapply sorted_NoDup, due_sorted.
Qed.
