(* ===== verification/Fiber.v ===== *)
(** * Fibers (fiber/fiber.h, fiber/fiber.cpp, the ucontext branch)

    A fiber's body is user code; what the fiber machinery sees of it is where
    it gives up control, how it ends, and the calls it makes to the scheduler on
    the way: a [prog]. The saved [ucontext_t] of a fiber is the part of its
    body that is still to run.

    [swapIn] switches to the fiber and returns when some fiber switches back:
    the model runs the fiber's body up to its next [swapOut] and reports which
    fiber that switches to. The address [new] returns and the success of
    [getcontext] are arguments. *)

From S2P Require Import Prelude.

Inductive State := ERROR | INIT | HOLD | EXEC | TERM | READY.
#[global] Instance State_eq_dec : EqDecision State.
Proof. solve_decision. Defined.

Definition stateToString (s : State) : string :=
  match s with
  | ERROR => "ERROR" | INIT => "INIT" | HOLD => "HOLD"
  | EXEC => "EXEC" | TERM => "TERM" | READY => "READY"
  end.

(** Where [swapOut] goes: [swapOut()] or [swapOut(fiber)]. *)
Inductive target := ToMain | ToFiber (f : Z).

(** User code between two observable points. *)
Inductive prog :=
| PReturn
| PThrow
| PYieldToReady (to : target) (k : prog)
| PYieldToHold (to : target) (k : prog)
| PSetStateError (k : prog)
| PScheduleCb (cb : prog) (thread_id : Z) (k : prog)     (* schedule(cb, thread_id) *)
| PScheduleFiber (f : Z) (thread_id : Z) (k : prog).     (* schedule(fiber, thread_id) *)

(** The scheduler calls a slice of a body makes. *)
Inductive effect :=
| ScheduleCb (cb : prog) (thread_id : Z)
| ScheduleFiber (f : Z) (thread_id : Z).

(** [m_ctx]: at the entry of [mainFunc], inside [m_cb], or behind the last
    [swapOut] of [mainFunc]. *)
Inductive context := Entry | Inside (rest : prog) | Behind.

Record Fiber := mkFiber {
  m_id : Z;
  m_state : State;
  m_stack : bool;              (* m_stack != nullptr *)
  m_ctx : context;
  m_cb : option prog;
}.

(** The heap of fibers, the two static counters, and the [thread_local]s of
    the running thread. *)
Record tls := mkTls {
  t_cur_fiber : option Z;
  t_main_fiber : option Z;
  t_schedule_fiber : option Z;
}.
Record rt := mkRt {
  fibers : gmap Z Fiber;
  s_fiber_id : Z;
  s_fiber_count : Z;
  locals : tls;
}.

Definition set_state (s : State) (f : Fiber) : Fiber :=
  mkFiber (m_id f) s (m_stack f) (m_ctx f) (m_cb f).
Definition set_ctx (c : context) (f : Fiber) : Fiber :=
  mkFiber (m_id f) (m_state f) (m_stack f) c (m_cb f).
Definition set_cb (cb : option prog) (f : Fiber) : Fiber :=
  mkFiber (m_id f) (m_state f) (m_stack f) (m_ctx f) cb.

Definition set_locals (l : tls) (w : rt) : rt :=
  mkRt (fibers w) (s_fiber_id w) (s_fiber_count w) l.
Definition put_fiber (a : Z) (f : Fiber) (w : rt) : rt :=
  mkRt (<[a := f]> (fibers w)) (s_fiber_id w) (s_fiber_count w) (locals w).

(** Access through a [Fiber *]. *)
Definition get_fiber (a : option Z) : M rt (Z * Fiber) :=
  w <- mget;;
  match a with
  | Some a => match fibers w !! a with Some f => mreturn (a, f) | None => mfault NullDeref end
  | None => mfault NullDeref
  end.
Definition update (a : option Z) (g : Fiber → Fiber) : M rt unit :=
  af <- get_fiber a;; mmodify (put_fiber af.1 (g af.2)).

(** [t_cur_fiber = fiber] *)
Definition setThis (f : option Z) : M rt unit :=
  mmodify (λ w, set_locals (mkTls f (t_main_fiber (locals w)) (t_schedule_fiber (locals w))) w).
Definition set_schedule_fiber (f : option Z) : M rt unit :=
  mmodify (λ w, set_locals (mkTls (t_cur_fiber (locals w)) (t_main_fiber (locals w)) f) w).

Definition getcontext_error : exn := runtime_error "getcontext error" [].

(** The private constructor of a main fiber, [new] returning [a]. *)
Definition Fiber_main (a : Z) (getcontext_ok : bool) : M rt unit :=
  setThis (Some a);;
  if negb getcontext_ok then mthrow getcontext_error else
  mmodify (put_fiber a (mkFiber 0 EXEC false Entry None));;
  mmodify (λ w, mkRt (fibers w) (s_fiber_id w) (u64 (s_fiber_count w + 1)) (locals w)).

(** [Fiber::Fiber(cb, stack_size)] *)
Definition Fiber_new (a : Z) (cb : option prog) (getcontext_ok : bool) : M rt Z :=
  w <- mget;;
  let id := u64 (s_fiber_id w + 1) in
  mput (mkRt (fibers w) id (s_fiber_count w) (locals w));;
  if negb getcontext_ok then mthrow getcontext_error else
  mmodify (put_fiber a (mkFiber id INIT true Entry cb));;
  mmodify (λ w, mkRt (fibers w) (s_fiber_id w) (u64 (s_fiber_count w + 1)) (locals w));;
  mreturn a.

(** [m_state != TERM && m_state != INIT && m_state == ERROR] *)
Definition bad_state (s : State) : bool :=
  negb (bool_decide (s = TERM)) && negb (bool_decide (s = INIT)) && bool_decide (s = ERROR).

(** [Fiber::~Fiber()]; an exception that leaves it terminates the program. *)
Definition Fiber_delete (a : Z) : M rt unit :=
  mmodify (λ w, mkRt (fibers w) (s_fiber_id w) (u64 (s_fiber_count w - 1)) (locals w));;
  af <- get_fiber (Some a);;
  let f := af.2 in
  if m_stack f then
    if bad_state (m_state f) then mfault Terminate
    else mmodify (λ w, mkRt (delete a (fibers w)) (s_fiber_id w) (s_fiber_count w) (locals w))
  else
    match m_cb f with
    | Some _ => mfault Terminate
    | None =>
        if negb (bool_decide (m_state f = EXEC)) then mfault Terminate else
        w <- mget;;
        (if bool_decide (t_cur_fiber (locals w) = Some a) then setThis None else mreturn tt);;
        mmodify (λ w, mkRt (delete a (fibers w)) (s_fiber_id w) (s_fiber_count w) (locals w))
    end.

Definition reset_no_stack : exn := runtime_error "reset error: m_stack is null" [].
Definition reset_bad_state : exn := runtime_error "reset error: m_state not TERM or INIT" [].

Definition reset (a : Z) (cb : option prog) (getcontext_ok : bool) : M rt unit :=
  af <- get_fiber (Some a);;
  let f := af.2 in
  if negb (m_stack f) then mthrow reset_no_stack else
  if bad_state (m_state f) then mthrow reset_bad_state else
  update (Some a) (set_cb cb);;
  if negb getcontext_ok then mthrow getcontext_error else
  update (Some a) (λ f, set_state INIT (set_ctx Entry f)).

(** [getThis()]: the current fiber, or a new main fiber at [fresh]. *)
Definition getThis (fresh : Z) (getcontext_ok : bool) : M rt Z :=
  w <- mget;;
  match t_cur_fiber (locals w) with
  | Some a => mreturn a
  | None =>
      Fiber_main fresh getcontext_ok;;
      mmodify (λ w, set_locals (mkTls (t_cur_fiber (locals w)) (Some fresh)
                                  (t_schedule_fiber (locals w))) w);;
      mreturn fresh
  end.

(** [swapOut()] and [swapOut(main_fiber)] of the fiber [self]: [self]'s
    context is saved at [ctx], the result is the fiber switched to. *)
Definition swapOut (self : Z) (to : target) (ctx : context) : M rt Z :=
  w <- mget;;
  let dest := match to with ToMain => t_main_fiber (locals w) | ToFiber f => Some f end in
  setThis dest;;
  (match to with ToMain => mreturn tt | ToFiber _ => set_schedule_fiber None end);;
  update (Some self) (set_ctx ctx);;
  d <- get_fiber dest;;
  mreturn d.1.

(** The end of [mainFunc]. *)
Definition leave (self : Z) : M rt Z :=
  w <- mget;;
  match t_schedule_fiber (locals w) with
  | Some s => swapOut self (ToFiber s) Behind
  | None => swapOut self ToMain Behind
  end.

(** The running fiber's code up to its next switch: the scheduler calls it
    makes and the fiber it switches to. [cur] is the [getThis()] of
    [mainFunc], the running fiber. *)
Fixpoint run_prog (cur : Z) (p : prog) : M rt (list effect * Z) :=
  match p with
  | PReturn =>
      update (Some cur) (λ f, set_state TERM (set_cb None f));;
      d <- leave cur;; mreturn ([], d)
  | PThrow =>
      update (Some cur) (set_state ERROR);;
      d <- leave cur;; mreturn ([], d)
  | PYieldToReady to k =>
      w <- mget;;
      update (t_cur_fiber (locals w)) (set_state READY);;
      d <- swapOut cur to (Inside k);; mreturn ([], d)
  | PYieldToHold to k =>
      w <- mget;;
      update (t_cur_fiber (locals w)) (set_state HOLD);;
      d <- swapOut cur to (Inside k);; mreturn ([], d)
  | PSetStateError k =>
      w <- mget;;
      update (t_cur_fiber (locals w)) (set_state ERROR);;
      run_prog cur k
  | PScheduleCb cb t k => r <- run_prog cur k;; mreturn (ScheduleCb cb t :: r.1, r.2)
  | PScheduleFiber f t k => r <- run_prog cur k;; mreturn (ScheduleFiber f t :: r.1, r.2)
  end.

(** Control arrives at the context of [a]: [mainFunc] calls [m_cb] (an empty
    function throws), a yielded body goes on, and behind the end of
    [mainFunc] an exception leaves the context. *)
Definition enter (a : Z) : M rt (list effect * Z) :=
  af <- get_fiber (Some a);;
  match m_ctx af.2 with
  | Entry => run_prog a (match m_cb af.2 with Some p => p | None => PThrow end)
  | Inside p => run_prog a p
  | Behind => mfault Terminate
  end.

Definition swapIn_exec : exn := runtime_error "swapIn error: m_state is EXEC" [].

(** [swapIn()] *)
Definition swapIn0 (a : Z) : M rt (list effect * Z) :=
  setThis (Some a);;
  af <- get_fiber (Some a);;
  if bool_decide (m_state af.2 = EXEC) then mthrow swapIn_exec else
  update (Some a) (set_state EXEC);;
  w <- mget;;
  m <- get_fiber (t_main_fiber (locals w));;
  enter a.

(** [swapIn(main_fiber)] up to the [swapcontext] *)
Definition swapIn_begin (a : Z) (main_fiber : option Z) : M rt unit :=
  setThis (Some a);;
  set_schedule_fiber main_fiber;;
  af <- get_fiber (Some a);;
  if bool_decide (m_state af.2 = EXEC) then mthrow swapIn_exec else
  update (Some a) (set_state EXEC);;
  m <- get_fiber main_fiber;;
  mreturn tt.

(** [swapIn(main_fiber)] *)
Definition swapIn (a : Z) (main_fiber : option Z) : M rt (list effect * Z) :=
  swapIn_begin a main_fiber;; enter a.

Definition getFiberId : M rt Z :=
  w <- mget;;
  match t_cur_fiber (locals w) with
  | Some a => af <- get_fiber (Some a);; mreturn (m_id af.2)
  | None => mreturn 0
  end.
Definition getFibers (w : rt) : Z := s64 (s_fiber_count w).

(** ** Slices of a body *)

Inductive slice_end :=
| EndReturn
| EndThrow
| EndYield (s : State) (to : target) (k : prog).

(** The scheduler calls up to the next switch, and the switch. *)
Fixpoint first_slice (p : prog) : list effect * slice_end :=
  match p with
  | PReturn => ([], EndReturn)
  | PThrow => ([], EndThrow)
  | PYieldToReady to k => ([], EndYield READY to k)
  | PYieldToHold to k => ([], EndYield HOLD to k)
  | PSetStateError k => first_slice k
  | PScheduleCb cb t k => (ScheduleCb cb t :: (first_slice k).1, (first_slice k).2)
  | PScheduleFiber f t k => (ScheduleFiber f t :: (first_slice k).1, (first_slice k).2)
  end.

(** The fiber after the slice. *)
Definition after_slice (e : slice_end) (f : Fiber) : Fiber :=
  match e with
  | EndReturn => mkFiber (m_id f) TERM (m_stack f) Behind None
  | EndThrow => mkFiber (m_id f) ERROR (m_stack f) Behind (m_cb f)
  | EndYield s _ k => mkFiber (m_id f) s (m_stack f) (Inside k) (m_cb f)
  end.

Definition goes_to (main : Z) (e : slice_end) : Prop :=
  match e with EndYield _ to _ => to = ToFiber main | _ => True end.

(** Control is in [cur], entered from [main]. *)
Record running (cur main : Z) (f : Fiber) (w : rt) : Prop := {
  running_fiber : fibers w !! cur = Some f;
  running_main : is_Some (fibers w !! main);
  running_ne : main ≠ cur;
  running_cur : t_cur_fiber (locals w) = Some cur;
  running_sched : t_schedule_fiber (locals w) = Some main;
}.

Definition switched (cur main : Z) (f' : Fiber) (w : rt) : rt :=
  mkRt (<[cur := f']> (fibers w)) (s_fiber_id w) (s_fiber_count w)
    (mkTls (Some main) (t_main_fiber (locals w)) None).

Lemma get_fiber_Some a f w : fibers w !! a = Some f → get_fiber (Some a) w = Ret (a, f) w.
Proof. intros E. unfold get_fiber. mrun. by rewrite E. Qed.

Lemma update_Some a f g w : fibers w !! a = Some f →
  update (Some a) g w = Ret tt (put_fiber a (g f) w).
Proof. intros E. unfold update. by mstep (get_fiber_Some a f w E). Qed.

Lemma put_fiber_lookup a f w : fibers (put_fiber a f w) !! a = Some f.
Proof. apply lookup_insert_eq. Qed.
Lemma put_fiber_put a f g w : put_fiber a f (put_fiber a g w) = put_fiber a f w.
Proof. unfold put_fiber. simpl. by rewrite insert_insert_eq. Qed.

Lemma swapOut_spec cur main f c w : running cur main f w →
  swapOut cur (ToFiber main) c w = Ret main (switched cur main (set_ctx c f) w).
Proof.
  intros [Hf [m Hm] Hne Hc Hs]. unfold swapOut, setThis, set_schedule_fiber. mrun.
  unfold mbind', mmodify. cbn beta iota.
  set (w1 := set_locals _ (set_locals _ w)).
  assert (E : fibers w1 !! cur = Some f) by done. rewrite (update_Some _ _ _ _ E).
  rewrite (get_fiber_Some main m); [done|]. simpl. by rewrite lookup_insert_ne.
Qed.

Lemma running_put cur main f f' w : running cur main f w → running cur main f' (put_fiber cur f' w).
Proof.
  intros [Hf Hm Hne Hc Hs]. split; simpl; try done; [apply lookup_insert_eq|].
  by rewrite lookup_insert_ne.
Qed.

Lemma leave_spec cur main f w : running cur main f w →
  leave cur w = Ret main (switched cur main (set_ctx Behind f) w).
Proof. intros R. unfold leave. mrun. rewrite (running_sched _ _ _ _ R). by apply swapOut_spec. Qed.

Lemma switched_put cur main f f' w : switched cur main f (put_fiber cur f' w) = switched cur main f w.
Proof. unfold switched. simpl. by rewrite insert_insert_eq. Qed.

Lemma run_prog_spec cur main f p w : running cur main f w → goes_to main (first_slice p).2 →
  run_prog cur p w = Ret ((first_slice p).1, main) (switched cur main (after_slice (first_slice p).2 f) w).
Proof.
  revert f w. induction p as [| |to k IH|to k IH|k IH|cb _ t k IH|g t k IH]; intros f w R Hto;
    cbn [run_prog first_slice after_slice fst snd goes_to] in *;
    pose proof (running_fiber _ _ _ _ R) as Hf.
  - mstep (update_Some _ _ (λ f, set_state TERM (set_cb None f)) _ Hf).
    mstep (leave_spec _ _ _ _ (running_put _ _ _ (set_state TERM (set_cb None f)) _ R)).
    by rewrite switched_put.
  - mstep (update_Some _ _ (set_state ERROR) _ Hf).
    mstep (leave_spec _ _ _ _ (running_put _ _ _ (set_state ERROR f) _ R)).
    by rewrite switched_put.
  - subst to. mrun. rewrite (running_cur _ _ _ _ R). mstep (update_Some _ _ (set_state READY) _ Hf).
    mstep (swapOut_spec _ _ _ (Inside k) _ (running_put _ _ _ (set_state READY f) _ R)).
    by rewrite switched_put.
  - subst to. mrun. rewrite (running_cur _ _ _ _ R). mstep (update_Some _ _ (set_state HOLD) _ Hf).
    mstep (swapOut_spec _ _ _ (Inside k) _ (running_put _ _ _ (set_state HOLD f) _ R)).
    by rewrite switched_put.
  - mrun. rewrite (running_cur _ _ _ _ R). mstep (update_Some _ _ (set_state ERROR) _ Hf).
    rewrite (IH _ _ (running_put _ _ f (set_state ERROR f) _ R) Hto).
    rewrite switched_put. by destruct (first_slice k).2.
  - by mstep (IH f w R Hto).
  - by mstep (IH f w R Hto).
Qed.

(** The code a fiber runs when control arrives. *)
Definition body (f : Fiber) : option prog :=
  match m_ctx f with
  | Entry => Some (match m_cb f with Some p => p | None => PThrow end)
  | Inside p => Some p
  | Behind => None
  end.

(** [w] right after the switch to [a]. *)
Definition entered (a main : Z) (f : Fiber) (w : rt) : rt :=
  put_fiber a (set_state EXEC f)
    (set_locals (mkTls (Some a) (t_main_fiber (locals w)) (Some main)) w).

Lemma swapIn_begin_spec a main f w :
  fibers w !! a = Some f → is_Some (fibers w !! main) → main ≠ a → m_state f ≠ EXEC →
  swapIn_begin a (Some main) w = Ret tt (entered a main f w) ∧
  running a main (set_state EXEC f) (entered a main f w).
Proof.
  intros Hf [m Hm] Hne Hst. unfold swapIn_begin, setThis, set_schedule_fiber.
  rewrite !bind_modify. set (w1 := set_locals _ (set_locals _ w)).
  assert (Hf1 : fibers w1 !! a = Some f) by done. mstep (get_fiber_Some _ _ _ Hf1).
  rewrite bool_decide_eq_false_2 by done. mstep (update_Some _ _ (set_state EXEC) _ Hf1).
  assert (Hm2 : fibers (put_fiber a (set_state EXEC f) w1) !! main = Some m)
    by (simpl; by rewrite lookup_insert_ne).
  mstep (get_fiber_Some _ _ _ Hm2). split; [done|].
  split; simpl; [apply lookup_insert_eq|by rewrite lookup_insert_ne|done..].
Qed.

Lemma swapIn_begin_exec a main f w : fibers w !! a = Some f → m_state f = EXEC →
  ∃ w', swapIn_begin a main w = Throw swapIn_exec w' ∧ t_cur_fiber (locals w') = Some a ∧
        fibers w' = fibers w.
Proof.
  intros Hf Hex. unfold swapIn_begin, setThis, set_schedule_fiber. rewrite !bind_modify.
  set (w1 := set_locals _ (set_locals _ w)).
  assert (Hf1 : fibers w1 !! a = Some f) by done. mstep (get_fiber_Some _ _ _ Hf1).
  rewrite bool_decide_eq_true_2 by done. by exists w1.
Qed.

(** The slice that runs once control has arrived. *)
Lemma enter_spec a main f p w : running a main f w → body f = Some p →
  goes_to main (first_slice p).2 →
  enter a w = Ret ((first_slice p).1, main) (switched a main (after_slice (first_slice p).2 f) w).
Proof.
  intros R Hb Hto. unfold enter. mstep (get_fiber_Some _ _ _ (running_fiber _ _ _ _ R)).
  pose proof (run_prog_spec a main f p w R Hto) as E.
  unfold body in Hb. cbn [snd]. destruct (m_ctx f); by simplify_eq.
Qed.

Lemma swapIn_spec a main f p w :
  fibers w !! a = Some f → is_Some (fibers w !! main) → main ≠ a → m_state f ≠ EXEC →
  body f = Some p → goes_to main (first_slice p).2 →
  swapIn a (Some main) w =
    Ret ((first_slice p).1, main) (switched a main (after_slice (first_slice p).2 f) w).
Proof.
  intros Hf Hm Hne Hst Hb Hto.
  destruct (swapIn_begin_spec a main f w Hf Hm Hne Hst) as [E R]. unfold swapIn. mstep E.
  rewrite (enter_spec _ _ _ p _ R Hb Hto). unfold entered. rewrite switched_put.
  by destruct (first_slice p).2.
Qed.

(** ** Whole bodies *)

Fixpoint yields (p : prog) : nat :=
  match p with
  | PReturn | PThrow => 0
  | PYieldToReady _ k | PYieldToHold _ k => S (yields k)
  | PSetStateError k | PScheduleCb _ _ k | PScheduleFiber _ _ k => yields k
  end.

Fixpoint all_effects (p : prog) : list effect :=
  match p with
  | PReturn | PThrow => []
  | PYieldToReady _ k | PYieldToHold _ k | PSetStateError k => all_effects k
  | PScheduleCb cb t k => ScheduleCb cb t :: all_effects k
  | PScheduleFiber f t k => ScheduleFiber f t :: all_effects k
  end.

Fixpoint returns (p : prog) : bool :=
  match p with
  | PReturn => true
  | PThrow => false
  | PYieldToReady _ k | PYieldToHold _ k | PSetStateError k
  | PScheduleCb _ _ k | PScheduleFiber _ _ k => returns k
  end.

(** Every yield goes back to [main]. *)
Fixpoint yields_to (main : Z) (p : prog) : Prop :=
  match p with
  | PReturn | PThrow => True
  | PYieldToReady to k | PYieldToHold to k => to = ToFiber main ∧ yields_to main k
  | PSetStateError k | PScheduleCb _ _ k | PScheduleFiber _ _ k => yields_to main k
  end.

(** What a scheduler sees of one [swapIn(main)]: the calls the slice makes, the
    fiber in which control comes back, the current fiber and the state of the
    one resumed. *)
Record round := mkRound {
  made : list effect;
  back_in : Z;
  current : option Z;
  left_in : option State;
}.
(** [n + 1] times [swapIn(main)], as a scheduler does. *)
Fixpoint resume (n : nat) (a main : Z) : M rt (list round) :=
  r <- swapIn a (Some main);;
  w <- mget;;
  let x := mkRound r.1 r.2 (t_cur_fiber (locals w)) (m_state <$> fibers w !! a) in
  match n with
  | O => mreturn [x]
  | S n => xs <- resume n a main;; mreturn (x :: xs)
  end.
(** The rounds give the fiber back to [main], suspended but for the last. *)
Definition back (main : Z) (x : round) : Prop := back_in x = main ∧ current x = Some main.
Definition suspended (x : round) : Prop := left_in x = Some READY ∨ left_in x = Some HOLD.

Lemma first_slice_yields p :
  match (first_slice p).2 with
  | EndReturn => yields p = 0%nat ∧ returns p = true ∧ (first_slice p).1 = all_effects p
  | EndThrow => yields p = 0%nat ∧ returns p = false ∧ (first_slice p).1 = all_effects p
  | EndYield s _ k => yields p = S (yields k) ∧ returns k = returns p ∧
      all_effects p = (first_slice p).1 ++ all_effects k ∧ (s = READY ∨ s = HOLD)
  end.
Proof.
  induction p as [| |to k IH|to k IH|k IH|cb _ t k IH|g t k IH]; simpl; auto;
    destruct (first_slice k).2; simpl in *; naive_solver congruence.
Qed.

Lemma first_slice_goes main p : yields_to main p → goes_to main (first_slice p).2 ∧
  match (first_slice p).2 with EndYield _ _ k => yields_to main k | _ => True end.
Proof.
  induction p as [| |to k IH|to k IH|k IH|cb _ t k IH|g t k IH]; simpl; auto; tauto.
Qed.

Lemma resume_spec p a main f w :
  fibers w !! a = Some f → is_Some (fibers w !! main) → main ≠ a → m_state f ≠ EXEC →
  body f = Some p → yields_to main p →
  ∃ xs x w' f', resume (yields p) a main w = Ret (xs ++ [x]) w' ∧
    length xs = yields p ∧ concat (map made (xs ++ [x])) = all_effects p ∧
    Forall (back main) (xs ++ [x]) ∧ Forall suspended xs ∧ left_in x = Some (m_state f') ∧
    fibers w' !! a = Some f' ∧ m_state f' = (if returns p then TERM else ERROR) ∧
    (∀ b, b ≠ a → fibers w' !! b = fibers w !! b) ∧
    t_cur_fiber (locals w') = Some main ∧ t_schedule_fiber (locals w') = None.
Proof.
  remember (yields p) as n eqn:En. revert p f w En. induction n as [|n IH];
    intros p f w En Hf Hm Hne Hst Hb Hy; destruct (first_slice_goes main p Hy) as [Hg Hk];
    pose proof (first_slice_yields p) as Hs;
    pose proof (swapIn_spec a main f p w Hf Hm Hne Hst Hb Hg) as R;
    cbn [resume]; mstep R; mrun;
    (destruct (first_slice p).2 as [| |s to k] eqn:Ee;
      [destruct Hs as (Hs & Hr & <-)|destruct Hs as (Hs & Hr & <-)|destruct Hs as (Hs & Hr & Hs2 & Hs3)]);
    try (exfalso; lia).
  1-2: eexists [], _, _, _; split; [done|]; simpl; rewrite lookup_insert_eq, app_nil_r, Hr;
       split_and!; try done; [by repeat constructor|]; intros b Hbne; by apply lookup_insert_ne.
  set (w1 := switched a main _ w).
  destruct (IH k (after_slice (EndYield s to k) f) w1)
    as (xs & x & w' & f' & R' & Hl & Hc & Hback & Hsus & Hx & Hf' & Hst' & Hoth & ? & ?).
  { lia. }
  { apply lookup_insert_eq. }
  { simpl. by rewrite lookup_insert_ne. }
  { done. }
  { simpl. destruct Hs3 as [->| ->]; done. }
  { done. }
  { done. }
  eexists (_ :: xs), x, w', f'. mstep R'. mrun. split; [done|].
  simpl. rewrite Hl, Hc, Hs2, <-Hr. split_and!; try done.
  - by constructor.
  - constructor; [|done]. unfold suspended. simpl. rewrite lookup_insert_eq. simpl.
    destruct Hs3 as [->| ->]; auto.
  - intros b Hbne. rewrite Hoth by done. simpl. by rewrite lookup_insert_ne.
Qed.

(** C34: A fiber that yields [n] times, each time to the fiber that resumes it,
    is finished by exactly [n + 1] [swapIn]s: after each of them control and
    [t_cur_fiber] are back at the fiber that resumed it; after the first [n] it
    is suspended, in READY or HOLD, and after the last it is in TERM, or in
    ERROR when the body throws. Together they run its body once, in order,
    losing or repeating nothing (every scheduler call of the body appears
    exactly once), and no other fiber is touched. *)
Theorem coroutine_runs_once p a main f w :
  fibers w !! a = Some f → is_Some (fibers w !! main) → main ≠ a →
  m_state f = INIT → m_ctx f = Entry → m_cb f = Some p → yields_to main p →
  ∃ xs x w' f', resume (yields p) a main w = Ret (xs ++ [x]) w' ∧
    length xs = yields p ∧ concat (map made (xs ++ [x])) = all_effects p ∧
    Forall (back main) (xs ++ [x]) ∧ Forall suspended xs ∧ left_in x = Some (m_state f') ∧
    fibers w' !! a = Some f' ∧ m_state f' = (if returns p then TERM else ERROR) ∧
    (∀ b, b ≠ a → fibers w' !! b = fibers w !! b) ∧
    t_cur_fiber (locals w') = Some main ∧ t_schedule_fiber (locals w') = None.
Proof.
  intros Hf Hm Hne Hst Hctx Hcb Hy. apply (resume_spec p a main f w); try done.
  - by rewrite Hst.
  - unfold body. by rewrite Hctx, Hcb.
Qed.

Definition demo_prog : prog :=
  PScheduleFiber 5 (-1) (PYieldToHold (ToFiber 1) (PScheduleCb PReturn 3 (PYieldToReady (ToFiber 1) PReturn))).
Definition demo_rt : rt :=
  mkRt (<[1 := mkFiber 0 EXEC false Entry None]>
       (<[2 := mkFiber 1 INIT true Entry (Some demo_prog)]> ∅)) 1 2 (mkTls (Some 1) (Some 1) None).

Lemma coroutine_runs_once_witness :
  ∃ xs x w' f', resume 2 2 1 demo_rt = Ret (xs ++ [x]) w' ∧
    length xs = 2%nat ∧ concat (map made (xs ++ [x])) = [ScheduleFiber 5 (-1); ScheduleCb PReturn 3] ∧
    Forall (back 1) (xs ++ [x]) ∧ Forall suspended xs ∧ left_in x = Some (m_state f') ∧
    fibers w' !! 2 = Some f' ∧ m_state f' = TERM ∧
    (∀ b, b ≠ 2 → fibers w' !! b = fibers demo_rt !! b) ∧
    t_cur_fiber (locals w') = Some 1 ∧ t_schedule_fiber (locals w') = None.
Proof.
  apply (coroutine_runs_once demo_prog 2 1 (mkFiber 1 INIT true Entry (Some demo_prog)) demo_rt);
    try done; by eexists.
Defined.

(** The guards of a fiber's life cycle: [swapIn] refuses exactly a running
    fiber, and then has already made it the thread's current fiber; [reset] refuses only a fiber without stack
    or in ERROR, so that it restarts a suspended one and forgets the rest of
    its body, although its comment and its message promise INIT or TERM; the destructor of a fiber in ERROR
    terminates the program. *)
Theorem fiber_guards a main f cb w :
  fibers w !! a = Some f → m_stack f = true →
  (m_state f = EXEC → ∃ w', swapIn a main w = Throw swapIn_exec w' ∧
     t_cur_fiber (locals w') = Some a ∧ fibers w' = fibers w) ∧
  (reset a cb true w = if decide (m_state f = ERROR) then Throw reset_bad_state w
     else Ret tt (put_fiber a (mkFiber (m_id f) INIT true Entry cb) w)) ∧
  (Fiber_delete a w = if decide (m_state f = ERROR) then Fault Terminate
     else Ret tt (mkRt (delete a (fibers w)) (s_fiber_id w) (u64 (s_fiber_count w - 1)) (locals w))).
Proof.
  intros Hf Hst. split_and!.
  - intros Hex. by destruct (swapIn_begin_exec a main f w Hf Hex) as (w' & E & ? & ?);
      exists w'; unfold swapIn; mstep E.
  - unfold reset. mstep (get_fiber_Some _ _ _ Hf). cbn [snd]. rewrite Hst. cbn [negb].
    unfold bad_state. case_decide as He; [by rewrite He|].
    rewrite (bool_decide_eq_false_2 _ He), andb_false_r.
    mstep (update_Some _ _ (set_cb cb) _ Hf). cbn [negb].
    rewrite (update_Some a (set_cb cb f)) by apply put_fiber_lookup.
    rewrite put_fiber_put. unfold set_state, set_ctx, set_cb. simpl. by rewrite Hst.
  - unfold Fiber_delete. rewrite bind_modify. set (w1 := mkRt _ _ _ _).
    assert (Hf1 : fibers w1 !! a = Some f) by done. mstep (get_fiber_Some _ _ _ Hf1).
    cbn [snd]. rewrite Hst. unfold bad_state. case_decide as He; [by rewrite He|].
    by rewrite (bool_decide_eq_false_2 _ He), andb_false_r.
Qed.

Lemma fiber_guards_witness :
  let f := mkFiber 1 HOLD true (Inside demo_prog) (Some demo_prog) in
  let w := mkRt {[ 2 := f ]} 1 1 (mkTls None None None) in
  (m_state f = EXEC → ∃ w', swapIn 2 (Some 1) w = Throw swapIn_exec w' ∧
     t_cur_fiber (locals w') = Some 2 ∧ fibers w' = fibers w) ∧
  (reset 2 None true w = if decide (m_state f = ERROR) then Throw reset_bad_state w
     else Ret tt (put_fiber 2 (mkFiber (m_id f) INIT true Entry None) w)) ∧
  (Fiber_delete 2 w = if decide (m_state f = ERROR) then Fault Terminate
     else Ret tt (mkRt (delete 2 (fibers w)) (s_fiber_id w) (u64 (s_fiber_count w - 1)) (locals w))).
Proof. apply fiber_guards; reflexivity. Defined.
