(* ===== verification/Scheduler.v ===== *)
(** * Scheduler (scheduler/scheduler.h, scheduler/scheduler.cpp)

    N worker threads share a task queue. [run()] is split where another
    thread can interleave: taking a task under [m_mutex] ([pick]), everything
    up to the switch into a fiber ([begin]: notify, the state checks, the
    callback fiber, the first half of [swapIn]), each call of schedule that the
    fiber makes ([enter_slice], [call_schedule]), its switch back
    ([switch_back]), the decrement of the counter ([count_down]), and the
    state check with the re-schedule behind it ([finish]).

    Exceptions that leave [run()] are [Throw]. The calls of the virtual
    [notify()] are counted. The lifetime of fibers (reference counts) is not
    modelled. *)

From S2P Require Import Prelude Fiber.

Record Task := mkTask {
  task_cb : option prog;
  task_fiber : option Z;
  task_thread : Z;
}.
(** [Task::Task()] and [Task::reset()] *)
Definition Task_empty : Task := mkTask None None (-1).
Definition Task_of_fiber (f : option Z) (t : Z) : Task := mkTask None f t.
Definition Task_of_cb (cb : option prog) (t : Z) : Task := mkTask cb None t.

Record Scheduler := mkScheduler {
  m_tasks : list Task;
  m_threads_count : Z;
  m_active_threads_count : Z;
  m_idle_threads_count : Z;
  m_stopping : bool;
  m_auto_stop : bool;
  m_use_caller : bool;
  m_root_thread_id : Z;
  m_root_fiber : option Z;
  m_threads : list Z;          (* ids of the started threads *)
  m_threads_id : list Z;
  notified : nat;              (* calls of notify() *)
}.

Inductive kind := KTask | KCb | KIdle.
#[global] Instance kind_eq_dec : EqDecision kind.
Proof. solve_decision. Defined.

(** Where a worker is in [run()]. *)
Inductive pc :=
| Loop                              (* at the top of while (true) *)
| Dispatch (should_notify : bool)   (* behind the locked block *)
| Running (k : kind) (f : Z)        (* inside swapIn of f *)
| Calling (k : kind) (f : Z) (es : list effect)   (* in the code of f, before these calls of schedule *)
| Back (k : kind) (f : Z)           (* behind swapIn *)
| Counted (k : kind) (f : Z)        (* behind the decrement of the counter *)
| Exited.                           (* behind the loop *)

(** The locals of [run()] and the [thread_local]s of one worker. *)
Record Worker := mkWorker {
  w_tls : tls;
  w_main : option Z;                (* t_scheduler_fiber *)
  w_idle : Z;                       (* idle_fiber *)
  w_cb : option Z;                  (* cb_fiber *)
  w_task : Task;                    (* task *)
  w_active : bool;                  (* is_active, and not counted down yet *)
  w_pc : pc;
}.

Record world := mkWorld {
  sched : Scheduler;
  w_fibers : gmap Z Fiber;
  w_fiber_id : Z;
  w_fiber_count : Z;
  workers : gmap Z Worker;          (* by thread id *)
}.

Definition set_tasks (l : list Task) (s : Scheduler) : Scheduler :=
  mkScheduler l (m_threads_count s) (m_active_threads_count s) (m_idle_threads_count s)
    (m_stopping s) (m_auto_stop s) (m_use_caller s) (m_root_thread_id s) (m_root_fiber s)
    (m_threads s) (m_threads_id s) (notified s).
Definition add_active (d : Z) (s : Scheduler) : Scheduler :=
  mkScheduler (m_tasks s) (m_threads_count s) (u64 (m_active_threads_count s + d))
    (m_idle_threads_count s) (m_stopping s) (m_auto_stop s) (m_use_caller s) (m_root_thread_id s)
    (m_root_fiber s) (m_threads s) (m_threads_id s) (notified s).
Definition add_idle (d : Z) (s : Scheduler) : Scheduler :=
  mkScheduler (m_tasks s) (m_threads_count s) (m_active_threads_count s)
    (u64 (m_idle_threads_count s + d)) (m_stopping s) (m_auto_stop s) (m_use_caller s)
    (m_root_thread_id s) (m_root_fiber s) (m_threads s) (m_threads_id s) (notified s).
Definition set_flags (stopping auto_stop : bool) (s : Scheduler) : Scheduler :=
  mkScheduler (m_tasks s) (m_threads_count s) (m_active_threads_count s) (m_idle_threads_count s)
    stopping auto_stop (m_use_caller s) (m_root_thread_id s) (m_root_fiber s)
    (m_threads s) (m_threads_id s) (notified s).
Definition notify (s : Scheduler) : Scheduler :=
  mkScheduler (m_tasks s) (m_threads_count s) (m_active_threads_count s) (m_idle_threads_count s)
    (m_stopping s) (m_auto_stop s) (m_use_caller s) (m_root_thread_id s) (m_root_fiber s)
    (m_threads s) (m_threads_id s) (S (notified s)).

(** ** Construction, start, stop *)

(** [Scheduler::Scheduler]: [this_thread] is the caller's id, [cur] whether
    the caller already has a scheduler, [root] the address of the new root fiber. *)
Definition Scheduler_new (threads_count : Z) (use_caller cur : bool) (this_thread root : Z)
    : option Scheduler :=
  if negb (0 <? threads_count) then None else
  if use_caller then
    if cur then None else
    Some (mkScheduler [] (threads_count - 1) 0 0 true false true this_thread (Some root)
            [] [this_thread] 0)
  else Some (mkScheduler [] threads_count 0 0 true false false (-1) None [] [] 0).

(** [start()]: [ids] are the ids the new threads get. *)
Definition start (ids : list Z) (s : Scheduler) : option Scheduler :=
  if negb (m_stopping s) then Some s else
  if negb (bool_decide (m_threads s = [])) then None else
  let new := take (Z.to_nat (m_threads_count s)) ids in
  Some (mkScheduler (m_tasks s) (m_threads_count s) (m_active_threads_count s)
          (m_idle_threads_count s) false (m_auto_stop s) (m_use_caller s) (m_root_thread_id s)
          (m_root_fiber s) new (m_threads_id s ++ new) (notified s)).

Definition stopping (s : Scheduler) : bool :=
  m_stopping s && m_auto_stop s && bool_decide (m_tasks s = []) && (m_active_threads_count s =? 0).

(** What [stop()] waits for: nothing, or the root fiber and the threads. *)
Inductive stop_wait := StopDone | StopWait (swap_in_root : bool) (join : list Z).

(** [stop()] up to its waits: [root_state] is the state of the root fiber,
    [cur] whether the caller's scheduler is this one. *)
Definition stop (root_state : option State) (cur : bool) (s : Scheduler)
    : option (stop_wait * Scheduler) :=
  let s := set_flags (m_stopping s) true s in
  let root_idle := match root_state with Some TERM | Some INIT => true | _ => false end in
  let alone := bool_decide (is_Some (m_root_fiber s)) && (m_threads_count s =? 0) && root_idle in
  let s := if alone then set_flags true true s else s in
  if alone && stopping s then Some (StopDone, s) else
  if negb (Bool.eqb (negb (m_root_thread_id s =? -1)) cur) then None else
  let s := set_flags true true s in
  let s := Nat.iter (Z.to_nat (m_threads_count s)) notify s in
  let s := match m_root_fiber s with Some _ => notify s | None => s end in
  Some (StopWait (match m_root_fiber s with Some _ => negb (stopping s) | None => false end)
          (m_threads s),
        mkScheduler (m_tasks s) (m_threads_count s) (m_active_threads_count s)
          (m_idle_threads_count s) (m_stopping s) (m_auto_stop s) (m_use_caller s)
          (m_root_thread_id s) (m_root_fiber s) [] (m_threads_id s) (notified s)).

Definition hasIdleThreads (s : Scheduler) : bool := 0 <? m_idle_threads_count s.
Definition getTaskCount (s : Scheduler) : Z := zlen (m_tasks s).

(** ** Scheduling *)

(** [mSchedule]: the new queue, and whether it was empty. *)
Definition mSchedule (t : Task) (s : Scheduler) : bool * Scheduler :=
  let should_notify := bool_decide (m_tasks s = []) in
  match task_cb t, task_fiber t with
  | None, None => (should_notify, s)
  | _, _ => (should_notify, set_tasks (m_tasks s ++ [t]) s)
  end.

Definition schedule (t : Task) (s : Scheduler) : Scheduler :=
  let r := mSchedule t s in if r.1 then notify r.2 else r.2.

(** [schedule(begin, end, thread_id)]: the callbacks or fibers of the range
    are moved into the tasks. *)
Definition schedule_range (ts : list Task) (s : Scheduler) : Scheduler :=
  let r := foldl (λ acc t, let r := mSchedule t acc.2 in (r.1 || acc.1, r.2)) (false, s) ts in
  if r.1 then notify r.2 else r.2.

Definition effect_task (e : effect) : Task :=
  match e with
  | ScheduleCb cb t => Task_of_cb (Some cb) t
  | ScheduleFiber f t => Task_of_fiber (Some f) t
  end.

(** ** One worker *)

Definition get_worker (tid : Z) : M world Worker :=
  w <- mget;; match workers w !! tid with Some x => mreturn x | None => mfault NullDeref end.
Definition put_worker (tid : Z) (x : Worker) : M world unit :=
  mmodify (λ w, mkWorld (sched w) (w_fibers w) (w_fiber_id w) (w_fiber_count w)
                  (<[tid := x]> (workers w))).
Definition on_sched (g : Scheduler → Scheduler) : M world unit :=
  mmodify (λ w, mkWorld (g (sched w)) (w_fibers w) (w_fiber_id w) (w_fiber_count w) (workers w)).

(** Fiber code on a worker: the shared heap and the worker's [thread_local]s. *)
Definition on_fiber {A} (tid : Z) (m : M rt A) : M world A :=
  λ w, match workers w !! tid with
       | None => Fault NullDeref
       | Some x =>
           let back r := mkWorld (sched w) (fibers r) (s_fiber_id r) (s_fiber_count r)
             (<[tid := mkWorker (locals r) (w_main x) (w_idle x) (w_cb x) (w_task x) (w_active x)
                         (w_pc x)]> (workers w)) in
           match m (mkRt (w_fibers w) (w_fiber_id w) (w_fiber_count w) (w_tls x)) with
           | Ret a r => Ret a (back r)
           | Throw e r => Throw e (back r)
           | Fault f => Fault f
           end
       end.

Definition with_pc (p : pc) (x : Worker) : Worker :=
  mkWorker (w_tls x) (w_main x) (w_idle x) (w_cb x) (w_task x) (w_active x) p.
Definition with_task (t : Task) (active : bool) (x : Worker) : Worker :=
  mkWorker (w_tls x) (w_main x) (w_idle x) (w_cb x) t active (w_pc x).
Definition with_cb (c : option Z) (x : Worker) : Worker :=
  mkWorker (w_tls x) (w_main x) (w_idle x) c (w_task x) (w_active x) (w_pc x).

(** [it->thread_id != -1 && it->thread_id != util::getThreadId()] *)
Definition foreign (tid : Z) (t : Task) : bool :=
  negb (task_thread t =? -1) && negb (task_thread t =? tid).

(** The walk over [m_tasks]. *)
Inductive picked :=
| Picked (t : Task) (rest : list Task)
| NoTask
| PickFault (f : fault).

Fixpoint pick_loop (tid : Z) (fs : gmap Z Fiber) (pre : list Task) (ts : list Task)
    (should_notify : bool) : picked * bool :=
  match ts with
  | [] => (NoTask, should_notify)
  | t :: ts' =>
      if foreign tid t then pick_loop tid fs (pre ++ [t]) ts' true
      else match task_cb t, task_fiber t with
           | None, None => (PickFault AssertFailed, should_notify)
           | Some _, None => (Picked t (pre ++ ts'), should_notify)
           | _, Some f =>
               match fs !! f with
               | None => (PickFault NullDeref, should_notify)
               | Some fb => if bool_decide (m_state fb = EXEC)
                            then pick_loop tid fs (pre ++ [t]) ts' should_notify
                            else (Picked t (pre ++ ts'), should_notify)
               end
           end
  end.

(** [task.reset()] and the locked block. *)
Definition pick (tid : Z) : M world unit :=
  x <- get_worker tid;;
  w <- mget;;
  let '(p, should_notify) := pick_loop tid (w_fibers w) [] (m_tasks (sched w)) false in
  match p with
  | PickFault f => mfault f
  | NoTask => put_worker tid (with_pc (Dispatch should_notify) (with_task Task_empty false x))
  | Picked t rest =>
      on_sched (λ s, add_active 1 (set_tasks rest s));;
      put_worker tid (with_pc (Dispatch should_notify) (with_task t true x))
  end.

(** [swapIn(getMainFiber())] up to the switch. *)
Definition enter_fiber (tid : Z) (k : kind) (f : Z) : M world unit :=
  x <- get_worker tid;;
  on_fiber tid (swapIn_begin f (w_main x));;
  x <- get_worker tid;;
  put_worker tid (with_pc (Running k f) x).

Definition state_of (f : Z) : M world State :=
  w <- mget;;
  match w_fibers w !! f with Some fb => mreturn (m_state fb) | None => mfault NullDeref end.

(** The branch of a callback: [fresh] is the address a new fiber gets. *)
Definition begin_cb (tid fresh : Z) (cb : prog) (x : Worker) : M world unit :=
  f <- match w_cb x with
       | Some f => on_fiber tid (reset f (Some cb) true);; mreturn f
       | None => on_fiber tid (Fiber_new fresh (Some cb) true)
       end;;
  x <- get_worker tid;;
  put_worker tid (with_task Task_empty (w_active x) (with_cb (Some f) x));;
  enter_fiber tid KCb f.

(** The last branch: a task with nothing to run, or none at all. *)
Definition begin_idle (tid : Z) (x : Worker) : M world unit :=
  if w_active x then
    on_sched (add_active (-1));;
    put_worker tid (with_pc Loop (with_task (w_task x) false x))
  else
    s <- state_of (w_idle x);;
    if bool_decide (s = TERM) then put_worker tid (with_pc Exited x) else
    on_sched (add_idle 1);;
    enter_fiber tid KIdle (w_idle x).

(** [task.fiber && state != TERM && state != ERROR] *)
Definition runnable (x : Worker) : M world bool :=
  match task_fiber (w_task x) with
  | None => mreturn false
  | Some f => s <- state_of f;;
              mreturn (negb (bool_decide (s = TERM)) && negb (bool_decide (s = ERROR)))
  end.

(** From behind the lock to the switch. *)
Definition begin (tid : Z) (fresh : Z) : M world unit :=
  x <- get_worker tid;;
  match w_pc x with
  | Dispatch should_notify =>
      (if (should_notify : bool) then on_sched notify else mreturn tt);;
      r <- runnable x;;
      match task_fiber (w_task x), (r : bool), task_cb (w_task x) with
      | Some f, true, _ => enter_fiber tid KTask f
      | _, _, Some cb => begin_cb tid fresh cb x
      | _, _, None => begin_idle tid x
      end
  | _ => mreturn tt
  end.

(** A slice of [idle()]: [while (!stopping()) yieldToHold(getMainFiber())]. *)
Definition idle_slice (stop : bool) (main : Z) : prog :=
  if stop then PReturn else PYieldToHold (ToFiber main) PReturn.

Definition set_fiber_state (f : Z) (s : State) : M world unit :=
  w <- mget;;
  match w_fibers w !! f with
  | None => mfault NullDeref
  | Some fb => mput (mkWorld (sched w) (<[f := set_state s fb]> (w_fibers w)) (w_fiber_id w)
                       (w_fiber_count w) (workers w))
  end.

(** The code of the running fiber up to its next switch. *)
Definition run_slice (tid : Z) (k : kind) (f : Z) : M world (list effect * Z) :=
  x <- get_worker tid;;
  w <- mget;;
  on_fiber tid (match k, w_main x with
                | KIdle, Some m => run_prog f (idle_slice (stopping (sched w)) m)
                | KIdle, None => mfault NullDeref
                | _, _ => enter f
                end).

Definition put_pc (tid : Z) (p : pc) : M world unit :=
  x <- get_worker tid;; put_worker tid (with_pc p x).

(** The code runs: the calls of schedule in it come first. *)
Definition enter_slice (tid : Z) : M world unit :=
  x <- get_worker tid;;
  match w_pc x with
  | Running k f =>
      w <- mget;;
      match run_slice tid k f w with
      | Ret r _ => put_pc tid (Calling k f r.1)
      | Throw e _ => mthrow e
      | Fault e => mfault e
      end
  | _ => mreturn tt
  end.

(** One call of schedule. *)
Definition call_schedule (tid : Z) : M world unit :=
  x <- get_worker tid;;
  match w_pc x with
  | Calling k f (e :: es) => on_sched (schedule (effect_task e));; put_pc tid (Calling k f es)
  | _ => mreturn tt
  end.

(** The switch; control has to come back to the worker. *)
Definition switch_back (tid : Z) : M world unit :=
  x <- get_worker tid;;
  match w_pc x with
  | Calling k f [] =>
      r <- run_slice tid k f;;
      if negb (bool_decide (Some r.2 = w_main x)) then mfault ForeignSwitch else put_pc tid (Back k f)
  | _ => mreturn tt
  end.

(** [--m_active_threads_count], or [--m_idle_threads_count]. *)
Definition count_down (tid : Z) : M world unit :=
  x <- get_worker tid;;
  match w_pc x with
  | Back k f =>
      on_sched (match k with KIdle => add_idle (-1) | _ => add_active (-1) end);;
      put_worker tid (with_pc (Counted k f) (with_task (w_task x) false x))
  | _ => mreturn tt
  end.

(** What [run()] does with the fiber then. *)
Definition finish (tid : Z) : M world unit :=
  x <- get_worker tid;;
  match w_pc x with
  | Counted k f =>
      s <- state_of f;;
      match k with
      | KTask =>
          (if bool_decide (s = READY) then on_sched (schedule (Task_of_fiber (Some f) (-1)))
           else if negb (bool_decide (s = TERM)) && negb (bool_decide (s = ERROR))
           then set_fiber_state f HOLD else mreturn tt);;
          put_worker tid (with_pc Loop (with_task Task_empty false x))
      | KCb =>
          if bool_decide (s = READY) then
            on_sched (schedule (Task_of_fiber (Some f) (-1)));;
            put_worker tid (with_pc Loop (with_cb None x))
          else if bool_decide (s = TERM) || bool_decide (s = ERROR) then
            on_fiber tid (reset f None true);;
            put_pc tid Loop
          else
            set_fiber_state f HOLD;;
            put_worker tid (with_pc Loop (with_cb None x))
      | KIdle =>
          (if negb (bool_decide (s = TERM)) && negb (bool_decide (s = ERROR))
           then set_fiber_state f HOLD else mreturn tt);;
          put_worker tid (with_pc Loop x)
      end
  | _ => mreturn tt
  end.
