(* ===== verification/SchedulerSpec.v ===== *)
(** * What the scheduler promises

    Runs of any number of workers interleaved with calls from outside, as a
    step relation: the two thread counters are exact, the queue's assertion
    never fails, and once [stopping()] holds nothing runs any more. *)

From S2P Require Import Prelude Fiber Scheduler.

(** What the counters depend on: of each worker, whether it counts as
    active, where it is, and its task. *)
Abbreviation entry := (bool * pc * Task)%type.
Definition view (w : world) : gmap Z entry :=
  (λ x, (w_active x, w_pc x, w_task x)) <$> workers w.

Definition count (P : entry → bool) (v : gmap Z entry) : Z :=
  foldr Z.add 0 ((λ e, if P e.2 then 1 else 0) <$> map_to_list v).

Definition is_active (e : entry) : bool := e.1.1.
Definition is_idling (e : entry) : bool :=
  match e.1.2 with
  | Running KIdle _ | Calling KIdle _ _ | Back KIdle _ => true
  | _ => false
  end.

Definition has_work (t : Task) : Prop := is_Some (task_cb t) ∨ is_Some (task_fiber t).

(** A worker counts as active exactly while it holds a task or runs one. *)
Definition entry_ok (e : entry) : Prop :=
  match e.1.2 with
  | Loop | Exited | Counted _ _ | Running KIdle _ | Back KIdle _ => e.1.1 = false
  | Calling KIdle _ es => e.1.1 = false ∧ es = []
  | Running _ _ | Calling _ _ _ | Back _ _ => e.1.1 = true
  | Dispatch _ => e.1.1 = false → e.2 = Task_empty
  end.

Record sinv (w : world) : Prop := {
  s_active : m_active_threads_count (sched w) = count is_active (view w);
  s_idle : m_idle_threads_count (sched w) = count is_idling (view w);
  s_tasks : Forall has_work (m_tasks (sched w));
  s_entries : ∀ tid e, view w !! tid = Some e → entry_ok e;
  s_workers : Z.of_nat (size (view w)) < 2 ^ 64;
}.

(** ** Counting *)

Lemma sum_app l1 l2 : foldr Z.add 0 (l1 ++ l2) = foldr Z.add 0 l1 + foldr Z.add 0 l2.
Proof. induction l1; simpl; lia. Qed.
Lemma sum_perm l1 l2 : l1 ≡ₚ l2 → foldr Z.add 0 l1 = foldr Z.add 0 l2.
Proof. induction 1; simpl; lia. Qed.

Definition b2z (b : bool) : Z := if b then 1 else 0.

Lemma count_insert_fresh P v tid e : v !! tid = None →
  count P (<[tid := e]> v) = b2z (P e) + count P v.
Proof.
  intros Hv. unfold count. rewrite (sum_perm _ _ (fmap_Permutation _ _ _ (map_to_list_insert v tid e Hv))).
  done.
Qed.

Lemma count_delete P v tid e : v !! tid = Some e → count P v = b2z (P e) + count P (delete tid v).
Proof.
  intros Hv. rewrite <-(insert_delete_id v tid e Hv) at 1. apply count_insert_fresh, lookup_delete_eq.
Qed.

Lemma count_update P v tid e e' : v !! tid = Some e →
  count P (<[tid := e']> v) = count P v - b2z (P e) + b2z (P e').
Proof.
  intros Hv. rewrite <-(insert_delete_eq v tid), count_insert_fresh by apply lookup_delete_eq.
  rewrite (count_delete P v tid e Hv). lia.
Qed.

Lemma count_bounds P v : 0 ≤ count P v ≤ Z.of_nat (size v).
Proof.
  unfold count. rewrite <-length_map_to_list. induction (map_to_list v) as [|[k e] l IH]; [simpl; lia|].
  rewrite fmap_cons. cbn [foldr length snd]. destruct (P e); lia.
Qed.

Lemma count_pos P v tid e : v !! tid = Some e → P e = true → 0 < count P v.
Proof.
  intros Hv HP. rewrite (count_delete P v tid e Hv), HP. pose proof (count_bounds P (delete tid v)). simpl. lia.
Qed.

Lemma size_update (v : gmap Z entry) tid e e' : v !! tid = Some e → size (<[tid := e']> v) = size v.
Proof. intros E. rewrite map_size_insert. by rewrite E. Qed.

(** Replacing one entry and adjusting the counters keeps the invariant. *)
Lemma sinv_update w w' tid e e' da di :
  sinv w → view w !! tid = Some e → view w' = <[tid := e']> (view w) → entry_ok e' →
  m_active_threads_count (sched w') = u64 (m_active_threads_count (sched w) + da) →
  m_idle_threads_count (sched w') = u64 (m_idle_threads_count (sched w) + di) →
  da = b2z (is_active e') - b2z (is_active e) → di = b2z (is_idling e') - b2z (is_idling e) →
  Forall has_work (m_tasks (sched w')) → sinv w'.
Proof.
  intros I He Hv Hok Ha Hi Hda Hdi Ht. pose proof (s_workers _ I) as Hs.
  pose proof (count_update is_active _ _ _ e' He) as C1.
  pose proof (count_update is_idling _ _ _ e' He) as C2.
  pose proof (size_update _ _ _ e' He) as Hz.
  pose proof (count_bounds is_active (<[tid := e']> (view w))).
  pose proof (count_bounds is_idling (<[tid := e']> (view w))).
  split; rewrite ?Hv; try done.
  - rewrite Ha, (s_active _ I), wrapu_small; [lia|lia|]. unfold urange. lia.
  - rewrite Hi, (s_idle _ I), wrapu_small; [lia|lia|]. unfold urange. lia.
  - intros t e1 E. apply lookup_insert_Some in E as [[_ <-]|[_ E]]; [done|]. by eapply s_entries.
  - by rewrite Hz.
Qed.

Lemma active_same w : sinv w → m_active_threads_count (sched w) = u64 (m_active_threads_count (sched w) + 0).
Proof.
  intros I. pose proof (count_bounds is_active (view w)). pose proof (s_workers _ I).
  pose proof (s_active _ I). rewrite Z.add_0_r, wrapu_small; [done|lia|unfold urange; lia].
Qed.
Lemma idle_same w : sinv w → m_idle_threads_count (sched w) = u64 (m_idle_threads_count (sched w) + 0).
Proof.
  intros I. pose proof (count_bounds is_idling (view w)). pose proof (s_workers _ I).
  pose proof (s_idle _ I). rewrite Z.add_0_r, wrapu_small; [done|lia|unfold urange; lia].
Qed.

(** ** Operations that the counters do not see *)

Definition same_flags (s s' : Scheduler) : Prop :=
  m_active_threads_count s' = m_active_threads_count s ∧
  m_idle_threads_count s' = m_idle_threads_count s ∧
  m_stopping s' = m_stopping s ∧ m_auto_stop s' = m_auto_stop s.

Record frame (w w' : world) : Prop := {
  f_view : view w' = view w;
  f_flags : same_flags (sched w) (sched w');
  f_tasks : Forall has_work (m_tasks (sched w)) → Forall has_work (m_tasks (sched w'));
}.

#[global] Instance frame_refl : Reflexive frame.
Proof. by split. Qed.
#[global] Instance frame_trans : Transitive frame.
Proof.
  intros w1 w2 w3 [V1 (?&?&?&?) T1] [V2 (?&?&?&?) T2]. split; [congruence| |auto].
  repeat split; congruence.
Qed.

Lemma schedule_flags t s : same_flags s (schedule t s) ∧
  (Forall has_work (m_tasks s) → Forall has_work (m_tasks (schedule t s))).
Proof.
  unfold schedule, mSchedule, has_work. destruct t as [[cb|] [f|] tid]; simpl;
    case_bool_decide; simpl; (split; [done|]); intros; try done;
    apply Forall_app_2; try done; apply Forall_singleton; simpl; eauto.
Qed.

Lemma schedule_fiber_tasks f t s :
  m_tasks (schedule (Task_of_fiber (Some f) t) s) = m_tasks s ++ [Task_of_fiber (Some f) t].
Proof. unfold schedule, mSchedule. simpl. by destruct (bool_decide _). Qed.

Lemma view_insert_same w tid x y s fs i c : workers w !! tid = Some x →
  w_active y = w_active x → w_pc y = w_pc x → w_task y = w_task x →
  view (mkWorld s fs i c (<[tid := y]> (workers w))) = view w.
Proof.
  intros Hx Ha Hp Ht. unfold view. simpl. rewrite fmap_insert, Ha, Hp, Ht.
  apply insert_id. by rewrite lookup_fmap, Hx.
Qed.

Lemma on_fiber_frame {A} tid (m : M rt A) w a w' : on_fiber tid m w = Ret a w' →
  frame w w' ∧ sched w' = sched w.
Proof.
  unfold on_fiber. destruct (workers w !! tid) as [x|] eqn:Ex; [|done].
  destruct (m _) as [b r|e r|f]; intros [= <- <-]. split; [|done]. split; [|done|done].
  by eapply view_insert_same.
Qed.

Lemma state_of_inv f w s w' : state_of f w = Ret s w' → w' = w.
Proof. unfold state_of. mrun. destruct (w_fibers w !! f); by intros [= _ <-]. Qed.
Lemma get_worker_inv tid w x w' : get_worker tid w = Ret x w' → w' = w ∧ workers w !! tid = Some x.
Proof. unfold get_worker. mrun. destruct (workers w !! tid); by intros [= <- <-]. Qed.

Lemma set_fiber_state_frame f s w w' : set_fiber_state f s w = Ret tt w' →
  frame w w' ∧ sched w' = sched w.
Proof. unfold set_fiber_state. mrun. destruct (w_fibers w !! f); by intros [= <-]. Qed.

Lemma schedule_frame t w w' : on_sched (schedule t) w = Ret tt w' → frame w w'.
Proof.
  intros [= <-]. destruct (schedule_flags t (sched w)) as [F T]. by split.
Qed.

Lemma idle_effects f stop main w r w' : run_prog f (idle_slice stop main) w = Ret r w' → r.1 = [].
Proof.
  unfold idle_slice. destruct stop; cbn [run_prog]; intros H; repeat minv H as ? ? ?; by injection H as <- _.
Qed.

Lemma run_slice_frame tid k f w r w' : run_slice tid k f w = Ret r w' → frame w w' ∧ sched w' = sched w.
Proof.
  unfold run_slice. intros H. minv H as x w1 E. apply get_worker_inv in E as [-> _].
  minv H as w2 w3 E. injection E as <- <-. by eapply on_fiber_frame.
Qed.

(** The idle fiber schedules nothing. *)
Lemma run_slice_idle tid f w r w' : run_slice tid KIdle f w = Ret r w' → r.1 = [].
Proof.
  unfold run_slice. intros H. minv H as x w1 E. apply get_worker_inv in E as [-> Hx].
  minv H as w2 w3 E. injection E as <- <-. unfold on_fiber in H. rewrite Hx in H.
  destruct (w_main x) as [m|]; [|done]. destruct (run_prog _ _ _) eqn:R; simplify_eq. by eapply idle_effects.
Qed.

(** ** Every step keeps the invariant *)

Lemma frame_sinv w w' : frame w w' → sinv w → sinv w'.
Proof.
  intros [V (Fa & Fi & _) T] I. split; rewrite ?V, ?Fa, ?Fi; try apply I. apply T, I.
Qed.

Lemma view_lookup w tid x : workers w !! tid = Some x →
  view w !! tid = Some (w_active x, w_pc x, w_task x).
Proof. intros E. unfold view. by rewrite lookup_fmap, E. Qed.

Lemma put_worker_inv tid y w w' : put_worker tid y w = Ret tt w' →
  sched w' = sched w ∧ w_fibers w' = w_fibers w ∧
  view w' = <[tid := (w_active y, w_pc y, w_task y)]> (view w).
Proof. intros [= <-]. split_and!; try done. unfold view. simpl. by rewrite fmap_insert. Qed.

Lemma enter_fiber_inv tid k f w w' : enter_fiber tid k f w = Ret tt w' →
  sched w' = sched w ∧
  ∃ x, workers w !! tid = Some x ∧ view w' = <[tid := (w_active x, Running k f, w_task x)]> (view w).
Proof.
  unfold enter_fiber. intros H. minv H as x w1 E. apply get_worker_inv in E as [-> Hx].
  minv H as [] w2 E. destruct (on_fiber_frame _ _ _ _ _ E) as [F S].
  minv H as y w3 E'. apply get_worker_inv in E' as [-> Hy].
  apply put_worker_inv in H as (S' & _ & V). split; [congruence|]. exists x. split; [done|].
  assert (Hv : view w2 !! tid = view w !! tid) by (by rewrite (f_view _ _ F)).
  rewrite (view_lookup _ _ _ Hx), (view_lookup _ _ _ Hy) in Hv. injection Hv as Ha Hp Ht.
  rewrite V, (f_view _ _ F). simpl. by rewrite Ha, Ht.
Qed.

Lemma pick_loop_work tid fs pre ts n t rest n' : Forall has_work (pre ++ ts) →
  pick_loop tid fs pre ts n = (Picked t rest, n') → has_work t ∧ Forall has_work rest.
Proof.
  revert pre n. induction ts as [|u ts IH]; intros pre n Hw; [done|]. cbn [pick_loop].
  assert (Hskip : Forall has_work ((pre ++ [u]) ++ ts)) by (by rewrite <-(assoc_L app)).
  apply Forall_app in Hw as [Hpre Hw]. apply Forall_cons in Hw as [Hu Hts].
  assert (Hrest : Forall has_work (pre ++ ts)) by by apply Forall_app_2.
  destruct (foreign tid u); [by apply IH|].
  destruct (task_cb u), (task_fiber u) as [f|]; try (by intros [= <- <- <-]).
  all: destruct (fs !! f); [|done]; case_bool_decide; [by apply IH|by intros [= <- <- <-]].
Qed.

(** The queue's [LON_ASSERT(it->cb || it->fiber)] holds for tasks with work. *)
Lemma pick_loop_assert tid fs pre ts n : Forall has_work ts →
  (pick_loop tid fs pre ts n).1 ≠ PickFault AssertFailed.
Proof.
  intros Hw. revert pre n. induction Hw as [|u ts Hu Hts IH]; intros pre n; [done|]. cbn [pick_loop].
  destruct (foreign tid u); [apply IH|]. destruct Hu as [Hu|Hu]; destruct Hu as [y Hy]; rewrite Hy.
  - destruct (task_fiber u) as [f|]; [|done]. destruct (fs !! f); [|done]. case_bool_decide; [apply IH|done].
  - destruct (task_cb u), (fs !! y); try done; case_bool_decide; (apply IH || done).
Qed.

Lemma pick_sinv tid w w' x : sinv w → workers w !! tid = Some x → w_pc x = Loop →
  pick tid w = Ret tt w' → sinv w'.
Proof.
  intros I Hx Hpc. unfold pick. intros H. minv H as x' w1 E.
  apply get_worker_inv in E as [-> Hx']. simplify_eq. minv H as w2 w3 E. injection E as <- <-.
  pose proof (view_lookup _ _ _ Hx) as Hv. rewrite Hpc in Hv.
  pose proof (s_entries _ I _ _ Hv) as Ha. simpl in Ha.
  destruct (pick_loop tid (w_fibers w) [] (m_tasks (sched w)) false) as [p n] eqn:Ep.
  destruct p as [t rest| |f]; [| |done].
  - destruct (pick_loop_work tid (w_fibers w) [] (m_tasks (sched w)) false t rest n (s_tasks _ I) Ep).
    minv H as [] w1 E. injection E as <-. apply put_worker_inv in H as (S & _ & V).
    eapply (sinv_update w w' tid _ _ 1 0 I Hv V); rewrite ?S; simpl; rewrite ?Ha; try done.
    by apply idle_same.
  - apply put_worker_inv in H as (S & _ & V).
    eapply (sinv_update w w' tid _ _ 0 0 I Hv V); rewrite ?S; simpl; rewrite ?Ha; try done.
    + by apply active_same.
    + by apply idle_same.
    + apply I.
Qed.

(** Entering a fiber moves the worker from [Dispatch] to [Running]. *)
Lemma enter_fiber_sinv tid k f w w0 w' a t n : sinv w0 → view w0 !! tid = Some (a, Dispatch n, t) →
  (k ≠ KIdle ∧ a = true ∧ sched w = sched w0 ∨ k = KIdle ∧ a = false ∧ sched w = add_idle 1 (sched w0)) →
  (∃ t', view w = <[tid := (a, Dispatch n, t')]> (view w0)) →
  enter_fiber tid k f w = Ret tt w' → sinv w'.
Proof.
  intros I Hv Hk [t' V] H. apply enter_fiber_inv in H as (S & x & Hx & V').
  apply view_lookup in Hx. rewrite V, lookup_insert_eq in Hx. injection Hx as Ha Hp Ht.
  rewrite V, insert_insert_eq in V'. rewrite <-Ha, <-Ht in V'.
  eapply (sinv_update w0 w' tid _ _ 0 (match k with KIdle => 1 | _ => 0 end) I Hv V'); rewrite ?S.
  - by destruct k, Hk as [(? & -> & _)|(? & -> & _)].
  - destruct Hk as [(_ & _ & ->)|(_ & _ & ->)]; [|simpl]; by apply active_same.
  - destruct k, Hk as [(? & _ & ->)|(? & _ & ->)]; try done; by apply idle_same.
  - cbn. by destruct a.
  - by destruct k.
  - destruct Hk as [(_ & _ & ->)|(_ & _ & ->)]; apply I.
Qed.

Lemma insert_view_id w tid e : view w !! tid = Some e → view w = <[tid := e]> (view w).
Proof. intros. by rewrite insert_id. Qed.

Lemma begin_cb_sinv tid fresh cb x w w' t n : sinv w → view w !! tid = Some (true, Dispatch n, t) →
  begin_cb tid fresh cb x w = Ret tt w' → sinv w'.
Proof.
  intros I Hv H. unfold begin_cb in H. minv H as f w2 E.
  assert (F : frame w w2 ∧ sched w2 = sched w).
  { destruct (w_cb x); [|by eapply on_fiber_frame]. minv E as [] w3 E'. injection E as _ <-.
    by eapply on_fiber_frame. }
  destruct F as [F S]. minv H as y w3 E'. apply get_worker_inv in E' as [-> Hy].
  minv H as [] w3 E'. apply put_worker_inv in E' as (S' & _ & V).
  apply view_lookup in Hy. rewrite (f_view _ _ F), Hv in Hy. injection Hy as Hy1 Hy2 Hy3.
  eapply (enter_fiber_sinv tid KCb f w3 w); [done|done| | |done].
  - left. split_and!; try done. congruence.
  - exists Task_empty. rewrite V, (f_view _ _ F). simpl. by rewrite <-Hy1, <-Hy2.
Qed.

Lemma begin_idle_sinv tid x w w' n : sinv w →
  view w !! tid = Some (w_active x, Dispatch n, w_task x) → begin_idle tid x w = Ret tt w' → sinv w'.
Proof.
  intros I Hv H. unfold begin_idle in H. destruct (w_active x) eqn:Hw.
  - minv H as [] w2 E. injection E as <-. apply put_worker_inv in H as (S & _ & V).
    eapply (sinv_update w w' tid _ _ (-1) 0 I Hv V); rewrite ?S; try done;
      [by apply (idle_same w)|apply I].
  - minv H as s w2 E. apply state_of_inv in E as ->. case_bool_decide.
    + apply put_worker_inv in H as (S & _ & V). simpl in V. rewrite Hw in V.
      eapply (sinv_update w w' tid _ _ 0 0 I Hv V); rewrite ?S; try done;
        [by apply (active_same w)|by apply (idle_same w)|apply I].
    + minv H as [] w2 E. injection E as <-.
      eapply (enter_fiber_sinv tid KIdle (w_idle x) _ w); [done|exact Hv| | |exact H].
      * right. split_and!; reflexivity.
      * exists (w_task x). by apply (insert_view_id w).
Qed.

(** The first lines of [begin]: the worker, the notify and the test. *)
Lemma begin_inv tid fresh w w' x n : workers w !! tid = Some x → w_pc x = Dispatch n →
  begin tid fresh w = Ret tt w' →
  ∃ w1 r, frame w w1 ∧ sched w1 = (if n then notify (sched w) else sched w) ∧
    (task_fiber (w_task x) = None → r = false) ∧
    match task_fiber (w_task x), (r : bool), task_cb (w_task x) with
    | Some f, true, _ => enter_fiber tid KTask f w1 = Ret tt w'
    | _, _, Some cb => begin_cb tid fresh cb x w1 = Ret tt w'
    | _, _, None => begin_idle tid x w1 = Ret tt w'
    end.
Proof.
  intros Hx Hpc H. unfold begin in H. minv H as x' w1 E.
  apply get_worker_inv in E as [-> Hx']. simplify_eq. rewrite Hpc in H. minv H as [] w1 E.
  assert (F : frame w w1 ∧ sched w1 = if n then notify (sched w) else sched w)
    by (destruct n; by injection E as <-).
  destruct F as [F S]. minv H as r w2 E1. assert (w2 = w1 ∧ (task_fiber (w_task x) = None → r = false)) as [-> Hr].
  { unfold runnable in E1. destruct (task_fiber (w_task x)); [|by injection E1 as <- <-].
    minv E1 as s w3 E'. apply state_of_inv in E' as ->. by injection E1 as _ <-. }
  exists w1, r. split_and!; try done.
  destruct (task_fiber (w_task x)), r, (task_cb (w_task x)); done.
Qed.

Lemma begin_sinv tid fresh w w' x n : sinv w → workers w !! tid = Some x → w_pc x = Dispatch n →
  begin tid fresh w = Ret tt w' → sinv w'.
Proof.
  intros I Hx Hpc H. destruct (begin_inv _ _ _ _ _ _ Hx Hpc H) as (w1 & r & F & _ & _ & H').
  pose proof (frame_sinv _ _ F I) as I1.
  assert (Hv : view w1 !! tid = Some (w_active x, Dispatch n, w_task x))
    by (rewrite (f_view _ _ F), <-Hpc; by apply view_lookup).
  pose proof (s_entries _ I1 _ _ Hv) as Ha. cbn in Ha.
  assert (Hact : w_task x ≠ Task_empty → w_active x = true) by (destruct (w_active x); naive_solver).
  destruct (task_fiber (w_task x)) as [f|] eqn:Ef; [destruct r|].
  - rewrite Hact in Hv by (intros E; by rewrite E in Ef).
    eapply (enter_fiber_sinv tid KTask f w1 w1); [done|exact Hv|by left| |exact H'].
    exists (w_task x). by apply insert_view_id.
  - rewrite Hact in Hv by (intros E; by rewrite E in Ef).
    destruct (task_cb (w_task x)) eqn:Ec; [by eapply begin_cb_sinv|].
    eapply begin_idle_sinv; [done| |done]. by rewrite Hact by (intros E; by rewrite E in Ef).
  - destruct (task_cb (w_task x)) eqn:Ec; [|by eapply begin_idle_sinv].
    rewrite Hact in Hv by (intros E; by rewrite E in Ec). by eapply begin_cb_sinv.
Qed.

(** The worker moves on and the counters do not see it. *)
Lemma put_pc_inv tid p w w' : put_pc tid p w = Ret tt w' → sched w' = sched w ∧ w_fibers w' = w_fibers w ∧
  ∃ x, workers w !! tid = Some x ∧ view w' = <[tid := (w_active x, p, w_task x)]> (view w).
Proof.
  unfold put_pc. intros H. minv H as x w1 E. apply get_worker_inv in E as [-> Hx].
  apply put_worker_inv in H as (S & F & V). split; [done|]. split; [done|]. by exists x.
Qed.
Lemma sinv_moves tid w w1 w' x p p' t' : sinv w → workers w !! tid = Some x → w_pc x = p → frame w w1 →
  sched w' = sched w1 → view w' = <[tid := (w_active x, p', t')]> (view w1) →
  entry_ok (w_active x, p', t') → is_idling (w_active x, p', t') = is_idling (w_active x, p, w_task x) → sinv w'.
Proof.
  intros I Hx Hp F S V Hok Hi. pose proof (frame_sinv _ _ F I) as I1. pose proof (view_lookup _ _ _ Hx) as Hv.
  rewrite Hp, <-(f_view _ _ F) in Hv.
  eapply (sinv_update w1 w' tid _ _ 0 0 I1 Hv V Hok); rewrite ?S; [by apply active_same|by apply idle_same| | |apply I1].
  - cbn. lia.
  - rewrite Hi. lia.
Qed.

Lemma enter_slice_inv tid w w' x k f : workers w !! tid = Some x → w_pc x = Running k f →
  enter_slice tid w = Ret tt w' → ∃ r w1, run_slice tid k f w = Ret r w1 ∧ put_pc tid (Calling k f r.1) w = Ret tt w'.
Proof.
  intros Hx Hp H. unfold enter_slice in H. minv H as x' w1 E. apply get_worker_inv in E as [-> Hx']. simplify_eq.
  rewrite Hp in H. minv H as w1 w2 E. injection E as <- <-.
  destruct (run_slice tid k f w) as [r w1|e w1|e]; [|done..]. by exists r, w1.
Qed.
Lemma enter_slice_sinv tid w w' x k f : sinv w → workers w !! tid = Some x → w_pc x = Running k f →
  enter_slice tid w = Ret tt w' → sinv w'.
Proof.
  intros I Hx Hp H. destruct (enter_slice_inv _ _ _ _ _ _ Hx Hp H) as (r & w1 & E & P).
  apply put_pc_inv in P as (S & _ & y & Hy & V). simplify_eq.
  pose proof (s_entries _ I _ _ (view_lookup _ _ _ Hx)) as Ha. rewrite Hp in Ha. cbn in Ha.
  assert (Hr : k = KIdle → r.1 = []) by (intros ->; by eapply run_slice_idle).
  eapply (sinv_moves tid w w); [done|exact Hx|exact Hp|done|exact S|exact V|destruct k; cbn; auto|by destruct k].
Qed.

Lemma call_schedule_inv tid w w' x k f e es : workers w !! tid = Some x → w_pc x = Calling k f (e :: es) →
  call_schedule tid w = Ret tt w' → ∃ w1, on_sched (schedule (effect_task e)) w = Ret tt w1 ∧
    put_pc tid (Calling k f es) w1 = Ret tt w'.
Proof.
  intros Hx Hp H. unfold call_schedule in H. minv H as x' w1 E. apply get_worker_inv in E as [-> Hx']. simplify_eq.
  rewrite Hp in H. minv H as [] w1 E. by exists w1.
Qed.
Lemma call_schedule_sinv tid w w' x k f e es : sinv w → workers w !! tid = Some x → w_pc x = Calling k f (e :: es) →
  call_schedule tid w = Ret tt w' → sinv w'.
Proof.
  intros I Hx Hp H. destruct (call_schedule_inv _ _ _ _ _ _ _ _ Hx Hp H) as (w1 & E & P).
  pose proof (s_entries _ I _ _ (view_lookup _ _ _ Hx)) as Ha. rewrite Hp in Ha. cbn in Ha.
  apply put_pc_inv in P as (S & _ & y & Hy & V).
  assert (y = x) as -> by (injection E as <-; cbn in Hy; congruence).
  eapply (sinv_moves tid w w1); [done|exact Hx|exact Hp|by eapply schedule_frame|exact S|exact V|destruct k; naive_solver|by destruct k].
Qed.

Lemma switch_back_inv tid w w' x k f : workers w !! tid = Some x → w_pc x = Calling k f [] →
  switch_back tid w = Ret tt w' → ∃ r w1, run_slice tid k f w = Ret r w1 ∧ Some r.2 = w_main x ∧ put_pc tid (Back k f) w1 = Ret tt w'.
Proof.
  intros Hx Hp H. unfold switch_back in H. minv H as x' w1 E. apply get_worker_inv in E as [-> Hx']. simplify_eq.
  rewrite Hp in H. minv H as r w1 E. case_bool_decide as Hr; [|done]. by exists r, w1.
Qed.
Lemma switch_back_sinv tid w w' x k f : sinv w → workers w !! tid = Some x → w_pc x = Calling k f [] →
  switch_back tid w = Ret tt w' → sinv w'.
Proof.
  intros I Hx Hp H. destruct (switch_back_inv _ _ _ _ _ _ Hx Hp H) as (r & w1 & E & _ & P).
  pose proof (s_entries _ I _ _ (view_lookup _ _ _ Hx)) as Ha. rewrite Hp in Ha. cbn in Ha.
  apply put_pc_inv in P as (S & _ & y & Hy & V). destruct (run_slice_frame _ _ _ _ _ _ E) as [F _].
  pose proof (view_lookup _ _ _ Hy) as Hvy. rewrite (f_view _ _ F), (view_lookup _ _ _ Hx) in Hvy.
  injection Hvy as Ea _ Et. rewrite <-Ea, <-Et in V.
  eapply (sinv_moves tid w w1); [done|exact Hx|exact Hp|exact F|exact S|exact V|destruct k; naive_solver|by destruct k].
Qed.

Lemma count_down_inv tid w w' x k f : workers w !! tid = Some x → w_pc x = Back k f → count_down tid w = Ret tt w' →
  sched w' = (match k with KIdle => add_idle (-1) | _ => add_active (-1) end) (sched w) ∧ w_fibers w' = w_fibers w ∧
  view w' = <[tid := (false, Counted k f, w_task x)]> (view w).
Proof.
  intros Hx Hp H. unfold count_down in H. minv H as x' w1 E. apply get_worker_inv in E as [-> Hx']. simplify_eq.
  rewrite Hp in H. minv H as [] w1 E. injection E as <-. apply put_worker_inv in H as (S & F & V). by rewrite S, F, V.
Qed.
Lemma count_down_sinv tid w w' x k f : sinv w → workers w !! tid = Some x → w_pc x = Back k f →
  count_down tid w = Ret tt w' → sinv w'.
Proof.
  intros I Hx Hp H. destruct (count_down_inv _ _ _ _ _ _ Hx Hp H) as (S & _ & V).
  pose proof (view_lookup _ _ _ Hx) as Hv. rewrite Hp in Hv. pose proof (s_entries _ I _ _ Hv) as Ha.
  eapply (sinv_update w w' tid _ _ (match k with KIdle => 0 | _ => -1 end) (match k with KIdle => -1 | _ => 0 end) I Hv V);
    rewrite ?S; cbn in Ha; destruct k; cbn; rewrite ?Ha; try done;
    try (by apply (active_same w)); try (by apply (idle_same w)); apply I.
Qed.

(** The end of a round: a re-schedule or none, and the worker is at the top
    of the loop, not active. *)
Lemma finish_inv tid w w' x k f : workers w !! tid = Some x → w_pc x = Counted k f → w_active x = false →
  finish tid w = Ret tt w' → ∃ w1 s t, state_of f w = Ret s w ∧ frame w w1 ∧ sched w' = sched w1 ∧
    view w' = <[tid := (false, Loop, t)]> (view w) ∧
    m_tasks (sched w1) = m_tasks (sched w) ++
      (if bool_decide (k ≠ KIdle) && bool_decide (s = READY) then [Task_of_fiber (Some f) (-1)] else []) ∧
    (k = KIdle → sched w1 = sched w).
Proof.
  intros Hx Hp Ha H. unfold finish in H. minv H as x' w1 E. apply get_worker_inv in E as [-> Hx']. simplify_eq.
  rewrite Hp in H. minv H as s w1 E. pose proof (state_of_inv _ _ _ _ E) as ->.
  assert (Hend : ∀ w2 y, put_worker tid y w2 = Ret tt w' → w_active y = false → w_pc y = Loop → frame w w2 →
    sched w' = sched w2 ∧ view w' = <[tid := (false, Loop, w_task y)]> (view w)).
  { intros w2 y P Hy1 Hy2 F. apply put_worker_inv in P as (S & _ & V). by rewrite V, (f_view _ _ F), Hy1, Hy2. }
  assert (Hsched : ∀ w2, on_sched (schedule (Task_of_fiber (Some f) (-1))) w = Ret tt w2 → frame w w2 ∧
    m_tasks (sched w2) = m_tasks (sched w) ++ [Task_of_fiber (Some f) (-1)]).
  { intros w2 E2. split; [by eapply schedule_frame|]. injection E2 as <-. apply schedule_fiber_tasks. }
  assert (Hhold : ∀ w2, (if negb (bool_decide (s = TERM)) && negb (bool_decide (s = ERROR)) then set_fiber_state f HOLD
      else mreturn tt) w = Ret tt w2 → frame w w2 ∧ sched w2 = sched w).
  { intros w2 E2. destruct (_ && _); [by eapply set_fiber_state_frame|by injection E2 as <-]. }
  destruct k; rewrite ?(bool_decide_eq_true_2 (KTask ≠ KIdle)), ?(bool_decide_eq_true_2 (KCb ≠ KIdle)),
    ?(bool_decide_eq_false_2 (KIdle ≠ KIdle)) by (done || by intros ?); cbn [andb].
  - minv H as [] w2 E2. destruct (bool_decide (s = READY)) eqn:Er.
    + destruct (Hsched _ E2) as [F T]. destruct (Hend w2 _ H eq_refl eq_refl F). exists w2, s, Task_empty. rewrite Er. by split_and!.
    + destruct (Hhold _ E2) as [F S]. destruct (Hend w2 _ H eq_refl eq_refl F). exists w2, s, Task_empty.
      split_and!; try done. by rewrite Er, S, app_nil_r.
  - destruct (bool_decide (s = READY)) eqn:Er; [|destruct (_ || _)]; minv H as [] w2 E2.
    + destruct (Hsched _ E2) as [F T]. destruct (Hend w2 _ H Ha eq_refl F). exists w2, s, (w_task x). rewrite Er. by split_and!.
    + destruct (on_fiber_frame _ _ _ _ _ E2) as [F S]. apply put_pc_inv in H as (S' & _ & y & Hy & V).
      pose proof (view_lookup _ _ _ Hy) as Hvy. rewrite (f_view _ _ F), (view_lookup _ _ _ Hx) in Hvy.
      injection Hvy as Ea _ Et. rewrite <-Ea, Ha, (f_view _ _ F) in V. exists w2, s, (w_task y). split_and!; try done.
      by rewrite Er, S, app_nil_r.
    + destruct (set_fiber_state_frame _ _ _ _ E2) as [F S]. destruct (Hend w2 _ H Ha eq_refl F).
      exists w2, s, (w_task x). split_and!; try done. by rewrite Er, S, app_nil_r.
  - minv H as [] w2 E2. destruct (Hhold _ E2) as [F S]. destruct (Hend w2 _ H Ha eq_refl F).
    exists w2, s, (w_task x). split_and!; try done. by rewrite S, app_nil_r.
Qed.
Lemma finish_sinv tid w w' x k f : sinv w → workers w !! tid = Some x → w_pc x = Counted k f →
  finish tid w = Ret tt w' → sinv w'.
Proof.
  intros I Hx Hp H. pose proof (s_entries _ I _ _ (view_lookup _ _ _ Hx)) as Ha. rewrite Hp in Ha. cbn in Ha.
  destruct (finish_inv _ _ _ _ _ _ Hx Hp Ha H) as (w1 & s & t & _ & F & S & V & _).
  eapply (sinv_moves tid w w1 w' x _ Loop t); [done|exact Hx|exact Hp|exact F|exact S| |by rewrite Ha|done].
  by rewrite (f_view _ _ F), Ha.
Qed.

(** ** Runs *)

(** A worker takes a step of [run()]. *)
Inductive wstep (w w' : world) : Prop :=
| W_pick tid x : workers w !! tid = Some x → w_pc x = Loop → pick tid w = Ret tt w' → wstep w w'
| W_begin tid x n fresh : workers w !! tid = Some x → w_pc x = Dispatch n →
    w_fibers w !! fresh = None → begin tid fresh w = Ret tt w' → wstep w w'
| W_slice tid x k f : workers w !! tid = Some x → w_pc x = Running k f → enter_slice tid w = Ret tt w' → wstep w w'
| W_call tid x k f e es : workers w !! tid = Some x → w_pc x = Calling k f (e :: es) →
    call_schedule tid w = Ret tt w' → wstep w w'
| W_switch tid x k f : workers w !! tid = Some x → w_pc x = Calling k f [] → switch_back tid w = Ret tt w' → wstep w w'
| W_count tid x k f : workers w !! tid = Some x → w_pc x = Back k f → count_down tid w = Ret tt w' → wstep w w'
| W_finish tid x k f : workers w !! tid = Some x → w_pc x = Counted k f → finish tid w = Ret tt w' → wstep w w'.

(** Code outside the workers schedules, stops, or makes fibers. *)
Inductive estep (w w' : world) : Prop :=
| E_schedule t : on_sched (schedule t) w = Ret tt w' → estep w w'
| E_flags b c : on_sched (set_flags b c) w = Ret tt w' → estep w w'
| E_new a fb : w_fibers w !! a = None →
    w' = mkWorld (sched w) (<[a := fb]> (w_fibers w)) (w_fiber_id w) (w_fiber_count w) (workers w) →
    estep w w'.

(** Workers that just entered [run()] with an empty queue. *)
Definition initial (w : world) : Prop :=
  m_tasks (sched w) = [] ∧ m_active_threads_count (sched w) = 0 ∧
  m_idle_threads_count (sched w) = 0 ∧ Z.of_nat (size (workers w)) < 2 ^ 64 ∧
  ∀ tid x, workers w !! tid = Some x → w_active x = false ∧ w_pc x = Loop.

Inductive sreach : world → Prop :=
| sreach_init w : initial w → sreach w
| sreach_worker w w' : sreach w → wstep w w' → sreach w'
| sreach_env w w' : sreach w → estep w w' → sreach w'.

Lemma count_none P v : (∀ tid e, v !! tid = Some e → P e = false) → count P v = 0.
Proof.
  intros H. unfold count. assert (Hl : ∀ i e, (i, e) ∈ map_to_list v → P e = false)
    by (intros i e Hin; apply elem_of_map_to_list in Hin; by eapply H).
  induction (map_to_list v) as [|[k e] l IH]; [done|]. rewrite fmap_cons. cbn [foldr snd].
  rewrite (Hl k e) by set_solver. rewrite IH; [done|]. intros i e' Hin. apply (Hl i). set_solver.
Qed.

Lemma initial_sinv w : initial w → sinv w.
Proof.
  intros (Ht & Ha & Hi & Hs & Hw).
  assert (Hv : ∀ tid e, view w !! tid = Some e → e.1.1 = false ∧ e.1.2 = Loop).
  { intros tid e E. unfold view in E. rewrite lookup_fmap in E. apply fmap_Some in E as (x & Hx & ->).
    by apply Hw in Hx. }
  split.
  - rewrite Ha, count_none; [done|]. intros tid e E. by apply Hv in E as [? _].
  - rewrite Hi, count_none; [done|]. intros tid e E. apply Hv in E as [_ E].
    unfold is_idling. by rewrite E.
  - by rewrite Ht.
  - intros tid e E. apply Hv in E as [E1 E2]. unfold entry_ok. by rewrite E2.
  - unfold view. by rewrite map_size_fmap.
Qed.

Lemma wstep_sinv w w' : sinv w → wstep w w' → sinv w'.
Proof.
  intros I [tid x Hx Hp H|tid x n fresh Hx Hp _ H|tid x k f Hx Hp H|tid x k f e es Hx Hp H|tid x k f Hx Hp H
    |tid x k f Hx Hp H|tid x k f Hx Hp H];
    [by eapply pick_sinv|by eapply begin_sinv|by eapply enter_slice_sinv|by eapply call_schedule_sinv
    |by eapply switch_back_sinv|by eapply count_down_sinv|by eapply finish_sinv].
Qed.

Lemma sreach_sinv w : sreach w → sinv w.
Proof.
  induction 1 as [w Hi|w w' _ IH Hs|w w' _ IH Hs]; [by apply initial_sinv|by eapply wstep_sinv|].
  destruct Hs as [t H|b c H|a fb _ ->].
  - eapply frame_sinv; [by eapply schedule_frame|done].
  - injection H as <-. destruct IH. by split.
  - destruct IH. by split.
Qed.

(** C3: In every interleaving of the workers with each other and with outside
    calls, [m_active_threads_count] is exactly the number of workers between
    taking a task and being done with it, [m_idle_threads_count] the number of
    workers inside their idle fiber (neither ever wraps below zero), and taking a task never trips the
    queue's assertion. *)
Theorem scheduler_counts_exact w tid :
  sreach w →
  m_active_threads_count (sched w) = count is_active (view w) ∧
  m_idle_threads_count (sched w) = count is_idling (view w) ∧
  (∀ t e, view w !! t = Some e → entry_ok e) ∧
  pick tid w ≠ Fault AssertFailed.
Proof.
  intros R. pose proof (sreach_sinv w R) as I. split_and!; try apply I. intros H.
  unfold pick, get_worker in H. unfold mbind', mget in H. destruct (workers w !! tid); [|done].
  cbv beta iota in H. unfold mreturn in H.
  pose proof (pick_loop_assert tid (w_fibers w) [] (m_tasks (sched w)) false (s_tasks _ I)) as Hp.
  destruct (pick_loop _ _ _ _ _) as [[t rest| |f] n]; try done. simpl in Hp. by injection H as ->.
Qed.

(** *** Stopping *)

Lemma stopping_inv s : stopping s = true →
  m_tasks s = [] ∧ m_active_threads_count s = 0 ∧ m_stopping s = true ∧ m_auto_stop s = true.
Proof.
  unfold stopping. rewrite !andb_true_iff, bool_decide_eq_true, Z.eqb_eq. tauto.
Qed.
Lemma stopping_intro s : m_tasks s = [] → m_active_threads_count s = 0 → m_stopping s = true →
  m_auto_stop s = true → stopping s = true.
Proof. intros H1 H2 H3 H4. unfold stopping. by rewrite H1, H2, H3, H4. Qed.

Lemma stopping_inactive w tid x : sinv w → stopping (sched w) = true → workers w !! tid = Some x →
  w_active x = false.
Proof.
  intros I Hs Hx. apply stopping_inv in Hs as (_ & Ha & _). rewrite (s_active _ I) in Ha.
  destruct (w_active x) eqn:E; [|done]. apply view_lookup in Hx.
  pose proof (count_pos is_active _ _ _ Hx) as Hp. cbn in Hp. specialize (Hp E). lia.
Qed.

(** No worker is between the decrement of the active counter and the
    re-schedule of its fiber. *)
Definition settled (w : world) : Prop :=
  ∀ tid x k f, workers w !! tid = Some x → w_pc x = Counted k f → k = KIdle.

Lemma settled_step w w' tid a p t : settled w → view w' = <[tid := (a, p, t)]> (view w) →
  (∀ k f, p = Counted k f → k = KIdle) → settled w'.
Proof.
  intros S V Hp t' x k f Hx Hpc. pose proof (view_lookup _ _ _ Hx) as Hv. rewrite V in Hv.
  apply lookup_insert_Some in Hv as [[_ E]|[_ Hv]].
  - injection E as _ Ep _. apply (Hp k f). congruence.
  - unfold view in Hv. rewrite lookup_fmap in Hv. apply fmap_Some in Hv as (y & Hy & E). injection E as _ Ep _.
    apply (S t' y k f Hy). congruence.
Qed.

Lemma pick_stopping tid w w' : m_tasks (sched w) = [] → pick tid w = Ret tt w' →
  sched w' = sched w ∧ ∃ n, view w' = <[tid := (false, Dispatch n, Task_empty)]> (view w).
Proof.
  intros Ht H. unfold pick in H. minv H as y w1 E. apply get_worker_inv in E as [-> _].
  minv H as w2 w3 E. injection E as <- <-. rewrite Ht in H. apply put_worker_inv in H as (S & _ & V).
  split; [done|]. eexists. exact V.
Qed.
Lemma begin_stopping tid fresh w w' x n : workers w !! tid = Some x → w_pc x = Dispatch n → w_active x = false →
  w_task x = Task_empty → stopping (sched w) = true → begin tid fresh w = Ret tt w' →
  stopping (sched w') = true ∧ ∃ a p t, view w' = <[tid := (a, p, t)]> (view w) ∧ ∀ k f, p ≠ Counted k f.
Proof.
  intros Hx Hp Ha Hok Hs H. destruct (begin_inv _ _ _ _ _ _ Hx Hp H) as (w1 & r & F & S & _ & H').
  rewrite Hok in H'. cbn in H'. assert (Hs1 : stopping (sched w1) = true) by (rewrite S; by destruct n).
  rewrite <-(f_view _ _ F). unfold begin_idle in H'. rewrite Ha in H'. minv H' as s w2 E. apply state_of_inv in E as ->.
  case_bool_decide.
  - apply put_worker_inv in H' as (-> & _ & V). split; [done|]. by eexists _, _, _.
  - minv H' as [] w2 E. injection E as <-. apply enter_fiber_inv in H' as (-> & y & _ & V).
    split; [exact Hs1|]. by eexists _, _, _.
Qed.

Lemma wstep_stopping w w' : sinv w → stopping (sched w) = true → settled w → wstep w w' →
  stopping (sched w') = true ∧ settled w'.
Proof.
  intros I Hs St Hstep. pose proof (stopping_inv _ Hs) as (Ht & _).
  destruct Hstep as [tid x Hx Hp H|tid x n fresh Hx Hp _ H|tid x k f Hx Hp H|tid x k f e es Hx Hp H|tid x k f Hx Hp H
    |tid x k f Hx Hp H|tid x k f Hx Hp H];
    pose proof (stopping_inactive w tid x I Hs Hx) as Hina;
    pose proof (s_entries _ I _ _ (view_lookup _ _ _ Hx)) as Hok; rewrite Hp, Hina in Hok; cbn in Hok.
  - destruct (pick_stopping _ _ _ Ht H) as (-> & n & V). split; [done|]. by eapply settled_step.
  - destruct (begin_stopping _ _ _ _ _ _ Hx Hp Hina (Hok eq_refl) Hs H) as (Hs' & a & p & t & V & Hn).
    split; [done|]. eapply settled_step; [done|exact V|]. intros k f E. by destruct (Hn k f).
  - destruct (enter_slice_inv _ _ _ _ _ _ Hx Hp H) as (r & w1 & _ & P). apply put_pc_inv in P as (-> & _ & y & _ & V).
    split; [done|]. by eapply settled_step.
  - destruct k; try done. by destruct Hok.
  - destruct (switch_back_inv _ _ _ _ _ _ Hx Hp H) as (r & w1 & E & _ & P).
    destruct (run_slice_frame _ _ _ _ _ _ E) as [F S]. apply put_pc_inv in P as (-> & _ & y & _ & V).
    rewrite S, (f_view _ _ F) in *. split; [done|]. by eapply settled_step.
  - destruct k; try done. destruct (count_down_inv _ _ _ _ _ _ Hx Hp H) as (-> & _ & V). split; [exact Hs|].
    eapply settled_step; [done|exact V|]. by intros k f' [= <- _].
  - destruct (finish_inv _ _ _ _ _ _ Hx Hp Hina H) as (w1 & s & t & _ & F & S & V & _ & Hi).
    specialize (St tid x k f Hx Hp) as Hk. rewrite S, (Hi Hk). split; [done|]. by eapply settled_step.
Qed.

(** Once [stopping()] is true and no worker is about to schedule its fiber
    again it stays true for the workers, however they go on: nothing is queued,
    no worker holds a task or runs user code, and the only fibers that still
    run are the idle ones (whose next slice ends them). *)
Theorem stopping_is_final w w' :
  sreach w → stopping (sched w) = true → settled w → rtc wstep w w' →
  stopping (sched w') = true ∧ m_tasks (sched w') = [] ∧
  ∀ tid x, workers w' !! tid = Some x →
    w_active x = false ∧ (∀ k f, w_pc x = Running k f → k = KIdle).
Proof.
  intros R Hs St Hrtc. assert (I : sinv w) by by apply sreach_sinv. clear R.
  assert (J : sinv w' ∧ stopping (sched w') = true).
  { induction Hrtc as [|w w1 w2 H1 _ IH]; [done|]. destruct (wstep_stopping _ _ I Hs St H1).
    apply IH; [done|done|by eapply wstep_sinv]. }
  destruct J as [I' Hs']. split; [done|]. split; [by apply stopping_inv in Hs' as (? & _)|].
  intros tid x Hx. pose proof (stopping_inactive w' tid x I' Hs' Hx) as Hina. split; [done|].
  intros k f Hpc. pose proof (s_entries _ I' _ _ (view_lookup _ _ _ Hx)) as Hok.
  rewrite Hpc in Hok. cbn in Hok. destruct k; congruence.
Qed.

(** ** Which task is taken *)

(** Tasks bound to another thread, and tasks whose fiber is running, are skipped. *)
Definition busy (fs : gmap Z Fiber) (t : Task) : Prop :=
  ∃ f fb, task_fiber t = Some f ∧ fs !! f = Some fb ∧ m_state fb = EXEC.
Definition skipped (tid : Z) (fs : gmap Z Fiber) (t : Task) : Prop :=
  foreign tid t = true ∨ busy fs t.
Definition fiber_alive (fs : gmap Z Fiber) (t : Task) : Prop :=
  ∀ f, task_fiber t = Some f → is_Some (fs !! f).

(** The first task that is not skipped, and whether a foreign one was met. *)
Definition picks (tid : Z) (fs : gmap Z Fiber) (pre ts : list Task) (n : bool) (r : picked * bool) : Prop :=
  (∃ l1 t l2, ts = l1 ++ t :: l2 ∧ Forall (skipped tid fs) l1 ∧ ¬ skipped tid fs t ∧
     r = (Picked t (pre ++ l1 ++ l2), n || existsb (foreign tid) l1)) ∨
  (Forall (skipped tid fs) ts ∧ r = (NoTask, n || existsb (foreign tid) ts)).

Lemma picks_skip tid fs pre u ts n r : skipped tid fs u →
  picks tid fs (pre ++ [u]) ts (n || foreign tid u) r → picks tid fs pre (u :: ts) n r.
Proof.
  intros Hs [(l1 & t & l2 & -> & F & Ht & ->)|[F ->]].
  - left. exists (u :: l1), t, l2. simpl. rewrite orb_assoc, <-(assoc_L app).
    split_and!; try done. by constructor.
  - right. simpl. rewrite orb_assoc. split; [by constructor|done].
Qed.

Lemma picks_take tid fs pre u ts n : ¬ skipped tid fs u →
  picks tid fs pre (u :: ts) n (Picked u (pre ++ ts), n).
Proof.
  intros Hu. left. exists [], u, ts. simpl. rewrite orb_false_r. split_and!; done.
Qed.

Lemma pick_loop_spec tid fs pre ts n : Forall has_work ts → Forall (fiber_alive fs) ts →
  picks tid fs pre ts n (pick_loop tid fs pre ts n).
Proof.
  intros Hw Ha. revert pre n. induction Hw as [|u ts Hu Hts IH]; intros pre n.
  { right. split; [constructor|]. by rewrite orb_false_r. }
  apply Forall_cons in Ha as [Hau Ha]. specialize (IH Ha). cbn [pick_loop].
  destruct (foreign tid u) eqn:Ef.
  { apply picks_skip; [by left|]. rewrite Ef, orb_true_r. apply IH. }
  destruct (task_fiber u) as [f|] eqn:Eu.
  - destruct (Hau f Eu) as [fb Hfb]. rewrite Hfb. case_bool_decide as Hex.
    + assert (Hb : skipped tid fs u) by (right; by exists f, fb).
      destruct (task_cb u); (apply picks_skip; [done|]); rewrite Ef, orb_false_r; apply IH.
    + assert (Hn : ¬ skipped tid fs u)
        by (intros [?|(f' & fb' & ? & ? & ?)]; congruence).
      destruct (task_cb u); by apply picks_take.
  - assert (Hn : ¬ skipped tid fs u) by (intros [?|(f' & fb' & ? & _)]; congruence).
    destruct (task_cb u) eqn:Ec; [by apply picks_take|].
    destruct Hu as [Hu|Hu]; rewrite ?Ec, ?Eu in Hu; by destruct Hu.
Qed.

(** [run()] takes the first task in queue order that is not bound to
    another thread and whose fiber is not running, removes only it, and asks
    for a notify exactly when it met a task of another thread on the way; with no such
    task the queue is left as it is. *)
Theorem pick_first_eligible w tid x :
  sreach w → workers w !! tid = Some x → Forall (fiber_alive (w_fibers w)) (m_tasks (sched w)) →
  ∃ w' n y, pick tid w = Ret tt w' ∧ workers w' !! tid = Some y ∧ w_pc y = Dispatch n ∧
    ((∃ l1 t l2, m_tasks (sched w) = l1 ++ t :: l2 ∧ Forall (skipped tid (w_fibers w)) l1 ∧
        ¬ skipped tid (w_fibers w) t ∧ n = existsb (foreign tid) l1 ∧
        m_tasks (sched w') = l1 ++ l2 ∧ w_task y = t ∧ w_active y = true) ∨
     (Forall (skipped tid (w_fibers w)) (m_tasks (sched w)) ∧
        n = existsb (foreign tid) (m_tasks (sched w)) ∧ sched w' = sched w ∧
        w_task y = Task_empty ∧ w_active y = false)).
Proof.
  intros R Hx Ha. pose proof (sreach_sinv w R) as I.
  assert (E : get_worker tid w = Ret x w) by (unfold get_worker; mrun; by rewrite Hx).
  unfold pick. mstep E. mrun.
  pose proof (pick_loop_spec tid (w_fibers w) [] (m_tasks (sched w)) false (s_tasks _ I) Ha) as P.
  destruct P as [(l1 & t & l2 & El & F & Ht & Ep)|[F Ep]]; rewrite Ep.
  - eexists _, _, _. split; [done|]. split; [apply lookup_insert_eq|]. split; [done|].
    left. exists l1, t, l2. done.
  - eexists _, _, _. split; [done|]. split; [apply lookup_insert_eq|]. split; [done|].
    right. done.
Qed.

(** ** A small run: two workers *)

Definition after (m : M world unit) (w : world) : world :=
  match m w with Ret _ w' | Throw _ w' => w' | Fault _ => w end.

Definition demo_worker (main idle : Z) : Worker :=
  mkWorker (mkTls (Some main) (Some main) None) (Some main) idle None Task_empty false Loop.
Definition demo_fibers : gmap Z Fiber :=
  <[101 := mkFiber 0 EXEC false Entry None]> (<[102 := mkFiber 0 EXEC false Entry None]>
  (<[201 := mkFiber 1 INIT true Entry (Some PReturn)]> (<[202 := mkFiber 2 INIT true Entry (Some PReturn)]>
  (<[300 := mkFiber 3 INIT true Entry (Some PReturn)]> ∅)))).
Definition demo_world : world :=
  mkWorld (mkScheduler [] 2 0 0 false false false (-1) None [1; 2] [1; 2] 0) demo_fibers 3 5
    (<[1 := demo_worker 101 201]> (<[2 := demo_worker 102 202]> ∅)).
(** The fiber 300 is scheduled twice, and both workers take it. *)
Definition demo_twice : world :=
  after (on_sched (schedule (Task_of_fiber (Some 300) (-1))))
    (after (on_sched (schedule (Task_of_fiber (Some 300) (-1)))) demo_world).
Definition demo_taken : world := Eval vm_compute in after (pick 2) (after (pick 1) demo_twice).
Definition demo_race : world := Eval vm_compute in after (begin 1 900) demo_taken.

Lemma demo_initial : initial demo_world.
Proof.
  split_and!; try done. intros tid x Hx. unfold demo_world in Hx. cbn [workers] in Hx.
  apply lookup_insert_Some in Hx as [[_ <-]|[_ Hx]]; [done|].
  apply lookup_insert_Some in Hx as [[_ <-]|[_ Hx]]; [done|]. by rewrite lookup_empty in Hx.
Qed.

Lemma demo_twice_reach : sreach demo_twice.
Proof.
  eapply sreach_env; [eapply sreach_env; [apply sreach_init, demo_initial|]|];
    by eapply E_schedule.
Qed.

Lemma demo_race_reach : sreach demo_race.
Proof.
  apply (sreach_worker demo_taken); [apply (sreach_worker (after (pick 1) demo_twice));
    [apply (sreach_worker demo_twice); [apply demo_twice_reach|]|]|].
  - eapply (W_pick _ _ 1); vm_compute; reflexivity.
  - eapply (W_pick _ _ 2); vm_compute; reflexivity.
  - eapply (W_begin _ _ 1 _ _ 900); vm_compute; reflexivity.
Qed.

Lemma scheduler_counts_exact_witness :
  m_active_threads_count (sched demo_race) = count is_active (view demo_race) ∧
  m_idle_threads_count (sched demo_race) = count is_idling (view demo_race) ∧
  (∀ t e, view demo_race !! t = Some e → entry_ok e) ∧
  pick 1 demo_race ≠ Fault AssertFailed.
Proof. apply scheduler_counts_exact, demo_race_reach. Defined.

(** All tasks done: the scheduler is told to stop while worker 1 idles. *)
Definition demo_stop : world := after (on_sched (set_flags true true)) demo_world.
Lemma stopping_is_final_witness :
  stopping (sched (after (pick 1) demo_stop)) = true ∧ m_tasks (sched (after (pick 1) demo_stop)) = [] ∧
  ∀ tid x, workers (after (pick 1) demo_stop) !! tid = Some x →
    w_active x = false ∧ (∀ k f, w_pc x = Running k f → k = KIdle).
Proof.
  apply (stopping_is_final demo_stop).
  - eapply sreach_env; [apply sreach_init, demo_initial|]. by eapply E_flags.
  - done.
  - intros tid x k f Hx Hp. change (workers demo_stop) with (workers demo_world) in Hx.
    destruct demo_initial as (_ & _ & _ & _ & Hw). apply Hw in Hx as [_ Hx]. congruence.
  - apply rtc_once. by eapply (W_pick _ _ 1).
Defined.

Lemma pick_first_eligible_witness :
  let w := demo_twice in
  ∃ w' n y, pick 1 w = Ret tt w' ∧ workers w' !! 1 = Some y ∧ w_pc y = Dispatch n ∧
    ((∃ l1 t l2, m_tasks (sched w) = l1 ++ t :: l2 ∧ Forall (skipped 1 (w_fibers w)) l1 ∧
        ¬ skipped 1 (w_fibers w) t ∧ n = existsb (foreign 1) l1 ∧
        m_tasks (sched w') = l1 ++ l2 ∧ w_task y = t ∧ w_active y = true) ∨
     (Forall (skipped 1 (w_fibers w)) (m_tasks (sched w)) ∧
        n = existsb (foreign 1) (m_tasks (sched w)) ∧ sched w' = sched w ∧
        w_task y = Task_empty ∧ w_active y = false)).
Proof.
  eapply pick_first_eligible; [apply demo_twice_reach|reflexivity|].
  repeat constructor; intros f [= <-]; by eexists.
Defined.

(** Nothing claims a fiber between the check of its state under the lock
    and the moment it is marked running: a fiber that was scheduled twice can be taken by two workers,
    and the second one's [swapIn] throws out of [run()]. *)
Theorem double_schedule_race :
  ∃ w w', sreach w ∧ begin 2 901 w = Throw swapIn_exec w'.
Proof. exists demo_race. eexists. split; [apply demo_race_reach|]. vm_compute. reflexivity. Qed.

(** [stopping()] may be true too early: the active counter goes down before a
    fiber that yielded to be ready is scheduled again, so that idle workers can
    end while there is work. *)
Definition demo_yield : world := Eval vm_compute in
  after (count_down 1) (after (switch_back 1) (after (enter_slice 1) (after (begin 1 900) (after (pick 1)
    (after (on_sched (schedule (Task_of_cb (Some (PYieldToReady (ToFiber 101) PReturn)) (-1)))) demo_stop))))).
Lemma demo_yield_reach : sreach demo_yield.
Proof.
  set (w0 := after (on_sched (schedule (Task_of_cb (Some (PYieldToReady (ToFiber 101) PReturn)) (-1)))) demo_stop).
  assert (R0 : sreach w0).
  { eapply sreach_env; [eapply sreach_env; [apply sreach_init, demo_initial|by eapply E_flags]|by eapply E_schedule]. }
  assert (R1 : sreach (after (pick 1) w0)) by (eapply sreach_worker; [exact R0|eapply (W_pick _ _ 1); vm_compute; reflexivity]).
  assert (R2 : sreach (after (begin 1 900) (after (pick 1) w0)))
    by (eapply sreach_worker; [exact R1|eapply (W_begin _ _ 1 _ _ 900); vm_compute; reflexivity]).
  assert (R3 : sreach (after (enter_slice 1) (after (begin 1 900) (after (pick 1) w0))))
    by (eapply sreach_worker; [exact R2|eapply (W_slice _ _ 1); vm_compute; reflexivity]).
  eapply sreach_worker; [eapply sreach_worker; [exact R3|eapply (W_switch _ _ 1); vm_compute; reflexivity]|].
  eapply (W_count _ _ 1); vm_compute; reflexivity.
Qed.
Theorem stopping_too_early : ∃ w w', sreach w ∧ stopping (sched w) = true ∧ wstep w w' ∧ stopping (sched w') = false.
Proof.
  exists demo_yield, (after (finish 1) demo_yield). split; [exact demo_yield_reach|]. split; [done|].
  split; [eapply (W_finish _ _ 1); vm_compute; reflexivity|by vm_compute].
Qed.

(** ** A callback that throws *)

Lemma get_worker_Some tid x w : workers w !! tid = Some x → get_worker tid w = Ret x w.
Proof. intros H. unfold get_worker. mrun. by rewrite H. Qed.
Lemma put_pc_Some tid p x w : workers w !! tid = Some x → put_pc tid p w = put_worker tid (with_pc p x) w.
Proof. intros H. unfold put_pc. by mstep (get_worker_Some _ _ _ H). Qed.

(** [Fiber::mainFunc] catches what a callback throws, but the worker does
    not survive it: back in [run()], [cb_fiber->reset(nullptr)] refuses the fiber's
    ERROR state and its exception leaves the worker's loop. *)
Theorem throwing_callback_kills_worker w tid x main f fb p :
  workers w !! tid = Some x → w_pc x = Calling KCb f [] → w_main x = Some main →
  running f main fb (mkRt (w_fibers w) (w_fiber_id w) (w_fiber_count w) (w_tls x)) →
  body fb = Some p → (first_slice p).2 = EndThrow → m_stack fb = true →
  ∃ w1 w2 w3, switch_back tid w = Ret tt w1 ∧ count_down tid w1 = Ret tt w2 ∧ finish tid w2 = Throw reset_bad_state w3.
Proof.
  intros Hx Hpc Hm R Hb He Hst.
  pose proof (enter_spec f main fb p _ R Hb ltac:(by rewrite He)) as En. rewrite He in En.
  set (r := mkRt _ _ _ _) in *. set (r' := switched f main (after_slice EndThrow fb) r) in *.
  set (x' := mkWorker (locals r') (w_main x) (w_idle x) (w_cb x) (w_task x) (w_active x) (w_pc x)).
  set (w0 := mkWorld (sched w) (fibers r') (s_fiber_id r') (s_fiber_count r') (<[tid := x']> (workers w))).
  assert (Rs : run_slice tid KCb f w = Ret ((first_slice p).1, main) w0).
  { unfold run_slice. mstep (get_worker_Some _ _ _ Hx). mrun. unfold on_fiber. rewrite Hx. fold r. by rewrite En. }
  assert (Hx0 : workers w0 !! tid = Some x') by apply lookup_insert_eq.
  set (w1 := mkWorld (sched w0) (w_fibers w0) (w_fiber_id w0) (w_fiber_count w0)
    (<[tid := with_pc (Back KCb f) x']> (workers w0))).
  assert (E1 : switch_back tid w = Ret tt w1).
  { unfold switch_back. mstep (get_worker_Some _ _ _ Hx). rewrite Hpc. mstep Rs. cbn [snd].
    rewrite Hm, bool_decide_eq_true_2 by done. cbn [negb]. by rewrite (put_pc_Some _ _ _ _ Hx0). }
  set (x1 := with_pc (Back KCb f) x') in *.
  assert (Hx1 : workers w1 !! tid = Some x1) by apply lookup_insert_eq.
  set (x2 := with_pc (Counted KCb f) (with_task (w_task x1) false x1)).
  set (w2 := mkWorld (add_active (-1) (sched w1)) (w_fibers w1) (w_fiber_id w1) (w_fiber_count w1)
    (<[tid := x2]> (workers w1))).
  assert (E2 : count_down tid w1 = Ret tt w2).
  { unfold count_down. mstep (get_worker_Some _ _ _ Hx1). cbn [x1 w_pc with_pc]. unfold on_sched. by rewrite bind_modify. }
  assert (Hx2 : workers w2 !! tid = Some x2) by apply lookup_insert_eq.
  assert (Hf : w_fibers w2 !! f = Some (after_slice EndThrow fb)) by apply lookup_insert_eq.
  exists w1, w2. rewrite E1, E2. unfold finish. mstep (get_worker_Some _ _ _ Hx2). cbn [x2 w_pc with_pc].
  assert (Es : state_of f w2 = Ret ERROR w2) by (unfold state_of; mrun; by rewrite Hf).
  mstep Es. cbn [bool_decide]. rewrite (bool_decide_eq_false_2 (ERROR = READY)) by done.
  rewrite (bool_decide_eq_true_2 (ERROR = ERROR)), orb_true_r by done. unfold mbind' at 1. unfold on_fiber. rewrite Hx2.
  set (r3 := mkRt _ _ _ _). assert (Hr3 : fibers r3 !! f = Some (after_slice EndThrow fb)) by done.
  unfold reset. rewrite (bind_Ret _ _ _ _ _ (get_fiber_Some _ _ _ Hr3)). cbn [snd].
  cbn [after_slice m_stack m_state]. rewrite Hst. cbn. by eexists.
Qed.

Definition demo_throw : world := Eval vm_compute in
  after (enter_slice 1) (after (begin 1 900) (after (pick 1)
    (after (on_sched (schedule (Task_of_cb (Some PThrow) (-1)))) demo_world))).

Definition demo_thrower : Worker := default (demo_worker 101 201) (workers demo_throw !! 1).

Lemma demo_throw_running :
  running 900 101 (mkFiber 4 EXEC true Entry (Some PThrow))
    (mkRt (w_fibers demo_throw) (w_fiber_id demo_throw) (w_fiber_count demo_throw) (w_tls demo_thrower)).
Proof.
  split; [vm_compute; reflexivity| |done|vm_compute; reflexivity|vm_compute; reflexivity].
  exists (mkFiber 0 EXEC false Entry None). vm_compute. reflexivity.
Qed.

Lemma throwing_callback_kills_worker_witness :
  ∃ w1 w2 w3, switch_back 1 demo_throw = Ret tt w1 ∧ count_down 1 w1 = Ret tt w2 ∧
    finish 1 w2 = Throw reset_bad_state w3.
Proof.
  apply (throwing_callback_kills_worker demo_throw 1 demo_thrower 101 900
            (mkFiber 4 EXEC true Entry (Some PThrow)) PThrow);
    [vm_compute; reflexivity|vm_compute; reflexivity|vm_compute; reflexivity|
     apply demo_throw_running|reflexivity|reflexivity|reflexivity].
Defined.
