(* ===== verification/TaskFlow.v ===== *)
(** * No task is lost or run twice

    What goes into the queue of a scheduler and what its workers begin, over
    all interleavings of workers and outside calls: a ledger of both is in
    balance with the queue and with what the workers hold. *)

From S2P Require Import Prelude Fiber Scheduler SchedulerSpec.

(** ** The ledger *)

(** What a worker took and has not begun. *)
Definition holding (e : entry) : list Task :=
  match e with (true, Dispatch _, t) => [t] | _ => [] end.
Definition held (v : gmap Z entry) : list Task := map_to_list v ≫= λ it, holding it.2.

(** [schedule] takes a task with nothing to run for none. *)
Definition accepted (t : Task) : list Task :=
  match task_cb t, task_fiber t with None, None => [] | _, _ => [t] end.

(** The fiber itself, when it yielded to be ready. *)
Definition again (k : kind) (f : Z) (fs : gmap Z Fiber) : list Task :=
  match k, fs !! f with
  | KIdle, _ | _, None => []
  | _, Some fb => if bool_decide (m_state fb = READY) then [Task_of_fiber (Some f) (-1)] else []
  end.

(** [flow w i o]: [w] is reached, [i] has gone into the queue and [o] was
    begun, both in order. *)
Inductive flow : world → list Task → list Task → Prop :=
| flow_init w : initial w → flow w [] []
| flow_pick w w' tid x i o : flow w i o → workers w !! tid = Some x → w_pc x = Loop →
    pick tid w = Ret tt w' → flow w' i o
| flow_begin w w' tid x n fresh i o : flow w i o → workers w !! tid = Some x → w_pc x = Dispatch n →
    w_fibers w !! fresh = None → begin tid fresh w = Ret tt w' →
    flow w' i (o ++ holding (w_active x, Dispatch n, w_task x))
| flow_slice w w' tid x k f i o : flow w i o → workers w !! tid = Some x → w_pc x = Running k f →
    enter_slice tid w = Ret tt w' → flow w' i o
| flow_call w w' tid x k f e es i o : flow w i o → workers w !! tid = Some x → w_pc x = Calling k f (e :: es) →
    call_schedule tid w = Ret tt w' → flow w' (i ++ [effect_task e]) o
| flow_switch w w' tid x k f i o : flow w i o → workers w !! tid = Some x → w_pc x = Calling k f [] →
    switch_back tid w = Ret tt w' → flow w' i o
| flow_count w w' tid x k f i o : flow w i o → workers w !! tid = Some x → w_pc x = Back k f →
    count_down tid w = Ret tt w' → flow w' i o
| flow_finish w w' tid x k f i o : flow w i o → workers w !! tid = Some x → w_pc x = Counted k f →
    finish tid w = Ret tt w' → flow w' (i ++ again k f (w_fibers w)) o
| flow_schedule w w' t i o : flow w i o → on_sched (schedule t) w = Ret tt w' → flow w' (i ++ accepted t) o
| flow_flags w w' b c i o : flow w i o → on_sched (set_flags b c) w = Ret tt w' → flow w' i o
| flow_new w a fb i o : flow w i o → w_fibers w !! a = None →
    flow (mkWorld (sched w) (<[a := fb]> (w_fibers w)) (w_fiber_id w) (w_fiber_count w) (workers w)) i o.

Lemma flow_sreach w i o : flow w i o → sreach w.
Proof.
  induction 1.
  - by apply sreach_init.
  - eapply sreach_worker; [done|]. by eapply W_pick.
  - eapply sreach_worker; [done|]. by eapply W_begin.
  - eapply sreach_worker; [done|]. by eapply W_slice.
  - eapply sreach_worker; [done|]. by eapply W_call.
  - eapply sreach_worker; [done|]. by eapply W_switch.
  - eapply sreach_worker; [done|]. by eapply W_count.
  - eapply sreach_worker; [done|]. by eapply W_finish.
  - eapply sreach_env; [done|]. by eapply E_schedule.
  - eapply sreach_env; [done|]. by eapply E_flags.
  - eapply sreach_env; [done|]. by eapply E_new.
Qed.

(** ** The balance of each step *)

Lemma held_insert v tid e e' : v !! tid = Some e →
  held (<[tid := e']> v) ++ holding e ≡ₚ holding e' ++ held v.
Proof.
  intros Hv. unfold held. rewrite <-(insert_delete_eq v tid).
  rewrite (map_to_list_insert (delete tid v) tid e') by apply lookup_delete_eq.
  rewrite <-(insert_delete_id v tid e Hv) at 2.
  rewrite (map_to_list_insert (delete tid v) tid e) by apply lookup_delete_eq.
  cbn [mbind list_bind snd]. rewrite <-app_assoc. apply Permutation_app_head. apply Permutation_app_comm.
Qed.
Lemma held_same w x tid : workers w !! tid = Some x →
  view w !! tid = Some (w_active x, w_pc x, w_task x).
Proof. apply view_lookup. Qed.

Lemma pick_loop_split tid fs pre ts n t rest n' : pick_loop tid fs pre ts n = (Picked t rest, n') →
  ∃ l1 l2, pre ++ ts = l1 ++ t :: l2 ∧ rest = l1 ++ l2.
Proof.
  revert pre n. induction ts as [|u ts IH]; intros pre n; [done|]. cbn [pick_loop]. intros H.
  assert (Hskip : ∀ m, pick_loop tid fs (pre ++ [u]) ts m = (Picked t rest, n') →
    ∃ l1 l2, pre ++ u :: ts = l1 ++ t :: l2 ∧ rest = l1 ++ l2).
  { intros m Hm. destruct (IH _ _ Hm) as (l1 & l2 & E & Er). exists l1, l2. by rewrite <-E, <-app_assoc. }
  assert (Htake : (Picked u (pre ++ ts), n) = (Picked t rest, n') →
    ∃ l1 l2, pre ++ u :: ts = l1 ++ t :: l2 ∧ rest = l1 ++ l2).
  { intros [= <- <- _]. by exists pre, ts. }
  destruct (foreign tid u); [by eapply Hskip|].
  destruct (task_cb u), (task_fiber u) as [f|]; try done; try (by apply Htake).
  all: destruct (fs !! f); [|done]; case_bool_decide; [by eapply Hskip|by apply Htake].
Qed.

Lemma pick_flow tid w w' x : workers w !! tid = Some x → pick tid w = Ret tt w' →
  ∃ e, view w' = <[tid := e]> (view w) ∧ holding e ++ m_tasks (sched w') ≡ₚ m_tasks (sched w) ∧
    m_tasks (sched w') `sublist_of` m_tasks (sched w).
Proof.
  intros Hx H. unfold pick in H. minv H as y w1 E. apply get_worker_inv in E as [-> Hy]. simplify_eq.
  minv H as w2 w3 E. injection E as <- <-.
  destruct (pick_loop tid (w_fibers w) [] (m_tasks (sched w)) false) as [[t rest| |] n] eqn:Ep; [| |done].
  - minv H as [] w1 E. injection E as <-. apply put_worker_inv in H as (S & _ & V).
    destruct (pick_loop_split _ _ _ _ _ _ _ _ Ep) as (l1 & l2 & El & ->). simpl in El.
    eexists. split; [exact V|]. rewrite S. simpl. rewrite El. split.
    + apply Permutation_middle.
    + apply sublist_app; [done|]. by apply sublist_cons.
  - apply put_worker_inv in H as (S & _ & V). eexists. split; [exact V|]. by rewrite S.
Qed.

Lemma enter_fiber_flow tid k f w w' : enter_fiber tid k f w = Ret tt w' →
  m_tasks (sched w') = m_tasks (sched w) ∧ ∃ e, view w' = <[tid := e]> (view w) ∧ holding e = [].
Proof.
  intros H. apply enter_fiber_inv in H as (S & x & _ & V). split; [by rewrite S|]. eexists. split; [exact V|].
  by destruct (w_active x).
Qed.
Lemma begin_flow tid fresh w w' x n : workers w !! tid = Some x → w_pc x = Dispatch n →
  begin tid fresh w = Ret tt w' →
  m_tasks (sched w') = m_tasks (sched w) ∧ ∃ e, view w' = <[tid := e]> (view w) ∧ holding e = [].
Proof.
  intros Hx Hp H. destruct (begin_inv _ _ _ _ _ _ Hx Hp H) as (w1 & r & F & S & _ & H').
  assert (St : m_tasks (sched w1) = m_tasks (sched w)) by (rewrite S; by destruct n).
  rewrite <-St, <-(f_view _ _ F). clear S St F H Hx.
  assert (Hcb : ∀ cb, begin_cb tid fresh cb x w1 = Ret tt w' →
    m_tasks (sched w') = m_tasks (sched w1) ∧ ∃ e, view w' = <[tid := e]> (view w1) ∧ holding e = []).
  { intros cb H. unfold begin_cb in H. minv H as f w2 E. assert (F : frame w1 w2 ∧ sched w2 = sched w1).
    { destruct (w_cb x); [|by eapply on_fiber_frame]. minv E as [] w3 E'. injection E as _ <-. by eapply on_fiber_frame. }
    destruct F as [F S]. minv H as y w3 E'. apply get_worker_inv in E' as [-> _].
    minv H as [] w3 E'. apply put_worker_inv in E' as (S' & _ & V).
    apply enter_fiber_flow in H as (S2 & e & V2 & He). split; [congruence|]. exists e. split; [|done].
    by rewrite V2, V, insert_insert_eq, (f_view _ _ F). }
  assert (Hidle : begin_idle tid x w1 = Ret tt w' →
    m_tasks (sched w') = m_tasks (sched w1) ∧ ∃ e, view w' = <[tid := e]> (view w1) ∧ holding e = []).
  { intros H. unfold begin_idle in H. destruct (w_active x).
    - minv H as [] w2 E. injection E as <-. apply put_worker_inv in H as (S & _ & V). split; [by rewrite S|]. by eexists.
    - minv H as s w2 E. apply state_of_inv in E as ->. case_bool_decide.
      + apply put_worker_inv in H as (S & _ & V). split; [by rewrite S|]. eexists. split; [exact V|]. simpl. by destruct (w_active x).
      + minv H as [] w2 E. injection E as <-. apply enter_fiber_flow in H as (S & e & V & He).
        split; [by rewrite S|]. by exists e. }
  destruct (task_fiber (w_task x)), r, (task_cb (w_task x)); first [by apply enter_fiber_flow in H'|by eapply Hcb|by apply Hidle].
Qed.

Lemma schedule_tasks t s : m_tasks (schedule t s) = m_tasks s ++ accepted t.
Proof.
  unfold schedule, mSchedule, accepted. destruct (task_cb t), (task_fiber t); simpl; case_bool_decide; simpl;
    by rewrite ?app_nil_r.
Qed.
Lemma effect_accepted e : accepted (effect_task e) = [effect_task e].
Proof. by destruct e. Qed.
(** A step of a worker that neither takes nor begins a task: what it puts into
    the queue. *)
Definition quiet_step (w w' : world) (tid : Z) (l : list Task) : Prop :=
  m_tasks (sched w') = m_tasks (sched w) ++ l ∧ ∃ e, view w' = <[tid := e]> (view w) ∧ holding e = [].

Lemma holding_pc a p t : (∀ n, p ≠ Dispatch n) → holding (a, p, t) = [].
Proof. intros H. destruct a, p; try done. by destruct (H should_notify). Qed.

Lemma slice_flow tid w w' x k f : workers w !! tid = Some x → w_pc x = Running k f →
  enter_slice tid w = Ret tt w' → quiet_step w w' tid [].
Proof.
  intros Hx Hp H. destruct (enter_slice_inv _ _ _ _ _ _ Hx Hp H) as (r & w1 & _ & P).
  apply put_pc_inv in P as (S & _ & y & _ & V). split; [by rewrite S, app_nil_r|].
  eexists. split; [exact V|by apply holding_pc].
Qed.
Lemma call_flow tid w w' x k f e es : workers w !! tid = Some x → w_pc x = Calling k f (e :: es) →
  call_schedule tid w = Ret tt w' → quiet_step w w' tid [effect_task e].
Proof.
  intros Hx Hp H. destruct (call_schedule_inv _ _ _ _ _ _ _ _ Hx Hp H) as (w1 & E & P). injection E as <-.
  apply put_pc_inv in P as (S & _ & y & _ & V). split; [|eexists; split; [exact V|by apply holding_pc]].
  rewrite S. cbn [sched]. by rewrite schedule_tasks, effect_accepted.
Qed.
Lemma switch_flow tid w w' x k f : workers w !! tid = Some x → w_pc x = Calling k f [] →
  switch_back tid w = Ret tt w' → quiet_step w w' tid [].
Proof.
  intros Hx Hp H. destruct (switch_back_inv _ _ _ _ _ _ Hx Hp H) as (r & w1 & E & _ & P).
  destruct (run_slice_frame _ _ _ _ _ _ E) as [F S1]. apply put_pc_inv in P as (S & _ & y & _ & V).
  split; [by rewrite S, S1, app_nil_r|]. rewrite <-(f_view _ _ F). eexists. split; [exact V|by apply holding_pc].
Qed.
Lemma count_flow tid w w' x k f : workers w !! tid = Some x → w_pc x = Back k f →
  count_down tid w = Ret tt w' → quiet_step w w' tid [].
Proof.
  intros Hx Hp H. destruct (count_down_inv _ _ _ _ _ _ Hx Hp H) as (S & _ & V). split; [rewrite S, app_nil_r; by destruct k|].
  eexists. split; [exact V|by apply holding_pc].
Qed.
Lemma finish_flow tid w w' x k f : workers w !! tid = Some x → w_pc x = Counted k f → w_active x = false →
  finish tid w = Ret tt w' → quiet_step w w' tid (again k f (w_fibers w)).
Proof.
  intros Hx Hp Ha H. destruct (finish_inv _ _ _ _ _ _ Hx Hp Ha H) as (w1 & s & t & E & _ & S & V & Ht & _).
  split; [|eexists; split; [exact V|by apply holding_pc]]. rewrite S, Ht. f_equal. unfold again.
  unfold state_of in E. minv E as w2 w3 E'. injection E' as <- <-. destruct (w_fibers w !! f) as [fb|]; [|done].
  injection E as <-. destruct k; [| |by rewrite bool_decide_eq_false_2 by (by intros ?)]; by rewrite bool_decide_eq_true_2 by done.
Qed.

(** ** The balance *)

Lemma held_none w : initial w → held (view w) = [].
Proof.
  intros (_ & _ & _ & _ & Hw). unfold held.
  assert (H : ∀ it, it ∈ map_to_list (view w) → holding it.2 = []).
  { intros [tid e] Hin%elem_of_map_to_list. unfold view in Hin. rewrite lookup_fmap in Hin.
    apply fmap_Some in Hin as (x & Hx & ->). apply Hw in Hx as [Ha _]. cbn. by rewrite Ha. }
  induction (map_to_list (view w)) as [|it l IH]; [done|]. cbn [mbind list_bind].
  rewrite (H it ltac:(left)). apply IH. intros y Hy. apply H. by right.
Qed.
Lemma held_step w w' tid x e : workers w !! tid = Some x → view w' = <[tid := e]> (view w) →
  held (view w') ++ holding (w_active x, w_pc x, w_task x) ≡ₚ holding e ++ held (view w).
Proof. intros Hx ->. apply held_insert, view_lookup, Hx. Qed.
Lemma balance_quiet w w' tid x l i o : i ≡ₚ o ++ held (view w) ++ m_tasks (sched w) → m_tasks (sched w) `sublist_of` i →
  workers w !! tid = Some x → (∀ n, w_pc x ≠ Dispatch n) → quiet_step w w' tid l →
  i ++ l ≡ₚ o ++ held (view w') ++ m_tasks (sched w') ∧ m_tasks (sched w') `sublist_of` i ++ l.
Proof.
  intros IP IS Hx Hp (Ht & e & V & He). pose proof (held_step w w' tid x e Hx V) as Hh.
  rewrite He, holding_pc, app_nil_r in Hh by done. simpl in Hh. rewrite Ht.
  split; [rewrite IP, Hh; by rewrite <-!app_assoc|by apply sublist_app].
Qed.
Lemma flow_balance w i o : flow w i o →
  i ≡ₚ o ++ held (view w) ++ m_tasks (sched w) ∧ m_tasks (sched w) `sublist_of` i.
Proof.
  induction 1 as [w Hi|w w' tid x i o _ [IP IS] Hx Hp H|w w' tid x n fresh i o _ [IP IS] Hx Hp _ H
    |w w' tid x k f i o _ [IP IS] Hx Hp H|w w' tid x k f e es i o _ [IP IS] Hx Hp H|w w' tid x k f i o _ [IP IS] Hx Hp H
    |w w' tid x k f i o _ [IP IS] Hx Hp H|w w' tid x k f i o HF [IP IS] Hx Hp H|w w' t i o _ [IP IS] H
    |w w' b c i o _ [IP IS] H|w a fb i o _ [IP IS] _].
  - rewrite (held_none w Hi). destruct Hi as (-> & _). done.
  - destruct (pick_flow _ _ _ _ Hx H) as (e & V & Hq & Hs). pose proof (held_step w w' tid x e Hx V) as Hh.
    rewrite Hp in Hh. replace (holding (w_active x, Loop, w_task x)) with (@nil Task) in Hh by (by destruct (w_active x)).
    rewrite app_nil_r in Hh. split; [|by trans (m_tasks (sched w))]. rewrite IP, Hh, <-Hq.
    apply Permutation_app_head. rewrite !app_assoc. apply Permutation_app_tail, Permutation_app_comm.
  - destruct (begin_flow _ _ _ _ _ _ Hx Hp H) as (Ht & e & V & He). pose proof (held_step w w' tid x e Hx V) as Hh.
    rewrite Hp, He in Hh. simpl in Hh. rewrite Ht. split; [|done]. rewrite IP, <-Hh, <-!app_assoc.
    apply Permutation_app_head. rewrite !app_assoc. apply Permutation_app_tail, Permutation_app_comm.
  - rewrite <-(app_nil_r i). eapply balance_quiet; [done|done|exact Hx|by rewrite Hp|by eapply slice_flow].
  - eapply balance_quiet; [done|done|exact Hx|by rewrite Hp|by eapply call_flow].
  - rewrite <-(app_nil_r i). eapply balance_quiet; [done|done|exact Hx|by rewrite Hp|by eapply switch_flow].
  - rewrite <-(app_nil_r i). eapply balance_quiet; [done|done|exact Hx|by rewrite Hp|by eapply count_flow].
  - pose proof (s_entries _ (sreach_sinv _ (flow_sreach _ _ _ HF)) _ _ (view_lookup _ _ _ Hx)) as Ha.
    rewrite Hp in Ha. cbn in Ha.
    eapply balance_quiet; [done|done|exact Hx|by rewrite Hp|by eapply finish_flow].
  - injection H as <-. cbn [sched]. change (view _) with (view w). rewrite schedule_tasks.
    split; [rewrite IP; by rewrite <-!app_assoc|by apply sublist_app].
  - injection H as <-. done.
  - done.
Qed.

(** ** What a worker begins is what it took *)

Definition ended (fs : gmap Z Fiber) (f : Z) : bool :=
  match fs !! f with
  | Some fb => bool_decide (m_state fb = TERM) || bool_decide (m_state fb = ERROR)
  | None => false
  end.
(** Worker [tid] is about to run the code of the task: the fiber of it, or,
    when that has ended or there is none, the callback in a fiber; a fiber
    that has ended is dropped. *)
Definition begun (tid : Z) (t : Task) (fs : gmap Z Fiber) (w' : world) : Prop :=
  ∃ y, workers w' !! tid = Some y ∧
    match task_fiber t, task_cb t with
    | Some f, cb => if ended fs f then cb = None → w_pc y = Loop ∧ w_active y = false
                    else w_pc y = Running KTask f
    | None, Some p => ∃ f fb, w_pc y = Running KCb f ∧ w_fibers w' !! f = Some fb ∧ m_state fb = EXEC ∧ body fb = Some p
    | None, None => True
    end.

Lemma enter_fiber_runs tid k f w w' : enter_fiber tid k f w = Ret tt w' →
  ∃ y fb, workers w' !! tid = Some y ∧ w_pc y = Running k f ∧ w_fibers w !! f = Some fb ∧
    w_fibers w' !! f = Some (set_state EXEC fb).
Proof.
  intros H. unfold enter_fiber in H. minv H as x w1 E. apply get_worker_inv in E as [-> Hx].
  minv H as [] w2 E. minv H as y w3 E'. apply get_worker_inv in E' as [-> Hy]. injection H as <-.
  exists (with_pc (Running k f) y). unfold on_fiber in E. rewrite Hx in E. unfold swapIn_begin in E.
  unfold setThis, set_schedule_fiber, update, get_fiber, mbind', mmodify, mget, mreturn, mthrow, mfault in E. simpl in E.
  destruct (w_fibers w !! f) as [fb|] eqn:Ef; [|done]. exists fb. simpl in E |- *. rewrite lookup_insert_eq.
  split; [done|]. split; [done|]. split; [done|]. case_bool_decide; [done|]. simpl in E. rewrite Ef in E. simpl in E.
  destruct (w_main x) as [m|]; [|done].
  destruct (<[f := set_state EXEC fb]> (w_fibers w) !! m); [|done].
  injection E as <-. simpl. apply lookup_insert_eq.
Qed.
Lemma begin_cb_runs tid fresh cb x w w' : begin_cb tid fresh cb x w = Ret tt w' →
  ∃ y f fb, workers w' !! tid = Some y ∧ w_pc y = Running KCb f ∧ w_fibers w' !! f = Some fb ∧
    m_state fb = EXEC ∧ body fb = Some cb.
Proof.
  intros H. unfold begin_cb in H. minv H as f w2 E.
  assert (Hf : ∃ fb, w_fibers w2 !! f = Some fb ∧ body fb = Some cb).
  { destruct (w_cb x) as [g|].
    - minv E as [] w3 E'. injection E as <- <-. unfold on_fiber in E'. destruct (workers w !! tid); [|done].
      unfold reset, update, get_fiber, mbind', mmodify, mget, mreturn, mthrow, mfault in E'. simpl in E'.
      destruct (w_fibers w !! g) as [fb|] eqn:Eg; [|done]. simpl in E'. destruct (negb (m_stack fb)); [done|].
      destruct (bad_state (m_state fb)); [done|].
      change (fibers _ !! g) with (w_fibers w !! g) in E' at 1. rewrite Eg in E'. simpl in E'.
      rewrite lookup_insert_eq in E'.
      injection E' as <-. eexists. split; [apply lookup_insert_eq|done].
    - unfold on_fiber in E. destruct (workers w !! tid); [|done].
      unfold Fiber_new, mbind', mmodify, mget, mput, mreturn in E. simpl in E. injection E as <- <-.
      eexists. split; [apply lookup_insert_eq|done]. }
  destruct Hf as (fb & Hfb & Hb). minv H as z w3 E'. apply get_worker_inv in E' as [-> _].
  minv H as [] w3 E'. apply put_worker_inv in E' as (_ & Hs & _).
  apply enter_fiber_runs in H as (y & fb' & Hy & Hp & Hfb' & Hw'). rewrite Hs, Hfb in Hfb'. injection Hfb' as <-.
  exists y, f, (set_state EXEC fb). by split_and!.
Qed.
Lemma begin_runs tid fresh w w' x n : workers w !! tid = Some x → w_pc x = Dispatch n → w_active x = true →
  begin tid fresh w = Ret tt w' → begun tid (w_task x) (w_fibers w) w'.
Proof.
  intros Hx Hp Ha H. unfold begin in H. minv H as x' w1 E. apply get_worker_inv in E as [-> Hx']. simplify_eq.
  rewrite Hp in H. minv H as [] w1 E. assert (Hw1 : w_fibers w1 = w_fibers w ∧ workers w1 = workers w).
  { destruct n; by injection E as <-. }
  destruct Hw1 as [Hf1 Hk1]. clear E. minv H as r w2 E. unfold begun. rewrite <-Hf1.
  assert (Hidle : ∀ w0, begin_idle tid x w0 = Ret tt w' → ∃ y, workers w' !! tid = Some y ∧ w_pc y = Loop ∧ w_active y = false).
  { intros w0 Hi. unfold begin_idle in Hi. rewrite Ha in Hi. minv Hi as [] w3 E3. injection E3 as <-. injection Hi as <-.
    eexists. split; [apply lookup_insert_eq|done]. }
  unfold runnable in E. destruct (task_fiber (w_task x)) as [f|] eqn:Ef.
  - minv E as s w3 E'. unfold state_of in E'. minv E' as w4 w5 E2. injection E2 as <- <-.
    unfold ended. destruct (w_fibers w1 !! f) as [fb|] eqn:Efb; [|done]. injection E' as <- <-. injection E as <- <-.
    destruct (bool_decide (m_state fb = TERM)), (bool_decide (m_state fb = ERROR)); simpl in H |- *.
    4: { apply enter_fiber_runs in H as (y & _ & Hy & Hpc & _). by exists y. }
    all: destruct (task_cb (w_task x));
      [apply begin_cb_runs in H as (y & _ & _ & Hy & _); by exists y
      |apply Hidle in H as (y & Hy & Hpc); by exists y].
  - injection E as <- <-. destruct (task_cb (w_task x)) as [p|].
    + apply begin_cb_runs in H as (y & f & fb & Hy & Hpc & Hrest). exists y. split; [done|]. by exists f, fb.
    + apply Hidle in H as (y & Hy & _). by exists y.
Qed.

(** C4: No task is lost, and none runs twice. Through any interleaving of
    workers and of code that schedules, stops or makes fibers, what has gone
    into the queue (calls of schedule from outside and from the tasks, and
    fibers that yielded to be ready) is, task by task, what the workers have
    begun, what they took and not yet begun, and what is still in the queue,
    there in the order it went in. A worker that has taken a task begins that
    task: its fiber, unless that has ended, or its callback, in a fiber whose
    body it is. *)
Theorem tasks_run_once w i o : flow w i o →
  i ≡ₚ o ++ held (view w) ++ m_tasks (sched w) ∧ m_tasks (sched w) `sublist_of` i ∧
  ∀ tid x n fresh w', workers w !! tid = Some x → w_pc x = Dispatch n → w_active x = true →
    w_fibers w !! fresh = None → begin tid fresh w = Ret tt w' →
    flow w' i (o ++ [w_task x]) ∧ begun tid (w_task x) (w_fibers w) w'.
Proof.
  intros H. destruct (flow_balance w i o H) as [Hp Hs]. split; [done|]. split; [done|].
  intros tid x n fresh w' Hx Hpc Ha Hf E. split; [|by eapply begin_runs].
  replace [w_task x] with (holding (w_active x, Dispatch n, w_task x)) by (by rewrite Ha).
  by eapply flow_begin.
Qed.

(** Two callbacks, one bound to the second worker: the first worker takes the
    other and begins it. *)
Definition demo_cb : Task := Task_of_cb (Some PReturn) (-1).
Definition demo_bound : Task := Task_of_cb (Some PReturn) 2.
Definition demo_queued : world := after (on_sched (schedule demo_cb)) (after (on_sched (schedule demo_bound)) demo_world).
Definition demo_took : world := Eval vm_compute in after (pick 1) demo_queued.
Lemma demo_flow : flow demo_took [demo_bound; demo_cb] [].
Proof.
  eapply (flow_pick demo_queued _ 1); [|by vm_compute|done|by vm_compute].
  eapply (flow_schedule _ _ demo_cb [demo_bound]); [|done]. by eapply (flow_schedule demo_world _ demo_bound []); [apply flow_init, demo_initial|].
Qed.
Lemma tasks_run_once_witness :
  [demo_bound; demo_cb] ≡ₚ [] ++ held (view demo_took) ++ m_tasks (sched demo_took) ∧
  ∃ w', begin 1 900 demo_took = Ret tt w' ∧ flow w' [demo_bound; demo_cb] [demo_cb] ∧
    begun 1 demo_cb (w_fibers demo_took) w'.
Proof.
  destruct (tasks_run_once demo_took _ _ demo_flow) as (Hp & _ & Hb). split; [exact Hp|].
  eexists. split; [by vm_compute|].
  apply (Hb 1 (mkWorker (mkTls (Some 101) (Some 101) None) (Some 101) 201 None demo_cb true (Dispatch true)) true 900);
    by vm_compute.
Defined.
