(* ===== verification/IOScheduler.v ===== *)
(** * IOScheduler (scheduler/ioscheduler.h, scheduler/ioscheduler.cpp, the epoll branch)

    The fd contexts with their registered events, the epoll interest list of
    the kernel, and what reaches the schedulers' queues. The kernel's
    [epoll_ctl] refuses to add an fd it knows and to change or delete one it
    does not, and may fail for other reasons at any time (argument [fail]).
    [epoll_wait] is the list of ready events it returned. *)

From S2P Require Import Prelude Fiber Scheduler Timer.
#[local] Open Scope Z_scope.

(** [enum Event]; the values are those of EPOLLIN and EPOLLOUT. *)
Definition NONE : Z := 0.
Definition READ : Z := 1.
Definition WRITE : Z := 4.
Definition EPOLLERR : Z := 8.
Definition EPOLLHUP : Z := 16.
Definition EPOLLET : Z := 2 ^ 31.

(** [FdContext::EventContext] *)
Record EventContext := mkEventContext {
  ec_scheduler : option Z;
  ec_fiber : option Z;
  ec_cb : option prog;
}.
Definition resetContext : EventContext := mkEventContext None None None.

Record FdContext := mkFdContext {
  r_event : EventContext;
  w_event : EventContext;
  fd : Z;
  event : Z;
}.

Record io := mkIo {
  m_fd_contexts : list FdContext;
  m_waitting_events_count : Z;
  interest : gmap Z Z;                 (* fd -> events, in the kernel *)
  queued : list (Z * Task);            (* scheduler, task: schedule() calls *)
}.

Definition set_ctx (i : nat) (c : FdContext) (s : io) : io :=
  mkIo (<[i := c]> (m_fd_contexts s)) (m_waitting_events_count s) (interest s) (queued s).
Definition add_waiting (d : Z) (s : io) : io :=
  mkIo (m_fd_contexts s) (u64 (m_waitting_events_count s + d)) (interest s) (queued s).

(** [contextResize(size)]: [std::vector::resize] cuts or grows, new entries
    get a context. *)
Definition new_ctx (i : nat) : FdContext := mkFdContext resetContext resetContext (Z.of_nat i) NONE.
Definition contextResize (size : Z) (s : io) : io :=
  let l := m_fd_contexts s in
  let n := Z.to_nat size in
  mkIo (take n l ++ (new_ctx <$> seq (length l) (n - length l)))
    (m_waitting_events_count s) (interest s) (queued s).

Definition IOScheduler_new : io := contextResize 32 (mkIo [] 0 ∅ []).

(** [m_fd_contexts[fd]] *)
Definition get_ctx (fd : Z) : M io (nat * FdContext) :=
  s <- mget;;
  if fd <? 0 then mfault OutOfBounds else
  match m_fd_contexts s !! Z.to_nat fd with
  | Some c => mreturn (Z.to_nat fd, c)
  | None => mfault OutOfBounds
  end.

Definition getContext (ev : Z) (c : FdContext) : option EventContext :=
  if ev =? READ then Some (r_event c) else if ev =? WRITE then Some (w_event c) else None.
Definition put_context (ev : Z) (ec : EventContext) (c : FdContext) : FdContext :=
  if ev =? READ then mkFdContext ec (w_event c) (fd c) (event c)
  else mkFdContext (r_event c) ec (fd c) (event c).
Definition set_event (e : Z) (c : FdContext) : FdContext :=
  mkFdContext (r_event c) (w_event c) (fd c) e.

Inductive ctl := CTL_ADD | CTL_MOD | CTL_DEL.

(** [epoll_ctl(m_epoll_fd, op, fd, {events})]: true for 0. *)
Definition epoll_ctl (fail : bool) (op : ctl) (fd events : Z) : M io bool :=
  s <- mget;;
  let put i := mput (mkIo (m_fd_contexts s) (m_waitting_events_count s) i (queued s));; mreturn true in
  if fail then mreturn false else
  match op, interest s !! fd with
  | CTL_ADD, None => put (<[fd := events]> (interest s))
  | CTL_MOD, Some _ => put (<[fd := events]> (interest s))
  | CTL_DEL, Some _ => put (delete fd (interest s))
  | _, _ => mreturn false
  end.

(** [FdContext::triggerEvent(event)] of context [i]. *)
Definition triggerEvent (i : nat) (ev : Z) : M io unit :=
  s <- mget;;
  match m_fd_contexts s !! i with
  | None => mfault OutOfBounds
  | Some c =>
      if Z.land ev (event c) =? 0 then mfault AssertFailed else
      let c := set_event (Z.land (Z.lnot ev) (event c)) c in
      match getContext ev c with
      | None => mfault AssertFailed
      | Some ec =>
          match ec_cb ec, ec_fiber ec with
          | None, None => mfault AssertFailed
          | cb, fb =>
              match ec_scheduler ec with
              | None => mfault NullDeref
              | Some sch =>
                  let t := match cb with
                           | Some p => Task_of_cb (Some p) (-1)
                           | None => Task_of_fiber fb (-1)
                           end in
                  let ec' := match cb with
                             | Some _ => mkEventContext None (ec_fiber ec) None
                             | None => mkEventContext None None None
                             end in
                  mput (mkIo (<[i := put_context ev ec' c]> (m_fd_contexts s))
                          (m_waitting_events_count s) (interest s) (queued s ++ [(sch, t)]))
              end
          end
      end
  end.

(** The two critical sections with which [addEvent] finds its context. *)
Definition add_lookup (fd : Z) (s : io) : bool := fd <? zlen (m_fd_contexts s).
Definition add_resize (fd : Z) : M io unit := mmodify (contextResize (fd + fd / 2)).

(** The rest of [addEvent], under the context's lock. [sched] is
    [Scheduler::getThis()], [cur] the current fiber, [exec] whether its state is EXEC. *)
Definition add_locked (i : nat) (fd ev : Z) (cb : option prog) (sched : option Z) (cur : Z)
    (exec fail : bool) : M io Z :=
  s <- mget;;
  match m_fd_contexts s !! i with
  | None => mfault OutOfBounds
  | Some c =>
      if negb (Z.land (event c) ev =? 0) then mreturn (-1) else
      let op := if event c =? 0 then CTL_ADD else CTL_MOD in
      ok <- epoll_ctl fail op fd (Z.lor (Z.lor EPOLLET (event c)) ev);;
      if negb (ok : bool) then mreturn (-1) else
      mmodify (add_waiting 1);;
      let c := set_event (Z.lor (event c) ev) c in
      match getContext ev c with
      | None => mfault AssertFailed
      | Some ec =>
          match ec_cb ec, ec_fiber ec, ec_scheduler ec with
          | None, None, None =>
              match cb with
              | Some p =>
                  mmodify (set_ctx i (put_context ev (mkEventContext sched None (Some p)) c));;
                  mreturn 0
              | None =>
                  if negb exec then mfault AssertFailed else
                  mmodify (set_ctx i (put_context ev (mkEventContext sched (Some cur) None) c));;
                  mreturn 0
              end
          | _, _, _ => mfault AssertFailed
          end
      end
  end.

Definition addEvent (fd ev : Z) (cb : option prog) (sched : option Z) (cur : Z) (exec fail : bool)
    : M io Z :=
  s <- mget;;
  (if add_lookup fd s then mreturn tt else add_resize fd);;
  ic <- get_ctx fd;;
  add_locked ic.1 fd ev cb sched cur exec fail.

(** [new_event ? EPOLL_CTL_MOD : EPOLL_CTL_DEL] *)
Definition ctl_for (new_event : Z) : ctl := if new_event =? 0 then CTL_DEL else CTL_MOD.

Definition delEvent (fd ev : Z) (fail : bool) : M io bool :=
  s <- mget;;
  if zlen (m_fd_contexts s) <=? fd then mreturn false else
  ic <- get_ctx fd;;
  let c := ic.2 in
  if Z.land (event c) ev =? 0 then mreturn false else
  let new_event := Z.land (event c) (Z.lnot ev) in
  ok <- epoll_ctl fail (ctl_for new_event) fd (Z.lor EPOLLET new_event);;
  if negb (ok : bool) then mreturn false else
  mmodify (add_waiting (-1));;
  match getContext ev c with
  | None => mfault AssertFailed
  | Some _ =>
      mmodify (set_ctx ic.1 (put_context ev resetContext (set_event new_event c)));;
      mreturn true
  end.

Definition cancelEvent (fd ev : Z) (fail : bool) : M io bool :=
  s <- mget;;
  if zlen (m_fd_contexts s) <=? fd then mreturn false else
  ic <- get_ctx fd;;
  let c := ic.2 in
  if Z.land (event c) ev =? 0 then mreturn false else
  let new_event := Z.land (event c) (Z.lnot ev) in
  ok <- epoll_ctl fail (ctl_for new_event) fd (Z.lor EPOLLET new_event);;
  if negb (ok : bool) then mreturn false else
  triggerEvent ic.1 ev;;
  mmodify (add_waiting (-1));;
  mreturn true.

(** [if (mask & ev) { triggerEvent(ev); --m_waitting_events_count; }] *)
Definition trigger_if (mask : M io Z) (i : nat) (ev : Z) : M io unit :=
  m <- mask;;
  if Z.land m ev =? 0 then mreturn tt else
  triggerEvent i ev;; mmodify (add_waiting (-1)).

Definition event_of (i : nat) : M io Z :=
  s <- mget;;
  match m_fd_contexts s !! i with Some c => mreturn (event c) | None => mfault OutOfBounds end.

Definition cancelAll (fd : Z) (fail : bool) : M io bool :=
  s <- mget;;
  if zlen (m_fd_contexts s) <=? fd then mreturn false else
  ic <- get_ctx fd;;
  if event ic.2 =? 0 then mreturn false else
  ok <- epoll_ctl fail CTL_DEL fd 0;;
  if negb (ok : bool) then mreturn false else
  trigger_if (event_of ic.1) ic.1 READ;;
  trigger_if (event_of ic.1) ic.1 WRITE;;
  e <- event_of ic.1;;
  if negb (e =? NONE) then mfault AssertFailed else mreturn true.

(** One ready event of [idle()] that is not the pipe: context [i], [events]. *)
Definition real_event (events registered : Z) : Z :=
  let events := if Z.land events (Z.lor EPOLLERR EPOLLHUP) =? 0 then events
                else Z.lor events (Z.land (Z.lor READ WRITE) registered) in
  Z.lor (if Z.land events READ =? 0 then 0 else READ)
        (if Z.land events WRITE =? 0 then 0 else WRITE).

Definition handle_ready (i : nat) (events : Z) (fail : bool) : M io unit :=
  s <- mget;;
  match m_fd_contexts s !! i with
  | None => mfault OutOfBounds
  | Some c =>
      let real := real_event events (event c) in
      if Z.land (event c) real =? 0 then mreturn tt else
      let left := Z.land (event c) (Z.lnot real) in
      ok <- epoll_ctl fail (ctl_for left) (fd c) (Z.lor EPOLLET left);;
      if negb (ok : bool) then mreturn tt else
      trigger_if (mreturn real) i READ;;
      trigger_if (mreturn real) i WRITE
  end.

(** The timeout [idle()] gives to [epoll_wait], an [int]. *)
Definition MAX_TIMEOUT : Z := 3000.
Definition wait_timeout (next_timeout : Z) : Z :=
  s32 (if next_timeout =? 2 ^ 64 - 1 then MAX_TIMEOUT
       else u64 (if MAX_TIMEOUT <? s32 next_timeout then MAX_TIMEOUT else s32 next_timeout)).

(** *** The whole object: Scheduler and TimerManager are its bases *)
Record IOScheduler := mkIOScheduler {
  base : Scheduler;
  timers : TimerManager;
  ios : io;
  pipe : Z;              (* bytes in the notify pipe *)
}.

(** [IOScheduler::notify()]: one byte when a thread is idle. *)
Definition io_notify (x : IOScheduler) : IOScheduler :=
  if hasIdleThreads (base x)
  then mkIOScheduler (base x) (timers x) (ios x) (pipe x + 1) else x.

(** [stopping(timeout)] *)
Definition io_stopping (now : Z) : M IOScheduler (bool * Z) :=
  x <- mget;;
  match getNextTimerTimeMs now (timers x) with
  | Ret timeout tm =>
      mput (mkIOScheduler (base x) tm (ios x) (pipe x));;
      mreturn ((timeout =? 2 ^ 64 - 1) && (m_waitting_events_count (ios x) =? 0) &&
               stopping (base x), timeout)
  | Throw e _ => mthrow e
  | Fault f => mfault f
  end.

(** [schedule()] with the overridden [notify()]. *)
Definition io_schedule_all (ts : list Task) (x : IOScheduler) : IOScheduler :=
  let r := foldl (λ acc t, let r := mSchedule t acc.2 in (r.1 || acc.1, r.2)) (false, base x) ts in
  let x' := mkIOScheduler r.2 (timers x) (ios x) (pipe x) in
  if r.1 then io_notify x' else x'.

(** The [schedule()] calls that [triggerEvent] made on this scheduler, whose
    address is [me], reach its queue; those for other schedulers stay. *)
Definition deliver (me : Z) (x : IOScheduler) : IOScheduler :=
  let s := ios x in
  let mine := filter (λ p, p.1 = me) (queued s) in
  foldl (λ x p, io_schedule_all [p.2] x)
    (mkIOScheduler (base x) (timers x)
       (mkIo (m_fd_contexts s) (m_waitting_events_count s) (interest s)
          (filter (λ p, p.1 ≠ me) (queued s))) (pipe x)) mine.

(** A ready event: the pipe, or context [i]. *)
Inductive ready := ReadyPipe | Ready (i : nat) (events : Z) (fail : bool).

(** The [for (cnt < ret)] loop of [idle()]. *)
Fixpoint handle_all (me : Z) (evs : list ready) (x : IOScheduler) : outcome IOScheduler unit :=
  match evs with
  | [] => Ret tt x
  | ReadyPipe :: evs => handle_all me evs (mkIOScheduler (base x) (timers x) (ios x) 0)
  | Ready i e fail :: evs =>
      match handle_ready i e fail (ios x) with
      | Ret _ s => handle_all me evs (deliver me (mkIOScheduler (base x) (timers x) s (pipe x)))
      | Throw e _ => Throw e x
      | Fault f => Fault f
      end
  end.

(** One round of [idle()] up to its [swapOut]: false when it leaves the loop.
    [prog_of] is the code of a timer callback; [wait] answers [epoll_wait]
    for a timeout (an interrupted wait is repeated with the same timeout);
    [now], [now'] are the clock before and after the wait. *)
Definition idle_round (me : Z) (prog_of : callback → prog) (now now' nt : Z) (wait : Z → list ready)
    : M IOScheduler bool :=
  r <- io_stopping now;;
  if r.1 then mreturn false else
  let evs := wait (wait_timeout r.2) in
  x <- mget;;
  match getExpiredCbsList now' nt (timers x) with
  | Ret cbs tm =>
      let ts := (λ cb, Task_of_cb (prog_of <$> cb) (-1)) <$> cbs in
      let x := mkIOScheduler (base x) tm (ios x) (pipe x) in
      mput (if bool_decide (ts = []) then x else io_schedule_all ts x);;
      handle_all me evs;;
      mreturn true
  | Throw e _ => mthrow e
  | Fault f => mfault f
  end.
