(* ===== verification/IOSchedulerSpec.v ===== *)
(** * What the IO scheduler promises

    The registration of events and their delivery: the count of waiting
    events is exact, the kernel's interest list mirrors the contexts, every registered
    handler is scheduled at most once, and no assertion fails as long as
    [epoll_wait] reports registered events. *)

From S2P Require Import Prelude Fiber Scheduler Timer IOScheduler.
#[local] Open Scope Z_scope.

Definition rw (ev : Z) : Prop := ev = READ ∨ ev = WRITE.
Definition evset (e : Z) : Prop := e = 0 ∨ e = 1 ∨ e = 4 ∨ e = 5.
Definition has (e ev : Z) : bool := negb (Z.land e ev =? 0).

(** A registered handler: one scheduler, and a callback or a fiber. *)
Definition handler (ec : EventContext) : Prop :=
  ∃ sch, (∃ p, ec = mkEventContext (Some sch) None (Some p)) ∨
         (∃ f, ec = mkEventContext (Some sch) (Some f) None).

Definition ec_ok (registered : bool) (ec : EventContext) : Prop :=
  if registered then handler ec else ec = resetContext.

Record ctx_ok (i : nat) (c : FdContext) : Prop := {
  c_fd : fd c = Z.of_nat i;
  c_event : evset (event c);
  c_read : ec_ok (has (event c) READ) (r_event c);
  c_write : ec_ok (has (event c) WRITE) (w_event c);
}.

Definition nev (c : FdContext) : Z :=
  (if has (event c) READ then 1 else 0) + (if has (event c) WRITE then 1 else 0).
Definition total (l : list FdContext) : Z := foldr (λ c n, nev c + n) 0 l.

Definition in_kernel (c : FdContext) : option Z :=
  if event c =? 0 then None else Some (Z.lor EPOLLET (event c)).

Record io_inv (s : io) : Prop := {
  i_ctx : ∀ i c, m_fd_contexts s !! i = Some c → ctx_ok i c;
  i_count : m_waitting_events_count s = total (m_fd_contexts s);
  i_kernel : ∀ k, interest s !! k =
    if decide (0 ≤ k) then c ← m_fd_contexts s !! Z.to_nat k; in_kernel c else None;
  i_len : 32 ≤ zlen (m_fd_contexts s) < 2 ^ 32;
}.

(** ** Arithmetic of the four event sets *)

Ltac ev_cases :=
  repeat match goal with
         | H : rw _ |- _ => destruct H as [->| ->]
         | H : evset ?e |- _ => destruct H as [H|[H|[H|H]]]; rewrite H in *
         end.

Lemma has_add e ev ev' : evset e → rw ev → rw ev' → has e ev = false →
  evset (Z.lor e ev) ∧ has (Z.lor e ev) ev' = (has e ev' || (ev =? ev')).
Proof. intros He Hv Hv' Hn. ev_cases; split; try done; unfold evset; auto. Qed.
Lemma has_clear e ev ev' : evset e → rw ev → rw ev' →
  evset (Z.land e (Z.lnot ev)) ∧ has (Z.land e (Z.lnot ev)) ev' = (has e ev' && negb (ev =? ev')).
Proof. intros He Hv Hv'. ev_cases; split; try done; unfold evset; auto. Qed.
Lemma has_event e ev : evset e → rw ev → has e ev = true → e =? 0 = false.
Proof. intros He Hv Hn. by ev_cases. Qed.
Lemma lor_event e ev : evset e → rw ev → Z.lor e ev =? 0 = false.
Proof. intros He Hv. by ev_cases. Qed.

(** ** Sums over the contexts *)

Lemma nev_bounds c : 0 ≤ nev c ≤ 2.
Proof. unfold nev. destruct (has _ _), (has _ _); lia. Qed.
Lemma total_bounds l : 0 ≤ total l ≤ 2 * zlen l.
Proof.
  unfold zlen. induction l as [|c l IH]; simpl; [lia|]. pose proof (nev_bounds c). lia.
Qed.
Lemma total_insert l i c c' : l !! i = Some c → total (<[i := c']> l) = total l - nev c + nev c'.
Proof.
  revert i. induction l as [|d l IH]; intros [|i] E; simpl in *; simplify_eq; [lia|].
  rewrite (IH i) by done. lia.
Qed.
Lemma total_app l1 l2 : total (l1 ++ l2) = total l1 + total l2.
Proof. induction l1; simpl; lia. Qed.
Lemma total_new l : total (new_ctx <$> l) = 0.
Proof. induction l as [|n l IH]; [done|]. rewrite fmap_cons. exact IH. Qed.

(** Changing one context, its count and its kernel entry. *)
Lemma io_inv_update s i c c' d k q : io_inv s → m_fd_contexts s !! i = Some c → ctx_ok i c' →
  d = nev c' - nev c →
  k = match in_kernel c' with
      | Some e => <[Z.of_nat i := e]> (interest s)
      | None => delete (Z.of_nat i) (interest s)
      end →
  io_inv (mkIo (<[i := c']> (m_fd_contexts s)) (u64 (m_waitting_events_count s + d)) k q).
Proof.
  intros I Hc Hok -> ->. pose proof (total_bounds (<[i := c']> (m_fd_contexts s))) as Hb.
  pose proof (total_insert _ _ _ c' Hc) as Ht. pose proof (i_len _ I).
  assert (Hl : zlen (<[i := c']> (m_fd_contexts s)) = zlen (m_fd_contexts s))
    by (unfold zlen; by rewrite length_insert).
  assert (Hi : (i < length (m_fd_contexts s))%nat) by (by eapply lookup_lt_Some).
  split; simpl.
  - intros j x Hx. destruct (decide (i = j)) as [->|].
    + rewrite list_lookup_insert_eq in Hx by done. by simplify_eq.
    + rewrite list_lookup_insert_ne in Hx by done. by apply (i_ctx _ I).
  - rewrite (i_count _ I), wrapu_small; [lia|lia|]. unfold urange. lia.
  - intros j. destruct (decide (j = Z.of_nat i)) as [->|Hne].
    + rewrite decide_True by lia. rewrite Nat2Z.id, list_lookup_insert_eq by done. simpl.
      destruct (in_kernel c'); [apply lookup_insert_eq|apply lookup_delete_eq].
    + assert (Hk : (match in_kernel c' with
                    | Some e => <[Z.of_nat i := e]> (interest s)
                    | None => delete (Z.of_nat i) (interest s)
                    end) !! j = interest s !! j).
      { destruct (in_kernel c'); [by rewrite lookup_insert_ne|by rewrite lookup_delete_ne]. }
      rewrite Hk, (i_kernel _ I). case_decide; [|done].
      rewrite list_lookup_insert_ne by lia. done.
  - by rewrite Hl.
Qed.

(** What [triggerEvent] schedules. *)
Definition task_of (ec : EventContext) : list (Z * Task) :=
  match ec_scheduler ec with
  | Some sch => [(sch, match ec_cb ec with
                       | Some p => Task_of_cb (Some p) (-1)
                       | None => Task_of_fiber (ec_fiber ec) (-1)
                       end)]
  | None => []
  end.
Definition ctx_of (ev : Z) (c : FdContext) : EventContext :=
  if ev =? READ then r_event c else w_event c.
(** The context after the event is gone. *)
Definition clear_event (ev : Z) (c : FdContext) : FdContext :=
  put_context ev resetContext (set_event (Z.land (event c) (Z.lnot ev)) c).

Lemma ctx_of_ok i ev c : ctx_ok i c → rw ev → ec_ok (has (event c) ev) (ctx_of ev c).
Proof. intros [_ _ Hr Hw] [->| ->]; done. Qed.
Lemma getContext_of ev c : rw ev → getContext ev c = Some (ctx_of ev c).
Proof. by intros [->| ->]. Qed.
Lemma ctx_of_set ev e c : ctx_of ev (set_event e c) = ctx_of ev c.
Proof. done. Qed.

Lemma clear_event_ok i ev c : ctx_ok i c → rw ev → ctx_ok i (clear_event ev c).
Proof.
  intros [Hf He Hr Hw] Hv. pose proof (has_clear (event c) ev READ He Hv (or_introl eq_refl)) as [H1 H2].
  pose proof (has_clear (event c) ev WRITE He Hv (or_intror eq_refl)) as [_ H3].
  unfold clear_event, put_context. destruct Hv as [->| ->]; simpl;
    split; simpl; try done; rewrite ?H2, ?H3; simpl; rewrite ?andb_false_r, ?andb_true_r; done.
Qed.

Lemma clear_event_nev i ev c : ctx_ok i c → rw ev → has (event c) ev = true →
  nev (clear_event ev c) = nev c - 1.
Proof.
  intros [Hf He Hr Hw] Hv Hh. unfold nev, clear_event, put_context.
  destruct Hv as [->| ->]; simpl; ev_cases; try done.
Qed.

Lemma triggerEvent_spec i ev c s : m_fd_contexts s !! i = Some c → ctx_ok i c → rw ev →
  has (event c) ev = true →
  triggerEvent i ev s = Ret tt (mkIo (<[i := clear_event ev c]> (m_fd_contexts s))
    (m_waitting_events_count s) (interest s) (queued s ++ task_of (ctx_of ev c))).
Proof.
  intros Hc Hok Hv Hh. unfold triggerEvent. mrun. rewrite Hc.
  pose proof (ctx_of_ok i ev c Hok Hv) as Hec. rewrite Hh in Hec. simpl in Hec.
  unfold has in Hh. apply negb_true_iff in Hh. rewrite (Z.land_comm ev), Hh.
  rewrite getContext_of by done. rewrite ctx_of_set, (Z.land_comm (Z.lnot ev)).
  unfold clear_event, task_of. destruct Hec as [sch [[p ->]|[f ->]]]; done.
Qed.

Lemma kernel_at s i c : io_inv s → m_fd_contexts s !! i = Some c →
  interest s !! Z.of_nat i = in_kernel c.
Proof. intros I Hc. rewrite (i_kernel _ I), decide_True, Nat2Z.id, Hc by lia. done. Qed.

Lemma get_ctx_spec s k : 0 ≤ k < zlen (m_fd_contexts s) →
  ∃ c, get_ctx k s = Ret (Z.to_nat k, c) s ∧ m_fd_contexts s !! Z.to_nat k = Some c.
Proof.
  intros Hk. destruct (lookup_lt_is_Some_2 (m_fd_contexts s) (Z.to_nat k)) as [c Hc];
    [unfold zlen in Hk; lia|].
  exists c. split; [|done]. unfold get_ctx. mrun. destruct (Z.ltb_spec k 0); [lia|]. by rewrite Hc.
Qed.

(** ** addEvent *)

Definition new_handler (cb : option prog) (sch cur : Z) : EventContext :=
  match cb with
  | Some p => mkEventContext (Some sch) None (Some p)
  | None => mkEventContext (Some sch) (Some cur) None
  end.
Definition register (ev : Z) (ec : EventContext) (c : FdContext) : FdContext :=
  put_context ev ec (set_event (Z.lor (event c) ev) c).

Lemma register_ok i ev ec c : ctx_ok i c → rw ev → has (event c) ev = false → handler ec →
  ctx_ok i (register ev ec c) ∧ nev (register ev ec c) = nev c + 1 ∧
  in_kernel (register ev ec c) = Some (Z.lor EPOLLET (Z.lor (event c) ev)).
Proof.
  intros [Hf He Hr Hw] Hv Hh Hec.
  pose proof (has_add (event c) ev READ He Hv (or_introl eq_refl) Hh) as [H1 H2].
  pose proof (has_add (event c) ev WRITE He Hv (or_intror eq_refl) Hh) as [_ H3].
  split_and!.
  - unfold register, put_context. destruct Hv as [->| ->]; simpl;
      split; simpl; try done; rewrite ?H2, ?H3; simpl; rewrite ?orb_false_r, ?orb_true_r; done.
  - unfold nev, register, put_context. destruct Hv as [->| ->]; simpl; ev_cases; done.
  - unfold in_kernel, register, put_context.
    destruct Hv as [->| ->]; simpl; by rewrite lor_event by (done || by (left + right)).
Qed.

Definition with_interest (k : gmap Z Z) (s : io) : io :=
  mkIo (m_fd_contexts s) (m_waitting_events_count s) k (queued s).

(** The operation the code chooses is the one the kernel accepts. *)
Lemma epoll_ctl_fail op k e s : epoll_ctl true op k e s = Ret false s.
Proof. done. Qed.
Lemma epoll_ctl_put s i c e : io_inv s → m_fd_contexts s !! i = Some c →
  epoll_ctl false (if event c =? 0 then CTL_ADD else CTL_MOD) (Z.of_nat i) e s =
  Ret true (with_interest (<[Z.of_nat i := e]> (interest s)) s).
Proof.
  intros I Hc. unfold epoll_ctl. mrun. rewrite (kernel_at s i c I Hc). unfold in_kernel.
  by destruct (event c =? 0).
Qed.
Lemma epoll_ctl_left s i c left : io_inv s → m_fd_contexts s !! i = Some c → event c =? 0 = false →
  epoll_ctl false (ctl_for left) (Z.of_nat i) (Z.lor EPOLLET left) s =
  Ret true (with_interest (if left =? 0 then delete (Z.of_nat i) (interest s)
                           else <[Z.of_nat i := Z.lor EPOLLET left]> (interest s)) s).
Proof.
  intros I Hc He. unfold epoll_ctl, ctl_for. mrun. rewrite (kernel_at s i c I Hc). unfold in_kernel.
  rewrite He. by destruct (left =? 0).
Qed.

Lemma add_locked_spec s i c ev cb sch cur fail : io_inv s → m_fd_contexts s !! i = Some c → rw ev →
  if has (event c) ev || fail
  then add_locked i (Z.of_nat i) ev cb (Some sch) cur true fail s = Ret (-1) s
  else ∃ s', add_locked i (Z.of_nat i) ev cb (Some sch) cur true fail s = Ret 0 s' ∧ io_inv s' ∧
    m_fd_contexts s' = <[i := register ev (new_handler cb sch cur) c]> (m_fd_contexts s) ∧
    queued s' = queued s.
Proof.
  intros I Hc Hv. pose proof (i_ctx _ I i c Hc) as Hok.
  unfold add_locked. mrun. rewrite Hc. fold (has (event c) ev).
  destruct (has (event c) ev) eqn:Hh; [done|]. cbn [orb].
  destruct fail; [by mstep (epoll_ctl_fail (if event c =? 0 then CTL_ADD else CTL_MOD) (Z.of_nat i)
    (Z.lor (Z.lor EPOLLET (event c)) ev) s)|].
  assert (Hec : handler (new_handler cb sch cur)) by (destruct cb; eexists; [left|right]; by eexists).
  destruct (register_ok i ev _ c Hok Hv Hh Hec) as (Hr1 & Hr2 & Hr3).
  pose proof (ctx_of_ok i ev c Hok Hv) as Hold. rewrite Hh in Hold. simpl in Hold.
  mstep (epoll_ctl_put s i c (Z.lor (Z.lor EPOLLET (event c)) ev) I Hc). cbn [negb].
  rewrite bind_modify, getContext_of, ctx_of_set, Hold by done. cbn [resetContext ec_cb ec_fiber ec_scheduler].
  exists (mkIo (<[i := register ev (new_handler cb sch cur) c]> (m_fd_contexts s))
            (u64 (m_waitting_events_count s + 1))
            (<[Z.of_nat i := Z.lor (Z.lor EPOLLET (event c)) ev]> (interest s)) (queued s)).
  split; [by destruct cb|]. split; [|done].
  eapply (io_inv_update s i c _ 1); try done; [lia|]. by rewrite Hr3, Z.lor_assoc.
Qed.

(** The context of an fd, also of one that has none yet. *)
Definition ctx_at (s : io) (k : Z) : FdContext :=
  default (new_ctx (Z.to_nat k)) (m_fd_contexts s !! Z.to_nat k).

Lemma resize_inv s k : io_inv s → zlen (m_fd_contexts s) ≤ k < 2 ^ 31 →
  io_inv (contextResize (k + k / 2) s) ∧ k < zlen (m_fd_contexts (contextResize (k + k / 2) s)) ∧
  ∀ j, ctx_at (contextResize (k + k / 2) s) j = ctx_at s j.
Proof.
  intros I Hk. pose proof (i_len _ I). set (l := m_fd_contexts s) in *.
  assert (Hh : 1 ≤ k / 2 ≤ k) by (split; [apply Z.div_le_lower_bound; lia|apply Z.div_le_upper_bound; lia]).
  assert (Hn : m_fd_contexts (contextResize (k + k / 2) s) =
               l ++ (new_ctx <$> seq (length l) (Z.to_nat (k + k / 2) - length l))).
  { unfold contextResize. simpl. fold l. rewrite take_ge by (unfold zlen in *; lia). done. }
  set (n := new_ctx <$> _) in Hn.
  assert (Hz : zlen (m_fd_contexts (contextResize (k + k / 2) s)) = k + k / 2).
  { rewrite Hn, zlen_app. unfold n, zlen in *. rewrite length_fmap, length_seq. lia. }
  assert (Hnew : ∀ i c, n !! i = Some c → c = new_ctx (length l + i)).
  { intros i c Hc. unfold n in Hc. apply list_lookup_fmap_Some in Hc as (j & -> & Hj).
    apply lookup_seq in Hj as [-> _]. done. }
  split; [|split; [rewrite Hz; lia|]].
  - split; [| | |rewrite Hz; lia].
    + intros i c Hc. rewrite Hn in Hc. apply lookup_app_Some in Hc as [Hc|[Hle Hc]]; [by apply (i_ctx _ I)|].
      apply Hnew in Hc as ->. split; simpl; try done; [lia|by left].
    + rewrite Hn, total_app. unfold n. rewrite total_new. simpl. rewrite (i_count _ I). fold l. lia.
    + intros j. simpl (interest _). rewrite (i_kernel _ I), Hn. fold l. case_decide; [|done].
      destruct (l !! Z.to_nat j) as [c|] eqn:Hc; [by rewrite (lookup_app_l_Some _ _ _ _ Hc)|].
      rewrite lookup_app_r by (by apply lookup_ge_None in Hc).
      destruct (n !! _) as [c|] eqn:Hc'; [|done]. by apply Hnew in Hc' as ->.
  - intros j. unfold ctx_at. rewrite Hn. fold l.
    destruct (l !! Z.to_nat j) as [c|] eqn:Hc; [by rewrite (lookup_app_l_Some _ _ _ _ Hc)|].
    apply lookup_ge_None in Hc. rewrite lookup_app_r by done.
    destruct (n !! _) as [c|] eqn:Hc'; [|done]. apply Hnew in Hc' as ->. simpl. f_equal. lia.
Qed.

Lemma ctx_at_Some s k c : m_fd_contexts s !! Z.to_nat k = Some c → ctx_at s k = c.
Proof. intros E. unfold ctx_at. by rewrite E. Qed.

Lemma ctx_at_insert s s' i c k : m_fd_contexts s' = <[i := c]> (m_fd_contexts s) →
  (i < length (m_fd_contexts s))%nat → 0 ≤ k →
  ctx_at s' k = if decide (k = Z.of_nat i) then c else ctx_at s k.
Proof.
  intros E Hi Hk. unfold ctx_at. rewrite E. case_decide as Hd.
  - subst k. by rewrite Nat2Z.id, list_lookup_insert_eq.
  - by rewrite list_lookup_insert_ne by lia.
Qed.

Lemma addEvent_spec s k ev cb sch cur fail : io_inv s → 0 ≤ k < 2 ^ 31 → rw ev →
  ∃ s', io_inv s' ∧ queued s' = queued s ∧
    (∀ j, 0 ≤ j → j ≠ k → ctx_at s' j = ctx_at s j) ∧
    if has (event (ctx_at s k)) ev || fail
    then addEvent k ev cb (Some sch) cur true fail s = Ret (-1) s' ∧ ctx_at s' k = ctx_at s k
    else addEvent k ev cb (Some sch) cur true fail s = Ret 0 s' ∧
         ctx_at s' k = register ev (new_handler cb sch cur) (ctx_at s k).
Proof.
  intros I Hk Hv. unfold addEvent. mrun.
  assert (H1 : ∃ s1, (if add_lookup k s then mreturn tt else add_resize k) s = Ret tt s1 ∧ io_inv s1 ∧
     queued s1 = queued s ∧ k < zlen (m_fd_contexts s1) ∧ ∀ j, ctx_at s1 j = ctx_at s j).
  { unfold add_lookup. destruct (Z.ltb_spec k (zlen (m_fd_contexts s))) as [Hlt|Hge]; [by exists s|].
    destruct (resize_inv s k I ltac:(lia)) as (I1 & Hl & Hn). by eexists. }
  destruct H1 as (s1 & E1 & I1 & Q1 & Hl & Hsame). mstep E1.
  destruct (get_ctx_spec s1 k ltac:(lia)) as (c & E2 & Hc). mstep E2. cbn [fst].
  assert (Hck : ctx_at s k = c) by (rewrite <-Hsame; by apply ctx_at_Some).
  assert (Hz : k = Z.of_nat (Z.to_nat k)) by lia.
  pose proof (add_locked_spec s1 (Z.to_nat k) c ev cb sch cur fail I1 Hc Hv) as A.
  rewrite <-Hz in A. rewrite Hck. destruct (has (event c) ev || fail).
  - exists s1. rewrite Hsame, Hck. split_and!; done.
  - destruct A as (s' & E3 & I3 & C3 & Q3). exists s'.
    assert (Hlt : (Z.to_nat k < length (m_fd_contexts s1))%nat) by (by eapply lookup_lt_Some).
    split; [done|]. split; [congruence|]. split; [|split; [done|]].
    + intros j Hj Hne. rewrite (ctx_at_insert s1 s' _ _ j C3 Hlt Hj). by rewrite decide_False by lia.
    + rewrite (ctx_at_insert s1 s' _ _ k C3 Hlt) by lia. by rewrite decide_True by lia.
Qed.

(** ** delEvent, cancelEvent, cancelAll *)

Lemma clear_kernel i ev c s : ctx_ok i c → rw ev →
  (if Z.land (event c) (Z.lnot ev) =? 0 then delete (Z.of_nat i) (interest s)
   else <[Z.of_nat i := Z.lor EPOLLET (Z.land (event c) (Z.lnot ev))]> (interest s)) =
  match in_kernel (clear_event ev c) with
  | Some e => <[Z.of_nat i := e]> (interest s)
  | None => delete (Z.of_nat i) (interest s)
  end.
Proof.
  intros Hok Hv. unfold in_kernel, clear_event, put_context.
  destruct Hv as [->| ->]; simpl; by destruct (_ =? 0).
Qed.

(** The context an fd below the table's size has, and what the first checks give. *)
Lemma del_cancel_spec s k ev fail : io_inv s → 0 ≤ k → rw ev →
  if has (event (ctx_at s k)) ev && negb fail
  then (∃ s', delEvent k ev fail s = Ret true s' ∧ io_inv s' ∧ queued s' = queued s ∧
          m_fd_contexts s' = <[Z.to_nat k := clear_event ev (ctx_at s k)]> (m_fd_contexts s)) ∧
       (∃ s', cancelEvent k ev fail s = Ret true s' ∧ io_inv s' ∧
          queued s' = queued s ++ task_of (ctx_of ev (ctx_at s k)) ∧
          m_fd_contexts s' = <[Z.to_nat k := clear_event ev (ctx_at s k)]> (m_fd_contexts s))
  else delEvent k ev fail s = Ret false s ∧ cancelEvent k ev fail s = Ret false s.
Proof.
  intros I Hk Hv. unfold delEvent, cancelEvent. mrun.
  destruct (Z.leb_spec (zlen (m_fd_contexts s)) k) as [Hge|Hlt].
  { assert (ctx_at s k = new_ctx (Z.to_nat k)) as ->.
    { unfold ctx_at. rewrite lookup_ge_None_2; [done|]. unfold zlen in Hge. lia. }
    by destruct Hv as [->| ->]. }
  destruct (get_ctx_spec s k ltac:(lia)) as (c & E2 & Hc).
  rewrite !(bind_Ret _ _ _ _ _ E2). cbn [fst snd]. rewrite (ctx_at_Some s k c Hc).
  pose proof (i_ctx _ I _ c Hc) as Hok. assert (Hz : k = Z.of_nat (Z.to_nat k)) by lia.
  destruct (has (event c) ev) eqn:Hh; unfold has in Hh;
    [apply negb_true_iff in Hh|apply negb_false_iff in Hh]; rewrite Hh; [|done].
  set (new := Z.land (event c) (Z.lnot ev)). destruct fail; cbn [andb negb].
  { split; by mstep (epoll_ctl_fail (ctl_for new) k (Z.lor EPOLLET new) s). }
  assert (Hhas : has (event c) ev = true) by (unfold has; by rewrite Hh).
  pose proof (has_event _ _ (c_event _ _ Hok) Hv Hhas) as He.
  pose proof (epoll_ctl_left s _ c new I Hc He) as Ectl. rewrite <-Hz in Ectl.
  rewrite !(bind_Ret _ _ _ _ _ Ectl). cbn [negb]. rewrite getContext_of by done.
  pose proof (clear_event_ok _ ev c Hok Hv) as Hok'.
  pose proof (clear_event_nev _ ev c Hok Hv Hhas) as Hn.
  pose proof (clear_kernel _ ev c s Hok Hv) as Hker. rewrite <-Hz in Hker. fold new in Hker.
  assert (Iend : ∀ q, io_inv (mkIo (<[Z.to_nat k := clear_event ev c]> (m_fd_contexts s))
     (u64 (m_waitting_events_count s + -1)) (if new =? 0 then delete k (interest s)
        else <[k := Z.lor EPOLLET new]> (interest s)) q)).
  { intros q. eapply (io_inv_update s _ c _ (-1)); try done; [lia|]. by rewrite <-Hz. }
  split.
  - rewrite bind_modify. eexists. split; [done|]. split; [apply Iend|]. done.
  - assert (Hc1 : m_fd_contexts (with_interest (if new =? 0 then delete k (interest s)
       else <[k := Z.lor EPOLLET new]> (interest s)) s) !! Z.to_nat k = Some c) by done.
    mstep (triggerEvent_spec _ ev c _ Hc1 Hok Hv Hhas). rewrite bind_modify.
    eexists. split; [done|]. split; [apply Iend|]. done.
Qed.

(** One handler fires when [m] has its event. *)
Definition clear_if (m ev : Z) (c : FdContext) : FdContext := if has m ev then clear_event ev c else c.
Definition tasks_if (m ev : Z) (c : FdContext) : list (Z * Task) :=
  if has m ev then task_of (ctx_of ev c) else [].

Lemma trigger_if_spec mask m i ev c s : mask s = Ret m s → m_fd_contexts s !! i = Some c →
  ctx_ok i c → rw ev → (has m ev = true → has (event c) ev = true) →
  trigger_if mask i ev s = Ret tt (mkIo (<[i := clear_if m ev c]> (m_fd_contexts s))
    (if has m ev then u64 (m_waitting_events_count s + -1) else m_waitting_events_count s)
    (interest s) (queued s ++ tasks_if m ev c)).
Proof.
  intros Em Hc Hok Hv Hsub. unfold trigger_if. mstep Em. unfold clear_if, tasks_if.
  destruct (has m ev) eqn:Hh; unfold has in Hh;
    [apply negb_true_iff in Hh|apply negb_false_iff in Hh]; rewrite Hh.
  - by mstep (triggerEvent_spec _ ev c s Hc Hok Hv (Hsub eq_refl)).
  - rewrite app_nil_r, list_insert_id by done. by destruct s.
Qed.

Definition clear_both (m : Z) (c : FdContext) : FdContext := clear_if m WRITE (clear_if m READ c).
Definition tasks_both (m : Z) (c : FdContext) : list (Z * Task) := tasks_if m READ c ++ tasks_if m WRITE c.

Lemma clear_if_ok i m ev c : ctx_ok i c → rw ev → ctx_ok i (clear_if m ev c).
Proof. intros. unfold clear_if. destruct (has m ev); [by apply clear_event_ok|done]. Qed.

(** Clearing the read event leaves the write event alone. *)
Lemma clear_read_write m c : evset (event c) → 
  has (event (clear_if m READ c)) WRITE = has (event c) WRITE ∧
  ctx_of WRITE (clear_if m READ c) = ctx_of WRITE c.
Proof.
  intros He. unfold clear_if, clear_event, put_context. destruct (has m READ); [|done].
  simpl. split; [|done]. by ev_cases.
Qed.

Definition fired (m : Z) : Z := (if has m READ then 1 else 0) + (if has m WRITE then 1 else 0).

Lemma trigger_both_spec mask1 mask2 m m2 i c s :
  mask1 s = Ret m s → m_fd_contexts s !! i = Some c → ctx_ok i c →
  (∀ ev, rw ev → has m ev = true → has (event c) ev = true) →
  (∀ s', m_fd_contexts s' = <[i := clear_if m READ c]> (m_fd_contexts s) → mask2 s' = Ret m2 s') →
  has m2 WRITE = has m WRITE → urange 64 (m_waitting_events_count s) →
  (trigger_if mask1 i READ;; trigger_if mask2 i WRITE) s =
  Ret tt (mkIo (<[i := clear_both m c]> (m_fd_contexts s)) (u64 (m_waitting_events_count s + - fired m))
            (interest s) (queued s ++ tasks_both m c)).
Proof.
  intros Em Hc Hok Hsub Em2 Hm2 Hr.
  assert (Hr0 : rw READ) by by left. assert (Hw0 : rw WRITE) by by right.
  rewrite (bind_Ret _ _ _ _ _ (trigger_if_spec mask1 m i READ c s Em Hc Hok Hr0 (Hsub READ Hr0))).
  destruct (clear_read_write m c (c_event _ _ Hok)) as [Hw Hctx].
  set (s1 := mkIo _ _ _ _).
  assert (Hc1 : m_fd_contexts s1 !! i = Some (clear_if m READ c))
    by (simpl; apply list_lookup_insert_eq; by eapply lookup_lt_Some).
  rewrite (trigger_if_spec mask2 m2 i WRITE _ s1 (Em2 s1 eq_refl) Hc1 (clear_if_ok i m READ c Hok Hr0) Hw0).
  2: { rewrite Hw, Hm2. by apply Hsub. }
  simpl. rewrite list_insert_insert_eq. unfold clear_both, tasks_both, tasks_if, clear_if at 1.
  rewrite Hm2, Hctx, (assoc_L app). f_equal.
  assert (Hmm : (if has m WRITE then u64 ((if has m READ then u64 (m_waitting_events_count s + -1)
      else m_waitting_events_count s) + -1) else
      if has m READ then u64 (m_waitting_events_count s + -1) else m_waitting_events_count s) =
      u64 (m_waitting_events_count s + - fired m)).
  { unfold fired, wrapu. destruct (has m READ), (has m WRITE); cbn [Z.add Z.opp];
      rewrite ?Zplus_mod_idemp_l; try (f_equal; lia).
    symmetry. rewrite Z.add_0_r. apply Z.mod_small. exact Hr. }
  by rewrite Hmm.
Qed.

Definition sub_events (m e : Z) : Prop := ∀ ev, rw ev → has m ev = true → has e ev = true.

Lemma clear_both_spec i m c : ctx_ok i c → evset m → sub_events m (event c) →
  ctx_ok i (clear_both m c) ∧ nev (clear_both m c) = nev c - fired m ∧
  event (clear_both m c) = Z.land (event c) (Z.lnot m).
Proof.
  intros Hok Hm Hsub. split.
  { apply clear_if_ok; [|by right]. apply clear_if_ok; [done|by left]. }
  pose proof (Hsub READ (or_introl eq_refl)) as H1. pose proof (Hsub WRITE (or_intror eq_refl)) as H2.
  pose proof (c_event _ _ Hok) as He. clear Hok Hsub.
  destruct c as [r w k e]. simpl in He, H1, H2.
  destruct He as [->|[->|[->| ->]]], Hm as [->|[->|[->| ->]]]; vm_compute in H1, H2 |- *;
    try (specialize (H1 eq_refl)); try (specialize (H2 eq_refl)); done.
Qed.

Lemma clear_both_kernel i m c (k : gmap Z Z) :
  event (clear_both m c) = Z.land (event c) (Z.lnot m) →
  (if Z.land (event c) (Z.lnot m) =? 0 then delete (Z.of_nat i) k
   else <[Z.of_nat i := Z.lor EPOLLET (Z.land (event c) (Z.lnot m))]> k) =
  match in_kernel (clear_both m c) with
  | Some e => <[Z.of_nat i := e]> k
  | None => delete (Z.of_nat i) k
  end.
Proof. intros E. unfold in_kernel. rewrite E. by destruct (_ =? 0). Qed.

Lemma count_range s : io_inv s → urange 64 (m_waitting_events_count s).
Proof.
  intros I. rewrite (i_count _ I). pose proof (total_bounds (m_fd_contexts s)).
  pose proof (i_len _ I). unfold urange. lia.
Qed.

Lemma cancelAll_spec s k fail : io_inv s → 0 ≤ k →
  if negb (event (ctx_at s k) =? 0) && negb fail
  then ∃ s', cancelAll k fail s = Ret true s' ∧ io_inv s' ∧
         queued s' = queued s ++ tasks_both (event (ctx_at s k)) (ctx_at s k) ∧
         m_fd_contexts s' = <[Z.to_nat k := clear_both (event (ctx_at s k)) (ctx_at s k)]> (m_fd_contexts s) ∧
         event (clear_both (event (ctx_at s k)) (ctx_at s k)) = 0
  else cancelAll k fail s = Ret false s.
Proof.
  intros I Hk. unfold cancelAll. mrun.
  destruct (Z.leb_spec (zlen (m_fd_contexts s)) k) as [Hge|Hlt].
  { assert (ctx_at s k = new_ctx (Z.to_nat k)) as ->; [|done].
    unfold ctx_at. rewrite lookup_ge_None_2; [done|]. unfold zlen in Hge. lia. }
  destruct (get_ctx_spec s k ltac:(lia)) as (c & E2 & Hc).
  rewrite (bind_Ret _ _ _ _ _ E2). cbn [fst snd]. rewrite (ctx_at_Some s k c Hc).
  destruct (event c =? 0) eqn:He; [done|]. cbn [negb andb].
  destruct fail; [done|]. cbn [negb].
  pose proof (i_ctx _ I _ c Hc) as Hok. assert (Hz : k = Z.of_nat (Z.to_nat k)) by lia.
  assert (Ectl : epoll_ctl false CTL_DEL k 0 s = Ret true (with_interest (delete k (interest s)) s)).
  { assert (Hki : interest s !! k = in_kernel c) by (rewrite Hz; by apply kernel_at).
    unfold epoll_ctl. mrun. rewrite Hki. unfold in_kernel. by rewrite He. }
  rewrite (bind_Ret _ _ _ _ _ Ectl). cbn [negb]. set (s1 := with_interest _ s).
  set (i := Z.to_nat k) in *.
  assert (Hsub : sub_events (event c) (event c)) by by intros ev.
  destruct (clear_both_spec i (event c) c Hok (c_event _ _ Hok) Hsub) as (Hok' & Hn & Hev).
  rewrite Z.land_lnot_diag in Hev.
  assert (Hme : event_of i s1 = Ret (event c) s1) by (unfold event_of; mrun; simpl; by rewrite Hc).
  assert (Hlt' : (i < length (m_fd_contexts s))%nat) by (by eapply lookup_lt_Some).
  pose proof (trigger_both_spec (event_of i) (event_of i) (event c) (event (clear_if (event c) READ c)) i c s1
    Hme Hc Hok Hsub) as T.
  assert (HT : (trigger_if (event_of i) i READ;; trigger_if (event_of i) i WRITE) s1 =
     Ret tt (mkIo (<[i := clear_both (event c) c]> (m_fd_contexts s))
       (u64 (m_waitting_events_count s + - fired (event c))) (delete k (interest s))
       (queued s ++ tasks_both (event c) c))).
  { apply T.
    - intros s' Es'. unfold event_of. mrun. rewrite Es'. by rewrite list_lookup_insert_eq.
    - by apply clear_read_write, Hok.
    - exact (count_range s I). }
  apply bind_Ret_inv in HT as ([] & s2 & T1 & T2). mstep T1. mstep T2.
  match goal with |- context [mkIo ?a ?b ?c ?d] => set (s3 := mkIo a b c d) end.
  assert (He3 : event_of i s3 = Ret 0 s3)
    by (unfold event_of; mrun; simpl; rewrite list_lookup_insert_eq by done; by rewrite Hev).
  mstep He3. exists s3. split; [done|]. split; [|done].
  eapply (io_inv_update s i c); try done; [lia|].
  unfold in_kernel. rewrite Hev. simpl. by rewrite <-Hz.
Qed.

(** Reports that an idle thread may handle: of registered events, or of none
    that is (still) registered, with any errors and hang-ups. *)
Definition reportable (events registered : Z) : Prop :=
  let real := real_event events registered in
  Z.land registered real = 0 ∨ Z.land real (Z.lnot registered) = 0.

Lemma real_event_set events e : evset (real_event events e).
Proof. unfold real_event, evset. destruct (Z.land _ READ =? 0), (Z.land _ WRITE =? 0); cbn; auto. Qed.
Lemma real_event_sub events e : evset e → reportable events e → Z.land e (real_event events e) ≠ 0 →
  sub_events (real_event events e) e.
Proof.
  intros He [Hr|Hr] Hn; [done|]. pose proof (real_event_set events e) as Hs.
  destruct He as [->|[->|[->| ->]]], Hs as [E|[E|[E|E]]]; rewrite E in *; try done;
    intros ev [->| ->]; done.
Qed.

Lemma handle_ready_spec s i c events fail : io_inv s → m_fd_contexts s !! i = Some c →
  reportable events (event c) →
  let real := real_event events (event c) in
  if negb (Z.land (event c) real =? 0) && negb fail
  then ∃ s', handle_ready i events fail s = Ret tt s' ∧ io_inv s' ∧
         queued s' = queued s ++ tasks_both real c ∧
         m_fd_contexts s' = <[i := clear_both real c]> (m_fd_contexts s)
  else handle_ready i events fail s = Ret tt s.
Proof.
  intros I Hc Hrep. pose proof (i_ctx _ I _ c Hc) as Hok.
  pose proof (real_event_set events (event c)) as Hre.
  pose proof (real_event_sub events (event c) (c_event _ _ Hok) Hrep) as Hsub.
  cbv zeta. unfold handle_ready. mrun. rewrite Hc.
  set (real := real_event events (event c)) in *.
  destruct (Z.land (event c) real =? 0) eqn:Hr0; [done|]. cbn [negb andb]. apply Z.eqb_neq in Hr0.
  specialize (Hsub Hr0). rewrite (c_fd _ _ Hok). destruct fail; [done|]. cbn [negb].
  assert (Hz2 : event c =? 0 = false).
  { apply Z.eqb_neq. intros E. by rewrite E, Z.land_0_l in Hr0. }
  rewrite (bind_Ret _ _ _ _ _ (epoll_ctl_left s i c (Z.land (event c) (Z.lnot real)) I Hc Hz2)). cbn [negb].
  set (s1 := with_interest _ s).
  destruct (clear_both_spec i real c Hok Hre Hsub) as (Hok' & Hn & Hev).
  rewrite (trigger_both_spec (mreturn real) (mreturn real) real real i c s1 eq_refl Hc Hok Hsub)
    by (done || by apply (count_range s)).
  eexists. split; [done|]. split; [|done].
  eapply (io_inv_update s i c); try done; [lia|]. by apply clear_both_kernel.
Qed.

(** ** Runs *)

(** A call, by a thread of scheduler [sch] whose current fiber is [cur]. *)
Inductive iop :=
| IAdd (k ev : Z) (cb : option prog) (sch cur : Z) (fail : bool)
| IDel (k ev : Z) (fail : bool)
| ICancel (k ev : Z) (fail : bool)
| ICancelAll (k : Z) (fail : bool)
| IReady (i : nat) (events : Z) (fail : bool).

Inductive iout := ICode (z : Z) | IBool (b : bool) | IUnit.

Definition iexec (o : iop) : M io iout :=
  match o with
  | IAdd k ev cb sch cur fail => z <- addEvent k ev cb (Some sch) cur true fail;; mreturn (ICode z)
  | IDel k ev fail => b <- delEvent k ev fail;; mreturn (IBool b)
  | ICancel k ev fail => b <- cancelEvent k ev fail;; mreturn (IBool b)
  | ICancelAll k fail => b <- cancelAll k fail;; mreturn (IBool b)
  | IReady i events fail => handle_ready i events fail;; mreturn IUnit
  end.

(** File descriptors are not negative, events are READ or WRITE, and
    [epoll_wait] reports on a context. *)
Definition iop_args (s : io) (o : iop) : Prop :=
  match o with
  | IAdd k ev _ _ _ _ => 0 ≤ k < 2 ^ 31 ∧ rw ev
  | IDel k ev _ | ICancel k ev _ => 0 ≤ k ∧ rw ev
  | ICancelAll k _ => 0 ≤ k
  | IReady i _ _ => is_Some (m_fd_contexts s !! i)
  end.
(** A report of one event that is registered and one that is not any more. *)
Definition stale (s : io) (o : iop) : Prop :=
  ∃ i events c, o = IReady i events false ∧ m_fd_contexts s !! i = Some c ∧ ¬ reportable events (event c).
(** Such calls, and reports that are not stale. *)
Definition iop_ok (s : io) (o : iop) : Prop :=
  match o with
  | IAdd k ev _ _ _ _ => 0 ≤ k < 2 ^ 31 ∧ rw ev
  | IDel k ev _ | ICancel k ev _ => 0 ≤ k ∧ rw ev
  | ICancelAll k _ => 0 ≤ k
  | IReady i events _ => ∃ c, m_fd_contexts s !! i = Some c ∧ reportable events (event c)
  end.

Inductive ireach : io → Prop :=
| ireach_init : ireach IOScheduler_new
| ireach_step s o r s' : ireach s → iop_args s o → iexec o s = Ret r s' → ireach s'.

Lemma IOScheduler_new_inv : io_inv IOScheduler_new.
Proof.
  assert (Hl : m_fd_contexts IOScheduler_new = new_ctx <$> seq 0 32) by done.
  assert (Hn : ∀ i c, m_fd_contexts IOScheduler_new !! i = Some c → c = new_ctx i).
  { intros i c Hc. rewrite Hl in Hc. apply list_lookup_fmap_Some in Hc as (j & -> & Hj).
    by apply lookup_seq in Hj as [-> _]. }
  split; try done.
  - intros i c Hc. apply Hn in Hc as ->. split; try done. by left.
  - intros k. change (interest IOScheduler_new) with (∅ : gmap Z Z). rewrite lookup_empty.
    case_decide; [|done].
    destruct (m_fd_contexts IOScheduler_new !! Z.to_nat k) as [c|] eqn:Hc; [|done].
    by apply Hn in Hc as ->.
Qed.

Lemma iop_ok_args s o : iop_ok s o → iop_args s o ∧ ¬ stale s o.
Proof.
  intros Hok. split.
  - destruct o; try exact Hok. destruct Hok as (c & Hc & _). by exists c.
  - intros (i & events & c & -> & Hc & Hr). destruct Hok as (c' & Hc' & Hr'). naive_solver.
Qed.

(** The first trigger takes the registered event, the second finds none. *)
Lemma trigger_unregistered i ev c s : m_fd_contexts s !! i = Some c → has (event c) ev = false →
  triggerEvent i ev s = Fault AssertFailed.
Proof.
  intros Hc Hh. unfold triggerEvent. mrun. rewrite Hc. unfold has in Hh.
  apply negb_false_iff in Hh. by rewrite Z.land_comm, Hh.
Qed.
Lemma trigger_if_unregistered m i ev c s : m_fd_contexts s !! i = Some c → has m ev = true →
  has (event c) ev = false → trigger_if (mreturn m) i ev s = Fault AssertFailed.
Proof.
  intros Hc Hm Hh. unfold trigger_if. rewrite (bind_Ret (mreturn m) _ s m s) by done. unfold has in Hm. apply negb_true_iff in Hm.
  rewrite Hm. apply bind_Fault. by apply (trigger_unregistered i ev c).
Qed.
Lemma handle_stale s i c events : io_inv s → m_fd_contexts s !! i = Some c →
  ¬ reportable events (event c) → handle_ready i events false s = Fault AssertFailed.
Proof.
  intros I Hc Hrep. pose proof (i_ctx _ I _ c Hc) as Hok. unfold handle_ready. mrun. rewrite Hc.
  assert (Hboth : rw (event c) ∧ real_event events (event c) = 5).
  { pose proof (real_event_set events (event c)) as Hs. unfold reportable in Hrep. unfold rw.
    destruct (c_event _ _ Hok) as [E|[E|[E|E]]], Hs as [R|[R|[R|R]]]; rewrite E in *; rewrite R in *;
      try (by destruct Hrep; vm_compute; auto); auto. }
  destruct Hboth as [He ->]. destruct (Z.land (event c) 5 =? 0) eqn:H0; [by destruct He as [E|E]; rewrite E in H0|].
  assert (E0 : event c =? 0 = false) by (destruct He as [->| ->]; done).
  rewrite (c_fd _ _ Hok), (bind_Ret _ _ _ _ _ (epoll_ctl_left s i c (Z.land (event c) (Z.lnot 5)) I Hc E0)).
  cbn [negb]. set (s1 := with_interest _ s). destruct He as [E|E].
  - rewrite (bind_Ret _ _ _ _ _ (trigger_if_spec (mreturn 5) 5 i READ c s1 eq_refl Hc Hok (or_introl eq_refl)
      ltac:(by rewrite E))).
    eapply (trigger_if_unregistered 5 i WRITE); [simpl; apply list_lookup_insert_eq; by eapply lookup_lt_Some|done|].
    simpl. by rewrite E.
  - apply bind_Fault. eapply (trigger_if_unregistered 5 i READ c s1); [done|done|by rewrite E].
Qed.

Lemma iexec_inv s o : io_inv s → iop_args s o → ¬ stale s o → ∃ r s', iexec o s = Ret r s' ∧ io_inv s'.
Proof.
  intros I Hok Hst. destruct o as [k ev cb sch cur fail|k ev fail|k ev fail|k fail|i events fail];
    simpl in Hok |- *.
  - destruct Hok as [Hk Hv]. destruct (addEvent_spec s k ev cb sch cur fail I Hk Hv) as (s' & I' & _ & _ & R).
    destruct (_ || _); destruct R as [R _]; mstep R; eauto.
  - destruct Hok as [Hk Hv]. pose proof (del_cancel_spec s k ev fail I Hk Hv) as R.
    destruct (_ && _); [destruct R as [(s' & R & ? & _) _]|destruct R as [R _]]; mstep R; eauto.
  - destruct Hok as [Hk Hv]. pose proof (del_cancel_spec s k ev fail I Hk Hv) as R.
    destruct (_ && _); [destruct R as [_ (s' & R & ? & _)]|destruct R as [_ R]]; mstep R; eauto.
  - pose proof (cancelAll_spec s k fail I Hok) as R.
    destruct (_ && _); [destruct R as (s' & R & ? & _)|]; mstep R; eauto.
  - destruct Hok as (c & Hc). destruct (decide (reportable events (event c))) as [Hrep|Hrep].
    2: { destruct fail; [|destruct Hst; by exists i, events, c]. exists IUnit, s. split; [|done].
         rewrite (bind_Ret _ _ s tt s); [done|]. unfold handle_ready. mrun. rewrite Hc. by destruct (_ =? 0). }
    pose proof (handle_ready_spec s i c events fail I Hc Hrep) as R.
    cbv zeta in R. destruct (_ && _); [destruct R as (s' & R & ? & _)|]; mstep R; eauto.
Qed.

Lemma iexec_stale s o : io_inv s → stale s o → iexec o s = Fault AssertFailed.
Proof.
  intros I (i & events & c & -> & Hc & Hr). simpl. apply bind_Fault. by apply (handle_stale s i c).
Qed.
Lemma ireach_inv s : ireach s → io_inv s.
Proof.
  induction 1 as [|s o r s' _ IH Hok E]; [apply IOScheduler_new_inv|].
  assert (Hst : ¬ stale s o) by (intros Hst; by rewrite iexec_stale in E).
  destruct (iexec_inv s o IH Hok Hst) as (r' & s'' & E' & I'). rewrite E in E'. by simplify_eq.
Qed.

(** C6: Through any sequence of registrations, deletions, cancellations and
    reported events, with [epoll_ctl] failing whenever it likes, each operation
    returns and keeps: the waiting counter equal to the number of registered
    (fd, event) pairs, a handler (one callback or fiber) in exactly the
    contexts of registered events, and the kernel's interest list equal to the
    contexts' event sets. The one exception is a report that names an event
    that is registered together with one that is not any more: it trips an
    assertion. Other outdated reports are dropped. *)
Theorem io_events_safe s o : ireach s → iop_args s o →
  (¬ stale s o → ∃ r s', iexec o s = Ret r s' ∧ io_inv s') ∧
  (stale s o → iexec o s = Fault AssertFailed).
Proof.
  intros R%ireach_inv Hok. split; [by apply iexec_inv|by apply iexec_stale].
Qed.

Lemma io_events_safe_witness :
  (¬ stale IOScheduler_new (IAdd 40 WRITE None 1 2 false) →
     ∃ r s', iexec (IAdd 40 WRITE None 1 2 false) IOScheduler_new = Ret r s' ∧ io_inv s') ∧
  (stale IOScheduler_new (IAdd 40 WRITE None 1 2 false) →
     iexec (IAdd 40 WRITE None 1 2 false) IOScheduler_new = Fault AssertFailed).
Proof. apply io_events_safe; [constructor|]. split; [lia|by right]. Defined.

(** Registering an event on an fd that does not have it and cancelling it
    again hands exactly the registered callback or fiber to the scheduler that
    registered it, once, and leaves every context and the counter as they were before;
    a second registration of the same event in between is refused and changes nothing. *)
Theorem event_delivered_once s k ev cb sch cur cb' sch' cur' :
  ireach s → 0 ≤ k < 2 ^ 31 → rw ev → has (event (ctx_at s k)) ev = false →
  ∃ s1 s2, addEvent k ev cb (Some sch) cur true false s = Ret 0 s1 ∧
    (∃ s1', addEvent k ev cb' (Some sch') cur' true false s1 = Ret (-1) s1' ∧
       queued s1' = queued s1 ∧ ∀ j, 0 ≤ j → ctx_at s1' j = ctx_at s1 j) ∧
    cancelEvent k ev false s1 = Ret true s2 ∧
    queued s2 = queued s ++ [(sch, match cb with
                                   | Some p => Task_of_cb (Some p) (-1)
                                   | None => Task_of_fiber (Some cur) (-1)
                                   end)] ∧
    (∀ j, 0 ≤ j → ctx_at s2 j = ctx_at s j) ∧
    cancelEvent k ev false s2 = Ret false s2.
Proof.
  intros R Hk Hv Hno. pose proof (ireach_inv s R) as I.
  destruct (addEvent_spec s k ev cb sch cur false I Hk Hv) as (s1 & I1 & Q1 & O1 & A1).
  rewrite Hno in A1. simpl in A1. destruct A1 as [E1 C1].
  assert (Hok : ctx_ok (Z.to_nat k) (ctx_at s k)).
  { unfold ctx_at. destruct (m_fd_contexts s !! Z.to_nat k) eqn:Hc; [by apply (i_ctx _ I)|].
    split; try done. by left. }
  assert (Hh1 : has (event (ctx_at s1 k)) ev = true).
  { rewrite C1. unfold register, put_context. pose proof (c_event _ _ Hok) as He.
    destruct (has_add (event (ctx_at s k)) ev ev He Hv Hv Hno) as [_ Ha].
    rewrite Z.eqb_refl, orb_true_r in Ha. by destruct Hv as [->| ->]. }
  destruct (addEvent_spec s1 k ev cb' sch' cur' false I1 Hk Hv) as (s1' & I1' & Q1' & O1' & A1').
  rewrite Hh1 in A1'. destruct A1' as [E1' C1'].
  pose proof (del_cancel_spec s1 k ev false I1 ltac:(lia) Hv) as D. rewrite Hh1 in D.
  destruct D as [_ (s2 & E2 & I2 & Q2 & M2)].
  assert (Hlt : (Z.to_nat k < length (m_fd_contexts s1))%nat).
  { destruct (m_fd_contexts s1 !! Z.to_nat k) eqn:Hc; [by eapply lookup_lt_Some|].
    unfold ctx_at in Hh1. rewrite Hc in Hh1. by destruct Hv as [->| ->]. }
  assert (Hclear : clear_event ev (ctx_at s1 k) = ctx_at s k).
  { rewrite C1. pose proof (ctx_of_ok _ ev _ Hok Hv) as Hold. rewrite Hno in Hold. simpl in Hold.
    pose proof (c_event _ _ Hok) as He. destruct (ctx_at s k) as [r w f e]. simpl in *.
    unfold clear_event, register, put_context, ctx_of in *. destruct Hv as [->| ->]; simpl in *; subst;
      f_equal; by ev_cases. }
  assert (O2 : ∀ j, 0 ≤ j → ctx_at s2 j = ctx_at s j).
  { intros j Hj. rewrite (ctx_at_insert s1 s2 _ _ j M2 Hlt Hj). case_decide as Hd; [|apply O1; lia].
    rewrite Hclear. f_equal. lia. }
  exists s1, s2. split; [done|]. split_and!; try done.
  - exists s1'. split_and!; try done. intros j Hj. destruct (decide (j = k)) as [->|]; [done|]. by apply O1'.
  - rewrite Q2, Q1, C1. unfold register, put_context, ctx_of.
    destruct Hv as [->| ->]; simpl; by destruct cb.
  - pose proof (del_cancel_spec s2 k ev false I2 ltac:(lia) Hv) as D. rewrite O2, Hno in D by lia. by destruct D.
Qed.

Lemma event_delivered_once_witness :
  ∃ s1 s2, addEvent 40 READ None (Some 7) 2 true false IOScheduler_new = Ret 0 s1 ∧
    (∃ s1', addEvent 40 READ None (Some 8) 3 true false s1 = Ret (-1) s1' ∧
       queued s1' = queued s1 ∧ ∀ j, 0 ≤ j → ctx_at s1' j = ctx_at s1 j) ∧
    cancelEvent 40 READ false s1 = Ret true s2 ∧
    queued s2 = [(7, Task_of_fiber (Some 2) (-1))] ∧
    (∀ j, 0 ≤ j → ctx_at s2 j = ctx_at IOScheduler_new j) ∧
    cancelEvent 40 READ false s2 = Ret false s2.
Proof.
  apply (event_delivered_once IOScheduler_new 40 READ None 7 2); [constructor|lia|by left|done].
Defined.

(** The wait of an idle thread is capped at 3 seconds and never longer than
    the time to the next timer as long as that time, as an [int], is not
    negative (below 2^31 ms, or no timer at all); from 2^31 ms (24.8 days) on, the conversion can give a
    negative timeout, with which [epoll_wait] blocks without limit. *)
Theorem idle_wait_bounded next :
  urange 64 next →
  (next = 2 ^ 64 - 1 → wait_timeout next = 3000) ∧
  (next < 2 ^ 31 → wait_timeout next = Z.min next 3000) ∧
  (next ≠ 2 ^ 64 - 1 → 2 ^ 31 ≤ next mod 2 ^ 32 → wait_timeout next < 0).
Proof.
  intros Hn. unfold urange in Hn. unfold wait_timeout, MAX_TIMEOUT. split_and!.
  - by intros ->.
  - intros Hlt. destruct (Z.eqb_spec next (2 ^ 64 - 1)); [lia|].
    rewrite (wraps_small 32 ltac:(lia) next) by (unfold srange; simpl; lia).
    destruct (Z.ltb_spec 3000 next); rewrite wrapu_small by (unfold urange; lia);
      rewrite wraps_small by (unfold srange; simpl; lia); lia.
  - intros Hne Hge. destruct (Z.eqb_spec next (2 ^ 64 - 1)); [lia|].
    pose proof (Z.mod_pos_bound next (2 ^ 32) ltac:(lia)) as Hm.
    assert (Hs : s32 next = next mod 2 ^ 32 - 2 ^ 32).
    { rewrite (wraps_mod 32 next (next mod 2 ^ 32 - 2 ^ 32)).
      - apply wraps_small; [lia|]. unfold srange. simpl. lia.
      - replace (next mod 2 ^ 32 - 2 ^ 32) with (next mod 2 ^ 32 + (-1) * 2 ^ 32) by lia.
        by rewrite Z.mod_add, Z.mod_mod by lia. }
    destruct (Z.ltb_spec 3000 (s32 next)); [lia|]. rewrite wraps_wide, wraps_small; [lia|lia| |lia].
    apply wraps_range. lia.
Qed.

Lemma idle_wait_bounded_witness :
  (2 ^ 31 = 2 ^ 64 - 1 → wait_timeout (2 ^ 31) = 3000) ∧
  (2 ^ 31 < 2 ^ 31 → wait_timeout (2 ^ 31) = Z.min (2 ^ 31) 3000) ∧
  (2 ^ 31 ≠ 2 ^ 64 - 1 → 2 ^ 31 ≤ 2 ^ 31 mod 2 ^ 32 → wait_timeout (2 ^ 31) < 0).
Proof. apply (idle_wait_bounded (2 ^ 31)). done. Defined.

(** An idle thread leaves its loop only when nothing can happen any more:
    no timer is set, no fd has a registered event (so that no handler is waiting
    anywhere), and the base scheduler is stopping. *)
Theorem io_stopping_means_quiet x now timeout x' :
  inv (timers x) → ireach (ios x) → urange 64 now →
  (∀ a, a ∈ m_timers (timers x) → 0 ≤ next_at (heap (timers x)) a - now < 2 ^ 64 - 1) →
  io_stopping now x = Ret (true, timeout) x' →
  m_timers (timers x) = [] ∧ stopping (base x) = true ∧
  ∀ k, 0 ≤ k → event (ctx_at (ios x) k) = 0.
Proof.
  intros It Ri Hnow Ht H. unfold io_stopping in H. minv H as y y' E. injection E as <- <-.
  pose proof (ireach_inv _ Ri) as I.
  destruct (getNextTimerTimeMs now (timers x)) as [t tm| |] eqn:Eg; [|done..].
  minv H as [] y1 E. injection E as <-. injection H as Hb _ _.
  apply andb_true_iff in Hb as [Hb Hst]. apply andb_true_iff in Hb as [Hto Hw].
  apply Z.eqb_eq in Hto, Hw. split_and!; try done.
  - unfold getNextTimerTimeMs in Eg. mrun. rewrite bind_modify in Eg.
    minv Eg as tm0 tm1 E. injection E as <- <-. cbn [set_notified m_timers] in Eg.
    destruct (m_timers (timers x)) as [|a l] eqn:El; [done|].
    minv Eg as nx tm2 E. destruct (inv_heap _ It a ltac:(rewrite El; set_solver)) as [ta Hta].
    rewrite (get_timer_Some a ta (set_notified false (timers x)) Hta) in E. injection E as <- <-.
    specialize (Ht a ltac:(set_solver)). unfold next_at in Ht. rewrite Hta in Ht.
    injection Eg as Eg _. destruct (Z.leb_spec (m_next ta) now); [lia|].
    rewrite wrapu_small in Eg by (unfold urange; lia). lia.
  - intros k Hk. unfold ctx_at. destruct (m_fd_contexts (ios x) !! Z.to_nat k) as [c|] eqn:Hc; [|done].
    pose proof (i_ctx _ I _ _ Hc) as Hok. rewrite (i_count _ I) in Hw.
    assert (Hc0 : nev c = 0).
    { pose proof (total_insert _ _ _ (new_ctx 0) Hc). pose proof (nev_bounds c).
      pose proof (total_bounds (<[Z.to_nat k := new_ctx 0]> (m_fd_contexts (ios x)))).
      change (nev (new_ctx 0)) with 0 in *. lia. }
    pose proof (c_event _ _ Hok) as He. unfold nev in Hc0. simpl. ev_cases; done.
Qed.

Definition demo_quiet : IOScheduler :=
  mkIOScheduler (mkScheduler [] 1 0 1 true true false (-1) None [] [] 0) (TimerManager_new 1000)
    IOScheduler_new 0.

Lemma io_stopping_means_quiet_witness :
  m_timers (timers demo_quiet) = [] ∧ stopping (base demo_quiet) = true ∧
  ∀ k, 0 ≤ k → event (ctx_at (ios demo_quiet) k) = 0.
Proof.
  eapply (io_stopping_means_quiet demo_quiet 2000 (2 ^ 64 - 1));
    [apply TimerManager_new_inv|apply ireach_init|done| |vm_compute; reflexivity].
  intros a Ha. by apply not_elem_of_nil in Ha.
Defined.

(** ** Where the event handling breaks *)

(** The state a thread sees that read the table's size before another one
    grew it. *)
Definition demo_resized : io :=
  match addEvent 100 READ None (Some 7) 2 true false IOScheduler_new with
  | Ret _ s => s | _ => IOScheduler_new end.

(** Three ways out of the guarantees above: an event reported for READ and
    WRITE after READ was deleted trips an assertion instead of waking the
    writer; a negative fd passes the size check and indexes the table
    out of bounds; and the size check of [addEvent] is not repeated under the write
    lock, so that a thread that saw the small table cuts a larger one back
    and drops the contexts (and waiting handlers) behind. *)
Theorem event_hazards :
  (∀ s i c, io_inv s → m_fd_contexts s !! i = Some c → event c = WRITE →
     handle_ready i (Z.lor READ WRITE) false s = Fault AssertFailed) ∧
  (∀ s ev fail, io_inv s → delEvent (-1) ev fail s = Fault OutOfBounds ∧
     cancelEvent (-1) ev fail s = Fault OutOfBounds ∧ cancelAll (-1) fail s = Fault OutOfBounds) ∧
  (add_lookup 40 IOScheduler_new = false ∧ ireach demo_resized ∧
   event (ctx_at demo_resized 100) = READ ∧
   ∃ s, add_resize 40 demo_resized = Ret tt s ∧ m_fd_contexts s !! 100%nat = None ∧
        m_waitting_events_count s = 1).
Proof.
  split_and!.
  - intros s i c I Hc He. pose proof (i_ctx _ I _ c Hc) as Hok. unfold handle_ready. mrun. rewrite Hc, He.
    change (real_event (Z.lor READ WRITE) WRITE) with 5.
    change (Z.land WRITE 5 =? 0) with false. cbn iota.
    change (Z.land WRITE (Z.lnot 5)) with 0. rewrite (c_fd _ _ Hok).
    assert (E0 : event c =? 0 = false) by (by rewrite He).
    pose proof (epoll_ctl_left s i c 0 I Hc E0) as Ectl. rewrite (bind_Ret _ _ _ _ _ Ectl). cbn [negb].
    set (s1 := with_interest _ s).
    assert (Ht : triggerEvent i READ s1 = Fault AssertFailed)
      by (unfold triggerEvent; mrun; change (m_fd_contexts s1) with (m_fd_contexts s);
          by rewrite Hc, He).
    assert (Hi : trigger_if (mreturn 5) i READ s1 = Fault AssertFailed)
      by (exact (bind_Fault (triggerEvent i READ) _ s1 _ Ht)).
    by mstep Hi.
  - intros s ev fail I. pose proof (i_len _ I) as Hl. unfold delEvent, cancelEvent, cancelAll. mrun.
    destruct (Z.leb_spec (zlen (m_fd_contexts s)) (-1)); [lia|]. done.
  - done.
  - eapply (ireach_step IOScheduler_new (IAdd 100 READ None 7 2 false) (ICode 0)); [constructor| |].
    + split; [lia|by left].
    + vm_compute. reflexivity.
  - vm_compute. reflexivity.
  - eexists. split; [reflexivity|]. split; vm_compute; reflexivity.
Qed.
