(* ===== verification/WakeUp.v ===== *)
(** * An idle thread and its timers (scheduler/ioscheduler.cpp, scheduler/timer.cpp)

    [idle()] as a machine: the thread asks for the time to the next timer, calls
    [epoll_wait] with it some time later, and, when that returns, takes the
    expired callbacks. In between the clock goes on, [epoll_wait] is
    interrupted and called again, and other threads use the timers, which calls
    [onTimerInsertAtFront] when a new timer is the first; that writes to the
    pipe which [epoll_wait] watches. *)

From stdpp Require Import sorting.
From S2P Require Import Prelude Fiber Scheduler Timer TimerSpec IOScheduler IOSchedulerSpec.
#[local] Open Scope Z_scope.

(** [onTimerInsertAtFront()] *)
Definition onTimerInsertAtFront (x : IOScheduler) : IOScheduler := io_notify x.

(** A public operation of the timers on the scheduler that they are a base of. *)
Definition timer_call (o : top) : M IOScheduler tout := λ x,
  match texec o (timers x) with
  | Ret r tm => Ret r (Nat.iter (front_calls tm - front_calls (timers x)) onTimerInsertAtFront
                         (mkIOScheduler (base x) tm (ios x) (pipe x)))
  | Throw e _ => Throw e x
  | Fault f => Fault f
  end.

(** A round of [idle()] behind [epoll_wait]. *)
Definition wake_up (me : Z) (prog_of : callback → prog) (now nt : Z) (evs : list ready) : M IOScheduler unit :=
  x <- mget;;
  match getExpiredCbsList now nt (timers x) with
  | Ret cbs tm =>
      let ts := (λ cb, Task_of_cb (prog_of <$> cb) (-1)) <$> cbs in
      let x := mkIOScheduler (base x) tm (ios x) (pipe x) in
      mput (if bool_decide (ts = []) then x else io_schedule_all ts x);;
      handle_all me evs
  | Throw e _ => mthrow e
  | Fault f => mfault f
  end.

Lemma idle_round_parts me prog_of now now' nt wait x :
  idle_round me prog_of now now' nt wait x =
  (r <- io_stopping now;;
   if (r.1 : bool) then mreturn false else
   wake_up me prog_of now' nt (wait (wait_timeout r.2));; mreturn true) x.
Proof.
  unfold idle_round, wake_up, mbind'. destruct (io_stopping now x) as [[b n] y| |]; [|done..].
  cbn [fst snd]. destruct b; [done|]. unfold mget. destruct (getExpiredCbsList now' nt (timers y)); [|done..].
  unfold mput. by destruct (handle_all _ _ _).
Qed.

(** ** The machine *)

(** Where the thread is: outside, with the answer [next] that it got at [asked],
    or in the [epoll_wait] it called at [begun] with the timeout [until - begun]. *)
Inductive phase :=
| Awake
| Asked (asked next : Z)
| Asleep (asked begun until : Z).

Record idler := mkIdler { ist : IOScheduler; clock : Z; ph : phase }.

(** Periods of new timers below 2^31 ms, with which the timeout of
    [epoll_wait] does not become negative. *)
Definition short_op (o : top) : Prop :=
  match o with
  | TAdd _ _ ms _ _ | TAddCondition _ _ ms _ _ _ | TReset _ _ ms _ => ms < 2 ^ 31
  | _ => True
  end.

Inductive istep : idler → idler → Prop :=
| I_clock s c : clock s ≤ c → istep s (mkIdler (ist s) c (ph s))
| I_timer s o r x : in_time (clock s) (timers (ist s)) o → short_op o → top_ok (timers (ist s)) o →
    timer_call o (ist s) = Ret r x → istep s (mkIdler x (tick (clock s) o) (ph s))
| I_base s b : hasIdleThreads b = true →
    istep s (mkIdler (mkIOScheduler b (timers (ist s)) (ios (ist s)) (pipe (ist s))) (clock s) (ph s))
| I_notify s : istep s (mkIdler (io_notify (ist s)) (clock s) (ph s))
| I_ask s x next : ph s = Awake → io_stopping (clock s) (ist s) = Ret (false, next) x →
    istep s (mkIdler x (clock s) (Asked (clock s) next))
| I_sleep s asked next : ph s = Asked asked next →
    istep s (mkIdler (ist s) (clock s) (Asleep asked (clock s) (clock s + wait_timeout next)))
| I_interrupt s asked begun until : ph s = Asleep asked begun until →
    istep s (mkIdler (ist s) (clock s) (Asleep asked (clock s) (clock s + (until - begun))))
| I_wake s asked begun until me prog_of nt evs x : ph s = Asleep asked begun until →
    (∀ a t, heap (timers (ist s)) !! a = Some t → clock s + m_ms t < 2 ^ 64) →
    wake_up me prog_of (clock s) nt evs (ist s) = Ret tt x → hasIdleThreads (base x) = true →
    istep s (mkIdler x (clock s) Awake).

(** A scheduler that was made, with its thread in the idle fiber. *)
Definition idle_init (now : Z) (s : idler) : Prop :=
  0 ≤ now ∧ clock s = now ∧ ph s = Awake ∧ timers (ist s) = TimerManager_new now ∧
  hasIdleThreads (base (ist s)) = true ∧ 0 ≤ pipe (ist s).

Inductive awaits : idler → Prop :=
| awaits_init now s : idle_init now s → awaits s
| awaits_step s s' : awaits s → istep s s' → awaits s'.

(** ** What operations of the timers do to the rest *)

Definition op_ms (o : top) : option Z :=
  match o with
  | TAdd _ _ ms _ _ | TAddCondition _ _ ms _ _ _ | TReset _ _ ms _ => Some ms
  | _ => None
  end.

(** Periods are old ones or that of the operation; without a call of
    [onTimerInsertAtFront] the flag stays, but for [getNextTimerTimeMs], which
    changes nothing else. *)
Record changes (o : top) (tm tm' : TimerManager) : Prop := {
  c_ms : ∀ a t, heap tm' !! a = Some t → (∃ b u, heap tm !! b = Some u ∧ m_ms t = m_ms u) ∨ op_ms o = Some (m_ms t);
  c_front : (front_calls tm ≤ front_calls tm')%nat;
  c_flag : front_calls tm' = front_calls tm → m_notified tm = false → m_notified tm' = false;
}.

Lemma changes_same o tm tm' : heap tm' = heap tm → front_calls tm' = front_calls tm →
  (m_notified tm = false → m_notified tm' = false) → changes o tm tm'.
Proof. intros Hh Hf Hn. split; [|lia|auto]. rewrite Hh. intros a t Ht. left. eauto. Qed.

Lemma locked_changes a tm r tm' : addTimer_locked a tm = Ret r tm' → heap tm' = heap tm ∧
  (front_calls tm ≤ front_calls tm')%nat ∧ (front_calls tm' = front_calls tm → m_notified tm = false → m_notified tm' = false).
Proof.
  intros E. unfold addTimer_locked in E. minv E as tm1 tm2 E1. injection E1 as <- <-.
  destruct (set_insert _ _ _) as [l b]. injection E as _ <-. cbn. destruct (b && _); (split; [done|]); split; try lia; done.
Qed.
Lemma add_changes o now a ms cb lp tm r tm' : op_ms o = Some ms → addTimer now a ms cb lp tm = Ret r tm' → changes o tm tm'.
Proof.
  intros Ho E. unfold addTimer in E. minv E as [] tm1 E1. injection E1 as <-. minv E as [] tm2 E1.
  apply locked_changes in E1 as (Hh & Hf & Hn). injection E as _ <-. split; [|done|done]. rewrite Hh.
  intros b t Hb. cbn in Hb. apply lookup_insert_Some in Hb as [[_ <-]|[_ Hb]]; [by right|left; eauto].
Qed.
Lemma get_timer_inv a tm t tm' : get_timer a tm = Ret t tm' → tm' = tm ∧ heap tm !! a = Some t.
Proof. intros E. unfold get_timer in E. minv E as tm1 tm2 E1. injection E1 as <- <-. destruct (heap tm !! a); [|done]. by injection E as <- <-. Qed.

(** The heap after an operation on the timer at [a] that is now [u]. *)
Lemma insert_ms (h : gmap Z Timer) a t u o : h !! a = Some t → (m_ms u = m_ms t ∨ op_ms o = Some (m_ms u)) →
  ∀ b v, <[a := u]> h !! b = Some v → (∃ c w, h !! c = Some w ∧ m_ms v = m_ms w) ∨ op_ms o = Some (m_ms v).
Proof.
  intros Ha Hu b v Hb. apply lookup_insert_Some in Hb as [[_ <-]|[_ Hb]]; [|left; eauto].
  destruct Hu; [left; eauto|by right].
Qed.

Lemma cancel_changes o a tm r tm' : cancel a tm = Ret r tm' → changes o tm tm'.
Proof.
  intros E. unfold cancel in E. minv E as t tm1 E1. apply get_timer_inv in E1 as [-> Ht].
  destruct (m_cb t); [|injection E as _ <-; by apply changes_same].
  minv E as tm1 tm2 E1. injection E1 as <- <-. destruct (set_find _ _ _) as [[[l1 x] l2]|]; [|done].
  minv E as [] tm1 E1. injection E1 as <-. injection E as _ <-. split; [|done|done].
  eapply insert_ms; [done|by left].
Qed.
Lemma refresh_changes o now a tm r tm' : refresh now a tm = Ret r tm' → changes o tm tm'.
Proof.
  intros E. unfold refresh in E. minv E as t tm1 E1. apply get_timer_inv in E1 as [-> Ht].
  destruct (m_cb t); [|injection E as _ <-; by apply changes_same].
  minv E as tm1 tm2 E1. injection E1 as <- <-.
  destruct (set_find _ _ _) as [[[l1 x] l2]|]; [|injection E as _ <-; by apply changes_same].
  minv E as [] tm1 E1. injection E1 as <-. injection E as _ <-. split; [|done|done].
  eapply insert_ms; [done|by left].
Qed.
Lemma reset_changes o now a ms fn tm r tm' : op_ms o = Some ms → reset now a ms fn tm = Ret r tm' → changes o tm tm'.
Proof.
  intros Ho E. unfold reset in E. minv E as t tm1 E1. apply get_timer_inv in E1 as [-> Ht].
  destruct (_ && _); [injection E as _ <-; by apply changes_same|].
  destruct (m_cb t); [|injection E as _ <-; by apply changes_same].
  minv E as tm1 tm2 E1. injection E1 as <- <-.
  destruct (set_find _ _ _) as [[[l1 x] l2]|]; [|injection E as _ <-; by apply changes_same].
  minv E as [] tm1 E1. injection E1 as <-. minv E as [] tm2 E1. apply locked_changes in E1 as (Hh & Hf & Hn).
  injection E as _ <-. split; [|done|done]. rewrite Hh. eapply insert_ms; [done|by right].
Qed.
Lemma texec_changes tm o r tm' : inv tm → texec o tm = Ret r tm' → changes o tm tm'.
Proof.
  intros I E. destruct o as [now a ms cb lp|now a ms cb wc lp|a|now a|now a ms fn|now|now nt|a];
    cbn [texec] in E; minv E as x tm1 E1; injection E as _ <-.
  - by eapply add_changes.
  - by eapply add_changes.
  - by eapply cancel_changes.
  - by eapply refresh_changes.
  - by eapply reset_changes.
  - rewrite (proj1 (getNext_spec now tm I)) in E1. injection E1 as _ <-. by apply changes_same.
  - destruct (getExpiredCbsList_spec now nt tm I) as (tm2 & E2 & _ & Hh & _ & Hn & Hf & _).
    rewrite E1 in E2. injection E2 as _ <-. split; [|lia|by rewrite Hn].
    intros a t Ht. rewrite Hh, fired_lookup in Ht by (by eapply sorted_NoDup, due_sorted). left. case_decide; [|eauto].
    apply fmap_Some in Ht as (u & Hu & ->). exists a, u. split; [done|]. unfold fire. by destruct (m_is_loop u).
  - injection E1 as _ <-. split; [|done|done]. intros b t Hb. cbn in Hb. apply lookup_delete_Some in Hb as [_ Hb]. left. eauto.
Qed.

(** ** What a wake-up does to the queue *)

Lemma schedule_all_keeps ts x : timers (io_schedule_all ts x) = timers x ∧ (pipe x ≤ pipe (io_schedule_all ts x)) ∧
  (∀ t, t ∈ m_tasks (base x) → t ∈ m_tasks (base (io_schedule_all ts x))) ∧
  (∀ t, t ∈ ts → is_Some (task_cb t) → t ∈ m_tasks (base (io_schedule_all ts x))).
Proof.
  unfold io_schedule_all.
  assert (F : ∀ b s, let r := foldl (λ acc t, let r := mSchedule t acc.2 in (r.1 || acc.1, r.2)) (b, s) ts in
    (∀ t, t ∈ m_tasks s → t ∈ m_tasks r.2) ∧ (∀ t, t ∈ ts → is_Some (task_cb t) → t ∈ m_tasks r.2)).
  { induction ts as [|u ts IH]; intros b s; [split; [done|by intros t ?%elem_of_nil]|]. cbn [foldl snd fst].
    assert (Hu : (∀ t, t ∈ m_tasks s → t ∈ m_tasks (mSchedule u s).2) ∧
      (is_Some (task_cb u) → u ∈ m_tasks (mSchedule u s).2)).
    { unfold mSchedule. destruct (task_cb u) as [c|] eqn:Ec, (task_fiber u); cbn; rewrite ?elem_of_app, ?list_elem_of_singleton;
        (split; [intros t ?; set_solver|intros [? ?]; try done; by right]). }
    destruct Hu as [Hs Hu], (IH ((mSchedule u s).1 || b) (mSchedule u s).2) as [K N]. split; [auto|].
    intros t [->|Ht]%elem_of_cons Hc; auto. }
  specialize (F false (base x)) as [K N]. set (r := foldl _ _ ts) in *.
  destruct r.1; [unfold io_notify; cbn [base]; destruct (hasIdleThreads _)|]; cbn; (split; [done|]); (split; [lia|]); done.
Qed.

Lemma deliver_keeps me x : timers (deliver me x) = timers x ∧ pipe x ≤ pipe (deliver me x) ∧
  (∀ t, t ∈ m_tasks (base x) → t ∈ m_tasks (base (deliver me x))).
Proof.
  unfold deliver. set (y := mkIOScheduler _ _ _ _). change (timers x) with (timers y). change (pipe x) with (pipe y).
  change (base x) with (base y). generalize y. clear y. induction (filter _ _) as [|p l IH]; intros y; [done|].
  cbn [foldl]. destruct (schedule_all_keeps [p.2] y) as (T1 & P1 & Q1 & _), (IH (io_schedule_all [p.2] y)) as (T2 & P2 & Q2).
  split; [congruence|]. split; [lia|auto].
Qed.

Lemma handle_all_keeps me evs x x' : handle_all me evs x = Ret tt x' → timers x' = timers x ∧ (0 ≤ pipe x → 0 ≤ pipe x') ∧
  (∀ t, t ∈ m_tasks (base x) → t ∈ m_tasks (base x')).
Proof.
  revert x. induction evs as [|[|i e fail] evs IH]; intros x; cbn [handle_all]; [by intros [= <-]| |].
  - intros E. apply IH in E as (T & P & Q). split; [done|]. split; [intros _; by apply P|done].
  - destruct (handle_ready _ _ _ _) as [[] s| |]; [|done..]. intros E. apply IH in E as (T & P & Q).
    destruct (deliver_keeps me (mkIOScheduler (base x) (timers x) s (pipe x))) as (T' & P' & Q'). cbn in T', P', Q'.
    split; [congruence|]. split; [intros ?; apply P; lia|auto].
Qed.

Lemma wake_up_spec me prog_of now nt evs x x' : inv (timers x) → wake_up me prog_of now nt evs x = Ret tt x' →
  (∃ cbs, getExpiredCbsList now nt (timers x) = Ret cbs (timers x')) ∧ (0 ≤ pipe x → 0 ≤ pipe x') ∧
  ∀ a cb, a ∈ due now (timers x) → cb_at (heap (timers x)) a = Some cb →
    Task_of_cb (Some (prog_of cb)) (-1) ∈ m_tasks (base x').
Proof.
  intros I H. unfold wake_up in H. minv H as y y' E. injection E as <- <-.
  destruct (getExpiredCbsList_spec now nt (timers x) I) as (tm & E & _). rewrite E in H |- *. minv H as [] y E2. injection E2 as <-.
  set (ts := _ <$> _) in H. set (y := mkIOScheduler (base x) tm (ios x) (pipe x)) in H.
  destruct (schedule_all_keeps ts y) as (T1 & P1 & Q1 & N1).
  destruct (handle_all_keeps _ _ _ _ H) as (T & P & Q).
  assert (Ht : timers x' = tm) by (rewrite T; case_bool_decide; done). rewrite Ht. split; [by eexists|].
  split; [intros ?; apply P; case_bool_decide; cbn in *; lia|]. intros a cb Ha Hcb. apply Q.
  assert (Hin : Task_of_cb (Some (prog_of cb)) (-1) ∈ ts).
  { apply list_elem_of_fmap. exists (Some cb). split; [done|]. rewrite <-Hcb. by apply list_elem_of_fmap_2. }
  case_bool_decide as Hts; [rewrite Hts in Hin; by apply elem_of_nil in Hin|]. apply N1; [done|by eexists].
Qed.

(** ** The invariant *)

Definition short_timers (tm : TimerManager) : Prop := ∀ a t, heap tm !! a = Some t → m_ms t < 2 ^ 31.

(** A sleep of [d] from [asked] on ends by the first deadline. *)
Definition covered (tm : TimerManager) (asked d : Z) : Prop :=
  m_notified tm = false ∧ ∃ g, (∀ x, x ∈ m_timers tm → g ≤ next_at (heap tm) x) ∧ d ≤ Z.max 0 (g - asked).

Definition phase_ok (s : idler) : Prop :=
  match ph s with
  | Awake => True
  | Asked a n => a ≤ clock s ∧ 0 ≤ wait_timeout n ≤ 3000 ∧
      (pipe (ist s) = 0 → covered (timers (ist s)) a (wait_timeout n))
  | Asleep a b u => a ≤ b ≤ clock s ∧ 0 ≤ u - b ≤ 3000 ∧
      (pipe (ist s) = 0 → covered (timers (ist s)) a (u - b))
  end.

Record wake_inv (s : idler) : Prop := {
  v_timers : watch_inv (clock s) 0 (timers (ist s));
  v_short : short_timers (timers (ist s));
  v_pipe : 0 ≤ pipe (ist s);
  v_idle : hasIdleThreads (base (ist s)) = true;
  v_phase : phase_ok s;
}.

Lemma watch_any c g g' tm : watch_inv c g tm → (m_notified tm = false → ∀ x, x ∈ m_timers tm → g' ≤ next_at (heap tm) x) →
  watch_inv c g' tm.
Proof. intros [W1 W2 W3 W4 W5] H. by split. Qed.
Lemma watch_zero c g tm : watch_inv c g tm → watch_inv c 0 tm.
Proof.
  intros W. eapply watch_any; [exact W|]. intros _ x Hx. destruct (inv_heap _ (w_inv _ _ _ W) x Hx) as [t Ht].
  pose proof (inv_range _ (w_inv _ _ _ W) x t Ht) as Hr. unfold next_at, urange in *. rewrite Ht. lia.
Qed.
Lemma watch_clock c c' g tm : watch_inv c g tm → c ≤ c' → watch_inv c' g tm.
Proof.
  intros [W1 W2 W3 W4 W5] H. split; try done; [lia| |lia]. intros a t Ht. apply W3 in Ht. lia.
Qed.

Lemma notify_pipe k x : hasIdleThreads (base x) = true →
  Nat.iter k onTimerInsertAtFront x = mkIOScheduler (base x) (timers x) (ios x) (pipe x + Z.of_nat k).
Proof.
  intros H. induction k as [|k IH]; [destruct x; cbn; f_equal; lia|]. cbn [Nat.iter nat_rect]. unfold Nat.iter in IH. rewrite IH.
  unfold onTimerInsertAtFront, io_notify. cbn [base]. rewrite H. cbn. f_equal. lia.
Qed.

(** What others do to the timers leaves the sleep covered, or the pipe gets a byte. *)
Lemma covered_step c tm o r tm' a d : watch_inv c 0 tm → in_time c tm o → top_ok tm o → texec o tm = Ret r tm' →
  front_calls tm' = front_calls tm → covered tm a d → covered tm' a d.
Proof.
  intros W Hin Hok E Hf (Hn & g & Hg & Hd). pose proof (texec_changes _ _ _ _ (w_inv _ _ _ W) E) as C.
  pose proof (c_flag _ _ _ C Hf Hn) as Hn'. split; [done|]. exists g. split; [|done].
  pose proof (watch_any _ _ g _ W (λ _, Hg)) as Wg.
  pose proof (watch_step c g tm o tm' Wg Hin (tstep_intro _ _ _ r Hok E)) as W'.
  assert (Ho : (∃ now, o = TNext now) ∨ sleep_until g tm o = g) by (destruct o; eauto).
  destruct Ho as [[now ->]|Ho]; [|rewrite Ho in W'; by apply (w_wake _ _ _ W')].
  cbn [texec] in E. minv E as x tm1 E1. injection E as _ <-. rewrite (proj1 (getNext_spec now tm (w_inv _ _ _ W))) in E1.
  by injection E1 as _ <-.
Qed.

Lemma timer_step s o r x : wake_inv s → in_time (clock s) (timers (ist s)) o → short_op o → top_ok (timers (ist s)) o →
  timer_call o (ist s) = Ret r x → wake_inv (mkIdler x (tick (clock s) o) (ph s)).
Proof.
  intros [W Hs Hp Hi Hph] Hin Hso Hok E. unfold timer_call in E.
  destruct (texec o (timers (ist s))) as [r' tm| |] eqn:Et; [|done..]. injection E as _ <-.
  rewrite notify_pipe by done. pose proof (texec_changes _ _ _ _ (w_inv _ _ _ W) Et) as C.
  pose proof (c_front _ _ _ C) as Hf. pose proof Hin as (Hc & _).
  split; cbn [ist clock ph timers base pipe].
  - eapply watch_zero, watch_step; [exact W|exact Hin|by eapply tstep_intro].
  - intros a t Ht. destruct (c_ms _ _ _ C a t Ht) as [(b & u & Hu & ->)|Ho]; [by apply (Hs b)|].
    by destruct o; try done; injection Ho as <-.
  - lia.
  - done.
  - assert (Hcov : ∀ a d, (pipe (ist s) = 0 → covered (timers (ist s)) a d) →
      pipe (ist s) + Z.of_nat (front_calls tm - front_calls (timers (ist s))) = 0 → covered tm a d).
    { intros a d H Hz. eapply covered_step; [exact W|exact Hin|exact Hok|exact Et|lia|]. apply H. lia. }
    unfold phase_ok in *. cbn [ph clock ist pipe timers]. destruct (ph s) as [|a n|a b u]; [done| |].
    + destruct Hph as (Ha & Hw & Hv). split; [lia|]. split; [done|]. intros Hz. by apply Hcov.
    + destruct Hph as (Ha & Hw & Hv). split; [lia|]. split; [done|]. intros Hz. by apply Hcov.
Qed.

(** The answer of [getNextTimerTimeMs] is a timeout up to the first deadline. *)
Lemma ask_step s x next : wake_inv s → io_stopping (clock s) (ist s) = Ret (false, next) x →
  wake_inv (mkIdler x (clock s) (Asked (clock s) next)).
Proof.
  intros [W Hs Hp Hi _] E. pose proof (w_inv _ _ _ W) as I. unfold io_stopping in E. minv E as y y' E1. injection E1 as <- <-.
  destruct (getNext_spec (clock s) (timers (ist s)) I) as [Eg Ig]. rewrite Eg in E. minv E as [] y E1. injection E1 as <-.
  injection E as _ En <-. set (tm := set_notified false (timers (ist s))) in *.
  assert (Wt : ∀ g, (∀ z, z ∈ m_timers (timers (ist s)) → g ≤ next_at (heap (timers (ist s))) z) → watch_inv (clock s) g tm)
    by (intros g Hg; destruct W as [W1 W2 W3 W4 W5]; by split).
  split; cbn [ist clock ph timers base pipe]; try done.
  { apply Wt. intros z Hz. destruct (inv_heap _ I z Hz) as [t Ht]. pose proof (inv_range _ I z t Ht) as Hr.
    unfold next_at, urange in *. rewrite Ht. lia. }
  assert (Hcov : 0 ≤ wait_timeout next ≤ 3000 ∧ ∃ g, (∀ z, z ∈ m_timers (timers (ist s)) → g ≤ next_at (heap (timers (ist s))) z) ∧
    wait_timeout next ≤ Z.max 0 (g - clock s)).
  { destruct (m_timers (timers (ist s))) as [|b l] eqn:El.
    - subst next. change (wait_timeout (2 ^ 64 - 1)) with 3000. split; [lia|].
      exists (clock s + 3000). split; [by intros z ?%elem_of_nil|lia].
    - destruct (inv_heap _ I b) as [t Ht]; [rewrite El; by left|]. pose proof (w_started _ _ _ W b t Ht) as [Hm Hst].
      specialize (Hs b t Ht). pose proof (w_clock _ _ _ W).
      assert (Hn : next = Z.max 0 (next_at (heap (timers (ist s))) b - clock s) ∧ 0 ≤ next < 2 ^ 31).
      { unfold next_at in *. rewrite Ht in *. subst next. destruct (Z.leb_spec (m_next t) (clock s)); [lia|].
        rewrite wrapu_small by (unfold urange; lia). lia. }
      destruct Hn as [Hn Hb]. destruct (idle_wait_bounded next) as (_ & Hw & _); [unfold urange; lia|].
      rewrite Hw by lia. split; [lia|]. exists (next_at (heap (timers (ist s))) b). split; [|lia].
      pose proof (inv_sorted _ I) as S. rewrite El in S. apply StronglySorted_inv in S as [_ S]. rewrite Forall_forall in S.
      intros z [->|Hz]%elem_of_cons; [lia|]. apply S in Hz. unfold klt in Hz. lia. }
  destruct Hcov as [Hb Hg]. split; [cbn; lia|]. split; [done|]. intros _. split; [done|exact Hg].
Qed.

Lemma istep_inv s s' : wake_inv s → istep s s' → wake_inv s'.
Proof.
  intros V H. destruct H as [s c Hc|s o r x Hin Hso Hok E|s b Hb|s|s x next Hph E|s a n Hph|s a b u Hph
    |s a b u me prog_of nt evs x Hph Ht E Hi].
  - destruct V as [W Hs Hp Hi Hph]. split; cbn [ist clock ph]; try done; [exact (watch_clock _ _ _ _ W Hc)|].
    unfold phase_ok in *. cbn [ist clock ph]. destruct (ph s); [done|..]; destruct Hph as [Hb Hph]; (split; [lia|exact Hph]).
  - by eapply timer_step.
  - destruct V as [W Hs Hp Hi Hph]. by split.
  - destruct V as [W Hs Hp Hi Hph]. unfold io_notify. rewrite Hi.
    split; cbn [ist clock ph timers base pipe]; try done; [lia|].
    unfold phase_ok in *. cbn [ist clock ph timers pipe]. destruct (ph s); [done|..]; destruct Hph as (? & ? & _);
      (split; [done|]); (split; [done|lia]).
  - by eapply ask_step.
  - destruct V as [W Hs Hp Hi Hph']. split; try done. unfold phase_ok in *. rewrite Hph in Hph'. cbn [ist clock ph].
    replace (clock s + wait_timeout n - clock s) with (wait_timeout n) by lia. destruct Hph' as (? & ? & ?).
    split; [lia|done].
  - destruct V as [W Hs Hp Hi Hph']. split; try done. unfold phase_ok in *. rewrite Hph in Hph'. cbn [ist clock ph].
    replace (clock s + (u - b) - clock s) with (u - b) by lia. destruct Hph' as (? & ? & ?). split; [lia|done].
  - destruct V as [W Hs Hp _ _]. pose proof (w_inv _ _ _ W) as I.
    destruct (wake_up_spec _ _ _ _ _ _ _ I E) as ([cbs Ec] & P & _). split; cbn [ist clock ph]; try done; [| |by apply P].
    + eapply watch_expired; [exact W|lia|exact Ht|exact Ec].
    + pose proof (texec_changes (timers (ist s)) (TExpired (clock s) nt) (OCbs cbs) (timers x) I) as C.
      intros z t Hz. destruct (c_ms _ _ _ (C ltac:(cbn [texec]; by mstep Ec)) z t Hz) as [(b' & v & Hv & ->)|?]; [|done].
      by apply (Hs b').
Qed.

Lemma awaits_inv s : awaits s → wake_inv s.
Proof.
  induction 1 as [now s (Hn & Hc & Hph & Ht & Hi & Hp)|s s' _ IH Hs]; [|by eapply istep_inv].
  pose proof (TimerManager_new_inv now). split; try done; rewrite ?Ht, ?Hc.
  - split; simpl; try done; try lia.
  - intros a t Ha. simpl in Ha. by rewrite lookup_empty in Ha.
  - unfold phase_ok. by rewrite Hph.
Qed.

(** C25: With a clock that does not go back, periods below 2^31 ms and one
    thread in idle(), no timer is overslept. The [epoll_wait] of an idle thread is called with a timeout of
    0 to 3000 ms and, whatever other threads add, refresh, reset or take since
    the thread asked for the time to the next timer, either there is a byte in
    the pipe, which ends the wait at once, or the wait ends by the deadline of
    every timer (or the time of the question, when that is later), but for the
    time that went by between the question and the (last) call of [epoll_wait].
    And when it ends, the callback of each timer whose deadline has come is
    queued, whatever events are handled with it. *)
Theorem no_missed_wakeup s asked begun until : awaits s → ph s = Asleep asked begun until →
  let tm := timers (ist s) in
  begun ≤ until ≤ begun + 3000 ∧
  (0 < pipe (ist s) ∨
   ∀ a, a ∈ m_timers tm → until ≤ Z.max asked (next_at (heap tm) a) + (begun - asked)) ∧
  ∀ me prog_of nt,
    (∃ x, wake_up me prog_of (clock s) nt [] (ist s) = Ret tt x) ∧
    ∀ evs x, wake_up me prog_of (clock s) nt evs (ist s) = Ret tt x →
      ∀ a t cb, a ∈ m_timers tm → heap tm !! a = Some t → m_cb t = Some cb → m_next t ≤ clock s →
        Task_of_cb (Some (prog_of cb)) (-1) ∈ m_tasks (base x).
Proof.
  intros R Hph tm. pose proof (awaits_inv s R) as [W Hs Hp Hi Hok]. unfold phase_ok in Hok. rewrite Hph in Hok.
  destruct Hok as (Ha & Hd & Hcov). split; [lia|]. split.
  - destruct (decide (pipe (ist s) = 0)) as [Hz|Hz]; [right|left; lia]. destruct (Hcov Hz) as (_ & g & Hg & Hle).
    intros a Hin. specialize (Hg a Hin). fold tm in Hg. lia.
  - intros me prog_of nt. pose proof (w_inv _ _ _ W) as I. split.
    + destruct (getExpiredCbsList_spec (clock s) nt (timers (ist s)) I) as (tm' & E & _).
      unfold wake_up. rewrite (bind_Ret mget _ _ _ _ eq_refl), E. by eexists.
    + intros evs x E a t cb Hin Ht Hcb Hle. destruct (wake_up_spec _ _ _ _ _ _ _ I E) as (_ & _ & Q).
      apply (Q a cb); [|unfold cb_at; fold tm; by rewrite Ht]. unfold due. destruct (modified _ _); [done|].
      apply list_elem_of_filter. split; [|done]. unfold next_at. fold tm. by rewrite Ht.
Qed.

(** A timer of 100 ms is added at 1000, which wakes the thread; it asks again at
    1001 and sleeps from 1003 to 1102. *)
Definition get_ret {S A} (m : outcome S A) (s : S) : S := match m with Ret _ s' => s' | _ => s end.
Definition demo_sched : Scheduler := mkScheduler [] 1 0 1 false false false (-1) None [1] [1] 0.
Definition demo_new : IOScheduler := mkIOScheduler demo_sched (TimerManager_new 1000) (mkIo [] 0 ∅ []) 0.
Definition demo_op : top := TAdd 1000 16 100 (Some (Plain 1)) true.
Definition demo_added : IOScheduler := Eval vm_compute in get_ret (timer_call demo_op demo_new) demo_new.
Definition demo_first : IOScheduler := Eval vm_compute in get_ret (io_stopping 1000 demo_added) demo_added.
Definition demo_woken : IOScheduler := Eval vm_compute in
  get_ret (wake_up 1 (λ _, PReturn) 1000 24 [ReadyPipe] demo_first) demo_first.
Definition demo_asked : IOScheduler := Eval vm_compute in get_ret (io_stopping 1001 demo_woken) demo_woken.
Definition demo_asleep : idler := mkIdler demo_asked 1003 (Asleep 1001 1003 1102).

Lemma demo_awaits : awaits demo_asleep.
Proof.
  assert (R0 : awaits (mkIdler demo_new 1000 Awake)) by (apply (awaits_init 1000); by split_and!).
  assert (R1 : awaits (mkIdler demo_added 1000 Awake)).
  { apply (awaits_step _ _ R0), (I_timer (mkIdler demo_new 1000 Awake) demo_op (OTimer 16)); [|done|done|by vm_compute].
    split; [vm_compute; done|]. split; [intros a t Ha; cbn in Ha; by rewrite lookup_empty in Ha|]. split; vm_compute; done. }
  assert (R2 : awaits (mkIdler demo_first 1000 (Asked 1000 100)))
    by (apply (awaits_step _ _ R1), (I_ask (mkIdler demo_added 1000 Awake)); [done|by vm_compute]).
  assert (R3 : awaits (mkIdler demo_first 1000 (Asleep 1000 1000 1100)))
    by (by apply (awaits_step _ _ R2), (I_sleep (mkIdler demo_first 1000 (Asked 1000 100)) 1000 100)).
  assert (R4 : awaits (mkIdler demo_woken 1000 Awake)).
  { apply (awaits_step _ _ R3), (I_wake (mkIdler demo_first 1000 (Asleep 1000 1000 1100)) 1000 1000 1100 1 (λ _, PReturn) 24 [ReadyPipe]);
      [done| |by vm_compute|done].
    intros a t Ha. change (heap _) with (<[16 := mkTimer (Some (Plain 1)) true 100 1100]> (∅ : gmap Z Timer)) in Ha.
    apply lookup_insert_Some in Ha as [[_ <-]|[_ Ha]]; [vm_compute; done|]. by rewrite lookup_empty in Ha. }
  assert (R5 : awaits (mkIdler demo_woken 1001 Awake))
    by (apply (awaits_step _ _ R4), (I_clock (mkIdler demo_woken 1000 Awake)); cbn; lia).
  assert (R6 : awaits (mkIdler demo_asked 1001 (Asked 1001 99)))
    by (apply (awaits_step _ _ R5), (I_ask (mkIdler demo_woken 1001 Awake)); [done|by vm_compute]).
  assert (R7 : awaits (mkIdler demo_asked 1003 (Asked 1001 99)))
    by (apply (awaits_step _ _ R6), (I_clock (mkIdler demo_asked 1001 (Asked 1001 99))); cbn; lia).
  by apply (awaits_step _ _ R7), (I_sleep (mkIdler demo_asked 1003 (Asked 1001 99)) 1001 99).
Qed.

Lemma no_missed_wakeup_witness :
  1102 ≤ Z.max 1001 (next_at (heap (timers demo_asked)) 16) + (1003 - 1001) ∧
  ∃ x, wake_up 1 (λ _, PReturn) 1003 24 [] demo_asked = Ret tt x.
Proof.
  destruct (no_missed_wakeup demo_asleep 1001 1003 1102 demo_awaits eq_refl) as (_ & P & Q). split.
  - destruct P as [P|P]; [by vm_compute in P|]. apply (P 16). vm_compute. left.
  - destruct (Q 1 (λ _, PReturn) 24) as [E _]. exact E.
Defined.
