(* ===== verification/Hook.v ===== *)
(** * Hooked system calls (hook/fd.h, hook/fd.cpp, hook/hook.cpp, the Linux branch)

    The table of file descriptors the hooks manage, and the hooked calls. The
    kernel is: the status flags of its open descriptors with [fcntl]/[ioctl] on
    them as documented, and an oracle for the results of the original
    functions, [epoll] waits and timers. A wait is answered by how it ended:
    the event came (or was cancelled), the timeout fired first, or
    [addEvent] failed. *)

From S2P Require Import Prelude IOScheduler.
#[local] Open Scope Z_scope.

Definition EINTR : Z := 4.
Definition EBADF : Z := 9.
Definition EAGAIN : Z := 11.
Definition ETIMEDOUT : Z := 110.
Definition EINPROGRESS : Z := 115.
Definition O_NONBLOCK : Z := 2048.

(** ** class Fd *)

Record Fd := mkFd {
  m_fd : Z;
  m_is_init : bool;
  m_is_socket : bool;
  m_is_sys_nonblock : bool;
  m_is_user_nonblock : bool;
  m_is_closed : bool;
  m_recv_timeout : Z;
  m_send_timeout : Z;
}.

(** An open descriptor in the kernel. *)
Record kfd := mkKfd { k_socket : bool; k_flags : Z }.

(** [if (!(flags & O_NONBLOCK)) fcntl(F_SETFL, flags | O_NONBLOCK)] *)
Definition make_nonblock (k : kfd) : kfd :=
  if Z.land (k_flags k) O_NONBLOCK =? 0 then mkKfd (k_socket k) (Z.lor (k_flags k) O_NONBLOCK) else k.

(** [Fd::Fd(fd)] with [init()]: the object, and the kernel's descriptor
    afterwards; [None] is a descriptor [fstat] refuses. *)
Definition Fd_new (fd : Z) (k : option kfd) : Fd * option kfd :=
  match k with
  | None => (mkFd fd false false false false true (-1) (-1), None)
  | Some k => (mkFd fd true (k_socket k) (k_socket k) false false (-1) (-1),
               Some (if k_socket k then make_nonblock k else k))
  end.

Definition isInit (f : Fd) : bool := m_is_init f.
Definition isSocket (f : Fd) : bool := m_is_socket f.
Definition isOpen (f : Fd) : bool := negb (m_is_closed f).
Definition isClose (f : Fd) : bool := m_is_closed f.
Definition getSysNonBlock (f : Fd) : bool := m_is_sys_nonblock f.
Definition getUserNonBlock (f : Fd) : bool := m_is_user_nonblock f.
Definition setSysNonBlock (b : bool) (f : Fd) : Fd :=
  mkFd (m_fd f) (m_is_init f) (m_is_socket f) b (m_is_user_nonblock f) (m_is_closed f)
    (m_recv_timeout f) (m_send_timeout f).
Definition setUserNonBlock (b : bool) (f : Fd) : Fd :=
  mkFd (m_fd f) (m_is_init f) (m_is_socket f) (m_is_sys_nonblock f) b (m_is_closed f)
    (m_recv_timeout f) (m_send_timeout f).
Definition setTimeout (rs_type timeout : Z) (f : Fd) : Fd :=
  if rs_type =? READ then
    mkFd (m_fd f) (m_is_init f) (m_is_socket f) (m_is_sys_nonblock f) (m_is_user_nonblock f)
      (m_is_closed f) timeout (m_send_timeout f)
  else if rs_type =? WRITE then
    mkFd (m_fd f) (m_is_init f) (m_is_socket f) (m_is_sys_nonblock f) (m_is_user_nonblock f)
      (m_is_closed f) (m_recv_timeout f) timeout
  else f.
Definition getTimeout (rs_type : Z) (f : Fd) : Z :=
  if rs_type =? READ then m_recv_timeout f else if rs_type =? WRITE then m_send_timeout f else 0.

(** ** class FdManager *)

Record hookw := mkHook {
  m_fds : list (option Fd);
  m_size : Z;
  kernel : gmap Z kfd;
  is_enable : bool;               (* HookState of the thread *)
  has_ios : bool;                 (* IOScheduler::getThis() is not null *)
  cancelled : list Z;             (* fds handed to IOScheduler::cancelAll *)
}.

Definition FdManager_new (size : Z) : list (option Fd) * Z := (replicate (Z.to_nat size) None, size).

Definition set_fds (l : list (option Fd)) (n : Z) (w : hookw) : hookw :=
  mkHook l n (kernel w) (is_enable w) (has_ios w) (cancelled w).
Definition set_kernel (k : gmap Z kfd) (w : hookw) : hookw :=
  mkHook (m_fds w) (m_size w) k (is_enable w) (has_ios w) (cancelled w).

(** [m_fds[fd]] *)
Definition slot (fd : Z) : M hookw (option Fd) :=
  w <- mget;;
  if fd <? 0 then mfault OutOfBounds else
  match m_fds w !! Z.to_nat fd with Some x => mreturn x | None => mfault OutOfBounds end.
Definition put_slot (fd : Z) (x : option Fd) : M hookw unit :=
  w <- mget;;
  if fd <? 0 then mfault OutOfBounds else
  match m_fds w !! Z.to_nat fd with
  | Some _ => mput (set_fds (<[Z.to_nat fd := x]> (m_fds w)) (m_size w) w)
  | None => mfault OutOfBounds
  end.

(** [std::vector::resize] *)
Definition resize (n : nat) (l : list (option Fd)) : list (option Fd) :=
  take n l ++ replicate (n - length l) None.

(** [if (fd >= m_fds.size()) { m_fds.resize(fd * 1.5); m_size = m_fds.size(); }] *)
Definition grow (fd : Z) (w : hookw) : hookw :=
  if zlen (m_fds w) <=? fd then
    let l := resize (Z.to_nat (fd + fd / 2)) (m_fds w) in set_fds l (zlen l) w
  else w.

(** The second half of [get]: a new object in the (grown) table. *)
Definition fd_create (fd : Z) : M hookw (option Fd) :=
  w <- mget;;
  let '(f, k) := Fd_new fd (kernel w !! fd) in
  mput (set_kernel (match k with Some k => <[fd := k]> (kernel w) | None => kernel w end) w);;
  mmodify (grow fd);;
  put_slot fd (Some f);;
  mreturn (Some f).

(** [FdManager::get(fd, auto_create)] *)
Definition fd_get (fd : Z) (auto_create : bool) : M hookw (option Fd) :=
  w <- mget;;
  if m_size w <=? fd then
    if negb auto_create then mreturn None else fd_create fd
  else
    x <- slot fd;;
    if bool_decide (is_Some x) || negb auto_create then mreturn x else fd_create fd.

Definition fd_del (fd : Z) : M hookw unit :=
  w <- mget;; if m_size w <=? fd then mreturn tt else put_slot fd None.

Definition fd_size (w : hookw) : Z := zlen (filter is_Some (m_fds w)).

(** Changes of a managed object. *)
Definition update_fd (fd : Z) (g : Fd → Fd) : M hookw unit :=
  x <- slot fd;; match x with Some f => put_slot fd (Some (g f)) | None => mfault NullDeref end.

(** ** The blocking loop *)

(** What a function returned: a value, -1 with [errno], or -1 with the
    [errno] some other call left. *)
Inductive sysres := SVal (n : Z) | SErr (errno : Z) | SFail.
#[global] Instance sysres_eq_dec : EqDecision sysres.
Proof. solve_decision. Defined.
(** How the wait for an event ended. *)
Inductive wake := Woken | TimedOut | AddFailed.
#[global] Instance wake_eq_dec : EqDecision wake.
Proof. solve_decision. Defined.

(** What the loop does besides calling the function. *)
Inductive act := ACall | AAddTimer (ms : Z) | ACancelTimer | AAddEvent (ev : Z) | AYield.

(** [while (ret == -1 && errno == EINTR) ret = fun(...)]: the first result
    that is not EINTR, the calls made, and the results not used yet. *)
Fixpoint uninterrupted (rs : list sysres) : option (sysres * list act * list sysres) :=
  match rs with
  | [] => None
  | SErr e :: rs' =>
      if e =? EINTR then '(r, a, rest) ← uninterrupted rs'; Some (r, ACall :: a, rest)
      else Some (SErr e, [ACall], rs')
  | r :: rs' => Some (r, [ACall], rs')
  end.

(** From [retry:] on. [rs] are the results of the successive calls, [ws] the
    ends of the successive waits; [None] when they are used up (or when a wait
    without a timer is said to have timed out). An [addEvent] that fails
    leaves [errno] to [epoll_ctl]. *)
Fixpoint io_loop (fuel : nat) (ev timeout : Z) (rs : list sysres) (ws : list wake)
    : option (sysres * list act) :=
  match fuel with
  | O => None
  | S fuel =>
      '(r, calls, rs') ← uninterrupted rs;
      match r with
      | SErr e =>
          if e =? EAGAIN then
            match ws with
            | [] => None
            | w :: ws' =>
                let add := if 0 <=? timeout then [AAddTimer timeout] else [] in
                let cancel := if 0 <=? timeout then [ACancelTimer] else [] in
                match w with
                | AddFailed => Some (SFail, calls ++ add ++ [AAddEvent ev] ++ cancel)
                | TimedOut =>
                    if 0 <=? timeout
                    then Some (SErr ETIMEDOUT, calls ++ add ++ [AAddEvent ev; AYield] ++ cancel)
                    else None
                | Woken =>
                    '(res, acts) ← io_loop fuel ev timeout rs' ws';
                    Some (res, calls ++ add ++ [AAddEvent ev; AYield] ++ cancel ++ acts)
                end
            end
          else Some (SErr e, calls)
      | r => Some (r, calls)
      end
  end.

(** [io(fd, fun, name, event, timeout_type, args...)]; without an IOScheduler
    on the thread the first EAGAIN goes through a null pointer. *)
Definition io (fd ev : Z) (rs : list sysres) (ws : list wake) : M hookw (option (sysres * list act)) :=
  w <- mget;;
  let direct := match rs with r :: _ => Some (r, [ACall]) | [] => None end in
  if negb (is_enable w) then mreturn direct else
  x <- fd_get fd false;;
  match x with
  | None => mreturn direct
  | Some f =>
      if isClose f then mreturn (Some (SErr EBADF, [])) else
      if negb (isSocket f) || getUserNonBlock f then mreturn direct else
      match uninterrupted rs with
      | Some (SErr e, _, _) =>
          if (e =? EAGAIN) && negb (has_ios w) then mfault NullDeref
          else mreturn (io_loop (S (length rs)) ev (getTimeout ev f) rs ws)
      | _ => mreturn (io_loop (S (length rs)) ev (getTimeout ev f) rs ws)
      end
  end.

(** The hooks made of it. *)
Definition h_read := λ fd, io fd READ.
Definition h_readv := λ fd, io fd READ.
Definition h_recv := λ fd, io fd READ.
Definition h_recvfrom := λ fd, io fd READ.
Definition h_recvmsg := λ fd, io fd READ.
Definition h_write := λ fd, io fd WRITE.
Definition h_writev := λ fd, io fd WRITE.
Definition h_send := λ fd, io fd WRITE.
Definition h_sendto := λ fd, io fd WRITE.
Definition h_sendmsg := λ fd, io fd WRITE.

Definition h_accept (fd : Z) (rs : list sysres) (ws : list wake)
    : M hookw (option (sysres * list act)) :=
  r <- io fd READ rs ws;;
  (match r with
   | Some (SVal n, _) => if 0 <=? n then x <- fd_get n true;; mreturn tt else mreturn tt
   | _ => mreturn tt
   end);;
  mreturn r.

(** [socket(...)]: [r] is what the kernel returned. *)
Definition h_socket (r : Z) : M hookw Z :=
  w <- mget;;
  if negb (is_enable w) then mreturn r else
  if r <? 0 then mreturn r else
  x <- fd_get r true;; mreturn r.

(** [connect_with_timeout]: [r] is the result of [connect], [w] the end of the
    wait, [so_error] that of [getsockopt(SO_ERROR)]. *)
Definition connect_with_timeout (fd timeout_ms : Z) (r : sysres) (wk : wake) (so_error : sysres)
    : M hookw (option (sysres * list act)) :=
  w <- mget;;
  if negb (is_enable w) then mreturn (Some (r, [ACall])) else
  x <- fd_get fd false;;
  match x with
  | None => mreturn (Some (SErr EBADF, []))
  | Some f =>
      if isClose f then mreturn (Some (SErr EBADF, [])) else
      if negb (isSocket f) || getUserNonBlock f then mreturn (Some (r, [ACall])) else
      match r with
      | SErr e =>
          if negb (e =? EINPROGRESS) then mreturn (Some (r, [ACall])) else
          if negb (has_ios w) then mfault NullDeref else
          let add := if 0 <=? timeout_ms then [AAddTimer timeout_ms] else [] in
          let cancel := if 0 <=? timeout_ms then [ACancelTimer] else [] in
          match wk with
          | AddFailed => mreturn (Some (SFail, [ACall] ++ add ++ [AAddEvent WRITE] ++ cancel))
          | TimedOut =>
              mreturn (if 0 <=? timeout_ms
                       then Some (SErr ETIMEDOUT, [ACall] ++ add ++ [AAddEvent WRITE; AYield] ++ cancel)
                       else None)
          | Woken =>
              let acts := [ACall] ++ add ++ [AAddEvent WRITE; AYield] ++ cancel in
              mreturn (Some (match so_error with
                             | SVal 0 => SVal 0
                             | SVal error => SErr error
                             | r => r
                             end, acts))
          end
      | _ => mreturn (Some (r, [ACall]))
      end
  end.

(** [connect]: the timeout comes from the configuration. *)
Definition h_connect (config_tcp_timeout fd : Z) := connect_with_timeout fd config_tcp_timeout.

(** ** Sleeping *)

(** The period of the timer, in ms. *)
Definition sleep_ms (seconds : Z) : Z := u32 (seconds * 1000).
Definition usleep_ms (usec : Z) : Z := usec / 1000.
Definition nanosleep_ms (tv_sec tv_nsec : Z) : Z :=
  u64 (s64 (tv_sec * 1000 + Z.quot tv_nsec (1000 * 1000))).

(** The common body: a one-shot timer that schedules the running fiber, then
    the fiber yields and the call returns 0. *)
Definition sleep_with (ms : Z) : M hookw (sysres * list act) :=
  w <- mget;;
  if negb (is_enable w) then mreturn (SVal 0, [ACall]) else
  if negb (has_ios w) then mfault NullDeref else
  mreturn (SVal 0, [AAddTimer ms; AYield]).
Definition h_sleep (seconds : Z) := sleep_with (sleep_ms seconds).
Definition h_usleep (usec : Z) := sleep_with (usleep_ms usec).
Definition h_nanosleep (tv_sec tv_nsec : Z) := sleep_with (nanosleep_ms tv_sec tv_nsec).

(** ** Closing and flags *)

(** [close_f(fd)] *)
Definition close_fd (fd : Z) : M hookw Z :=
  w <- mget;;
  match kernel w !! fd with
  | None => mreturn (-1)
  | Some _ => mput (set_kernel (delete fd (kernel w)) w);; mreturn 0
  end.

Definition h_close (fd : Z) : M hookw Z :=
  w <- mget;;
  if negb (is_enable w) then close_fd fd else
  x <- fd_get fd false;;
  (match x with
   | Some _ =>
       if negb (has_ios w) then mfault NullDeref else
       mmodify (λ w, mkHook (m_fds w) (m_size w) (kernel w) (is_enable w) (has_ios w) (cancelled w ++ [fd]));;
       fd_del fd
   | None => mreturn tt
   end);;
  close_fd fd.

(** [fcntl_f(fd, F_SETFL, arg)] and [fcntl_f(fd, F_GETFL)]. F_SETFL changes
    O_APPEND, O_NONBLOCK, O_ASYNC, O_DIRECT and O_NOATIME only (fcntl(2)). *)
Definition SETFL_MASK : Z := 1024 + 2048 + 8192 + 16384 + 262144.
Definition setfl_flags (old arg : Z) : Z :=
  Z.lor (Z.land old (Z.lnot SETFL_MASK)) (Z.land arg SETFL_MASK).
Definition fcntl_setfl (fd arg : Z) : M hookw Z :=
  w <- mget;;
  match kernel w !! fd with
  | None => mreturn (-1)
  | Some k =>
      mput (set_kernel (<[fd := mkKfd (k_socket k) (setfl_flags (k_flags k) arg)]> (kernel w)) w);;
      mreturn 0
  end.
Definition fcntl_getfl (fd : Z) : M hookw Z :=
  w <- mget;; mreturn (match kernel w !! fd with Some k => k_flags k | None => -1 end).

Definition managed (x : option Fd) : bool :=
  match x with Some f => isSocket f && negb (isClose f) | None => false end.

(** [fcntl(fd, F_SETFL, arg)] *)
Definition h_fcntl_setfl (fd arg : Z) : M hookw Z :=
  x <- fd_get fd false;;
  if negb (managed x) then fcntl_setfl fd arg else
  update_fd fd (setUserNonBlock (negb (Z.land arg O_NONBLOCK =? 0)));;
  match x with
  | Some f => fcntl_setfl fd (if getSysNonBlock f then Z.lor arg O_NONBLOCK
                              else Z.land arg (Z.lnot O_NONBLOCK))
  | None => mfault NullDeref
  end.

(** [fcntl(fd, F_GETFL)] *)
Definition h_fcntl_getfl (fd : Z) : M hookw Z :=
  arg <- fcntl_getfl fd;;
  x <- fd_get fd false;;
  match x with
  | Some f => if managed x then
                mreturn (if getUserNonBlock f then Z.lor arg O_NONBLOCK
                         else Z.land arg (Z.lnot O_NONBLOCK))
              else mreturn arg
  | None => mreturn arg
  end.

(** [ioctl_f(fd, FIONBIO, &v)] *)
Definition ioctl_fionbio (fd v : Z) : M hookw Z :=
  w <- mget;;
  match kernel w !! fd with
  | None => mreturn (-1)
  | Some k =>
      mput (set_kernel (<[fd := mkKfd (k_socket k)
        (if v =? 0 then Z.land (k_flags k) (Z.lnot O_NONBLOCK) else Z.lor (k_flags k) O_NONBLOCK)]>
        (kernel w)) w);; mreturn 0
  end.

(** [ioctl(fd, FIONBIO, &v)] *)
Definition h_ioctl_fionbio (fd v : Z) : M hookw Z :=
  x <- fd_get fd false;;
  (if managed x then update_fd fd (setUserNonBlock (negb (v =? 0))) else mreturn tt);;
  ioctl_fionbio fd v.

(** [setsockopt(fd, SOL_SOCKET, SO_RCVTIMEO or SO_SNDTIMEO, {tv_sec, tv_usec})];
    [r] is what [setsockopt_f] returns. *)
Definition h_setsockopt_timeo (fd type tv_sec tv_usec : Z) (r : sysres) : M hookw sysres :=
  w <- mget;;
  if negb (is_enable w) then mreturn r else
  x <- fd_get fd false;;
  (match x with
   | Some _ => update_fd fd (setTimeout type (s64 (tv_sec * 1000 + Z.quot tv_usec 1000)))
   | None => mreturn tt
   end);;
  mreturn r.

(** ** The loop hides EINTR and EAGAIN *)

Definition real (r : sysres) : Prop := r ≠ SErr EINTR ∧ r ≠ SErr EAGAIN.

(** The first result a caller of a blocking call would see. *)
Fixpoint first_real (rs : list sysres) : option sysres :=
  match rs with
  | [] => None
  | SErr e :: rs' => if (e =? EINTR) || (e =? EAGAIN) then first_real rs' else Some (SErr e)
  | r :: _ => Some r
  end.

(** At most one timer is set, and none is left behind. *)
Fixpoint timers_ok (set : bool) (acts : list act) : bool :=
  match acts with
  | [] => negb set
  | AAddTimer _ :: acts => negb set && timers_ok true acts
  | ACancelTimer :: acts => set && timers_ok false acts
  | ACall :: acts => negb set && timers_ok set acts
  | _ :: acts => timers_ok set acts
  end.

Lemma uninterrupted_spec rs : 
  match uninterrupted rs with
  | None => Forall (λ r, r = SErr EINTR) rs
  | Some (r, calls, rest) => r ≠ SErr EINTR ∧ (length rest < length rs)%nat ∧ r ∈ rs ∧
      (∀ x, x ∈ rest → x ∈ rs) ∧
      first_real rs = (if decide (r = SErr EAGAIN) then first_real rest else Some r) ∧
      ∀ acts, timers_ok false (calls ++ acts) = timers_ok false acts
  end.
Proof.
  induction rs as [|r rs IH]; [constructor|]. simpl.
  destruct r as [n|e|].
  - split_and!; (done || (simpl; lia) || set_solver).
  - destruct (Z.eqb_spec e EINTR) as [->|He].
    + destruct (uninterrupted rs) as [[[r a] rest]|]; simpl; [|by constructor].
      destruct IH as (? & ? & ? & ? & ? & ?). split_and!; try done; try lia; set_solver.
    + do 4 (split; [congruence || (simpl; lia) || set_solver|]). split; [|done].
      simpl. destruct (Z.eqb_spec e EAGAIN) as [->|He'].
      * by rewrite decide_True.
      * by rewrite decide_False by congruence.
  - split_and!; (done || (simpl; lia) || set_solver).
Qed.

Lemma io_loop_spec fuel ev timeout rs ws res acts :
  io_loop fuel ev timeout rs ws = Some (res, acts) →
  timers_ok false acts = true ∧
  ((first_real rs = Some res ∧ real res) ∨
   (res = SErr ETIMEDOUT ∧ TimedOut ∈ ws ∧ 0 ≤ timeout) ∨ (res = SFail ∧ AddFailed ∈ ws)).
Proof.
  revert rs ws res acts. induction fuel as [|fuel IH]; [done|]. intros rs ws res acts H. cbn [io_loop] in H.
  pose proof (uninterrupted_spec rs) as U. destruct (uninterrupted rs) as [[[r calls] rest]|]; [|done].
  destruct U as (Hn & Hlen & Hin & Hsub & Hfr & Hok). cbn in H.
  assert (Hdone : ∀ r', r = r' → r' ≠ SErr EAGAIN → Some (r', calls) = Some (res, acts) →
    timers_ok false acts = true ∧
    ((first_real rs = Some res ∧ real res) ∨
     (res = SErr ETIMEDOUT ∧ TimedOut ∈ ws ∧ 0 ≤ timeout) ∨ (res = SFail ∧ AddFailed ∈ ws))).
  { intros r' -> Hna [= <- <-]. split; [by rewrite <-(app_nil_r calls), Hok|].
    left. rewrite Hfr, decide_False by done. done. }
  destruct r as [n|e|]; [by eapply Hdone|destruct (Z.eqb_spec e EAGAIN) as [->|Hne]|by eapply Hdone];
    [|eapply Hdone; [done|congruence|done]].
  clear Hdone. destruct ws as [|w ws]; [done|].
  assert (Hblock : ∀ tail, timers_ok false (calls ++ (if 0 <=? timeout then [AAddTimer timeout] else []) ++
      [AAddEvent ev; AYield] ++ (if 0 <=? timeout then [ACancelTimer] else []) ++ tail) = timers_ok false tail)
    by (intros tail; rewrite Hok; by destruct (0 <=? timeout)).
  destruct w.
  - destruct (io_loop fuel ev timeout rest ws) as [[res' acts']|] eqn:El; [|done].
    cbn in H. injection H as <- <-. destruct (IH _ _ _ _ El) as [T D]. split; [by etrans; [apply Hblock|]|].
    destruct D as [[D1 D2]|[D|D]]; [left|right; left|right; right].
    + by rewrite Hfr, decide_True.
    + set_solver.
    + set_solver.
  - destruct (Z.leb_spec 0 timeout); [|done]. injection H as <- <-.
    split; [|right; left; set_solver]. rewrite Hok. done.
  - injection H as <- <-. split; [|right; right; set_solver]. rewrite Hok. by destruct (0 <=? timeout).
Qed.

(** With enough wake-ups the loop returns, with the first real result. *)
Lemma io_loop_returns fuel ev timeout rs ws r : (length rs < fuel)%nat → first_real rs = Some r →
  Forall (λ w, w = Woken) ws → (length rs ≤ length ws)%nat →
  ∃ acts, io_loop fuel ev timeout rs ws = Some (r, acts).
Proof.
  revert rs ws. induction fuel as [|fuel IH]; [lia|]. intros rs ws Hf Hr Hw Hl. cbn [io_loop].
  pose proof (uninterrupted_spec rs) as U. destruct (uninterrupted rs) as [[[x calls] rest]|].
  2: { exfalso. clear -U Hr. induction U as [|y rs -> _ IH]; [done|]. by apply IH. }
  destruct U as (Hn & Hlen & _ & _ & Hfr & _). rewrite Hr in Hfr. cbn.
  destruct x as [n|e|].
  - rewrite decide_False in Hfr by done. injection Hfr as <-. by eexists.
  - destruct (Z.eqb_spec e EAGAIN) as [->|He].
    + rewrite decide_True in Hfr by done. destruct ws as [|w ws]; [simpl in *; lia|].
      apply Forall_cons in Hw as [-> Hw]. destruct (IH rest ws) as [acts ->]; try done; [lia|simpl in *; lia|].
      cbn. by eexists.
    + rewrite decide_False in Hfr by congruence. injection Hfr as <-. by eexists.
  - rewrite decide_False in Hfr by done. injection Hfr as <-. by eexists.
Qed.

(** ** The table of managed descriptors *)

Definition nonblock (flags : Z) : bool := Z.testbit flags 11.

(** The object of a descriptor. *)
Definition obj (w : hookw) (fd : Z) : option Fd :=
  if fd <? 0 then None else default None (m_fds w !! Z.to_nat fd).

(** Every object is of a descriptor the kernel has open, and knows whether it
    is a socket; the sockets are non-blocking in the kernel. *)
Definition fd_ok (k : option kfd) (f : Fd) : Prop :=
  m_is_closed f = false ∧ m_is_sys_nonblock f = m_is_socket f ∧
  ∃ kf, k = Some kf ∧ m_is_socket f = k_socket kf ∧ (k_socket kf = true → nonblock (k_flags kf) = true).

Record hook_wf (w : hookw) : Prop := {
  wf_size : m_size w = zlen (m_fds w);
  wf_two : 2 ≤ zlen (m_fds w);
  wf_fds : ∀ fd f, obj w fd = Some f → fd_ok (kernel w !! fd) f;
}.

Lemma slot_spec fd w : 0 ≤ fd < zlen (m_fds w) → slot fd w = Ret (obj w fd) w.
Proof.
  unfold zlen. intros H. unfold slot, obj. mrun. destruct (Z.ltb_spec fd 0); [lia|].
  destruct (lookup_lt_is_Some_2 (m_fds w) (Z.to_nat fd)) as [x Hx]; [lia|]. by rewrite Hx.
Qed.

Definition with_obj (fd : Z) (x : option Fd) (w : hookw) : hookw :=
  set_fds (<[Z.to_nat fd := x]> (m_fds w)) (m_size w) w.

Lemma put_slot_spec fd x w : 0 ≤ fd < zlen (m_fds w) → put_slot fd x w = Ret tt (with_obj fd x w).
Proof.
  unfold zlen. intros H. unfold put_slot. mrun. destruct (Z.ltb_spec fd 0); [lia|].
  destruct (lookup_lt_is_Some_2 (m_fds w) (Z.to_nat fd)) as [y Hy]; [lia|]. by rewrite Hy.
Qed.

Lemma obj_with_obj fd x w fd' : 0 ≤ fd < zlen (m_fds w) →
  obj (with_obj fd x w) fd' = if decide (fd' = fd) then x else obj w fd'.
Proof.
  unfold zlen, obj, with_obj. intros H. simpl. destruct (decide (fd' = fd)) as [->|Hne].
  - destruct (Z.ltb_spec fd 0); [lia|]. by rewrite list_lookup_insert_eq by lia.
  - destruct (Z.ltb_spec fd' 0); [done|]. by rewrite list_lookup_insert_ne by lia.
Qed.
Lemma zlen_with_obj fd x w : zlen (m_fds (with_obj fd x w)) = zlen (m_fds w).
Proof. unfold zlen. simpl. by rewrite length_insert. Qed.

Lemma obj_range w fd f : obj w fd = Some f → 0 ≤ fd < zlen (m_fds w).
Proof.
  unfold obj, zlen. destruct (Z.ltb_spec fd 0); [done|].
  destruct (m_fds w !! Z.to_nat fd) eqn:E; [|done]. apply lookup_lt_Some in E. intros _. lia.
Qed.

Lemma update_fd_spec fd g w f : obj w fd = Some f → update_fd fd g w = Ret tt (with_obj fd (Some (g f)) w).
Proof.
  intros H. pose proof (obj_range _ _ _ H) as R. unfold update_fd. mstep (slot_spec fd w R). rewrite H.
  by apply put_slot_spec.
Qed.

(** [get(fd)] finds the object and changes nothing. *)
Lemma fd_get_spec fd w : hook_wf w → 0 ≤ fd → fd_get fd false w = Ret (obj w fd) w.
Proof.
  intros W H. unfold fd_get. mrun. rewrite (wf_size w W). destruct (Z.leb_spec (zlen (m_fds w)) fd) as [G|G].
  - unfold obj. destruct (Z.ltb_spec fd 0); [lia|]. unfold zlen in G.
    rewrite lookup_ge_None_2 by lia. done.
  - mstep (slot_spec fd w (conj H G)). rewrite orb_true_r. done.
Qed.

Lemma obj_resize w n fd : (length (m_fds w) ≤ n)%nat →
  obj (set_fds (resize n (m_fds w)) (zlen (resize n (m_fds w))) w) fd = obj w fd.
Proof.
  intros Hn. unfold obj, resize. simpl. destruct (Z.ltb_spec fd 0); [done|]. rewrite take_ge by lia.
  destruct (decide (Z.to_nat fd < length (m_fds w))%nat).
  - by rewrite lookup_app_l by lia.
  - rewrite lookup_app_r by lia. rewrite (lookup_ge_None_2 (m_fds w)) by lia.
    destruct (replicate _ _ !! _) eqn:E; [|done]. by apply lookup_replicate in E as [-> _].
Qed.

Lemma zlen_resize n l : (length l ≤ n)%nat → zlen (resize n l) = Z.of_nat n.
Proof. intros. unfold zlen, resize. rewrite length_app, length_take, length_replicate. lia. Qed.

Lemma make_nonblock_spec k : nonblock (k_flags (make_nonblock k)) = true ∧
  k_socket (make_nonblock k) = k_socket k.
Proof.
  unfold make_nonblock, nonblock, O_NONBLOCK. destruct (Z.eqb_spec (Z.land (k_flags k) 2048) 0) as [E|E];
    cbn [k_flags k_socket].
  - rewrite Z.lor_spec. split; [|done]. by rewrite orb_true_r.
  - split; [|done]. destruct (Z.testbit (k_flags k) 11) eqn:T; [done|]. destruct E.
    apply Z.bits_inj'. intros n Hn. rewrite Z.land_spec, Z.bits_0.
    change 2048 with (2 ^ 11). rewrite Z.pow2_bits_eqb by lia.
    destruct (Z.eqb_spec 11 n) as [<-|]; [by rewrite T|by rewrite andb_false_r].
Qed.

(** [get(fd, true)] for a descriptor without an object makes one, growing the
    table when needed. *)
Lemma fd_get_new fd k w : hook_wf w → 0 ≤ fd → obj w fd = None → kernel w !! fd = Some k →
  ∃ w', fd_get fd true w = Ret (Some (Fd_new fd (Some k)).1) w' ∧ hook_wf w' ∧
    (∀ fd', obj w' fd' = if decide (fd' = fd) then Some (Fd_new fd (Some k)).1 else obj w fd') ∧
    kernel w' = <[fd := if k_socket k then make_nonblock k else k]> (kernel w) ∧
    is_enable w' = is_enable w ∧ has_ios w' = has_ios w ∧ cancelled w' = cancelled w.
Proof.
  intros W H0 Hn Hk.
  set (k' := if k_socket k then make_nonblock k else k).
  set (w1 := set_kernel (<[fd := k']> (kernel w)) w).
  (* the table after growing *)
  set (w2 := grow fd w1).
  pose proof (wf_two w W) as Htwo. pose proof (Z.div_le_lower_bound fd 2 1) as Hhalf.
  assert (H2 : 0 ≤ fd < zlen (m_fds w2) ∧ 2 ≤ zlen (m_fds w2) ∧ m_size w2 = zlen (m_fds w2) ∧
    (∀ fd', obj w2 fd' = obj w fd') ∧ kernel w2 = <[fd := k']> (kernel w) ∧ is_enable w2 = is_enable w ∧
    has_ios w2 = has_ios w ∧ cancelled w2 = cancelled w).
  { unfold w2, grow. change (m_fds w1) with (m_fds w). destruct (Z.leb_spec (zlen (m_fds w)) fd).
    - assert (length (m_fds w) ≤ Z.to_nat (fd + fd / 2))%nat by (unfold zlen in *; lia).
      simpl. rewrite zlen_resize by done. unfold zlen in *. do 3 (split; [lia|]).
      split; [|done]. intros fd'. by apply (obj_resize w1).
    - pose proof (wf_size w W). unfold w1. simpl. split_and!; (done || lia). }
  destruct H2 as (R & T2 & S2 & O2 & K2 & E2 & I2 & C2).
  assert (E : fd_create fd w = Ret (Some (Fd_new fd (Some k)).1) (with_obj fd (Some (Fd_new fd (Some k)).1) w2)).
  { unfold fd_create. mrun. rewrite Hk. cbn [Fd_new fst]. mrun. change (grow _ _) with w2.
    erewrite bind_Ret by (by apply put_slot_spec). done. }
  exists (with_obj fd (Some (Fd_new fd (Some k)).1) w2).
  assert (HO : ∀ fd', obj (with_obj fd (Some (Fd_new fd (Some k)).1) w2) fd' =
    if decide (fd' = fd) then Some (Fd_new fd (Some k)).1 else obj w fd')
    by (intros; by rewrite obj_with_obj, O2 by done).
  split; [|split].
  - unfold fd_get. mrun. rewrite (wf_size w W). destruct (Z.leb_spec (zlen (m_fds w)) fd) as [G|G].
    + exact E.
    + mstep (slot_spec fd w (conj H0 G)). rewrite Hn. rewrite bool_decide_eq_false_2 by (by intros [??]).
      exact E.
  - split.
    + rewrite zlen_with_obj. exact S2.
    + by rewrite zlen_with_obj.
    + intros fd' f. rewrite HO. simpl. rewrite K2. destruct (decide (fd' = fd)) as [->|Hne].
      * intros [= <-]. rewrite lookup_insert_eq. split; [done|]. split; [done|]. exists k'. split; [done|].
        unfold k'. destruct (k_socket k) eqn:Es; simpl; [|by rewrite Es].
        destruct (make_nonblock_spec k) as [? ->]. done.
      * rewrite lookup_insert_ne by done. apply W.
  - split_and!; try done.
Qed.

(** ** Runs of hooked calls *)

Lemma setfl_nonblock old arg : nonblock (setfl_flags old arg) = nonblock arg.
Proof.
  unfold nonblock, setfl_flags. rewrite Z.lor_spec, !Z.land_spec, Z.lnot_spec by lia.
  change (Z.testbit SETFL_MASK 11) with true. by rewrite andb_false_r, andb_true_r.
Qed.
Lemma lor_nonblock a : nonblock (Z.lor a O_NONBLOCK) = true.
Proof. unfold nonblock. rewrite Z.lor_spec. apply orb_true_r. Qed.

Lemma land_nonblock a : negb (Z.land a O_NONBLOCK =? 0) = nonblock a.
Proof.
  unfold nonblock, O_NONBLOCK. change 2048 with (2 ^ 11). destruct (Z.eqb_spec (Z.land a (2 ^ 11)) 0) as [E|E]; simpl.
  - apply (f_equal (λ z, Z.testbit z 11)) in E. rewrite Z.land_spec, Z.bits_0, Z.pow2_bits_true, andb_true_r in E by lia.
    done.
  - destruct (Z.testbit a 11) eqn:T; [done|]. destruct E. apply Z.bits_inj'. intros n Hn.
    rewrite Z.land_spec, Z.bits_0, Z.pow2_bits_eqb by lia.
    destruct (Z.eqb_spec 11 n) as [<-|]; [by rewrite T|by rewrite andb_false_r].
Qed.

(** The user's view of the flags the hooks left in the kernel. *)
Lemma setfl_getfl old arg :
  (if nonblock arg then Z.lor (setfl_flags old (Z.lor arg O_NONBLOCK)) O_NONBLOCK
   else Z.land (setfl_flags old (Z.lor arg O_NONBLOCK)) (Z.lnot O_NONBLOCK)) = setfl_flags old arg.
Proof.
  unfold nonblock, setfl_flags. destruct (Z.testbit arg 11) eqn:T; apply Z.bits_inj'; intros n Hn;
    rewrite ?Z.land_spec, ?Z.lnot_spec, !Z.lor_spec, !Z.land_spec, ?Z.lnot_spec, ?Z.lor_spec by lia;
    (destruct (decide (n = 11)) as [->|Hne];
     [rewrite T; by destruct (Z.testbit old 11)|
      replace (Z.testbit O_NONBLOCK n) with false
        by (change O_NONBLOCK with (2 ^ 11); symmetry; apply Z.pow2_bits_false; lia);
      by destruct (Z.testbit old n), (Z.testbit arg n), (Z.testbit SETFL_MASK n)]).
Qed.

(** The hooked calls of a program, with what the kernel answers: the
    descriptor and flags of a new socket, the results of the calls a loop
    makes and the ends of its waits. *)
Inductive hop :=
| HSocket (fd flags : Z)
| HAccept (listen fd flags : Z)
| HRead (fd : Z) (rs : list sysres) (ws : list wake)
| HWrite (fd : Z) (rs : list sysres) (ws : list wake)
| HConnect (timeout fd : Z) (r : sysres) (wk : wake) (so_error : sysres)
| HClose (fd : Z)
| HSetfl (fd arg : Z)
| HGetfl (fd : Z)
| HTimeo (fd type tv_sec tv_usec : Z) (r : sysres)
| HFionbio (fd v : Z).

(** The kernel makes a socket. *)
Definition new_socket (fd flags : Z) : M hookw unit :=
  mmodify (λ w, set_kernel (<[fd := mkKfd true flags]> (kernel w)) w).

Definition exec (op : hop) : M hookw unit :=
  match op with
  | HSocket fd flags => new_socket fd flags;; h_socket fd;; mreturn tt
  | HAccept l fd flags => new_socket fd flags;; h_accept l [SVal fd] [];; mreturn tt
  | HRead fd rs ws => h_read fd rs ws;; mreturn tt
  | HWrite fd rs ws => h_write fd rs ws;; mreturn tt
  | HConnect t fd r wk e => h_connect t fd r wk e;; mreturn tt
  | HClose fd => h_close fd;; mreturn tt
  | HSetfl fd arg => h_fcntl_setfl fd arg;; mreturn tt
  | HGetfl fd => h_fcntl_getfl fd;; mreturn tt
  | HTimeo fd ty s us r => h_setsockopt_timeo fd ty s us r;; mreturn tt
  | HFionbio fd v => h_ioctl_fionbio fd v;; mreturn tt
  end.

(** Descriptors are not negative, a new one is not one that is open, and no
    managed socket is made blocking with FIONBIO. *)
Definition allowed (w : hookw) (op : hop) : Prop :=
  match op with
  | HSocket fd _ => 0 ≤ fd ∧ kernel w !! fd = None
  | HAccept l fd _ => 0 ≤ l ∧ 0 ≤ fd ∧ kernel w !! fd = None
  | HRead fd _ _ | HWrite fd _ _ | HConnect _ fd _ _ _ | HClose fd | HSetfl fd _ | HGetfl fd
  | HTimeo fd _ _ _ _ => 0 ≤ fd
  | HFionbio fd v => 0 ≤ fd ∧ (managed (obj w fd) = true → v ≠ 0)
  end.

Definition hstep (w w' : hookw) : Prop := ∃ op, allowed w op ∧ exec op w = Ret tt w'.

(** The invariant of a thread of an IOScheduler with the hooks on. *)
Definition hooked (w : hookw) : Prop := hook_wf w ∧ is_enable w = true ∧ has_ios w = true.

(** The objects and the kernel's state of the other descriptors stay. *)
Definition others (fd : Z) (w w' : hookw) : Prop :=
  ∀ fd', fd' ≠ fd → obj w' fd' = obj w fd' ∧ kernel w' !! fd' = kernel w !! fd'.

Lemma others_refl fd w : others fd w w.
Proof. done. Qed.
Lemma others_trans fd w1 w2 w3 : others fd w1 w2 → others fd w2 w3 → others fd w1 w3.
Proof. intros H1 H2 fd' Hne. destruct (H1 fd' Hne) as [<- <-]. by apply H2. Qed.
Lemma others_with_obj fd x w : 0 ≤ fd < zlen (m_fds w) → others fd w (with_obj fd x w).
Proof. intros R fd' Hne. by rewrite obj_with_obj, decide_False by done. Qed.
Lemma others_kernel fd k w : others fd w (set_kernel (<[fd := k]> (kernel w)) w).
Proof. intros fd' Hne. simpl. by rewrite lookup_insert_ne. Qed.

(** What keeps the invariant: the other objects and descriptors unchanged, the
    one of [fd] well-formed again. *)
Lemma hooked_update w w' fd : hooked w → m_size w' = zlen (m_fds w') → zlen (m_fds w) ≤ zlen (m_fds w') →
  is_enable w' = is_enable w → has_ios w' = has_ios w →
  others fd w w' →
  (∀ f, obj w' fd = Some f → fd_ok (kernel w' !! fd) f) → hooked w'.
Proof.
  intros [W [He Hi]] Hs Hl E I O F. split; [|by rewrite E, I]. split; [done| |].
  - pose proof (wf_two w W). lia.
  - intros fd' f Hf. destruct (decide (fd' = fd)) as [->|Hne]; [by apply F|].
    destruct (O _ Hne) as [Ho ->]. rewrite Ho in Hf. by apply W.
Qed.

Lemma hooked_with_obj w fd f f' : hooked w → obj w fd = Some f → fd_ok (kernel w !! fd) f' →
  hooked (with_obj fd (Some f') w).
Proof.
  intros Hw Hf Hok. pose proof (obj_range _ _ _ Hf) as R. destruct Hw as [W Hw].
  eapply (hooked_update w _ fd); try done.
  - rewrite zlen_with_obj. apply W.
  - by rewrite zlen_with_obj.
  - by apply others_with_obj.
  - intros f0. rewrite obj_with_obj, decide_True by done. by intros [= <-].
Qed.

(** [io] returns and leaves the table and the kernel as they were. *)
Lemma io_keeps fd ev rs ws w : hooked w → 0 ≤ fd → ∃ r, io fd ev rs ws w = Ret r w.
Proof.
  intros (W & He & Hi) H0. unfold io. mrun. rewrite He. simpl. mstep (fd_get_spec fd w W H0).
  destruct (obj w fd) as [f|] eqn:Ef; [|by eexists].
  destruct (isClose f); [by eexists|]. destruct (_ || _); [by eexists|]. rewrite Hi. simpl.
  destruct (uninterrupted rs) as [[[[n|e|] ?] ?]|]; try by eexists.
  rewrite andb_false_r. by eexists.
Qed.

(** A socket the kernel just made, as long as the table has no object of it. *)
Lemma get_new_socket fd flags w : hooked w → 0 ≤ fd → kernel w !! fd = None →
  let w1 := set_kernel (<[fd := mkKfd true flags]> (kernel w)) w in
  hooked w1 ∧ ∃ f w', fd_get fd true w1 = Ret (Some f) w' ∧ hooked w' ∧
    obj w' fd = Some f ∧ isSocket f = true ∧ others fd w w'.
Proof.
  intros (W & He & Hi) H0 Hk w1.
  assert (Hn : obj w fd = None).
  { destruct (obj w fd) as [f|] eqn:Ef; [|done]. destruct (wf_fds w W _ _ Ef) as (_ & _ & kf & E & _). congruence. }
  assert (W1 : hook_wf w1).
  { split; [apply W|apply W|]. intros fd' f Hf. change (obj w fd' = Some f) in Hf. simpl.
    rewrite lookup_insert_ne; [by apply W|]. intros <-. congruence. }
  split; [by split|].
  destruct (fd_get_new fd (mkKfd true flags) w1) as (w' & E & W' & O' & K' & E' & I' & _);
    [done|done|exact Hn|apply lookup_insert_eq|].
  eexists _, w'. split; [exact E|]. split; [split; [done|by rewrite E', I']|].
  split; [by rewrite O', decide_True|]. split; [done|]. intros fd' Hne. rewrite O', K', decide_False by done.
  cbn [w1 set_kernel kernel]. by rewrite !lookup_insert_ne.
Qed.

Lemma socket_ok fd w f w' : is_enable w = true → 0 ≤ fd → fd_get fd true w = Ret (Some f) w' →
  h_socket fd w = Ret fd w'.
Proof.
  intros He H0 E. unfold h_socket. mrun. rewrite He. cbn [negb].
  destruct (Z.ltb_spec fd 0); [lia|]. by mstep E.
Qed.

Lemma accept_ok l fd w f w' : hooked w → 0 ≤ l → 0 ≤ fd → fd_get fd true w = Ret (Some f) w' →
  ∃ r, h_accept l [SVal fd] [] w = Ret r w'.
Proof.
  intros (W & He & Hi) Hl H0 E. unfold h_accept.
  assert (Eio : ∃ a, io l READ [SVal fd] [] w = Ret (Some (SVal fd, a)) w).
  { unfold io. mrun. rewrite He. cbn [negb]. mstep (fd_get_spec l w W Hl).
    destruct (obj w l) as [g|] eqn:Eg; [|by eexists].
    destruct (wf_fds w W _ _ Eg) as [C _]. unfold isClose. rewrite C.
    destruct (_ || _); by eexists. }
  destruct Eio as [a Eio]. mstep Eio. destruct (Z.leb_spec 0 fd); [|lia].
  exists (Some (SVal fd, a)). unfold mbind'. by rewrite E.
Qed.

Lemma connect_ok t fd r wk e w : hooked w → 0 ≤ fd → ∃ x, h_connect t fd r wk e w = Ret x w.
Proof.
  intros (W & He & Hi) H0. unfold h_connect, connect_with_timeout. mrun. rewrite He. cbn [negb].
  mstep (fd_get_spec fd w W H0). destruct (obj w fd) as [f|]; [|by eexists].
  destruct (isClose f); [by eexists|]. destruct (_ || _); [by eexists|].
  destruct r; try by eexists. destruct (negb _); [by eexists|]. rewrite Hi. cbn [negb].
  destruct wk; by eexists.
Qed.

Lemma close_fd_ok fd w : hooked w → obj w fd = None → ∃ r w', close_fd fd w = Ret r w' ∧ hooked w' ∧ others fd w w'.
Proof.
  intros Hw Hn. unfold close_fd. mrun. destruct (kernel w !! fd) as [k|]; [|by eexists _, w].
  eexists _, _. split; [done|].
  assert (O : others fd w (set_kernel (delete fd (kernel w)) w)) by (intros fd' Hne; simpl; by rewrite lookup_delete_ne).
  split; [|exact O]. eapply (hooked_update w _ fd); try done.
  - apply Hw.
  - intros f Hf. change (obj w fd = Some f) in Hf. congruence.
Qed.

Lemma close_ok fd w : hooked w → 0 ≤ fd → ∃ r w', h_close fd w = Ret r w' ∧ hooked w' ∧ others fd w w'.
Proof.
  intros Hw H0. destruct (Hw) as (W & He & Hi). unfold h_close. mrun. rewrite He. cbn [negb].
  mstep (fd_get_spec fd w W H0). destruct (obj w fd) as [f|] eqn:Ef; [|by apply close_fd_ok].
  rewrite Hi. cbn [negb]. pose proof (obj_range _ _ _ Ef) as R.
  set (w1 := mkHook (m_fds w) (m_size w) (kernel w) (is_enable w) (has_ios w) (cancelled w ++ [fd])).
  assert (E : (mmodify (λ w, mkHook (m_fds w) (m_size w) (kernel w) (is_enable w) (has_ios w) (cancelled w ++ [fd]));;
    fd_del fd) w = Ret tt (with_obj fd None w1)).
  { rewrite bind_modify. fold w1. unfold fd_del. mrun. change (m_size w1) with (m_size w). rewrite (wf_size w W).
    destruct (Z.leb_spec (zlen (m_fds w)) fd); [lia|]. by apply put_slot_spec. }
  mstep E. assert (O : others fd w (with_obj fd None w1)) by (by apply (others_with_obj fd None w1)).
  destruct (close_fd_ok fd (with_obj fd None w1)) as (r & w' & E' & Hw' & O').
  - eapply (hooked_update w _ fd); try done.
    + rewrite zlen_with_obj. apply W.
    + by rewrite zlen_with_obj.
    + intros f'. by rewrite obj_with_obj, decide_True by done.
  - by rewrite obj_with_obj, decide_True by done.
  - exists r, w'. split; [exact E'|]. split; [exact Hw'|]. by eapply others_trans.
Qed.

(** [fcntl(F_SETFL)] on a socket: the user's flag in the object, and
    O_NONBLOCK kept in the kernel. *)
Lemma setfl_ok fd arg w f kf : hooked w → obj w fd = Some f → isSocket f = true → kernel w !! fd = Some kf →
  let f' := setUserNonBlock (negb (Z.land arg O_NONBLOCK =? 0)) f in
  let w' := set_kernel (<[fd := mkKfd (k_socket kf) (setfl_flags (k_flags kf) (Z.lor arg O_NONBLOCK))]> (kernel w))
              (with_obj fd (Some f') w) in
  h_fcntl_setfl fd arg w = Ret 0 w' ∧ hooked w' ∧ obj w' fd = Some f'.
Proof.
  intros Hw Hf Hs Hk f' w'. destruct (Hw) as (W & He & Hi). pose proof (obj_range _ _ _ Hf) as R.
  destruct (wf_fds w W _ _ Hf) as (C & S & kf' & E & K1 & K2). rewrite Hk in E. injection E as <-.
  assert (Ho : obj w' fd = Some f') by (change (obj w' fd) with (obj (with_obj fd (Some f') w) fd);
    by rewrite obj_with_obj, decide_True by done).
  split; [|split; [|done]].
  - unfold h_fcntl_setfl. mstep (fd_get_spec fd w W (proj1 R)). rewrite Hf. unfold managed, isClose.
    rewrite Hs, C. cbn [negb andb]. mstep (update_fd_spec fd (setUserNonBlock (negb (Z.land arg O_NONBLOCK =? 0))) w f Hf).
    unfold getSysNonBlock. unfold isSocket in Hs. rewrite S, Hs. unfold fcntl_setfl. mrun.
    change (kernel (with_obj _ _ w)) with (kernel w). by rewrite Hk.
  - eapply (hooked_update w _ fd); try done.
    + change (m_fds w') with (m_fds (with_obj fd (Some f') w)). rewrite zlen_with_obj. apply W.
    + change (m_fds w') with (m_fds (with_obj fd (Some f') w)). by rewrite zlen_with_obj.
    + intros fd' Hne. change (obj w' fd') with (obj (with_obj fd (Some f') w) fd').
      rewrite obj_with_obj, decide_False by done. simpl. by rewrite lookup_insert_ne.
    + intros g Hg. rewrite Ho in Hg. injection Hg as <-. simpl. rewrite lookup_insert_eq.
      split; [done|]. split; [done|]. eexists. split; [done|]. split; [done|]. simpl. intros _.
      rewrite setfl_nonblock. apply lor_nonblock.
Qed.

(** ... and on anything else the kernel's flags only. *)
Lemma setfl_other fd arg w : hooked w → 0 ≤ fd → managed (obj w fd) = false →
  ∃ r w', h_fcntl_setfl fd arg w = Ret r w' ∧ hooked w'.
Proof.
  intros Hw H0 Hm. destruct (Hw) as (W & He & Hi). unfold h_fcntl_setfl.
  mstep (fd_get_spec fd w W H0). rewrite Hm. cbn [negb]. unfold fcntl_setfl. mrun.
  destruct (kernel w !! fd) as [k|] eqn:Ek; [|by eexists _, w].
  eexists _, _. split; [done|]. eapply (hooked_update w _ fd); try done.
  - apply Hw.
  - intros fd' Hne. simpl. by rewrite lookup_insert_ne.
  - intros f Hf. change (obj w fd = Some f) in Hf. destruct (wf_fds w W _ _ Hf) as (C & S & kf & E & K1 & K2).
    rewrite Hf in Hm. unfold managed, isClose, isSocket in Hm. rewrite C, andb_true_r in Hm. simpl.
    rewrite lookup_insert_eq. split; [done|]. split; [done|]. eexists. split; [done|]. simpl.
    split; congruence.
Qed.

Lemma getfl_ok fd w : hooked w → 0 ≤ fd → ∃ r, h_fcntl_getfl fd w = Ret r w.
Proof.
  intros (W & _) H0. unfold h_fcntl_getfl, fcntl_getfl. mrun. mstep (fd_get_spec fd w W H0).
  destruct (obj w fd) as [f|]; [|by eexists]. destruct (managed _); by eexists.
Qed.

Lemma timeo_ok fd ty s us r w : hooked w → 0 ≤ fd → ∃ w', h_setsockopt_timeo fd ty s us r w = Ret r w' ∧ hooked w'.
Proof.
  intros Hw H0. destruct (Hw) as (W & He & Hi). unfold h_setsockopt_timeo. mrun. rewrite He. cbn [negb].
  mstep (fd_get_spec fd w W H0). destruct (obj w fd) as [f|] eqn:Ef; [|by exists w].
  mstep (update_fd_spec fd (setTimeout ty (s64 (s * 1000 + Z.quot us 1000))) w f Ef). eexists. split; [done|].
  eapply hooked_with_obj; [done|done|]. destruct (wf_fds w W _ _ Ef) as (C & S & K).
  unfold setTimeout. do 2 (destruct (_ =? _); [done|]). done.
Qed.

Definition kernel_blocking (w : hookw) (fd : Z) : bool :=
  match kernel w !! fd with Some k => negb (nonblock (k_flags k)) | None => false end.

(** [ioctl(FIONBIO)] on a socket with an object: the user's flag, and the
    kernel's, which blocks after a 0. *)
Lemma fionbio_spec fd v w f kf : hooked w → obj w fd = Some f → isSocket f = true → kernel w !! fd = Some kf →
  h_ioctl_fionbio fd v w = Ret 0 (set_kernel (<[fd := mkKfd (k_socket kf)
      (if v =? 0 then Z.land (k_flags kf) (Z.lnot O_NONBLOCK) else Z.lor (k_flags kf) O_NONBLOCK)]> (kernel w))
    (with_obj fd (Some (setUserNonBlock (negb (v =? 0)) f)) w)).
Proof.
  intros (W & He & Hi) Hf Hs Hk. pose proof (obj_range _ _ _ Hf) as R.
  destruct (wf_fds w W _ _ Hf) as (C & _). unfold h_ioctl_fionbio. mstep (fd_get_spec fd w W (proj1 R)).
  rewrite Hf. unfold managed, isClose. rewrite Hs, C. cbn [negb andb].
  mstep (update_fd_spec fd (setUserNonBlock (negb (v =? 0))) w f Hf). unfold ioctl_fionbio. mrun.
  change (kernel (with_obj _ _ w)) with (kernel w). by rewrite Hk.
Qed.
Lemma fionbio_ok fd v w : hooked w → 0 ≤ fd → (managed (obj w fd) = true → v ≠ 0) →
  ∃ r w', h_ioctl_fionbio fd v w = Ret r w' ∧ hooked w'.
Proof.
  intros Hw H0 Hv. destruct (Hw) as (W & He & Hi). destruct (managed (obj w fd)) eqn:Em.
  - destruct (obj w fd) as [f|] eqn:Ef; [|done]. pose proof Em as [Hs _]%andb_true_iff.
    destruct (wf_fds w W _ _ Ef) as (C & S & kf & Hk & K1 & K2). pose proof (obj_range _ _ _ Ef) as R.
    rewrite (fionbio_spec fd v w f kf Hw Ef Hs Hk), (proj2 (Z.eqb_neq v 0)) by auto.
    eexists _, _. split; [done|]. set (f' := setUserNonBlock _ f). set (w1 := with_obj fd (Some f') w).
    eapply (hooked_update w _ fd); try done.
    + change (m_size w = zlen (m_fds w1)). unfold w1. rewrite zlen_with_obj. apply W.
    + change (zlen (m_fds w) ≤ zlen (m_fds w1)). unfold w1. by rewrite zlen_with_obj.
    + intros fd' Hne. change (obj (set_kernel _ w1) fd') with (obj w1 fd').
      unfold w1. rewrite obj_with_obj, decide_False by done. simpl. by rewrite lookup_insert_ne.
    + intros g Hg. change (obj w1 fd = Some g) in Hg. unfold w1 in Hg. rewrite obj_with_obj, decide_True in Hg by done.
      injection Hg as <-. simpl. rewrite lookup_insert_eq. split; [done|]. split; [done|].
      eexists. split; [done|]. split; [done|]. simpl. intros _. apply lor_nonblock.
  - unfold h_ioctl_fionbio. mstep (fd_get_spec fd w W H0). rewrite Em. unfold ioctl_fionbio. mrun.
    destruct (kernel w !! fd) as [k|] eqn:Ek; [|by eexists _, w].
    eexists _, _. split; [done|]. eapply (hooked_update w _ fd); try done.
    + apply Hw.
    + intros fd' Hne. simpl. by rewrite lookup_insert_ne.
    + intros f Hf. change (obj w fd = Some f) in Hf. destruct (wf_fds w W _ _ Hf) as (C & S & kf & E & K1 & K2).
      rewrite Hf in Em. unfold managed, isClose, isSocket in Em. rewrite C, andb_true_r in Em. simpl.
      rewrite lookup_insert_eq. split; [done|]. split; [done|]. eexists. split; [done|]. simpl.
      split; congruence.
Qed.

Lemma exec_ok op w : hooked w → allowed w op → ∃ w', exec op w = Ret tt w' ∧ hooked w'.
Proof.
  intros Hw A. destruct op as [fd flags|l fd flags|fd rs ws|fd rs ws|t fd r wk e|fd|fd arg|fd|fd ty s us r|fd v];
    unfold exec, new_socket in *.
  - destruct A as [H0 Hk]. destruct (get_new_socket fd flags w Hw H0 Hk) as [H1 (f & w' & E & H' & _)].
    rewrite bind_modify. mstep (socket_ok _ _ _ _ (proj1 (proj2 H1)) H0 E). by eexists.
  - destruct A as (Hl & H0 & Hk). destruct (get_new_socket fd flags w Hw H0 Hk) as [H1 (f & w' & E & H' & _)].
    rewrite bind_modify. destruct (accept_ok _ _ _ _ _ H1 Hl H0 E) as [r Er]. mstep Er. by eexists.
  - destruct (io_keeps fd READ rs ws w Hw A) as [r E]. unfold h_read. mstep E. by eexists.
  - destruct (io_keeps fd WRITE rs ws w Hw A) as [r E]. unfold h_write. mstep E. by eexists.
  - destruct (connect_ok t fd r wk e w Hw A) as [x E]. mstep E. by eexists.
  - destruct (close_ok fd w Hw A) as (r & w' & E & ? & _). mstep E. by eexists.
  - destruct (managed (obj w fd)) eqn:Em.
    + destruct (obj w fd) as [f|] eqn:Ef; [|done]. apply andb_true_iff in Em as [Hs _].
      destruct (wf_fds w (proj1 Hw) _ _ Ef) as (_ & _ & kf & Hk & _).
      destruct (setfl_ok fd arg w f kf Hw Ef Hs Hk) as (E & ? & _). mstep E. by eexists.
    + destruct (setfl_other fd arg w Hw A Em) as (r & w' & E & ?). mstep E. by eexists.
  - destruct (getfl_ok fd w Hw A) as [r E]. mstep E. by eexists.
  - destruct (timeo_ok fd ty s us r w Hw A) as (w' & E & ?). mstep E. by eexists.
  - destruct A as [H0 Hv]. destruct (fionbio_ok fd v w Hw H0 Hv) as (r & w' & E & ?). mstep E. by eexists.
Qed.

(** A thread of an IOScheduler that has hooked nothing yet. *)
Definition hook_init (n : Z) : hookw :=
  mkHook (FdManager_new n).1 (FdManager_new n).2 ∅ true true [].

Lemma hooked_init n : 2 ≤ n → hooked (hook_init n).
Proof.
  intros Hn. split; [|done]. split; simpl; unfold zlen; rewrite ?length_replicate; try lia.
  intros fd f. unfold obj. destruct (Z.ltb_spec fd 0); [done|]. simpl.
  destruct (replicate _ _ !! _) eqn:E; [|done]. by apply lookup_replicate in E as [-> _].
Qed.

Lemma hooked_run w w' : hooked w → rtc hstep w w' → hooked w'.
Proof.
  intros Hw R. induction R as [|w w1 w2 (op & A & E) _ IH]; [done|].
  destruct (exec_ok op w Hw A) as (w1' & E' & H'). rewrite E in E'. injection E' as <-. auto.
Qed.


#[global] Instance allowed_dec w op : Decision (allowed w op).
Proof. destruct op; simpl; apply _. Defined.

(** Runs a list of calls, as long as each is allowed and returns. *)
Fixpoint run_checked (ops : list hop) (w : hookw) : option hookw :=
  match ops with
  | [] => Some w
  | op :: ops =>
      if decide (allowed w op) then
        match exec op w with Ret _ w' => run_checked ops w' | _ => None end
      else None
  end.
Lemma run_checked_rtc ops w w' : run_checked ops w = Some w' → rtc hstep w w'.
Proof.
  revert w. induction ops as [|op ops IH]; intros w; simpl; [by intros [= ->]|].
  destruct (decide (allowed w op)) as [A|]; [|done]. destruct (exec op w) as [[] w1| |] eqn:E; [|done..].
  intros H. apply (rtc_l _ _ w1); [by exists op|auto].
Qed.

(** Two sockets and an accepted one; one is closed. *)
Definition demo_ops : list hop :=
  [HSocket 5 2; HFionbio 5 1; HSetfl 5 2050; HSocket 6 2050; HSetfl 5 2; HAccept 5 7 2;
   HTimeo 7 READ 3 500000 (SVal 0); HClose 6].
Definition demo : hookw := Eval vm_compute in default (hook_init 4) (run_checked demo_ops (hook_init 4)).
Lemma demo_run : run_checked demo_ops (hook_init 4) = Some demo.
Proof. vm_compute. reflexivity. Qed.


(** what a program sets with F_SETFL it gets back with F_GETFL, exactly as
    without the hooks (the value the kernel itself would keep), although the
    hooks keep the socket non-blocking in the kernel. *)
Theorem fcntl_transparent w fd f kf arg :
  hooked w → obj w fd = Some f → isSocket f = true → kernel w !! fd = Some kf →
  ∃ w', h_fcntl_setfl fd arg w = Ret 0 w' ∧
    h_fcntl_getfl fd w' = Ret (setfl_flags (k_flags kf) arg) w' ∧
    (∃ kf', kernel w' !! fd = Some kf' ∧ nonblock (k_flags kf') = true) ∧
    ∃ f', obj w' fd = Some f' ∧ getUserNonBlock f' = nonblock arg.
Proof.
  intros Hw Hf Hs Hk. destruct (setfl_ok fd arg w f kf Hw Hf Hs Hk) as (E & Hw' & Ho).
  eexists. split; [exact E|]. set (w' := set_kernel _ _) in *. pose proof (obj_range _ _ _ Hf) as [R _].
  destruct (wf_fds w (proj1 Hw) _ _ Hf) as (C & _).
  assert (Hu : negb (Z.land arg O_NONBLOCK =? 0) = nonblock arg) by apply land_nonblock.
  split; [|split].
  - unfold h_fcntl_getfl, fcntl_getfl. mrun. mstep (fd_get_spec fd w' (proj1 Hw') R). rewrite Ho.
    replace (kernel w' !! fd) with (Some (mkKfd (k_socket kf) (setfl_flags (k_flags kf) (Z.lor arg O_NONBLOCK))))
      by (symmetry; apply lookup_insert_eq). unfold managed, isSocket, isClose in *. cbn. rewrite Hs, C. cbn.
    unfold getUserNonBlock, setUserNonBlock. cbn. rewrite Hu. mend. f_equal. apply setfl_getfl.
  - eexists. split; [apply lookup_insert_eq|]. cbn [k_flags]. rewrite setfl_nonblock. apply lor_nonblock.
  - eexists. split; [exact Ho|]. exact Hu.
Qed.

Lemma fcntl_transparent_witness : ∃ w', h_fcntl_setfl 7 1026 demo = Ret 0 w' ∧ h_fcntl_getfl 7 w' = Ret 1026 w'.
Proof.
  pose proof (fcntl_transparent demo 7 (mkFd 7 true true true false false 3500 (-1)) (mkKfd true 2050) 1026
    (hooked_run _ _ (hooked_init 4 ltac:(lia)) (run_checked_rtc _ _ _ demo_run))
    ltac:(vm_compute; reflexivity) ltac:(reflexivity) ltac:(vm_compute; reflexivity)) as (w' & E & G & _).
  exists w'. split; [exact E|exact G].
Defined.

(** What the loop does on a socket the program uses in blocking mode. *)
Lemma io_blocking w fd f ev rs ws : hooked w → obj w fd = Some f → isSocket f = true →
  getUserNonBlock f = false →
  io fd ev rs ws w = Ret (io_loop (S (length rs)) ev (getTimeout ev f) rs ws) w.
Proof.
  intros (W & He & Hi) Hf Hs Hu. pose proof (obj_range _ _ _ Hf) as [R _].
  destruct (wf_fds w W _ _ Hf) as (C & _). unfold io. mrun. rewrite He. cbn [negb].
  mstep (fd_get_spec fd w W R). rewrite Hf. unfold isClose. rewrite C, Hs, Hu. cbn [negb orb].
  destruct (uninterrupted rs) as [[[[n|e|] ?] ?]|]; try done. by rewrite Hi, andb_false_r.
Qed.

(** C17: on a socket the program uses in blocking mode a hooked call behaves as
    a blocking one. It returns the first result of the original function that
    is neither EINTR nor EAGAIN, and does return it when each wait ends with
    the event; otherwise it returns -1 with ETIMEDOUT after a wait the
    timeout of the descriptor ended, or -1 when the event could not be
    added. Each wait has one timer at most, and none is left when it
    returns. *)
Theorem hooked_call_blocks w fd f ev rs ws : hooked w → obj w fd = Some f → isSocket f = true →
  getUserNonBlock f = false →
  (∀ res acts, io fd ev rs ws w = Ret (Some (res, acts)) w →
     timers_ok false acts = true ∧
     ((first_real rs = Some res ∧ real res) ∨
      (res = SErr ETIMEDOUT ∧ TimedOut ∈ ws ∧ 0 ≤ getTimeout ev f) ∨ (res = SFail ∧ AddFailed ∈ ws))) ∧
  (∀ r, first_real rs = Some r → Forall (λ x, x = Woken) ws → (length rs ≤ length ws)%nat →
     ∃ acts, io fd ev rs ws w = Ret (Some (r, acts)) w).
Proof.
  intros Hw Hf Hs Hu. rewrite (io_blocking w fd f ev rs ws Hw Hf Hs Hu). split.
  - intros res acts E. apply (io_loop_spec (S (length rs)) ev). by apply Ret_inj in E as [E _].
  - intros r Hr HW HL. destruct (io_loop_returns (S (length rs)) ev (getTimeout ev f) rs ws r) as [acts E];
      [lia|done..|]. exists acts. by rewrite E.
Qed.

(** Interrupted, would block twice, then three bytes. *)
Lemma hooked_call_blocks_witness :
  ∃ acts, h_recv 7 [SErr EINTR; SErr EAGAIN; SErr EAGAIN; SVal 3] [Woken; Woken; Woken; Woken] demo =
    Ret (Some (SVal 3, acts)) demo.
Proof.
  pose proof (hooked_call_blocks demo 7 (mkFd 7 true true true false false 3500 (-1)) READ
    [SErr EINTR; SErr EAGAIN; SErr EAGAIN; SVal 3] [Woken; Woken; Woken; Woken]
    (hooked_run _ _ (hooked_init 4 ltac:(lia)) (run_checked_rtc _ _ _ demo_run))
    ltac:(vm_compute; reflexivity) eq_refl eq_refl) as [_ P].
  apply P; [reflexivity|repeat constructor|simpl; lia].
Defined.

Example recv_acts :
  h_recv 7 [SErr EINTR; SErr EAGAIN; SVal 3] [Woken] demo =
  Ret (Some (SVal 3, [ACall; ACall; AAddTimer 3500; AAddEvent READ; AYield; ACancelTimer; ACall])) demo.
Proof. vm_compute. reflexivity. Qed.

(** ** Sleeping *)

(** A hooked sleep sets one timer and yields. The period of [sleep] is its
    argument as long as that is below 2^32 ms (about 49 days); those of
    [usleep] and [nanosleep] are rounded down to a millisecond, so they are
    less than one millisecond too short (and zero below one). *)
Theorem sleep_periods w seconds usec tv_sec tv_nsec : hooked w →
  0 ≤ seconds → 0 ≤ usec → 0 ≤ tv_sec < 2 ^ 50 → 0 ≤ tv_nsec < 1000000000 →
  (seconds * 1000 < 2 ^ 32 → h_sleep seconds w = Ret (SVal 0, [AAddTimer (seconds * 1000); AYield]) w) ∧
  (∃ ms, h_usleep usec w = Ret (SVal 0, [AAddTimer ms; AYield]) w ∧ usec - 1000 < ms * 1000 ≤ usec) ∧
  (∃ ms, h_nanosleep tv_sec tv_nsec w = Ret (SVal 0, [AAddTimer ms; AYield]) w ∧
     let ns := tv_sec * 1000000000 + tv_nsec in ns - 1000000 < ms * 1000000 ≤ ns).
Proof.
  intros (_ & He & Hi) Hs Hu Hts Htn.
  assert (S : ∀ ms, sleep_with ms w = Ret (SVal 0, [AAddTimer ms; AYield]) w)
    by (intros; unfold sleep_with; mrun; by rewrite He, Hi).
  unfold h_sleep, h_usleep, h_nanosleep. split; [|split].
  - intros. rewrite S. unfold sleep_ms. rewrite wrapu_small by (unfold urange; lia). done.
  - eexists. split; [apply S|]. unfold usleep_ms. pose proof (Z.div_mod usec 1000). pose proof (Z.mod_pos_bound usec 1000).
    lia.
  - eexists. split; [apply S|]. unfold nanosleep_ms. rewrite Z.quot_div_nonneg by lia.
    pose proof (Z.div_mod tv_nsec (1000 * 1000)). pose proof (Z.mod_pos_bound tv_nsec (1000 * 1000)).
    rewrite wraps_small by (unfold srange; lia). rewrite wrapu_small by (unfold urange; lia). cbv zeta. lia.
Qed.

Lemma sleep_periods_witness : h_sleep 3 demo = Ret (SVal 0, [AAddTimer 3000; AYield]) demo.
Proof.
  pose proof (sleep_periods demo 3 999 1 999999 
    (hooked_run _ _ (hooked_init 4 ltac:(lia)) (run_checked_rtc _ _ _ demo_run))
    ltac:(lia) ltac:(lia) ltac:(lia) ltac:(lia)) as [P _].
  apply P. lia.
Defined.

(** ** What the hooks do not protect from *)

(** five ways around the guarantees of the hooks. ioctl(FIONBIO, 0) passes
    the request on, so the kernel's socket becomes blocking. A socket closed
    while the hooks are off keeps its object, and the next socket with that
    number stays blocking in the kernel. fcntl on a negative descriptor
    indexes the table out of bounds. A socket timeout of {0, 0}, which means
    no timeout, makes each wait time out at once. sleep(4294968), some 49
    days, sleeps 704 ms. *)
Theorem hook_hazards :
  (∃ w', h_ioctl_fionbio 7 0 demo = Ret 0 w' ∧ kernel_blocking w' 7 = true) ∧
  (∃ w1 w2, h_close 7 (mkHook (m_fds demo) (m_size demo) (kernel demo) false true []) = Ret 0 w1 ∧
     exec (HSocket 7 2) (mkHook (m_fds w1) (m_size w1) (kernel w1) true true []) = Ret tt w2 ∧
     is_Some (obj w2 7) ∧ kernel_blocking w2 7 = true) ∧
  h_fcntl_getfl (-1) demo = Fault OutOfBounds ∧
  (∃ w' f, h_setsockopt_timeo 7 READ 0 0 (SVal 0) demo = Ret (SVal 0) w' ∧ obj w' 7 = Some f ∧
     getTimeout READ f = 0) ∧
  sleep_ms 4294968 = 704.
Proof.
  split; [|split; [|split; [|split]]].
  - eexists. split; [vm_compute; reflexivity|vm_compute; reflexivity].
  - eexists _, _. do 2 (split; [vm_compute; reflexivity|]). split; [by eexists|vm_compute; reflexivity].
  - vm_compute. reflexivity.
  - eexists _, _. do 2 (split; [vm_compute; reflexivity|]). reflexivity.
  - reflexivity.
Qed.
