(* ===== verification/HookWait.v ===== *)
(** * The waits of a hooked call (hook/hook.cpp: io)

    [Hook.io] is told how its waits end. Here a call waits on the timers and
    the events themselves: the fiber's statements between [retry:] and the
    return, the lambda it gives to the timer, and the two things that reach it
    from a thread in [idle()], expired timers and ready events. Each
    statement that takes a lock is a step, so that other fibers, threads and
    the lambda run between any two of them. *)

From S2P Require Import Prelude Scheduler Timer IOScheduler Hook.
#[local] Open Scope Z_scope.

(** What stays the same during a call of [io()]: the scheduler and the fiber
    that run it, its descriptor and event, [fd_obj->getTimeout()], the address
    of [tinfo], and a name for the lambda. *)
Record iocall := mkCall {
  io_sch : Z;
  io_fiber : Z;
  io_fd : Z;
  io_event : Z;
  io_timeout : Z;
  io_tinfo : Z;
  io_lambda : Z;
}.

(** Where the fiber is. [timer] is the local variable of that name. *)
Inductive phase :=
| Calling                      (* at retry: *)
| Again                        (* the function said EAGAIN *)
| Armed (timer : option Z)     (* before addEvent *)
| Failing (timer : option Z)   (* addEvent failed *)
| Holding (timer : option Z)   (* in yieldToHold *)
| Resumed (timer : option Z)   (* behind it *)
| Cancelled                    (* behind timer->cancel() *)
| Done (r : sysres).

(** The objects a call shares with the rest of the program, and what it did.
    [taken] are the callbacks that [getExpiredCbsList] took and no thread has
    run yet; the fibers that are scheduled are in [queued]. [firing] is a
    thread in the lambda, between its two statements. *)
Record hw := mkHw {
  clock : Z;
  tmr : TimerManager;
  hio : IOScheduler.io;
  taken : list callback;
  canceled : Z;                (* tinfo->canceled *)
  firing : bool;
  ph : phase;
  results : list sysres;       (* of the calls of the function *)
  acts : list act;             (* everything done so far *)
}.

Definition set_clock (t : Z) (w : hw) : hw :=
  mkHw t (tmr w) (hio w) (taken w) (canceled w) (firing w) (ph w) (results w) (acts w).
Definition set_tmr (t : TimerManager) (w : hw) : hw :=
  mkHw (clock w) t (hio w) (taken w) (canceled w) (firing w) (ph w) (results w) (acts w).
Definition set_hio (s : IOScheduler.io) (w : hw) : hw :=
  mkHw (clock w) (tmr w) s (taken w) (canceled w) (firing w) (ph w) (results w) (acts w).
Definition set_taken (l : list callback) (w : hw) : hw :=
  mkHw (clock w) (tmr w) (hio w) l (canceled w) (firing w) (ph w) (results w) (acts w).
Definition set_canceled (z : Z) (b : bool) (w : hw) : hw :=
  mkHw (clock w) (tmr w) (hio w) (taken w) z b (ph w) (results w) (acts w).
Definition set_ph (p : phase) (w : hw) : hw :=
  mkHw (clock w) (tmr w) (hio w) (taken w) (canceled w) (firing w) p (results w) (acts w).
Definition log_result (r : sysres) (w : hw) : hw :=
  mkHw (clock w) (tmr w) (hio w) (taken w) (canceled w) (firing w) (ph w) (results w ++ [r])
    (acts w ++ [ACall]).
Definition log_act (a : act) (w : hw) : hw :=
  mkHw (clock w) (tmr w) (hio w) (taken w) (canceled w) (firing w) (ph w) (results w) (acts w ++ [a]).

(** An operation on the timers or on the events. *)
Definition on_tmr {A} (m : M TimerManager A) : M hw A := λ w,
  match m (tmr w) with
  | Ret a t => Ret a (set_tmr t w)
  | Throw e t => Throw e (set_tmr t w)
  | Fault f => Fault f
  end.
Definition on_hio {A} (m : M IOScheduler.io A) : M hw A := λ w,
  match m (hio w) with
  | Ret a s => Ret a (set_hio s w)
  | Throw e s => Throw e (set_hio s w)
  | Fault f => Fault f
  end.

(** The first element with [p], and the list without it. *)
Fixpoint take_first {A} (p : A → bool) (l : list A) : option (A * list A) :=
  match l with
  | [] => None
  | x :: l' => if p x then Some (x, l') else '(y, r) ← take_first p l'; Some (y, x :: r)
  end.

Section Call.
Context (c : iocall).

(** At [retry:]: the function returned [r]. *)
Definition call_fun (r : sysres) : M hw unit :=
  mmodify (log_result r);;
  match r with
  | SErr e =>
      if e =? EINTR then mreturn tt
      else if e =? EAGAIN then mmodify (set_ph Again)
      else mmodify (set_ph (Done r))
  | _ => mmodify (set_ph (Done r))
  end.

(** [if (timeout >= 0) timer = ios->addConditionTimer(...)]: [a] is the
    address the timer gets. *)
Definition add_timer (a : Z) : M hw unit :=
  if 0 <=? io_timeout c then
    w <- mget;;
    on_tmr (addConditionTimer (clock w) a (u64 (io_timeout c)) (Some (Plain (io_lambda c)))
              (io_tinfo c) false);;
    mmodify (log_act (AAddTimer (io_timeout c)));;
    mmodify (set_ph (Armed (Some a)))
  else mmodify (set_ph (Armed None)).

(** [if (timer) timer->cancel()] *)
Definition cancel_timer (timer : option Z) : M hw unit :=
  match timer with
  | Some a => on_tmr (cancel a);; mmodify (log_act ACancelTimer)
  | None => mreturn tt
  end.

(** [rt = ios->addEvent(fd, event)], and the yield when it is 0. *)
Definition add_event (timer : option Z) (fail : bool) : M hw unit :=
  rt <- on_hio (addEvent (io_fd c) (io_event c) None (Some (io_sch c)) (io_fiber c) true fail);;
  mmodify (log_act (AAddEvent (io_event c)));;
  if rt =? 0 then mmodify (log_act AYield);; mmodify (set_ph (Holding timer))
  else mmodify (set_ph (Failing timer)).

(** The task of this fiber in a queue of its scheduler. *)
Definition own_task (p : Z * Task) : bool :=
  bool_decide (p.1 = io_sch c ∧ task_fiber p.2 = Some (io_fiber c)) &&
  match task_cb p.2 with None => true | Some _ => false end.

(** A worker takes the task and switches to the fiber. *)
Definition resume (timer : option Z) : M hw unit :=
  w <- mget;;
  match take_first own_task (queued (hio w)) with
  | None => mfault ForeignSwitch
  | Some (_, rest) =>
      let s := hio w in
      mput (set_ph (Resumed timer)
        (set_hio (mkIo (m_fd_contexts s) (m_waitting_events_count s) (interest s) rest) w))
  end.

(** [if (tinfo->canceled) { errno = tinfo->canceled; return -1; } goto retry;] *)
Definition test_canceled : M hw unit :=
  w <- mget;;
  if negb (canceled w =? 0) then mmodify (set_ph (Done (SErr (canceled w))))
  else mmodify (set_ph Calling).

(** The next statement of the fiber. What it is told from outside: the result
    of the function, the address of a timer, whether [epoll_ctl] fails. *)
Definition fiber_step (r : sysres) (a : Z) (fail : bool) : M hw unit :=
  w <- mget;;
  match ph w with
  | Calling => call_fun r
  | Again => add_timer a
  | Armed t => add_event t fail
  | Failing t => cancel_timer t;; mmodify (set_ph (Done SFail))
  | Holding t => resume t
  | Resumed t => cancel_timer t;; mmodify (set_ph Cancelled)
  | Cancelled => test_canceled
  | Done _ => mreturn tt
  end.

(** Whether [w_tinfo.lock()] succeeds: the call has not returned, or the
    lambda holds the pointer. *)
Definition alive (w : hw) (addr : Z) : bool :=
  negb (addr =? io_tinfo c) || firing w || match ph w with Done _ => false | _ => true end.

(** The lambda: [if (!t || t->canceled) return; t->canceled = ETIMEDOUT;] and
    [ios->cancelEvent(fd, event)]. *)
Definition on_timeout : M hw unit :=
  w <- mget;;
  if negb (alive w (io_tinfo c)) || negb (canceled w =? 0) then mreturn tt
  else mmodify (set_canceled ETIMEDOUT true).
Definition fire (fail : bool) : M hw unit :=
  on_hio (cancelEvent (io_fd c) (io_event c) fail);;
  mmodify (λ w, set_canceled (canceled w) false w).

(** A thread in [idle()] takes the expired callbacks and schedules them
    (an empty function is not scheduled). *)
Definition expire (nt : Z) : M hw unit :=
  w <- mget;;
  cbs <- on_tmr (getExpiredCbsList (clock w) nt);;
  mmodify (λ w, set_taken (taken w ++ omap id cbs) w).

(** A worker runs the [i]-th of them; what callbacks besides the lambda do is
    not part of this call. *)
Definition run_callback (i : nat) : M hw unit :=
  w <- mget;;
  match taken w !! i with
  | None => mreturn tt
  | Some cb =>
      mmodify (set_taken (delete i (taken w)));;
      match call (alive w) cb with
      | Ran ids => mfor ids (λ id, if id =? io_lambda c then on_timeout else mreturn tt)
      | BadFunctionCall => mreturn tt
      end
  end.
End Call.

(** A call that starts at [now], with the timers and events as they are. *)
Definition call_start (now : Z) (t : TimerManager) (s : IOScheduler.io) (cbs : list callback) : hw :=
  mkHw now t s cbs 0 false Calling [] [].
