(* ===== verification/HookWaitSpec.v ===== *)
(** * What a hooked call may rely on while it waits

    Every interleaving of one call of [io()] ([HookWait]) with the clock, the
    threads in [idle()], its own lambda, and any use that others make of the
    timers and of the events: whatever happens the fiber is in one place, the
    end of the call is one that [Hook.io_loop] describes, and a timeout is
    reported neither too early nor, unless the lambda ran too soon, never. *)

From stdpp Require Import relations.
From S2P Require Import Prelude Fiber Scheduler Timer TimerSpec TimerUse IOScheduler IOSchedulerSpec Hook HookWait.
#[local] Open Scope Z_scope.

(** ** The rest of the program *)

(** One step: the fiber's next statement, the clock, a thread in [idle()] that
    takes the expired timers, one that runs a callback, the second statement of the
    lambda, and whatever else happens to the timers and to the events. *)
Inductive hop :=
| HFiber (r : sysres) (a : Z) (fail : bool)
| HTick (now : Z)
| HExpire (nt : Z)
| HRun (i : nat)
| HFire (fail : bool)
| HTimer (o : top)
| HEvent (o : iop).

Definition hexec (c : iocall) (o : hop) : M hw unit :=
  match o with
  | HFiber r a fail => fiber_step c r a fail
  | HTick now => mmodify (set_clock now)
  | HExpire nt => expire nt
  | HRun i => run_callback c i
  | HFire fail => fire c fail
  | HTimer o => r <- on_tmr (texec o);; mreturn tt
  | HEvent o => r <- on_hio (iexec o);; mreturn tt
  end.

(** The local variable [timer]. *)
Definition held (w : hw) : option Z :=
  match ph w with Armed t | Failing t | Holding t | Resumed t => t | _ => None end.

(** The timer is known to the fiber alone, and so is the lambda. *)
Definition others_timer (c : iocall) (w : hw) (o : top) : Prop :=
  match o with
  | TAdd _ _ _ cb _ | TAddCondition _ _ _ cb _ _ => may_fire (io_lambda c) cb = false
  | TCancel a | TRefresh _ a | TReset _ a _ _ | TRelease a => held w ≠ Some a
  | TNext _ => True
  | TExpired _ _ => False
  end.

(** No other code runs in this fiber, and none deletes the event it waits for. *)
Definition others_event (c : iocall) (o : iop) : Prop :=
  match o with
  | IAdd _ _ _ _ cur _ => cur ≠ io_fiber c
  | IDel k ev _ => ¬ (k = io_fd c ∧ ev = io_event c)
  | _ => True
  end.

(** What may happen: a new timer gets an unused address, the fiber goes on
    when a worker takes its task, the clock does not go back. *)
Definition hop_ok (c : iocall) (w : hw) (o : hop) : Prop :=
  match o with
  | HFiber _ a _ =>
      match ph w with
      | Again => heap (tmr w) !! a = None
      | Holding _ => ∃ p, p ∈ queued (hio w) ∧ own_task c p = true
      | _ => True
      end
  | HTick now => clock w ≤ now ∧ now + io_timeout c < 2 ^ 64
  | HExpire _ | HRun _ => True
  | HFire _ => firing w = true
  | HTimer o => top_ok (tmr w) o ∧ others_timer c w o
  | HEvent o => iop_ok (hio w) o ∧ others_event c o
  end.

(** How often the fiber is scheduled, and whether it is registered for an event. *)
Definition own (c : iocall) (q : list (Z * Task)) : nat := length (filter (λ p, own_task c p = true) q).
Definition waits (c : iocall) (s : IOScheduler.io) (k ev : Z) : nat :=
  own c (task_of (ctx_of ev (ctx_at s k))).

(** The start of a call: the fiber runs, so it is neither scheduled nor
    registered; nobody has the lambda yet. *)
Record call_ok (c : iocall) (now : Z) (t : TimerManager) (s : IOScheduler.io) (cbs : list callback)
    : Prop := {
  o_fd : 0 ≤ io_fd c < 2 ^ 31;
  o_event : rw (io_event c);
  o_timeout : io_timeout c < 2 ^ 63;
  o_now : 0 ≤ now ∧ now + io_timeout c < 2 ^ 64;
  o_timers : Timer.inv t ∧ m_previous_time t ≤ now;
  o_events : io_inv s;
  o_queue : own c (queued s) = 0%nat;
  o_waits : ∀ k ev, 0 ≤ k → rw ev → waits c s k ev = 0%nat;
  o_lambda : ∀ a x, heap t !! a = Some x → may_fire (io_lambda c) (m_cb x) = false;
  o_taken : Forall (λ cb, mentions (io_lambda c) cb = false) cbs;
}.

Inductive hstep (c : iocall) (w w' : hw) : Prop :=
| hstep_intro o : hop_ok c w o → hexec c o w = Ret tt w' → hstep c w w'.

Inductive hreach (c : iocall) (now : Z) : hw → Prop :=
| hreach_start t s cbs : call_ok c now t s cbs → hreach c now (call_start now t s cbs)
| hreach_step w w' : hreach c now w → hstep c w w' → hreach c now w'.

(** ** The fiber in the events *)

Section Places.
Context (c : iocall).
Abbreviation here := (io_fd c, io_event c).

Lemma own_app q1 q2 : own c (q1 ++ q2) = (own c q1 + own c q2)%nat.
Proof. unfold own. by rewrite filter_app, length_app. Qed.

Lemma ctx_of_clear_if m ev ev' x : rw ev → rw ev' →
  ctx_of ev' (clear_if m ev x) = if has m ev && (ev =? ev') then resetContext else ctx_of ev' x.
Proof. intros Hv Hv'. unfold clear_if. destruct (has m ev); [|done]. by ev_cases. Qed.

Lemma ctx_of_clear_both m ev x : rw ev →
  ctx_of ev (clear_both m x) = if has m ev then resetContext else ctx_of ev x.
Proof.
  intros Hv. unfold clear_both. rewrite !ctx_of_clear_if by (done || by left + by right).
  ev_cases; simpl; rewrite ?andb_true_r, ?andb_false_r; done.
Qed.

Lemma ctx_of_register ev ev' ec x : rw ev → rw ev' →
  ctx_of ev' (register ev ec x) = if ev =? ev' then ec else ctx_of ev' x.
Proof. intros Hv Hv'. by ev_cases. Qed.

Lemma clear_event_both ev x : rw ev → clear_event ev x = clear_both ev x ∧
  task_of (ctx_of ev x) = tasks_both ev x.
Proof. intros [->| ->]; (split; [done|]); unfold tasks_both, tasks_if; simpl; by rewrite ?app_nil_r. Qed.

(** One context loses the events of [m], whose tasks are queued. *)
Definition elsewhere (s : IOScheduler.io) : Prop :=
  ∀ k ev, 0 ≤ k → rw ev → (k, ev) ≠ here → waits c s k ev = 0%nat.
Definition inside (s : IOScheduler.io) : nat := (own c (queued s) + waits c s (io_fd c) (io_event c))%nat.

(** Contexts that change in events of others keep the fiber where it is. *)
Lemma waits_reset s k ev : ctx_of ev (ctx_at s k) = resetContext → waits c s k ev = 0%nat.
Proof. unfold waits. by intros ->. Qed.

Lemma ctx_at_in s k : event (ctx_at s k) ≠ 0 → (Z.to_nat k < length (m_fd_contexts s))%nat.
Proof.
  unfold ctx_at. destruct (m_fd_contexts s !! Z.to_nat k) eqn:E; [by intros _; eapply lookup_lt_Some|done].
Qed.

Lemma own_tasks_both m x : own c (tasks_both m x) =
  ((if has m READ then own c (task_of (ctx_of READ x)) else 0) +
   (if has m WRITE then own c (task_of (ctx_of WRITE x)) else 0))%nat.
Proof. unfold tasks_both, tasks_if. rewrite own_app. by destruct (has m READ), (has m WRITE). Qed.

Lemma waits_clear s s' k m k' ev : 0 ≤ k → event (ctx_at s k) ≠ 0 →
  m_fd_contexts s' = <[Z.to_nat k := clear_both m (ctx_at s k)]> (m_fd_contexts s) →
  0 ≤ k' → rw ev →
  waits c s' k' ev = if decide (k' = k) then if has m ev then 0%nat else waits c s k ev else waits c s k' ev.
Proof.
  intros Hk Hin E Hk' Hv. unfold waits.
  rewrite (ctx_at_insert s s' (Z.to_nat k) _ k' E (ctx_at_in s k Hin) Hk'), Z2Nat.id by done.
  case_decide; [|done]. rewrite ctx_of_clear_both by done. by destruct (has m ev).
Qed.

(** Triggered events move their handlers to the queue. *)
Lemma trigger_frame s s' k m : 0 ≤ io_fd c → rw (io_event c) → 0 ≤ k → event (ctx_at s k) ≠ 0 →
  m_fd_contexts s' = <[Z.to_nat k := clear_both m (ctx_at s k)]> (m_fd_contexts s) →
  queued s' = queued s ++ tasks_both m (ctx_at s k) →
  elsewhere s → elsewhere s' ∧ inside s' = inside s.
Proof.
  intros Hf He Hk Hin E Q El. pose proof (waits_clear s s' k m) as W. split.
  - intros k' ev Hk' Hv Hn. rewrite W by done. pose proof (El k' ev Hk' Hv Hn).
    case_decide; [|done]. subst k'. by destruct (has m ev).
  - unfold inside. rewrite Q, own_app, own_tasks_both, W by done.
    change (own c (task_of (ctx_of ?ev (ctx_at s k)))) with (waits c s k ev).
    assert (H : ∀ ev, rw ev → (io_fd c = k → io_event c ≠ ev) → waits c s k ev = 0%nat).
    { intros ev Hv Hne. apply El; [done..|]. intros [= ? ?]. by apply Hne. }
    case_decide as Hd.
    + subst k. destruct He as [He|He]; rewrite He in *.
      * rewrite (H WRITE) by first [by right | by intros]. destruct (has m READ), (has m WRITE); lia.
      * rewrite (H READ) by first [by left | by intros]. destruct (has m READ), (has m WRITE); lia.
    + rewrite (H READ), (H WRITE) by first [by left | by right | by intros].
      destruct (has m READ), (has m WRITE); lia.
Qed.

(** One event handled alone. *)
Lemma trigger_one_frame s s' k ev : 0 ≤ io_fd c → rw (io_event c) → 0 ≤ k → rw ev →
  has (event (ctx_at s k)) ev = true →
  m_fd_contexts s' = <[Z.to_nat k := clear_event ev (ctx_at s k)]> (m_fd_contexts s) →
  queued s' = queued s ++ task_of (ctx_of ev (ctx_at s k)) →
  elsewhere s → elsewhere s' ∧ inside s' = inside s.
Proof.
  intros Hf He Hk Hv Hh. destruct (clear_event_both ev (ctx_at s k) Hv) as [-> ->].
  apply trigger_frame; try done. intros H0. by rewrite H0 in Hh.
Qed.

(** An event of others is deleted. *)
Lemma delete_frame s s' k ev : 0 ≤ io_fd c → rw (io_event c) → 0 ≤ k → rw ev →
  has (event (ctx_at s k)) ev = true → (k, ev) ≠ here →
  m_fd_contexts s' = <[Z.to_nat k := clear_event ev (ctx_at s k)]> (m_fd_contexts s) →
  queued s' = queued s → elsewhere s → elsewhere s' ∧ inside s' = inside s.
Proof.
  intros Hf He Hk Hv Hh Hne E Q El. destruct (clear_event_both ev (ctx_at s k) Hv) as [Ec _].
  rewrite Ec in E. assert (Hin : event (ctx_at s k) ≠ 0) by (intros H0; by rewrite H0 in Hh).
  pose proof (waits_clear s s' k ev) as W. split.
  - intros k' ev' Hk' Hv' Hn. rewrite W by done. pose proof (El k' ev' Hk' Hv' Hn).
    case_decide; [|done]. subst k'. by destruct (has ev ev').
  - unfold inside. rewrite Q, W by done. case_decide as Hd; [|done]. subst k.
    assert (ev ≠ io_event c) as Hd by (intros ->; by apply Hne).
    destruct He as [He|He]; rewrite He in *; by destruct Hv as [->| ->].
Qed.

(** A handler is registered. *)
Lemma waits_register s s' k ev ec k' ev' : ctx_at s' k = register ev ec (ctx_at s k) →
  (∀ j, 0 ≤ j → j ≠ k → ctx_at s' j = ctx_at s j) → 0 ≤ k' → rw ev → rw ev' →
  waits c s' k' ev' = if decide ((k', ev') = (k, ev)) then own c (task_of ec) else waits c s k' ev'.
Proof.
  intros E Eo Hk' Hv Hv'. unfold waits. destruct (decide (k' = k)) as [->|Hne].
  - rewrite E, ctx_of_register by done. destruct (Z.eqb_spec ev ev') as [->|Hne].
    + by rewrite decide_True.
    + by rewrite decide_False by naive_solver.
  - rewrite Eo by done. by rewrite decide_False by naive_solver.
Qed.

(** An event that is not registered has no handler. *)
Lemma unregistered s k ev : io_inv s → rw ev → has (event (ctx_at s k)) ev = false → waits c s k ev = 0%nat.
Proof.
  intros I Hv Hh. apply waits_reset. unfold ctx_at in *.
  destruct (m_fd_contexts s !! Z.to_nat k) as [x|] eqn:Hl; simpl in *.
  - pose proof (ctx_of_ok (Z.to_nat k) ev x (i_ctx _ I _ _ Hl) Hv) as Hc. by rewrite Hh in Hc.
  - by destruct Hv as [->| ->].
Qed.

Lemma add_frame s s' r k ev cb sch cur fail : io_inv s → 0 ≤ k < 2 ^ 31 → rw ev → rw (io_event c) →
  0 ≤ io_fd c → cur ≠ io_fiber c →
  addEvent k ev cb (Some sch) cur true fail s = Ret r s' → elsewhere s → elsewhere s' ∧ inside s' = inside s.
Proof.
  intros I Hk Hv He Hf Hn R El. destruct (addEvent_spec s k ev cb sch cur fail I Hk Hv) as (s2 & _ & Q & Eo & R2).
  destruct (has (event (ctx_at s k)) ev || fail) eqn:Hh; destruct R2 as [R2 E];
    rewrite R2 in R; injection R as <- <-.
  - assert (W : ∀ k ev, 0 ≤ k → waits c s2 k ev = waits c s k ev).
    { intros k' ev' Hk'. unfold waits. destruct (decide (k' = k)) as [->|]; [by rewrite E|by rewrite Eo]. }
    split; [intros k' ev' Hk' Hv' Hne; rewrite W by done; by apply El|]. unfold inside. by rewrite Q, W.
  - apply orb_false_iff in Hh as [Hh _]. pose proof (waits_register s s2 k ev (new_handler cb sch cur)) as W.
    assert (Z0 : own c (task_of (new_handler cb sch cur)) = 0%nat).
    { unfold own. rewrite filter_none; [done|]. unfold own_task, new_handler, task_of.
      destruct cb; simpl; repeat constructor; [by rewrite andb_false_r|].
      rewrite andb_true_r, bool_decide_eq_true. naive_solver. }
    rewrite Z0 in W. split.
    + intros k' ev' Hk' Hv' Hne. rewrite (W k' ev') by done. case_decide; [done|by apply El].
    + unfold inside. rewrite Q, W by done. case_decide as Hd; [|done]. injection Hd as Hd1 Hd2.
      rewrite Hd1, Hd2, (unregistered s k ev) by done. done.
Qed.

Lemma cancel_frame s s' r k ev fail : io_inv s → 0 ≤ k → rw ev → rw (io_event c) → 0 ≤ io_fd c →
  cancelEvent k ev fail s = Ret r s' → elsewhere s → elsewhere s' ∧ inside s' = inside s.
Proof.
  intros I Hk Hv He Hf R El. pose proof (del_cancel_spec s k ev fail I Hk Hv) as D.
  destruct (has (event (ctx_at s k)) ev && negb fail) eqn:Hh.
  - destruct D as [_ (s2 & R2 & _ & Q & E)]. rewrite R2 in R. injection R as <- <-.
    apply andb_true_iff in Hh as [Hh _]. by apply (trigger_one_frame s s2 k ev).
  - destruct D as [_ R2]. rewrite R2 in R. by injection R as <- <-.
Qed.

Lemma ready_frame s s' r i x events fail : io_inv s → rw (io_event c) → 0 ≤ io_fd c →
  m_fd_contexts s !! i = Some x → reportable events (event x) →
  handle_ready i events fail s = Ret r s' → elsewhere s → elsewhere s' ∧ inside s' = inside s.
Proof.
  intros I He Hf Hx Hrep R El. pose proof (handle_ready_spec s i x events fail I Hx Hrep) as D.
  cbv zeta in D. assert (Hat : ctx_at s (Z.of_nat i) = x) by (unfold ctx_at; by rewrite Nat2Z.id, Hx).
  destruct (negb (Z.land (event x) (real_event events (event x)) =? 0) && negb fail) eqn:Hh;
    [|rewrite D in R; by injection R as <- <-].
  destruct D as (s2 & R2 & _ & Q & E). rewrite R2 in R. injection R as <- <-.
  apply (trigger_frame s s2 (Z.of_nat i) (real_event events (event x)));
    rewrite ?Nat2Z.id, ?Hat; try done; [lia|].
  intros H0. apply andb_true_iff in Hh as [Hh _]. apply negb_true_iff, Z.eqb_neq in Hh.
  by rewrite H0, Z.land_0_l in Hh.
Qed.

(** Whatever others do to the events. *)
Lemma others_frame s o r s' : 0 ≤ io_fd c → rw (io_event c) → io_inv s → iop_ok s o →
  others_event c o → iexec o s = Ret r s' → elsewhere s → elsewhere s' ∧ inside s' = inside s.
Proof.
  intros Hf He I Hok Ho R El. destruct o as [k ev cb sch cur fail|k ev fail|k ev fail|k fail|i events fail];
    simpl in Hok, Ho, R; minv R as a s1 R1; injection R as <- <-.
  - destruct Hok. by eapply add_frame.
  - destruct Hok as [Hk Hv]. pose proof (del_cancel_spec s k ev fail I Hk Hv) as D.
    destruct (has (event (ctx_at s k)) ev && negb fail) eqn:Hh.
    + destruct D as [(s2 & R & _ & Q & E) _]. rewrite R in R1. injection R1 as <- <-.
      apply andb_true_iff in Hh as [Hh _]. apply (delete_frame s s2 k ev); try done.
      intros [= -> ->]. by apply Ho.
    + destruct D as [R _]. rewrite R in R1. by injection R1 as <- <-.
  - destruct Hok. by eapply cancel_frame.
  - pose proof (cancelAll_spec s k fail I Hok) as D.
    destruct (negb (event (ctx_at s k) =? 0) && negb fail) eqn:Hh.
    + destruct D as (s2 & R & _ & Q & E & _). rewrite R in R1. injection R1 as <- <-.
      apply andb_true_iff in Hh as [Hh _]. apply negb_true_iff, Z.eqb_neq in Hh.
      by apply (trigger_frame s s2 k (event (ctx_at s k))).
    + rewrite D in R1. by injection R1 as <- <-.
  - destruct Hok as (x & Hx & Hrep). by eapply ready_frame.
Qed.
End Places.

(** ** The timer of a wait *)

Section Waiting.
Context (c : iocall) (start : Z).
Abbreviation timeout := (io_timeout c).

Definition lambda : callback := OnTimer (io_tinfo c) (Plain (io_lambda c)).

(** The lambda is in the fiber's own timer at most. *)
Definition private (hd : option Z) (h : gmap Z Timer) : Prop :=
  ∀ a x, h !! a = Some x → may_fire (io_lambda c) (m_cb x) = true → hd = Some a.

Lemma private_not hd h a x : private hd h → hd ≠ Some a → h !! a = Some x →
  may_fire (io_lambda c) (m_cb x) = false.
Proof. intros P Hn Ha. apply not_true_is_false. intros Hm. by apply (P a x Ha) in Hm. Qed.

(** Whatever others do to the timers. *)
Lemma others_timer_frame w o r tm' : Timer.inv (tmr w) → private (held w) (heap (tmr w)) →
  (∀ a, held w = Some a → is_Some (heap (tmr w) !! a)) →
  top_ok (tmr w) o → others_timer c w o → texec o (tmr w) = Ret r tm' →
  private (held w) (heap tm') ∧ (∀ a, held w = Some a → heap tm' !! a = heap (tmr w) !! a) ∧
  m_previous_time tm' = m_previous_time (tmr w).
Proof.
  intros I P Hh Hok Ho R.
  assert (Hx : is_expired o = false) by (by destruct o).
  assert (Hcb : may_fire (io_lambda c) (new_cb o) = false) by (by destruct o).
  assert (Hta : ∀ a, top_target o = Some a → held w ≠ Some a).
  { intros a Ha. destruct o; simpl in Ha, Ho, Hok; simplify_eq; try done;
      intros E; apply Hh in E as [x E]; congruence. }
  destruct (texec_frame _ o r tm' I Hok Hx R) as [Hp F]. destruct (top_target o) as [a|]; [|by rewrite F].
  specialize (Hta a eq_refl). destruct F as [Fo Fa]. split; [|split; [|done]].
  - intros b x Hb Hm. destruct (decide (a = b)) as [<-|Hne]; [|rewrite Fo in Hb by done; by eapply P].
    destruct (Fa _ x Hb Hm) as [Hn|(y & Hy & Hm')]; [congruence|]. by destruct Hta; eapply P.
  - intros b Hb. apply Fo. congruence.
Qed.

(** ** The invariant *)

Definition holding (p : phase) : bool := match p with Holding _ => true | _ => false end.

(** The local variable [timer] is set when there is a timeout. *)
Definition timer_set (w : hw) : Prop :=
  match ph w with
  | Armed t | Failing t | Holding t | Resumed t =>
      match t with Some a => 0 ≤ timeout ∧ is_Some (heap (tmr w) !! a) | None => timeout < 0 end
  | _ => True
  end.

(** The timeout has passed since the call began. *)
Definition elapsed (t : Z) : Prop := 0 ≤ timeout ∧ start + timeout ≤ t.

Definition own_timer (t : Z) (x : Timer.Timer) : Prop :=
  m_cb x = Some lambda ∧ m_is_loop x = false ∧ elapsed (m_next x) ∧ m_next x ≤ t + timeout.

(** The lambda will run: its timer is armed or expired. *)
Definition pending (w : hw) : Prop :=
  (∃ a x, held w = Some a ∧ heap (tmr w) !! a = Some x ∧ m_cb x = Some lambda) ∨ lambda ∈ taken w.

Record tinv (w : hw) : Prop := {
  v_timers : Timer.inv (tmr w);
  v_prev : m_previous_time (tmr w) ≤ clock w;
  v_clock : 0 ≤ start ≤ clock w ∧ clock w + timeout < 2 ^ 64;
  v_held : timer_set w;
  v_private : private (held w) (heap (tmr w));
  v_own : ∀ a x, heap (tmr w) !! a = Some x → may_fire (io_lambda c) (m_cb x) = true → own_timer (clock w) x;
  v_taken : ∀ cb, cb ∈ taken w → mentions (io_lambda c) cb = true → cb = lambda ∧ elapsed (clock w);
  v_canceled : canceled w ≠ 0 → canceled w = ETIMEDOUT ∧ elapsed (clock w);
  v_firing : firing w = true → canceled w ≠ 0;
  v_pending : canceled w = 0 → ∀ a, ph w = Armed (Some a) ∨ ph w = Holding (Some a) → pending w;
}.

Record einv (w : hw) : Prop := {
  v_events : io_inv (hio w);
  v_elsewhere : elsewhere c (hio w);
  v_inside : inside c (hio w) = if holding (ph w) then 1%nat else 0%nat;
}.

Definition call_const : Prop := 0 ≤ io_fd c < 2 ^ 31 ∧ rw (io_event c) ∧ timeout < 2 ^ 63.

Lemma on_tmr_Ret {A} (m : M TimerManager A) w x t : m (tmr w) = Ret x t → on_tmr m w = Ret x (set_tmr t w).
Proof. unfold on_tmr. by intros ->. Qed.
Lemma on_hio_Ret {A} (m : M IOScheduler.io A) w x s : m (hio w) = Ret x s → on_hio m w = Ret x (set_hio s w).
Proof. unfold on_hio. by intros ->. Qed.

Lemma elapsed_later t t' : t ≤ t' → elapsed t → elapsed t'.
Proof. unfold elapsed. lia. Qed.

Lemma held_timer w a : timer_set w → held w = Some a → 0 ≤ timeout ∧ is_Some (heap (tmr w) !! a).
Proof. unfold timer_set, held. destruct (ph w) as [| |[]|[]|[]|[]| |]; naive_solver. Qed.
Lemma holding_held w a : ph w = Armed (Some a) ∨ ph w = Holding (Some a) → held w = Some a.
Proof. unfold held. by intros [->| ->]. Qed.

(** The parts of the state the timers do not see. *)
Lemma tinv_ext w w' : clock w' = clock w → tmr w' = tmr w → taken w' = taken w → canceled w' = canceled w →
  firing w' = firing w → held w' = held w → timer_set w' →
  (∀ a, ph w' = Armed (Some a) ∨ ph w' = Holding (Some a) → ph w = Armed (Some a) ∨ ph w = Holding (Some a)) →
  tinv w → tinv w'.
Proof.
  intros E1 E2 E3 E4 E5 E6 Hs Hp [V1 V2 V3 V4 V5 V6 V7 V8 V9 V10].
  split; unfold pending in *; rewrite ?E1, ?E2, ?E3, ?E4, ?E5, ?E6; try done.
  intros Hc a Ha. eauto.
Qed.

(** *** The fiber's statements *)

Lemma mentions_lambda : mentions (io_lambda c) lambda = true.
Proof. apply Z.eqb_refl. Qed.

(** A timer of the fiber's own is armed. *)
Lemma add_timer_inv w a : call_const → tinv w → einv w → ph w = Again → heap (tmr w) !! a = None →
  ∃ w', add_timer c a w = Ret tt w' ∧ tinv w' ∧ einv w' ∧ results w' = results w ∧
    acts w' = acts w ++ (if 0 <=? timeout then [AAddTimer timeout] else []) ∧ canceled w' = canceled w ∧
    ∃ t, ph w' = Armed t.
Proof.
  intros (_ & _ & Ht) T E Hp Ha. unfold add_timer.
  assert (Hno : held w = None) by (unfold held; by rewrite Hp).
  destruct (Z.leb_spec 0 timeout) as [Hle|Hlt]; mrun.
  - rewrite wrapu_small by (unfold urange; lia). unfold addConditionTimer. fold lambda.
    destruct (addTimer_spec (clock w) a timeout (Some lambda) false _ (v_timers _ T) Ha)
      as (l1 & l2 & _ & R & I). cbv zeta in R, I.
    set (tm := mkTimerManager _ _ _ _ _) in R, I. rewrite (bind_Ret _ _ _ _ _ (on_tmr_Ret _ _ _ _ R)).
    rewrite !bind_modify. eexists. split; [done|].
    assert (Hx : own_timer (clock w) (Timer_new (clock w) timeout (Some lambda) false)).
    { pose proof (v_clock _ T). unfold own_timer, Timer_new, elapsed. simpl.
      rewrite wrapu_small by (unfold urange; lia). split_and!; try done; lia. }
    assert (P : ∀ b x, heap tm !! b = Some x → may_fire (io_lambda c) (m_cb x) = true →
      b = a ∧ own_timer (clock w) x).
    { intros b x Hb Hm. simpl in Hb. apply lookup_insert_Some in Hb as [[<- <-]|[_ Hb]]; [done|].
      pose proof (v_private _ T _ _ Hb Hm). congruence. }
    split; [|split; [|by split_and!; eauto]].
    + split; simpl; try apply T; try done.
      * split; [done|]. simpl. rewrite lookup_insert_eq. by eexists.
      * intros b x Hb Hm. unfold held. simpl. f_equal. symmetry. by apply (P b x).
      * intros b x Hb Hm. by apply (P b x).
      * intros _ b Hb. left. exists a, (Timer_new (clock w) timeout (Some lambda) false).
        simpl. by rewrite lookup_insert_eq.
    + destruct E as [V1 V2 V3]. split; try done. simpl. by rewrite V3, Hp.
  - eexists. split; [done|].
    split; [|split; [|split_and!; simpl; rewrite ?app_nil_r; eauto]].
    + apply (tinv_ext w); try done; unfold held; simpl; rewrite ?Hp; naive_solver.
    + destruct E as [V1 V2 V3]. split; try done. simpl. by rewrite V3, Hp.
Qed.

Lemma private_none h a x : private None h → h !! a = Some x → may_fire (io_lambda c) (m_cb x) = false.
Proof. intros P Ha. by apply (private_not None h a x). Qed.

(** [timer->cancel()] and on to a place without a timer. *)
Lemma cancel_timer_inv w timer p : tinv w → einv w → timer_set w → held w = timer →
  holding (ph w) = false → holding p = false →
  (∀ t, held (set_ph p t) = None) → (∀ t, timer_set (set_ph p t)) →
  (timer = None → 0 ≤ timeout → False) →
  ∃ w', (cancel_timer timer;; mmodify (set_ph p)) w = Ret tt w' ∧ tinv w' ∧ einv w' ∧ ph w' = p ∧
    results w' = results w ∧ canceled w' = canceled w ∧ clock w' = clock w ∧
    acts w' = acts w ++ (if 0 <=? timeout then [ACancelTimer] else []).
Proof.
  intros T E Hs Hh Hp Hp' Hno Hset Hnone.
  assert (Hnop : ∀ b, ¬ (p = Armed (Some b) ∨ p = Holding (Some b))).
  { intros b Hb. specialize (Hno w). unfold held in Hno. simpl in Hno. by destruct Hb as [->| ->]. }
  destruct timer as [a|]; simpl cancel_timer.
  - destruct (held_timer w a Hs Hh) as [Hle [x Hx]]. rewrite (proj2 (Z.leb_le _ _) Hle).
    pose proof (cancel_spec a x _ (v_timers _ T) Hx) as R.
    assert (H : ∃ tm, cancel a (tmr w) = Ret (bool_decide (is_Some (m_cb x))) tm ∧ Timer.inv tm ∧
      m_previous_time tm = m_previous_time (tmr w) ∧
      ∀ b y, heap tm !! b = Some y → may_fire (io_lambda c) (m_cb y) = false).
    { assert (Hb : ∀ b y, heap (tmr w) !! b = Some y → b ≠ a → may_fire (io_lambda c) (m_cb y) = false).
      { intros b y Hb Hn. apply (private_not _ _ b y (v_private _ T)); [congruence|done]. }
      destruct (m_cb x) eqn:Ecb.
      - destruct R as (l1 & l2 & _ & _ & R & I). eexists. split; [exact R|]. split; [exact I|]. split; [done|].
        intros b y Hy. simpl in Hy. apply lookup_insert_Some in Hy as [[<- <-]|[Hn Hy]]; [done|by eapply Hb].
      - eexists. split; [exact R|]. split; [apply T|]. split; [done|]. intros b y Hy.
        destruct (decide (b = a)) as [->|]; [|by eapply Hb]. by replace (m_cb y) with (@None callback) by congruence. }
    destruct H as (tm & Rc & I & Hprev & Hcl). unfold mbind' at 1. rewrite (bind_Ret _ _ _ _ _ (on_tmr_Ret _ _ _ _ Rc)).
    eexists. split; [done|]. split; [|split; [|by repeat split]].
    + split; simpl; try apply T; try done; try (by rewrite Hprev; apply T); try apply Hset.
      * intros b y Hb Hm. by rewrite (Hcl b y Hb) in Hm.
      * intros b y Hb Hm. by rewrite (Hcl b y Hb) in Hm.
      * intros _ b Hb. by destruct (Hnop b).
    + destruct E as [V1 V2 V3]. split; try done. simpl. by rewrite V3, Hp, Hp'.
  - destruct (Z.leb_spec 0 timeout); [by destruct Hnone|]. rewrite app_nil_r.
    eexists. split; [done|]. split; [|split; [|by repeat split]].
    + apply (tinv_ext w); try done; [by rewrite Hno, Hh|].
      intros b Hb. by destruct (Hnop b).
    + destruct E as [V1 V2 V3]. split; try done. simpl. by rewrite V3, Hp, Hp'.
Qed.

(** [addEvent] registers the fiber, or changes nothing. *)
Lemma add_event_inv w timer fail : call_const → tinv w → einv w → ph w = Armed timer →
  ∃ rt w', add_event c timer fail w = Ret tt w' ∧ tinv w' ∧ einv w' ∧
    results w' = results w ∧ canceled w' = canceled w ∧ clock w' = clock w ∧
    ((rt = 0 ∧ ph w' = Holding timer ∧ acts w' = acts w ++ [AAddEvent (io_event c); AYield]) ∨
     (rt = -1 ∧ ph w' = Failing timer ∧ acts w' = acts w ++ [AAddEvent (io_event c)])).
Proof.
  intros (Hf & He & _) T [V1 V2 V3] Hp. unfold add_event.
  destruct (addEvent_spec (hio w) (io_fd c) (io_event c) None (io_sch c) (io_fiber c) fail V1 Hf He)
    as (s' & I & Q & Eo & R). pose proof (v_held _ T) as Hs. unfold timer_set in Hs. rewrite Hp in Hs, V3.
  simpl in V3. unfold inside in V3.
  destruct (has (event (ctx_at (hio w) (io_fd c))) (io_event c) || fail) eqn:Hh; destruct R as [R Ec];
    rewrite (bind_Ret _ _ _ _ _ (on_hio_Ret _ _ _ _ R)); rewrite bind_modify; cbn [Z.eqb Pos.eqb].
  - exists (-1). eexists. split; [done|]. split; [|split; [|by repeat split; auto]].
    + apply (tinv_ext w); try done; [unfold held; simpl; by rewrite Hp|naive_solver].
    + assert (W : ∀ k ev, 0 ≤ k → waits c s' k ev = waits c (hio w) k ev).
      { intros k ev Hk. unfold waits. destruct (decide (k = io_fd c)) as [->|]; [by rewrite Ec|by rewrite Eo]. }
      split; simpl; [done|intros k ev Hk Hv Hn; rewrite W by done; by apply V2|].
      unfold inside. rewrite Q, W by lia. done.
  - exists 0. eexists. split; [done|].
    split; [|split; [|split_and!; try done; left; split_and!; try done; simpl; by rewrite <-(assoc_L app)]].
    + apply (tinv_ext w); try done; [unfold held; simpl; by rewrite Hp|].
      intros a [?|Ha]; [done|]. left. simpl in Ha. congruence.
    + pose proof (λ k ev, waits_register c (hio w) s' _ _ _ k ev Ec Eo) as W.
      split; simpl; [done| |].
      * intros k ev Hk Hv Hn. rewrite W by done. rewrite decide_False by done. by apply V2.
      * unfold inside. rewrite Q, W by (done || lia). rewrite decide_True by done.
        assert (own c (task_of (new_handler None (io_sch c) (io_fiber c))) = 1%nat) as ->.
        { unfold own, new_handler, task_of. simpl ec_scheduler. cbv iota. rewrite filter_cons, decide_True; [done|].
          unfold own_task. simpl. by rewrite bool_decide_eq_true_2. }
        lia.
Qed.

Lemma take_first_own q : own c q ≠ 0%nat →
  ∃ p rest, take_first (own_task c) q = Some (p, rest) ∧ own c q = S (own c rest).
Proof.
  induction q as [|x q IH]; [done|]. unfold own. rewrite filter_cons. simpl.
  destruct (own_task c x) eqn:Ex.
  - intros _. exists x, q. by rewrite decide_True.
  - rewrite decide_False by done. intros Hq. destruct IH as (p & rest & -> & IH); [done|].
    exists p, (x :: rest). split; [done|]. rewrite filter_cons, Ex, decide_False by done. done.
Qed.

(** The fiber goes on. *)
Lemma resume_inv w timer : tinv w → einv w → ph w = Holding timer →
  (∃ p, p ∈ queued (hio w) ∧ own_task c p = true) →
  ∃ w', resume c timer w = Ret tt w' ∧ tinv w' ∧ einv w' ∧ ph w' = Resumed timer ∧
    results w' = results w ∧ canceled w' = canceled w ∧ clock w' = clock w ∧ acts w' = acts w.
Proof.
  intros T [V1 V2 V3] Hp (p & Hin & Hown). rewrite Hp in V3. simpl in V3.
  pose proof (v_held _ T) as Hs. unfold timer_set in Hs. rewrite Hp in Hs.
  assert (Hq : own c (queued (hio w)) ≠ 0%nat).
  { unfold own. intros H0. apply nil_length_inv in H0.
    assert (p ∈ filter (λ p, own_task c p = true) (queued (hio w))) as Hf by (by apply list_elem_of_filter).
    rewrite H0 in Hf. by apply elem_of_nil in Hf. }
  destruct (take_first_own _ Hq) as (y & rest & Et & Hc).
  unfold resume. mrun. rewrite Et. eexists. split; [done|]. split; [|split; [|by repeat split]].
  - apply (tinv_ext w); try done; [unfold held; simpl; by rewrite Hp|naive_solver].
  - unfold inside in V3. split; simpl; [by destruct V1|done|]. unfold inside. simpl.
    change (waits c (mkIo _ _ _ _)) with (waits c (hio w)). unfold waits at 1.
    change (waits c (hio w)) with (waits c (hio w)) in V3. unfold waits in V3.
    change (ctx_at (mkIo (m_fd_contexts (hio w)) (m_waitting_events_count (hio w)) (interest (hio w)) rest))
      with (ctx_at (hio w)). lia.
Qed.

(** *** The other steps *)

(** The callbacks that were due, and the timers behind them. *)
Lemma expire_inv w nt : tinv w → einv w →
  ∃ w' cbs, expire nt w = Ret tt w' ∧ tinv w' ∧ einv w' ∧
    cbs = omap (cb_at (heap (tmr w))) (due (clock w) (tmr w)) ∧ taken w' = taken w ++ cbs ∧
    ph w' = ph w ∧ results w' = results w ∧ acts w' = acts w ∧ canceled w' = canceled w ∧
    hio w' = hio w ∧ firing w' = firing w ∧ clock w' = clock w.
Proof.
  intros T [V1 V2 V3]. destruct (expire_frame (clock w) nt _ (v_timers _ T) (v_prev _ T))
    as (cbs & tm & R & I & Hprev & Ecbs & Hlook). unfold expire. mrun.
  rewrite (bind_Ret _ _ _ _ _ (on_tmr_Ret _ _ _ _ R)).
  eexists _, _. split; [done|].
  split; [|split; [by split|split_and!; [reflexivity|simpl; f_equal; exact Ecbs|done..]]].
  pose proof (due_past (clock w) (tmr w)) as Hdue.
  assert (Hown : ∀ a x, heap tm !! a = Some x → may_fire (io_lambda c) (m_cb x) = true →
      heap (tmr w) !! a = Some x).
  { intros a x Ha Hm. rewrite Hlook in Ha. case_decide; [|done].
    apply fmap_Some in Ha as (y & Hy & ->). unfold Timer.fire in Hm.
    destruct (m_is_loop y) eqn:Hl; simpl in Hm; [|done].
    destruct (v_own _ T a y Hy Hm) as (_ & Hl' & _). congruence. }
  assert (Hnew : ∀ a x, heap (tmr w) !! a = Some x → m_cb x = Some lambda →
      heap tm !! a = Some x ∨ lambda ∈ omap id cbs).
  { intros a x Ha Hx. rewrite Hlook. destruct (decide (a ∈ due (clock w) (tmr w))) as [Hd|]; [right|by left].
    rewrite Ecbs.
    apply list_elem_of_omap. exists a. split; [done|]. unfold cb_at. by rewrite Ha. }
  split; simpl.
  - done.
  - done.
  - apply T.
  - pose proof (v_held _ T) as Hs. unfold timer_set in *. simpl.
    destruct (ph w) as [| |[a|]|[a|]|[a|]|[a|]| |]; try done;
      (destruct Hs as [? [x Hx]]; split; [done|]; rewrite Hlook, Hx; destruct (decide (a ∈ _)); by eexists).
  - intros a x Ha Hm. by eapply (v_private _ T a x), Hm; apply Hown.
  - intros a x Ha Hm. apply (v_own _ T a x); [by apply Hown|done].
  - intros cb Hcb Hm. apply elem_of_app in Hcb as [Hcb|Hcb]; [by apply (v_taken _ T)|].
    rewrite Ecbs in Hcb. apply list_elem_of_omap in Hcb as (a & Ha & Hcb). unfold cb_at in Hcb.
    destruct (heap (tmr w) !! a) as [x|] eqn:Hx; [|done]. simpl in Hcb.
    destruct (v_own _ T a x Hx) as (E1 & _ & E2 & _); [by rewrite Hcb|]. rewrite Hcb in E1. simplify_eq.
    split; [done|]. apply Hdue in Ha as [_ Hle]; [|apply T]. unfold next_at in Hle.
    rewrite Hx in Hle. by eapply elapsed_later.
  - apply T.
  - apply T.
  - intros Hc a Ha. destruct (v_pending _ T Hc a Ha) as [(b & x & Hb & Hx & Hcb)|Hin].
    + destruct (Hnew b x Hx Hcb) as [Hn|Hn]; [left; by exists b, x|right; simpl; set_solver].
    + right. simpl. set_solver.
Qed.

(** A callback that is not the lambda does nothing to the call. *)
Lemma mfor_others ids (w : hw) : (∀ id, id ∈ ids → id ≠ io_lambda c) →
  mfor ids (λ id, if id =? io_lambda c then on_timeout c else mreturn tt) w = Ret tt w.
Proof.
  induction ids as [|id ids IH]; intros H; [done|]. simpl.
  rewrite (proj2 (Z.eqb_neq _ _)) by (apply H; by left). mrun. apply IH. intros; apply H. by right.
Qed.

Lemma tinv_taken w l : tinv w → l ⊆ taken w → (lambda ∈ taken w → canceled w = 0 → lambda ∈ l) →
  tinv (set_taken l w).
Proof.
  intros [V1 V2 V3 V4 V5 V6 V7 V8 V9 V10] Hl Hn. split; simpl; try done.
  - intros cb Hcb. apply V7. by apply Hl.
  - intros Hc a Ha. destruct (V10 Hc a Ha) as [?|Hin]; [by left|right]. by apply Hn.
Qed.

Definition returned (p : phase) : bool := match p with Done _ => true | _ => false end.

Lemma alive_own w : alive c w (io_tinfo c) = firing w || negb (returned (ph w)).
Proof. unfold alive. rewrite Z.eqb_refl. simpl. by destruct (ph w). Qed.

(** The lambda begins: it sets [canceled], once. *)
Lemma run_callback_inv w i : tinv w → einv w →
  ∃ w', run_callback c i w = Ret tt w' ∧ tinv w' ∧ einv w' ∧
    ph w' = ph w ∧ results w' = results w ∧ acts w' = acts w ∧ hio w' = hio w ∧
    clock w' = clock w ∧ tmr w' = tmr w ∧
    (taken w !! i = Some lambda → returned (ph w) = false → canceled w = 0 →
     canceled w' = ETIMEDOUT ∧ firing w' = true) ∧
    (canceled w ≠ 0 → canceled w' = canceled w ∧ firing w' = firing w).
Proof.
  intros T [V1 V2 V3]. unfold run_callback. mrun.
  destruct (taken w !! i) as [cb|] eqn:Hi; [|exists w; by split_and!]. rewrite bind_modify.
  set (w1 := set_taken (delete i (taken w)) w).
  assert (Hsub : delete i (taken w) ⊆ taken w) by apply list_subseteq_delete.
  destruct (mentions (io_lambda c) cb) eqn:Hm.
  - assert (Hin : cb ∈ taken w) by (by eapply list_elem_of_lookup_2).
    destruct (v_taken _ T cb Hin Hm) as [-> He]. simpl. rewrite alive_own.
    assert (Hrun : mfor [io_lambda c] (λ id, if id =? io_lambda c then on_timeout c else mreturn tt) w1 =
      Ret tt (if (firing w || negb (returned (ph w))) && (canceled w =? 0)
              then set_canceled ETIMEDOUT true w1 else w1)).
    { simpl. rewrite Z.eqb_refl. unfold on_timeout, mbind', mget. cbv beta iota. rewrite alive_own. mend. simpl.
      by destruct (firing w || _), (canceled w =? 0). }
    destruct (firing w || negb (returned (ph w))) eqn:Hal; [rewrite Hrun|]; simpl.
    + destruct (Z.eqb_spec (canceled w) 0) as [Hc|Hc].
      * eexists. split; [done|]. split; [|split; [by split|split_and!; done]].
        destruct T as [U1 U2 U3 U4 U5 U6 U7 U8 U9 U10]. split; simpl; try done.
        intros cb Hcb. apply U7. by apply Hsub.
      * exists w1. split; [done|]. split; [by apply tinv_taken|]. split; [by split|split_and!; done].
    + assert (returned (ph w) = true) as Hr by (by destruct (firing w), (returned (ph w))).
      exists w1. split; [done|]. split; [|split; [by split|split_and!; try done; congruence]].
      destruct T as [U1 U2 U3 U4 U5 U6 U7 U8 U9 U10]. split; simpl; try done.
      * intros cb Hcb. apply U7. by apply Hsub.
      * intros _ a Ha. exfalso. by destruct Ha as [Ha|Ha]; rewrite Ha in Hr.
  - exists w1. split.
    + destruct (call (alive c w) cb) as [ids|] eqn:Ec; [|done]. apply mfor_others.
      intros id Hid ->. pose proof (call_Ran _ _ _ Ec _ Hid). congruence.
    + split; [|split; [by split|split_and!; try done]].
      * apply tinv_taken; [done|done|]. intros Hin _. eapply delete_keeps; [done|done|].
        intros ->. pose proof mentions_lambda. congruence.
      * intros [= ->]. pose proof mentions_lambda. congruence.
Qed.

Lemma cancelEvent_Ret s fail : call_const → io_inv s →
  ∃ b s', cancelEvent (io_fd c) (io_event c) fail s = Ret b s' ∧ io_inv s' ∧
    (fail = false → waits c s' (io_fd c) (io_event c) = 0%nat).
Proof.
  intros (Hf & He & _) I. pose proof (del_cancel_spec s (io_fd c) (io_event c) fail I (proj1 Hf) He) as D.
  destruct (has (event (ctx_at s (io_fd c))) (io_event c)) eqn:Hh; simpl in D.
  - destruct fail; simpl in D; [destruct D as [_ R]; by exists false, s|].
    destruct D as [_ (s' & R & I' & _ & E)]. exists true, s'. split; [done|]. split; [done|]. intros _.
    destruct (clear_event_both (io_event c) (ctx_at s (io_fd c)) He) as [Ec _]. rewrite Ec in E.
    assert (Hin : event (ctx_at s (io_fd c)) ≠ 0) by (intros H0; by rewrite H0 in Hh).
    rewrite (waits_clear c s s' _ _ _ _ (proj1 Hf) Hin E (proj1 Hf) He), decide_True by done.
    by destruct He as [He|He]; rewrite He.
  - destruct D as [_ R]. exists false, s. split; [done|]. split; [done|]. intros _. by apply unregistered.
Qed.

(** The lambda goes on: it cancels the event. *)
Lemma fire_inv w fail : call_const → tinv w → einv w →
  ∃ w', fire c fail w = Ret tt w' ∧ tinv w' ∧ einv w' ∧
    ph w' = ph w ∧ results w' = results w ∧ acts w' = acts w ∧ clock w' = clock w ∧
    canceled w' = canceled w ∧ (fail = false → waits c (hio w') (io_fd c) (io_event c) = 0%nat).
Proof.
  intros K T [V1 V2 V3]. destruct (cancelEvent_Ret (hio w) fail K V1) as (b & s' & R & I' & Hw).
  unfold fire. rewrite (bind_Ret _ _ _ _ _ (on_hio_Ret _ _ _ _ R)).
  destruct K as (Hf & He & _). destruct (cancel_frame c (hio w) s' b _ _ fail V1 (proj1 Hf) He He (proj1 Hf) R V2).
  eexists. split; [done|]. split; [|split; [|by split_and!]].
  - destruct T as [U1 U2 U3 U4 U5 U6 U7 U8 U9 U10]. by split.
  - split; try done. simpl. congruence.
Qed.

(** What others do. *)
Lemma others_timer_inv w o : tinv w → einv w → top_ok (tmr w) o → others_timer c w o →
  ∃ w', (r <- on_tmr (texec o);; mreturn tt) w = Ret tt w' ∧ tinv w' ∧ einv w' ∧
    ph w' = ph w ∧ results w' = results w ∧ acts w' = acts w ∧ clock w' = clock w ∧
    canceled w' = canceled w ∧ firing w' = firing w ∧ hio w' = hio w.
Proof.
  intros T [V1 V2 V3] Hok Ho. destruct (texec_inv _ o (v_timers _ T) Hok) as (r & tm & R & I).
  rewrite (bind_Ret _ _ _ _ _ (on_tmr_Ret _ _ _ _ R)).
  assert (Hheld : ∀ a, held w = Some a → is_Some (heap (tmr w) !! a))
    by (intros a Ha; by apply (held_timer w a (v_held _ T))).
  destruct (others_timer_frame w o r tm (v_timers _ T) (v_private _ T) Hheld Hok Ho R) as (P & Hsame & Hprev).
  eexists. split; [done|]. split; [|split; [by split|by split_and!]].
  split; simpl; try apply T; try done.
  - rewrite Hprev. apply T.
  - pose proof (v_held _ T) as Hs. unfold timer_set, held in *. simpl.
    destruct (ph w) as [| |[a|]|[a|]|[a|]|[a|]| |]; try done; by rewrite Hsame.
  - intros a x Ha Hm. pose proof (P a x Ha Hm) as Hh. rewrite Hsame in Ha by done.
    by apply (v_own _ T a x).
  - intros Hc a Ha. destruct (v_pending _ T Hc a Ha) as [(b & x & Hb & Hx & Hcb)|Hin]; [|by right].
    left. exists b, x. simpl. by rewrite Hsame.
Qed.

Lemma others_event_inv w o : call_const → tinv w → einv w → iop_ok (hio w) o → others_event c o →
  ∃ w', (r <- on_hio (iexec o);; mreturn tt) w = Ret tt w' ∧ tinv w' ∧ einv w' ∧
    ph w' = ph w ∧ results w' = results w ∧ acts w' = acts w ∧ clock w' = clock w ∧
    canceled w' = canceled w ∧ firing w' = firing w ∧ tmr w' = tmr w ∧ taken w' = taken w.
Proof.
  intros (Hf & He & _) T [V1 V2 V3] Hok Ho. destruct (iop_ok_args _ o Hok) as [Ha Hs].
  destruct (iexec_inv _ o V1 Ha Hs) as (r & s' & R & I).
  rewrite (bind_Ret _ _ _ _ _ (on_hio_Ret _ _ _ _ R)).
  destruct (others_frame c (hio w) o r s' (proj1 Hf) He V1 Hok Ho R V2).
  eexists. split; [done|]. split; [|split; [|by split_and!]].
  - destruct T as [U1 U2 U3 U4 U5 U6 U7 U8 U9 U10]. by split.
  - split; try done. simpl. congruence.
Qed.

Lemma tick_inv w now : tinv w → einv w → clock w ≤ now → now + timeout < 2 ^ 64 →
  tinv (set_clock now w) ∧ einv (set_clock now w).
Proof.
  intros [U1 U2 U3 U4 U5 U6 U7 U8 U9 U10] [V1 V2 V3] Hle Hb.
  split; split; simpl; try done; try lia.
  - intros a x Ha Hm. destruct (U6 a x Ha Hm) as (? & ? & ? & ?). repeat split; try done; [..|lia]; by apply H1.
  - intros cb Hcb Hm. destruct (U7 cb Hcb Hm). split; [done|]. by eapply elapsed_later.
  - intros Hc. destruct (U8 Hc). split; [done|]. by eapply elapsed_later.
Qed.

(** ** The ends of the waits, as [io_loop] is told them *)

Abbreviation loop fuel := (io_loop fuel (io_event c) timeout).
Definition add_acts : list act := if 0 <=? timeout then [AAddTimer timeout] else [].
Definition cancel_acts : list act := if 0 <=? timeout then [ACancelTimer] else [].

Lemma io_loop_mono fuel fuel' rs ws x : (fuel ≤ fuel')%nat → loop fuel rs ws = Some x → loop fuel' rs ws = Some x.
Proof.
  revert fuel' rs ws x. induction fuel as [|fuel IH]; intros [|fuel'] rs ws x Hle; try done; [lia|].
  simpl. destruct (uninterrupted rs) as [[[r calls] rs']|]; [|done]. simpl.
  destruct r as [|e|]; try done. destruct (e =? EAGAIN); [|done]. destruct ws as [|[| |] ws]; try done.
  destruct (io_loop fuel _ _ rs' ws) as [[res al]|] eqn:E; [|done]. rewrite (IH fuel' _ _ _ ltac:(lia) E). done.
Qed.

Lemma io_loop_eintr fuel rs ws res al : loop fuel rs ws = Some (res, al) →
  loop fuel (SErr EINTR :: rs) ws = Some (res, ACall :: al).
Proof.
  destruct fuel as [|fuel]; [done|]. simpl. destruct (uninterrupted rs) as [[[r calls] rs']|]; [|done]. simpl.
  destruct r as [|e|]; try by intros [= <- <-]. destruct (e =? EAGAIN); [|by intros [= <- <-]].
  destruct ws as [|[| |] ws]; try done; try by intros [= <- <-].
  - destruct (io_loop fuel _ _ rs' ws) as [[res' al']|]; [|done]. by intros [= <- <-].
  - destruct (0 <=? timeout); [|done]. by intros [= <- <-].
Qed.

(** The calls of [rs] with the waits of [ws], which take the actions [al],
    bring the loop back to [retry:]. *)
Definition ran (rs : list sysres) (ws : list wake) (al : list act) : Prop :=
  (TimedOut ∉ ws) ∧ (∀ fuel rs' ws' res al', loop fuel rs' ws' = Some (res, al') →
    loop (length rs + fuel)%nat (rs ++ rs') (ws ++ ws') = Some (res, al ++ al')).

Lemma ran_start : ran [] [] [].
Proof. split; [set_solver|done]. Qed.

Lemma ran_more rs ws al rs1 ws1 al1 : ran rs ws al → TimedOut ∉ ws1 →
  (∀ fuel rs' ws' res al', loop fuel rs' ws' = Some (res, al') →
    loop (length rs1 + fuel)%nat (rs1 ++ rs') (ws1 ++ ws') = Some (res, al1 ++ al')) →
  ran (rs ++ rs1) (ws ++ ws1) (al ++ al1).
Proof.
  intros [Hn H] Hn1 H1. split; [set_solver|]. intros fuel rs' ws' res al' E.
  rewrite <-!(assoc_L app), length_app, <-(assoc_L Nat.add). apply H. by apply H1.
Qed.

Lemma ran_eintr rs ws al : ran rs ws al → ran (rs ++ [SErr EINTR]) ws (al ++ [ACall]).
Proof.
  intros H. rewrite <-(app_nil_r ws). apply ran_more; [done|set_solver|]. intros fuel rs' ws' res al' E.
  apply io_loop_eintr. eapply io_loop_mono, E. simpl. lia.
Qed.

Lemma ran_woken rs ws al : ran rs ws al →
  ran (rs ++ [SErr EAGAIN]) (ws ++ [Woken])
    (al ++ ACall :: add_acts ++ [AAddEvent (io_event c); AYield] ++ cancel_acts).
Proof.
  intros H. apply ran_more; [done|set_solver|]. intros fuel rs' ws' res al' E.
  simpl. rewrite E. simpl. unfold add_acts, cancel_acts. by destruct (0 <=? timeout).
Qed.

(** The loop ends with the results [rs1] and the waits [ws1]. *)
Lemma ran_done rs ws al rs1 ws1 res al1 : ran rs ws al → loop 1%nat rs1 ws1 = Some (res, al1) → length rs1 = 1%nat →
  loop (S (length (rs ++ rs1))) (rs ++ rs1) (ws ++ ws1) = Some (res, al ++ al1).
Proof.
  intros [_ H] E Hl. eapply io_loop_mono; [|by apply H]. rewrite length_app, Hl. lia.
Qed.

(** What was done since the function said EAGAIN. *)
Definition local_acts (p : phase) : list act :=
  match p with
  | Armed _ => add_acts
  | Failing _ => add_acts ++ [AAddEvent (io_event c)]
  | Holding _ | Resumed _ => add_acts ++ [AAddEvent (io_event c); AYield]
  | Cancelled => add_acts ++ [AAddEvent (io_event c); AYield] ++ cancel_acts
  | _ => []
  end.

Definition rinv (w : hw) : Prop :=
  match ph w with
  | Calling => ∃ ws, ran (results w) ws (acts w)
  | Done r => ∃ ws, loop (S (length (results w))) (results w) ws = Some (r, acts w) ∧
                (TimedOut ∈ ws → elapsed (clock w))
  | p => ∃ rs ws al, ran rs ws al ∧ results w = rs ++ [SErr EAGAIN] ∧
           acts w = al ++ ACall :: local_acts p
  end.

Lemma rinv_ext w w' : ph w' = ph w → results w' = results w → acts w' = acts w → clock w ≤ clock w' →
  rinv w → rinv w'.
Proof.
  unfold rinv. intros -> -> -> Hle H. destruct (ph w); try done. destruct H as (ws & E & Ht).
  exists ws. split; [done|]. intros Hin. by eapply elapsed_later; [|apply Ht].
Qed.

Record winv (w : hw) : Prop := { v_t : tinv w; v_e : einv w; v_r : rinv w }.

Lemma steady_step w p (f : hw → hw) : tinv w → einv w → holding (ph w) = false → holding p = false →
  held w = None → held (set_ph p w) = None → timer_set (set_ph p (f w)) →
  clock (f w) = clock w → tmr (f w) = tmr w → hio (f w) = hio w → taken (f w) = taken w →
  canceled (f w) = canceled w → firing (f w) = firing w →
  tinv (set_ph p (f w)) ∧ einv (set_ph p (f w)).
Proof.
  intros T E Hp Hp' Hh Hh' Hs E1 E2 E3 E4 E5 E6. split.
  - apply (tinv_ext w); simpl; try done; [by rewrite Hh|].
    intros a Ha. unfold held in Hh'. simpl in Hh'. by destruct Ha as [->| ->].
  - destruct E as [V1 V2 V3]. split; simpl; rewrite ?E3; try done. by rewrite V3, Hp, Hp'.
Qed.

(** At [retry:]. *)
Lemma call_fun_inv w r : winv w → ph w = Calling → ∃ w', call_fun r w = Ret tt w' ∧ winv w'.
Proof.
  intros [T E R] Hp. unfold rinv in R. rewrite Hp in R. destruct R as [ws R].
  assert (Hstay : ∀ p, p = Calling ∨ p = Again ∨ returned p = true →
    tinv (set_ph p (log_result r w)) ∧ einv (set_ph p (log_result r w))).
  { intros p Hp'. apply steady_step; try done; unfold held, timer_set; simpl; rewrite ?Hp; try done;
      by destruct Hp' as [->|[->|?]]; [..|destruct p]. }
  assert (Hdone : loop 1%nat [r] [] = Some (r, [ACall]) →
    rinv (set_ph (Done r) (log_result r w))).
  { intros H1. unfold rinv. simpl. exists (ws ++ []). split; [by apply (ran_done _ _ _ [r] [])|].
    rewrite app_nil_r. intros Hin. by destruct R as [Hn _]. }
  unfold call_fun. rewrite bind_modify.
  assert (Hfin : loop 1%nat [r] [] = Some (r, [ACall]) →
    ∃ w', mmodify (set_ph (Done r)) (log_result r w) = Ret tt w' ∧ winv w').
  { intros H1. eexists. split; [done|]. destruct (Hstay (Done r)); [by right; right|]. split; [done..|by apply Hdone]. }
  destruct r as [n|e|]; [by apply Hfin| |by apply Hfin].
  destruct (Z.eqb_spec e EINTR) as [->|Hi]; [|destruct (Z.eqb_spec e EAGAIN) as [->|Ha]].
  - eexists. split; [done|]. destruct (Hstay Calling) as [T1 E1]; [by left|].
    assert (Heq : set_ph Calling (log_result (SErr EINTR) w) = log_result (SErr EINTR) w)
      by (destruct w; simpl in Hp; by subst). rewrite Heq in T1, E1. split; [done..|].
    unfold rinv. simpl. rewrite Hp. exists ws. by apply ran_eintr.
  - eexists. split; [done|]. destruct (Hstay Again) as [T1 E1]; [by right; left|].
    split; [done..|]. unfold rinv. simpl. by exists (results w), ws, (acts w).
  - apply Hfin. simpl. rewrite (proj2 (Z.eqb_neq _ _) Hi). simpl. by rewrite (proj2 (Z.eqb_neq _ _) Ha).
Qed.

(** [if (tinfo->canceled) ... goto retry;] *)
Lemma test_canceled_inv w : winv w → ph w = Cancelled → ∃ w', test_canceled w = Ret tt w' ∧ winv w' ∧
  ph w' = (if canceled w =? 0 then Calling else Done (SErr (canceled w))) ∧ clock w' = clock w.
Proof.
  intros [T E R] Hp. unfold rinv in R. rewrite Hp in R. destruct R as (rs & ws & al & R & Hr & Ha).
  simpl in Ha. unfold test_canceled. mrun.
  assert (Hstay : ∀ p, p = Calling ∨ returned p = true → tinv (set_ph p w) ∧ einv (set_ph p w)).
  { intros p Hp'. apply (steady_step w p (λ w, w)); try done; unfold held, timer_set; simpl; rewrite ?Hp; try done;
      by destruct Hp' as [->|?]; [|destruct p]. }
  destruct (Z.eqb_spec (canceled w) 0) as [Hc|Hc]; simpl; (eexists; split; [done|split; [|done]]).
  - destruct (Hstay Calling) as [T1 E1]; [by left|]. split; [done..|]. unfold rinv. simpl.
    exists (ws ++ [Woken]). rewrite Hr, Ha. by apply ran_woken.
  - destruct (Hstay (Done (SErr (canceled w)))) as [T1 E1]; [by right|].
    destruct (v_canceled _ T Hc) as [Ee El]. split; [done..|]. unfold rinv. simpl.
    exists (ws ++ [TimedOut]). split; [|done]. rewrite Hr, Ha. apply ran_done; try done.
    destruct El as [El _]. simpl. unfold add_acts, cancel_acts. by rewrite (proj2 (Z.leb_le _ _) El), Ee.
Qed.

(** [addEvent] failed. *)
Lemma failing_inv w t : winv w → ph w = Failing t →
  ∃ w', (cancel_timer t;; mmodify (set_ph (Done SFail))) w = Ret tt w' ∧ winv w'.
Proof.
  intros [T E R] Hp. unfold rinv in R. rewrite Hp in R. destruct R as (rs & ws & al & R & Hr & Ha).
  pose proof (v_held _ T) as Hs. assert (Hs' := Hs). unfold timer_set in Hs'. rewrite Hp in Hs'.
  destruct (cancel_timer_inv w t (Done SFail)) as (w' & Ew & T' & E' & Hp' & Hr' & Hc' & Hk' & Ha');
    try done; [unfold held; by rewrite Hp|by rewrite Hp|intros ->; lia|].
  exists w'. split; [done|]. split; [done..|]. unfold rinv. rewrite Hp', Hr', Ha', Hr, Ha.
  exists (ws ++ [AddFailed]). split; [|intros Hin; destruct R as [Hn _]; set_solver].
  rewrite <-(assoc_L app). apply ran_done; try done. simpl.
  unfold add_acts, cancel_acts. by destruct (0 <=? timeout).
Qed.

Lemma resumed_inv w t : winv w → ph w = Resumed t →
  ∃ w', (cancel_timer t;; mmodify (set_ph Cancelled)) w = Ret tt w' ∧ winv w' ∧ ph w' = Cancelled ∧
    canceled w' = canceled w ∧ clock w' = clock w.
Proof.
  intros [T E R] Hp. unfold rinv in R. rewrite Hp in R. destruct R as (rs & ws & al & R & Hr & Ha).
  pose proof (v_held _ T) as Hs. assert (Hs' := Hs). unfold timer_set in Hs'. rewrite Hp in Hs'.
  destruct (cancel_timer_inv w t Cancelled) as (w' & Ew & T' & E' & Hp' & Hr' & Hc' & Hk' & Ha');
    try done; [unfold held; by rewrite Hp|by rewrite Hp|intros ->; lia|].
  exists w'. split; [done|]. split; [|done]. split; [done..|]. unfold rinv. rewrite Hp', Hr', Ha', Hr, Ha.
  exists rs, ws, al. split; [done|]. split; [done|]. unfold cancel_acts. simpl. rewrite <-(assoc_L app). simpl. by rewrite <-(assoc_L app).
Qed.

(** ** All steps *)

Lemma fiber_step_inv w r a fail : call_const → winv w → hop_ok c w (HFiber r a fail) →
  ∃ w', fiber_step c r a fail w = Ret tt w' ∧ winv w'.
Proof.
  intros K W Hok. simpl in Hok. unfold fiber_step. mrun. pose proof (v_r _ W) as R. unfold rinv in R.
  destruct (ph w) as [| |t|t|t|t| |r'] eqn:Hp.
  - by apply call_fun_inv.
  - destruct (add_timer_inv w a K (v_t _ W) (v_e _ W) Hp Hok) as (w' & Ew & T & E & Hr & Ha & _ & Hp').
    exists w'. split; [done|]. split; [done..|]. destruct R as (rs & ws & al & R & R1 & R2).
    destruct Hp' as [t Hp']. unfold rinv. rewrite Hp'. exists rs, ws, al. split; [done|].
    rewrite Hr, Ha, R2. simpl. split; [done|]. by rewrite <-(assoc_L app).
  - destruct (add_event_inv w t fail K (v_t _ W) (v_e _ W) Hp) as (rt & w' & Ew & T & E & Hr & _ & _ & Hcase).
    exists w'. split; [done|]. split; [done..|]. destruct R as (rs & ws & al & R & R1 & R2). unfold rinv.
    destruct Hcase as [(_ & Hp' & Ha)|(_ & Hp' & Ha)]; rewrite Hp', Hr, Ha, R2; exists rs, ws, al;
      (split; [done|split; [done|]]); simpl; by rewrite <-(assoc_L app).
  - by apply failing_inv.
  - destruct (resume_inv w t (v_t _ W) (v_e _ W) Hp Hok) as (w' & Ew & T & E & Hp' & Hr & _ & _ & Ha).
    exists w'. split; [done|]. split; [done..|]. unfold rinv. by rewrite Hp', Hr, Ha.
  - destruct (resumed_inv w t W Hp) as (w' & Ew & W' & _). by exists w'.
  - destruct (test_canceled_inv w W Hp) as (w' & Ew & W' & _). by exists w'.
  - by exists w.
Qed.

(** Every step that may happen returns, and keeps the invariant. *)
Lemma hexec_inv w o : call_const → winv w → hop_ok c w o → ∃ w', hexec c o w = Ret tt w' ∧ winv w'.
Proof.
  intros K W Hok. pose proof (v_t _ W) as T. pose proof (v_e _ W) as E. pose proof (v_r _ W) as R.
  assert (Hext : ∀ w', tinv w' → einv w' → ph w' = ph w → results w' = results w → acts w' = acts w →
    clock w ≤ clock w' → winv w') by (intros; split; try done; by eapply (rinv_ext w)).
  destruct o as [r a fail|now|nt|i|fail|o|o]; simpl in Hok |- *.
  - by apply fiber_step_inv.
  - destruct Hok. destruct (tick_inv w now); [done..|]. eexists. split; [done|]. by apply Hext.
  - destruct (expire_inv w nt T E) as (w' & cbs & Ew & ? & ? & _ & _ & ? & ? & ? & _ & _ & _ & Hc).
    exists w'. split; [done|]. apply Hext; try done. lia.
  - destruct (run_callback_inv w i T E) as (w' & Ew & ? & ? & ? & ? & ? & _ & Hc & _).
    exists w'. split; [done|]. apply Hext; try done. lia.
  - destruct (fire_inv w fail K T E) as (w' & Ew & ? & ? & ? & ? & ? & Hc & _).
    exists w'. split; [done|]. apply Hext; try done. lia.
  - destruct Hok as [Hok Ho]. destruct (others_timer_inv w o T E Hok Ho) as (w' & Ew & ? & ? & ? & ? & ? & Hc & _).
    exists w'. split; [done|]. apply Hext; try done. lia.
  - destruct Hok as [Hok Ho]. destruct (others_event_inv w o K T E Hok Ho) as (w' & Ew & ? & ? & ? & ? & ? & Hc & _).
    exists w'. split; [done|]. apply Hext; try done. lia.
Qed.
End Waiting.

Lemma reach_const c now w : hreach c now w → call_const c.
Proof. induction 1 as [t s cbs []|]; [by split; [|split]|done]. Qed.

Lemma start_winv c now t s cbs : call_ok c now t s cbs → winv c now (call_start now t s cbs).
Proof.
  intros [Hf He Ht [Hn1 Hn2] [I Hprev] Ie Hq Hw Hl Hc]. split; [split|split|]; simpl; try done; try lia.
  - intros a x Ha Hm. rewrite (Hl a x Ha) in Hm. done.
  - intros a x Ha Hm. rewrite (Hl a x Ha) in Hm. done.
  - intros cb Hcb Hm. rewrite Forall_forall in Hc. by rewrite (Hc cb Hcb) in Hm.
  - intros _ a [?|?]; done.
  - intros k ev Hk Hv _. by apply Hw.
  - unfold inside. simpl. rewrite Hq, Hw by (done || lia). done.
  - exists []. apply ran_start.
Qed.

Lemma hreach_inv c now w : hreach c now w → winv c now w.
Proof.
  induction 1 as [|w w' H IH [o Hok E]]; [by apply start_winv|].
  destruct (hexec_inv c now w o (reach_const c now w H) IH Hok) as (w2 & E2 & W). rewrite E in E2. by simplify_eq.
Qed.

(** ** The theorems *)

(** C18: In every interleaving of a hooked call with the clock, the threads in
    idle(), its lambda and what others do to timers and events, every step
    that may happen returns (no assertion fails, no end() is erased, the fiber
    that goes on is scheduled), and the fiber is in one place: while it waits
    it is either registered for its event or scheduled, once; at all other
    times it is neither, and it is never registered for anything else. Others
    may do whatever respects [hop_ok]: they use their own timers, never delete
    the event this fiber waits for nor register in its name, and no report
    mixes an event that is registered with one that is not any more (which
    trips an assertion, [io_events_safe]). *)
Theorem wait_wakes_once c now w o : hreach c now w → hop_ok c w o →
  (∃ w', hexec c o w = Ret tt w') ∧
  (own c (queued (hio w)) + waits c (hio w) (io_fd c) (io_event c))%nat =
    (if holding (ph w) then 1 else 0)%nat ∧
  ∀ k ev, 0 ≤ k → rw ev → (k, ev) ≠ (io_fd c, io_event c) → waits c (hio w) k ev = 0%nat.
Proof.
  intros H Hok. pose proof (hreach_inv c now w H) as W. split; [|split].
  - destruct (hexec_inv c now w o (reach_const c now w H) W Hok) as (w' & E & _). by exists w'.
  - apply (v_inside _ _ (v_e _ _ _ W)).
  - apply (v_elsewhere _ _ (v_e _ _ _ W)).
Qed.

(** C19: However the waits of a hooked call come about, its results and its
    actions are those that [Hook.io_loop] gives for some ends of the waits,
    and the call has no timeout before the timeout has passed since it began,
    once for the whole call: a callback of an earlier wait that comes late may
    end a later wait early. *)
Theorem wait_refines_loop c now w r : hreach c now w → ph w = Done r →
  ∃ ws, io_loop (S (length (results w))) (io_event c) (io_timeout c) (results w) ws = Some (r, acts w) ∧
    (TimedOut ∈ ws → 0 ≤ io_timeout c ∧ now + io_timeout c ≤ clock w).
Proof.
  intros H Hp. pose proof (v_r _ _ _ (hreach_inv c now w H)) as R. unfold rinv in R. by rewrite Hp in R.
Qed.

(** The steps of the fiber, the clock, the threads in [idle()] and the lambda. *)
Definition within (o : hop) : Prop := match o with HTimer _ | HEvent _ => False | _ => True end.
Inductive lstep (c : iocall) (w w' : hw) : Prop :=
| lstep_intro o : within o → hop_ok c w o → hexec c o w = Ret tt w' → lstep c w w'.

Section Timeout.
Context (c : iocall) (now : Z) (K : call_const c).

Lemma lstep_winv w w' : winv c now w → lstep c w w' → winv c now w'.
Proof.
  intros W [o _ Hok E]. destruct (hexec_inv c now w o K W Hok) as (w2 & E2 & W2). rewrite E in E2. by simplify_eq.
Qed.
Lemma rtc_winv w w' : rtc (lstep c) w w' → winv c now w → winv c now w'.
Proof. induction 1 as [|w w1 w2 Hs _ IH]; [done|]. intros W. apply IH. by eapply lstep_winv. Qed.

(** The timer of a wait expires in time. *)
Lemma lambda_taken w a : winv c now w → ph w = Holding (Some a) → canceled w = 0 →
  clock w + io_timeout c + io_timeout c < 2 ^ 64 →
  ∃ w', rtc (lstep c) w w' ∧ ph w' = Holding (Some a) ∧ canceled w' = 0 ∧ lambda c ∈ taken w' ∧
    clock w' ≤ clock w + io_timeout c.
Proof.
  intros W Hp Hc Hb. pose proof (v_t _ _ _ W) as T. pose proof (v_e _ _ _ W) as E.
  pose proof (v_held _ _ _ T) as Hs. unfold timer_set in Hs. rewrite Hp in Hs. destruct Hs as [Hle _].
  destruct (v_pending _ _ _ T Hc a (or_intror Hp)) as [(b & x & Hh & Hx & Hcb)|Hin];
    [|exists w; split_and!; try done; lia].
  destruct (v_own _ _ _ T b x Hx) as (_ & _ & _ & Hn); [rewrite Hcb; apply mentions_lambda|].
  set (t := Z.max (clock w) (m_next x)).
  destruct (tick_inv c now w t T E) as [T1 E1]; [lia..|].
  destruct (expire_inv c now (set_clock t w) 0 T1 E1)
    as (w' & cbs & Ew & _ & _ & Hcbs & Htk & Hp' & _ & _ & Hc' & _ & _ & Hk').
  exists w'. split_and!.
  - eapply rtc_l; [by apply (lstep_intro c w (set_clock t w) (HTick t)); [|split; lia|]|].
    eapply rtc_l; [|apply rtc_refl]. by apply (lstep_intro c _ _ (HExpire 0)).
  - by rewrite Hp'.
  - by rewrite Hc'.
  - rewrite Htk, Hcbs. apply elem_of_app. right. apply list_elem_of_omap. exists b. split.
    + simpl. apply due_past; [pose proof (v_prev _ _ _ T); lia|]. split; [|unfold next_at; rewrite Hx; lia].
      eapply (inv_armed _ (v_timers _ _ _ T)); [done|by rewrite Hcb].
    + unfold cb_at. simpl. by rewrite Hx.
  - rewrite Hk'. simpl. lia.
Qed.

Lemma own_in q : own c q ≠ 0%nat → ∃ p, p ∈ q ∧ own_task c p = true.
Proof.
  unfold own. intros H. destruct (filter _ q) as [|p l] eqn:E; [done|]. exists p.
  assert (p ∈ filter (λ p, own_task c p = true) q) as Hp by (rewrite E; by left).
  by apply list_elem_of_filter in Hp as [? ?].
Qed.

(** The lambda wakes the fiber. *)
Lemma lambda_wakes w t : winv c now w → ph w = Holding t → canceled w = 0 → lambda c ∈ taken w →
  ∃ w', rtc (lstep c) w w' ∧ ph w' = Holding t ∧ canceled w' = ETIMEDOUT ∧ clock w' = clock w ∧
    ∃ p, p ∈ queued (hio w') ∧ own_task c p = true.
Proof.
  intros W Hp Hc Hin. apply list_elem_of_lookup in Hin as [i Hi].
  destruct (run_callback_inv c now w i (v_t _ _ _ W) (v_e _ _ _ W))
    as (w1 & E1 & T1 & V1 & Hp1 & _ & _ & _ & Hk1 & _ & Hrun & _).
  destruct Hrun as [Hc1 Hf1]; [done|by rewrite Hp|done|].
  destruct (fire_inv c now w1 false K T1 V1) as (w2 & E2 & _ & V2 & Hp2 & _ & _ & Hk2 & Hc2 & Hw2).
  exists w2. split_and!.
  - eapply rtc_l; [by apply (lstep_intro c _ _ (HRun i))|].
    eapply rtc_l; [|apply rtc_refl]. by apply (lstep_intro c _ _ (HFire false)).
  - by rewrite Hp2, Hp1.
  - by rewrite Hc2.
  - by rewrite Hk2.
  - apply own_in. pose proof (v_inside _ _ V2) as Hi2. unfold inside in Hi2.
    rewrite Hw2, Hp2, Hp1, Hp in Hi2 by done. simpl in Hi2. lia.
Qed.

(** The fiber reports what the lambda left. *)
Lemma wakes_reports w t : winv c now w → ph w = Holding t → canceled w ≠ 0 →
  (∃ p, p ∈ queued (hio w) ∧ own_task c p = true) →
  ∃ w', rtc (lstep c) w w' ∧ ph w' = Done (SErr (canceled w)) ∧ clock w' = clock w.
Proof.
  intros W Hp Hc Hq. destruct (resume_inv c now w t (v_t _ _ _ W) (v_e _ _ _ W) Hp Hq)
    as (w1 & E1 & _ & _ & Hp1 & _ & Hc1 & Hk1 & _).
  assert (S1 : lstep c w w1).
  { apply (lstep_intro c _ _ (HFiber SFail 0 false)); [done|simpl; by rewrite Hp|].
    simpl. unfold fiber_step. mrun. by rewrite Hp. }
  pose proof (lstep_winv w w1 W S1) as W1.
  destruct (resumed_inv c now w1 t W1 Hp1) as (w2 & E2 & W2 & Hp2 & Hc2 & Hk2).
  destruct (test_canceled_inv c now w2 W2 Hp2) as (w3 & E3 & _ & Hp3 & Hk3).
  exists w3. split_and!.
  - eapply rtc_l; [exact S1|]. eapply rtc_l; [|eapply rtc_l; [|apply rtc_refl]].
    + apply (lstep_intro c _ _ (HFiber SFail 0 false)); [done|simpl; by rewrite Hp1|].
      simpl. unfold fiber_step. mrun. by rewrite Hp1.
    + apply (lstep_intro c _ _ (HFiber SFail 0 false)); [done|simpl; by rewrite Hp2|].
      simpl. unfold fiber_step. mrun. by rewrite Hp2.
  - rewrite Hp3, Hc2, Hc1. by rewrite (proj2 (Z.eqb_neq _ _) Hc).
  - congruence.
Qed.

(** What is left when the lambda ran before [addEvent]. *)
Record lost (w : hw) : Prop := {
  l_ph : ∃ t, ph w = Holding t;
  l_canceled : canceled w ≠ 0;
  l_firing : firing w = false;
  l_queue : own c (queued (hio w)) = 0%nat;
}.

Definition no_event (o : hop) : Prop := match o with HEvent _ => False | _ => True end.

Lemma lost_step w o w' : winv c now w → lost w → no_event o → hop_ok c w o → hexec c o w = Ret tt w' →
  lost w' ∧ ph w' = ph w ∧ hio w' = hio w.
Proof.
  intros W [[t Hp] Hc Hf Hq] Hn Hok E. pose proof (v_t _ _ _ W) as T. pose proof (v_e _ _ _ W) as V.
  assert (Hkeep : ∀ w2, hexec c o w = Ret tt w2 → ph w2 = ph w → canceled w2 = canceled w →
    firing w2 = firing w → hio w2 = hio w → lost w' ∧ ph w' = ph w ∧ hio w' = hio w).
  { intros w2 E2 H1 H2 H3 H4. rewrite E in E2. injection E2 as <-. split; [|done].
    split; rewrite ?H1, ?H2, ?H3, ?H4; try done. by exists t. }
  destruct o as [r a fail|tk|nt|i|fail|o|o]; simpl in Hok, Hkeep.
  - rewrite Hp in Hok. destruct Hok as (p & Hin & Hown). exfalso. unfold own in Hq.
    apply nil_length_inv in Hq. assert (p ∈ filter (λ p, own_task c p = true) (queued (hio w))) as H1
      by (by apply list_elem_of_filter). rewrite Hq in H1. by apply elem_of_nil in H1.
  - by apply (Hkeep (set_clock tk w)).
  - destruct (expire_inv c now w nt T V) as (w2 & cbs & E2 & _ & _ & _ & _ & ? & _ & _ & ? & ? & ? & _).
    by apply (Hkeep w2).
  - destruct (run_callback_inv c now w i T V) as (w2 & E2 & _ & _ & ? & _ & _ & ? & _ & _ & _ & Hcc).
    destruct (Hcc Hc). by apply (Hkeep w2).
  - congruence.
  - destruct Hok as [Hok Ho]. destruct (others_timer_inv c now w o T V Hok Ho)
      as (w2 & E2 & _ & _ & ? & _ & _ & _ & ? & ? & ?). by apply (Hkeep w2).
  - done.
Qed.
End Timeout.

(** Steps that are no event: everything else may happen. *)
Inductive nstep (c : iocall) (w w' : hw) : Prop :=
| nstep_intro o : no_event o → hop_ok c w o → hexec c o w = Ret tt w' → nstep c w w'.

(** C20: A fiber that waits with a timeout, and whose lambda has not run yet, gets
    its timeout from its own timer alone: the clock, a thread in idle(), the
    lambda and a worker suffice to let the call return ETIMEDOUT, at most the
    timeout from now, whatever happened before. *)
Theorem wait_times_out c now w a : hreach c now w → ph w = Holding (Some a) → canceled w = 0 →
  clock w + io_timeout c + io_timeout c < 2 ^ 64 →
  ∃ w', rtc (lstep c) w w' ∧ ph w' = Done (SErr ETIMEDOUT) ∧ clock w' ≤ clock w + io_timeout c.
Proof.
  intros H Hp Hc Hb. pose proof (reach_const c now w H) as K. pose proof (hreach_inv c now w H) as W.
  destruct (lambda_taken c now w a W Hp Hc Hb) as (w1 & R1 & Hp1 & Hc1 & Hin & Hk1).
  pose proof (rtc_winv c now K w w1 R1 W) as W1.
  destruct (lambda_wakes c now K w1 _ W1 Hp1 Hc1 Hin) as (w2 & R2 & Hp2 & Hc2 & Hk2 & Hq).
  pose proof (rtc_winv c now K w1 w2 R2 W1) as W2.
  destruct (wakes_reports c now K w2 _ W2 Hp2) as (w3 & R3 & Hp3 & Hk3); [by rewrite Hc2|done|].
  exists w3. split; [by transitivity w1; [|transitivity w2]|]. rewrite Hp3, Hc2. split; [done|lia].
Qed.

(** C21: When the lambda has run before addEvent registers the fiber, its
    cancelEvent finds nothing and the wait has no timeout any more: whatever
    the clock, the timers, the threads in idle() and the fiber's own
    statements do, the fiber stays registered and is not scheduled until an event or a
    cancellation by others comes, however much later that is. *)
Theorem wait_timeout_lost c now w w' : hreach c now w → lost c w → rtc (nstep c) w w' →
  ph w' = ph w ∧ hio w' = hio w ∧ own c (queued (hio w')) = 0%nat ∧
  waits c (hio w') (io_fd c) (io_event c) = 1%nat.
Proof.
  intros H L R. pose proof (reach_const c now w H) as K. pose proof (hreach_inv c now w H) as W. clear H.
  induction R as [w|w w1 w2 [o Hn Hok E] _ IH].
  - split; [done|]. split; [done|]. split; [apply L|]. pose proof (v_inside _ _ (v_e _ _ _ W)) as Hi.
    destruct (l_ph _ _ L) as [t Hp]. unfold inside in Hi. rewrite (l_queue _ _ L), Hp in Hi. done.
  - destruct (lost_step c now w o w1 W L Hn Hok E) as (L1 & <- & <-). apply IH; [done|].
    destruct (hexec_inv c now w o K W Hok) as (w3 & E3 & W3). rewrite E in E3. by simplify_eq.
Qed.

(** ** A call of recv with a timeout of 100 ms, at 1000 *)

Definition demo_call : iocall := mkCall 1 7 5 READ 100 64 3.
Definition demo_start : hw := call_start 1000 (TimerManager_new 1000) IOScheduler_new [].

Definition after (o : hop) (w : hw) : hw := match hexec demo_call o w with Ret _ w' => w' | _ => w end.

Lemma demo_start_reach : hreach demo_call 1000 demo_start.
Proof.
  apply hreach_start. split; simpl; try done; try lia; try (by left).
  - split; [apply TimerManager_new_inv|simpl; lia].
  - apply IOScheduler_new_inv.
  - intros k ev Hk Hv. apply unregistered; [apply IOScheduler_new_inv|done|].
    unfold ctx_at. destruct (m_fd_contexts IOScheduler_new !! Z.to_nat k) as [x|] eqn:E; [|by destruct Hv as [->| ->]].
    change (m_fd_contexts IOScheduler_new) with (new_ctx <$> seq 0 32) in E.
    apply list_lookup_fmap_Some in E as (i & -> & _).
    by destruct Hv as [->| ->].
Qed.

Lemma reach_after o w : hreach demo_call 1000 w → hop_ok demo_call w o → hreach demo_call 1000 (after o w).
Proof.
  intros H Hok. destruct (hexec_inv demo_call 1000 w o (reach_const _ _ _ H) (hreach_inv _ _ _ H) Hok) as (w' & E & _).
  unfold after. rewrite E. eapply hreach_step; [done|]. by apply (hstep_intro _ _ _ o).
Qed.

Definition again : hop := HFiber (SErr EAGAIN) 16 false.

(** It waits. *)
Definition demo_waiting : hw := after again (after again (after again demo_start)).
Lemma demo_waiting_reach : hreach demo_call 1000 demo_waiting.
Proof. repeat (apply reach_after; [|done]). apply demo_start_reach. Qed.

(** The timer expires before the call to [addEvent]. *)
Definition demo_late : hw :=
  after again (after (HFire false) (after (HRun 0) (after (HExpire 0) (after (HTick 1100) (after again (after again demo_start)))))).
Lemma demo_late_reach : hreach demo_call 1000 demo_late.
Proof. repeat (apply reach_after; [|by vm_compute]). apply demo_start_reach. Qed.

(** It waited in vain. *)
Definition demo_done : hw :=
  after again (after again (after again (after (HFire false) (after (HRun 0) (after (HExpire 0) (after (HTick 1100) demo_waiting)))))).
Lemma demo_done_reach : hreach demo_call 1000 demo_done.
Proof.
  do 2 (apply reach_after; [|by vm_compute]). apply reach_after; [|].
  - do 4 (apply reach_after; [|by vm_compute]). apply demo_waiting_reach.
  - vm_compute. exists (1, Task_of_fiber (Some 7) (-1)). split; [by left|done].
Qed.

Lemma wait_wakes_once_witness :
  (∃ w', hexec demo_call (HTick 1100) demo_waiting = Ret tt w') ∧
  (own demo_call (queued (hio demo_waiting)) + waits demo_call (hio demo_waiting) 5 READ)%nat =
    (if holding (ph demo_waiting) then 1 else 0)%nat ∧
  ∀ k ev, 0 ≤ k → rw ev → (k, ev) ≠ (5, READ) → waits demo_call (hio demo_waiting) k ev = 0%nat.
Proof. apply (wait_wakes_once demo_call 1000); [apply demo_waiting_reach|done]. Defined.

Lemma wait_refines_loop_witness :
  ∃ ws, io_loop (S (length (results demo_done))) READ 100 (results demo_done) ws =
      Some (SErr ETIMEDOUT, acts demo_done) ∧ (TimedOut ∈ ws → 0 ≤ 100 ∧ 1000 + 100 ≤ clock demo_done).
Proof. apply (wait_refines_loop demo_call 1000); [apply demo_done_reach|done]. Defined.

Lemma wait_times_out_witness :
  ∃ w', rtc (lstep demo_call) demo_waiting w' ∧ ph w' = Done (SErr ETIMEDOUT) ∧
    clock w' ≤ clock demo_waiting + 100.
Proof. apply (wait_times_out demo_call 1000 demo_waiting 16); [apply demo_waiting_reach|done..]. Defined.

Lemma wait_timeout_lost_witness :
  let w' := after (HTick 1000000) demo_late in
  ph w' = ph demo_late ∧ hio w' = hio demo_late ∧ own demo_call (queued (hio w')) = 0%nat ∧
  waits demo_call (hio w') 5 READ = 1%nat.
Proof.
  intros w'. apply (wait_timeout_lost demo_call 1000 demo_late w').
  - apply demo_late_reach.
  - split; [by exists (Some 16)|by vm_compute..].
  - eapply rtc_l; [|apply rtc_refl]. by apply (nstep_intro _ _ _ (HTick 1000000)).
Defined.
