(* ===== verification/HookSleep.v ===== *)
(** * Sleeping fibers (hook/hook.cpp: sleep, usleep, nanosleep)

    [Hook.sleep_with] says that a sleep adds a timer and yields. Here the
    fibers sleep on the timers themselves: any number of them, each with the
    timer whose callback schedules it, next to the threads in [idle()] that
    take expired timers, the workers that run callbacks and fibers, and
    others that use the timers. *)

From S2P Require Import Prelude Scheduler Timer Hook.
#[local] Open Scope Z_scope.

(** Where a fiber is in its sleep: the clock when it began, the period of its
    timer and the address of that. *)
Inductive nap :=
| Arming (since ms timer : Z)   (* behind addTimer, before the yield *)
| Held (since ms timer : Z).    (* in yieldToHold *)

(** [naps] are the fibers that sleep. [taken] are the callbacks that
    [getExpiredCbsList] took and no thread has run yet, [ready] the fibers
    that [schedule(fiber, -1)] put into the queue. *)
Record sleepers := mkSleepers {
  now : Z;
  tmr : TimerManager;
  taken : list callback;
  ready : list Z;
  naps : gmap Z nap;
}.

(** The object that [std::bind(schedule, ios, fiber, -1)] makes for fiber [f]. *)
Definition bind_schedule (f : Z) : callback := Plain f.

Definition set_tmr (t : TimerManager) (w : sleepers) : sleepers :=
  mkSleepers (now w) t (taken w) (ready w) (naps w).
Definition set_now (t : Z) (w : sleepers) : sleepers :=
  mkSleepers t (tmr w) (taken w) (ready w) (naps w).
Definition set_naps (m : gmap Z nap) (w : sleepers) : sleepers :=
  mkSleepers (now w) (tmr w) (taken w) (ready w) m.

Definition on_tmr {A} (m : M TimerManager A) : M sleepers A := λ w,
  match m (tmr w) with
  | Ret a t => Ret a (set_tmr t w)
  | Throw e t => Throw e (set_tmr t w)
  | Fault f => Fault f
  end.

(** [ios->addTimer(ms, std::bind(...), false)]: fiber [f] has just been given
    the period [ms]; [a] is the address of the timer. The pointer to it is dropped. *)
Definition begin_sleep (f ms a : Z) : M sleepers unit :=
  w <- mget;;
  on_tmr (addTimer (now w) a ms (Some (bind_schedule f)) false);;
  mmodify (λ w', set_naps (<[f := Arming (now w) ms a]> (naps w')) w').

(** The three hooks, which differ in the period. *)
Inductive request := Seconds (seconds : Z) | Usec (usec : Z) | Timespec (tv_sec tv_nsec : Z).
Definition period (r : request) : Z :=
  match r with
  | Seconds s => sleep_ms s
  | Usec u => usleep_ms u
  | Timespec s n => nanosleep_ms s n
  end.

(** [yieldToHold] *)
Definition hold (f : Z) : M sleepers unit :=
  mmodify (λ w, match naps w !! f with
                | Some (Arming s ms a) => set_naps (<[f := Held s ms a]> (naps w)) w
                | _ => w
                end).

(** A worker takes the task of [f] and switches to it: the sleep returns 0. *)
Fixpoint remove_first (f : Z) (l : list Z) : list Z :=
  match l with
  | [] => []
  | x :: l' => if x =? f then l' else x :: remove_first f l'
  end.
Definition wake (f : Z) : M sleepers unit :=
  w <- mget;;
  if bool_decide (f ∈ ready w) then
    mput (mkSleepers (now w) (tmr w) (taken w) (remove_first f (ready w)) (delete f (naps w)))
  else mfault ForeignSwitch.

(** A thread in [idle()] takes the expired callbacks and schedules them. *)
Definition expire (nt : Z) : M sleepers unit :=
  w <- mget;;
  cbs <- on_tmr (getExpiredCbsList (now w) nt);;
  mmodify (λ w, mkSleepers (now w) (tmr w) (taken w ++ omap id cbs) (ready w) (naps w)).

(** A worker runs the [i]-th of them. [fibers] are the fibers, the other names
    belong to callbacks that schedule none of them. *)
Definition run_callback (fibers : Z → bool) (alive : Z → bool) (i : nat) : M sleepers unit :=
  mmodify (λ w,
    match taken w !! i with
    | None => w
    | Some cb =>
        mkSleepers (now w) (tmr w) (delete i (taken w))
          (ready w ++ match call alive cb with
                      | Ran ids => filter (λ f, fibers f = true) ids
                      | BadFunctionCall => []
                      end) (naps w)
    end).

Definition sleepers_start (t : Z) (tm : TimerManager) : sleepers := mkSleepers t tm [] [] ∅.
