(* ===== verification/HookSleepSpec.v ===== *)
(** * What a sleeping fiber may rely on

    Every interleaving of sleeping fibers with the clock, the threads in
    [idle()], the workers and others that use the timers: a sleeping fiber
    has one wake-up, in its timer, on its way, or in the queue; it is not
    there too early and it does not get lost. *)

From stdpp Require Import relations.
From S2P Require Import Prelude Scheduler Timer TimerSpec TimerUse Hook HookSleep.
#[local] Open Scope Z_scope.

Inductive sop :=
| SSleep (f : Z) (r : request) (a : Z)
| SHold (f : Z)
| SWake (f : Z)
| STick (t : Z)
| SExpire (nt : Z)
| SRun (i : nat)
| STimer (o : top).

Section Sleep.
(** The names of fibers among those of callbacks, and which weak pointers of
    other callbacks are alive. *)
Context (fibers : Z → bool) (alive : Z → bool).

Definition sexec (o : sop) : M sleepers unit :=
  match o with
  | SSleep f r a => begin_sleep f (period r) a
  | SHold f => hold f
  | SWake f => wake f
  | STick t => mmodify (set_now t)
  | SExpire nt => expire nt
  | SRun i => run_callback fibers alive i
  | STimer o => r <- on_tmr (texec o);; mreturn tt
  end.

(** Nobody else holds a pointer to the timer of a sleep or schedules its fiber. *)
Definition others_timer (w : sleepers) (o : top) : Prop :=
  is_expired o = false ∧ (∀ f, fibers f = true → may_fire f (new_cb o) = false) ∧
  match o with
  | TCancel a | TRefresh _ a | TReset _ a _ _ =>
      ∀ f x, fibers f = true → heap (tmr w) !! a = Some x → may_fire f (m_cb x) = false
  | _ => True
  end.

(** What may happen: a fiber that runs goes to sleep, one that holds goes on
    when it is in the queue, the clock does not go back. *)
Definition sop_ok (w : sleepers) (o : sop) : Prop :=
  match o with
  | SSleep f r a => fibers f = true ∧ naps w !! f = None ∧ heap (tmr w) !! a = None ∧
      0 ≤ period r ∧ now w + period r < 2 ^ 64
  | SWake f => fibers f = true ∧ f ∈ ready w ∧ ∃ s ms a, naps w !! f = Some (Held s ms a)
  | STick t => now w ≤ t
  | STimer o => top_ok (tmr w) o ∧ others_timer w o
  | _ => True
  end.

(** At the start no fiber sleeps, and no timer schedules one. *)
Definition start_ok (t : Z) (tm : TimerManager) : Prop :=
  0 ≤ t ∧ Timer.inv tm ∧ m_previous_time tm ≤ t ∧
  ∀ f a x, fibers f = true → heap tm !! a = Some x → may_fire f (m_cb x) = false.

Inductive sstep (w w' : sleepers) : Prop :=
| sstep_intro o : sop_ok w o → sexec o w = Ret tt w' → sstep w w'.
Inductive sreach : sleepers → Prop :=
| sreach_start t tm : start_ok t tm → sreach (sleepers_start t tm)
| sreach_step w w' : sreach w → sstep w w' → sreach w'.

(** ** Where the wake-up of a fiber is *)

Definition in_taken (f : Z) (w : sleepers) : nat := length (filter (λ cb, mentions f cb = true) (taken w)).
Definition in_ready (f : Z) (w : sleepers) : nat := length (filter (λ x, x = f) (ready w)).
Definition no_timer (f : Z) (w : sleepers) : Prop :=
  ∀ a x, heap (tmr w) !! a = Some x → may_fire f (m_cb x) = false.

Definition nap_timer (n : nap) : Z := match n with Arming _ _ a | Held _ _ a => a end.
Definition nap_end (n : nap) : Z := match n with Arming s ms _ | Held s ms _ => s + ms end.

(** Its timer is armed for the end of the sleep, and no other is. *)
Definition has_timer (f : Z) (n : nap) (w : sleepers) : Prop :=
  (∃ x, heap (tmr w) !! nap_timer n = Some x ∧ m_cb x = Some (bind_schedule f) ∧ m_is_loop x = false ∧
    m_next x = nap_end n) ∧
  ∀ b x, heap (tmr w) !! b = Some x → may_fire f (m_cb x) = true → b = nap_timer n.

Definition one_wakeup (f : Z) (w : sleepers) : Prop :=
  match naps w !! f with
  | None => no_timer f w ∧ in_taken f w = 0%nat ∧ in_ready f w = 0%nat
  | Some n =>
      (has_timer f n w ∧ in_taken f w = 0%nat ∧ in_ready f w = 0%nat) ∨
      (no_timer f w ∧ (in_taken f w + in_ready f w)%nat = 1%nat ∧ nap_end n ≤ now w)
  end.

Record sinv (w : sleepers) : Prop := {
  s_timers : Timer.inv (tmr w);
  s_now : 0 ≤ now w ∧ m_previous_time (tmr w) ≤ now w;
  s_taken : ∀ cb f, cb ∈ taken w → fibers f = true → mentions f cb = true → cb = bind_schedule f;
  s_fibers : ∀ f, fibers f = true → one_wakeup f w;
}.

Lemma mentions_bind f g : mentions f (bind_schedule g) = true ↔ g = f.
Proof. simpl. by rewrite Z.eqb_eq. Qed.

Lemma sleep_on_tmr_Ret {A} (m : M TimerManager A) w x t : m (tmr w) = Ret x t → on_tmr m w = Ret x (set_tmr t w).
Proof. unfold on_tmr. by intros ->. Qed.

(** Heaps with the same wake-ups. *)
Lemma one_wakeup_heap f w t : one_wakeup f w →
  (∀ a x, heap t !! a = Some x → may_fire f (m_cb x) = true → heap (tmr w) !! a = Some x) →
  (∀ a x, heap (tmr w) !! a = Some x → may_fire f (m_cb x) = true → heap t !! a = Some x) →
  one_wakeup f (set_tmr t w).
Proof.
  unfold one_wakeup. intros H H1 H2.
  assert (Hn : no_timer f w → no_timer f (set_tmr t w)).
  { intros N a x Ha. apply not_true_is_false. intros Hm. simpl in Ha. pose proof (H1 a x Ha Hm) as Hx.
    by rewrite (N a x Hx) in Hm. }
  simpl. destruct (naps w !! f) as [n|]; [|naive_solver].
  destruct H as [[[(x & Hx & Hc & Hl & Hn') Ho] H]|[H ?]]; [left|right; naive_solver].
  split; [|done]. split.
  - exists x. split; [|done]. simpl. apply H2; [done|]. rewrite Hc. by apply mentions_bind.
  - intros b y Hb Hm. by apply (Ho b y (H1 b y Hb Hm)).
Qed.

(** *** Going to sleep *)

Lemma sleep_inv w f ms a : sinv w → fibers f = true → naps w !! f = None → heap (tmr w) !! a = None →
  0 ≤ ms → now w + ms < 2 ^ 64 → ∃ w', begin_sleep f ms a w = Ret tt w' ∧ sinv w'.
Proof.
  intros [I [Hn Hp] Ht Hf] Hff Hnap Ha Hms Hb. unfold begin_sleep. mrun.
  destruct (addTimer_spec (now w) a ms (Some (bind_schedule f)) false _ I Ha) as (l1 & l2 & _ & R & I').
  cbv zeta in R, I'. rewrite (bind_Ret _ _ _ _ _ (sleep_on_tmr_Ret _ _ _ _ R)).
  set (tm := mkTimerManager _ _ _ _ _) in *. eexists. split; [done|].
  assert (Hold : ∀ b x, heap (tmr w) !! b = Some x → heap tm !! b = Some x).
  { intros b x Hx. simpl. rewrite lookup_insert_ne; [done|]. congruence. }
  split; simpl; try done. intros g Hg. destruct (decide (g = f)) as [->|Hne].
  - specialize (Hf f Hff). unfold one_wakeup in *. rewrite Hnap in Hf. simpl. rewrite lookup_insert_eq.
    destruct Hf as (N & H1 & H2). left. split; [|done]. split.
    + exists (Timer_new (now w) ms (Some (bind_schedule f)) false). simpl. rewrite lookup_insert_eq.
      split_and!; try done. apply wrapu_small; [lia|]. unfold urange. lia.
    + intros b x Hx Hm. simpl in Hx. apply lookup_insert_Some in Hx as [[<- _]|[_ Hx]]; [done|].
      by rewrite (N b x Hx) in Hm.
  - assert (H : one_wakeup g (set_tmr tm w)).
    { apply one_wakeup_heap; [by apply Hf| |intros b x Hx _; by apply Hold].
      intros b x Hx Hm. simpl in Hx. apply lookup_insert_Some in Hx as [[_ <-]|[_ Hx]]; [|done].
      simpl in Hm. apply Z.eqb_eq in Hm. congruence. }
    unfold one_wakeup in *. simpl in *. by rewrite lookup_insert_ne by done.
Qed.

Lemma hold_inv w f : sinv w → ∃ w', hold f w = Ret tt w' ∧ sinv w'.
Proof.
  intros [I Hn Ht Hf]. eexists. split; [done|]. destruct (naps w !! f) as [[s ms a|s ms a]|] eqn:E; [|done..].
  split; simpl; try done. intros g Hg. specialize (Hf g Hg). unfold one_wakeup in *. simpl.
  destruct (decide (g = f)) as [->|]; [|by rewrite lookup_insert_ne].
  rewrite lookup_insert_eq. by rewrite E in Hf.
Qed.

(** *** Waking up *)

Lemma remove_first_count f l g : f ∈ l →
  length (filter (λ x, x = g) l) =
  ((if decide (f = g) then 1 else 0) + length (filter (λ x, x = g) (remove_first f l)))%nat.
Proof.
  induction l as [|x l IH]; intros Hf; [by apply elem_of_nil in Hf|]. simpl remove_first. rewrite filter_cons.
  destruct (Z.eqb_spec x f) as [->|Hne].
  - by destruct (decide (f = g)).
  - apply elem_of_cons in Hf as [?|Hf]; [congruence|]. rewrite filter_cons. specialize (IH Hf).
    destruct (decide (x = g)) as [->|]; simpl; [|done]. rewrite IH. by rewrite decide_False.
Qed.

Lemma wake_inv w f s ms a : sinv w → fibers f = true → f ∈ ready w → naps w !! f = Some (Held s ms a) →
  s + ms ≤ now w ∧ ∃ w', wake f w = Ret tt w' ∧ sinv w' ∧ naps w' = delete f (naps w).
Proof.
  intros [I Hn Ht Hf] Hff Hr Hnap. pose proof (remove_first_count f (ready w)) as Hc.
  pose proof (Hf f Hff) as H1. unfold one_wakeup in H1. rewrite Hnap in H1.
  assert (H0 : in_ready f w ≠ 0%nat) by (unfold in_ready; rewrite (Hc f Hr), decide_True by done; lia).
  destruct H1 as [(_ & _ & H1)|(N & H1 & He)]; [by rewrite H1 in H0|]. split; [done|].
  unfold wake. mrun. rewrite bool_decide_eq_true_2 by done. eexists. split; [done|]. split; [|done].
  split; simpl; try done. intros g Hg. specialize (Hf g Hg). unfold one_wakeup in *. simpl.
  specialize (Hc g Hr). unfold in_ready in *. simpl. destruct (decide (g = f)) as [->|Hne].
  - rewrite lookup_delete_eq. rewrite decide_True in Hc by done. split; [done|].
    change (in_taken f (mkSleepers _ _ _ _ _)) with (in_taken f w). lia.
  - rewrite lookup_delete_ne by done. rewrite decide_False in Hc by done. by rewrite Hc in Hf.
Qed.

(** *** The threads in idle(), the workers, the others *)

(** The wake-ups among expired callbacks. *)
Lemma expired_count h f l a : NoDup l → (∀ b x, h !! b = Some x → may_fire f (m_cb x) = true → b = a) →
  length (filter (λ cb, mentions f cb = true) (omap (cb_at h) l)) =
  if decide (a ∈ l ∧ may_fire f (cb_at h a) = true) then 1%nat else 0%nat.
Proof.
  intros ND Ho. assert (Hb : ∀ b, may_fire f (cb_at h b) = true → b = a).
  { intros b. unfold cb_at. destruct (h !! b) as [x|] eqn:E; [|done]. simpl. by apply Ho. }
  induction l as [|b l IH]; [by rewrite decide_False by (by intros [?%elem_of_nil _])|].
  apply NoDup_cons in ND as [Hn ND]. csimpl.
  assert (Hlen : length (filter (λ cb, mentions f cb = true) (match cb_at h b with
    | Some y => y :: omap (cb_at h) l | None => omap (cb_at h) l end)) =
    ((if may_fire f (cb_at h b) then 1 else 0) + length (filter (λ cb, mentions f cb = true) (omap (cb_at h) l)))%nat).
  { destruct (cb_at h b) as [cb|]; [|done]. rewrite filter_cons. simpl. by destruct (mentions f cb). }
  rewrite Hlen, (IH ND). destruct (may_fire f (cb_at h b)) eqn:Hm.
  - pose proof (Hb b Hm) as ->. rewrite decide_False by tauto. rewrite decide_True; [done|]. split; [by left|done].
  - destruct (decide (a ∈ l ∧ _)) as [[H1 H2]|H1].
    + rewrite decide_True; [done|]. split; [by right|done].
    + rewrite decide_False; [done|]. intros [[->|?]%elem_of_cons ?]; [congruence|tauto].
Qed.

Lemma expired_none h f l : (∀ b x, h !! b = Some x → may_fire f (m_cb x) = false) →
  length (filter (λ cb, mentions f cb = true) (omap (cb_at h) l)) = 0%nat.
Proof.
  intros H. rewrite filter_none; [done|]. apply Forall_forall. intros cb Hcb.
  apply list_elem_of_omap in Hcb as (b & _ & Hb). unfold cb_at in Hb.
  destruct (h !! b) as [x|] eqn:E; [|done]. simpl in Hb. pose proof (H b x E) as Hm. rewrite Hb in Hm.
  simpl in Hm. congruence.
Qed.

Definition expired (w : sleepers) (cbs : list callback) (t : TimerManager) : sleepers :=
  mkSleepers (now w) t (taken w ++ cbs) (ready w) (naps w).

(** The wake-up of one fiber through an expiry. *)
Lemma one_wakeup_expire f w tm : one_wakeup f w → Timer.inv (tmr w) → m_previous_time (tmr w) ≤ now w →
  (∀ a, heap tm !! a = if decide (a ∈ due (now w) (tmr w)) then fire (now w) <$> heap (tmr w) !! a
                       else heap (tmr w) !! a) →
  one_wakeup f (expired w (omap (cb_at (heap (tmr w))) (due (now w) (tmr w))) tm).
Proof.
  intros H I Hp Hlook. set (cbs := omap _ _).
  assert (ND : NoDup (due (now w) (tmr w))) by (eapply sorted_NoDup, due_sorted, I).
  assert (Hsub : ∀ a x, heap tm !! a = Some x → may_fire f (m_cb x) = true →
    ∃ y, heap (tmr w) !! a = Some y ∧ may_fire f (m_cb y) = true ∧ (m_is_loop y = false → x = y)).
  { intros a x Ha Hm. rewrite Hlook in Ha. case_decide; [|by exists x].
    apply fmap_Some in Ha as (y & Hy & ->). exists y. split; [done|]. unfold fire in *.
    destruct (m_is_loop y); [by split|done]. }
  assert (Hno : no_timer f w → no_timer f (expired w cbs tm)).
  { intros N a x Ha. apply not_true_is_false. intros Hm. destruct (Hsub a x Ha Hm) as (y & Hy & Hm' & _).
    by rewrite (N a y Hy) in Hm'. }
  assert (Hcount : in_taken f (expired w cbs tm) =
    (in_taken f w + length (filter (λ cb, mentions f cb = true) cbs))%nat)
    by (unfold in_taken; simpl; by rewrite filter_app, length_app).
  unfold one_wakeup in *. simpl naps. rewrite Hcount. change (in_ready f (expired w cbs tm)) with (in_ready f w).
  destruct (naps w !! f) as [n|].
  - destruct H as [[[(x & Hx & Hc & Hl & Hn) Ho] [H1 H2]]|(N & H1 & H2)].
    + unfold cbs. rewrite (expired_count _ _ _ _ ND Ho).
      assert (Hm : may_fire f (cb_at (heap (tmr w)) (nap_timer n)) = true)
        by (unfold cb_at; rewrite Hx; simpl; rewrite Hc; by apply mentions_bind).
      destruct (decide (nap_timer n ∈ due (now w) (tmr w))) as [Hd|Hd].
      * right. rewrite decide_True by done. split; [|split; [lia|]].
        -- intros a y Ha. apply not_true_is_false. intros Hm'. destruct (Hsub a y Ha Hm') as (z & Hz & Hmz & Hlz).
           pose proof (Ho a z Hz Hmz) as ->. simplify_eq. specialize (Hlz Hl). subst y.
           simpl in Ha. rewrite Hlook, decide_True, Hx in Ha by done. simpl in Ha. injection Ha as Ha.
           unfold fire in Ha. rewrite Hl in Ha. by rewrite <-Ha in Hm'.
        -- apply due_past in Hd as [_ Hd]; [|done]. unfold next_at in Hd. rewrite Hx in Hd. simpl. lia.
      * left. rewrite decide_False by tauto. split; [|by rewrite H1, H2]. split.
        -- exists x. split; [|done]. simpl. by rewrite Hlook, decide_False.
        -- intros b y Hb Hmy. destruct (Hsub b y Hb Hmy) as (z & Hz & Hmz & _). by apply (Ho b z).
    + right. split; [by apply Hno|]. unfold cbs. rewrite expired_none by done. split; [lia|done].
  - destruct H as (N & H1 & H2). split; [by apply Hno|]. unfold cbs. rewrite expired_none by done. lia.
Qed.

Lemma sleep_expire_inv w nt : sinv w → ∃ tm cbs, expire nt w = Ret tt (expired w cbs tm) ∧ sinv (expired w cbs tm) ∧
  cbs = omap (cb_at (heap (tmr w))) (due (now w) (tmr w)).
Proof.
  intros [I [Hn Hp] Ht Hf]. destruct (expire_frame (now w) nt _ I Hp) as (cbs & tm & R & I' & Hp' & Ecbs & Hlook).
  exists tm, (omap id cbs). unfold expire. mrun. rewrite (bind_Ret _ _ _ _ _ (sleep_on_tmr_Ret _ _ _ _ R)).
  split; [done|]. split; [|done]. split; simpl; try done.
  - intros cb f Hcb Hff Hm. apply elem_of_app in Hcb as [Hcb|Hcb]; [by apply (Ht cb f)|].
    rewrite Ecbs in Hcb. apply list_elem_of_omap in Hcb as (a & Ha & Hcb). unfold cb_at in Hcb.
    destruct (heap (tmr w) !! a) as [x|] eqn:Hx; [|done]. simpl in Hcb.
    assert (Hmx : may_fire f (m_cb x) = true) by (by rewrite Hcb).
    specialize (Hf f Hff). unfold one_wakeup in Hf.
    destruct (naps w !! f); [destruct Hf as [[[(y & Hy & Hc & _) Ho] _]|[N _]]|destruct Hf as [N _]].
    + pose proof (Ho a x Hx Hmx) as ->. congruence.
    + by rewrite (N a x Hx) in Hmx.
    + by rewrite (N a x Hx) in Hmx.
  - intros f Hff. rewrite Ecbs. apply one_wakeup_expire; auto.
Qed.

Lemma timer_inv w o : sinv w → top_ok (tmr w) o → others_timer w o →
  ∃ w', (r <- on_tmr (texec o);; mreturn tt) w = Ret tt w' ∧ sinv w' ∧ naps w' = naps w.
Proof.
  intros [I [Hn Hp] Ht Hf] Hok (He & Hcb & Ho). destruct (texec_inv _ o I Hok) as (r & tm & R & I').
  destruct (texec_frame _ o r tm I Hok He R) as [Hpt F]. rewrite (bind_Ret _ _ _ _ _ (sleep_on_tmr_Ret _ _ _ _ R)).
  eexists. split; [done|]. split; [|done]. split; simpl; [done|by rewrite Hpt|done|].
  intros f Hff. apply one_wakeup_heap; [by apply Hf|..].
  - intros a x Ha Hm. destruct (top_target o) as [b|] eqn:Et; [|by rewrite F in Ha]. destruct F as [Fo Fa].
    destruct (decide (b = a)) as [<-|]; [|by rewrite Fo in Ha].
    destruct (Fa f x Ha Hm) as [Hc|(y & Hy & Hmy)]; [rewrite Hcb in Hc by done; done|].
    destruct o; simpl in Et, Ho, Hok, R; simplify_eq; try (rewrite (Ho f y Hff Hy) in Hmy; done).
    destruct (m_cb y) eqn:Ey; [|done]. destruct Hok. eapply (inv_armed _ I); [done|by rewrite Ey].
  - intros a x Ha Hm. destruct (top_target o) as [b|] eqn:Et; [|by rewrite F]. destruct F as [Fo Fa].
    destruct (decide (b = a)) as [<-|]; [|by rewrite Fo].
    destruct o; simpl in Et, Ho, Hok; simplify_eq; try (rewrite (Ho f x Hff Ha) in Hm; done).
    destruct (m_cb x) eqn:Ex; [|done]. destruct Hok. eapply (inv_armed _ I); [done|by rewrite Ex].
Qed.

Lemma delete_count {A} (P : A → Prop) `{!∀ x, Decision (P x)} l i x : l !! i = Some x →
  length (filter P l) = ((if decide (P x) then 1 else 0) + length (filter P (delete i l)))%nat.
Proof.
  intros Hi. rewrite (delete_Permutation l i x Hi) at 1. rewrite filter_cons. by destruct (decide (P x)).
Qed.

(** A worker runs a callback: a wake-up among them is put into the queue. *)
Lemma run_inv w i : sinv w → ∃ w', run_callback fibers alive i w = Ret tt w' ∧ sinv w' ∧ naps w' = naps w ∧
  now w' = now w ∧ tmr w' = tmr w ∧
  ∀ f, fibers f = true → taken w !! i = Some (bind_schedule f) → f ∈ ready w'.
Proof.
  intros [I Hn Ht Hf]. eexists. split; [done|].
  destruct (taken w !! i) as [cb|] eqn:Hi; [|by split_and!].
  assert (Hids : ∀ f, fibers f = true →
    length (filter (λ x, x = f) (match call alive cb with Ran ids => filter (λ f, fibers f = true) ids
                                 | BadFunctionCall => [] end)) = if mentions f cb then 1%nat else 0%nat).
  { intros f Hff. destruct (mentions f cb) eqn:Hm.
    - rewrite (Ht cb f) by (done || by eapply list_elem_of_lookup_2). simpl.
      rewrite filter_cons, decide_True by done. by rewrite filter_cons, decide_True.
    - rewrite filter_none; [done|]. destruct (call alive cb) as [ids|] eqn:Ec; [|constructor].
      apply Forall_forall. intros x Hx ->. apply list_elem_of_filter in Hx as [_ Hx].
      rewrite (call_Ran _ _ _ Ec _ Hx) in Hm. done. }
  assert (Hone : ∀ f, (if decide (mentions f cb = true) then 1 else 0)%nat = if mentions f cb then 1%nat else 0%nat)
    by (intros f; by destruct (mentions f cb)).
  split; [split|split; [done|split; [done|split; [done|]]]]; simpl; try done.
  - intros cb' f Hcb. apply Ht. by eapply list_subseteq_delete.
  - intros f Hff. specialize (Hf f Hff). specialize (Hids f Hff). specialize (Hone f).
    pose proof (delete_count (λ cb, mentions f cb = true) (taken w) i cb Hi) as Hd.
    cbv beta in Hd. rewrite Hone in Hd.
    unfold one_wakeup, in_taken, in_ready in *. simpl. rewrite filter_app, length_app, Hids.
    destruct (naps w !! f) as [n|].
    + destruct Hf as [(H & H1 & H2)|(N & H1 & H2)]; [left|right]; (split; [done|]); [|split; [|done]]; lia.
    + destruct Hf as (N & H1 & H2). split; [done|]. lia.
  - intros f Hff [= ->]. simpl. rewrite filter_cons, decide_True by done. apply elem_of_app. right. by left.
Qed.

Lemma sleep_tick_inv w t : sinv w → now w ≤ t → sinv (set_now t w).
Proof.
  intros [I [Hn Hp] Ht Hf] Hle. split; simpl; try done; [lia|]. intros f Hff. specialize (Hf f Hff).
  unfold one_wakeup in *. simpl. destruct (naps w !! f) as [n|]; [|done].
  destruct Hf as [H|(N & H1 & H2)]; [by left|right]. split; [done|]. split; [done|]. simpl. lia.
Qed.

Lemma sexec_inv w o : sinv w → sop_ok w o → ∃ w', sexec o w = Ret tt w' ∧ sinv w'.
Proof.
  intros W Hok. destruct o as [f r a|f|f|t|nt|i|o]; simpl in Hok |- *.
  - destruct Hok as (? & ? & ? & ? & ?). by apply sleep_inv.
  - by apply hold_inv.
  - destruct Hok as (Hff & Hr & s & ms & a & Hn). destruct (wake_inv w f s ms a) as (_ & w' & E & W' & _); eauto.
  - eexists. split; [done|]. by apply sleep_tick_inv.
  - destruct (sleep_expire_inv w nt W) as (tm & cbs & E & W' & _). eauto.
  - destruct (run_inv w i W) as (w' & E & W' & _). eauto.
  - destruct Hok. destruct (timer_inv w o) as (w' & E & W' & _); eauto.
Qed.

Lemma sreach_inv w : sreach w → sinv w.
Proof.
  induction 1 as [t tm (Hn & I & Hp & Hf)|w w' _ IH [o Hok E]].
  - split; simpl; try done; [by intros cb f ?%elem_of_nil|]. intros f Hff.
    unfold one_wakeup. simpl. rewrite lookup_empty. split; [|done]. intros a x. by apply Hf.
  - destruct (sexec_inv w o IH Hok) as (w2 & E2 & W). rewrite E in E2. by simplify_eq.
Qed.
End Sleep.

(** ** The theorems *)

(** C22: In every interleaving of sleeping fibers, the clock, threads in
    idle(), workers, and whatever others do to their own timers, every step
    that may happen returns; a fiber that sleeps has exactly one wake-up,
    either in its timer, which is armed for the end of the sleep, or among the
    expired callbacks, or in the queue, and then the end has come; a fiber
    that does not sleep has none. So no sleep ends early, twice, or in the
    sleep of another fiber. *)
Theorem sleep_wakes_once fibers alive w o : sreach fibers alive w → sop_ok fibers w o →
  (∃ w', sexec fibers alive o w = Ret tt w') ∧
  (∀ f, fibers f = true → one_wakeup f w) ∧
  ∀ f, o = SWake f → ∃ s ms a, naps w !! f = Some (Held s ms a) ∧ s + ms ≤ now w.
Proof.
  intros H Hok. pose proof (sreach_inv fibers alive w H) as W. split; [|split].
  - destruct (sexec_inv fibers alive w o W Hok) as (w' & E & _). by exists w'.
  - apply (s_fibers _ _ W).
  - intros f ->. simpl in Hok. destruct Hok as (Hff & Hr & s & ms & a & Hn). exists s, ms, a. split; [done|].
    by apply (wake_inv fibers w f s ms a).
Qed.

(** The steps of the sleepers and of those that wake them. *)
Definition within (o : sop) : Prop :=
  match o with SWake _ | STick _ | SExpire _ | SRun _ => True | _ => False end.

Section Ends.
Context (fibers : Z → bool) (alive : Z → bool).

Inductive lstep (w w' : sleepers) : Prop :=
| lstep_intro o : within o → sop_ok fibers w o → sexec fibers alive o w = Ret tt w' → lstep w w'.

Lemma filter_nonempty {A} (P : A → Prop) `{!∀ x, Decision (P x)} l : length (filter P l) ≠ 0%nat → ∃ x, x ∈ l ∧ P x.
Proof.
  intros Hl. destruct (filter P l) as [|x r] eqn:E; [done|]. exists x.
  assert (x ∈ filter P l) as Hx by (rewrite E; by left). by apply list_elem_of_filter in Hx as [? ?].
Qed.

(** The timer of a sleep expires in time. *)
Lemma wakeup_comes w f s ms a : sinv fibers w → fibers f = true → naps w !! f = Some (Held s ms a) →
  ∃ w', rtc lstep w w' ∧ sinv fibers w' ∧ naps w' = naps w ∧ now w' = Z.max (now w) (s + ms) ∧
    (bind_schedule f ∈ taken w' ∨ f ∈ ready w').
Proof.
  intros W Hff Hn. set (t := Z.max (now w) (s + ms)).
  assert (S1 : lstep w (set_now t w)) by (apply (lstep_intro _ _ (STick t)); [done|simpl; lia|done]).
  assert (W1 : sinv fibers (set_now t w)) by (apply sleep_tick_inv; [done|lia]).
  pose proof (s_fibers _ _ W1 f Hff) as H. unfold one_wakeup in H. simpl naps in H. rewrite Hn in H.
  destruct H as [[[(x & Hx & Hc & Hl & He) Ho] _]|(N & H1 & He)].
  - destruct (sleep_expire_inv fibers alive (set_now t w) 0 W1) as (tm & cbs & E & W2 & Ecbs).
    exists (expired (set_now t w) cbs tm). split; [|split; [done|split; [done|split; [done|left]]]].
    + eapply rtc_l; [exact S1|]. eapply rtc_l; [|apply rtc_refl]. by apply (lstep_intro _ _ (SExpire 0)).
    + simpl. apply elem_of_app. right. rewrite Ecbs. apply list_elem_of_omap. exists a. simpl in Hx, He. split.
      * apply due_past; [apply W1|]. split; [eapply (inv_armed _ (s_timers _ _ W1)); [done|by rewrite Hc]|].
        unfold next_at. simpl. rewrite Hx. lia.
      * unfold cb_at. simpl. by rewrite Hx.
  - exists (set_now t w). split; [by eapply rtc_l; [|apply rtc_refl]|]. split; [done|]. split; [done|]. split; [done|].
    destruct (in_taken f (set_now t w)) as [|k] eqn:Et.
    + right. destruct (filter_nonempty (λ x, x = f) (ready (set_now t w))) as (x & Hx & ->); [|done].
      unfold in_ready in H1. lia.
    + left. destruct (filter_nonempty (λ cb, mentions f cb = true) (taken (set_now t w))) as (cb & Hcb & Hm).
      { unfold in_taken in Et. by rewrite Et. }
      by rewrite <-(s_taken _ _ W1 cb f Hcb Hff Hm).
Qed.

(** C23: A fiber that sleeps gets up: from every reachable state the clock, a
    thread in idle() and a worker suffice to let its sleep return, with the
    clock at the end of its period (or where it is, when that has passed). *)
Theorem sleep_ends w f s ms a : sreach fibers alive w → fibers f = true → naps w !! f = Some (Held s ms a) →
  ∃ w', rtc lstep w w' ∧ naps w' !! f = None ∧ now w' = Z.max (now w) (s + ms).
Proof.
  intros H Hff Hn. pose proof (sreach_inv fibers alive w H) as W.
  destruct (wakeup_comes w f s ms a W Hff Hn) as (w1 & R1 & W1 & Hn1 & Ht1 & Hin).
  assert (∃ w2, rtc lstep w1 w2 ∧ sinv fibers w2 ∧ naps w2 = naps w1 ∧ now w2 = now w1 ∧ f ∈ ready w2)
    as (w2 & R2 & W2 & Hn2 & Ht2 & Hr).
  { destruct Hin as [Hin|Hin]; [|by exists w1]. apply list_elem_of_lookup in Hin as [i Hi].
    destruct (run_inv fibers alive w1 i W1) as (w2 & E & W2 & Hn2 & Ht2 & _ & Hr). exists w2.
    split; [|split; [done|split; [done|split; [done|by apply Hr]]]].
    eapply rtc_l; [|apply rtc_refl]. by apply (lstep_intro _ _ (SRun i)). }
  rewrite <-Hn1, <-Hn2 in Hn. destruct (wake_inv fibers w2 f s ms a W2 Hff Hr Hn) as (_ & w3 & E3 & _ & Hn3).
  exists w3. split; [|split].
  - transitivity w1; [done|]. transitivity w2; [done|]. eapply rtc_l; [|apply rtc_refl].
    apply (lstep_intro _ _ (SWake f)); [done| |done]. split; [done|]. split; [done|]. by exists s, ms, a.
  - rewrite Hn3. apply lookup_delete_eq.
  - rewrite <-Ht1, <-Ht2. unfold wake, mbind', mget in E3. destruct (bool_decide _); [|done]. by injection E3 as <-.
Qed.
End Ends.

(** ** Two fibers that sleep, one for 2 s and one for 5 ms *)

Definition demo_fibers (f : Z) : bool := (f =? 7) || (f =? 8).
Definition all_alive (_ : Z) : bool := true.
Definition after (o : sop) (w : sleepers) : sleepers :=
  match sexec demo_fibers all_alive o w with Ret _ w' => w' | _ => w end.

Lemma sleep_reach_after o w : sreach demo_fibers all_alive w → sop_ok demo_fibers w o →
  sreach demo_fibers all_alive (after o w).
Proof.
  intros H Hok. destruct (sexec_inv demo_fibers all_alive w o (sreach_inv _ _ _ H) Hok) as (w' & E & _).
  unfold after. rewrite E. eapply sreach_step; [done|]. by apply (sstep_intro _ _ _ _ o).
Qed.

Definition demo_asleep : sleepers :=
  after (SHold 8) (after (SSleep 8 (Usec 5999) 32) (after (SHold 7) (after (SSleep 7 (Seconds 2) 16)
    (sleepers_start 1000 (TimerManager_new 1000))))).
Definition demo_due : sleepers := after (SRun 0) (after (SExpire 0) (after (STick 1005) demo_asleep)).

Lemma demo_asleep_reach : sreach demo_fibers all_alive demo_asleep.
Proof.
  repeat (apply sleep_reach_after; [|by vm_compute]). apply sreach_start.
  split; [lia|]. split; [apply TimerManager_new_inv|]. split; [simpl; lia|done].
Qed.
Lemma demo_due_reach : sreach demo_fibers all_alive demo_due.
Proof. do 3 (apply sleep_reach_after; [|by vm_compute]). apply demo_asleep_reach. Qed.

Lemma sleep_wakes_once_witness :
  (∃ w', sexec demo_fibers all_alive (SWake 8) demo_due = Ret tt w') ∧
  (∀ f, demo_fibers f = true → one_wakeup f demo_due) ∧
  ∀ f, SWake 8 = SWake f → ∃ s ms a, naps demo_due !! f = Some (Held s ms a) ∧ s + ms ≤ now demo_due.
Proof.
  apply sleep_wakes_once; [apply demo_due_reach|]. split; [done|]. split; [by vm_compute; left|].
  by exists 1000, 5, 32.
Defined.

Lemma sleep_ends_witness :
  ∃ w', rtc (lstep demo_fibers all_alive) demo_asleep w' ∧ naps w' !! 7 = None ∧
    now w' = Z.max (now demo_asleep) (1000 + 2000).
Proof. apply (sleep_ends demo_fibers all_alive demo_asleep 7 1000 2000 16); [apply demo_asleep_reach|done..]. Defined.
