(* ===== verification/HookCalls.v ===== *)
(** * The other hooked calls (hook/hook.cpp: fcntl, ioctl, getsockopt, setsockopt, class Hook)

    The variadic calls with every command, on top of the ones [Hook] models
    in full. A [va_list] is the list of the arguments the caller gave and
    whether [va_end] ended it; [va_arg] on an ended list is undefined. The
    kernel's [fcntl] and [ioctl] for the commands that pass through, and the
    memory a pointer argument points to, are arguments. *)

From S2P Require Import Prelude IOScheduler Hook.
#[local] Open Scope Z_scope.

(** ** va_list *)

Record va_list := mkVa { va_left : list Z; va_ended : bool }.
Definition va_start (args : list Z) : va_list := mkVa args false.
Definition va_end (v : va_list) : va_list := mkVa (va_left v) true.
Definition va_arg (v : va_list) : M hookw (Z * va_list) :=
  if va_ended v then mfault Dangling else
  match va_left v with
  | [] => mfault OutOfBounds
  | x :: l => mreturn (x, mkVa l false)
  end.

(** ** The commands (x86-64 Linux) *)

Definition F_DUPFD : Z := 0.
Definition F_GETFD : Z := 1.
Definition F_SETFD : Z := 2.
Definition F_GETFL : Z := 3.
Definition F_SETFL : Z := 4.
Definition F_GETLK : Z := 5.
Definition F_SETLK : Z := 6.
Definition F_SETLKW : Z := 7.
Definition F_SETOWN : Z := 8.
Definition F_GETOWN : Z := 9.
Definition F_SETSIG : Z := 10.
Definition F_GETSIG : Z := 11.
Definition F_SETOWN_EX : Z := 15.
Definition F_GETOWN_EX : Z := 16.
Definition F_SETLEASE : Z := 1024.
Definition F_GETLEASE : Z := 1025.
Definition F_NOTIFY : Z := 1026.
Definition F_DUPFD_CLOEXEC : Z := 1030.
Definition F_SETPIPE_SZ : Z := 1031.
Definition F_GETPIPE_SZ : Z := 1032.

Definition int_commands : list Z :=
  [F_DUPFD; F_DUPFD_CLOEXEC; F_SETFD; F_SETOWN; F_SETSIG; F_SETLEASE; F_NOTIFY; F_SETPIPE_SZ].
Definition plain_commands : list Z := [F_GETFD; F_GETOWN; F_GETSIG; F_GETLEASE; F_GETPIPE_SZ].
Definition lock_commands : list Z := [F_SETLK; F_SETLKW; F_GETLK].
Definition owner_commands : list Z := [F_GETOWN_EX; F_SETOWN_EX].

Definition FIONBIO : Z := 21537.
Definition SOL_SOCKET : Z := 1.
Definition SO_RCVTIMEO : Z := 20.
Definition SO_SNDTIMEO : Z := 21.

Section Calls.
Context (fcntl_f : Z → Z → option Z → M hookw Z) (ioctl_f : Z → Z → Z → M hookw Z).
Context (int_at : Z → option Z).

(** [fcntl(fd, cmd, ...)] *)
Definition h_fcntl (fd cmd : Z) (args : list Z) : M hookw Z :=
  let v := va_start args in
  if cmd =? F_SETFL then a <- va_arg v;; h_fcntl_setfl fd a.1
  else if cmd =? F_GETFL then h_fcntl_getfl fd
  else if bool_decide (cmd ∈ int_commands) then a <- va_arg v;; fcntl_f fd cmd (Some a.1)
  else if bool_decide (cmd ∈ plain_commands) then fcntl_f fd cmd None
  else if bool_decide (cmd ∈ lock_commands) then a <- va_arg (va_end v);; fcntl_f fd cmd (Some a.1)
  else if bool_decide (cmd ∈ owner_commands) then a <- va_arg (va_end v);; fcntl_f fd cmd (Some a.1)
  else fcntl_f fd cmd None.

(** [ioctl(fd, request, ...)] *)
Definition h_ioctl (fd request : Z) (args : list Z) : M hookw Z :=
  a <- va_arg (va_start args);;
  if request =? FIONBIO then
    match int_at a.1 with
    | None => mfault NullDeref
    | Some v => h_ioctl_fionbio fd v
    end
  else ioctl_f fd request a.1.
End Calls.

(** [getsockopt(...)]: [r] is what [getsockopt_f] returns. *)
Definition h_getsockopt (r : sysres) : M hookw sysres := mreturn r.

(** [setsockopt(sockfd, level, optname, optval, optlen)]: [optval] is the
    [timeval] at the pointer, [r] what [setsockopt_f] returns. *)
Definition h_setsockopt (fd level optname : Z) (optval : option (Z * Z)) (r : sysres) : M hookw sysres :=
  w <- mget;;
  if negb (is_enable w) then mreturn r else
  (if (level =? SOL_SOCKET) && ((optname =? SO_RCVTIMEO) || (optname =? SO_SNDTIMEO)) then
     x <- fd_get fd false;;
     match x with
     | None => mreturn tt
     | Some _ =>
         match optval with
         | None => mfault NullDeref
         | Some tv =>
             update_fd fd (setTimeout (if optname =? SO_RCVTIMEO then READ else WRITE)
                             (s64 (tv.1 * 1000 + Z.quot tv.2 1000)))
         end
     end
   else mreturn tt);;
  mreturn r.

(** ** class Hook *)

Definition HOOK_FUN : list string :=
  ["sleep"; "usleep"; "nanosleep"; "socket"; "connect"; "accept"; "bind"; "read"; "readv"; "recv";
   "recvfrom"; "recvmsg"; "write"; "writev"; "send"; "sendto"; "sendmsg"; "close"; "fcntl"; "ioctl";
   "getsockopt"; "setsockopt"]%string.

(** The pointers [name_f], null at first; [dlsym(RTLD_NEXT, name)] is an
    argument, [None] for null. The flag of the constructor stays false. *)
Definition originals := gmap string Z.
Definition Hook_new (dlsym : string → option Z) (p : originals) : originals :=
  foldl (λ p name, match dlsym name with Some a => <[name := a]> p | None => delete name p end) p HOOK_FUN.

(** A call through [name_f]. *)
Definition call_original (p : originals) (name : string) : M hookw Z :=
  match p !! name with Some a => mreturn a | None => mfault NullDeref end.

(** [Hook::enable()] and [Hook::disable()] (the thread's [HookState]). *)
Definition set_enable (b : bool) : M hookw unit :=
  mmodify (λ w, mkHook (m_fds w) (m_size w) (kernel w) b (has_ios w) (cancelled w)).
Definition Hook_enable : M hookw unit := set_enable true.
Definition Hook_disable : M hookw unit := set_enable false.

(** ** What arrives at the kernel *)

(** The third argument of a command, by fcntl(2). *)
Inductive third := TakesInt | TakesPointer | TakesNothing.
Definition documented (cmd : Z) : option third :=
  if bool_decide (cmd ∈ [0; 2; 4; 8; 10; 1024; 1026; 1030; 1031; 1033]) then Some TakesInt
  else if bool_decide (cmd ∈ [1; 3; 9; 11; 1025; 1032; 1034]) then Some TakesNothing
  else if bool_decide (cmd ∈ [5; 6; 7; 15; 16; 36; 37; 38; 1035; 1036; 1037; 1038]) then Some TakesPointer
  else None.
Definition given (k : third) (arg : Z) : list Z := match k with TakesNothing => [] | _ => [arg] end.
Definition wanted (k : third) (arg : Z) : option Z := match k with TakesNothing => None | _ => Some arg end.

(** How far the hook of [fcntl] keeps to it: the commands whose third argument
    it reads behind [va_end], and those it does not know. *)
Inductive handling := Passed | Undefined | Dropped.
Definition handled (cmd : Z) : handling :=
  if bool_decide (cmd ∈ [5; 6; 7; 15; 16]) then Undefined
  else if bool_decide (cmd ∈ [36; 37; 38; 1033; 1035; 1036; 1037; 1038]) then Dropped
  else Passed.

(** C24: Of the documented commands of fcntl, the hook hands those with an int
    or no argument on as they are, except F_ADD_SEALS; reads the pointer of the
    record locks and of the owner from a va_list that it has ended; and drops
    the argument of F_ADD_SEALS, of the open file description locks and of the
    write hints. F_SETFL and F_GETFL on a managed socket show the program the
    flags the kernel would have, while the socket stays non-blocking. *)
Theorem fcntl_dispatch fcntl_f fd :
  (∀ cmd k arg w, documented cmd = Some k → cmd ≠ F_SETFL → cmd ≠ F_GETFL →
    h_fcntl fcntl_f fd cmd (given k arg) w =
      match handled cmd with
      | Passed => fcntl_f fd cmd (wanted k arg) w
      | Undefined => Fault Dangling
      | Dropped => fcntl_f fd cmd None w
      end) ∧
  ∀ w f kf arg, hooked w → obj w fd = Some f → isSocket f = true → kernel w !! fd = Some kf →
    ∃ w', h_fcntl fcntl_f fd F_SETFL [arg] w = Ret 0 w' ∧
      h_fcntl fcntl_f fd F_GETFL [] w' = Ret (setfl_flags (k_flags kf) arg) w' ∧
      ∃ kf', kernel w' !! fd = Some kf' ∧ nonblock (k_flags kf') = true.
Proof.
  split.
  - intros cmd k arg w Hd H4 H3. unfold documented in Hd.
    repeat match type of Hd with
    | (if bool_decide (_ ∈ ?l) then _ else _) = _ =>
        destruct (bool_decide_reflect (cmd ∈ l)) as [Hin|_];
        [injection Hd as <-;
         repeat (apply elem_of_cons in Hin as [->|Hin]; [first [done|by destruct H4|by destruct H3]|]);
         by apply elem_of_nil in Hin|]
    end. done.
  - intros w f kf arg Hw Hf Hs Hk. destruct (fcntl_transparent w fd f kf arg Hw Hf Hs Hk) as (w' & E1 & E2 & K & _).
    exists w'. by split_and!.
Qed.

(** Record locks, a status flag and a duplicate on the demo thread of [Hook]. *)
Lemma fcntl_dispatch_witness :
  let f := λ (fd cmd : Z) (arg : option Z), mreturn (default (-1) arg) in
  (h_fcntl f 7 F_SETLK [4096] demo = Fault Dangling ∧ h_fcntl f 7 F_DUPFD [10] demo = Ret 10 demo ∧
   h_fcntl f 7 F_GETFD [] demo = Ret (-1) demo ∧ h_fcntl f 7 1033 [8] demo = Ret (-1) demo) ∧
  ∃ w', h_fcntl f 7 F_SETFL [1026] demo = Ret 0 w' ∧ h_fcntl f 7 F_GETFL [] w' = Ret 1026 w' ∧
    ∃ kf', kernel w' !! 7 = Some kf' ∧ nonblock (k_flags kf') = true.
Proof.
  intros f. destruct (fcntl_dispatch f 7) as [H1 H2]. split; [split_and!|].
  - exact (H1 F_SETLK TakesPointer 4096 demo eq_refl ltac:(done) ltac:(done)).
  - exact (H1 F_DUPFD TakesInt 10 demo eq_refl ltac:(done) ltac:(done)).
  - exact (H1 F_GETFD TakesNothing 0 demo eq_refl ltac:(done) ltac:(done)).
  - exact (H1 1033 TakesInt 8 demo eq_refl ltac:(done) ltac:(done)).
  - exact (H2 demo (mkFd 7 true true true false false 3500 (-1)) (mkKfd true 2050) 1026
      (hooked_run _ _ (hooked_init 4 ltac:(lia)) (run_checked_rtc _ _ _ demo_run))
      ltac:(vm_compute; reflexivity) ltac:(reflexivity) ltac:(vm_compute; reflexivity)).
Defined.

(** setsockopt returns what the kernel said. It changes nothing but the
    timeouts of a managed descriptor, which it stores also when the kernel
    refused them, and a null pointer is read only for these. *)
Theorem setsockopt_dispatch w fd level optname optval r : hooked w → 0 ≤ fd →
  let timeo := (level =? SOL_SOCKET) && ((optname =? SO_RCVTIMEO) || (optname =? SO_SNDTIMEO)) in
  h_setsockopt fd level optname optval r w =
    match obj w fd, optval with
    | Some f, Some tv =>
        if timeo then Ret r (with_obj fd (Some (setTimeout (if optname =? SO_RCVTIMEO then READ else WRITE)
          (s64 (tv.1 * 1000 + Z.quot tv.2 1000)) f)) w)
        else Ret r w
    | Some f, None => if timeo then Fault NullDeref else Ret r w
    | None, _ => Ret r w
    end.
Proof.
  intros (W & He & Hi) H0 timeo. unfold h_setsockopt. mrun. rewrite He. cbn [negb]. fold timeo.
  destruct timeo; [|by destruct (obj w fd), optval].
  unfold mbind' at 1. mstep (fd_get_spec fd w W H0).
  destruct (obj w fd) as [f|] eqn:Ef; [|done]. destruct optval as [tv|]; [|done].
  by rewrite (update_fd_spec fd _ w f Ef).
Qed.

(** The constructor looks up every name, so that a call of a name that
    [dlsym] did not find goes through a null pointer; a second construction
    changes nothing. *)
Lemma Hook_new_lookup dlsym p name :
  Hook_new dlsym p !! name = if decide (name ∈ HOOK_FUN) then dlsym name else p !! name.
Proof.
  unfold Hook_new. generalize HOOK_FUN. intros l. revert p. induction l as [|x l IH]; intros p; [done|].
  cbn [foldl]. rewrite IH. destruct (decide (name ∈ l)) as [H|H].
  - by rewrite decide_True by (by right).
  - destruct (decide (name = x)) as [->|Hne].
    + rewrite decide_True by (by left). destruct (dlsym x); [apply lookup_insert_eq|apply lookup_delete_eq].
    + rewrite decide_False by (by intros [?|?]%elem_of_cons).
      destruct (dlsym x); [by apply lookup_insert_ne|by apply lookup_delete_ne].
Qed.

Theorem hook_originals dlsym p : Hook_new dlsym (Hook_new dlsym p) = Hook_new dlsym p ∧
  ∀ name w, name ∈ HOOK_FUN → call_original (Hook_new dlsym p) name w =
    match dlsym name with Some a => Ret a w | None => Fault NullDeref end.
Proof.
  split.
  - apply map_eq. intros name. rewrite !Hook_new_lookup. by case_decide.
  - intros name w Hin. unfold call_original. rewrite Hook_new_lookup, decide_True by done. by destruct (dlsym name).
Qed.
