(* ===== verification/Address.v ===== *)
(** * Network addresses (net/address.h, net/address.cpp, the Linux branch)

    Addresses are the C structures the sockets API takes; a field the API
    keeps in network byte order holds the integer the host reads there. The
    lookups of the C library ([getaddrinfo], [getifaddrs], [inet_pton]) are
    arguments: what they returned. Text written to a stream is a string. *)

From Stdlib Require Import Ascii String.
From stdpp Require Import pretty.
From S2P Require Import Prelude Codec.
#[local] Open Scope Z_scope.

Definition AF_UNSPEC : Z := 0.
Definition AF_UNIX : Z := 1.
Definition AF_INET : Z := 2.
Definition AF_INET6 : Z := 10.

(** ** The helpers *)

(** [createMask<T>(bits)] for an unsigned [T] of [w] bits: [1 << w - bits] is
    computed in [int], the shift count in [size_t]; a shift that leaves [int]
    is undefined. *)
Definition createMask {S} (w bits : Z) : M S Z :=
  let cnt := u64 (w - bits) in
  if 31 <=? cnt then mfault BadShift else mreturn (wrapu w (Z.shiftl 1 cnt - 1)).

(** [countBytes(val)]: the bits that are one. *)
Fixpoint count_loop (fuel : nat) (val result : Z) : option Z :=
  match fuel with
  | O => None
  | S fuel => if val =? 0 then Some result
              else count_loop fuel (Z.land val (val - 1)) (u32 (result + 1))
  end.
Definition countBytes (w val : Z) : option Z := count_loop (S (Z.to_nat w)) val 0.

(** ** The structures *)

Record sockaddr_in := mkIn { sin_port : Z; s_addr : Z; sin_zero : list byte }.
Record sockaddr_in6 := mkIn6 {
  sin6_port : Z; sin6_flowinfo : Z; u6_addr8 : list byte; sin6_scope_id : Z }.
Record sockaddr_un := mkUn { sun_path : list byte; m_addr_len : Z }.

(** The four classes. *)
Inductive Address :=
| IPv4Address (m_addr : sockaddr_in)
| IPv6Address (m_addr : sockaddr_in6)
| UnixAddress (m_addr : sockaddr_un)
| UnknownAddress (sa_family : Z) (sa_data : list byte).

Definition zeros (n : nat) : list byte := replicate n Byte.x00.

Section Addresses.
Context `{Platform}.

(** The object representation: what [getAddr()] points to. *)
Definition mem_in (a : sockaddr_in) : list byte :=
  to_mem uint16_t AF_INET ++ to_mem uint16_t (sin_port a) ++ to_mem uint32_t (s_addr a) ++ sin_zero a.
Definition mem_in6 (a : sockaddr_in6) : list byte :=
  to_mem uint16_t AF_INET6 ++ to_mem uint16_t (sin6_port a) ++ to_mem uint32_t (sin6_flowinfo a) ++
  u6_addr8 a ++ to_mem uint32_t (sin6_scope_id a).
Definition getAddr (a : Address) : list byte :=
  match a with
  | IPv4Address a => mem_in a
  | IPv6Address a => mem_in6 a
  | UnixAddress a => to_mem uint16_t AF_UNIX ++ sun_path a
  | UnknownAddress f data => to_mem uint16_t f ++ data
  end.
Definition getAddrLen (a : Address) : Z :=
  match a with
  | IPv4Address _ => 16
  | IPv6Address _ => 28
  | UnixAddress a => m_addr_len a
  | UnknownAddress _ _ => 16
  end.

(** [getAddr()->sa_family] *)
Definition getFamily (a : Address) : Z := of_mem uint16_t (take 2 (getAddr a)).

(** A field of the structure at [mem], [None] behind its end. *)
Definition field (mem : list byte) (off len : nat) : option (list byte) :=
  if (off + len <=? length mem)%nat then Some (take len (drop off mem)) else None.

(** [Address::create(addr, addr_len)]: the copy made of the memory at [addr]. *)
Definition create {S} (addr : option (list byte)) : M S (option Address) :=
  match addr with
  | None => mreturn None
  | Some mem =>
      match field mem 0 2 with
      | None => mfault OutOfBounds
      | Some f =>
          let sa_family := of_mem uint16_t f in
          if sa_family =? AF_INET then
            match field mem 2 2, field mem 4 4, field mem 8 8 with
            | Some p, Some a, Some z =>
                mreturn (Some (IPv4Address (mkIn (of_mem uint16_t p) (of_mem uint32_t a) z)))
            | _, _, _ => mfault OutOfBounds
            end
          else if sa_family =? AF_INET6 then
            match field mem 2 2, field mem 4 4, field mem 8 16, field mem 24 4 with
            | Some p, Some fl, Some a, Some sc =>
                mreturn (Some (IPv6Address (mkIn6 (of_mem uint16_t p) (of_mem uint32_t fl) a (of_mem uint32_t sc))))
            | _, _, _, _ => mfault OutOfBounds
            end
          else
            match field mem 2 14 with
            | Some d => mreturn (Some (UnknownAddress sa_family d))
            | None => mfault OutOfBounds
            end
      end
  end.

(** ** Construction *)

(** [IPv4Address(address, port)] and [IPv6Address(address, port)] *)
Definition IPv4_new (address port : Z) : sockaddr_in :=
  mkIn (byteswapToBigEndian uint16_t port) (byteswapToBigEndian uint32_t address) (zeros 8).
Definition IPv6_new (address : list byte) (port : Z) : sockaddr_in6 :=
  mkIn6 (byteswapToBigEndian uint16_t port) 0 (take 16 address) 0.
(** [IPv6Address()] *)
Definition IPv6_any : sockaddr_in6 := mkIn6 0 0 (zeros 16) 0.

(** [IPv4Address::create] and [IPv6Address::create]: [pton] is what
    [inet_pton] stored, when it accepted the text. *)
Definition IPv4_create (pton : option Z) (port : Z) : option sockaddr_in :=
  a ← pton; Some (mkIn (byteswapToBigEndian uint16_t port) a (zeros 8)).
Definition IPv6_create (pton : option (list byte)) (port : Z) : option sockaddr_in6 :=
  a ← pton; Some (mkIn6 (byteswapToBigEndian uint16_t port) 0 a 0).

Definition path_too_long : exn := runtime_error "path too long" [].
Definition SUN_PATH : nat := 108.
Definition OFFSET_SUN_PATH : Z := 2.

(** [UnixAddress()] *)
Definition Unix_any : sockaddr_un := mkUn (zeros SUN_PATH) (OFFSET_SUN_PATH + (Z.of_nat SUN_PATH - 1)).
(** [UnixAddress(path)] *)
Definition Unix_new {S} (path : list byte) : M S sockaddr_un :=
  let abstract := match path with b :: _ => byte.unsigned b =? 0 | [] => false end in
  let len := u32 (zlen path + 1) in
  let len := if abstract then u32 (len - 1) else len in
  if Z.of_nat SUN_PATH <? len then mthrow path_too_long else
  mreturn (mkUn (splice 0 (take (Z.to_nat len) (path ++ [Byte.x00])) (zeros SUN_PATH))
             (u32 (len + OFFSET_SUN_PATH))).
Definition setAddrlen (len : Z) (a : sockaddr_un) : sockaddr_un := mkUn (sun_path a) len.

(** ** Ports *)
Definition getPort (a : Address) : option Z :=
  match a with
  | IPv4Address a => Some (byteswapToBigEndian uint16_t (sin_port a))
  | IPv6Address a => Some (byteswapToBigEndian uint16_t (sin6_port a))
  | _ => None
  end.
Definition setPort (port : Z) (a : Address) : Address :=
  let p := byteswapToBigEndian uint16_t port in
  match a with
  | IPv4Address a => IPv4Address (mkIn p (s_addr a) (sin_zero a))
  | IPv6Address a => IPv6Address (mkIn6 p (sin6_flowinfo a) (u6_addr8 a) (sin6_scope_id a))
  | a => a
  end.

(** ** Networks *)

Definition broadcast4 {S} (prefix_len : Z) (a : sockaddr_in) : M S (option sockaddr_in) :=
  if 32 <? prefix_len then mreturn None else
  m <- createMask 32 prefix_len;;
  mreturn (Some (mkIn (sin_port a) (Z.lor (s_addr a) (byteswapToBigEndian uint32_t m)) (sin_zero a))).
Definition network4 {S} (prefix_len : Z) (a : sockaddr_in) : M S (option sockaddr_in) :=
  if 32 <? prefix_len then mreturn None else
  m <- createMask 32 prefix_len;;
  mreturn (Some (mkIn (sin_port a) (Z.land (s_addr a) (byteswapToBigEndian uint32_t m)) (sin_zero a))).
Definition subnetMask4 {S} (prefix_len : Z) (a : sockaddr_in) : M S sockaddr_in :=
  m <- createMask 32 prefix_len;;
  mreturn (mkIn (sin_port a) (u32 (Z.lnot (byteswapToBigEndian uint32_t m))) (zeros 8)).

(** [u6_addr8[i]] *)
Definition byte_at {S} (bs : list byte) (i : Z) : M S Z :=
  match bs !! Z.to_nat i with
  | Some b => mreturn (byte.unsigned b)
  | None => mfault OutOfBounds
  end.
(** [for (int i = from; i < to; ++i) u6_addr8[i] = 0xff;] *)
Definition fill_ff (from to : Z) (bs : list byte) : list byte :=
  imap (λ i b, if (from <=? Z.of_nat i) && (Z.of_nat i <? to) then Byte.xff else b) bs.

Definition with_addr6 (bs : list byte) (a : sockaddr_in6) : sockaddr_in6 :=
  mkIn6 (sin6_port a) (sin6_flowinfo a) bs (sin6_scope_id a).

Definition broadcast6 {S} (prefix_len : Z) (a : sockaddr_in6) : M S sockaddr_in6 :=
  let i := prefix_len / 8 in
  b <- byte_at (u6_addr8 a) i;;
  m <- createMask 8 (prefix_len mod 8);;
  let bs := <[Z.to_nat i := byte.of_Z (Z.lor b m)]> (u6_addr8 a) in
  mreturn (with_addr6 (fill_ff (i + 1) 16 bs) a).
Definition network6 {S} (prefix_len : Z) (a : sockaddr_in6) : M S sockaddr_in6 :=
  let i := prefix_len / 8 in
  b <- byte_at (u6_addr8 a) i;;
  m <- createMask 8 (prefix_len mod 8);;
  mreturn (with_addr6 (<[Z.to_nat i := byte.of_Z (Z.land b m)]> (u6_addr8 a)) a).
Definition subnetMask6 {S} (prefix_len : Z) (a : sockaddr_in6) : M S sockaddr_in6 :=
  let i := prefix_len / 8 in
  b <- byte_at (zeros 16) i;;
  m <- createMask 8 (prefix_len mod 8);;
  let bs := <[Z.to_nat i := byte.of_Z (Z.lnot m)]> (zeros 16) in
  mreturn (mkIn6 (sin6_port a) 0 (fill_ff 0 i bs) 0).

(** ** Comparison *)

(** [memcmp] on bytes: the sign of the first difference. *)
Fixpoint memcmp (l1 l2 : list byte) : comparison :=
  match l1, l2 with
  | b1 :: l1, b2 :: l2 =>
      match byte.unsigned b1 ?= byte.unsigned b2 with Eq => memcmp l1 l2 | c => c end
  | _, _ => Eq
  end.

(** [memcmp(getAddr(), val.getAddr(), n)] reads [n] bytes of both. *)
Definition operator_lt (a b : Address) : bool :=
  let minlen := Z.min (getAddrLen a) (getAddrLen b) in
  match memcmp (take (Z.to_nat minlen) (getAddr a)) (take (Z.to_nat minlen) (getAddr b)) with
  | Lt => true
  | Gt => false
  | Eq => getAddrLen a <? getAddrLen b
  end.
Definition operator_eq (a b : Address) : bool :=
  (getAddrLen a =? getAddrLen b) &&
  match memcmp (take (Z.to_nat (getAddrLen a)) (getAddr a))
               (take (Z.to_nat (getAddrLen a)) (getAddr b)) with Eq => true | _ => false end.
Definition operator_ne (a b : Address) : bool := negb (operator_eq a b).

(** ** Text *)

(** [os << n], in decimal and in hexadecimal. *)
Definition dec (n : Z) : string := pretty n.
Definition hex_digit (n : Z) : string :=
  match String.get (Z.to_nat n) "0123456789abcdef" with Some c => String c EmptyString | None => "" end.
Fixpoint hex_go (fuel : nat) (n : Z) : string :=
  match fuel with
  | O => ""
  | S fuel => (if n / 16 =? 0 then "" else hex_go fuel (n / 16)) +:+ hex_digit (n mod 16)
  end.
Definition hex (n : Z) : string := hex_go 8 n.

(** [IPv4Address::insert] *)
Definition insert4 (a : sockaddr_in) : string :=
  let addr := byteswapToBigEndian uint32_t (s_addr a) in
  let port := byteswapToBigEndian uint16_t (sin_port a) in
  let part k := dec (Z.land (Z.shiftr addr k) 255) in
  part 24 +:+ "." +:+ part 16 +:+ "." +:+ part 8 +:+ "." +:+ dec (Z.land addr 255) +:+ ":" +:+ dec port.

(** What the loop of [IPv6Address::insert] writes: colons and groups. *)
Inductive token := Colon | Group (n : Z).
Definition show_token (t : token) : string := match t with Colon => ":" | Group n => hex n end.

(** [addr[i]], the groups as the host reads them. *)
Definition groups (bs : list byte) : list Z :=
  (λ i, of_mem uint16_t (take 2 (drop (2 * i) bs))) <$> seq 0 8.

Fixpoint insert6_loop (prev : option Z) (use_zeros : bool) (addr : list Z) : list token * bool :=
  match addr with
  | [] => ([], use_zeros)
  | g :: addr =>
      if (g =? 0) && negb use_zeros then insert6_loop (Some g) use_zeros addr else
      let gap := match prev with Some p => (p =? 0) && negb use_zeros | None => false end in
      let r := insert6_loop (Some g) (gap || use_zeros) addr in
      ((if gap then [Colon] else []) ++ (if prev then [Colon] else []) ++
         Group (byteswapToBigEndian uint16_t g) :: r.1, r.2)
  end.
Definition insert6_tokens (addr : list Z) : list token :=
  let r := insert6_loop None false addr in
  r.1 ++ (if negb r.2 && (default 0 (last addr) =? 0) then [Colon; Colon] else []).
Definition insert6 (a : sockaddr_in6) : string :=
  "[" +:+ String.concat "" (show_token <$> insert6_tokens (groups (u6_addr8 a))) +:+ "]:" +:+
  dec (byteswapToBigEndian uint16_t (sin6_port a)).

(** [UnixAddress::insert] and [UnknownAddress::insert]: the bytes written; a
    path is written up to its first zero. *)
Definition c_str (bs : list byte) : list byte :=
  (fix go bs := match bs with
                | [] => []
                | b :: bs => if byte.unsigned b =? 0 then [] else b :: go bs
                end) bs.
Definition insert_un (a : sockaddr_un) : list byte :=
  if (OFFSET_SUN_PATH <? m_addr_len a) && (byte.unsigned (default Byte.x00 (sun_path a !! 0%nat)) =? 0)
  then [Byte.x5c; Byte.x30] ++
       take (Z.to_nat (u64 (m_addr_len a - OFFSET_SUN_PATH - 1))) (drop 1 (sun_path a))
  else c_str (sun_path a).
Definition insert_unknown (family : Z) : string :=
  "[UnknownAddress family = " +:+ dec family +:+ "]".

(** ** Lookups *)

Definition colon : ascii := ":".

(** [memchr(s, c, n)]: the part before and behind the first [c]. *)
Fixpoint memchr (c : ascii) (s : list ascii) : option (list ascii * list ascii) :=
  match s with
  | [] => None
  | x :: s => if ascii_dec x c then Some ([], s)
              else '(a, b) ← memchr c s; Some (x :: a, b)
  end.

(** The node and the service [Address::parse] asks [getaddrinfo] for. A
    service is the text behind a pointer into [host]. *)
Definition split_host (host : list ascii) : list ascii * option (list ascii) :=
  let bracket : list ascii * option (list ascii) :=
    match host with
    | c :: rest =>
        if ascii_dec c "[" then
          match memchr "]" rest with
          | Some (inside, behind) =>
              (c :: inside, match behind with
                            | d :: service => if ascii_dec d colon then Some service else None
                            | [] => None
                            end)
          | None => ([], None)
          end
        else ([], None)
    | [] => ([], None)
    end in
  let r :=
    match bracket.1 with
    | [] => match memchr colon host with
            | None => ([], None)
            | Some (before, behind) =>
                match memchr colon behind with
                | None => (before, Some behind)
                | Some _ => ([], Some (colon :: behind))
                end
            end
    | _ => bracket
    end in
  match r.1 with [] => (host, r.2) | _ => r end.

(** [Address::parse(addrs, host, ...)]: [getaddrinfo] is the list of results
    for a node and a service, [None] on error. *)
Fixpoint create_all {S} (results : list (option (list byte))) : M S (list (option Address)) :=
  match results with
  | [] => mreturn []
  | r :: rs => a <- create r;; l <- create_all rs;; mreturn (a :: l)
  end.
Definition parse {S} (getaddrinfo : list ascii → option (list ascii) → option (list (option (list byte))))
    (host : list ascii) : M S (option (list (option Address))) :=
  let '(node, service) := split_host host in
  match getaddrinfo node service with
  | None => mreturn None
  | Some results => l <- create_all results;; mreturn (Some l)
  end.
Definition bad_at : exn := runtime_error "vector::_M_range_check" [].
(** [Address::parse(addr, host, ...)] *)
Definition parse_one {S} getaddrinfo (host : list ascii) : M S (option (option Address)) :=
  r <- parse getaddrinfo host;;
  match r with
  | None => mreturn None
  | Some [] => mthrow bad_at
  | Some (a :: _) => mreturn (Some a)
  end.
Definition is_ip (a : option Address) : bool :=
  match a with Some (IPv4Address _) | Some (IPv6Address _) => true | _ => false end.
(** [Address::parseIPAddress(addr, host, ...)] *)
Definition parseIPAddress {S} getaddrinfo (host : list ascii) : M S (option Address) :=
  r <- parse getaddrinfo host;;
  mreturn (match r with
           | None => None
           | Some l => a ← head (filter (λ a, is_ip a = true) l); a
           end).
(** [IPAddress::create(address, port)]: the first result, if it is an IP address. *)
Definition IPAddress_create {S} (results : option (list (option (list byte)))) (port : Z)
    : M S (option Address) :=
  match results with
  | None => mreturn None
  | Some [] => mfault NullDeref
  | Some (r :: _) =>
      a <- create r;;
      mreturn (if is_ip a then setPort port <$> a else None)
  end.

(** *** Interfaces *)

(** An [ifaddrs] entry; its address and its mask may be null. *)
Record ifaddrs := mkIf { ifa_name : string; ifa_addr : option (list byte); ifa_netmask : option (list byte) }.

Definition netmask4 (mask : option (list byte)) : option Z :=
  m ← mask; b ← field m 4 4; Some (of_mem uint32_t b).
Definition netmask6 (mask : option (list byte)) : option (list byte) := m ← mask; field m 8 16.

(** The prefix length of an interface; the loop over the mask's bytes. *)
Fixpoint count_bytes6 (mask : list byte) (prefix_len : Z) : option Z :=
  match mask with
  | [] => Some prefix_len
  | b :: mask => n ← countBytes 8 (byte.unsigned b); count_bytes6 mask (u32 (prefix_len + n))
  end.

Definition interface {S} (family : Z) (i : ifaddrs) : M S (list (string * (Address * Z))) :=
  match ifa_addr i with
  | None => mfault NullDeref
  | Some mem =>
      match field mem 0 2 with
      | None => mfault OutOfBounds
      | Some f =>
          let sa_family := of_mem uint16_t f in
          if negb (family =? AF_UNSPEC) && negb (family =? sa_family) then mreturn [] else
          if sa_family =? AF_INET then
            a <- create (ifa_addr i);;
            match a, netmask4 (ifa_netmask i) with
            | Some a, Some m =>
                match countBytes 32 m with
                | Some n => mreturn [(ifa_name i, (a, n))]
                | None => mfault OutOfFuel
                end
            | _, _ => mfault NullDeref
            end
          else if sa_family =? AF_INET6 then
            a <- create (ifa_addr i);;
            match a, netmask6 (ifa_netmask i) with
            | Some a, Some m =>
                match count_bytes6 m 0 with
                | Some n => mreturn [(ifa_name i, (a, n))]
                | None => mfault OutOfFuel
                end
            | _, _ => mfault NullDeref
            end
          else mreturn []
      end
  end.

(** [getInterfaceAddresses(addrs, family)]: the pairs a [std::multimap] gets, in
    the order of insertion. *)
Fixpoint interfaces {S} (family : Z) (l : list ifaddrs) : M S (list (string * (Address * Z))) :=
  match l with
  | [] => mreturn []
  | i :: l => r <- interface family i;; rs <- interfaces family l;; mreturn (r ++ rs)
  end.
(** [getInterfaceAddresses(addrs, _interface, family)]; [getifaddrs] is [None]
    when it failed. *)
Definition getInterfaceAddresses {S} (getifaddrs : option (list ifaddrs)) (_interface : string) (family : Z)
    : M S (option (list (Address * Z))) :=
  if String.eqb _interface "" || String.eqb _interface "*" then
    mreturn (Some ((if (family =? AF_UNSPEC) || (family =? AF_INET) then [(IPv4Address (IPv4_new 0 0), 0)] else []) ++
                   (if (family =? AF_UNSPEC) || (family =? AF_INET6) then [(IPv6Address IPv6_any, 0)] else [])))
  else
    match getifaddrs with
    | None => mreturn None
    | Some l =>
        results <- interfaces family l;;
        mreturn (Some (snd <$> filter (λ p, p.1 = _interface) results))
    end.
End Addresses.
