(* ===== verification/AddressSpec.v ===== *)
(** * Properties of network addresses: masks, order, text *)

From Stdlib Require Import Ascii String.
From S2P Require Import Prelude Codec Address.
#[local] Open Scope Z_scope.

(** ** Byte swaps and bit operations *)

Lemma testbit_byte_of_Z v i : Z.testbit (byte.unsigned (byte.of_Z v)) i = (i <? 8) && Z.testbit v i.
Proof.
  rewrite byte.unsigned_of_Z. unfold byte.wrap. change 256 with (2 ^ 8).
  destruct (Z.ltb_spec i 8); simpl; [by rewrite Z.mod_pow2_bits_low|by rewrite Z.mod_pow2_bits_high by lia].
Qed.

Lemma byte_high b i : 8 ≤ i → Z.testbit (byte.unsigned b) i = false.
Proof.
  intros. pose proof (byte.unsigned_range b). destruct (decide (byte.unsigned b = 0)) as [->|]; [by rewrite Z.bits_0|].
  apply Z.bits_above_log2; [lia|]. apply Z.log2_lt_pow2; [lia|]. eapply Z.lt_le_trans; [apply byte.unsigned_range|].
  change (2 ^ 8) with (2 ^ 8). apply Z.pow_le_mono_r; lia.
Qed.

Lemma testbit_le_combine bs i : 0 ≤ i →
  Z.testbit (le_combine bs) i =
  match bs !! Z.to_nat (i / 8) with Some b => Z.testbit (byte.unsigned b) (i mod 8) | None => false end.
Proof.
  revert i. induction bs as [|b bs IH]; intros i Hi; [by rewrite Z.bits_0|].
  change (le_combine (b :: bs)) with (Z.lor (byte.unsigned b) (Z.shiftl (le_combine bs) 8)).
  rewrite Z.lor_spec, Z.shiftl_spec by lia. destruct (Z.ltb_spec i 8).
  - rewrite Z.div_small, Z.mod_small by lia. simpl. by rewrite (Z.testbit_neg_r _ (i - 8)), orb_false_r by lia.
  - rewrite byte_high, IH by lia. simpl.
    replace (i / 8) with ((i - 8) / 8 + 1) by (rewrite <-Z.div_add by lia; f_equal; lia).
    rewrite Z2Nat.inj_add by (try apply Z.div_pos; lia). change (Z.to_nat 1) with 1%nat.
    rewrite Nat.add_1_r. simpl. replace ((i - 8) mod 8) with (i mod 8); [done|].
    rewrite <-(Z_mod_plus_full (i - 8) 1 8). f_equal. lia.
Qed.

Lemma le_split_lookup n v k : (k < n)%nat → le_split n v !! k = Some (byte.of_Z (Z.shiftr v (8 * Z.of_nat k))).
Proof.
  revert v k. induction n as [|n IH]; intros v k Hk; [lia|].
  change (le_split (S n) v) with (byte.of_Z v :: le_split n (Z.shiftr v 8)). destruct k as [|k]; cbn [lookup list_lookup].
  - do 3 f_equal.
  - rewrite IH by lia. do 2 f_equal. rewrite Z.shiftr_shiftr by lia. f_equal. lia.
Qed.

(** Bit [i] of a swapped 32-bit word. *)
Definition swapped (i : Z) : Z := 8 * (3 - i / 8) + i mod 8.

Lemma byteswap32_bits v i : 0 ≤ i < 32 → Z.testbit (byteswap uint32_t v) i = Z.testbit v (swapped i).
Proof.
  intros Hi. unfold byteswap, ity_conv, wrapu, ity_bits, bswap. cbn [ity_size ity_signed uint32_t].
  change (8 * Z.of_nat 4) with 32. rewrite Z.mod_pow2_bits_low by lia. rewrite testbit_le_combine by lia.
  assert (0 ≤ i / 8 < 4) by (split; [apply Z.div_pos; lia|apply Z.div_lt_upper_bound; lia]).
  pose proof (Z.mod_pos_bound i 8).
  rewrite rev_alt. fold (reverse (le_split 4 (v mod 2 ^ 32))). rewrite reverse_lookup by (rewrite length_le_split; lia). rewrite length_le_split, le_split_lookup by lia.
  rewrite testbit_byte_of_Z, Z.shiftr_spec by lia. destruct (Z.ltb_spec (i mod 8) 8); [|lia]. cbn [andb].
  replace (i mod 8 + 8 * Z.of_nat (4 - S (Z.to_nat (i / 8)))) with (swapped i) by (unfold swapped; lia).
  rewrite Z.mod_pow2_bits_low; [done|]. unfold swapped. lia.
Qed.

Section Words.
Context `{Platform}.
Notation bs := (byteswapToBigEndian uint32_t).

(** [byteswapToBigEndian] permutes the 32 bits of a word. *)
Definition perm (i : Z) : Z := match LON_ENDIAN with LON_LITTLE_ENDIAN => swapped i | LON_BIG_ENDIAN => i end.

Lemma perm_range i : 0 ≤ i < 32 → 0 ≤ perm i < 32.
Proof.
  intros Hi. unfold perm, swapped. destruct LON_ENDIAN; [|done].
  assert (0 ≤ i / 8 < 4) by (split; [apply Z.div_pos; lia|apply Z.div_lt_upper_bound; lia]).
  pose proof (Z.mod_pos_bound i 8). lia.
Qed.

Lemma bs_bits v i : 0 ≤ i < 32 → Z.testbit (bs v) i = Z.testbit v (perm i).
Proof. unfold byteswapToBigEndian, perm. destruct LON_ENDIAN; [apply byteswap32_bits|done]. Qed.

Lemma bs_range v : urange 32 v → urange 32 (bs v).
Proof.
  intros Hv. unfold byteswapToBigEndian. destruct LON_ENDIAN; [|done].
  unfold byteswap, ity_conv. cbn. by apply wrapu_range.
Qed.

Lemma bs_bs v : urange 32 v → bs (bs v) = v.
Proof.
  intros Hv. unfold byteswapToBigEndian. destruct LON_ENDIAN; [|done].
  rewrite byteswap_involutive_conv by (simpl; lia). apply ity_conv_small; [simpl; lia|exact Hv].
Qed.

Lemma bits32_inj a b : urange 32 a → urange 32 b → (∀ i, 0 ≤ i < 32 → Z.testbit a i = Z.testbit b i) → a = b.
Proof.
  intros Ha Hb E. apply Z.bits_inj'. intros n Hn. destruct (decide (n < 32)); [by apply E|].
  rewrite <-(Z.mod_small a (2 ^ 32)), <-(Z.mod_small b (2 ^ 32)) by done. by rewrite !Z.mod_pow2_bits_high by lia.
Qed.

Lemma urange_bits x : (∀ i, 32 ≤ i → Z.testbit x i = false) → urange 32 x.
Proof.
  intros Hb. replace x with (x mod 2 ^ 32); [by apply wrapu_range|]. apply Z.bits_inj'. intros i Hi.
  destruct (decide (i < 32)); [by apply Z.mod_pow2_bits_low|].
  rewrite Z.mod_pow2_bits_high, Hb by lia. done.
Qed.
Lemma bits_urange x i : urange 32 x → 32 ≤ i → Z.testbit x i = false.
Proof. intros Hx Hi. rewrite <-(Z.mod_small x (2 ^ 32)) by done. by rewrite Z.mod_pow2_bits_high by lia. Qed.

Lemma urange_lor a b : urange 32 a → urange 32 b → urange 32 (Z.lor a b).
Proof. intros. apply urange_bits. intros i Hi. by rewrite Z.lor_spec, !bits_urange. Qed.
Lemma urange_land a b : urange 32 a → urange 32 (Z.land a b).
Proof. intros. apply urange_bits. intros i Hi. by rewrite Z.land_spec, bits_urange. Qed.

Lemma bs_lor a b : urange 32 a → urange 32 b → bs (Z.lor a b) = Z.lor (bs a) (bs b).
Proof.
  intros. apply bits32_inj; [by apply bs_range, urange_lor|by apply urange_lor; apply bs_range|].
  intros i Hi. by rewrite Z.lor_spec, !bs_bits, Z.lor_spec by done.
Qed.
Lemma bs_land a b : urange 32 a → urange 32 b → bs (Z.land a b) = Z.land (bs a) (bs b).
Proof.
  intros Ha Hb. apply bits32_inj.
  - by apply bs_range, urange_land.
  - by apply urange_land, bs_range.
  - intros i Hi. by rewrite Z.land_spec, !bs_bits, Z.land_spec by done.
Qed.
Lemma bs_lnot a : urange 32 a → bs (u32 (Z.lnot a)) = u32 (Z.lnot (bs a)).
Proof.
  intros Ha. apply bits32_inj; [apply bs_range; by apply wrapu_range|by apply wrapu_range|].
  intros i Hi. pose proof (perm_range i Hi). unfold wrapu.
  by rewrite bs_bits, !Z.mod_pow2_bits_low, !Z.lnot_spec, bs_bits by lia.
Qed.
End Words.

(** ** IPv4 networks *)

(** The host part of an address with a prefix of [p] bits. *)
Definition host_mask (p : Z) : Z := 2 ^ (32 - p) - 1.

Lemma host_mask_range p : 0 ≤ p ≤ 32 → urange 32 (host_mask p).
Proof.
  intros Hp. unfold host_mask, urange. pose proof (Z.pow_pos_nonneg 2 (32 - p)).
  pose proof (Z.pow_le_mono_r 2 (32 - p) 32). lia.
Qed.

Lemma createMask_ok {S} p (s : S) : 2 ≤ p ≤ 32 → createMask 32 p s = Ret (host_mask p) s.
Proof.
  intros Hp. unfold createMask. rewrite wrapu_small by (unfold urange; lia).
  destruct (Z.leb_spec 31 (32 - p)); [lia|]. rewrite Z.shiftl_1_l. mend. f_equal.
  apply wrapu_small; [lia|]. apply host_mask_range. lia.
Qed.
Lemma createMask_bad {S} p (s : S) : 0 ≤ p < 2 ^ 32 → p < 2 ∨ 32 < p → createMask 32 p s = Fault BadShift.
Proof.
  intros Hp Hb. unfold createMask. destruct (Z.leb_spec 31 (u64 (32 - p))) as [|G]; [done|]. exfalso.
  destruct Hb.
  - rewrite wrapu_small in G by (unfold urange; lia). lia.
  - unfold wrapu in G. replace (32 - p) with (2 ^ 64 - (p - 32) + (-1) * 2 ^ 64) in G by lia.
    rewrite Z_mod_plus_full, Z.mod_small in G by lia. lia.
Qed.

Lemma net_mask p : 0 ≤ p ≤ 32 → u32 (Z.lnot (host_mask p)) = 2 ^ 32 - 2 ^ (32 - p).
Proof.
  intros Hp. pose proof (host_mask_range p Hp). unfold urange, host_mask in *. unfold Z.lnot, wrapu.
  pose proof (Z.pow_pos_nonneg 2 (32 - p)).
  symmetry. apply (Z.mod_unique _ _ (-1)); [lia|]. lia.
Qed.

Section Networks.
Context `{Platform}.
Notation bs := (byteswapToBigEndian uint32_t).

(** The address as a number. *)
Definition ip (a : sockaddr_in) : Z := bs (s_addr a).

Definition mask_count_ok (p : Z) : bool :=
  bool_decide (countBytes 32 (u32 (Z.lnot (bs (host_mask p)))) = Some p).
Lemma mask_count p : 2 ≤ p ≤ 32 → countBytes 32 (u32 (Z.lnot (bs (host_mask p)))) = Some p.
Proof.
  intros Hp. apply (bool_decide_eq_true_1 _).
  assert (F : forallb mask_count_ok (seqZ 2 31) = true).
  { unfold mask_count_ok, byteswapToBigEndian. by destruct LON_ENDIAN; vm_compute. }
  rewrite forallb_forall in F. apply F, list_elem_of_In, elem_of_seqZ. lia.
Qed.
End Networks.

(** For a prefix of 2 to 32 bits the broadcast address has the network part
    of the address and all host bits one; the subnet mask has exactly the
    prefix bits one, and counting the ones of a mask, which is how the prefix
    of an interface is found, gives the prefix back. [networkAddress] does not
    give the network: it keeps the host part and clears the prefix. Prefixes
    above 32 are refused with a null pointer, by [subnetMask] not: it shifts
    out of range, as all three do for the prefixes 0 and 1. *)
Theorem ipv4_networks `{Platform} p a (s : unit) : urange 32 (s_addr a) → 0 ≤ p < 2 ^ 32 →
  (2 ≤ p ≤ 32 →
     (∃ b, broadcast4 p a s = Ret (Some b) s ∧ ip b = Z.lor (ip a) (host_mask p) ∧ sin_port b = sin_port a) ∧
     (∃ m, subnetMask4 p a s = Ret m s ∧ ip m = 2 ^ 32 - 2 ^ (32 - p) ∧ sin_port m = sin_port a ∧
        countBytes 32 (s_addr m) = Some p) ∧
     (∃ n, network4 p a s = Ret (Some n) s ∧ ip n = Z.land (ip a) (host_mask p) ∧ sin_port n = sin_port a)) ∧
  (p < 2 → broadcast4 p a s = Fault BadShift ∧ network4 p a s = Fault BadShift ∧
           subnetMask4 p a s = Fault BadShift) ∧
  (32 < p → broadcast4 p a s = Ret None s ∧ network4 p a s = Ret None s ∧ subnetMask4 p a s = Fault BadShift).
Proof.
  intros Ha Hp. unfold broadcast4, network4, subnetMask4. split; [|split]; intros Hc.
  - destruct (Z.ltb_spec 32 p); [lia|]. pose proof (host_mask_range p ltac:(lia)) as Hm.
    pose proof (bs_range _ Hm). pose proof (bs_bs _ Hm) as Hbb.
    split; [|split]; eexists; (split; [by mstep (createMask_ok p s Hc)|]);
      unfold ip; cbn [s_addr sin_port].
    + by rewrite bs_lor, Hbb.
    + split; [|split; [done|by apply mask_count]]. rewrite bs_lnot, Hbb by done. apply net_mask. lia.
    + by rewrite bs_land, Hbb.
  - destruct (Z.ltb_spec 32 p); [lia|].
    pose proof (createMask_bad p s Hp (or_introl Hc)) as E. split_and!; by mstep E.
  - destruct (Z.ltb_spec 32 p); [|lia].
    pose proof (createMask_bad p s Hp (or_intror Hc)) as E. split_and!; [done|done|by mstep E].
Qed.

(** 192.168.1.7/24 on a little-endian host: the broadcast address, and a
    "network" of 0.0.0.7. *)
Lemma ipv4_networks_witness :
  let H := x86_64 in let a := IPv4_new 3232235783 80 in
  (∃ b, broadcast4 24 a tt = Ret (Some b) tt ∧ ip b = Z.lor (ip a) (host_mask 24)) ∧
  (∃ n, network4 24 a tt = Ret (Some n) tt ∧ ip n = 7).
Proof.
  intros H a.
  assert (Ha : urange 32 (s_addr a)) by (vm_compute; split; congruence).
  pose proof (ipv4_networks 24 a tt Ha ltac:(lia)) as [P _].
  destruct (P ltac:(lia)) as ((b & Eb & Hb & _) & _ & (n & En & Hn & _)).
  split; [by exists b|exists n; split; [exact En|]]. rewrite Hn. vm_compute. reflexivity.
Defined.

(** ** IPv6 networks *)

(** Bit [j] of an address, counted from the left. *)
Definition bit_of (bs : list byte) (j : Z) : bool :=
  Z.testbit (byte.unsigned (default Byte.x00 (bs !! Z.to_nat (j / 8)))) (7 - j mod 8).

Lemma createMask8 {S} k (s : S) : 0 ≤ k < 8 → createMask 8 k s = Ret (2 ^ (8 - k) - 1) s.
Proof.
  intros Hk. unfold createMask. rewrite wrapu_small by (unfold urange; lia).
  destruct (Z.leb_spec 31 (8 - k)); [lia|]. rewrite Z.shiftl_1_l. mend. f_equal.
  pose proof (Z.pow_le_mono_r 2 (8 - k) 8). pose proof (Z.pow_pos_nonneg 2 (8 - k)).
  apply wrapu_small; [lia|]. unfold urange. lia.
Qed.

Lemma mask_bit k i : 0 ≤ k ≤ 8 → 0 ≤ i → Z.testbit (2 ^ (8 - k) - 1) i = (i <? 8 - k).
Proof.
  intros Hk Hi. rewrite Z.sub_1_r, <-Z.ones_equiv.
  destruct (Z.ltb_spec i (8 - k)); [apply Z.ones_spec_low|apply Z.ones_spec_high]; lia.
Qed.

Lemma fill_ff_lookup from to bs i : fill_ff from to bs !! i =
  (λ b, if (from <=? Z.of_nat i) && (Z.of_nat i <? to) then Byte.xff else b) <$> bs !! i.
Proof. unfold fill_ff. apply list_lookup_imap. Qed.

Lemma xff_bit i : 0 ≤ i < 8 → Z.testbit (byte.unsigned Byte.xff) i = true.
Proof. intros. change (byte.unsigned Byte.xff) with (Z.ones 8). apply Z.ones_spec_low. lia. Qed.

(** The byte with the boundary, and the others. *)
Lemma bit_position p j : 0 ≤ p < 128 → 0 ≤ j < 128 → j / 8 = p / 8 →
  (7 - j mod 8 <? 8 - p mod 8) = negb (j <? p).
Proof.
  intros Hp Hj E. pose proof (Z.div_mod j 8). pose proof (Z.div_mod p 8).
  destruct (Z.ltb_spec (7 - j mod 8) (8 - p mod 8)), (Z.ltb_spec j p); try done; lia.
Qed.

Lemma byte_index j : 0 ≤ j < 128 → 0 ≤ j / 8 < 16 ∧ 0 ≤ j mod 8 < 8.
Proof.
  intros Hj. split; [split; [apply Z.div_pos; lia|apply Z.div_lt_upper_bound; lia]|apply Z.mod_pos_bound; lia].
Qed.

Lemma bit_insert p j bs v : 0 ≤ p < 128 → 0 ≤ j < 128 → length bs = 16%nat →
  bit_of (<[Z.to_nat (p / 8) := byte.of_Z v]> bs) j =
  if decide (j / 8 = p / 8) then Z.testbit v (7 - j mod 8) else bit_of bs j.
Proof.
  intros Hp Hj Hl. pose proof (byte_index p Hp). pose proof (byte_index j Hj). unfold bit_of.
  destruct (decide (j / 8 = p / 8)) as [E|E].
  - rewrite E, list_lookup_insert_eq by lia. simpl. rewrite testbit_byte_of_Z.
    destruct (Z.ltb_spec (7 - j mod 8) 8); [done|lia].
  - by rewrite list_lookup_insert_ne by lia.
Qed.

Lemma bit_fill j from to l : 0 ≤ j < 128 → length l = 16%nat → bit_of (fill_ff from to l) j =
  if (from <=? j / 8) && (j / 8 <? to) then true else bit_of l j.
Proof.
  intros Hj Hll. pose proof (byte_index j Hj). unfold bit_of. rewrite fill_ff_lookup.
  destruct (lookup_lt_is_Some_2 l (Z.to_nat (j / 8))) as [b Hb]; [lia|]. rewrite Hb. simpl.
  rewrite Z2Nat.id by lia. destruct (_ && _); [apply xff_bit; lia|done].
Qed.

Lemma byte_at_ok {S} bs i b (s : S) : bs !! Z.to_nat i = Some b → byte_at bs i s = Ret (byte.unsigned b) s.
Proof. intros E. unfold byte_at. by rewrite E. Qed.
Lemma byte_at_bad {S} bs i (s : S) : zlen bs ≤ i → byte_at bs i s = Fault OutOfBounds.
Proof. unfold zlen, byte_at. intros. by rewrite lookup_ge_None_2 by lia. Qed.

Lemma div8_cases p j : 0 ≤ p → 0 ≤ j → j / 8 ≠ p / 8 → (j <? p) = (j / 8 <? p / 8).
Proof.
  intros Hp Hj Hne. pose proof (Z.div_mod j 8). pose proof (Z.div_mod p 8).
  pose proof (Z.mod_pos_bound j 8). pose proof (Z.mod_pos_bound p 8).
  destruct (Z.ltb_spec j p), (Z.ltb_spec (j / 8) (p / 8)); try done; lia.
Qed.

Section Networks6.
Context {S : Type} (p : Z) (a : sockaddr_in6) (s : S).
Context (Hl : length (u6_addr8 a) = 16%nat) (Hp : 0 ≤ p < 128).

Lemma boundary_byte : ∃ c, u6_addr8 a !! Z.to_nat (p / 8) = Some c ∧
  ∀ j, j / 8 = p / 8 → Z.testbit (byte.unsigned c) (7 - j mod 8) = bit_of (u6_addr8 a) j.
Proof using Hl Hp.
  pose proof (byte_index p Hp). destruct (lookup_lt_is_Some_2 (u6_addr8 a) (Z.to_nat (p / 8))) as [c Hc]; [lia|].
  exists c. split; [done|]. intros j E. unfold bit_of. by rewrite E, Hc.
Qed.

Lemma broadcast6_bits : ∃ b, broadcast6 p a s = Ret b s ∧ sin6_port b = sin6_port a ∧
  ∀ j, 0 ≤ j < 128 → bit_of (u6_addr8 b) j = if j <? p then bit_of (u6_addr8 a) j else true.
Proof using Hl Hp.
  destruct boundary_byte as (c & Hc & Hb). pose proof (byte_index p Hp) as [Hi Hm].
  eexists. split; [unfold broadcast6; mstep (byte_at_ok _ _ _ s Hc); by mstep (createMask8 (p mod 8) s Hm)|].
  split; [done|]. intros j Hj. cbn [u6_addr8 with_addr6]. pose proof (byte_index j Hj).
  rewrite bit_fill by (try done; by rewrite length_insert). rewrite bit_insert by done.
  rewrite Z.lor_spec, mask_bit by lia. destruct (decide (j / 8 = p / 8)) as [E|E].
  - rewrite bit_position, Hb by done. destruct (Z.leb_spec (p / 8 + 1) (j / 8)); [lia|]. simpl.
    destruct (j <? p); simpl; [by rewrite orb_false_r|apply orb_true_r].
  - rewrite (div8_cases p j) by lia.
    destruct (Z.leb_spec (p / 8 + 1) (j / 8)), (Z.ltb_spec (j / 8) 16), (Z.ltb_spec (j / 8) (p / 8)); try done; lia.
Qed.

Lemma subnetMask6_bits : ∃ m, subnetMask6 p a s = Ret m s ∧ sin6_port m = sin6_port a ∧
  ∀ j, 0 ≤ j < 128 → bit_of (u6_addr8 m) j = (j <? p).
Proof using Hl Hp.
  pose proof (byte_index p Hp) as [Hi Hm].
  assert (Hz : zeros 16 !! Z.to_nat (p / 8) = Some Byte.x00) by (apply lookup_replicate; split; [done|lia]).
  eexists. split; [unfold subnetMask6; mstep (byte_at_ok _ _ _ s Hz); by mstep (createMask8 (p mod 8) s Hm)|].
  split; [done|]. intros j Hj. cbn [u6_addr8]. pose proof (byte_index j Hj).
  rewrite bit_fill by (try done; by rewrite length_insert). rewrite bit_insert by done.
  rewrite Z.lnot_spec, mask_bit by lia. destruct (decide (j / 8 = p / 8)) as [E|E].
  - rewrite bit_position, negb_involutive by done. destruct (Z.ltb_spec (j / 8) (p / 8)); [lia|].
    by rewrite andb_false_r.
  - rewrite (div8_cases p j) by lia. destruct (Z.leb_spec 0 (j / 8)); [|lia]. simpl.
    destruct (j / 8 <? p / 8); [done|]. unfold bit_of.
    destruct (zeros 16 !! Z.to_nat (j / 8)) as [z|] eqn:Ez; [|apply Z.bits_0].
    apply lookup_replicate in Ez as [-> _]. apply Z.bits_0.
Qed.

Lemma network6_bits : ∃ n, network6 p a s = Ret n s ∧ sin6_port n = sin6_port a ∧
  ∀ j, 0 ≤ j < 128 → bit_of (u6_addr8 n) j =
    if (j / 8 =? p / 8) && (j <? p) then false else bit_of (u6_addr8 a) j.
Proof using Hl Hp.
  destruct boundary_byte as (c & Hc & Hb). pose proof (byte_index p Hp) as [Hi Hm].
  eexists. split; [unfold network6; mstep (byte_at_ok _ _ _ s Hc); by mstep (createMask8 (p mod 8) s Hm)|].
  split; [done|]. intros j Hj. cbn [u6_addr8 with_addr6]. pose proof (byte_index j Hj).
  rewrite bit_insert by done. rewrite Z.land_spec, mask_bit by lia. destruct (decide (j / 8 = p / 8)) as [E|E].
  - rewrite bit_position, Hb by done. destruct (Z.eqb_spec (j / 8) (p / 8)); [|done]. simpl.
    destruct (j <? p); simpl; [apply andb_false_r|by rewrite andb_true_r].
  - by destruct (Z.eqb_spec (j / 8) (p / 8)).
Qed.
End Networks6.

(** For an IPv6 prefix below 128, bit by bit from the left: the broadcast
    address has the prefix of the address and ones behind it, the subnet mask
    ones in the prefix and zeros behind it. [networkAddress] clears, of the
    byte with the boundary, the part that belongs to the prefix, and leaves
    everything else as it is. From a prefix of 128 on all three index behind
    the sixteen bytes. *)
Theorem ipv6_networks p a (s : unit) : length (u6_addr8 a) = 16%nat → 0 ≤ p →
  (p < 128 →
     (∃ b, broadcast6 p a s = Ret b s ∧ sin6_port b = sin6_port a ∧
        ∀ j, 0 ≤ j < 128 → bit_of (u6_addr8 b) j = if j <? p then bit_of (u6_addr8 a) j else true) ∧
     (∃ m, subnetMask6 p a s = Ret m s ∧ sin6_port m = sin6_port a ∧
        ∀ j, 0 ≤ j < 128 → bit_of (u6_addr8 m) j = (j <? p)) ∧
     (∃ n, network6 p a s = Ret n s ∧ sin6_port n = sin6_port a ∧
        ∀ j, 0 ≤ j < 128 → bit_of (u6_addr8 n) j =
          if (j / 8 =? p / 8) && (j <? p) then false else bit_of (u6_addr8 a) j)) ∧
  (128 ≤ p → broadcast6 p a s = Fault OutOfBounds ∧ network6 p a s = Fault OutOfBounds ∧
             subnetMask6 p a s = Fault OutOfBounds).
Proof.
  intros Hl H0. split.
  - intros Hp. split; [by apply broadcast6_bits|split; [by apply subnetMask6_bits|by apply network6_bits]].
  - intros Hp. assert (16 ≤ p / 8) by (apply Z.div_le_lower_bound; lia).
    unfold broadcast6, network6, subnetMask6.
    split_and!; (erewrite bind_Fault; [done|]; apply byte_at_bad; unfold zlen; rewrite ?Hl; simpl; lia).
Qed.

(** fe80::1 with a prefix of 10: the mask is ffc0::, and the "network" of
    fec0::1, whose boundary byte is c0, has 00 there. *)
Lemma ipv6_networks_witness :
  let a := mkIn6 0 0 (Byte.xfe :: Byte.xc0 :: zeros 13 ++ [Byte.x01]) 0 in
  ∃ n, network6 10 a tt = Ret n tt ∧ bit_of (u6_addr8 n) 8 = false ∧ bit_of (u6_addr8 n) 0 = true.
Proof.
  intros a. destruct (ipv6_networks 10 a tt eq_refl ltac:(lia)) as [P _].
  destruct (P ltac:(lia)) as (_ & _ & (n & E & _ & B)). exists n. split; [exact E|].
  split; (rewrite B by lia; vm_compute; reflexivity).
Defined.

(** ** The order of addresses *)

(** The lexicographic order of byte strings. *)
Fixpoint lex (l1 l2 : list byte) : comparison :=
  match l1, l2 with
  | [], [] => Eq
  | [], _ :: _ => Lt
  | _ :: _, [] => Gt
  | b1 :: l1, b2 :: l2 =>
      match byte.unsigned b1 ?= byte.unsigned b2 with Eq => lex l1 l2 | c => c end
  end.

Lemma lex_eq l1 l2 : lex l1 l2 = Eq ↔ l1 = l2.
Proof.
  revert l2. induction l1 as [|b1 l1 IH]; intros [|b2 l2]; simpl; try done.
  destruct (Z.compare_spec (byte.unsigned b1) (byte.unsigned b2)) as [E|E|E].
  - apply byte.unsigned_inj in E as ->. rewrite IH. naive_solver.
  - split; [done|intros [= -> ->]; lia].
  - split; [done|intros [= -> ->]; lia].
Qed.
Lemma lex_flip l1 l2 : lex l2 l1 = CompOpp (lex l1 l2).
Proof.
  revert l2. induction l1 as [|b1 l1 IH]; intros [|b2 l2]; simpl; try done.
  rewrite (Z.compare_antisym (byte.unsigned b1)). destruct (_ ?= _); simpl; [apply IH|done|done].
Qed.
Lemma lex_trans l1 l2 l3 : lex l1 l2 = Lt → lex l2 l3 = Lt → lex l1 l3 = Lt.
Proof.
  revert l2 l3. induction l1 as [|b1 l1 IH]; intros [|b2 l2] [|b3 l3]; simpl; try done.
  destruct (Z.compare_spec (byte.unsigned b1) (byte.unsigned b2)) as [E|E|E],
    (Z.compare_spec (byte.unsigned b2) (byte.unsigned b3)) as [F|F|F]; try done;
    destruct (Z.compare_spec (byte.unsigned b1) (byte.unsigned b3)); try done; try lia. apply IH.
Qed.

Lemma memcmp_lex l1 l2 : 
  match memcmp (take (length l1 `min` length l2) l1) (take (length l1 `min` length l2) l2) with
  | Lt => lex l1 l2 = Lt
  | Gt => lex l1 l2 = Gt
  | Eq => lex l1 l2 = (zlen l1 ?= zlen l2)
  end.
Proof.
  unfold zlen. revert l2. induction l1 as [|b1 l1 IH]; intros [|b2 l2]; cbn [length Nat.min take memcmp lex]; try done.
  destruct (Z.compare_spec (byte.unsigned b1) (byte.unsigned b2)); try done.
  specialize (IH l2). destruct (memcmp _ _); try done. rewrite IH.
  destruct (Z.compare_spec (Z.of_nat (length l1)) (Z.of_nat (length l2))),
    (Z.compare_spec (Z.of_nat (S (length l1))) (Z.of_nat (S (length l2)))); done || lia.
Qed.

Section Order.
Context `{Platform}.

(** The structure is as long as the address says. *)
Definition addr_wf (a : Address) : Prop := 0 ≤ getAddrLen a ≤ zlen (getAddr a).
(** The bytes of the address. *)
Definition key (a : Address) : list byte := take (Z.to_nat (getAddrLen a)) (getAddr a).

Lemma zlen_key a : addr_wf a → zlen (key a) = getAddrLen a.
Proof. unfold addr_wf, key, zlen. intros. rewrite length_take. lia. Qed.

Lemma operator_lt_lex a b : addr_wf a → addr_wf b → operator_lt a b = true ↔ lex (key a) (key b) = Lt.
Proof.
  intros Ha Hb. pose proof (memcmp_lex (key a) (key b)) as M. unfold operator_lt.
  assert (T : ∀ c, addr_wf c → Z.min (getAddrLen a) (getAddrLen b) ≤ getAddrLen c →
    take (Z.to_nat (Z.min (getAddrLen a) (getAddrLen b))) (getAddr c) =
    take (length (key a) `min` length (key b)) (key c)).
  { intros c Hc Hle. unfold key at 3. rewrite take_take. f_equal.
    pose proof (zlen_key a Ha). pose proof (zlen_key b Hb). unfold zlen in *. lia. }
  rewrite (T a), (T b) by (done || lia). destruct (memcmp _ _); rewrite M; try done.
  rewrite !zlen_key by done. by rewrite Z.ltb_lt, Z.compare_lt_iff.
Qed.

Lemma memcmp_eq l1 l2 : length l1 = length l2 → memcmp l1 l2 = Eq ↔ l1 = l2.
Proof.
  intros E. pose proof (memcmp_lex l1 l2) as M. rewrite <-E, Nat.min_id, firstn_all, E, firstn_all in M.
  rewrite <-lex_eq. destruct (memcmp l1 l2); rewrite M; try done. unfold zlen. by rewrite E, Z.compare_refl.
Qed.

Lemma operator_eq_key a b : addr_wf a → addr_wf b → operator_eq a b = true ↔ key a = key b.
Proof.
  intros Ha Hb. unfold operator_eq. rewrite andb_true_iff, Z.eqb_eq.
  pose proof (zlen_key a Ha) as La. pose proof (zlen_key b Hb) as Lb. split.
  - intros [E M]. unfold key. rewrite <-E.
    apply memcmp_eq; [unfold addr_wf, zlen in *; rewrite !length_take; lia|]. by destruct (memcmp _ _).
  - intros E. assert (F : getAddrLen a = getAddrLen b) by congruence. split; [done|].
    replace (memcmp _ _) with Eq; [done|]. symmetry. unfold key in E. rewrite F in E |- *. rewrite E.
    by apply memcmp_eq.
Qed.
End Order.

(** C39: [operator<] is a strict total order of addresses, with [operator==] as
    its equality, so that addresses can be keys of the ordered containers: it
    is the lexicographic order of their bytes. *)
Theorem address_order `{Platform} a b c : addr_wf a → addr_wf b → addr_wf c →
  operator_lt a a = false ∧
  (operator_lt a b = true → operator_lt b c = true → operator_lt a c = true) ∧
  (operator_lt a b = true → operator_lt b a = false ∧ operator_eq a b = false) ∧
  (operator_lt a b = true ∨ operator_eq a b = true ∨ operator_lt b a = true) ∧
  (operator_eq a b = true ↔ key a = key b).
Proof.
  intros Ha Hb Hc.
  pose proof (operator_lt_lex a b Ha Hb) as Lab. pose proof (operator_lt_lex b a Hb Ha) as Lba.
  pose proof (operator_eq_key a b Ha Hb) as Eab. pose proof (lex_flip (key a) (key b)) as F.
  pose proof (lex_eq (key a) (key b)) as Q.
  split; [|split; [|split; [|split; [|done]]]].
  - apply not_true_is_false. rewrite operator_lt_lex by done. by rewrite (proj2 (lex_eq _ _) eq_refl).
  - rewrite !operator_lt_lex by done. apply lex_trans.
  - intros Hlt. rewrite Lab in Hlt. rewrite Hlt in F, Q.
    split; apply not_true_is_false; [rewrite Lba, F; done|rewrite Eab, <-Q; done].
  - rewrite Lab, Eab, Lba, <-Q, F. destruct (lex (key a) (key b)); auto.
Qed.

Lemma address_order_witness :
  let H := x86_64 in
  let a := IPv4Address (IPv4_new 3232235783 80) in let b := IPv6Address IPv6_any in
  operator_lt a b = true ∧ operator_lt b a = false.
Proof.
  intros H a b. assert (E : operator_lt a b = true) by (vm_compute; reflexivity). split; [exact E|].
  apply (address_order a b a); [vm_compute; split; congruence..|exact E].
Defined.

(** ** Text *)

(** Reading the tokens of an IPv6 address back (RFC 4291, 2.2): groups
    separated by colons, with one double colon for a run of zero groups. *)
Fixpoint read_groups (ts : list token) : list Z * list token :=
  match ts with
  | Group n :: ((Colon :: ((Group _ :: _) as rest))) =>
      let r := read_groups rest in (n :: r.1, r.2)
  | Group n :: rest => ([n], rest)
  | _ => ([], ts)
  end.
Definition expand (ts : list token) : option (list Z) :=
  let r := read_groups ts in
  match r.2 with
  | [] => if (length r.1 =? 8)%nat then Some r.1 else None
  | Colon :: Colon :: rest =>
      let q := read_groups rest in
      match q.2 with
      | [] => if (length r.1 + length q.1 <? 8)%nat
              then Some (r.1 ++ replicate (8 - length r.1 - length q.1) 0 ++ q.1) else None
      | _ => None
      end
  | _ => None
  end.

Section Text.
Context `{Platform}.

Lemma bs16_0 : byteswapToBigEndian uint16_t 0 = 0.
Proof. unfold byteswapToBigEndian. by destruct LON_ENDIAN. Qed.

Notation bs16 := (byteswapToBigEndian uint16_t).

(** The tokens of groups without a run of zeros between them. *)
Definition tail_tokens (l : list Z) : list token := l ≫= λ g, [Colon; Group (bs16 g)].
Definition join (l : list Z) : list token :=
  match l with [] => [] | g :: l => Group (bs16 g) :: tail_tokens l end.

Lemma loop_after p l : insert6_loop (Some p) true l = (tail_tokens l, true).
Proof.
  revert p. induction l as [|g l IH]; intros p; [done|]. cbn [insert6_loop].
  rewrite andb_false_r, andb_false_r. cbn. by rewrite IH.
Qed.

Lemma loop_gap k r R : r ≠ 0 →
  insert6_loop (Some 0) false (replicate k 0 ++ r :: R) = (Colon :: Colon :: join (r :: R), true).
Proof.
  intros Hr. induction k as [|k IH]; cbn [replicate app insert6_loop].
  - destruct (Z.eqb_spec r 0); [done|]. cbn. by rewrite loop_after.
  - exact IH.
Qed.
Lemma loop_zeros k : insert6_loop (Some 0) false (replicate k 0) = ([], false).
Proof. induction k as [|k IH]; [done|exact IH]. Qed.

Lemma loop_lead A p l : p ≠ 0 → Forall (λ g, g ≠ 0) A →
  ∃ q, q ≠ 0 ∧ insert6_loop (Some p) false (A ++ l) =
    (tail_tokens A ++ (insert6_loop (Some q) false l).1, (insert6_loop (Some q) false l).2).
Proof.
  intros Hp HA. revert p Hp. induction HA as [|g A Hg _ IH]; intros p Hp.
  { exists p. split; [done|]. by destruct (insert6_loop _ _ _). }
  destruct (IH g Hg) as (q & Hq & E). exists q. split; [done|]. cbn [app insert6_loop].
  destruct (Z.eqb_spec g 0), (Z.eqb_spec p 0); try done. cbn. by rewrite E.
Qed.

(** The shape of a list of groups. *)
Lemma zero_run (l : list Z) : ∃ A k R, l = A ++ replicate k 0 ++ R ∧ Forall (λ g, g ≠ 0) A ∧
  (k = 0%nat → R = []) ∧ (∀ r R', R = r :: R' → r ≠ 0).
Proof.
  induction l as [|g l (A & k & R & -> & HA & HR & Hr)]; [by exists [], 0%nat, []|].
  destruct (decide (g = 0)) as [->|Hg].
  - destruct A as [|a A].
    + exists [], (S k), R. split_and!; try done.
    + apply Forall_cons in HA as [Ha HA]. exists [], 1%nat, (a :: A ++ replicate k 0 ++ R).
      split_and!; try done. by intros r R' [= <- _].
  - exists (g :: A), k, R. split_and!; try done. by constructor.
Qed.

(** The loop from the first zero on. *)
Definition from_zeros (R : list Z) : list token * bool :=
  match R with [] => ([], false) | _ => (Colon :: Colon :: join R, true) end.

Lemma loop_run prev k R : (∀ r R', R = r :: R' → r ≠ 0) →
  insert6_loop prev false (replicate (S k) 0 ++ R) = from_zeros R.
Proof.
  intros Hr. cbn [replicate app insert6_loop Z.eqb negb andb]. unfold from_zeros.
  destruct R as [|r R]; [by rewrite app_nil_r, loop_zeros|]. apply loop_gap. by eapply Hr.
Qed.

Lemma loop_all A l : Forall (λ g, g ≠ 0) A → (∀ prev, insert6_loop prev false l = insert6_loop None false l) →
  insert6_loop None false (A ++ l) =
    (join A ++ (insert6_loop None false l).1, (insert6_loop None false l).2).
Proof.
  intros HA Hl. destruct HA as [|a A Ha HA]; [by destruct (insert6_loop _ _ _)|].
  cbn [app insert6_loop]. destruct (Z.eqb_spec a 0); [done|]. cbn.
  destruct (loop_lead A a l Ha HA) as (q & _ & E). rewrite E, Hl. done.
Qed.

Lemma tokens_shape A k R : Forall (λ g, g ≠ 0) A → (k = 0%nat → R = [] ∧ A ≠ []) →
  (∀ r R', R = r :: R' → r ≠ 0) →
  insert6_tokens (A ++ replicate k 0 ++ R) = join A ++ (if (k =? 0)%nat then [] else Colon :: Colon :: join R).
Proof.
  intros HA HR Hr. unfold insert6_tokens. destruct k as [|k].
  - destruct (HR eq_refl) as [-> HA']. cbn [replicate app]. rewrite !app_nil_r.
    rewrite <-(app_nil_r A) at 1 2. rewrite loop_all by done. cbn. rewrite app_nil_r.
    destruct (last A) as [x|] eqn:E; [|by apply last_None in E].
    apply last_Some_elem_of in E. rewrite Forall_forall in HA. simpl.
    destruct (Z.eqb_spec x 0); [by destruct (HA x E)|]. apply app_nil_r.
  - assert (Hrun : ∀ prev, insert6_loop prev false (replicate (S k) 0 ++ R) = from_zeros R)
      by (intros; by apply loop_run).
    rewrite loop_all by (try done; intros; by rewrite !Hrun). rewrite Hrun. cbn [Nat.eqb fst snd].
    destruct R as [|r R]; cbn [from_zeros fst snd negb andb]; rewrite app_nil_r; [|done].
    rewrite app_nil_r. rewrite last_app. replace (replicate (S k) 0) with (replicate k 0 ++ [0])
      by (by rewrite <-replicate_cons_app). rewrite last_snoc. simpl. done.
Qed.

Lemma read_join A rest : (∀ n ts, rest ≠ Colon :: Group n :: ts) → (∀ n ts, rest ≠ Group n :: ts) →
  read_groups (join A ++ rest) = (bs16 <$> A, rest).
Proof.
  intros H1 H2. destruct A as [|a A]; cbn [join app].
  { destruct rest as [|[|n] rest]; try done. by destruct (H2 n rest). }
  revert a. induction A as [|b A IH]; intros a; cbn.
  - destruct rest as [|[|n] [|[|m] rest]]; try done. by destruct (H1 m rest).
  - change (Group (bs16 b) :: tail_tokens A ++ rest) with ((Group (bs16 b) :: tail_tokens A) ++ rest).
    specialize (IH b). cbn [app] in IH. unfold tail_tokens in IH. cbn in IH. rewrite IH. done.
Qed.

(** The text of an IPv6 address denotes its groups. *)
Lemma expand_tokens (l : list Z) : length l = 8%nat →
  expand (insert6_tokens l) = Some (bs16 <$> l).
Proof.
  intros Hl. destruct (zero_run l) as (A & k & R & -> & HA & HR & Hr).
  rewrite !length_app, length_replicate in Hl.
  rewrite tokens_shape; [|done| |done].
  2: { intros ->. rewrite HR in * by done. split; [done|]. intros ->. simpl in Hl. lia. }
  unfold expand. destruct k as [|k]; cbn [Nat.eqb].
  - rewrite HR in * by done. rewrite app_nil_r. rewrite <-(app_nil_r (join A)), read_join by done. simpl.
    rewrite length_fmap. simpl in Hl. rewrite Nat.add_0_r in Hl. rewrite Hl. cbn. by rewrite app_nil_r.
  - rewrite read_join by (intros; congruence). cbn [fst snd].
    rewrite <-(app_nil_r (join R)), read_join by done. cbn [fst snd]. rewrite !length_fmap.
    destruct (Nat.ltb_spec (length A + length R) 8); [|lia].
    rewrite !fmap_app, fmap_replicate, bs16_0. do 3 f_equal. f_equal. lia.
Qed.
End Text.

(** The groups of an address in network byte order. *)
Definition be_groups (bs : list byte) : list Z :=
  (λ i, match take 2 (drop (2 * i) bs) with
        | [b0; b1] => byte.unsigned b0 * 256 + byte.unsigned b1
        | _ => 0
        end) <$> seq 0 8.

Section Bytes16.
Context `{Platform}.

Lemma swap16_bytes b0 b1 : byteswap uint16_t (le_combine [b0; b1]) = byte.unsigned b0 * 256 + byte.unsigned b1.
Proof.
  assert (C : ∀ x y, le_combine [x; y] = byte.unsigned x + 256 * byte.unsigned y).
  { intros x y. pose proof (byte.unsigned_range x). pose proof (byte.unsigned_range y).
    change (le_combine [x; y]) with (Z.lor (byte.unsigned x) (Z.shiftl (Z.lor (byte.unsigned y) (Z.shiftl 0 8)) 8)).
    rewrite Z.shiftl_0_l, Z.lor_0_r. rewrite lor_shift_add by lia. lia. }
  pose proof (byte.unsigned_range b0). pose proof (byte.unsigned_range b1).
  unfold byteswap, ity_conv, bswap, ity_bits. cbn [ity_signed ity_size uint16_t]. change (8 * Z.of_nat 2) with 16.
  rewrite (wrapu_small 16 ltac:(lia) (le_combine [b0; b1])) by (unfold urange; rewrite ?C; lia).
  change 2%nat with (length [b0; b1]) at 1. rewrite split_le_combine. cbn [rev app]. rewrite C.
  rewrite wrapu_small by (unfold urange; lia). lia.
Qed.

Lemma bs16_mem b0 b1 : byteswapToBigEndian uint16_t (of_mem uint16_t [b0; b1]) =
  byte.unsigned b0 * 256 + byte.unsigned b1.
Proof.
  unfold byteswapToBigEndian, of_mem. destruct LON_ENDIAN.
  - rewrite byteswap_conv by (simpl; lia). apply swap16_bytes.
  - cbn [rev app]. rewrite <-swap16_bytes. unfold byteswap, bswap, ity_conv, ity_bits.
    cbn [ity_signed ity_size uint16_t]. change (8 * Z.of_nat 2) with 16. f_equal.
    change 2%nat with (length [b0; b1]) at 1. rewrite (wrapu_small 16 ltac:(lia) (le_combine [b0; b1])).
    + by rewrite split_le_combine.
    + apply le_combine_bound.
Qed.

Lemma groups_be bs : length bs = 16%nat →
  (byteswapToBigEndian uint16_t <$> groups bs) = be_groups bs.
Proof.
  intros Hl. unfold groups, be_groups.
  assert (P : ∀ i, (i < 8)%nat → byteswapToBigEndian uint16_t (of_mem uint16_t (take 2 (drop (2 * i) bs))) =
    match take 2 (drop (2 * i) bs) with
    | [b0; b1] => byte.unsigned b0 * 256 + byte.unsigned b1 | _ => 0 end).
  { intros i Hi. pose proof (length_drop bs (2 * i)) as L. rewrite Hl in L.
    destruct (drop (2 * i) bs) as [|b0 [|b1 l]]; [simpl in L; lia..|]. cbn [take]. apply bs16_mem. }
  rewrite <-list_fmap_compose. apply list_fmap_ext. intros i k Hk. apply lookup_seq in Hk as [-> Hk].
  unfold compose. apply P. lia.
Qed.
End Bytes16.

(** The text of an address denotes it: the dotted quad and the port of an
    IPv4 address are those it was made from, on either platform, and the
    groups of an IPv6 text, with its "::" expanded as in RFC 4291, are the
    sixteen bytes of the address. *)
Theorem address_text `{Platform} :
  (∀ n port, urange 32 n → urange 16 port →
     insert4 (IPv4_new n port) =
       (dec (n / 2 ^ 24) +:+ "." +:+ dec (n / 2 ^ 16 mod 256) +:+ "." +:+ dec (n / 2 ^ 8 mod 256) +:+ "." +:+
        dec (n mod 256) +:+ ":" +:+ dec port)%string) ∧
  (∀ a, length (u6_addr8 a) = 16%nat →
     insert6 a = ("[" +:+ String.concat "" (show_token <$> insert6_tokens (groups (u6_addr8 a))) +:+ "]:" +:+
                  dec (byteswapToBigEndian uint16_t (sin6_port a)))%string ∧
     expand (insert6_tokens (groups (u6_addr8 a))) = Some (be_groups (u6_addr8 a))).
Proof.
  split.
  - intros n port Hn Hp. unfold insert4, IPv4_new. cbn [s_addr sin_port]. rewrite bs_bs by done.
    assert (E : byteswapToBigEndian uint16_t (byteswapToBigEndian uint16_t port) = port).
    { unfold byteswapToBigEndian. destruct LON_ENDIAN; [|done].
      rewrite byteswap_involutive_conv by (simpl; lia). apply ity_conv_small; [simpl; lia|exact Hp]. }
    rewrite E. change 255 with (Z.ones 8). rewrite !Z.land_ones, !Z.shiftr_div_pow2 by lia. change (2 ^ 8) with 256.
    rewrite (Z.mod_small (n / 2 ^ 24)); [done|]. unfold urange in Hn.
    split; [apply Z.div_pos; lia|apply Z.div_lt_upper_bound; lia].
  - intros a Ha. split; [done|]. rewrite expand_tokens by done. by rewrite groups_be.
Qed.

(** 192.168.1.10:8080 *)
Lemma address_text_witness :
  insert4 (IPv4_new (H := x86_64) 3232235786 8080) (H := x86_64) = "192.168.1.10:8080"%string.
Proof.
  rewrite (proj1 (address_text (H := x86_64)) 3232235786 8080 ltac:(unfold urange; lia) ltac:(unfold urange; lia)).
  vm_compute. reflexivity.
Defined.

Lemma of_to_mem16 `{Platform} v : urange 16 v → of_mem uint16_t (to_mem uint16_t v) = v.
Proof. intros. rewrite of_to_mem by (simpl; lia). by apply ity_conv_small; [simpl; lia|]. Qed.
Lemma of_to_mem32 `{Platform} v : urange 32 v → of_mem uint32_t (to_mem uint32_t v) = v.
Proof. intros. rewrite of_to_mem by (simpl; lia). by apply ity_conv_small; [simpl; lia|]. Qed.

(** The fields of the two structures, by their offsets. *)
Lemma fields_in (F P A z : list byte) : length F = 2%nat → length P = 2%nat → length A = 4%nat → length z = 8%nat →
  let m := F ++ P ++ A ++ z in
  field m 0 2 = Some F ∧ field m 2 2 = Some P ∧ field m 4 4 = Some A ∧ field m 8 8 = Some z.
Proof.
  intros HF HP HA Hz. repeat (destruct F; try done). repeat (destruct P; try done).
  repeat (destruct A; try done). repeat (destruct z; try done).
Qed.
Lemma fields_in6 (F P L a C : list byte) : length F = 2%nat → length P = 2%nat → length L = 4%nat →
  length a = 16%nat → length C = 4%nat →
  let m := F ++ P ++ L ++ a ++ C in
  field m 0 2 = Some F ∧ field m 2 2 = Some P ∧ field m 4 4 = Some L ∧ field m 8 16 = Some a ∧ field m 24 4 = Some C.
Proof.
  intros HF HP HL Ha HC. repeat (destruct F; try done). repeat (destruct P; try done).
  repeat (destruct L; try done). repeat (destruct a; try done). repeat (destruct C; try done).
Qed.

Definition ip_wf (a : Address) : Prop :=
  match a with
  | IPv4Address a => urange 16 (sin_port a) ∧ urange 32 (s_addr a) ∧ length (sin_zero a) = 8%nat
  | IPv6Address a => urange 16 (sin6_port a) ∧ urange 32 (sin6_flowinfo a) ∧ urange 32 (sin6_scope_id a) ∧
      length (u6_addr8 a) = 16%nat
  | _ => False
  end.

Section Roundtrip.
Context `{Platform}.

Lemma af_range : urange 16 AF_INET ∧ urange 16 AF_INET6.
Proof. by vm_compute. Qed.

Lemma create_in {S} a (s : S) : ip_wf (IPv4Address a) → create (Some (mem_in a)) s = Ret (Some (IPv4Address a)) s.
Proof.
  destruct a as [p ad z]. intros (Wp & Wa & Wz). unfold create, mem_in. cbn [sin_port s_addr sin_zero] in *.
  destruct (fields_in (to_mem uint16_t AF_INET) (to_mem uint16_t p) (to_mem uint32_t ad) z) as (-> & -> & -> & ->);
    [by apply length_to_mem..|done|].
  rewrite !of_to_mem16 by (done || apply af_range). cbn [Z.eqb AF_INET Pos.eqb]. by rewrite of_to_mem32.
Qed.
Lemma create_in6 {S} a (s : S) : ip_wf (IPv6Address a) → create (Some (mem_in6 a)) s = Ret (Some (IPv6Address a)) s.
Proof.
  destruct a as [p fl ad sc]. intros (Wp & Wf & Ws & Wz). unfold create, mem_in6.
  cbn [sin6_port sin6_flowinfo u6_addr8 sin6_scope_id] in *.
  destruct (fields_in6 (to_mem uint16_t AF_INET6) (to_mem uint16_t p) (to_mem uint32_t fl) ad (to_mem uint32_t sc))
    as (-> & -> & -> & -> & ->); [by apply length_to_mem..|done|by apply length_to_mem|].
  rewrite !of_to_mem16 by (done || apply af_range). cbn [Z.eqb AF_INET AF_INET6 Pos.eqb]. by rewrite !of_to_mem32.
Qed.

Lemma getFamily_ip a : ip_wf a → getFamily a = match a with IPv4Address _ => AF_INET | _ => AF_INET6 end.
Proof.
  destruct a as [a|a| |]; try done; intros _; unfold getFamily; cbn [getAddr]; unfold mem_in, mem_in6;
    rewrite take_app_length' by (by rewrite length_to_mem); apply of_to_mem16, af_range.
Qed.

Lemma zlen_getAddr a : ip_wf a → zlen (getAddr a) = getAddrLen a.
Proof.
  unfold zlen. destruct a as [a|a| |]; try done; cbn [ip_wf getAddr getAddrLen]; unfold mem_in, mem_in6;
    rewrite !length_app, !length_to_mem; [intros (_ & _ & ->)|intros (_ & _ & _ & ->)]; done.
Qed.

Lemma bs16_bs16 v : urange 16 v → byteswapToBigEndian uint16_t (byteswapToBigEndian uint16_t v) = v.
Proof.
  intros Hv. unfold byteswapToBigEndian. destruct LON_ENDIAN; [|done].
  rewrite byteswap_involutive_conv by (simpl; lia). apply ity_conv_small; [simpl; lia|exact Hv].
Qed.
End Roundtrip.

(** What the sockets API is given for an address is read back as the same
    address, the family it reports is its own, and a port that is set is the
    port that is got, with nothing else changed. *)
Theorem sockaddr_roundtrip `{Platform} a port (s : unit) : ip_wf a → urange 16 port →
  create (Some (getAddr a)) s = Ret (Some a) s ∧
  getFamily a = (match a with IPv4Address _ => AF_INET | _ => AF_INET6 end) ∧
  zlen (getAddr a) = getAddrLen a ∧
  getPort (setPort port a) = Some port ∧ setPort port (setPort 0 a) = setPort port a ∧
  (getPort a = Some port → setPort port a = a).
Proof.
  intros W Hp. split; [|split; [by apply getFamily_ip|split; [by apply zlen_getAddr|]]].
  { destruct a; try done; cbn [getAddr]; [by apply create_in|by apply create_in6]. }
  destruct a as [[p ad z]|[p fl ad sc]|?|?]; try done; cbn [setPort getPort sin_port sin6_port] in *;
    (split; [by rewrite bs16_bs16|split; [done|]]); intros [= E]; do 2 f_equal; rewrite <-E; apply bs16_bs16, W.
Qed.

Lemma sockaddr_roundtrip_witness :
  let H := x86_64 in let a := IPv4Address (IPv4_new 3232235783 80) in
  create (Some (getAddr a)) tt = Ret (Some a) tt ∧ getPort (setPort 443 a) = Some 443.
Proof.
  intros H a.
  destruct (sockaddr_roundtrip a 443 tt) as (P & _ & _ & Q & _);
    [vm_compute; repeat split; congruence|vm_compute; split; congruence|]. split; [exact P|exact Q].
Defined.

(** ** Host and service *)

Definition chars (s : string) : list ascii := list_ascii_of_string s.

Lemma memchr_none c (s : list ascii) : c ∉ s → memchr c s = None.
Proof.
  induction s as [|x s IH]; intros Hn; [done|]. cbn. destruct (ascii_dec x c) as [->|]; [set_solver|].
  rewrite IH by set_solver. done.
Qed.
Lemma memchr_app c (a b : list ascii) : c ∉ a → memchr c (a ++ c :: b) = Some (a, b).
Proof.
  induction a as [|x a IH]; intros Hn; cbn.
  - by destruct (ascii_dec c c).
  - destruct (ascii_dec x c) as [->|]; [set_solver|]. by rewrite IH by set_solver.
Qed.

(** [Address::parse] asks for the name and the service of "name:service",
    and for the name alone without a colon. With the two notations of an IPv6
    address it does not: "[addr]:service" keeps the opening bracket in the
    node, and an address without brackets, although taken as a whole for the
    node, still comes with everything from its first colon on as a service. *)
Theorem host_and_service name service : name ≠ [] → head name ≠ Some "["%char → colon ∉ name →
  colon ∉ service →
  split_host (name ++ colon :: service) = (name, Some service) ∧
  split_host name = (name, None) ∧
  (∀ addr, "]"%char ∉ addr →
     split_host ("["%char :: addr ++ "]"%char :: colon :: service) = ("["%char :: addr, Some service)) ∧
  (∀ rest, colon ∈ rest → split_host (name ++ colon :: rest) = (name ++ colon :: rest, Some (colon :: rest))).
Proof.
  intros Hne Hb Hc Hs. destruct name as [|x name]; [done|].
  assert (Hx : x ≠ "["%char) by (simpl in Hb; congruence).
  split; [|split; [|split]].
  - unfold split_host. cbn [app]. destruct (ascii_dec x "["); [done|]. cbn [fst snd].
    change (x :: name ++ colon :: service) with ((x :: name) ++ colon :: service).
    rewrite memchr_app by done. by rewrite memchr_none.
  - unfold split_host. destruct (ascii_dec x "["); [done|]. cbn [fst snd]. by rewrite memchr_none.
  - intros addr Ha. unfold split_host. destruct (ascii_dec "[" "["); [|done].
    rewrite memchr_app by done. by destruct (ascii_dec colon colon).
  - intros rest Hr. unfold split_host. cbn [app]. destruct (ascii_dec x "["); [done|]. cbn [fst snd].
    change (x :: name ++ colon :: rest) with ((x :: name) ++ colon :: rest). rewrite memchr_app by done.
    apply list_elem_of_split in Hr as (l1 & l2 & ->).
    destruct (memchr colon (l1 ++ colon :: l2)) eqn:E; [done|]. exfalso. revert E. clear.
    induction l1 as [|y l1 IH]; cbn; [by destruct (ascii_dec colon colon)|].
    destruct (ascii_dec y colon); [done|].
    destruct (memchr colon (l1 ++ colon :: l2)) as [[? ?]|]; [done|]. intros _. by apply IH.
Qed.

Lemma host_and_service_witness : split_host (chars "www.example.org:80") = (chars "www.example.org", Some (chars "80")).
Proof.
  apply (host_and_service (chars "www.example.org") (chars "80"));
    [done|done|apply (bool_decide_unpack _); vm_compute; exact I|apply (bool_decide_unpack _); vm_compute; exact I].
Defined.
