(* ===== verification/Socket.v ===== *)
(** * Sockets (net/socket.h, net/socket.cpp, the Linux branch)

    A Socket object over the hooked system calls ([Hook]). What the kernel
    answers is an argument of each operation: the results of a hooked call and
    the ends of its waits, as for [Hook.io], and the address [getsockname] and
    [getpeername] return. Log output is left out. *)

From S2P Require Import Prelude Codec Hook IOScheduler Address.
#[local] Open Scope Z_scope.

Definition SOCK_STREAM : Z := 1.
Definition SOCK_DGRAM : Z := 2.

(** [enum Type] and [enum Family] *)
Definition TCP : Z := SOCK_STREAM.
Definition UDP : Z := SOCK_DGRAM.
Definition IPV4 : Z := AF_INET.
Definition IPV6 : Z := AF_INET6.
Definition UNIX : Z := AF_UNIX.

Record Socket := mkSocket {
  m_sockfd : Z;
  m_family : Z;
  m_type : Z;
  m_protocol : Z;
  m_is_connected : bool;
  m_local_addr : option Address;
  m_peer_addr : option Address;
}.

(** [Socket::Socket(family, type, protocol)] *)
Definition Socket_new (family type protocol : Z) : Socket :=
  mkSocket (-1) family type protocol false None None.

(** [Socket::create(family, type)] and [Socket::create(addr, type)] *)
Definition Socket_create (family type : Z) : option Socket :=
  if (family =? IPV4) || (family =? IPV6) || (family =? UNIX) then
    if (type =? TCP) || (type =? UDP) then Some (Socket_new family type 0) else None
  else None.
Definition Socket_create_for `{Platform} (addr : Address) (type : Z) : option Socket :=
  if (type =? TCP) || (type =? UDP) then Some (Socket_new (getFamily addr) type 0) else None.

(** The object and the operating system below it. *)
Record sockw := mkSockw { sock : Socket; os : hookw }.

Definition on_os {A} (m : M hookw A) : M sockw A := λ w,
  match m (os w) with
  | Ret a o => Ret a (mkSockw (sock w) o)
  | Throw e o => Throw e (mkSockw (sock w) o)
  | Fault f => Fault f
  end.
Definition on_sock (g : Socket → Socket) : M sockw unit := mmodify (λ w, mkSockw (g (sock w)) (os w)).

Definition set_fd (fd : Z) (s : Socket) : Socket :=
  mkSocket fd (m_family s) (m_type s) (m_protocol s) (m_is_connected s) (m_local_addr s) (m_peer_addr s).
Definition set_connected (b : bool) (s : Socket) : Socket :=
  mkSocket (m_sockfd s) (m_family s) (m_type s) (m_protocol s) b (m_local_addr s) (m_peer_addr s).

Definition isConnected (s : Socket) : bool := m_is_connected s.
Definition isValid (s : Socket) : bool := negb (m_sockfd s =? -1).

(** ** Timeouts and options *)

Definition get_timeout (ev : Z) : M sockw Z :=
  w <- mget;;
  fd <- on_os (fd_get (m_sockfd (sock w)) false);;
  mreturn (match fd with Some f => getTimeout ev f | None => -1 end).
Definition getSendTimeout : M sockw Z := get_timeout WRITE.
Definition getRecvTimeout : M sockw Z := get_timeout READ.

(** [tv_sec = timeout / 1000; tv_usec = (timeout % 1000) * 1000], handed to
    [setsockopt]; [r] is its result. *)
Definition set_timeout (ev timeout : Z) (r : sysres) : M sockw unit :=
  w <- mget;;
  x <- on_os (h_setsockopt_timeo (m_sockfd (sock w)) ev (Z.quot timeout 1000) (Z.rem timeout 1000 * 1000) r);;
  mreturn tt.
Definition setSendTimeout : Z → sysres → M sockw unit := set_timeout WRITE.
Definition setRecvTimeout : Z → sysres → M sockw unit := set_timeout READ.

(** [getOption] and [setOption] with [r] the result of the system call; only
    the timeouts, above, are looked at by the hooks. *)
Definition getOption (r : sysres) : bool := match r with SVal 0 => true | _ => false end.
Definition setOption (r : sysres) : bool := getOption r.
(** [getError()]: [v] is the option's value. *)
Definition getError (r : sysres) (v : Z) : Z := if getOption r then v else -1.

(** ** Addresses *)

(** The empty address the name is read into, and the family of an unknown one. *)
Definition empty_address `{Platform} (family : Z) : Address :=
  if family =? AF_INET then IPv4Address (IPv4_new 0 0)
  else if family =? AF_INET6 then IPv6Address IPv6_any
  else if family =? AF_UNIX then UnixAddress Unix_any
  else UnknownAddress family (zeros 14).

(** [getLocalAddress()] and [getPeerAddress()]: [name] is the filled-in
    address, [None] when the system call failed. *)
Definition getLocalAddress (name : option Address) : M sockw Address :=
  w <- mget;;
  match m_local_addr (sock w), name with
  | Some a, _ => mreturn a
  | None, None => mreturn (UnknownAddress (m_family (sock w)) (zeros 14))
  | None, Some a =>
      on_sock (λ s, mkSocket (m_sockfd s) (m_family s) (m_type s) (m_protocol s) (m_is_connected s) (Some a) (m_peer_addr s));;
      mreturn a
  end.
Definition getPeerAddress (name : option Address) : M sockw Address :=
  w <- mget;;
  match m_peer_addr (sock w), name with
  | Some a, _ => mreturn a
  | None, None => mreturn (UnknownAddress (m_family (sock w)) (zeros 14))
  | None, Some a =>
      on_sock (λ s, mkSocket (m_sockfd s) (m_family s) (m_type s) (m_protocol s) (m_is_connected s) (m_local_addr s) (Some a));;
      mreturn a
  end.

(** ** Opening and closing *)

(** [newSocket()]: [fd] is what the kernel's [socket] returned, and from then
    on open there (flags O_RDWR); the options [initSocket] sets have no effect
    here. *)
Definition newSocket (fd : Z) : M sockw unit :=
  (if fd <? 0 then mreturn tt else on_os (new_socket fd 2));;
  r <- on_os (h_socket fd);; on_sock (set_fd r).

(** [close()]; the result of the system call is not looked at. *)
Definition close : M sockw bool :=
  w <- mget;;
  if negb (m_is_connected (sock w)) && (m_sockfd (sock w) =? -1) then mreturn true else
  on_sock (set_connected false);;
  (if m_sockfd (sock w) =? -1 then mreturn tt else
   r <- on_os (h_close (m_sockfd (sock w)));; on_sock (set_fd (-1)));;
  mreturn true.

(** [if (!isValid()) { newSocket(); if (!isValid()) return false; }] and the
    comparison of the families. *)
Definition prepare `{Platform} (addr : Address) (fd : Z) : M sockw bool :=
  w <- mget;;
  (if isValid (sock w) then mreturn tt else newSocket fd);;
  w <- mget;;
  mreturn (isValid (sock w) && (m_family (sock w) =? getFamily addr)).

(** [bind(addr)]: [ok] is the success of the system call. *)
Definition bind `{Platform} (addr : Address) (fd : Z) (ok : bool) (name : option Address) : M sockw bool :=
  p <- prepare addr fd;;
  if negb p then mreturn false else
  if negb ok then mreturn false else
  getLocalAddress name;; mreturn true.

(** [connect(addr, timeout)]: [config] is the configured timeout; [r], [wk] and
    [e] answer [Hook.connect_with_timeout]. *)
Definition connect `{Platform} (addr : Address) (timeout config fd : Z) (r : sysres) (wk : wake) (e : sysres)
    (local peer : option Address) : M sockw bool :=
  p <- prepare addr fd;;
  if negb p then mreturn false else
  w <- mget;;
  res <- on_os (connect_with_timeout (m_sockfd (sock w)) (if timeout <? 0 then config else timeout) r wk e);;
  match res with
  | Some (SVal _, _) =>
      on_sock (set_connected true);; getLocalAddress local;; getPeerAddress peer;; mreturn true
  | Some _ => close;; mreturn false
  | None => mfault OutOfFuel
  end.

Definition listen (ok : bool) : M sockw bool := w <- mget;; mreturn (isValid (sock w) && ok).

(** [init(socketfd)] of the new object; the listening one is in the state. *)
Definition init (fd : Z) (s : Socket) (local peer : option Address) : M hookw (option Socket) :=
  f <- fd_get fd false;;
  mreturn (match f with
           | Some f => if isSocket f && negb (isClose f)
                       then Some (mkSocket fd (m_family s) (m_type s) (m_protocol s) true local peer) else None
           | None => None
           end).

(** [accept()]: when the calls end with a descriptor the kernel has made it. *)
Definition accept (rs : list sysres) (ws : list wake) (local peer : option Address) : M sockw (option Socket) :=
  w <- mget;;
  let s := sock w in
  made <- on_os (Hook.io (m_sockfd s) READ rs ws);;
  (match made with Some (SVal n, _) => on_os (new_socket n 2) | _ => mreturn tt end);;
  r <- on_os (h_accept (m_sockfd s) rs ws);;
  match r with
  | Some (SVal new_socket, _) =>
      if new_socket =? -1 then mreturn None else
      on_os (init new_socket (Socket_new (m_family s) (m_type s) (m_protocol s)) local peer)
  | Some _ => mreturn None
  | None => mfault OutOfFuel
  end.

(** ** Transfers: the eight functions differ in the system call only *)

(** [if (!isConnected()) return -1; return ::call(m_sockfd, ...)] *)
Definition transfer (call : Z → M hookw (option (sysres * list act))) : M sockw (option (sysres * list act)) :=
  w <- mget;;
  if negb (isConnected (sock w)) then mreturn (Some (SFail, [])) else
  on_os (call (m_sockfd (sock w))).
Definition send rs ws := transfer (λ fd, h_send fd rs ws).
Definition send_iov rs ws := transfer (λ fd, h_sendmsg fd rs ws).
Definition sendto rs ws := transfer (λ fd, h_sendto fd rs ws).
Definition sendto_iov rs ws := transfer (λ fd, h_sendmsg fd rs ws).
Definition recv rs ws := transfer (λ fd, h_recv fd rs ws).
Definition recv_iov rs ws := transfer (λ fd, h_recvmsg fd rs ws).
Definition recvfrom rs ws := transfer (λ fd, h_recvfrom fd rs ws).
Definition recvfrom_iov rs ws := transfer (λ fd, h_recvmsg fd rs ws).

(** [cancelRead], [cancelWrite], [cancelAccept], [cancelAll], on the events of
    the IOScheduler. *)
Definition cancelRead (s : Socket) (fail : bool) : M IOScheduler.io bool := cancelEvent (m_sockfd s) READ fail.
Definition cancelWrite (s : Socket) (fail : bool) : M IOScheduler.io bool := cancelEvent (m_sockfd s) WRITE fail.
Definition cancelAccept (s : Socket) (fail : bool) : M IOScheduler.io bool := cancelEvent (m_sockfd s) READ fail.
Definition cancelAll_events (s : Socket) (fail : bool) : M IOScheduler.io bool := cancelAll (m_sockfd s) fail.

(** ** A socket of a hooked thread *)

(** The object agrees with the table: no descriptor and not connected, or a
    managed socket. *)
Definition sock_ok (w : sockw) : Prop :=
  hooked (os w) ∧
  if m_sockfd (sock w) =? -1 then m_is_connected (sock w) = false
  else 0 ≤ m_sockfd (sock w) ∧ ∃ f, obj (os w) (m_sockfd (sock w)) = Some f ∧ isSocket f = true.

Lemma on_os_Ret {A} (m : M hookw A) w a o : m (os w) = Ret a o → on_os m w = Ret a (mkSockw (sock w) o).
Proof. intros E. unfold on_os. by rewrite E. Qed.

(** The timeouts of a valid socket. *)
Lemma set_timeout_spec ev t r w f : sock_ok w → isValid (sock w) = true → obj (os w) (m_sockfd (sock w)) = Some f →
  set_timeout ev t r w = Ret tt (mkSockw (sock w)
    (with_obj (m_sockfd (sock w)) (Some (setTimeout ev (s64 t) f)) (os w))).
Proof.
  intros [(W & He & Hi) _] _ Hf. pose proof (obj_range _ _ _ Hf) as [R _].
  unfold set_timeout. rewrite (bind_Ret mget _ w w w eq_refl).
  erewrite bind_Ret; [done|]. apply on_os_Ret. unfold h_setsockopt_timeo. mrun. rewrite He. cbn [negb].
  mstep (fd_get_spec (m_sockfd (sock w)) (os w) W R). rewrite Hf.
  assert (E : s64 (Z.quot t 1000 * 1000 + Z.quot (Z.rem t 1000 * 1000) 1000) = s64 t)
    by (rewrite Z.quot_mul by lia; f_equal; pose proof (Z.quot_rem' t 1000); lia).
  rewrite E. by mstep (update_fd_spec (m_sockfd (sock w)) (setTimeout ev (s64 t)) (os w) f Hf).
Qed.

Lemma get_timeout_spec ev w f : sock_ok w → obj (os w) (m_sockfd (sock w)) = Some f →
  get_timeout ev w = Ret (getTimeout ev f) w.
Proof.
  intros [(W & He & Hi) _] Hf. pose proof (obj_range _ _ _ Hf) as [R _].
  unfold get_timeout. rewrite (bind_Ret mget _ w w w eq_refl).
  erewrite bind_Ret; [|apply on_os_Ret, fd_get_spec; done]. rewrite Hf. by destruct w.
Qed.

Lemma setTimeout_fd_ok k ev t f : fd_ok k f → fd_ok k (setTimeout ev t f) ∧ isSocket (setTimeout ev t f) = isSocket f.
Proof. unfold setTimeout. by destruct (ev =? READ), (ev =? WRITE). Qed.

Lemma set_timeout_ok ev t w f : sock_ok w → isValid (sock w) = true → obj (os w) (m_sockfd (sock w)) = Some f →
  let f' := setTimeout ev (s64 t) f in
  let w' := mkSockw (sock w) (with_obj (m_sockfd (sock w)) (Some f') (os w)) in
  sock_ok w' ∧ obj (os w') (m_sockfd (sock w')) = Some f'.
Proof.
  intros Hok Hv Hf f' w'. pose proof (obj_range _ _ _ Hf) as R. destruct Hok as [Ho Hs].
  destruct (setTimeout_fd_ok (kernel (os w) !! m_sockfd (sock w)) ev (s64 t) f) as [K S]; [by apply Ho|].
  assert (Hf' : obj (os w') (m_sockfd (sock w')) = Some f') by (simpl; by rewrite obj_with_obj, decide_True).
  split; [|done]. split; [by eapply hooked_with_obj|]. cbn [sock w' os m_sockfd] in *.
  destruct (m_sockfd (sock w) =? -1); [done|]. destruct Hs as (H0 & g & Hg & Hsock). split; [done|].
  exists f'. split; [done|]. unfold f'. rewrite S. congruence.
Qed.

(** *** Every operation keeps the socket in order *)

Lemma sock_ok_connected b w : sock_ok w → (b = true → isValid (sock w) = true) →
  sock_ok (mkSockw (set_connected b (sock w)) (os w)).
Proof.
  intros [Ho Hs] Hb. split; [done|]. unfold isValid in Hb. cbn [sock set_connected m_sockfd m_is_connected] in *.
  destruct (m_sockfd (sock w) =? -1); [|done]. destruct b; [by specialize (Hb eq_refl)|done].
Qed.

Lemma newSocket_ok fd w : sock_ok w → isValid (sock w) = false →
  fd = -1 ∨ (0 ≤ fd ∧ kernel (os w) !! fd = None) →
  ∃ w', newSocket fd w = Ret tt w' ∧ sock_ok w' ∧ isValid (sock w') = (0 <=? fd) ∧ 
    m_family (sock w') = m_family (sock w) ∧ others fd (os w) (os w') ∧ m_sockfd (sock w') = fd.
Proof.
  intros [Ho Hs] Hv Hfd. unfold isValid in Hv. apply negb_false_iff in Hv. rewrite Hv in Hs.
  unfold newSocket. destruct Hfd as [->|[H0 Hk]].
  - cbn [Z.ltb Z.compare]. rewrite (bind_Ret (mreturn tt) _ w tt w eq_refl).
    assert (E : h_socket (-1) (os w) = Ret (-1) (os w))
      by (unfold h_socket; mrun; by rewrite (proj1 (proj2 Ho))).
    mstep (on_os_Ret _ w _ _ E). eexists. split; [done|]. split; [|done]. split; [done|exact Hs].
  - destruct (Z.ltb_spec fd 0); [lia|].
    destruct (get_new_socket fd 2 (os w) Ho H0 Hk) as [H1 (f & o' & E & H' & Of & Sf & Oth)].
    mstep (on_os_Ret (new_socket fd 2) w tt _ eq_refl).
    mstep (on_os_Ret (h_socket fd) (mkSockw (sock w) _) fd o' (socket_ok fd _ f o' (proj1 (proj2 H1)) H0 E)).
    eexists. split; [done|]. split; [|split; [|split; [done|split; [exact Oth|done]]]].
    + split; [done|]. cbn [sock os set_fd m_sockfd]. destruct (Z.eqb_spec fd (-1)); [lia|].
      split; [done|]. by exists f.
    + unfold isValid. cbn [sock set_fd m_sockfd]. destruct (Z.eqb_spec fd (-1)), (Z.leb_spec 0 fd); done || lia.
Qed.

Lemma sock_close_ok w : sock_ok w → ∃ w', close w = Ret true w' ∧ sock_ok w' ∧
  isValid (sock w') = false ∧ isConnected (sock w') = false ∧ others (m_sockfd (sock w)) (os w) (os w').
Proof.
  intros Hok. pose proof Hok as [Ho Hs]. unfold close. rewrite (bind_Ret mget _ w w w eq_refl).
  destruct (m_sockfd (sock w) =? -1) eqn:E.
  - rewrite Hs. cbn. exists w. unfold isValid, isConnected. by rewrite E, Hs.
  - rewrite andb_false_r. destruct Hs as (H0 & _).
    destruct (close_ok (m_sockfd (sock w)) (os w) Ho H0) as (r & o' & Ec & H' & Oth).
    unfold on_sock. rewrite bind_modify. unfold mbind'. unfold on_os. cbn [os sock set_connected]. rewrite Ec.
    eexists. split; [done|]. split; [|done]. split; [done|done].
Qed.

Lemma getLocalAddress_ok name w : sock_ok w → ∃ a w', getLocalAddress name w = Ret a w' ∧ sock_ok w' ∧
  isValid (sock w') = isValid (sock w) ∧ isConnected (sock w') = isConnected (sock w) ∧ os w' = os w ∧
  m_sockfd (sock w') = m_sockfd (sock w).
Proof.
  intros Hok. unfold getLocalAddress. rewrite (bind_Ret mget _ w w w eq_refl).
  destruct (m_local_addr (sock w)); [by eexists _, w|]. destruct name; [|by eexists _, w].
  eexists _, _. split; [done|]. split; [exact Hok|done].
Qed.
Lemma getPeerAddress_ok name w : sock_ok w → ∃ a w', getPeerAddress name w = Ret a w' ∧ sock_ok w' ∧
  isValid (sock w') = isValid (sock w) ∧ isConnected (sock w') = isConnected (sock w) ∧ os w' = os w ∧
  m_sockfd (sock w') = m_sockfd (sock w).
Proof.
  intros Hok. unfold getPeerAddress. rewrite (bind_Ret mget _ w w w eq_refl).
  destruct (m_peer_addr (sock w)); [by eexists _, w|]. destruct name; [|by eexists _, w].
  eexists _, _. split; [done|]. split; [exact Hok|done].
Qed.

(** A new descriptor, when one is needed, is one the kernel did not have. *)
Definition fresh_fd (fd : Z) (w : sockw) : Prop :=
  isValid (sock w) = false → fd = -1 ∨ (0 ≤ fd ∧ kernel (os w) !! fd = None).

Lemma prepare_ok `{Platform} addr fd w : sock_ok w → fresh_fd fd w →
  ∃ w', prepare addr fd w =
    Ret ((isValid (sock w) || (0 <=? fd)) && (m_family (sock w) =? getFamily addr)) w' ∧ sock_ok w' ∧
    isValid (sock w') = isValid (sock w) || (0 <=? fd) ∧
    (isValid (sock w) = false → others fd (os w) (os w') ∧ m_sockfd (sock w') = fd).
Proof.
  intros Hok Hf. unfold prepare. rewrite (bind_Ret mget _ w w w eq_refl).
  destruct (isValid (sock w)) eqn:V.
  - exists w. rewrite (bind_Ret (mreturn tt) _ w tt w eq_refl). mrun. by rewrite V.
  - destruct (newSocket_ok fd w Hok V (Hf V)) as (w' & E & Hok' & V' & Fm & Oth & Efd). mstep E. exists w'.
    mrun. by rewrite V', Fm.
Qed.

Lemma bind_ok `{Platform} addr fd ok name w : sock_ok w → fresh_fd fd w →
  ∃ b w', bind addr fd ok name w = Ret b w' ∧ sock_ok w' ∧ (b = true → isValid (sock w') = true) ∧
    (isValid (sock w) = false → others fd (os w) (os w') ∧ m_sockfd (sock w') = fd).
Proof.
  intros Hok Hf. destruct (prepare_ok addr fd w Hok Hf) as (w1 & E & Hok1 & V1 & Oth). unfold bind. mstep E.
  destruct (_ && _) eqn:B; cbn [negb]; [|by eexists _, w1]. destruct ok; cbn [negb]; [|by eexists _, w1].
  destruct (getLocalAddress_ok name w1 Hok1) as (a & w2 & E2 & Hok2 & V2 & _ & O2 & F2). mstep E2.
  eexists _, w2. rewrite O2, F2. split; [done|]. split; [done|]. split; [|exact Oth].
  intros _. rewrite V2, V1. by apply andb_true_iff in B as [-> _].
Qed.

(** A connect whose wait is answered: a timer that was not set cannot fire. *)
Lemma hook_connect_ok t fd r wk e w : hooked w → 0 ≤ fd → (t < 0 → wk ≠ TimedOut) →
  ∃ x, connect_with_timeout fd t r wk e w = Ret (Some x) w.
Proof.
  intros (W & He & Hi) H0 Ht. unfold connect_with_timeout. mrun. rewrite He. cbn [negb].
  mstep (fd_get_spec fd w W H0). destruct (obj w fd) as [f|]; [|by eexists].
  destruct (isClose f); [by eexists|]. destruct (_ || _); [by eexists|].
  destruct r; try by eexists. destruct (negb _); [by eexists|]. rewrite Hi. cbn [negb].
  destruct wk; try by eexists. destruct (Z.leb_spec 0 t); [by eexists|]. by destruct Ht.
Qed.

Lemma sock_connect_ok `{Platform} addr timeout config fd r wk e local peer w : sock_ok w → fresh_fd fd w →
  ((if timeout <? 0 then config else timeout) < 0 → wk ≠ TimedOut) →
  ∃ b w', connect addr timeout config fd r wk e local peer w = Ret b w' ∧ sock_ok w' ∧
    (b = true → isConnected (sock w') = true ∧ isValid (sock w') = true).
Proof.
  intros Hok Hf Ht. destruct (prepare_ok addr fd w Hok Hf) as (w1 & E & Hok1 & V1 & _).
  unfold connect. mstep E. rewrite <-V1. destruct (isValid (sock w1)) eqn:V; [|by eexists _, w1].
  destruct (m_family (sock w) =? getFamily addr); cbn [andb negb]; [|by eexists _, w1].
  rewrite (bind_Ret mget _ w1 w1 w1 eq_refl).
  pose proof Hok1 as [Ho Hs]. unfold isValid in V. apply negb_true_iff in V. rewrite V in Hs.
  destruct Hs as (H0 & f & Hof & Hsock).
  destruct (hook_connect_ok (if timeout <? 0 then config else timeout) (m_sockfd (sock w1)) r wk e (os w1) Ho H0 Ht)
    as [[res acts] Ec].
  mstep (on_os_Ret _ w1 _ _ Ec). replace (mkSockw (sock w1) (os w1)) with w1 by (by destruct w1).
  destruct res as [n|er|].
  - unfold on_sock. rewrite bind_modify.
    assert (Hc : sock_ok (mkSockw (set_connected true (sock w1)) (os w1)))
      by (apply sock_ok_connected; [done|]; intros _; unfold isValid; by rewrite V).
    destruct (getLocalAddress_ok local _ Hc) as (a2 & w2 & E2 & Hok2 & V2 & C2 & _). mstep E2.
    destruct (getPeerAddress_ok peer _ Hok2) as (a3 & w3 & E3 & Hok3 & V3 & C3 & _). mstep E3.
    eexists _, w3. split; [done|]. split; [done|]. intros _. rewrite C3, C2, V3, V2.
    split; [done|]. unfold isValid. cbn [sock set_connected m_sockfd]. by rewrite V.
  - destruct (sock_close_ok w1 Hok1) as (w2 & E2 & Hok2 & _). mstep E2. by eexists _, w2.
  - destruct (sock_close_ok w1 Hok1) as (w2 & E2 & Hok2 & _). mstep E2. by eexists _, w2.
Qed.

(** A transfer changes nothing but what the kernel transfers, and without a
    connection makes no system call. *)
Lemma transfer_ok ev rs ws w : sock_ok w →
  ∃ r, transfer (λ fd, Hook.io fd ev rs ws) w = Ret r w ∧
    (isConnected (sock w) = false → r = Some (SFail, [])).
Proof.
  intros [Ho Hs]. unfold transfer. rewrite (bind_Ret mget _ w w w eq_refl).
  destruct (isConnected (sock w)) eqn:C; cbn [negb]; [|by eexists].
  unfold isConnected in C. destruct (m_sockfd (sock w) =? -1); [congruence|]. destruct Hs as (H0 & _).
  destruct (io_keeps (m_sockfd (sock w)) ev rs ws (os w) Ho H0) as [r E].
  exists r. split; [|done]. rewrite (on_os_Ret _ w _ _ E). by destruct w.
Qed.

(** [accept()] hands out connected sockets of managed descriptors only. *)
Lemma sock_accept_ok rs ws local peer n acts w : sock_ok w → isValid (sock w) = true →
  0 ≤ n → kernel (os w) !! n = None →
  Hook.io (m_sockfd (sock w)) READ rs ws (os w) = Ret (Some (SVal n, acts)) (os w) →
  ∃ s o, accept rs ws local peer w = Ret (Some s) (mkSockw (sock w) o) ∧
    m_sockfd s = n ∧ isConnected s = true ∧ sock_ok (mkSockw s o).
Proof.
  intros [Ho Hs] V Hn Hk E. unfold isValid in V. apply negb_true_iff in V. rewrite V in Hs.
  destruct Hs as (H0 & f & Hof & Hsock).
  destruct (get_new_socket n 2 (os w) Ho Hn Hk) as [H1 (g & o' & Eg & H' & Og & Sg & _)].
  set (o1 := set_kernel _ (os w)) in *.
  assert (E1 : Hook.io (m_sockfd (sock w)) READ rs ws o1 = Ret (Some (SVal n, acts)) o1).
  { unfold Hook.io in E |- *. revert E. mrun. destruct Ho as (W & He & Hi). destruct H1 as (W1 & He1 & Hi1).
    rewrite He, He1. cbn [negb]. unfold mbind'. rewrite (fd_get_spec _ _ W H0), (fd_get_spec _ _ W1 H0).
    change (obj o1 (m_sockfd (sock w))) with (obj (os w) (m_sockfd (sock w))). rewrite Hof, Hi, Hi1.
    unfold mreturn. destruct (isClose f); [by intros [= ]|].
    destruct (_ || _); [intros Q; apply Ret_inj in Q as [-> _]; done|].
    destruct (uninterrupted rs) as [[[[?|?|] ?] ?]|]; rewrite ?andb_false_r;
      intros Q; apply Ret_inj in Q as [Q _]; by rewrite Q. }
  assert (Ea : h_accept (m_sockfd (sock w)) rs ws o1 = Ret (Some (SVal n, acts)) o').
  { unfold h_accept. mstep E1. destruct (Z.leb_spec 0 n); [|lia]. unfold mbind'. by rewrite Eg. }
  unfold accept. rewrite (bind_Ret mget _ w w w eq_refl). mstep (on_os_Ret _ w _ _ E).
  assert (Ek : on_os (new_socket n 2) (mkSockw (sock w) (os w)) = Ret tt (mkSockw (sock w) o1)) by done.
  mstep Ek. mstep (on_os_Ret _ (mkSockw (sock w) o1) _ _ Ea). destruct (Z.eqb_spec n (-1)); [lia|].
  assert (Ei : init n (Socket_new (m_family (sock w)) (m_type (sock w)) (m_protocol (sock w))) local peer o' =
    Ret (Some (mkSocket n (m_family (sock w)) (m_type (sock w)) (m_protocol (sock w)) true local peer)) o').
  { unfold init. mstep (fd_get_spec n o' (proj1 H') Hn). rewrite Og, Sg.
    destruct (wf_fds o' (proj1 H') _ _ Og) as (C & _). unfold isClose. by rewrite C. }
  unfold on_os. cbn [os sock]. rewrite Ei. eexists _, o'. split; [done|].
  split; [done|]. split; [done|]. split; [done|]. cbn [sock os m_sockfd]. destruct (Z.eqb_spec n (-1)); [lia|].
  split; [done|]. by exists g.
Qed.

(** *** Runs of a socket *)

Inductive sop :=
| SBind (addr : Address) (fd : Z) (ok : bool) (name : option Address)
| SConnect (addr : Address) (timeout config fd : Z) (r : sysres) (wk : wake) (e : sysres)
    (local peer : option Address)
| SSend (rs : list sysres) (ws : list wake)
| SRecv (rs : list sysres) (ws : list wake)
| STimeout (ev t : Z) (r : sysres)
| SClose.

Definition sop_ok (w : sockw) (o : sop) : Prop :=
  match o with
  | SBind _ fd _ _ => fresh_fd fd w
  | SConnect _ timeout config fd _ wk _ _ _ =>
      fresh_fd fd w ∧ ((if timeout <? 0 then config else timeout) < 0 → wk ≠ TimedOut)
  | STimeout _ _ _ => isValid (sock w) = true
  | _ => True
  end.

Definition sop_exec `{Platform} (o : sop) : M sockw unit :=
  match o with
  | SBind addr fd ok name => bind addr fd ok name;; mreturn tt
  | SConnect addr t c fd r wk e l p => connect addr t c fd r wk e l p;; mreturn tt
  | SSend rs ws => send rs ws;; mreturn tt
  | SRecv rs ws => recv rs ws;; mreturn tt
  | STimeout ev t r => set_timeout ev t r
  | SClose => close;; mreturn tt
  end.

Definition sstep `{Platform} (w w' : sockw) : Prop := ∃ o, sop_ok w o ∧ sop_exec o w = Ret tt w'.

Lemma sop_exec_ok `{Platform} o w : sock_ok w → sop_ok w o → ∃ w', sop_exec o w = Ret tt w' ∧ sock_ok w'.
Proof.
  intros Hok A. destruct o as [addr fd ok name|addr t c fd r wk e l p|rs ws|rs ws|ev t r|]; cbn [sop_ok sop_exec] in *.
  - destruct (bind_ok addr fd ok name w Hok A) as (b & w' & E & ? & _). mstep E. by eexists.
  - destruct A as [A Ht]. destruct (sock_connect_ok addr t c fd r wk e l p w Hok A Ht) as (b & w' & E & ? & _).
    mstep E. by eexists.
  - destruct (transfer_ok WRITE rs ws w Hok) as (x & E & _). unfold send, h_send. mstep E. by eexists.
  - destruct (transfer_ok READ rs ws w Hok) as (x & E & _). unfold recv, h_recv. mstep E. by eexists.
  - pose proof Hok as [_ Hs]. unfold isValid in A. pose proof (proj1 (negb_true_iff _) A) as V. rewrite V in Hs.
    destruct Hs as (_ & f & Hf & _). eexists. split; [by apply set_timeout_spec|].
    by apply set_timeout_ok.
  - destruct (sock_close_ok w Hok) as (w' & E & ? & _). mstep E. by eexists.
Qed.

(** Without a descriptor the table of descriptors is indexed with -1. *)
Lemma timeout_without_fd ev t r w : sock_ok w → isValid (sock w) = false →
  set_timeout ev t r w = Fault OutOfBounds ∧ get_timeout ev w = Fault OutOfBounds.
Proof.
  intros [(W & He & Hi) _] V. unfold isValid in V. apply negb_false_iff, Z.eqb_eq in V.
  assert (G : fd_get (-1) false (os w) = Fault OutOfBounds).
  { unfold fd_get. mrun. rewrite (wf_size _ W). pose proof (wf_two _ W).
    destruct (Z.leb_spec (zlen (m_fds (os w))) (-1)); [lia|]. done. }
  unfold get_timeout, set_timeout, h_setsockopt_timeo, on_os, mbind', mget.
  split; cbn beta iota; rewrite V, ?He; cbn [negb]; by rewrite G.
Qed.

Definition sock_init (family type : Z) (o : hookw) : sockw := mkSockw (Socket_new family type 0) o.

(** C38: Through any sequence of bind, connect, send, receive, timeouts and close
    on a socket of a hooked thread nothing faults but a timeout that is set
    while the socket has no descriptor, which indexes the table of descriptors
    with -1; and a socket that is connected has a descriptor, which is a managed
    socket. A successful
    connect leaves it connected; close always succeeds and leaves it without a
    descriptor and not connected, and then sending and receiving return -1
    without a system call. *)
Theorem socket_lifecycle `{Platform} family type o w : hooked o → rtc sstep (sock_init family type o) w →
  (∀ op, sop_ok w op → ∃ w', sop_exec op w = Ret tt w') ∧
  (∀ ev t r, isValid (sock w) = false → sop_exec (STimeout ev t r) w = Fault OutOfBounds) ∧
  (isConnected (sock w) = true → ∃ f, obj (os w) (m_sockfd (sock w)) = Some f ∧ isSocket f = true) ∧
  (∀ addr t c fd r wk e l p w', sop_ok w (SConnect addr t c fd r wk e l p) →
     connect addr t c fd r wk e l p w = Ret true w' → isConnected (sock w') = true) ∧
  (∃ w', close w = Ret true w' ∧ isValid (sock w') = false ∧ isConnected (sock w') = false ∧
     ∀ rs ws, send rs ws w' = Ret (Some (SFail, [])) w' ∧ recv rs ws w' = Ret (Some (SFail, [])) w').
Proof.
  intros Ho R.
  assert (Hok : sock_ok w).
  { assert (H0 : sock_ok (sock_init family type o)) by by split.
    clear Ho. induction R as [|w0 w1 w2 (op & A & E) _ IH]; [done|].
    destruct (sop_exec_ok op w0 H0 A) as (w1' & E' & H1). rewrite E in E'. injection E' as <-. auto. }
  split; [|split; [|split; [|split]]].
  - intros op A. destruct (sop_exec_ok op w Hok A) as (w' & E & _). by exists w'.
  - intros ev t r V. by apply timeout_without_fd.
  - intros C. destruct Hok as [_ Hs]. unfold isConnected in C.
    destruct (m_sockfd (sock w) =? -1); [congruence|]. apply Hs.
  - intros addr t c fd r wk e l p w' [A Ht] E.
    destruct (sock_connect_ok addr t c fd r wk e l p w Hok A Ht) as (b & w1 & E1 & _ & P).
    rewrite E in E1. apply Ret_inj in E1 as [<- <-]. by apply P.
  - destruct (sock_close_ok w Hok) as (w' & E & Hok' & V & C & _). exists w'. split; [done|]. split; [done|].
    split; [done|]. intros rs ws.
    destruct (transfer_ok WRITE rs ws w' Hok') as (x & Ex & Q). destruct (transfer_ok READ rs ws w' Hok') as (y & Ey & Q').
    unfold send, recv, h_send, h_recv. by rewrite Ex, Ey, Q, Q'.
Qed.

(** A timeout of t ms set on a valid socket, which goes through a [timeval]
    and the hook, is the timeout that is got, for every 64-bit t, negative ones
    included; the timeout of the other direction stays. On a socket without a
    descriptor, such as a new one, getting or setting a timeout indexes the
    table of descriptors with -1. *)
Theorem socket_timeouts w t r : sock_ok w → srange 64 t →
  (isValid (sock w) = true → ∃ w1 w2 old,
     setRecvTimeout t r w = Ret tt w1 ∧ getRecvTimeout w1 = Ret t w1 ∧
     getSendTimeout w = Ret old w ∧ getSendTimeout w1 = Ret old w1 ∧
     setSendTimeout t r w1 = Ret tt w2 ∧ getSendTimeout w2 = Ret t w2 ∧ getRecvTimeout w2 = Ret t w2) ∧
  (isValid (sock w) = false → getRecvTimeout w = Fault OutOfBounds ∧ getSendTimeout w = Fault OutOfBounds ∧
     setRecvTimeout t r w = Fault OutOfBounds ∧ setSendTimeout t r w = Fault OutOfBounds).
Proof.
  intros Hok Ht. pose proof (wraps_small 64 ltac:(lia) t Ht) as Et. split; intros V.
  - pose proof Hok as [_ Hs]. unfold isValid in V. pose proof (proj1 (negb_true_iff _) V) as V'. rewrite V' in Hs.
    destruct Hs as (_ & f & Hf & _).
    destruct (set_timeout_ok READ t w f Hok V Hf) as [Hok1 Hf1]. set (w1 := mkSockw _ _) in *.
    destruct (set_timeout_ok WRITE t w1 _ Hok1 V Hf1) as [Hok2 Hf2]. set (w2 := mkSockw _ _) in Hok2, Hf2.
    exists w1, w2, (getTimeout WRITE f). unfold setRecvTimeout, setSendTimeout, getRecvTimeout, getSendTimeout.
    rewrite (set_timeout_spec READ t r w f Hok V Hf), (set_timeout_spec WRITE t r w1 _ Hok1 V Hf1).
    rewrite (get_timeout_spec READ w1 _ Hok1 Hf1), (get_timeout_spec WRITE w1 _ Hok1 Hf1),
      (get_timeout_spec WRITE w f Hok Hf), (get_timeout_spec WRITE w2 _ Hok2 Hf2), (get_timeout_spec READ w2 _ Hok2 Hf2).
    rewrite !Et. split_and!; try reflexivity; unfold w2, w1; by rewrite !Et.
  - by split_and!; apply timeout_without_fd.
Qed.

(** ** Instances *)

Definition demo_peer : Address := IPv4Address (IPv4_new (H := x86_64) 2130706433 80).

Definition demo_socket : sockw := Eval vm_compute in
  match connect (H := x86_64) demo_peer 1000 5000 9 (SErr EINPROGRESS) Woken (SVal 0) None (Some demo_peer)
          (sock_init AF_INET TCP demo) with
  | Ret true w => w | _ => sock_init AF_INET TCP demo
  end.

Lemma demo_socket_step : sstep (H := x86_64) (sock_init AF_INET TCP demo) demo_socket.
Proof.
  exists (SConnect demo_peer 1000 5000 9 (SErr EINPROGRESS) Woken (SVal 0) None (Some demo_peer)).
  split; [split; [intros _; right; split; [lia|vm_compute; reflexivity]|done]|vm_compute; reflexivity].
Qed.

Lemma demo_hooked : hooked demo.
Proof. exact (hooked_run _ _ (hooked_init 4 ltac:(lia)) (run_checked_rtc _ _ _ demo_run)). Qed.

Lemma socket_lifecycle_witness :
  isConnected (sock demo_socket) = true ∧
  ∃ f, obj (os demo_socket) (m_sockfd (sock demo_socket)) = Some f ∧ isSocket f = true.
Proof.
  destruct (socket_lifecycle (H := x86_64) AF_INET TCP demo demo_socket demo_hooked
    (rtc_once _ _ demo_socket_step)) as (_ & _ & P & _).
  split; [reflexivity|]. apply P. reflexivity.
Defined.

Lemma demo_socket_ok : sock_ok demo_socket.
Proof.
  destruct demo_socket_step as (op & A & E).
  destruct (sop_exec_ok (H := x86_64) op (sock_init AF_INET TCP demo)) as (w & E' & Hok); [by split; [apply demo_hooked|]|done|].
  rewrite E in E'. by injection E' as <-.
Qed.

Lemma socket_timeouts_witness : ∃ w1, setRecvTimeout 1500 (SVal 0) demo_socket = Ret tt w1 ∧ getRecvTimeout w1 = Ret 1500 w1.
Proof.
  destruct (socket_timeouts demo_socket 1500 (SVal 0) demo_socket_ok ltac:(unfold srange; lia)) as [P _].
  destruct (P eq_refl) as (w1 & w2 & old & E & G & _). exists w1. split; [exact E|exact G].
Defined.
