(* ===== verification/Stream.v ===== *)
(** * Streams (util/stream.h, util/stream.cpp)

    The interface of a byte stream, the loops [readF] and [writeF] that
    transfer a whole buffer over partial transfers, and the laws a stream
    promises, against which the loops are proved. [SocketStream] is the
    implementation the program has. *)

From S2P Require Import Prelude Codec ByteArray.
#[local] Open Scope Z_scope.

(** The pure virtual functions. [st_read len] returns what [read(buf, len)]
    returns and the bytes it stored at [buf]; [st_write bs] is
    [write(buf, len)] with [bs] the [len] bytes at [buf]. *)
Class Stream (St : Type) := {
  st_read : Z → M St (Z * list byte);
  st_read_ba : Z → M (St * ByteArray) Z;
  st_write : list byte → M St Z;
  st_write_ba : Z → M (St * ByteArray) Z;
  st_close : M St unit;
}.

Section Loops.
Context {St : Type} `{Stream St}.

(** [readF(void *buf, size_t len)]: [buf] is the memory there. *)
Fixpoint readF_loop (fuel : nat) (buf : list byte) (offset left len : Z) : M St (Z * list byte) :=
  match fuel with
  | O => mfault OutOfFuel
  | S fuel =>
      if negb (0 <? left) then mreturn (s64 len, buf) else
      res <- st_read left;;
      let '(length, bs) := res in
      if zlen buf <? offset + zlen bs then mfault OutOfBounds else
      let buf := splice offset bs buf in
      if length <=? 0 then mreturn (length, buf) else
      readF_loop fuel buf (u64 (offset + length)) (u64 (left - length)) len
  end.
Definition readF (buf : list byte) (len : Z) : M St (Z * list byte) :=
  readF_loop (S (Z.to_nat len)) buf 0 len len.

(** [readF(const ByteArray::Ptr &buf, size_t len)] *)
Fixpoint readF_ba_loop (fuel : nat) (left len : Z) : M (St * ByteArray) Z :=
  match fuel with
  | O => mfault OutOfFuel
  | S fuel =>
      if negb (0 <? left) then mreturn (s64 len) else
      length <- st_read_ba left;;
      if length <=? 0 then mreturn length else
      readF_ba_loop fuel (u64 (left - length)) len
  end.
Definition readF_ba (len : Z) : M (St * ByteArray) Z := readF_ba_loop (S (Z.to_nat len)) len len.

(** [writeF(const void *buf, size_t len)] *)
Fixpoint writeF_loop (fuel : nat) (buf : list byte) (offset left len : Z) : M St Z :=
  match fuel with
  | O => mfault OutOfFuel
  | S fuel =>
      if negb (0 <? left) then mreturn (s64 len) else
      if zlen buf <? offset + left then mfault OutOfBounds else
      length <- st_write (slice offset left buf);;
      if length <=? 0 then mreturn length else
      writeF_loop fuel buf (u64 (offset + length)) (u64 (left - length)) len
  end.
Definition writeF (buf : list byte) (len : Z) : M St Z :=
  writeF_loop (S (Z.to_nat len)) buf 0 len len.

(** [writeF(const ByteArray::Ptr &buf, size_t len)] *)
Fixpoint writeF_ba_loop (fuel : nat) (left len : Z) : M (St * ByteArray) Z :=
  match fuel with
  | O => mfault OutOfFuel
  | S fuel =>
      if negb (0 <? left) then mreturn (s64 len) else
      length <- st_write_ba left;;
      if length <=? 0 then mreturn length else
      writeF_ba_loop fuel (u64 (left - length)) len
  end.
Definition writeF_ba (len : Z) : M (St * ByteArray) Z := writeF_ba_loop (S (Z.to_nat len)) len len.
End Loops.

(** ** What a stream promises

    A transfer moves a prefix, of the length it returns when that is positive
    and empty otherwise; reads store what they take, writes send what they are
    given, in order. [st_in] is what is still to be read, [st_out] what was
    written. *)
Class StreamLaws (St : Type) `{Stream St} `{Platform} := {
  st_ok : St → Prop;
  st_in : St → list byte;
  st_out : St → list byte;
  st_read_law s n : st_ok s → 0 < n → ∃ r bs s',
    st_read n s = Ret (r, bs) s' ∧ st_ok s' ∧ r ≤ n ∧ zlen bs = Z.max 0 r ∧
    st_in s = bs ++ st_in s' ∧ st_out s' = st_out s;
  st_write_law s bs : st_ok s → ∃ r s',
    st_write bs s = Ret r s' ∧ st_ok s' ∧ r ≤ zlen bs ∧
    st_in s' = st_in s ∧ st_out s' = st_out s ++ take (Z.to_nat r) bs;
  st_read_ba_law s ba n : st_ok s → wf ba → 0 < n → room ba n → ∃ r bs s' ba',
    st_read_ba n (s, ba) = Ret r (s', ba') ∧ st_ok s' ∧ r ≤ n ∧ zlen bs = Z.max 0 r ∧
    st_in s = bs ++ st_in s' ∧ st_out s' = st_out s ∧
    wf ba' ∧ same_shape ba ba' ∧ abs ba' = buf_write bs (abs ba) ∧
    m_total_size ba' < m_total_size ba + n + m_node_size ba;
  st_write_ba_law s ba n : st_ok s → wf ba → 0 < n ≤ m_data_size ba - m_position ba → ∃ r s' ba',
    st_write_ba n (s, ba) = Ret r (s', ba') ∧ st_ok s' ∧ r ≤ n ∧ st_in s' = st_in s ∧
    st_out s' = st_out s ++ slice (pos (abs ba)) (Z.max 0 r) (content (abs ba)) ∧
    wf ba' ∧ same_shape ba ba' ∧
    abs ba' = mkBuffer (content (abs ba)) (pos (abs ba) + Z.max 0 r);
}.

(** The whole length, or a result that reports an error or the end with less
    than that transferred. *)
Definition full_or_failed (len r n : Z) : Prop := (r = len ∧ n = len) ∨ (r ≤ 0 ∧ 0 ≤ n < len).

Section LoopSpecs.
Context {St : Type} `{StreamLaws St}.

Lemma readF_loop_spec fuel buf offset left len s :
  st_ok s → 0 ≤ offset → 0 ≤ left → offset + left = len → len < 2 ^ 63 → len ≤ zlen buf →
  (Z.to_nat left < fuel)%nat →
  ∃ r bs s', readF_loop fuel buf offset left len s = Ret (r, splice offset bs buf) s' ∧ st_ok s' ∧
    st_in s = bs ++ st_in s' ∧ st_out s' = st_out s ∧
    ((r = len ∧ zlen bs = left) ∨ (r ≤ 0 ∧ zlen bs < left)).
Proof.
  revert buf offset left s. induction fuel as [|fuel IH]; [lia|].
  intros buf offset left s Hok Ho Hl Hsum Hlen Hbuf Hf. cbn [readF_loop].
  destruct (Z.ltb_spec 0 left) as [Hpos|Hz]; cbn [negb].
  2: { exists len, [], s. rewrite splice_nil by lia. rewrite wraps_small by (unfold srange; lia).
       split_and!; try done. left. split; [done|]. change (zlen []) with 0. lia. }
  destruct (st_read_law s left Hok Hpos) as (r & bs & s1 & E & Hok1 & Hr & Hbs & Hin & Hout). mstep E.
  destruct (Z.ltb_spec (zlen buf) (offset + zlen bs)); [lia|].
  destruct (Z.leb_spec r 0) as [Hr0|Hr0].
  - exists r, bs, s1. split_and!; try done. right. lia.
  - rewrite Z.max_r in Hbs by lia.
    rewrite !wrapu_small by (unfold urange; lia).
    destruct (IH (splice offset bs buf) (offset + r) (left - r) s1) as (r' & bs' & s2 & E2 & Hok2 & Hin2 & Hout2 & D);
      try done; try lia.
    { rewrite zlen_splice; lia. }
    exists r', (bs ++ bs'), s2. rewrite E2, <-Hbs, splice_splice by lia.
    split_and!; try done.
    + rewrite Hin, Hin2. by rewrite (assoc_L app).
    + congruence.
    + rewrite zlen_app. lia.
Qed.

Lemma writeF_loop_spec fuel buf offset left len s :
  st_ok s → 0 ≤ offset → 0 ≤ left → offset + left = len → len < 2 ^ 63 → len ≤ zlen buf →
  (Z.to_nat left < fuel)%nat →
  ∃ r n s', writeF_loop fuel buf offset left len s = Ret r s' ∧ st_ok s' ∧
    st_in s' = st_in s ∧ st_out s' = st_out s ++ slice offset n buf ∧ 0 ≤ n ∧
    ((r = len ∧ n = left) ∨ (r ≤ 0 ∧ n < left)).
Proof.
  revert offset left s. induction fuel as [|fuel IH]; [lia|].
  intros offset left s Hok Ho Hl Hsum Hlen Hbuf Hf. cbn [writeF_loop].
  destruct (Z.ltb_spec 0 left) as [Hpos|Hz]; cbn [negb].
  2: { exists len, 0, s. rewrite wraps_small by (unfold srange; lia). rewrite slice_0, app_nil_r.
       split_and!; try done. left. lia. }
  destruct (Z.ltb_spec (zlen buf) (offset + left)); [lia|].
  destruct (st_write_law s (slice offset left buf) Hok) as (r & s1 & E & Hok1 & Hr & Hin & Hout). mstep E.
  rewrite zlen_slice in Hr by lia.
  assert (Ht : take (Z.to_nat r) (slice offset left buf) = slice offset (Z.max 0 r) buf).
  { unfold slice. rewrite take_take. f_equal. lia. }
  rewrite Ht in Hout.
  destruct (Z.leb_spec r 0) as [Hr0|Hr0].
  - exists r, (Z.max 0 r), s1. split_and!; try done; lia.
  - rewrite Z.max_r in Hout by lia. rewrite !wrapu_small by (unfold urange; lia).
    destruct (IH (offset + r) (left - r) s1) as (r' & n & s2 & E2 & Hok2 & Hin2 & Hout2 & Hn & D);
      try done; try lia.
    exists r', (r + n), s2. rewrite <-slice_app by lia. rewrite Hout2, Hout, <-(assoc_L app).
    split_and!; try done; [congruence|lia|lia].
Qed.

(** A ByteArray of at most this size can take [n] more bytes piecewise: each
    piece allocates less than 2^25 bytes more than it fills. *)
Definition ample (ba : ByteArray) (n : Z) : Prop := n < 2 ^ 24 ∧ m_total_size ba + n * 2 ^ 25 < 2 ^ 63.

Lemma readF_ba_loop_spec fuel left len s ba :
  st_ok s → wf ba → ample ba left → 0 ≤ left ≤ len → len < 2 ^ 63 → (Z.to_nat left < fuel)%nat →
  ∃ r bs s' ba', readF_ba_loop fuel left len (s, ba) = Ret r (s', ba') ∧ st_ok s' ∧ wf ba' ∧
    same_shape ba ba' ∧ st_in s = bs ++ st_in s' ∧ st_out s' = st_out s ∧ abs ba' = buf_write bs (abs ba) ∧
    ((r = len ∧ zlen bs = left) ∨ (r ≤ 0 ∧ zlen bs < left)).
Proof.
  revert left s ba. induction fuel as [|fuel IH]; [lia|].
  intros left s ba Hok W [Ha1 Ha2] Hl Hlen Hf. cbn [readF_ba_loop].
  pose proof (wf_node_size _ W) as Hns. pose proof (wf_pos _ W).
  assert (Hnil : buf_write [] (abs ba) = abs ba).
  { unfold buf_write. change (zlen []) with 0. rewrite splice_nil by (simpl; lia). by rewrite Z.add_0_r. }
  destruct (Z.ltb_spec 0 left) as [Hpos|Hz]; cbn [negb].
  2: { exists len, [], s, ba. rewrite wraps_small by (unfold srange; lia).
       split_and!; try done. left. split; [done|]. change (zlen []) with 0. lia. }
  destruct (st_read_ba_law s ba left Hok W Hpos) as
    (r & bs & s1 & b1 & E & Hok1 & Hr & Hbs & Hin & Hout & W1 & [Sh1 Sh2] & A1 & T1); [split; lia|].
  mstep E. destruct (Z.leb_spec r 0) as [Hr0|Hr0].
  - exists r, bs, s1, b1. split_and!; try done. right. lia.
  - rewrite Z.max_r in Hbs by lia. rewrite wrapu_small by (unfold urange; lia).
    destruct (IH (left - r) s1 b1) as (r' & bs' & s2 & b2 & E2 & Hok2 & W2 & [Sh3 Sh4] & Hin2 & Hout2 & A2 & D);
      try done; try lia; [split; lia|].
    exists r', (bs ++ bs'), s2, b2. split; [done|]. split; [done|]. split; [done|]. split; [split; congruence|].
    split; [rewrite Hin, Hin2; by rewrite (assoc_L app)|]. split; [congruence|]. split.
    + pose proof (zlen_content _ W). pose proof (wf_data _ W). rewrite A2, A1. unfold buf_write. cbn [content pos].
      rewrite splice_splice by (simpl in *; lia). rewrite zlen_app. f_equal. lia.
    + rewrite zlen_app. lia.
Qed.

Lemma writeF_ba_loop_spec fuel left len s ba :
  st_ok s → wf ba → 0 ≤ left ≤ m_data_size ba - m_position ba → left ≤ len → len < 2 ^ 63 →
  (Z.to_nat left < fuel)%nat →
  ∃ r n s' ba', writeF_ba_loop fuel left len (s, ba) = Ret r (s', ba') ∧ st_ok s' ∧ wf ba' ∧
    same_shape ba ba' ∧ st_in s' = st_in s ∧
    st_out s' = st_out s ++ slice (pos (abs ba)) n (content (abs ba)) ∧
    abs ba' = mkBuffer (content (abs ba)) (pos (abs ba) + n) ∧ 0 ≤ n ∧
    ((r = len ∧ n = left) ∨ (r ≤ 0 ∧ n < left)).
Proof.
  revert left s ba. induction fuel as [|fuel IH]; [lia|].
  intros left s ba Hok W Hl Hll Hlen Hf. cbn [writeF_ba_loop].
  destruct (Z.ltb_spec 0 left) as [Hpos|Hz]; cbn [negb].
  2: { exists len, 0, s, ba. rewrite wraps_small by (unfold srange; lia). rewrite slice_0, app_nil_r, Z.add_0_r.
       split_and!; try done. left. lia. }
  destruct (st_write_ba_law s ba left Hok W) as (r & s1 & b1 & E & Hok1 & Hr & Hin & Hout & W1 & [Sh1 Sh2] & A1); [lia|].
  mstep E. destruct (Z.leb_spec r 0) as [Hr0|Hr0].
  - exists r, (Z.max 0 r), s1, b1. split_and!; try done; lia.
  - rewrite Z.max_r in Hout, A1 by lia. rewrite wrapu_small by (unfold urange; lia).
    assert (Hd : m_data_size b1 = m_data_size ba ∧ m_position b1 = m_position ba + r).
    { pose proof (zlen_content _ W) as L0. pose proof (zlen_content _ W1) as L1. rewrite A1 in L1. simpl in L1.
      simpl in L0. pose proof (f_equal pos A1) as P1. simpl in P1. lia. }
    destruct Hd as [Hd Hp].
    destruct (IH (left - r) s1 b1) as (r' & n & s2 & b2 & E2 & Hok2 & W2 & [Sh3 Sh4] & Hin2 & Hout2 & A2 & Hn & D);
      try done; try lia.
    exists r', (r + n), s2, b2. split; [done|]. split; [done|]. split; [done|]. split; [split; congruence|].
    pose proof (wf_pos _ W). rewrite A1 in Hout2, A2. cbn [pos content] in Hout2, A2.
    split; [congruence|]. split.
    + rewrite Hout2, Hout, <-(assoc_L app), slice_app by (simpl; lia). done.
    + split; [rewrite A2; f_equal; lia|]. lia.
Qed.

(** C31: The loops over a stream that keeps its promises ([StreamLaws])
    transfer everything or say that they did not: [readF] and [writeF], to and
    from memory, to a ByteArray with room for the length and from one with
    that much to read, return the length asked for exactly when that many
    bytes were moved, in order, between the stream and the buffer, and
    otherwise a result that is not positive, with fewer bytes moved (which are
    then in the buffer, or sent, and the position of a ByteArray is behind
    them, but their number is not reported). Each transfer moves at least one
    byte or is the last, so the loops end. *)
Theorem stream_full_transfer (s : St) (ba : ByteArray) (buf : list byte) (len : Z) :
  st_ok s → wf ba → 0 ≤ len < 2 ^ 63 → len ≤ zlen buf →
  (∃ r bs s', readF buf len s = Ret (r, splice 0 bs buf) s' ∧ st_ok s' ∧
     st_in s = bs ++ st_in s' ∧ st_out s' = st_out s ∧ full_or_failed len r (zlen bs)) ∧
  (∃ r n s', writeF buf len s = Ret r s' ∧ st_ok s' ∧
     st_in s' = st_in s ∧ st_out s' = st_out s ++ slice 0 n buf ∧ full_or_failed len r n) ∧
  (ample ba len → ∃ r bs s' ba', readF_ba len (s, ba) = Ret r (s', ba') ∧ st_ok s' ∧ wf ba' ∧
     st_in s = bs ++ st_in s' ∧ st_out s' = st_out s ∧ abs ba' = buf_write bs (abs ba) ∧
     full_or_failed len r (zlen bs)) ∧
  (len ≤ getReadSize ba → ∃ r n s' ba', writeF_ba len (s, ba) = Ret r (s', ba') ∧ st_ok s' ∧ wf ba' ∧
     st_in s' = st_in s ∧ st_out s' = st_out s ++ slice (pos (abs ba)) n (content (abs ba)) ∧
     abs ba' = mkBuffer (content (abs ba)) (pos (abs ba) + n) ∧ full_or_failed len r n).
Proof.
  intros Hok W Hlen Hbuf. unfold full_or_failed. split; [|split; [|split]].
  - destruct (readF_loop_spec (S (Z.to_nat len)) buf 0 len len s) as (r & bs & s' & E & ? & ? & ? & D);
      try done; try lia.
    exists r, bs, s'. pose proof (zlen_nonneg bs). split_and!; try done. lia.
  - destruct (writeF_loop_spec (S (Z.to_nat len)) buf 0 len len s) as (r & n & s' & E & ? & ? & ? & ? & D);
      try done; try lia.
    exists r, n, s'. split_and!; try done. lia.
  - intros Ha. destruct (readF_ba_loop_spec (S (Z.to_nat len)) len len s ba)
      as (r & bs & s' & ba' & E & ? & ? & ? & ? & ? & ? & D); try done; try lia.
    exists r, bs, s', ba'. pose proof (zlen_nonneg bs). split_and!; try done. lia.
  - rewrite getReadSize_wf by done. intros Hr.
    destruct (writeF_ba_loop_spec (S (Z.to_nat len)) len len s ba)
      as (r & n & s' & ba' & E & ? & ? & ? & ? & ? & ? & ? & D); try done; try lia.
    exists r, n, s', ba'. split_and!; try done. lia.
Qed.
End LoopSpecs.
