(* ===== verification/SocketStream.v ===== *)
(** * SocketStream (net/socketstream.h, net/socketstream.cpp)

    A stream over a Socket, as an instance of the interface [Stream] and its
    laws. What the kernel moves is part of the state: the bytes that arrive,
    the bytes sent, and for each call the results and waits of the hooked
    system call. *)

From S2P Require Import Prelude Codec ByteArray Stream Hook IOScheduler Address Socket.
#[local] Open Scope Z_scope.

(** [script]: for each call the results of the original function and the ends
    of the waits. *)
Record wire := mkWire {
  incoming : list byte;
  outgoing : list byte;
  script : list (list sysres * list wake);
}.

Record SocketStream := mkSocketStream {
  m_socket : option Socket;
  m_proxy : bool;
  m_eof : bool;
  thread_os : hookw;
  conn : wire;
}.

Definition SocketStream_new (socket : option Socket) (proxy : bool) (o : hookw) (c : wire) : SocketStream :=
  mkSocketStream socket proxy false o c.

Definition set_conn (c : wire) (s : SocketStream) : SocketStream :=
  mkSocketStream (m_socket s) (m_proxy s) (m_eof s) (thread_os s) c.

Definition getSocket (s : SocketStream) : option Socket := m_socket s.
Definition ss_isConnected (s : SocketStream) : bool :=
  match m_socket s with Some k => Socket.isConnected k | None => false end.
Definition isEof (s : SocketStream) : bool := m_eof s.

(** A member function of the socket, called through the pointer. *)
Definition on_socket {A} (m : M sockw A) : M SocketStream A := λ s,
  match m_socket s with
  | None => Fault NullDeref
  | Some k =>
      let upd w := mkSocketStream (Some (sock w)) (m_proxy s) (m_eof s) (os w) (conn s) in
      match m (mkSockw k (thread_os s)) with
      | Ret a w => Ret a (upd w)
      | Throw e w => Throw e (upd w)
      | Fault f => Fault f
      end
  end.

Definition ss_close : M SocketStream unit :=
  s <- mget;;
  match m_socket s with Some _ => on_socket Socket.close;; mreturn tt | None => mreturn tt end.

(** [~SocketStream()] *)
Definition SocketStream_destroy : M SocketStream unit :=
  s <- mget;;
  match m_socket s with
  | Some _ => if m_proxy s then ss_close else mreturn tt
  | None => mreturn tt
  end.

(** ** The kernel's side of a transfer

    A call moves no more than it is offered; a connection whose script has
    ended fails. *)
Definition clip (limit : Z) (r : sysres) : sysres :=
  match r with SVal n => SVal (Z.max 0 (Z.min n limit)) | r => r end.
Definition sys_value (r : sysres) : Z := match r with SVal n => n | _ => -1 end.

Definition next_answer (c : wire) : list sysres * list wake := default ([SFail], [Woken]) (head (script c)).
Definition script_tail (c : wire) : wire := mkWire (incoming c) (outgoing c) (tail (script c)).

Definition ss_call (call : list sysres → list wake → M sockw (option (sysres * list act))) (limit : Z)
    : M SocketStream Z :=
  s <- mget;;
  let '(rs, ws) := next_answer (conn s) in
  r <- on_socket (call (clip limit <$> rs) ws);;
  mmodify (λ s, set_conn (script_tail (conn s)) s);;
  match r with
  | Some (r, _) => mreturn (sys_value r)
  | None => mfault OutOfFuel
  end.

(** A receiving call that fits [limit] bytes, and the bytes it stores. *)
Definition receive (call : list sysres → list wake → M sockw (option (sysres * list act))) (limit : Z)
    : M SocketStream (Z * list byte) :=
  s <- mget;;
  r <- ss_call call (Z.min limit (zlen (incoming (conn s))));;
  s <- mget;;
  let n := Z.to_nat r in
  mput (set_conn (mkWire (drop n (incoming (conn s))) (outgoing (conn s)) (script (conn s))) s);;
  mreturn (r, take n (incoming (conn s))).

(** A sending call given [bs]. *)
Definition transmit (call : list sysres → list wake → M sockw (option (sysres * list act))) (bs : list byte)
    : M SocketStream Z :=
  r <- ss_call call (zlen bs);;
  mmodify (λ s, set_conn (mkWire (incoming (conn s)) (outgoing (conn s) ++ take (Z.to_nat r) bs) (script (conn s))) s);;
  mreturn r.

(** ** The four transfers *)

Definition ss_read (len : Z) : M SocketStream (Z * list byte) :=
  s <- mget;;
  if negb (ss_isConnected s) then mreturn (-1, []) else receive recv len.

Definition ss_write (buf : list byte) : M SocketStream Z :=
  s <- mget;;
  if negb (ss_isConnected s) then mreturn (-1) else transmit send buf.

Definition on_fst {A B C} (m : M A C) : M (A * B) C := λ s,
  match m s.1 with Ret c a => Ret c (a, s.2) | Throw e a => Throw e (a, s.2) | Fault f => Fault f end.
Definition on_snd {A B C} (m : M B C) : M (A * B) C := λ s,
  match m s.2 with Ret c b => Ret c (s.1, b) | Throw e b => Throw e (s.1, b) | Fault f => Fault f end.

Definition iov_total (iovs : list iovec) : Z := foldr (λ v n, iov_len v + n) 0 iovs.

Section ByteArrays.
Context `{Platform}.

(** [if (ret > 0) buf->setPosition(buf->getPosition() + ret); return ret;] *)
Definition advance (ret : Z) : M (SocketStream * ByteArray) Z :=
  (if 0 <? ret then on_snd (ba <- mget;; setPosition (u64 (getPosition ba + ret))) else mreturn tt);;
  mreturn ret.

(** [&iovecs[0]] of an empty vector is out of its bounds. *)
Definition ss_read_ba (len : Z) : M (SocketStream * ByteArray) Z :=
  s <- mget;;
  if negb (ss_isConnected s.1) then mreturn (-1) else
  v <- on_snd (getWriteBuffers len);;
  match v.1 with
  | [] => mfault OutOfBounds
  | iovecs =>
      res <- on_fst (receive recv_iov (iov_total iovecs));;
      let '(ret, bs) := res in
      on_snd (mmodify (λ ba, set_chain (iov_scatter bs iovecs (m_nodes ba)) (m_cur ba) (m_position ba) ba));;
      advance ret
  end.

Definition ss_write_ba (len : Z) : M (SocketStream * ByteArray) Z :=
  s <- mget;;
  if negb (ss_isConnected s.1) then mreturn (-1) else
  v <- on_snd (getReadBuffers len);;
  match v.1 with
  | [] => mfault OutOfBounds
  | iovecs => ret <- on_fst (transmit send_iov (iov_gather (m_nodes s.2) iovecs));; advance ret
  end.

#[export] Instance SocketStream_Stream : Stream SocketStream := {
  st_read := ss_read;
  st_read_ba := ss_read_ba;
  st_write := ss_write;
  st_write_ba := ss_write_ba;
  st_close := ss_close;
}.
End ByteArrays.

(** ** The laws *)

(** A call that ends: the original function has a result a blocking caller
    would see, and each wait ends with the event. *)
Definition complete (a : list sysres * list wake) : Prop :=
  (∃ r, first_real a.1 = Some r) ∧ Forall (λ x, x = Woken) a.2 ∧ (length a.1 ≤ length a.2)%nat.

Definition ss_ok (s : SocketStream) : Prop :=
  (∀ k, m_socket s = Some k → sock_ok (mkSockw k (thread_os s))) ∧ Forall complete (script (conn s)).

Lemma first_real_elem rs r : first_real rs = Some r → r ∈ rs.
Proof.
  induction rs as [|[n|e|] rs IH]; simpl; [done|by intros [= <-]; left| |by intros [= <-]; left].
  destruct (_ || _); [intros; right; auto|by intros [= <-]; left].
Qed.

Lemma first_real_clip limit rs : first_real (clip limit <$> rs) = clip limit <$> first_real rs.
Proof. induction rs as [|[n|e|] rs IH]; simpl; [done..| |done]. by destruct (_ || _). Qed.

Lemma next_complete c : Forall complete (script c) → complete (next_answer c).
Proof.
  unfold next_answer. destruct 1 as [|a l Ha _]; simpl; [|done].
  split; [by eexists|]. split; [by constructor|simpl; lia].
Qed.

(** A complete hooked call returns one of the results of the function. *)
Lemma io_answers ev fd f rs ws w : hooked w → obj w fd = Some f → isSocket f = true → complete (rs, ws) →
  ∃ r acts, Hook.io fd ev rs ws w = Ret (Some (r, acts)) w ∧ r ∈ rs.
Proof.
  intros Hw Hf Hs ([r Hr] & HW & HL). cbn [fst snd] in *. destruct (getUserNonBlock f) eqn:U.
  - destruct Hw as (W & He & Hi). pose proof (obj_range _ _ _ Hf) as [R _].
    unfold Hook.io. mrun. rewrite He. cbn [negb]. mstep (fd_get_spec fd w W R). rewrite Hf.
    destruct (wf_fds w W _ _ Hf) as (C & _). unfold isClose. rewrite C, U, orb_true_r.
    destruct rs as [|r0 rs]; [done|]. eexists _, _. split; [done|]. by left.
  - rewrite (io_blocking w fd f ev rs ws Hw Hf Hs U).
    destruct (io_loop_returns (S (length rs)) ev (getTimeout ev f) rs ws r) as [acts E]; [lia|done..|].
    rewrite E. exists r, acts. split; [done|]. by apply first_real_elem.
Qed.

Lemma ss_call_ok ev limit s k : ss_ok s → m_socket s = Some k → m_is_connected k = true →
  ∃ r, ss_call (λ rs ws, transfer (λ fd, Hook.io fd ev rs ws)) limit s = Ret r (set_conn (script_tail (conn s)) s) ∧
    -1 ≤ r ≤ Z.max 0 limit.
Proof.
  intros [Hok Hc] Hk C. unfold ss_call. rewrite (bind_Ret mget _ s s s eq_refl).
  pose proof (next_complete _ Hc) as Hn. destruct (next_answer (conn s)) as [rs ws].
  destruct (Hok k Hk) as [Ho Hs]. cbn [sock os] in *.
  destruct (m_sockfd k =? -1); [congruence|]. destruct Hs as (H0 & f & Hf & Sf).
  destruct (io_answers ev (m_sockfd k) f (clip limit <$> rs) ws (thread_os s) Ho Hf Sf) as (r & acts & E & Hin).
  { destruct Hn as ([r Hr] & HW & HL). split; [|split; [done|simpl; by rewrite length_fmap]].
    cbn [fst] in Hr |- *. rewrite first_real_clip, Hr. by eexists. }
  assert (Et : on_socket (transfer (λ fd, Hook.io fd ev (clip limit <$> rs) ws)) s = Ret (Some (r, acts)) s).
  { unfold on_socket. rewrite Hk. unfold transfer. rewrite (bind_Ret mget _ _ _ _ eq_refl). unfold isConnected.
    cbn [sock]. rewrite C. cbn [negb]. unfold on_os. cbn [os sock]. rewrite E. destruct s. simpl in Hk. by subst. }
  mstep Et. rewrite bind_modify. exists (sys_value r). split; [done|].
  apply list_elem_of_fmap in Hin as (r0 & -> & _). destruct r0; simpl; lia.
Qed.

(** The state of the stream after a transfer. *)
Definition moved (s : SocketStream) (inc out : list byte) : SocketStream :=
  set_conn (mkWire inc out (tail (script (conn s)))) s.

Lemma moved_ok s inc out : ss_ok s → ss_ok (moved s inc out).
Proof. intros [H Hc]. split; [done|]. simpl. by destruct Hc. Qed.

Lemma receive_ok ev limit s k : ss_ok s → m_socket s = Some k → m_is_connected k = true → 0 < limit →
  ∃ r bs, receive (λ rs ws, transfer (λ fd, Hook.io fd ev rs ws)) limit s =
      Ret (r, bs) (moved s (drop (length bs) (incoming (conn s))) (outgoing (conn s))) ∧
    r ≤ limit ∧ zlen bs = Z.max 0 r ∧ incoming (conn s) = bs ++ drop (length bs) (incoming (conn s)).
Proof.
  intros Hok Hk C Hl. unfold receive. rewrite (bind_Ret mget _ s s s eq_refl).
  destruct (ss_call_ok ev (Z.min limit (zlen (incoming (conn s)))) s k Hok Hk C) as (r & E & Hr).
  mstep E. rewrite (bind_Ret mget _ _ _ _ eq_refl). cbn [conn set_conn script_tail incoming outgoing script].
  pose proof (zlen_nonneg (incoming (conn s))).
  assert (Hlen : length (take (Z.to_nat r) (incoming (conn s))) = Z.to_nat r)
    by (rewrite length_take; unfold zlen in *; lia).
  exists r, (take (Z.to_nat r) (incoming (conn s))). rewrite Hlen, take_drop. unfold zlen. rewrite Hlen.
  split; [done|]. split; [lia|]. split; [lia|done].
Qed.

Lemma transmit_ok ev bs s k : ss_ok s → m_socket s = Some k → m_is_connected k = true →
  ∃ r, transmit (λ rs ws, transfer (λ fd, Hook.io fd ev rs ws)) bs s =
      Ret r (moved s (incoming (conn s)) (outgoing (conn s) ++ take (Z.to_nat r) bs)) ∧ r ≤ zlen bs.
Proof.
  intros Hok Hk C. unfold transmit. destruct (ss_call_ok ev (zlen bs) s k Hok Hk C) as (r & E & Hr).
  mstep E. rewrite bind_modify. exists r. split; [done|]. pose proof (zlen_nonneg bs). lia.
Qed.

(** Whether the stream has a connection. *)
Lemma ss_isConnected_cases s : ss_isConnected s = false ∨
  ∃ k, m_socket s = Some k ∧ m_is_connected k = true ∧ ss_isConnected s = true.
Proof.
  unfold ss_isConnected, isConnected. destruct (m_socket s) as [k|]; [|by left].
  destruct (m_is_connected k) eqn:C; [right; by exists k|by left].
Qed.

Lemma ss_read_spec s n : ss_ok s → 0 < n → ∃ r bs s', ss_read n s = Ret (r, bs) s' ∧ ss_ok s' ∧ r ≤ n ∧
  zlen bs = Z.max 0 r ∧ incoming (conn s) = bs ++ incoming (conn s') ∧ outgoing (conn s') = outgoing (conn s).
Proof.
  intros Hok Hn. unfold ss_read. rewrite (bind_Ret mget _ s s s eq_refl).
  destruct (ss_isConnected_cases s) as [->|(k & Hk & C & ->)]; cbn [negb].
  - exists (-1), [], s. split_and!; try done. lia.
  - destruct (receive_ok READ n s k Hok Hk C Hn) as (r & bs & E & Hr & Hl & Hi).
    exists r, bs. eexists. split; [exact E|]. split; [by apply moved_ok|]. done.
Qed.

Lemma ss_write_spec s bs : ss_ok s → ∃ r s', ss_write bs s = Ret r s' ∧ ss_ok s' ∧ r ≤ zlen bs ∧
  incoming (conn s') = incoming (conn s) ∧ outgoing (conn s') = outgoing (conn s) ++ take (Z.to_nat r) bs.
Proof.
  intros Hok. unfold ss_write. rewrite (bind_Ret mget _ s s s eq_refl). pose proof (zlen_nonneg bs).
  destruct (ss_isConnected_cases s) as [->|(k & Hk & C & ->)]; cbn [negb].
  - exists (-1), s. split_and!; try done; [lia|]. simpl. by rewrite app_nil_r.
  - destruct (transmit_ok WRITE bs s k Hok Hk C) as (r & E & Hr).
    exists r. eexists. split; [exact E|]. split; [by apply moved_ok|]. done.
Qed.

Lemma covers_total ns iovs a b : covers ns iovs a b → iov_total iovs = b - a.
Proof.
  revert a. induction iovs as [|v vs IH]; intros a; simpl; [lia|].
  intros (_ & _ & _ & _ & Hc). apply IH in Hc. lia.
Qed.

Lemma iov_scatter_nil ns iovs a b nodes : covers ns iovs a b → iov_scatter [] iovs nodes = nodes.
Proof.
  revert a. induction iovs as [|v vs IH]; intros a; [done|]. intros (_ & Hv & _ & _ & Hc). cbn [iov_scatter].
  rewrite take_nil, drop_nil.
  assert (E : match nodes !! iov_node v with
              | Some x => <[iov_node v:=splice (iov_off v) [] x]> nodes
              | None => nodes end = nodes).
  { destruct (nodes !! iov_node v) eqn:L; [|done]. rewrite splice_nil by done. by apply list_insert_id. }
  rewrite E. by eapply IH.
Qed.

Lemma buf_write_nil b : 0 ≤ pos b → buf_write [] b = b.
Proof.
  intros. unfold buf_write. rewrite splice_nil by done. change (zlen []) with 0.
  rewrite Z.add_0_r. by destruct b.
Qed.

Section ByteArrayLaws.
Context `{Platform}.

Lemma ss_read_ba_spec s ba n : ss_ok s → wf ba → 0 < n → room ba n → ∃ r bs s' ba',
  ss_read_ba n (s, ba) = Ret r (s', ba') ∧ ss_ok s' ∧ r ≤ n ∧ zlen bs = Z.max 0 r ∧
  incoming (conn s) = bs ++ incoming (conn s') ∧ outgoing (conn s') = outgoing (conn s) ∧
  wf ba' ∧ same_shape ba ba' ∧ abs ba' = buf_write bs (abs ba) ∧
  m_total_size ba' < m_total_size ba + n + m_node_size ba.
Proof.
  intros Hok W Hn Hroom. unfold ss_read_ba. rewrite (bind_Ret mget _ _ _ _ eq_refl). cbn [fst].
  pose proof (wf_pos _ W). pose proof (wf_node_size _ W).
  assert (Hnil : buf_write [] (abs ba) = abs ba) by (apply buf_write_nil; simpl; lia).
  destruct (ss_isConnected_cases s) as [->|(k & Hk & C & ->)]; cbn [negb].
  { exists (-1), [], s, ba. split_and!; try done; [lia|lia]. }
  destruct (getWriteBuffers_spec n ba W Hn Hroom) as (iovs & b1 & E & W1 & G & [Hrm1 Hrm2] & Hcov).
  assert (E' : on_snd (getWriteBuffers n) (s, ba) = Ret (iovs, n) (s, b1)) by (unfold on_snd; cbn [snd fst]; by rewrite E).
  mstep E'. cbn [fst].
  pose proof (covers_total _ _ _ _ Hcov) as Htot. destruct iovs as [|v vs] eqn:Ei; [simpl in Htot; lia|].
  rewrite <-Ei in *. clear Ei.
  destruct (receive_ok READ (iov_total iovs) s k Hok Hk C ltac:(lia)) as (r & bs & Er & Hr & Hl & Hi).
  assert (Er' : on_fst (receive recv_iov (iov_total iovs)) (s, b1) = Ret (r, bs)
    (moved s (drop (length bs) (incoming (conn s))) (outgoing (conn s)), b1)).
  { unfold on_fst. cbn [fst snd]. unfold recv_iov, h_recvmsg. by rewrite Er. }
  mstep Er'. set (s1 := moved _ _ _). unfold on_snd at 1, mmodify. unfold mbind' at 1. cbn [fst snd].
  assert (Hok1 : ss_ok s1) by (by apply moved_ok).
  unfold advance. destruct (Z.ltb_spec 0 r) as [Hpos|Hle].
  - destruct (receive_spec n bs ba iovs b1 W Hn Hroom ltac:(lia) E) as (Wx & Hp & b2 & E2 & W2 & Sh & A & T).
    set (bx := set_chain _ _ _ _) in *.
    rewrite Z.max_r in Hl by lia. rewrite Hl in E2. pose proof (wf_bound _ W1).
    assert (Ep : on_snd (ba <- mget;; setPosition (u64 (getPosition ba + r))) (s1, bx) = Ret tt (s1, b2)).
    { unfold on_snd. cbn [fst snd]. rewrite (bind_Ret mget _ _ _ _ eq_refl). unfold getPosition.
      destruct G as (_ & Gp & _). rewrite wrapu_small by (unfold urange; lia). by rewrite E2. }
    mstep Ep. exists r, bs, s1, b2. split_and!; try done; lia.
  - rewrite Z.max_l in Hl by lia. apply zlen_nil_inv in Hl. subst bs.
    rewrite (iov_scatter_nil _ _ _ _ (m_nodes b1) Hcov).
    replace (set_chain (m_nodes b1) (m_cur b1) (m_position b1) b1) with b1 by (by destruct b1).
    exists r, [], s1, b1. rewrite Hnil. pose proof (abs_grown _ _ W G).
    split_and!; try done; try apply G; change (zlen []) with 0; lia.
Qed.

Lemma ss_write_ba_spec s ba n : ss_ok s → wf ba → 0 < n ≤ m_data_size ba - m_position ba → ∃ r s' ba',
  ss_write_ba n (s, ba) = Ret r (s', ba') ∧ ss_ok s' ∧ r ≤ n ∧ incoming (conn s') = incoming (conn s) ∧
  outgoing (conn s') = outgoing (conn s) ++ slice (pos (abs ba)) (Z.max 0 r) (content (abs ba)) ∧
  wf ba' ∧ same_shape ba ba' ∧ abs ba' = mkBuffer (content (abs ba)) (pos (abs ba) + Z.max 0 r).
Proof.
  intros Hok W Hn. unfold ss_write_ba. rewrite (bind_Ret mget _ _ _ _ eq_refl). cbn [fst].
  pose proof (wf_pos _ W). pose proof (wf_data _ W). pose proof (wf_bound _ W).
  assert (Hz : abs ba = mkBuffer (content (abs ba)) (pos (abs ba) + 0)) by (rewrite Z.add_0_r; by destruct (abs ba)).
  destruct (ss_isConnected_cases s) as [->|(k & Hk & C & ->)]; cbn [negb].
  { exists (-1), s, ba. split_and!; try done; [lia|]. by rewrite slice_0, app_nil_r. }
  destruct (getReadBuffers_spec n ba W ltac:(lia)) as (iovs & n' & E & Hn' & Hcov & Hg).
  rewrite Z.min_l in Hn' by lia. subst n'.
  assert (E' : on_snd (getReadBuffers n) (s, ba) = Ret (iovs, n) (s, ba)) by (unfold on_snd; cbn [snd fst]; by rewrite E).
  mstep E'. cbn [fst snd].
  pose proof (covers_total _ _ _ _ Hcov) as Htot. destruct iovs as [|v vs] eqn:Ei; [simpl in Htot; lia|].
  rewrite <-Ei in *. clear Ei. rewrite Hg. set (data := slice _ n _).
  assert (Hd : zlen data = n) by (apply zlen_slice; rewrite ?zlen_content by done; simpl; lia).
  destruct (transmit_ok WRITE data s k Hok Hk C) as (r & Er & Hr).
  assert (Er' : on_fst (transmit send_iov data) (s, ba) =
    Ret r (moved s (incoming (conn s)) (outgoing (conn s) ++ take (Z.to_nat r) data), ba)).
  { unfold on_fst. cbn [fst snd]. unfold send_iov, h_sendmsg. by rewrite Er. }
  mstep Er'. set (s1 := moved _ _ _).
  assert (Hok1 : ss_ok s1) by (by apply moved_ok).
  assert (Ho : outgoing (conn s1) = outgoing (conn s) ++ slice (pos (abs ba)) (Z.max 0 r) (content (abs ba))).
  { simpl. f_equal. unfold data, slice. rewrite take_take. f_equal. lia. }
  unfold advance. destruct (Z.ltb_spec 0 r) as [Hpos|Hle].
  - destruct (setPosition_inside (m_position ba + r) ba W ltac:(lia)) as (b2 & E2 & W2 & Sh & A & _ & _).
    assert (Ep : on_snd (ba <- mget;; setPosition (u64 (getPosition ba + r))) (s1, ba) = Ret tt (s1, b2)).
    { unfold on_snd. cbn [fst snd]. rewrite (bind_Ret mget _ _ _ _ eq_refl). unfold getPosition.
      rewrite wrapu_small by (unfold urange; lia). by rewrite E2. }
    mstep Ep. exists r, s1, b2. split_and!; try done; [lia|apply Sh..|]. rewrite A, Z.max_r by lia. done.
  - exists r, s1, ba. split_and!; try done; [lia|]. by rewrite Z.max_l by lia.
Qed.

#[export] Instance SocketStream_Laws : StreamLaws SocketStream := {
  st_ok := ss_ok;
  st_in s := incoming (conn s);
  st_out s := outgoing (conn s);
  st_read_law := ss_read_spec;
  st_write_law := ss_write_spec;
  st_read_ba_law := ss_read_ba_spec;
  st_write_ba_law := ss_write_ba_spec;
}.
End ByteArrayLaws.

(** ** The edges *)
Section Edges.
Context `{Platform}.

Lemma destroy_ok s : ss_ok s → ∃ s', SocketStream_destroy s = Ret tt s' ∧ ss_ok s' ∧ conn s' = conn s ∧
  (m_proxy s = false → s' = s) ∧
  (m_proxy s = true → ss_isConnected s' = false ∧ ∀ k, m_socket s' = Some k → isValid k = false).
Proof.
  intros [Hok Hc]. unfold SocketStream_destroy. rewrite (bind_Ret mget _ s s s eq_refl).
  destruct (m_socket s) as [k|] eqn:Ek.
  2: { exists s. unfold ss_isConnected. rewrite Ek. split_and!; try done. split; [by rewrite Ek|done]. }
  destruct (m_proxy s) eqn:Ep.
  2: { exists s. split; [done|]. split; [split; [by rewrite Ek|done]|done]. }
  unfold ss_close. rewrite (bind_Ret mget _ s s s eq_refl), Ek.
  destruct (sock_close_ok _ (Hok k eq_refl)) as (w & E & Hw & V & C & _).
  set (s' := mkSocketStream (Some (sock w)) (m_proxy s) (m_eof s) (os w) (conn s)).
  assert (E' : on_socket Socket.close s = Ret true s') by (unfold on_socket; rewrite Ek; by rewrite E).
  mstep E'. exists s'. split; [done|]. split.
  { split; [|done]. intros k' [= <-]. by destruct w. }
  split; [done|]. split; [done|]. intros _. split; [done|]. by intros k' [= <-].
Qed.

(** Asking for more than is unread is asking for what is unread. *)
Lemma getReadBuffers_rest n ba : wf ba → m_data_size ba - m_position ba ≤ n →
  getReadBuffers n ba = getReadBuffers (m_data_size ba - m_position ba) ba.
Proof.
  intros W Hn. unfold getReadBuffers. rewrite !(bind_Ret mget _ ba ba ba eq_refl).
  pose proof (wf_pos _ W). pose proof (wf_data _ W). pose proof (wf_bound _ W).
  rewrite wrapu_small by (unfold urange; lia). set (rest := m_data_size ba - m_position ba) in *.
  rewrite Z.ltb_irrefl. replace (if rest <? n then rest else n) with rest; [done|].
  destruct (Z.ltb_spec rest n); lia.
Qed.

Lemma ss_write_ba_rest s ba n : wf ba → m_data_size ba - m_position ba ≤ n →
  ss_write_ba n (s, ba) = ss_write_ba (m_data_size ba - m_position ba) (s, ba).
Proof.
  intros W Hn. unfold ss_write_ba. rewrite !(bind_Ret mget _ _ _ _ eq_refl).
  destruct (negb _); [done|]. unfold mbind' at 1 3. unfold on_snd. cbn [snd].
  by rewrite getReadBuffers_rest.
Qed.

Lemma ss_write_ba_none s ba n : wf ba → ss_isConnected s = true → 0 ≤ n → m_data_size ba = m_position ba →
  ss_write_ba n (s, ba) = Fault OutOfBounds.
Proof.
  intros W C Hn E. rewrite ss_write_ba_rest, E, Z.sub_diag by (done || lia).
  unfold ss_write_ba. rewrite (bind_Ret mget _ _ _ _ eq_refl). cbn [fst]. rewrite C. cbn [negb].
  assert (G : on_snd (getReadBuffers 0) (s, ba) = Ret ([], 0) (s, ba)).
  { unfold on_snd. cbn [snd fst]. unfold getReadBuffers. mrun. rewrite E, Z.sub_diag. done. }
  by mstep G.
Qed.

Lemma writeF_too_much fuel left len s ba : ss_ok s → wf ba → m_data_size ba - m_position ba < left →
  left ≤ len < 2 ^ 63 → (Z.to_nat left < fuel)%nat →
  writeF_ba_loop fuel left len (s, ba) = Fault OutOfBounds ∨
  ∃ r s' ba', writeF_ba_loop fuel left len (s, ba) = Ret r (s', ba') ∧ r ≤ 0.
Proof.
  revert left s ba. induction fuel as [|fuel IH]; [lia|]. intros left s ba Hok W Hleft Hlen Hf.
  pose proof (wf_pos _ W) as Hpos. cbn [writeF_ba_loop]. destruct (Z.ltb_spec 0 left); [cbn [negb]|lia].
  cbn [st_write_ba SocketStream_Stream].
  destruct (Z.eq_dec (m_data_size ba) (m_position ba)) as [E|Hne].
  - destruct (ss_isConnected s) eqn:C.
    + left. by mstep (ss_write_ba_none s ba left W C ltac:(lia) E).
    + right. assert (E1 : ss_write_ba left (s, ba) = Ret (-1) (s, ba)).
      { unfold ss_write_ba. rewrite (bind_Ret mget _ _ _ _ eq_refl). cbn [fst]. by rewrite C. }
      mstep E1. exists (-1), s, ba. split; [done|lia].
  - destruct (ss_write_ba_spec s ba (m_data_size ba - m_position ba) Hok W ltac:(lia))
      as (r & s1 & b1 & E1 & Hok1 & Hr & _ & _ & W1 & _ & A1).
    rewrite <-(ss_write_ba_rest s ba left) in E1 by (done || lia). mstep E1.
    destruct (Z.leb_spec r 0); [right; by exists r, s1, b1|].
    rewrite wrapu_small by (unfold urange; lia). rewrite Z.max_r in A1 by lia.
    pose proof (zlen_content _ W) as L0. pose proof (zlen_content _ W1) as L1. rewrite A1 in L1. simpl in L1, L0.
    pose proof (f_equal pos A1) as P1. simpl in P1. apply IH; try done; lia.
Qed.

(** A SocketStream without a connection answers every transfer with -1 and
    moves nothing. Its destructor closes the socket when it owns it (after
    which there is no connection and no descriptor) and otherwise leaves
    everything as it is. On a connection, a transfer of a ByteArray with
    nothing to transfer takes the address of the first element of an empty
    vector: reading 0 bytes, writing when all was read, and so [writeF] of
    more than the ByteArray holds never succeeds, it fails on the way or ends
    there. *)
Theorem socket_stream_edges s ba n : ss_ok s → wf ba → 0 ≤ n < 2 ^ 63 →
  (∃ s', SocketStream_destroy s = Ret tt s' ∧ conn s' = conn s ∧
     (m_proxy s = false → s' = s) ∧
     (m_proxy s = true → ss_isConnected s' = false ∧ ∀ k, m_socket s' = Some k → isValid k = false)) ∧
  (ss_isConnected s = false → ss_read n s = Ret (-1, []) s ∧ (∀ bs, ss_write bs s = Ret (-1) s) ∧
     ss_read_ba n (s, ba) = Ret (-1) (s, ba) ∧ ss_write_ba n (s, ba) = Ret (-1) (s, ba)) ∧
  (ss_isConnected s = true → ss_read_ba 0 (s, ba) = Fault OutOfBounds ∧
     (getReadSize ba = 0 → ss_write_ba n (s, ba) = Fault OutOfBounds)) ∧
  (getReadSize ba < n → writeF_ba n (s, ba) = Fault OutOfBounds ∨
     ∃ r s' ba', writeF_ba n (s, ba) = Ret r (s', ba') ∧ r ≤ 0).
Proof.
  intros Hok W Hn. split; [|split; [|split]].
  - destruct (destroy_ok s Hok) as (s' & E & _ & R). by exists s'.
  - intros C. unfold ss_read, ss_write, ss_read_ba, ss_write_ba. rewrite !(bind_Ret mget _ _ _ _ eq_refl). cbn [fst].
    rewrite C. split; [done|]. split; [|done]. intros bs. by rewrite (bind_Ret mget _ _ _ _ eq_refl), C.
  - intros C. split.
    + unfold ss_read_ba. rewrite (bind_Ret mget _ _ _ _ eq_refl). cbn [fst]. by rewrite C.
    + rewrite getReadSize_wf by done. intros E. apply ss_write_ba_none; try done; lia.
  - rewrite getReadSize_wf by done. intros Hlt.
    apply (writeF_too_much (S (Z.to_nat n)) n n s ba); try done; lia.
Qed.
End Edges.

(** ** Instances *)

(** A connection on which five bytes arrive, in two pieces. *)
Definition demo_bytes : list byte := [Byte.x68; Byte.x65; Byte.x6c; Byte.x6c; Byte.x6f].
Definition demo_stream : SocketStream :=
  SocketStream_new (Some (sock demo_socket)) true (os demo_socket)
    (mkWire demo_bytes [] [([SErr EAGAIN; SVal 3], [Woken; Woken]); ([SErr EINTR; SVal 9], [Woken; Woken])]).

Lemma demo_stream_ok : ss_ok demo_stream.
Proof.
  split.
  - intros k [= <-]. exact demo_socket_ok.
  - repeat constructor; try (by eexists); simpl; lia.
Qed.

Lemma demo_array_wf : wf (ByteArray_new (H := x86_64) 4).
Proof. apply ByteArray_new_wf. lia. Qed.

Lemma stream_full_transfer_witness :
  (∃ s', readF (H := SocketStream_Stream (H := x86_64)) (replicate 5 Byte.x00) 5 demo_stream = Ret (5, demo_bytes) s') ∧
  ∃ r bs s', readF (H := SocketStream_Stream (H := x86_64)) (replicate 5 Byte.x00) 5 demo_stream =
    Ret (r, splice 0 bs (replicate 5 Byte.x00)) s' ∧ full_or_failed 5 r (zlen bs).
Proof.
  split; [eexists; vm_compute; reflexivity|].
  destruct (stream_full_transfer (H1 := SocketStream_Laws (H := x86_64)) demo_stream _
    (replicate 5 Byte.x00) 5 demo_stream_ok demo_array_wf ltac:(lia) ltac:(unfold zlen; simpl; lia))
    as ((r & bs & s' & E & _ & _ & _ & F) & _).
  by exists r, bs, s'.
Defined.

Lemma socket_stream_edges_witness :
  ss_isConnected demo_stream = true ∧
  ss_read_ba (H := x86_64) 0 (demo_stream, ByteArray_new (H := x86_64) 4) = Fault OutOfBounds.
Proof.
  destruct (socket_stream_edges (H := x86_64) demo_stream (ByteArray_new (H := x86_64) 4) 5
    demo_stream_ok demo_array_wf ltac:(lia)) as (_ & _ & P & _).
  split; [reflexivity|]. exact (proj1 (P eq_refl)).
Defined.
