(* ===== verification/Regex.v ===== *)
(** * Regular expressions and scanners

    Shared by the scanner of URIs ([Uri], [UriSpec]): regular expressions over
    bytes, their partial derivatives, and two checks that decide questions
    about a scanner by computing a finite relation between its states and sets
    of derivatives: that it accepts a regular expression, and what actions it
    takes along the words of one. *)

From S2P Require Import Prelude.
#[local] Open Scope Z_scope.

#[global] Instance byte_eq_decision : EqDecision byte := Byte.byte_eq_dec.

(** A class of bytes is a list of ranges. *)
Inductive re :=
| REps
| RCls (ranges : list (Z * Z))
| RCat (a b : re)
| RAlt (a b : re)
| RStar (a : re).

(** Equality by a boolean function, which the checks below evaluate often. *)
Fixpoint ranges_eqb (l1 l2 : list (Z * Z)) : bool :=
  match l1, l2 with
  | [], [] => true
  | (a, b) :: l1, (c, d) :: l2 => (a =? c) && (b =? d) && ranges_eqb l1 l2
  | _, _ => false
  end.
Fixpoint re_eqb (r1 r2 : re) : bool :=
  match r1, r2 with
  | REps, REps => true
  | RCls l1, RCls l2 => ranges_eqb l1 l2
  | RCat a b, RCat c d | RAlt a b, RAlt c d => re_eqb a c && re_eqb b d
  | RStar a, RStar b => re_eqb a b
  | _, _ => false
  end.

Lemma ranges_eqb_eq l1 l2 : ranges_eqb l1 l2 = true ↔ l1 = l2.
Proof.
  revert l2. induction l1 as [|[a b] l1 IH]; intros [|[c d] l2]; simpl; try done.
  rewrite !andb_true_iff, !Z.eqb_eq, IH. naive_solver.
Qed.
Lemma re_eqb_eq r1 r2 : re_eqb r1 r2 = true ↔ r1 = r2.
Proof.
  revert r2. induction r1 as [|l|a IHa b IHb|a IHa b IHb|a IHa]; intros [|l'|c d|c d|c]; simpl; try done;
    rewrite ?andb_true_iff, ?ranges_eqb_eq, ?IHa, ?IHb; naive_solver.
Qed.
#[global] Instance re_eq_dec : EqDecision re := λ r1 r2,
  match re_eqb r1 r2 as e return re_eqb r1 r2 = e → Decision (r1 = r2) with
  | true => λ E, left (proj1 (re_eqb_eq r1 r2) E)
  | false => λ E, right (λ H, Bool.diff_false_true (eq_trans (eq_sym E) (proj2 (re_eqb_eq r1 r2) H)))
  end eq_refl.

Definition in_class (b : byte) (ranges : list (Z * Z)) : bool :=
  existsb (λ r, (r.1 <=? byte.unsigned b) && (byte.unsigned b <=? r.2)) ranges.

(** The language. *)
Inductive matches : re → list byte → Prop :=
| MEps : matches REps []
| MCls b l : in_class b l = true → matches (RCls l) [b]
| MCat r1 r2 w1 w2 : matches r1 w1 → matches r2 w2 → matches (RCat r1 r2) (w1 ++ w2)
| MAltL r1 r2 w : matches r1 w → matches (RAlt r1 r2) w
| MAltR r1 r2 w : matches r2 w → matches (RAlt r1 r2) w
| MStarNil r : matches (RStar r) []
| MStarApp r w1 w2 : w1 ≠ [] → matches r w1 → matches (RStar r) w2 → matches (RStar r) (w1 ++ w2).

(** Derived forms. *)
Definition ROpt (r : re) : re := RAlt r REps.
Definition RPlus (r : re) : re := RCat r (RStar r).
Fixpoint RRep (n : nat) (r : re) : re :=
  match n with O => REps | S O => r | S n => RCat r (RRep n r) end.
Definition RCats (l : list re) : re := foldr (λ a r, if decide (r = REps) then a else RCat a r) REps l.
Definition RAlts (a : re) (l : list re) : re := foldl RAlt a l.
Definition chr (c : Z) : re := RCls [(c, c)].

(** ** Partial derivatives *)

Fixpoint nullable (r : re) : bool :=
  match r with
  | REps => true
  | RCls _ => false
  | RCat a b => nullable a && nullable b
  | RAlt a b => nullable a || nullable b
  | RStar _ => true
  end.

Definition cat (a b : re) : re := match a with REps => b | _ => RCat a b end.

Fixpoint pd (b : byte) (r : re) : list re :=
  match r with
  | REps => []
  | RCls l => if in_class b l then [REps] else []
  | RCat r1 r2 => ((λ x, cat x r2) <$> pd b r1) ++ (if nullable r1 then pd b r2 else [])
  | RAlt r1 r2 => pd b r1 ++ pd b r2
  | RStar r1 => (λ x, cat x r) <$> pd b r1
  end.

(** A set of regular expressions, as the union of their languages. *)
Definition pds (b : byte) (R : list re) : list re := remove_dups (R ≫= pd b).
Definition nullables (R : list re) : bool := existsb nullable R.
Definition any_matches (R : list re) (w : list byte) : Prop := ∃ r, r ∈ R ∧ matches r w.

Lemma matches_nil r : matches r [] ↔ nullable r = true.
Proof.
  split.
  - remember [] as w eqn:E. induction 1; simpl; try done.
    + apply app_eq_nil in E as [-> ->]. by rewrite IHmatches1, IHmatches2.
    + by rewrite IHmatches.
    + rewrite IHmatches by done. apply orb_true_r.
  - induction r; simpl; try done; intros H; try (by constructor).
    + apply andb_true_iff in H as [H1 H2]. apply (MCat _ _ [] []); auto.
    + apply orb_true_iff in H as [H|H]; [apply MAltL|apply MAltR]; auto.
Qed.

Lemma matches_RCat a b w : matches (RCat a b) w ↔ ∃ w1 w2, w = w1 ++ w2 ∧ matches a w1 ∧ matches b w2.
Proof.
  split; [inversion 1; subst; eauto|]. intros (w1 & w2 & -> & ? & ?). by constructor.
Qed.

Lemma matches_cat a b w : matches (cat a b) w ↔ matches (RCat a b) w.
Proof.
  destruct a; try done. simpl. split.
  - intros H. by apply (MCat REps b []); [constructor|].
  - intros (w1 & w2 & -> & H1 & H2)%matches_RCat. by inversion H1; subst.
Qed.

Lemma matches_star_cons r c w : matches (RStar r) (c :: w) →
  ∃ w1 w2, w = w1 ++ w2 ∧ matches r (c :: w1) ∧ matches (RStar r) w2.
Proof.
  remember (RStar r) as e eqn:Ee. remember (c :: w) as v eqn:Ev.
  destruct 1 as [| | | | |r'|r' w1 w2 Hne H1 H2]; try done. injection Ee as ->.
  destruct w1 as [|c' w1]; [done|]. injection Ev as -> <-. by exists w1, w2.
Qed.

Lemma pd_matches b r w : matches r (b :: w) ↔ any_matches (pd b r) w.
Proof.
  revert w. induction r as [|l|r1 IH1 r2 IH2|r1 IH1 r2 IH2|r IH]; intros w; cbn [pd].
  - split; [inversion 1|intros (r & Hr & _); set_solver].
  - split.
    + inversion 1; subst. rewrite H2. exists REps. split; [set_solver|constructor].
    + destruct (in_class b l) eqn:E; [|intros (r & Hr & _); set_solver].
      intros (r & Hr & Hm). apply list_elem_of_singleton in Hr as ->. inversion Hm; subst. by constructor.
  - split.
    + intros (w1 & w2 & E & H1 & H2)%matches_RCat. destruct w1 as [|b' w1].
      * apply matches_nil in H1. rewrite H1. simpl in E. subst. apply IH2 in H2 as (r & Hr & Hm).
        exists r. split; [set_solver|done].
      * injection E as <- ->. apply IH1 in H1 as (r & Hr & Hm). exists (cat r r2). split.
        -- apply elem_of_app. left. apply list_elem_of_fmap. by exists r.
        -- apply matches_cat. by constructor.
    + intros (r & Hr & Hm). apply elem_of_app in Hr as [Hr|Hr].
      * apply list_elem_of_fmap in Hr as (x & -> & Hx). apply matches_cat, matches_RCat in Hm as (w1 & w2 & -> & H1 & H2). apply (MCat _ _ (b :: w1)); [|done].
        apply IH1. by exists x.
      * destruct (nullable r1) eqn:N; [|set_solver]. apply (MCat _ _ []); [by apply matches_nil|].
        apply IH2. by exists r.
  - split.
    + inversion 1; subst.
      * destruct (proj1 (IH1 w)) as (r & Hr & Hm); [done|]. exists r. set_solver.
      * destruct (proj1 (IH2 w)) as (r & Hr & Hm); [done|]. exists r. set_solver.
    + intros (r & Hr & Hm). apply elem_of_app in Hr as [Hr|Hr].
      * apply MAltL, IH1. by exists r.
      * apply MAltR, IH2. by exists r.
  - split.
    + intros H. apply matches_star_cons in H as (w1 & w2 & -> & H1 & H2).
      apply IH in H1 as (x & Hx & Hm). exists (cat x (RStar r)). split; [apply list_elem_of_fmap; by exists x|].
      apply matches_cat. by constructor.
    + intros (x & Hx & Hm). apply list_elem_of_fmap in Hx as (y & -> & Hy). apply matches_cat, matches_RCat in Hm as (w1 & w2 & -> & H1 & H2). apply (MStarApp _ (b :: w1)); [done| |done].
      apply IH. by exists y.
Qed.

Lemma pds_matches b R w : any_matches R (b :: w) ↔ any_matches (pds b R) w.
Proof.
  unfold any_matches, pds. setoid_rewrite elem_of_remove_dups. setoid_rewrite list_elem_of_bind. split.
  - intros (r & Hr & Hm). apply pd_matches in Hm as (x & Hx & Hm). exists x. eauto.
  - intros (x & (r & Hx & Hr) & Hm). exists r. split; [done|]. apply pd_matches. by exists x.
Qed.

Lemma nullables_matches R : any_matches R [] ↔ nullables R = true.
Proof.
  unfold any_matches, nullables. rewrite existsb_exists. setoid_rewrite list_elem_of_In.
  by setoid_rewrite matches_nil.
Qed.

Lemma any_matches_single r w : any_matches [r] w ↔ matches r w.
Proof.
  unfold any_matches. setoid_rewrite list_elem_of_singleton. naive_solver.
Qed.

Lemma not_any_matches_nil w : ¬ any_matches [] w.
Proof. intros (r & Hr & _). by apply elem_of_nil in Hr. Qed.

(** Every byte. *)
Definition all_bytes : list byte := byte.of_Z <$> seqZ 0 256.
Lemma elem_of_all_bytes b : b ∈ all_bytes.
Proof.
  apply list_elem_of_fmap. exists (byte.unsigned b). split; [by rewrite byte.of_Z_unsigned|].
  apply elem_of_seqZ. pose proof (byte.unsigned_range b). lia.
Qed.
Definition forall_bytes (f : byte → bool) : bool := forallb f all_bytes.
Lemma forall_bytes_spec f : forall_bytes f = true → ∀ b, f b = true.
Proof.
  intros H b. unfold forall_bytes in H. rewrite forallb_forall in H. apply H, list_elem_of_In, elem_of_all_bytes.
Qed.

(** Matching is decided by derivatives. *)
Fixpoint matchb (R : list re) (w : list byte) : bool :=
  match w with [] => nullables R | b :: w => matchb (pds b R) w end.

Lemma matchb_spec R w : matchb R w = true ↔ any_matches R w.
Proof.
  revert R. induction w as [|b w IH]; intros R; simpl.
  - by rewrite nullables_matches.
  - by rewrite IH, pds_matches.
Qed.

#[global] Instance matches_dec r w : Decision (matches r w).
Proof.
  refine (cast_if (decide (matchb [r] w = true))); [by apply any_matches_single, matchb_spec|].
  intros H%any_matches_single%matchb_spec. done.
Defined.

Lemma matches_compute r w : matchb [r] w = true → matches r w.
Proof. intros H. by apply any_matches_single, matchb_spec. Qed.
