(* ===== verification/Scanner.v ===== *)
(** * Deciding questions about a scanner

    A scanner is a transition function on states numbered by integers that
    takes a list of actions with each byte and may stop. [search] goes through
    the pairs of a state and a set of regular expressions it can reach,
    checking each; the pairs it went through are closed under its steps, and
    an induction on the text carries what was checked over to every run. Bytes
    that neither the scanner nor the expressions tell apart have a common
    representative [rep b], and only representatives are tried. *)

From S2P Require Import Prelude Regex.
#[local] Open Scope Z_scope.

(** The classes that occur in [r] are among [classes]. *)
Fixpoint respects (classes : list (list (Z * Z))) (r : re) : bool :=
  match r with
  | REps => true
  | RCls l => existsb (ranges_eqb l) classes
  | RCat a b | RAlt a b => respects classes a && respects classes b
  | RStar a => respects classes a
  end.

(** A class does not tell a byte from its representative. *)
Definition class_rep (rep : byte → byte) (l : list (Z * Z)) : bool :=
  forall_bytes (λ b, Bool.eqb (in_class b l) (in_class (rep b) l)).

Section Representatives.
Context (rep : byte → byte) (classes : list (list (Z * Z))).
Context (classes_rep : forallb (class_rep rep) classes = true).

Lemma respects_cat a b : respects classes (cat a b) = respects classes a && respects classes b.
Proof using Type. by destruct a. Qed.

Lemma respects_pd b r x : respects classes r = true → x ∈ pd b r → respects classes x = true.
Proof using Type.
  revert x. induction r as [|l|r1 IH1 r2 IH2|r1 IH1 r2 IH2|r IH]; intros x Hr Hx; cbn [pd respects] in *.
  - by apply elem_of_nil in Hx.
  - destruct (in_class b l); [by apply list_elem_of_singleton in Hx as ->|by apply elem_of_nil in Hx].
  - apply andb_true_iff in Hr as [H1 H2]. apply elem_of_app in Hx as [Hx|Hx].
    + apply list_elem_of_fmap in Hx as (y & -> & Hy). by rewrite respects_cat, IH1.
    + destruct (nullable r1); [by apply IH2|by apply elem_of_nil in Hx].
  - apply andb_true_iff in Hr as [H1 H2]. apply elem_of_app in Hx as [Hx|Hx]; auto.
  - apply list_elem_of_fmap in Hx as (y & -> & Hy). rewrite respects_cat. simpl. by rewrite IH, Hr.
Qed.

Lemma in_class_rep b l : existsb (ranges_eqb l) classes = true → in_class b l = in_class (rep b) l.
Proof using classes_rep.
  intros (l' & Hl & ->%ranges_eqb_eq)%existsb_exists. pose proof classes_rep as H.
  rewrite forallb_forall in H. apply Bool.eqb_prop, (forall_bytes_spec _ (H l' Hl) b).
Qed.

Lemma pd_rep b r : respects classes r = true → pd b r = pd (rep b) r.
Proof using classes_rep.
  induction r as [|l|r1 IH1 r2 IH2|r1 IH1 r2 IH2|r IH]; cbn [pd respects]; intros Hr.
  - done.
  - by rewrite (in_class_rep b l Hr).
  - apply andb_true_iff in Hr as [H1 H2]. by rewrite IH1, IH2.
  - apply andb_true_iff in Hr as [H1 H2]. by rewrite IH1, IH2.
  - by rewrite IH.
Qed.

Definition all_respect (R : list re) : Prop := ∀ r, r ∈ R → respects classes r = true.

Lemma all_respect_pds b R : all_respect R → all_respect (pds b R).
Proof using Type.
  intros HR x Hx. apply elem_of_remove_dups, list_elem_of_bind in Hx as (r & Hx & Hr).
  eapply respects_pd; [by apply HR|done].
Qed.

Lemma pds_rep b R : all_respect R → pds b R = pds (rep b) R.
Proof using classes_rep.
  intros HR. unfold pds. f_equal. induction R as [|r R IH]; [done|]. simpl.
  rewrite (pd_rep b r) by (apply HR; by left). f_equal. apply IH. intros x Hx. apply HR. by right.
Qed.
End Representatives.

(** ** Searching

    A search goes through pairs of a state and a set of regular expressions:
    [step] checks a pair and gives those to go on to. *)
Abbreviation rel := (gmap Z (list (list re))).
Definition related (m : rel) (s : Z) (R : list re) : bool :=
  match m !! s with Some l => bool_decide (R ∈ l) | None => false end.
Definition relate (m : rel) (s : Z) (R : list re) : rel := <[s := R :: default [] (m !! s)]> m.

Lemma related_relate m s R t D : related (relate m s R) t D = true → (t = s ∧ D = R) ∨ related m t D = true.
Proof.
  unfold related, relate. rewrite lookup_insert. case_decide as E; [subst t|by right].
  intros [->|H]%bool_decide_eq_true%elem_of_cons; [by left|right]. destruct (m !! s) as [l|].
  - by apply bool_decide_eq_true.
  - by apply elem_of_nil in H.
Qed.
Lemma relate_related m s R t D : (t = s ∧ D = R) ∨ related m t D = true → related (relate m s R) t D = true.
Proof.
  unfold related, relate. rewrite lookup_insert. case_decide as E; [subst t|by intros [[-> _]|]].
  intros H. apply bool_decide_eq_true, elem_of_cons. destruct H as [[_ ->]|H]; [by left|right].
  destruct (m !! s) as [l|]; [by apply bool_decide_eq_true in H|done].
Qed.

Section Search.
Context (step : Z → list re → option (list (Z * list re))).

Fixpoint search (fuel : nat) (todo : list (Z * list re)) (m : rel) : option rel :=
  match todo, fuel with
  | [], _ => Some m
  | _ :: _, O => None
  | (s, R) :: todo, S fuel =>
      if related m s R then search fuel todo m else
      match step s R with Some l => search fuel (l ++ todo) (relate m s R) | None => None end
  end.

(** A set of pairs that passes the check and that [step] does not leave. *)
Definition closed (P : Z → list re → Prop) : Prop :=
  ∀ s R, P s R → ∃ l, step s R = Some l ∧ ∀ t D, (t, D) ∈ l → P t D.

Lemma search_closed fuel todo m m' : search fuel todo m = Some m' →
  (∀ s R, related m s R = true → ∃ l, step s R = Some l ∧
     ∀ t D, (t, D) ∈ l → related m t D = true ∨ (t, D) ∈ todo) →
  closed (λ s R, related m' s R = true) ∧ ∀ s R, related m s R = true ∨ (s, R) ∈ todo → related m' s R = true.
Proof.
  revert todo m. induction fuel as [|fuel IH]; intros [|[s R] todo] m E I; cbn [search] in E; try done.
  1, 2: injection E as <-; split; [|by intros s R [H|H%elem_of_nil]].
  1, 2: intros s R H; destruct (I s R H) as (l & El & Hl); exists l; split; [done|];
    intros t D HD; by destruct (Hl t D HD) as [?|?%elem_of_nil].
  destruct (related m s R) eqn:ER.
  - destruct (IH todo m E) as [H1 H2].
    + intros s' R' H. destruct (I s' R' H) as (l & El & Hl). exists l. split; [done|]. intros t D HD.
      destruct (Hl t D HD) as [?|[[= -> ->]|?]%elem_of_cons]; [by left|by left|by right].
    + split; [done|]. intros t D [H|[[= -> ->]|H]%elem_of_cons]; apply H2; auto.
  - destruct (step s R) as [l|] eqn:El; [|done]. destruct (IH (l ++ todo) (relate m s R) E) as [H1 H2].
    + intros s' R' [[-> ->]|H]%related_relate.
      * exists l. split; [done|]. intros t D HD. right. apply elem_of_app. by left.
      * destruct (I s' R' H) as (l' & El' & Hl'). exists l'. split; [done|]. intros t D HD.
        destruct (Hl' t D HD) as [Ht|[[= -> ->]|Ht]%elem_of_cons].
        -- left. apply relate_related. by right.
        -- left. apply relate_related. by left.
        -- right. apply elem_of_app. by right.
    + split; [done|]. intros t D H. apply H2. destruct H as [H|[[= -> ->]|H]%elem_of_cons].
      * left. apply relate_related. by right.
      * left. apply relate_related. by left.
      * right. apply elem_of_app. by right.
Qed.

Definition found (fuel : nat) (todo : list (Z * list re)) : bool :=
  match search fuel todo ∅ with Some _ => true | None => false end.

Lemma found_closed fuel todo : found fuel todo = true →
  ∃ P, closed P ∧ ∀ s R, (s, R) ∈ todo → P s R.
Proof.
  unfold found. destruct (search fuel todo ∅) as [m|] eqn:E; [|done]. intros _.
  destruct (search_closed fuel todo ∅ m E) as [H1 H2]; [done|].
  exists (λ s R, related m s R = true). split; [done|]. intros s R H. apply H2. by right.
Qed.
End Search.

(** The results of [f] on a list, together. *)
Fixpoint gather {A B} (f : A → option (list B)) (l : list A) : option (list B) :=
  match l with
  | [] => Some []
  | x :: l => match f x, gather f l with Some a, Some b => Some (a ++ b) | _, _ => None end
  end.

Lemma gather_elem {A B} (f : A → option (list B)) l out x : gather f l = Some out → x ∈ l →
  ∃ a, f x = Some a ∧ ∀ y, y ∈ a → y ∈ out.
Proof.
  revert out. induction l as [|z l IH]; intros out E; [by intros ?%elem_of_nil|]. cbn [gather] in E.
  destruct (f z) as [a|] eqn:Ea, (gather f l) as [b|]; try done. injection E as <-.
  intros [->|H]%elem_of_cons.
  - exists a. split; [done|]. intros y Hy. apply elem_of_app. by left.
  - destruct (IH b eq_refl H) as (a' & ? & Hy). exists a'. split; [done|]. intros y ?. apply elem_of_app. right. by apply Hy.
Qed.

Section Scanner.
Context {act : Type} `{EqDecision act} (delta : Z → byte → option (list act * Z)).
Context (reps : list byte) (rep : byte → byte).
Context (classes : list (list (Z * Z))) (classes_rep : forallb (class_rep rep) classes = true).
Context (rep_in : ∀ b, rep b ∈ reps) (delta_rep : ∀ s b, delta s b = delta s (rep b)).

(** The state after a word and the actions on the way, each with the position
    of the byte it was taken at. *)
Fixpoint run (s : Z) (p : nat) (w : list byte) : option (Z * list (nat * act)) :=
  match w with
  | [] => Some (s, [])
  | b :: w =>
    '(A, t) ← delta s b;
    '(s', evs) ← run t (S p) w;
    Some (s', ((p,.) <$> A) ++ evs)
  end.

Lemma run_cons s p b w t evs : run s p (b :: w) = Some (t, evs) →
  ∃ A s' evs', delta s b = Some (A, s') ∧ run s' (S p) w = Some (t, evs') ∧ evs = ((p,.) <$> A) ++ evs'.
Proof.
  simpl. destruct (delta s b) as [[A s']|]; simpl; [|done].
  destruct (run s' (S p) w) as [[t' evs']|] eqn:E; simpl; [|done].
  intros [= <- <-]. by exists A, s', evs'.
Qed.

Lemma run_app s p w1 w2 : run s p (w1 ++ w2) =
  '(s1, e1) ← run s p w1; '(s2, e2) ← run s1 (p + length w1)%nat w2; Some (s2, e1 ++ e2).
Proof.
  revert s p. induction w1 as [|b w1 IH]; intros s p; simpl.
  - rewrite Nat.add_0_r. by destruct (run s p w2) as [[? ?]|].
  - destruct (delta s b) as [[A t]|]; simpl; [|done]. rewrite IH.
  destruct (run t (S p) w1) as [[s1 e1]|]; simpl; [|done]. rewrite Nat.add_succ_r.
  destruct (run s1 (S (p + length w1)) w2) as [[s2 e2]|]; simpl; [|done]. by rewrite (assoc_L app).
Qed.

Lemma run_end s (p q : nat) w : fst <$> run s p w = fst <$> run s q w.
Proof.
  revert s p q. induction w as [|b w IH]; intros s p q; simpl; [done|].
  destruct (delta s b) as [[A t]|]; simpl; [|done]. specialize (IH t (S p) (S q)).
  destruct (run t (S p) w) as [[? ?]|], (run t (S q) w) as [[? ?]|]; simpl in *; congruence.
Qed.

(** ** Which words a scanner accepts *)
Section Accepts.
Context (final : Z → bool).

(** A state agrees with a set when it is final iff the empty word is in, and
    with each byte it stops iff no word goes on, or leads to a pair to search. *)
Definition agrees (s : Z) (R : list re) : option (list (Z * list re)) :=
    if negb (Bool.eqb (final s) (nullables R)) then None else
    gather (λ b,
  match delta s b with
  | None => if bool_decide (pds b R = []) then Some [] else None
  | Some (_, t) => Some [(t, pds b R)]
  end) reps.

Definition accepts (s : Z) (w : list byte) : bool :=
    match run s 0 w with Some (s', _) => final s' | None => false end.

(** States that were found to agree with a set accept exactly its words. *)
Lemma agree_accepts P s R w : closed agrees P → all_respect classes R → P s R →
    accepts s w = true ↔ any_matches R w.
Proof using classes_rep rep_in delta_rep.
    intros HP. revert s R. induction w as [|b w IH]; intros s R Hr HR;
  destruct (HP s R HR) as (l & El & Hl); unfold agrees in El;
  destruct (Bool.eqb (final s) (nullables R)) eqn:Ha; cbn [negb] in El; try done.
    - apply Bool.eqb_prop in Ha. unfold accepts. simpl. by rewrite Ha, nullables_matches.
    - destruct (gather_elem _ _ _ (rep b) El (rep_in b)) as (a & Hb & Hin).
  rewrite <-delta_rep, <-(pds_rep rep classes classes_rep) in Hb by done. rewrite pds_matches.
  unfold accepts. simpl. destruct (delta s b) as [[A t]|]; simpl.
  + injection Hb as <-. assert (HD : P t (pds b R)) by (apply Hl, Hin; by left).
    rewrite <-(IH t _ (all_respect_pds _ b R Hr) HD). unfold accepts. pose proof (run_end t 1 0 w) as E.
    destruct (run t 1 w) as [[? ?]|], (run t 0 w) as [[? ?]|]; by simplify_eq/=.
  + case_bool_decide as Hn; [|done]. rewrite Hn. split; [done|]. by intros ?%not_any_matches_nil.
Qed.
End Accepts.

(** ** What a scanner does along a regular expression

    From a state of [S], along a non-empty word of [r], the first byte takes
    the actions [A] and the others none, and the word ends in a state of [T]. *)
Section Segments.
Context (T : list Z).

(** The bytes with which a word of [R] can go on, each with the actions [A]. *)
Definition takes (A : list act) (s : Z) (R : list re) : option (list (Z * list re)) :=
    gather (λ b,
  match pds b R with
  | [] => Some []
  | D => match delta s b with
         | Some (A', t) => if bool_decide (A' = A) then Some [(t, D)] else None
         | None => None
         end
  end) reps.

Definition quiet (s : Z) (R : list re) : option (list (Z * list re)) :=
    if nullables R && negb (bool_decide (s ∈ T)) then None else takes [] s R.

Definition segment_ok (fuel : nat) (S : list Z) (A : list act) (r : re) : bool :=
    respects classes r &&
    match gather (λ s, takes A s [r]) S with Some todo => found quiet fuel todo | None => false end.

Lemma takes_byte A s R l b w : takes A s R = Some l → all_respect classes R → any_matches R (b :: w) →
    ∃ t, delta s b = Some (A, t) ∧ (t, pds b R) ∈ l ∧ any_matches (pds b R) w.
Proof using classes_rep rep_in delta_rep.
    intros El Hr Hw. destruct (gather_elem _ _ _ (rep b) El (rep_in b)) as (a & Hb & Hin).
    rewrite <-delta_rep, <-(pds_rep rep classes classes_rep) in Hb by done. apply pds_matches in Hw.
    destruct (pds b R) as [|x D]; [by apply not_any_matches_nil in Hw|].
    destruct (delta s b) as [[A' t]|]; [|done]. case_bool_decide as HA; [subst A'|done]. injection Hb as <-.
    exists t. split; [done|]. split; [|done]. apply Hin. by left.
Qed.

Lemma quiet_run P s R w p : closed quiet P → all_respect classes R → P s R →
    any_matches R w → ∃ t, t ∈ T ∧ run s p w = Some (t, []).
Proof using classes_rep rep_in delta_rep.
    intros HP. revert s R p. induction w as [|b w IH]; intros s R p Hr HR Hw;
  destruct (HP s R HR) as (l & El & Hl); unfold quiet in El;
  destruct (nullables R && negb (bool_decide (s ∈ T))) eqn:Hn; try done.
    - apply nullables_matches in Hw. rewrite Hw in Hn. apply negb_false_iff, bool_decide_eq_true in Hn. by exists s.
    - destruct (takes_byte _ _ _ _ _ _ El Hr Hw) as (t & Ed & Ht & Hw').
  destruct (IH t _ (Datatypes.S p) (all_respect_pds classes b R Hr) (Hl _ _ Ht) Hw') as (t' & Ht' & E).
  exists t'. split; [done|]. simpl. rewrite Ed. simpl. by rewrite E.
Qed.

Lemma segment_run fuel S A r s w p : segment_ok fuel S A r = true → s ∈ S → matches r w → w ≠ [] →
    ∃ t, t ∈ T ∧ run s p w = Some (t, (p,.) <$> A).
Proof using classes_rep rep_in delta_rep.
    unfold segment_ok. intros [Hr Hf]%andb_true_iff Hs Hw Hne.
    destruct (gather _ S) as [todo|] eqn:Eg; [|done]. apply found_closed in Hf as (P & HP & Hin).
    destruct w as [|b w]; [done|]. destruct (gather_elem _ _ _ s Eg Hs) as (l & El & Hl).
    assert (HR : all_respect classes [r]) by (intros x ->%list_elem_of_singleton; done).
    apply any_matches_single in Hw. destruct (takes_byte _ _ _ _ _ _ El HR Hw) as (t & Ed & Ht & Hw').
    destruct (quiet_run P t _ w (Datatypes.S p) HP (all_respect_pds classes b _ HR)) as (t' & Ht' & Er);
  [by apply Hin, Hl|done|].
    exists t'. split; [done|]. simpl. rewrite Ed. simpl. rewrite Er. simpl. by rewrite app_nil_r.
Qed.
End Segments.
End Scanner.
