(* ===== verification/UriTable.v ===== *)
(** * The scanner of URIs, as generated (net/uri.rl.cpp)

    The transition code of the state machine Ragel wrote for the grammar of
    net/uri.rl, state by state and in the order of the file. A state is its
    [switch] on the byte, the [if] statements behind it, and the final [goto].
    A label is a state or a transition block; a block is the actions it runs,
    in order, and the state it goes on to. [Uri] gives the code its meaning. *)

From S2P Require Import Prelude.
#[local] Open Scope Z_scope.

(** The actions of net/uri.rl, by name; [MarkU] and [MarkH] are [marku] and
    [markh], which do the same. *)
Inductive action :=
| MarkU | MarkH | SaveScheme | SavePort | SaveUserinfo | SaveHost | SavePath | SaveQuery | SaveFragment.
#[global] Instance action_eq_dec : EqDecision action.
Proof. solve_decision. Defined.

(** [goto stN] and [goto trN] *)
Inductive label := St (n : Z) | Tr (n : Z).

(** The conditions on [*p]: [<], [>], [>=], [==] and [a <= *p && *p <= b]. *)
Inductive cond := Below (n : Z) | Above (n : Z) | AtLeast (n : Z) | Equal (n : Z) | Within (a b : Z).

(** [Fall] is a missing [else]: control reaches the statement behind. *)
Inductive code := Go (l : label) | If (c : cond) (yes no : code) | Fall.

Record state := mkState { cases : list (Z * label); body : list code; otherwise : label }.

(** A stretch of the file: the states and the transition blocks in it. *)
Record chunk := mkChunk { chunk_states : list (Z * state); chunk_trs : list (Z * (list action * Z)) }.


(** Lines 48 to 195. *)
Definition lines_48 : chunk := mkChunk
  [(451, mkState [(34, St 0); (35, St 453); (37, St 3); (47, St 458); (58, St 0); (60, St 0); (62, St 0);
      (63, St 456); (96, St 0); (127, St 0)] [If (Below 91) (If (Above 32) (If (Within 65 90) (Go (Tr 461))
      Fall) (If (AtLeast 0) (Go (St 0)) Fall)) (If (Above 94) (If (Above 122) (If (Within 123 125) (Go (St 0))
      Fall) (If (AtLeast 97) (Go (Tr 461)) Fall)) (Go (St 0)))] (St 452));
    (452, mkState [(34, St 0); (35, St 453); (37, St 3); (47, St 455); (58, St 0); (60, St 0); (62, St 0);
      (63, St 456); (96, St 0); (127, St 0)] [If (Below 91) (If (Within 0 32) (Go (St 0)) Fall) (If (Above 94)
      (If (Within 123 125) (Go (St 0)) Fall) (Go (St 0)))] (St 452))]
  [(467, ([MarkU; SaveQuery], 453));
    (469, ([SaveQuery], 453));
    (474, ([MarkH; SaveHost], 453));
    (485, ([SaveHost], 453));
    (489, ([MarkH; SavePort], 453));
    (493, ([SavePort], 453));
    (548, ([MarkH; SaveHost; SavePath], 453));
    (559, ([SaveHost; MarkH; SavePath], 453))].

(** Lines 196 to 333. *)
Definition lines_196 : chunk := mkChunk
  [(453, mkState [(37, Tr 463); (60, St 0); (62, St 0); (96, St 0); (127, St 0)] [If (Below 34) (If (Within 0
      32) (Go (St 0)) Fall) (If (Above 35) (If (Above 94) (If (Within 123 125) (Go (St 0)) Fall) (If (AtLeast
      91) (Go (St 0)) Fall)) (Go (St 0)))] (Tr 462));
    (454, mkState [(37, St 1); (60, St 0); (62, St 0); (96, St 0); (127, St 0)] [If (Below 34) (If (Within 0
      32) (Go (St 0)) Fall) (If (Above 35) (If (Above 94) (If (Within 123 125) (Go (St 0)) Fall) (If (AtLeast
      91) (Go (St 0)) Fall)) (Go (St 0)))] (St 454));
    (1, mkState [] [If (Below 65) (If (Within 48 57) (Go (St 2)) Fall) (If (Above 70) (If (Within 97 102) (Go
      (St 2)) Fall) (Go (St 2)))] (St 0));
    (2, mkState [] [If (Below 65) (If (Within 48 57) (Go (St 454)) Fall) (If (Above 70) (If (Within 97 102)
      (Go (St 454)) Fall) (Go (St 454)))] (St 0));
    (3, mkState [] [If (Below 65) (If (Within 48 57) (Go (St 4)) Fall) (If (Above 70) (If (Within 97 102) (Go
      (St 4)) Fall) (Go (St 4)))] (St 0))]
  [(563, ([SavePath], 453));
    (566, ([MarkH; SavePort; SavePath], 453));
    (570, ([SavePort; MarkH; SavePath], 453));
    (462, ([MarkU], 454));
    (463, ([MarkU], 1))].

(** Lines 334 to 476. *)
Definition lines_334 : chunk := mkChunk
  [(4, mkState [] [If (Below 65) (If (Within 48 57) (Go (St 452)) Fall) (If (Above 70) (If (Within 97 102)
      (Go (St 452)) Fall) (Go (St 452)))] (St 0));
    (455, mkState [(34, St 0); (35, St 453); (37, St 5); (60, St 0); (62, St 0); (63, St 456); (96, St 0);
      (127, St 0)] [If (Below 91) (If (Within 0 32) (Go (St 0)) Fall) (If (Above 94) (If (Within 123 125) (Go
      (St 0)) Fall) (Go (St 0)))] (St 455));
    (5, mkState [] [If (Below 65) (If (Within 48 57) (Go (St 6)) Fall) (If (Above 70) (If (Within 97 102) (Go
      (St 6)) Fall) (Go (St 6)))] (St 0));
    (6, mkState [] [If (Below 65) (If (Within 48 57) (Go (St 455)) Fall) (If (Above 70) (If (Within 97 102)
      (Go (St 455)) Fall) (Go (St 455)))] (St 0))]
  [(476, ([MarkH; SaveHost], 455));
    (486, ([SaveHost], 455));
    (490, ([MarkH; SavePort], 455));
    (494, ([SavePort], 455));
    (482, ([MarkH; SaveHost], 456));
    (488, ([SaveHost], 456));
    (492, ([MarkH; SavePort], 456));
    (496, ([SavePort], 456))].

(** Lines 477 to 620. *)
Definition lines_477 : chunk := mkChunk
  [(456, mkState [(34, St 0); (35, Tr 467); (37, Tr 468); (60, St 0); (62, St 0); (96, St 0); (127, St 0)]
      [If (Below 91) (If (Within 0 32) (Go (St 0)) Fall) (If (Above 94) (If (Within 123 125) (Go (St 0)) Fall)
      (Go (St 0)))] (Tr 466));
    (457, mkState [(34, St 0); (35, Tr 469); (37, St 7); (60, St 0); (62, St 0); (96, St 0); (127, St 0)] [If
      (Below 91) (If (Within 0 32) (Go (St 0)) Fall) (If (Above 94) (If (Within 123 125) (Go (St 0)) Fall) (Go
      (St 0)))] (St 457));
    (7, mkState [] [If (Below 65) (If (Within 48 57) (Go (St 8)) Fall) (If (Above 70) (If (Within 97 102) (Go
      (St 8)) Fall) (Go (St 8)))] (St 0))]
  [(556, ([MarkH; SaveHost; SavePath], 456));
    (562, ([SaveHost; MarkH; SavePath], 456));
    (565, ([SavePath], 456));
    (569, ([MarkH; SavePort; SavePath], 456));
    (573, ([SavePort; MarkH; SavePath], 456));
    (466, ([MarkU], 457));
    (468, ([MarkU], 7))].

(** Lines 621 to 764. *)
Definition lines_621 : chunk := mkChunk
  [(8, mkState [] [If (Below 65) (If (Within 48 57) (Go (St 457)) Fall) (If (Above 70) (If (Within 97 102)
      (Go (St 457)) Fall) (Go (St 457)))] (St 0));
    (458, mkState [(34, St 0); (35, St 453); (37, St 5); (47, St 459); (60, St 0); (62, St 0); (63, St 456);
      (96, St 0); (127, St 0)] [If (Below 91) (If (Within 0 32) (Go (St 0)) Fall) (If (Above 94) (If (Within
      123 125) (Go (St 0)) Fall) (Go (St 0)))] (St 455));
    (459, mkState [(2, Tr 472); (33, Tr 473); (35, Tr 474); (37, Tr 475); (47, Tr 476); (48, Tr 477); (49, Tr
      478); (50, Tr 479); (58, Tr 481); (59, Tr 473); (61, Tr 473); (63, Tr 482); (64, Tr 483); (91, Tr 484);
      (95, Tr 473); (126, Tr 473)] [If (Below 51) (If (Within 36 46) (Go (Tr 473)) Fall) (If (Above 57) (If
      (Above 90) (If (Within 97 122) (Go (Tr 473)) Fall) (If (AtLeast 65) (Go (Tr 473)) Fall)) (Go (Tr 480)))]
      (St 0));
    (9, mkState [] [If (Within 48 52) (Go (St 10)) Fall] (St 0));
    (10, mkState [] [If (Within 48 57) (Go (St 11)) Fall] (St 0));
    (11, mkState [] [If (Equal 46) (Go (St 12)) Fall] (St 0));
    (12, mkState [(2, St 13); (48, St 15); (49, St 27); (50, St 29)] [If (Within 51 57) (Go (St 28)) Fall] (St
      0));
    (13, mkState [] [If (Within 48 52) (Go (St 14)) Fall] (St 0));
    (14, mkState [] [If (Within 48 57) (Go (St 15)) Fall] (St 0));
    (15, mkState [] [If (Equal 46) (Go (St 16)) Fall] (St 0));
    (16, mkState [(2, St 17); (48, St 19); (49, St 23); (50, St 25)] [If (Within 51 57) (Go (St 24)) Fall] (St
      0))]
  [(472, ([MarkH], 9))].

(** Lines 765 to 913. *)
Definition lines_765 : chunk := mkChunk
  [(17, mkState [] [If (Within 48 52) (Go (St 18)) Fall] (St 0));
    (18, mkState [] [If (Within 48 57) (Go (St 19)) Fall] (St 0));
    (19, mkState [] [If (Equal 46) (Go (St 20)) Fall] (St 0));
    (20, mkState [(2, St 21); (48, St 460); (49, St 463); (50, St 465)] [If (Within 51 57) (Go (St 464)) Fall]
      (St 0));
    (21, mkState [] [If (Within 48 52) (Go (St 22)) Fall] (St 0));
    (22, mkState [] [If (Within 48 57) (Go (St 460)) Fall] (St 0));
    (460, mkState [(35, Tr 485); (47, Tr 486); (58, Tr 487); (63, Tr 488)] [] (St 0));
    (461, mkState [(35, Tr 489); (47, Tr 490); (63, Tr 492)] [If (Within 48 57) (Go (Tr 491)) Fall] (St 0));
    (462, mkState [(35, Tr 493); (47, Tr 494); (63, Tr 496)] [If (Within 48 57) (Go (St 462)) Fall] (St 0));
    (463, mkState [(35, Tr 485); (47, Tr 486); (58, Tr 487); (63, Tr 488)] [If (Within 48 57) (Go (St 464))
      Fall] (St 0));
    (464, mkState [(35, Tr 485); (47, Tr 486); (58, Tr 487); (63, Tr 488)] [If (Within 48 57) (Go (St 460))
      Fall] (St 0));
    (465, mkState [(35, Tr 485); (47, Tr 486); (53, St 466); (58, Tr 487); (63, Tr 488)] [If (Within 48 57)
      (Go (St 460)) Fall] (St 0))]
  [(507, ([MarkH; SaveHost], 461));
    (487, ([SaveHost], 461));
    (491, ([MarkH], 462))].

(** Lines 914 to 1063. *)
Definition lines_914 : chunk := mkChunk
  [(466, mkState [(35, Tr 485); (47, Tr 486); (58, Tr 487); (63, Tr 488)] [If (Within 48 53) (Go (St 460))
      Fall] (St 0));
    (23, mkState [] [If (Equal 46) (Go (St 20)) Fall; If (Within 48 57) (Go (St 24)) Fall] (St 0));
    (24, mkState [] [If (Equal 46) (Go (St 20)) Fall; If (Within 48 57) (Go (St 19)) Fall] (St 0));
    (25, mkState [(46, St 20); (53, St 26)] [If (Within 48 57) (Go (St 19)) Fall] (St 0));
    (26, mkState [] [If (Equal 46) (Go (St 20)) Fall; If (Within 48 53) (Go (St 19)) Fall] (St 0));
    (27, mkState [] [If (Equal 46) (Go (St 16)) Fall; If (Within 48 57) (Go (St 28)) Fall] (St 0));
    (28, mkState [] [If (Equal 46) (Go (St 16)) Fall; If (Within 48 57) (Go (St 15)) Fall] (St 0));
    (29, mkState [(46, St 16); (53, St 30)] [If (Within 48 57) (Go (St 15)) Fall] (St 0));
    (30, mkState [] [If (Equal 46) (Go (St 16)) Fall; If (Within 48 53) (Go (St 15)) Fall] (St 0));
    (467, mkState [(33, St 467); (35, Tr 485); (37, St 31); (47, Tr 486); (58, Tr 499); (61, St 467); (63, Tr
      488); (64, Tr 38); (95, St 467); (126, St 467)] [If (Below 65) (If (Within 36 59) (Go (St 467)) Fall)
      (If (Above 90) (If (Within 97 122) (Go (St 467)) Fall) (Go (St 467)))] (St 0));
    (31, mkState [] [If (Below 65) (If (Within 48 57) (Go (St 32)) Fall) (If (Above 70) (If (Within 97 102)
      (Go (St 32)) Fall) (Go (St 32)))] (St 0));
    (32, mkState [] [If (Below 65) (If (Within 48 57) (Go (St 467)) Fall) (If (Above 70) (If (Within 97 102)
      (Go (St 467)) Fall) (Go (St 467)))] (St 0))]
  [(473, ([MarkH], 467));
    (475, ([MarkH], 31))].

(** Lines 1064 to 1186. *)
Definition lines_1064 : chunk := mkChunk
  [(468, mkState [(33, St 33); (35, Tr 489); (37, St 34); (47, Tr 490); (61, St 33); (63, Tr 492); (64, Tr
      38); (95, St 33); (126, St 33)] [If (Below 58) (If (Above 46) (If (Within 48 57) (Go (Tr 500)) Fall) (If
      (AtLeast 36) (Go (St 33)) Fall)) (If (Above 59) (If (Above 90) (If (Within 97 122) (Go (St 33)) Fall)
      (If (AtLeast 65) (Go (St 33)) Fall)) (Go (St 33)))] (St 0));
    (33, mkState [(33, St 33); (37, St 34); (61, St 33); (64, Tr 38); (95, St 33); (126, St 33)] [If (Below
      48) (If (Within 36 46) (Go (St 33)) Fall) (If (Above 59) (If (Above 90) (If (Within 97 122) (Go (St 33))
      Fall) (If (AtLeast 65) (Go (St 33)) Fall)) (Go (St 33)))] (St 0));
    (34, mkState [] [If (Below 65) (If (Within 48 57) (Go (St 35)) Fall) (If (Above 70) (If (Within 97 102)
      (Go (St 35)) Fall) (Go (St 35)))] (St 0));
    (35, mkState [] [If (Below 65) (If (Within 48 57) (Go (St 33)) Fall) (If (Above 70) (If (Within 97 102)
      (Go (St 33)) Fall) (Go (St 33)))] (St 0))]
  [(481, ([MarkH; SaveHost], 468));
    (499, ([SaveHost], 468));
    (38, ([SaveUserinfo], 469));
    (483, ([MarkH; SaveUserinfo], 469))].

(** Lines 1187 to 1310. *)
Definition lines_1187 : chunk := mkChunk
  [(469, mkState [(2, Tr 472); (33, Tr 501); (35, Tr 474); (37, Tr 502); (47, Tr 476); (48, Tr 503); (49, Tr
      504); (50, Tr 505); (58, Tr 507); (59, Tr 501); (61, Tr 501); (63, Tr 482); (91, Tr 484); (95, Tr 501);
      (126, Tr 501)] [If (Below 51) (If (Within 36 46) (Go (Tr 501)) Fall) (If (Above 57) (If (Above 90) (If
      (Within 97 122) (Go (Tr 501)) Fall) (If (AtLeast 65) (Go (Tr 501)) Fall)) (Go (Tr 506)))] (St 0));
    (470, mkState [(33, St 470); (35, Tr 485); (37, St 36); (47, Tr 486); (58, Tr 487); (61, St 470); (63, Tr
      488); (95, St 470); (126, St 470)] [If (Below 65) (If (Within 36 59) (Go (St 470)) Fall) (If (Above 90)
      (If (Within 97 122) (Go (St 470)) Fall) (Go (St 470)))] (St 0));
    (36, mkState [] [If (Below 65) (If (Within 48 57) (Go (St 37)) Fall) (If (Above 70) (If (Within 97 102)
      (Go (St 37)) Fall) (Go (St 37)))] (St 0));
    (37, mkState [] [If (Below 65) (If (Within 48 57) (Go (St 470)) Fall) (If (Above 70) (If (Within 97 102)
      (Go (St 470)) Fall) (Go (St 470)))] (St 0));
    (471, mkState [(33, St 470); (35, Tr 485); (37, St 36); (46, St 472); (47, Tr 486); (58, Tr 487); (61, St
      470); (63, Tr 488); (95, St 470); (126, St 470)] [If (Below 65) (If (Within 36 59) (Go (St 470)) Fall)
      (If (Above 90) (If (Within 97 122) (Go (St 470)) Fall) (Go (St 470)))] (St 0))]
  [(501, ([MarkH], 470));
    (502, ([MarkH], 36));
    (503, ([MarkH], 471))].

(** Lines 1311 to 1449. *)
Definition lines_1311 : chunk := mkChunk
  [(472, mkState [(2, St 13); (33, St 470); (35, Tr 485); (37, St 36); (47, Tr 486); (48, St 473); (49, St
      481); (50, St 483); (58, Tr 487); (59, St 470); (61, St 470); (63, Tr 488); (95, St 470); (126, St 470)]
      [If (Below 51) (If (Within 36 46) (Go (St 470)) Fall) (If (Above 57) (If (Above 90) (If (Within 97 122)
      (Go (St 470)) Fall) (If (AtLeast 65) (Go (St 470)) Fall)) (Go (St 482)))] (St 0));
    (473, mkState [(33, St 470); (35, Tr 485); (37, St 36); (46, St 474); (47, Tr 486); (58, Tr 487); (61, St
      470); (63, Tr 488); (95, St 470); (126, St 470)] [If (Below 65) (If (Within 36 59) (Go (St 470)) Fall)
      (If (Above 90) (If (Within 97 122) (Go (St 470)) Fall) (Go (St 470)))] (St 0));
    (474, mkState [(2, St 17); (33, St 470); (35, Tr 485); (37, St 36); (47, Tr 486); (48, St 475); (49, St
      477); (50, St 479); (58, Tr 487); (59, St 470); (61, St 470); (63, Tr 488); (95, St 470); (126, St 470)]
      [If (Below 51) (If (Within 36 46) (Go (St 470)) Fall) (If (Above 57) (If (Above 90) (If (Within 97 122)
      (Go (St 470)) Fall) (If (AtLeast 65) (Go (St 470)) Fall)) (Go (St 478)))] (St 0));
    (475, mkState [(33, St 470); (35, Tr 485); (37, St 36); (46, St 476); (47, Tr 486); (58, Tr 487); (61, St
      470); (63, Tr 488); (95, St 470); (126, St 470)] [If (Below 65) (If (Within 36 59) (Go (St 470)) Fall)
      (If (Above 90) (If (Within 97 122) (Go (St 470)) Fall) (Go (St 470)))] (St 0));
    (476, mkState [(2, St 21); (33, St 470); (35, Tr 485); (37, St 36); (47, Tr 486); (58, Tr 487); (61, St
      470); (63, Tr 488); (95, St 470); (126, St 470)] [If (Below 65) (If (Within 36 59) (Go (St 470)) Fall)
      (If (Above 90) (If (Within 97 122) (Go (St 470)) Fall) (Go (St 470)))] (St 0))]
  [].

(** Lines 1450 to 1597. *)
Definition lines_1450 : chunk := mkChunk
  [(477, mkState [(33, St 470); (35, Tr 485); (37, St 36); (46, St 476); (47, Tr 486); (58, Tr 487); (59, St
      470); (61, St 470); (63, Tr 488); (95, St 470); (126, St 470)] [If (Below 48) (If (Within 36 45) (Go (St
      470)) Fall) (If (Above 57) (If (Above 90) (If (Within 97 122) (Go (St 470)) Fall) (If (AtLeast 65) (Go
      (St 470)) Fall)) (Go (St 478)))] (St 0));
    (478, mkState [(33, St 470); (35, Tr 485); (37, St 36); (46, St 476); (47, Tr 486); (58, Tr 487); (59, St
      470); (61, St 470); (63, Tr 488); (95, St 470); (126, St 470)] [If (Below 48) (If (Within 36 45) (Go (St
      470)) Fall) (If (Above 57) (If (Above 90) (If (Within 97 122) (Go (St 470)) Fall) (If (AtLeast 65) (Go
      (St 470)) Fall)) (Go (St 475)))] (St 0));
    (479, mkState [(33, St 470); (35, Tr 485); (37, St 36); (46, St 476); (47, Tr 486); (53, St 480); (58, Tr
      487); (59, St 470); (61, St 470); (63, Tr 488); (95, St 470); (126, St 470)] [If (Below 48) (If (Within
      36 45) (Go (St 470)) Fall) (If (Above 57) (If (Above 90) (If (Within 97 122) (Go (St 470)) Fall) (If
      (AtLeast 65) (Go (St 470)) Fall)) (Go (St 475)))] (St 0));
    (480, mkState [(33, St 470); (35, Tr 485); (37, St 36); (46, St 476); (47, Tr 486); (58, Tr 487); (61, St
      470); (63, Tr 488); (95, St 470); (126, St 470)] [If (Below 54) (If (Above 45) (If (Within 48 53) (Go
      (St 475)) Fall) (If (AtLeast 36) (Go (St 470)) Fall)) (If (Above 59) (If (Above 90) (If (Within 97 122)
      (Go (St 470)) Fall) (If (AtLeast 65) (Go (St 470)) Fall)) (Go (St 470)))] (St 0));
    (481, mkState [(33, St 470); (35, Tr 485); (37, St 36); (46, St 474); (47, Tr 486); (58, Tr 487); (59, St
      470); (61, St 470); (63, Tr 488); (95, St 470); (126, St 470)] [If (Below 48) (If (Within 36 45) (Go (St
      470)) Fall) (If (Above 57) (If (Above 90) (If (Within 97 122) (Go (St 470)) Fall) (If (AtLeast 65) (Go
      (St 470)) Fall)) (Go (St 482)))] (St 0))]
  [].

(** Lines 1598 to 1725. *)
Definition lines_1598 : chunk := mkChunk
  [(482, mkState [(33, St 470); (35, Tr 485); (37, St 36); (46, St 474); (47, Tr 486); (58, Tr 487); (59, St
      470); (61, St 470); (63, Tr 488); (95, St 470); (126, St 470)] [If (Below 48) (If (Within 36 45) (Go (St
      470)) Fall) (If (Above 57) (If (Above 90) (If (Within 97 122) (Go (St 470)) Fall) (If (AtLeast 65) (Go
      (St 470)) Fall)) (Go (St 473)))] (St 0));
    (483, mkState [(33, St 470); (35, Tr 485); (37, St 36); (46, St 474); (47, Tr 486); (53, St 484); (58, Tr
      487); (59, St 470); (61, St 470); (63, Tr 488); (95, St 470); (126, St 470)] [If (Below 48) (If (Within
      36 45) (Go (St 470)) Fall) (If (Above 57) (If (Above 90) (If (Within 97 122) (Go (St 470)) Fall) (If
      (AtLeast 65) (Go (St 470)) Fall)) (Go (St 473)))] (St 0));
    (484, mkState [(33, St 470); (35, Tr 485); (37, St 36); (46, St 474); (47, Tr 486); (58, Tr 487); (61, St
      470); (63, Tr 488); (95, St 470); (126, St 470)] [If (Below 54) (If (Above 45) (If (Within 48 53) (Go
      (St 473)) Fall) (If (AtLeast 36) (Go (St 470)) Fall)) (If (Above 59) (If (Above 90) (If (Within 97 122)
      (Go (St 470)) Fall) (If (AtLeast 65) (Go (St 470)) Fall)) (Go (St 470)))] (St 0));
    (485, mkState [(33, St 470); (35, Tr 485); (37, St 36); (46, St 472); (47, Tr 486); (58, Tr 487); (59, St
      470); (61, St 470); (63, Tr 488); (95, St 470); (126, St 470)] [If (Below 48) (If (Within 36 45) (Go (St
      470)) Fall) (If (Above 57) (If (Above 90) (If (Within 97 122) (Go (St 470)) Fall) (If (AtLeast 65) (Go
      (St 470)) Fall)) (Go (St 486)))] (St 0))]
  [(504, ([MarkH], 485));
    (506, ([MarkH], 486))].

(** Lines 1726 to 1873. *)
Definition lines_1726 : chunk := mkChunk
  [(486, mkState [(33, St 470); (35, Tr 485); (37, St 36); (46, St 472); (47, Tr 486); (58, Tr 487); (59, St
      470); (61, St 470); (63, Tr 488); (95, St 470); (126, St 470)] [If (Below 48) (If (Within 36 45) (Go (St
      470)) Fall) (If (Above 57) (If (Above 90) (If (Within 97 122) (Go (St 470)) Fall) (If (AtLeast 65) (Go
      (St 470)) Fall)) (Go (St 471)))] (St 0));
    (487, mkState [(33, St 470); (35, Tr 485); (37, St 36); (46, St 472); (47, Tr 486); (53, St 488); (58, Tr
      487); (59, St 470); (61, St 470); (63, Tr 488); (95, St 470); (126, St 470)] [If (Below 48) (If (Within
      36 45) (Go (St 470)) Fall) (If (Above 57) (If (Above 90) (If (Within 97 122) (Go (St 470)) Fall) (If
      (AtLeast 65) (Go (St 470)) Fall)) (Go (St 471)))] (St 0));
    (488, mkState [(33, St 470); (35, Tr 485); (37, St 36); (46, St 472); (47, Tr 486); (58, Tr 487); (61, St
      470); (63, Tr 488); (95, St 470); (126, St 470)] [If (Below 54) (If (Above 45) (If (Within 48 53) (Go
      (St 471)) Fall) (If (AtLeast 36) (Go (St 470)) Fall)) (If (Above 59) (If (Above 90) (If (Within 97 122)
      (Go (St 470)) Fall) (If (AtLeast 65) (Go (St 470)) Fall)) (Go (St 470)))] (St 0));
    (38, mkState [(58, St 146); (118, St 225)] [If (Below 65) (If (Within 48 57) (Go (St 39)) Fall) (If (Above
      70) (If (Within 97 102) (Go (St 39)) Fall) (Go (St 39)))] (St 0));
    (39, mkState [] [If (Equal 58) (Go (St 43)) Fall; If (Below 65) (If (Within 48 57) (Go (St 40)) Fall) (If
      (Above 70) (If (Within 97 102) (Go (St 40)) Fall) (Go (St 40)))] (St 0));
    (40, mkState [] [If (Equal 58) (Go (St 43)) Fall; If (Below 65) (If (Within 48 57) (Go (St 41)) Fall) (If
      (Above 70) (If (Within 97 102) (Go (St 41)) Fall) (Go (St 41)))] (St 0))]
  [(505, ([MarkH], 487));
    (484, ([MarkH], 38))].

(** Lines 1874 to 2022. *)
Definition lines_1874 : chunk := mkChunk
  [(41, mkState [] [If (Equal 58) (Go (St 43)) Fall; If (Below 65) (If (Within 48 57) (Go (St 42)) Fall) (If
      (Above 70) (If (Within 97 102) (Go (St 42)) Fall) (Go (St 42)))] (St 0));
    (42, mkState [] [If (Equal 58) (Go (St 43)) Fall] (St 0));
    (43, mkState [] [If (Equal 58) (Go (St 141)) Fall; If (Below 65) (If (Within 48 57) (Go (St 44)) Fall) (If
      (Above 70) (If (Within 97 102) (Go (St 44)) Fall) (Go (St 44)))] (St 0));
    (44, mkState [] [If (Equal 58) (Go (St 48)) Fall; If (Below 65) (If (Within 48 57) (Go (St 45)) Fall) (If
      (Above 70) (If (Within 97 102) (Go (St 45)) Fall) (Go (St 45)))] (St 0));
    (45, mkState [] [If (Equal 58) (Go (St 48)) Fall; If (Below 65) (If (Within 48 57) (Go (St 46)) Fall) (If
      (Above 70) (If (Within 97 102) (Go (St 46)) Fall) (Go (St 46)))] (St 0));
    (46, mkState [] [If (Equal 58) (Go (St 48)) Fall; If (Below 65) (If (Within 48 57) (Go (St 47)) Fall) (If
      (Above 70) (If (Within 97 102) (Go (St 47)) Fall) (Go (St 47)))] (St 0));
    (47, mkState [] [If (Equal 58) (Go (St 48)) Fall] (St 0));
    (48, mkState [] [If (Equal 58) (Go (St 136)) Fall; If (Below 65) (If (Within 48 57) (Go (St 49)) Fall) (If
      (Above 70) (If (Within 97 102) (Go (St 49)) Fall) (Go (St 49)))] (St 0));
    (49, mkState [] [If (Equal 58) (Go (St 53)) Fall; If (Below 65) (If (Within 48 57) (Go (St 50)) Fall) (If
      (Above 70) (If (Within 97 102) (Go (St 50)) Fall) (Go (St 50)))] (St 0));
    (50, mkState [] [If (Equal 58) (Go (St 53)) Fall; If (Below 65) (If (Within 48 57) (Go (St 51)) Fall) (If
      (Above 70) (If (Within 97 102) (Go (St 51)) Fall) (Go (St 51)))] (St 0));
    (51, mkState [] [If (Equal 58) (Go (St 53)) Fall; If (Below 65) (If (Within 48 57) (Go (St 52)) Fall) (If
      (Above 70) (If (Within 97 102) (Go (St 52)) Fall) (Go (St 52)))] (St 0))]
  [].

(** Lines 2023 to 2163. *)
Definition lines_2023 : chunk := mkChunk
  [(52, mkState [] [If (Equal 58) (Go (St 53)) Fall] (St 0));
    (53, mkState [] [If (Equal 58) (Go (St 131)) Fall; If (Below 65) (If (Within 48 57) (Go (St 54)) Fall) (If
      (Above 70) (If (Within 97 102) (Go (St 54)) Fall) (Go (St 54)))] (St 0));
    (54, mkState [] [If (Equal 58) (Go (St 58)) Fall; If (Below 65) (If (Within 48 57) (Go (St 55)) Fall) (If
      (Above 70) (If (Within 97 102) (Go (St 55)) Fall) (Go (St 55)))] (St 0));
    (55, mkState [] [If (Equal 58) (Go (St 58)) Fall; If (Below 65) (If (Within 48 57) (Go (St 56)) Fall) (If
      (Above 70) (If (Within 97 102) (Go (St 56)) Fall) (Go (St 56)))] (St 0));
    (56, mkState [] [If (Equal 58) (Go (St 58)) Fall; If (Below 65) (If (Within 48 57) (Go (St 57)) Fall) (If
      (Above 70) (If (Within 97 102) (Go (St 57)) Fall) (Go (St 57)))] (St 0));
    (57, mkState [] [If (Equal 58) (Go (St 58)) Fall] (St 0));
    (58, mkState [] [If (Equal 58) (Go (St 126)) Fall; If (Below 65) (If (Within 48 57) (Go (St 59)) Fall) (If
      (Above 70) (If (Within 97 102) (Go (St 59)) Fall) (Go (St 59)))] (St 0));
    (59, mkState [] [If (Equal 58) (Go (St 63)) Fall; If (Below 65) (If (Within 48 57) (Go (St 60)) Fall) (If
      (Above 70) (If (Within 97 102) (Go (St 60)) Fall) (Go (St 60)))] (St 0));
    (60, mkState [] [If (Equal 58) (Go (St 63)) Fall; If (Below 65) (If (Within 48 57) (Go (St 61)) Fall) (If
      (Above 70) (If (Within 97 102) (Go (St 61)) Fall) (Go (St 61)))] (St 0));
    (61, mkState [] [If (Equal 58) (Go (St 63)) Fall; If (Below 65) (If (Within 48 57) (Go (St 62)) Fall) (If
      (Above 70) (If (Within 97 102) (Go (St 62)) Fall) (Go (St 62)))] (St 0));
    (62, mkState [] [If (Equal 58) (Go (St 63)) Fall] (St 0))]
  [].

(** Lines 2164 to 2305. *)
Definition lines_2164 : chunk := mkChunk
  [(63, mkState [] [If (Equal 58) (Go (St 113)) Fall; If (Below 65) (If (Within 48 57) (Go (St 64)) Fall) (If
      (Above 70) (If (Within 97 102) (Go (St 64)) Fall) (Go (St 64)))] (St 0));
    (64, mkState [] [If (Equal 58) (Go (St 68)) Fall; If (Below 65) (If (Within 48 57) (Go (St 65)) Fall) (If
      (Above 70) (If (Within 97 102) (Go (St 65)) Fall) (Go (St 65)))] (St 0));
    (65, mkState [] [If (Equal 58) (Go (St 68)) Fall; If (Below 65) (If (Within 48 57) (Go (St 66)) Fall) (If
      (Above 70) (If (Within 97 102) (Go (St 66)) Fall) (Go (St 66)))] (St 0));
    (66, mkState [] [If (Equal 58) (Go (St 68)) Fall; If (Below 65) (If (Within 48 57) (Go (St 67)) Fall) (If
      (Above 70) (If (Within 97 102) (Go (St 67)) Fall) (Go (St 67)))] (St 0));
    (67, mkState [] [If (Equal 58) (Go (St 68)) Fall] (St 0));
    (68, mkState [(2, St 69); (48, St 96); (49, St 104); (50, St 107); (58, St 111)] [If (Below 65) (If
      (Within 51 57) (Go (St 110)) Fall) (If (Above 70) (If (Within 97 102) (Go (St 112)) Fall) (Go (St
      112)))] (St 0));
    (69, mkState [] [If (Within 48 52) (Go (St 70)) Fall] (St 0));
    (70, mkState [] [If (Within 48 57) (Go (St 71)) Fall] (St 0));
    (71, mkState [] [If (Equal 46) (Go (St 72)) Fall] (St 0));
    (72, mkState [(2, St 73); (48, St 75); (49, St 92); (50, St 94)] [If (Within 51 57) (Go (St 93)) Fall] (St
      0));
    (73, mkState [] [If (Within 48 52) (Go (St 74)) Fall] (St 0));
    (74, mkState [] [If (Within 48 57) (Go (St 75)) Fall] (St 0));
    (75, mkState [] [If (Equal 46) (Go (St 76)) Fall] (St 0))]
  [].

(** Lines 2306 to 2449. *)
Definition lines_2306 : chunk := mkChunk
  [(76, mkState [(2, St 77); (48, St 79); (49, St 88); (50, St 90)] [If (Within 51 57) (Go (St 89)) Fall] (St
      0));
    (77, mkState [] [If (Within 48 52) (Go (St 78)) Fall] (St 0));
    (78, mkState [] [If (Within 48 57) (Go (St 79)) Fall] (St 0));
    (79, mkState [] [If (Equal 46) (Go (St 80)) Fall] (St 0));
    (80, mkState [(2, St 81); (48, St 83); (49, St 84); (50, St 86)] [If (Within 51 57) (Go (St 85)) Fall] (St
      0));
    (81, mkState [] [If (Within 48 52) (Go (St 82)) Fall] (St 0));
    (82, mkState [] [If (Within 48 57) (Go (St 83)) Fall] (St 0));
    (83, mkState [] [If (Equal 93) (Go (St 460)) Fall] (St 0));
    (84, mkState [] [If (Equal 93) (Go (St 460)) Fall; If (Within 48 57) (Go (St 85)) Fall] (St 0));
    (85, mkState [] [If (Equal 93) (Go (St 460)) Fall; If (Within 48 57) (Go (St 83)) Fall] (St 0));
    (86, mkState [(53, St 87); (93, St 460)] [If (Within 48 57) (Go (St 83)) Fall] (St 0));
    (87, mkState [] [If (Equal 93) (Go (St 460)) Fall; If (Within 48 53) (Go (St 83)) Fall] (St 0));
    (88, mkState [] [If (Equal 46) (Go (St 80)) Fall; If (Within 48 57) (Go (St 89)) Fall] (St 0));
    (89, mkState [] [If (Equal 46) (Go (St 80)) Fall; If (Within 48 57) (Go (St 79)) Fall] (St 0));
    (90, mkState [(46, St 80); (53, St 91)] [If (Within 48 57) (Go (St 79)) Fall] (St 0));
    (91, mkState [] [If (Equal 46) (Go (St 80)) Fall; If (Within 48 53) (Go (St 79)) Fall] (St 0))]
  [].

(** Lines 2450 to 2586. *)
Definition lines_2450 : chunk := mkChunk
  [(92, mkState [] [If (Equal 46) (Go (St 76)) Fall; If (Within 48 57) (Go (St 93)) Fall] (St 0));
    (93, mkState [] [If (Equal 46) (Go (St 76)) Fall; If (Within 48 57) (Go (St 75)) Fall] (St 0));
    (94, mkState [(46, St 76); (53, St 95)] [If (Within 48 57) (Go (St 75)) Fall] (St 0));
    (95, mkState [] [If (Equal 46) (Go (St 76)) Fall; If (Within 48 53) (Go (St 75)) Fall] (St 0));
    (96, mkState [(46, St 72); (58, St 100)] [If (Below 65) (If (Within 48 57) (Go (St 97)) Fall) (If (Above
      70) (If (Within 97 102) (Go (St 97)) Fall) (Go (St 97)))] (St 0));
    (97, mkState [] [If (Equal 58) (Go (St 100)) Fall; If (Below 65) (If (Within 48 57) (Go (St 98)) Fall) (If
      (Above 70) (If (Within 97 102) (Go (St 98)) Fall) (Go (St 98)))] (St 0));
    (98, mkState [] [If (Equal 58) (Go (St 100)) Fall; If (Below 65) (If (Within 48 57) (Go (St 99)) Fall) (If
      (Above 70) (If (Within 97 102) (Go (St 99)) Fall) (Go (St 99)))] (St 0));
    (99, mkState [] [If (Equal 58) (Go (St 100)) Fall] (St 0));
    (100, mkState [] [If (Equal 58) (Go (St 83)) Fall; If (Below 65) (If (Within 48 57) (Go (St 101)) Fall)
      (If (Above 70) (If (Within 97 102) (Go (St 101)) Fall) (Go (St 101)))] (St 0));
    (101, mkState [] [If (Equal 93) (Go (St 460)) Fall; If (Below 65) (If (Within 48 57) (Go (St 102)) Fall)
      (If (Above 70) (If (Within 97 102) (Go (St 102)) Fall) (Go (St 102)))] (St 0));
    (102, mkState [] [If (Equal 93) (Go (St 460)) Fall; If (Below 65) (If (Within 48 57) (Go (St 103)) Fall)
      (If (Above 70) (If (Within 97 102) (Go (St 103)) Fall) (Go (St 103)))] (St 0))]
  [].

(** Lines 2587 to 2724. *)
Definition lines_2587 : chunk := mkChunk
  [(103, mkState [] [If (Equal 93) (Go (St 460)) Fall; If (Below 65) (If (Within 48 57) (Go (St 83)) Fall)
      (If (Above 70) (If (Within 97 102) (Go (St 83)) Fall) (Go (St 83)))] (St 0));
    (104, mkState [(46, St 72); (58, St 100)] [If (Below 65) (If (Within 48 57) (Go (St 105)) Fall) (If (Above
      70) (If (Within 97 102) (Go (St 97)) Fall) (Go (St 97)))] (St 0));
    (105, mkState [(46, St 72); (58, St 100)] [If (Below 65) (If (Within 48 57) (Go (St 106)) Fall) (If (Above
      70) (If (Within 97 102) (Go (St 98)) Fall) (Go (St 98)))] (St 0));
    (106, mkState [(46, St 72); (58, St 100)] [If (Below 65) (If (Within 48 57) (Go (St 99)) Fall) (If (Above
      70) (If (Within 97 102) (Go (St 99)) Fall) (Go (St 99)))] (St 0));
    (107, mkState [(46, St 72); (53, St 109); (58, St 100)] [If (Below 65) (If (Within 48 57) (Go (St 108))
      Fall) (If (Above 70) (If (Within 97 102) (Go (St 97)) Fall) (Go (St 97)))] (St 0));
    (108, mkState [(46, St 72); (58, St 100)] [If (Below 65) (If (Within 48 57) (Go (St 98)) Fall) (If (Above
      70) (If (Within 97 102) (Go (St 98)) Fall) (Go (St 98)))] (St 0));
    (109, mkState [(46, St 72); (58, St 100)] [If (Below 54) (If (Within 48 53) (Go (St 106)) Fall) (If (Above
      57) (If (Above 70) (If (Within 97 102) (Go (St 98)) Fall) (If (AtLeast 65) (Go (St 98)) Fall)) (Go (St
      98)))] (St 0));
    (110, mkState [(46, St 72); (58, St 100)] [If (Below 65) (If (Within 48 57) (Go (St 108)) Fall) (If (Above
      70) (If (Within 97 102) (Go (St 97)) Fall) (Go (St 97)))] (St 0))]
  [].

(** Lines 2725 to 2859. *)
Definition lines_2725 : chunk := mkChunk
  [(111, mkState [] [If (Below 65) (If (Within 48 57) (Go (St 101)) Fall) (If (Above 70) (If (Within 97 102)
      (Go (St 101)) Fall) (Go (St 101)))] (St 0));
    (112, mkState [] [If (Equal 58) (Go (St 100)) Fall; If (Below 65) (If (Within 48 57) (Go (St 97)) Fall)
      (If (Above 70) (If (Within 97 102) (Go (St 97)) Fall) (Go (St 97)))] (St 0));
    (113, mkState [(2, St 69); (48, St 114); (49, St 118); (50, St 121)] [If (Below 65) (If (Within 51 57) (Go
      (St 124)) Fall) (If (Above 70) (If (Within 97 102) (Go (St 125)) Fall) (Go (St 125)))] (St 0));
    (114, mkState [(46, St 72); (58, St 111)] [If (Below 65) (If (Within 48 57) (Go (St 115)) Fall) (If (Above
      70) (If (Within 97 102) (Go (St 115)) Fall) (Go (St 115)))] (St 0));
    (115, mkState [] [If (Equal 58) (Go (St 111)) Fall; If (Below 65) (If (Within 48 57) (Go (St 116)) Fall)
      (If (Above 70) (If (Within 97 102) (Go (St 116)) Fall) (Go (St 116)))] (St 0));
    (116, mkState [] [If (Equal 58) (Go (St 111)) Fall; If (Below 65) (If (Within 48 57) (Go (St 117)) Fall)
      (If (Above 70) (If (Within 97 102) (Go (St 117)) Fall) (Go (St 117)))] (St 0));
    (117, mkState [] [If (Equal 58) (Go (St 111)) Fall] (St 0));
    (118, mkState [(46, St 72); (58, St 111)] [If (Below 65) (If (Within 48 57) (Go (St 119)) Fall) (If (Above
      70) (If (Within 97 102) (Go (St 115)) Fall) (Go (St 115)))] (St 0));
    (119, mkState [(46, St 72); (58, St 111)] [If (Below 65) (If (Within 48 57) (Go (St 120)) Fall) (If (Above
      70) (If (Within 97 102) (Go (St 116)) Fall) (Go (St 116)))] (St 0))]
  [].

(** Lines 2860 to 3006. *)
Definition lines_2860 : chunk := mkChunk
  [(120, mkState [(46, St 72); (58, St 111)] [If (Below 65) (If (Within 48 57) (Go (St 117)) Fall) (If (Above
      70) (If (Within 97 102) (Go (St 117)) Fall) (Go (St 117)))] (St 0));
    (121, mkState [(46, St 72); (53, St 123); (58, St 111)] [If (Below 65) (If (Within 48 57) (Go (St 122))
      Fall) (If (Above 70) (If (Within 97 102) (Go (St 115)) Fall) (Go (St 115)))] (St 0));
    (122, mkState [(46, St 72); (58, St 111)] [If (Below 65) (If (Within 48 57) (Go (St 116)) Fall) (If (Above
      70) (If (Within 97 102) (Go (St 116)) Fall) (Go (St 116)))] (St 0));
    (123, mkState [(46, St 72); (58, St 111)] [If (Below 54) (If (Within 48 53) (Go (St 120)) Fall) (If (Above
      57) (If (Above 70) (If (Within 97 102) (Go (St 116)) Fall) (If (AtLeast 65) (Go (St 116)) Fall)) (Go (St
      116)))] (St 0));
    (124, mkState [(46, St 72); (58, St 111)] [If (Below 65) (If (Within 48 57) (Go (St 122)) Fall) (If (Above
      70) (If (Within 97 102) (Go (St 115)) Fall) (Go (St 115)))] (St 0));
    (125, mkState [] [If (Equal 58) (Go (St 111)) Fall; If (Below 65) (If (Within 48 57) (Go (St 115)) Fall)
      (If (Above 70) (If (Within 97 102) (Go (St 115)) Fall) (Go (St 115)))] (St 0));
    (126, mkState [] [If (Below 65) (If (Within 48 57) (Go (St 127)) Fall) (If (Above 70) (If (Within 97 102)
      (Go (St 127)) Fall) (Go (St 127)))] (St 0));
    (127, mkState [] [If (Equal 58) (Go (St 113)) Fall; If (Below 65) (If (Within 48 57) (Go (St 128)) Fall)
      (If (Above 70) (If (Within 97 102) (Go (St 128)) Fall) (Go (St 128)))] (St 0));
    (128, mkState [] [If (Equal 58) (Go (St 113)) Fall; If (Below 65) (If (Within 48 57) (Go (St 129)) Fall)
      (If (Above 70) (If (Within 97 102) (Go (St 129)) Fall) (Go (St 129)))] (St 0))]
  [].

(** Lines 3007 to 3151. *)
Definition lines_3007 : chunk := mkChunk
  [(129, mkState [] [If (Equal 58) (Go (St 113)) Fall; If (Below 65) (If (Within 48 57) (Go (St 130)) Fall)
      (If (Above 70) (If (Within 97 102) (Go (St 130)) Fall) (Go (St 130)))] (St 0));
    (130, mkState [] [If (Equal 58) (Go (St 113)) Fall] (St 0));
    (131, mkState [] [If (Below 65) (If (Within 48 57) (Go (St 132)) Fall) (If (Above 70) (If (Within 97 102)
      (Go (St 132)) Fall) (Go (St 132)))] (St 0));
    (132, mkState [] [If (Equal 58) (Go (St 126)) Fall; If (Below 65) (If (Within 48 57) (Go (St 133)) Fall)
      (If (Above 70) (If (Within 97 102) (Go (St 133)) Fall) (Go (St 133)))] (St 0));
    (133, mkState [] [If (Equal 58) (Go (St 126)) Fall; If (Below 65) (If (Within 48 57) (Go (St 134)) Fall)
      (If (Above 70) (If (Within 97 102) (Go (St 134)) Fall) (Go (St 134)))] (St 0));
    (134, mkState [] [If (Equal 58) (Go (St 126)) Fall; If (Below 65) (If (Within 48 57) (Go (St 135)) Fall)
      (If (Above 70) (If (Within 97 102) (Go (St 135)) Fall) (Go (St 135)))] (St 0));
    (135, mkState [] [If (Equal 58) (Go (St 126)) Fall] (St 0));
    (136, mkState [] [If (Below 65) (If (Within 48 57) (Go (St 137)) Fall) (If (Above 70) (If (Within 97 102)
      (Go (St 137)) Fall) (Go (St 137)))] (St 0));
    (137, mkState [] [If (Equal 58) (Go (St 131)) Fall; If (Below 65) (If (Within 48 57) (Go (St 138)) Fall)
      (If (Above 70) (If (Within 97 102) (Go (St 138)) Fall) (Go (St 138)))] (St 0));
    (138, mkState [] [If (Equal 58) (Go (St 131)) Fall; If (Below 65) (If (Within 48 57) (Go (St 139)) Fall)
      (If (Above 70) (If (Within 97 102) (Go (St 139)) Fall) (Go (St 139)))] (St 0));
    (139, mkState [] [If (Equal 58) (Go (St 131)) Fall; If (Below 65) (If (Within 48 57) (Go (St 140)) Fall)
      (If (Above 70) (If (Within 97 102) (Go (St 140)) Fall) (Go (St 140)))] (St 0))]
  [].

(** Lines 3152 to 3285. *)
Definition lines_3152 : chunk := mkChunk
  [(140, mkState [] [If (Equal 58) (Go (St 131)) Fall] (St 0));
    (141, mkState [] [If (Below 65) (If (Within 48 57) (Go (St 142)) Fall) (If (Above 70) (If (Within 97 102)
      (Go (St 142)) Fall) (Go (St 142)))] (St 0));
    (142, mkState [] [If (Equal 58) (Go (St 136)) Fall; If (Below 65) (If (Within 48 57) (Go (St 143)) Fall)
      (If (Above 70) (If (Within 97 102) (Go (St 143)) Fall) (Go (St 143)))] (St 0));
    (143, mkState [] [If (Equal 58) (Go (St 136)) Fall; If (Below 65) (If (Within 48 57) (Go (St 144)) Fall)
      (If (Above 70) (If (Within 97 102) (Go (St 144)) Fall) (Go (St 144)))] (St 0));
    (144, mkState [] [If (Equal 58) (Go (St 136)) Fall; If (Below 65) (If (Within 48 57) (Go (St 145)) Fall)
      (If (Above 70) (If (Within 97 102) (Go (St 145)) Fall) (Go (St 145)))] (St 0));
    (145, mkState [] [If (Equal 58) (Go (St 136)) Fall] (St 0));
    (146, mkState [] [If (Equal 58) (Go (St 147)) Fall] (St 0));
    (147, mkState [(2, St 69); (48, St 148); (49, St 217); (50, St 220); (93, St 460)] [If (Below 65) (If
      (Within 51 57) (Go (St 223)) Fall) (If (Above 70) (If (Within 97 102) (Go (St 224)) Fall) (Go (St
      224)))] (St 0));
    (148, mkState [(46, St 72); (58, St 152); (93, St 460)] [If (Below 65) (If (Within 48 57) (Go (St 149))
      Fall) (If (Above 70) (If (Within 97 102) (Go (St 149)) Fall) (Go (St 149)))] (St 0));
    (149, mkState [(58, St 152); (93, St 460)] [If (Below 65) (If (Within 48 57) (Go (St 150)) Fall) (If
      (Above 70) (If (Within 97 102) (Go (St 150)) Fall) (Go (St 150)))] (St 0))]
  [].

(** Lines 3286 to 3428. *)
Definition lines_3286 : chunk := mkChunk
  [(150, mkState [(58, St 152); (93, St 460)] [If (Below 65) (If (Within 48 57) (Go (St 151)) Fall) (If
      (Above 70) (If (Within 97 102) (Go (St 151)) Fall) (Go (St 151)))] (St 0));
    (151, mkState [(58, St 152); (93, St 460)] [] (St 0));
    (152, mkState [(2, St 69); (48, St 153); (49, St 209); (50, St 212)] [If (Below 65) (If (Within 51 57) (Go
      (St 215)) Fall) (If (Above 70) (If (Within 97 102) (Go (St 216)) Fall) (Go (St 216)))] (St 0));
    (153, mkState [(46, St 72); (58, St 157); (93, St 460)] [If (Below 65) (If (Within 48 57) (Go (St 154))
      Fall) (If (Above 70) (If (Within 97 102) (Go (St 154)) Fall) (Go (St 154)))] (St 0));
    (154, mkState [(58, St 157); (93, St 460)] [If (Below 65) (If (Within 48 57) (Go (St 155)) Fall) (If
      (Above 70) (If (Within 97 102) (Go (St 155)) Fall) (Go (St 155)))] (St 0));
    (155, mkState [(58, St 157); (93, St 460)] [If (Below 65) (If (Within 48 57) (Go (St 156)) Fall) (If
      (Above 70) (If (Within 97 102) (Go (St 156)) Fall) (Go (St 156)))] (St 0));
    (156, mkState [(58, St 157); (93, St 460)] [] (St 0));
    (157, mkState [(2, St 69); (48, St 158); (49, St 201); (50, St 204)] [If (Below 65) (If (Within 51 57) (Go
      (St 207)) Fall) (If (Above 70) (If (Within 97 102) (Go (St 208)) Fall) (Go (St 208)))] (St 0));
    (158, mkState [(46, St 72); (58, St 162); (93, St 460)] [If (Below 65) (If (Within 48 57) (Go (St 159))
      Fall) (If (Above 70) (If (Within 97 102) (Go (St 159)) Fall) (Go (St 159)))] (St 0))]
  [].

(** Lines 3429 to 3570. *)
Definition lines_3429 : chunk := mkChunk
  [(159, mkState [(58, St 162); (93, St 460)] [If (Below 65) (If (Within 48 57) (Go (St 160)) Fall) (If
      (Above 70) (If (Within 97 102) (Go (St 160)) Fall) (Go (St 160)))] (St 0));
    (160, mkState [(58, St 162); (93, St 460)] [If (Below 65) (If (Within 48 57) (Go (St 161)) Fall) (If
      (Above 70) (If (Within 97 102) (Go (St 161)) Fall) (Go (St 161)))] (St 0));
    (161, mkState [(58, St 162); (93, St 460)] [] (St 0));
    (162, mkState [(2, St 69); (48, St 163); (49, St 193); (50, St 196)] [If (Below 65) (If (Within 51 57) (Go
      (St 199)) Fall) (If (Above 70) (If (Within 97 102) (Go (St 200)) Fall) (Go (St 200)))] (St 0));
    (163, mkState [(46, St 72); (58, St 167); (93, St 460)] [If (Below 65) (If (Within 48 57) (Go (St 164))
      Fall) (If (Above 70) (If (Within 97 102) (Go (St 164)) Fall) (Go (St 164)))] (St 0));
    (164, mkState [(58, St 167); (93, St 460)] [If (Below 65) (If (Within 48 57) (Go (St 165)) Fall) (If
      (Above 70) (If (Within 97 102) (Go (St 165)) Fall) (Go (St 165)))] (St 0));
    (165, mkState [(58, St 167); (93, St 460)] [If (Below 65) (If (Within 48 57) (Go (St 166)) Fall) (If
      (Above 70) (If (Within 97 102) (Go (St 166)) Fall) (Go (St 166)))] (St 0));
    (166, mkState [(58, St 167); (93, St 460)] [] (St 0));
    (167, mkState [(2, St 69); (48, St 168); (49, St 185); (50, St 188)] [If (Below 65) (If (Within 51 57) (Go
      (St 191)) Fall) (If (Above 70) (If (Within 97 102) (Go (St 192)) Fall) (Go (St 192)))] (St 0))]
  [].

(** Lines 3571 to 3711. *)
Definition lines_3571 : chunk := mkChunk
  [(168, mkState [(46, St 72); (58, St 172); (93, St 460)] [If (Below 65) (If (Within 48 57) (Go (St 169))
      Fall) (If (Above 70) (If (Within 97 102) (Go (St 169)) Fall) (Go (St 169)))] (St 0));
    (169, mkState [(58, St 172); (93, St 460)] [If (Below 65) (If (Within 48 57) (Go (St 170)) Fall) (If
      (Above 70) (If (Within 97 102) (Go (St 170)) Fall) (Go (St 170)))] (St 0));
    (170, mkState [(58, St 172); (93, St 460)] [If (Below 65) (If (Within 48 57) (Go (St 171)) Fall) (If
      (Above 70) (If (Within 97 102) (Go (St 171)) Fall) (Go (St 171)))] (St 0));
    (171, mkState [(58, St 172); (93, St 460)] [] (St 0));
    (172, mkState [(2, St 69); (48, St 173); (49, St 177); (50, St 180)] [If (Below 65) (If (Within 51 57) (Go
      (St 183)) Fall) (If (Above 70) (If (Within 97 102) (Go (St 184)) Fall) (Go (St 184)))] (St 0));
    (173, mkState [(46, St 72); (58, St 111); (93, St 460)] [If (Below 65) (If (Within 48 57) (Go (St 174))
      Fall) (If (Above 70) (If (Within 97 102) (Go (St 174)) Fall) (Go (St 174)))] (St 0));
    (174, mkState [(58, St 111); (93, St 460)] [If (Below 65) (If (Within 48 57) (Go (St 175)) Fall) (If
      (Above 70) (If (Within 97 102) (Go (St 175)) Fall) (Go (St 175)))] (St 0));
    (175, mkState [(58, St 111); (93, St 460)] [If (Below 65) (If (Within 48 57) (Go (St 176)) Fall) (If
      (Above 70) (If (Within 97 102) (Go (St 176)) Fall) (Go (St 176)))] (St 0));
    (176, mkState [(58, St 111); (93, St 460)] [] (St 0))]
  [].

(** Lines 3712 to 3858. *)
Definition lines_3712 : chunk := mkChunk
  [(177, mkState [(46, St 72); (58, St 111); (93, St 460)] [If (Below 65) (If (Within 48 57) (Go (St 178))
      Fall) (If (Above 70) (If (Within 97 102) (Go (St 174)) Fall) (Go (St 174)))] (St 0));
    (178, mkState [(46, St 72); (58, St 111); (93, St 460)] [If (Below 65) (If (Within 48 57) (Go (St 179))
      Fall) (If (Above 70) (If (Within 97 102) (Go (St 175)) Fall) (Go (St 175)))] (St 0));
    (179, mkState [(46, St 72); (58, St 111); (93, St 460)] [If (Below 65) (If (Within 48 57) (Go (St 176))
      Fall) (If (Above 70) (If (Within 97 102) (Go (St 176)) Fall) (Go (St 176)))] (St 0));
    (180, mkState [(46, St 72); (53, St 182); (58, St 111); (93, St 460)] [If (Below 65) (If (Within 48 57)
      (Go (St 181)) Fall) (If (Above 70) (If (Within 97 102) (Go (St 174)) Fall) (Go (St 174)))] (St 0));
    (181, mkState [(46, St 72); (58, St 111); (93, St 460)] [If (Below 65) (If (Within 48 57) (Go (St 175))
      Fall) (If (Above 70) (If (Within 97 102) (Go (St 175)) Fall) (Go (St 175)))] (St 0));
    (182, mkState [(46, St 72); (58, St 111); (93, St 460)] [If (Below 54) (If (Within 48 53) (Go (St 179))
      Fall) (If (Above 57) (If (Above 70) (If (Within 97 102) (Go (St 175)) Fall) (If (AtLeast 65) (Go (St
      175)) Fall)) (Go (St 175)))] (St 0));
    (183, mkState [(46, St 72); (58, St 111); (93, St 460)] [If (Below 65) (If (Within 48 57) (Go (St 181))
      Fall) (If (Above 70) (If (Within 97 102) (Go (St 174)) Fall) (Go (St 174)))] (St 0));
    (184, mkState [(58, St 111); (93, St 460)] [If (Below 65) (If (Within 48 57) (Go (St 174)) Fall) (If
      (Above 70) (If (Within 97 102) (Go (St 174)) Fall) (Go (St 174)))] (St 0))]
  [].

(** Lines 3859 to 4005. *)
Definition lines_3859 : chunk := mkChunk
  [(185, mkState [(46, St 72); (58, St 172); (93, St 460)] [If (Below 65) (If (Within 48 57) (Go (St 186))
      Fall) (If (Above 70) (If (Within 97 102) (Go (St 169)) Fall) (Go (St 169)))] (St 0));
    (186, mkState [(46, St 72); (58, St 172); (93, St 460)] [If (Below 65) (If (Within 48 57) (Go (St 187))
      Fall) (If (Above 70) (If (Within 97 102) (Go (St 170)) Fall) (Go (St 170)))] (St 0));
    (187, mkState [(46, St 72); (58, St 172); (93, St 460)] [If (Below 65) (If (Within 48 57) (Go (St 171))
      Fall) (If (Above 70) (If (Within 97 102) (Go (St 171)) Fall) (Go (St 171)))] (St 0));
    (188, mkState [(46, St 72); (53, St 190); (58, St 172); (93, St 460)] [If (Below 65) (If (Within 48 57)
      (Go (St 189)) Fall) (If (Above 70) (If (Within 97 102) (Go (St 169)) Fall) (Go (St 169)))] (St 0));
    (189, mkState [(46, St 72); (58, St 172); (93, St 460)] [If (Below 65) (If (Within 48 57) (Go (St 170))
      Fall) (If (Above 70) (If (Within 97 102) (Go (St 170)) Fall) (Go (St 170)))] (St 0));
    (190, mkState [(46, St 72); (58, St 172); (93, St 460)] [If (Below 54) (If (Within 48 53) (Go (St 187))
      Fall) (If (Above 57) (If (Above 70) (If (Within 97 102) (Go (St 170)) Fall) (If (AtLeast 65) (Go (St
      170)) Fall)) (Go (St 170)))] (St 0));
    (191, mkState [(46, St 72); (58, St 172); (93, St 460)] [If (Below 65) (If (Within 48 57) (Go (St 189))
      Fall) (If (Above 70) (If (Within 97 102) (Go (St 169)) Fall) (Go (St 169)))] (St 0));
    (192, mkState [(58, St 172); (93, St 460)] [If (Below 65) (If (Within 48 57) (Go (St 169)) Fall) (If
      (Above 70) (If (Within 97 102) (Go (St 169)) Fall) (Go (St 169)))] (St 0))]
  [].

(** Lines 4006 to 4152. *)
Definition lines_4006 : chunk := mkChunk
  [(193, mkState [(46, St 72); (58, St 167); (93, St 460)] [If (Below 65) (If (Within 48 57) (Go (St 194))
      Fall) (If (Above 70) (If (Within 97 102) (Go (St 164)) Fall) (Go (St 164)))] (St 0));
    (194, mkState [(46, St 72); (58, St 167); (93, St 460)] [If (Below 65) (If (Within 48 57) (Go (St 195))
      Fall) (If (Above 70) (If (Within 97 102) (Go (St 165)) Fall) (Go (St 165)))] (St 0));
    (195, mkState [(46, St 72); (58, St 167); (93, St 460)] [If (Below 65) (If (Within 48 57) (Go (St 166))
      Fall) (If (Above 70) (If (Within 97 102) (Go (St 166)) Fall) (Go (St 166)))] (St 0));
    (196, mkState [(46, St 72); (53, St 198); (58, St 167); (93, St 460)] [If (Below 65) (If (Within 48 57)
      (Go (St 197)) Fall) (If (Above 70) (If (Within 97 102) (Go (St 164)) Fall) (Go (St 164)))] (St 0));
    (197, mkState [(46, St 72); (58, St 167); (93, St 460)] [If (Below 65) (If (Within 48 57) (Go (St 165))
      Fall) (If (Above 70) (If (Within 97 102) (Go (St 165)) Fall) (Go (St 165)))] (St 0));
    (198, mkState [(46, St 72); (58, St 167); (93, St 460)] [If (Below 54) (If (Within 48 53) (Go (St 195))
      Fall) (If (Above 57) (If (Above 70) (If (Within 97 102) (Go (St 165)) Fall) (If (AtLeast 65) (Go (St
      165)) Fall)) (Go (St 165)))] (St 0));
    (199, mkState [(46, St 72); (58, St 167); (93, St 460)] [If (Below 65) (If (Within 48 57) (Go (St 197))
      Fall) (If (Above 70) (If (Within 97 102) (Go (St 164)) Fall) (Go (St 164)))] (St 0));
    (200, mkState [(58, St 167); (93, St 460)] [If (Below 65) (If (Within 48 57) (Go (St 164)) Fall) (If
      (Above 70) (If (Within 97 102) (Go (St 164)) Fall) (Go (St 164)))] (St 0))]
  [].

(** Lines 4153 to 4299. *)
Definition lines_4153 : chunk := mkChunk
  [(201, mkState [(46, St 72); (58, St 162); (93, St 460)] [If (Below 65) (If (Within 48 57) (Go (St 202))
      Fall) (If (Above 70) (If (Within 97 102) (Go (St 159)) Fall) (Go (St 159)))] (St 0));
    (202, mkState [(46, St 72); (58, St 162); (93, St 460)] [If (Below 65) (If (Within 48 57) (Go (St 203))
      Fall) (If (Above 70) (If (Within 97 102) (Go (St 160)) Fall) (Go (St 160)))] (St 0));
    (203, mkState [(46, St 72); (58, St 162); (93, St 460)] [If (Below 65) (If (Within 48 57) (Go (St 161))
      Fall) (If (Above 70) (If (Within 97 102) (Go (St 161)) Fall) (Go (St 161)))] (St 0));
    (204, mkState [(46, St 72); (53, St 206); (58, St 162); (93, St 460)] [If (Below 65) (If (Within 48 57)
      (Go (St 205)) Fall) (If (Above 70) (If (Within 97 102) (Go (St 159)) Fall) (Go (St 159)))] (St 0));
    (205, mkState [(46, St 72); (58, St 162); (93, St 460)] [If (Below 65) (If (Within 48 57) (Go (St 160))
      Fall) (If (Above 70) (If (Within 97 102) (Go (St 160)) Fall) (Go (St 160)))] (St 0));
    (206, mkState [(46, St 72); (58, St 162); (93, St 460)] [If (Below 54) (If (Within 48 53) (Go (St 203))
      Fall) (If (Above 57) (If (Above 70) (If (Within 97 102) (Go (St 160)) Fall) (If (AtLeast 65) (Go (St
      160)) Fall)) (Go (St 160)))] (St 0));
    (207, mkState [(46, St 72); (58, St 162); (93, St 460)] [If (Below 65) (If (Within 48 57) (Go (St 205))
      Fall) (If (Above 70) (If (Within 97 102) (Go (St 159)) Fall) (Go (St 159)))] (St 0));
    (208, mkState [(58, St 162); (93, St 460)] [If (Below 65) (If (Within 48 57) (Go (St 159)) Fall) (If
      (Above 70) (If (Within 97 102) (Go (St 159)) Fall) (Go (St 159)))] (St 0))]
  [].

(** Lines 4300 to 4446. *)
Definition lines_4300 : chunk := mkChunk
  [(209, mkState [(46, St 72); (58, St 157); (93, St 460)] [If (Below 65) (If (Within 48 57) (Go (St 210))
      Fall) (If (Above 70) (If (Within 97 102) (Go (St 154)) Fall) (Go (St 154)))] (St 0));
    (210, mkState [(46, St 72); (58, St 157); (93, St 460)] [If (Below 65) (If (Within 48 57) (Go (St 211))
      Fall) (If (Above 70) (If (Within 97 102) (Go (St 155)) Fall) (Go (St 155)))] (St 0));
    (211, mkState [(46, St 72); (58, St 157); (93, St 460)] [If (Below 65) (If (Within 48 57) (Go (St 156))
      Fall) (If (Above 70) (If (Within 97 102) (Go (St 156)) Fall) (Go (St 156)))] (St 0));
    (212, mkState [(46, St 72); (53, St 214); (58, St 157); (93, St 460)] [If (Below 65) (If (Within 48 57)
      (Go (St 213)) Fall) (If (Above 70) (If (Within 97 102) (Go (St 154)) Fall) (Go (St 154)))] (St 0));
    (213, mkState [(46, St 72); (58, St 157); (93, St 460)] [If (Below 65) (If (Within 48 57) (Go (St 155))
      Fall) (If (Above 70) (If (Within 97 102) (Go (St 155)) Fall) (Go (St 155)))] (St 0));
    (214, mkState [(46, St 72); (58, St 157); (93, St 460)] [If (Below 54) (If (Within 48 53) (Go (St 211))
      Fall) (If (Above 57) (If (Above 70) (If (Within 97 102) (Go (St 155)) Fall) (If (AtLeast 65) (Go (St
      155)) Fall)) (Go (St 155)))] (St 0));
    (215, mkState [(46, St 72); (58, St 157); (93, St 460)] [If (Below 65) (If (Within 48 57) (Go (St 213))
      Fall) (If (Above 70) (If (Within 97 102) (Go (St 154)) Fall) (Go (St 154)))] (St 0));
    (216, mkState [(58, St 157); (93, St 460)] [If (Below 65) (If (Within 48 57) (Go (St 154)) Fall) (If
      (Above 70) (If (Within 97 102) (Go (St 154)) Fall) (Go (St 154)))] (St 0))]
  [].

(** Lines 4447 to 4593. *)
Definition lines_4447 : chunk := mkChunk
  [(217, mkState [(46, St 72); (58, St 152); (93, St 460)] [If (Below 65) (If (Within 48 57) (Go (St 218))
      Fall) (If (Above 70) (If (Within 97 102) (Go (St 149)) Fall) (Go (St 149)))] (St 0));
    (218, mkState [(46, St 72); (58, St 152); (93, St 460)] [If (Below 65) (If (Within 48 57) (Go (St 219))
      Fall) (If (Above 70) (If (Within 97 102) (Go (St 150)) Fall) (Go (St 150)))] (St 0));
    (219, mkState [(46, St 72); (58, St 152); (93, St 460)] [If (Below 65) (If (Within 48 57) (Go (St 151))
      Fall) (If (Above 70) (If (Within 97 102) (Go (St 151)) Fall) (Go (St 151)))] (St 0));
    (220, mkState [(46, St 72); (53, St 222); (58, St 152); (93, St 460)] [If (Below 65) (If (Within 48 57)
      (Go (St 221)) Fall) (If (Above 70) (If (Within 97 102) (Go (St 149)) Fall) (Go (St 149)))] (St 0));
    (221, mkState [(46, St 72); (58, St 152); (93, St 460)] [If (Below 65) (If (Within 48 57) (Go (St 150))
      Fall) (If (Above 70) (If (Within 97 102) (Go (St 150)) Fall) (Go (St 150)))] (St 0));
    (222, mkState [(46, St 72); (58, St 152); (93, St 460)] [If (Below 54) (If (Within 48 53) (Go (St 219))
      Fall) (If (Above 57) (If (Above 70) (If (Within 97 102) (Go (St 150)) Fall) (If (AtLeast 65) (Go (St
      150)) Fall)) (Go (St 150)))] (St 0));
    (223, mkState [(46, St 72); (58, St 152); (93, St 460)] [If (Below 65) (If (Within 48 57) (Go (St 221))
      Fall) (If (Above 70) (If (Within 97 102) (Go (St 149)) Fall) (Go (St 149)))] (St 0));
    (224, mkState [(58, St 152); (93, St 460)] [If (Below 65) (If (Within 48 57) (Go (St 149)) Fall) (If
      (Above 70) (If (Within 97 102) (Go (St 149)) Fall) (Go (St 149)))] (St 0))]
  [].

(** Lines 4594 to 4734. *)
Definition lines_4594 : chunk := mkChunk
  [(225, mkState [] [If (Below 65) (If (Within 48 57) (Go (St 226)) Fall) (If (Above 70) (If (Within 97 102)
      (Go (St 226)) Fall) (Go (St 226)))] (St 0));
    (226, mkState [] [If (Equal 46) (Go (St 227)) Fall; If (Below 65) (If (Within 48 57) (Go (St 226)) Fall)
      (If (Above 70) (If (Within 97 102) (Go (St 226)) Fall) (Go (St 226)))] (St 0));
    (227, mkState [(33, St 228); (36, St 228); (61, St 228); (95, St 228); (126, St 228)] [If (Below 48) (If
      (Within 38 46) (Go (St 228)) Fall) (If (Above 59) (If (Above 90) (If (Within 97 122) (Go (St 228)) Fall)
      (If (AtLeast 65) (Go (St 228)) Fall)) (Go (St 228)))] (St 0));
    (228, mkState [(33, St 228); (36, St 228); (61, St 228); (93, St 460); (95, St 228); (126, St 228)] [If
      (Below 48) (If (Within 38 46) (Go (St 228)) Fall) (If (Above 59) (If (Above 90) (If (Within 97 122) (Go
      (St 228)) Fall) (If (AtLeast 65) (Go (St 228)) Fall)) (Go (St 228)))] (St 0));
    (489, mkState [(33, St 33); (35, Tr 493); (37, St 34); (47, Tr 494); (61, St 33); (63, Tr 496); (64, Tr
      38); (95, St 33); (126, St 33)] [If (Below 58) (If (Above 46) (If (Within 48 57) (Go (St 489)) Fall) (If
      (AtLeast 36) (Go (St 33)) Fall)) (If (Above 59) (If (Above 90) (If (Within 97 122) (Go (St 33)) Fall)
      (If (AtLeast 65) (Go (St 33)) Fall)) (Go (St 33)))] (St 0));
    (490, mkState [(33, St 467); (35, Tr 485); (37, St 31); (46, St 491); (47, Tr 486); (58, Tr 499); (61, St
      467); (63, Tr 488); (64, Tr 38); (95, St 467); (126, St 467)] [If (Below 65) (If (Within 36 59) (Go (St
      467)) Fall) (If (Above 90) (If (Within 97 122) (Go (St 467)) Fall) (Go (St 467)))] (St 0))]
  [(500, ([MarkH], 489));
    (477, ([MarkH], 490))].

(** Lines 4735 to 4878. *)
Definition lines_4735 : chunk := mkChunk
  [(491, mkState [(2, St 13); (33, St 467); (35, Tr 485); (37, St 31); (47, Tr 486); (48, St 492); (49, St
      500); (50, St 502); (58, Tr 499); (59, St 467); (61, St 467); (63, Tr 488); (64, Tr 38); (95, St 467);
      (126, St 467)] [If (Below 51) (If (Within 36 46) (Go (St 467)) Fall) (If (Above 57) (If (Above 90) (If
      (Within 97 122) (Go (St 467)) Fall) (If (AtLeast 65) (Go (St 467)) Fall)) (Go (St 501)))] (St 0));
    (492, mkState [(33, St 467); (35, Tr 485); (37, St 31); (46, St 493); (47, Tr 486); (58, Tr 499); (61, St
      467); (63, Tr 488); (64, Tr 38); (95, St 467); (126, St 467)] [If (Below 65) (If (Within 36 59) (Go (St
      467)) Fall) (If (Above 90) (If (Within 97 122) (Go (St 467)) Fall) (Go (St 467)))] (St 0));
    (493, mkState [(2, St 17); (33, St 467); (35, Tr 485); (37, St 31); (47, Tr 486); (48, St 494); (49, St
      496); (50, St 498); (58, Tr 499); (59, St 467); (61, St 467); (63, Tr 488); (64, Tr 38); (95, St 467);
      (126, St 467)] [If (Below 51) (If (Within 36 46) (Go (St 467)) Fall) (If (Above 57) (If (Above 90) (If
      (Within 97 122) (Go (St 467)) Fall) (If (AtLeast 65) (Go (St 467)) Fall)) (Go (St 497)))] (St 0));
    (494, mkState [(33, St 467); (35, Tr 485); (37, St 31); (46, St 495); (47, Tr 486); (58, Tr 499); (61, St
      467); (63, Tr 488); (64, Tr 38); (95, St 467); (126, St 467)] [If (Below 65) (If (Within 36 59) (Go (St
      467)) Fall) (If (Above 90) (If (Within 97 122) (Go (St 467)) Fall) (Go (St 467)))] (St 0));
    (495, mkState [(2, St 21); (33, St 467); (35, Tr 485); (37, St 31); (47, Tr 486); (58, Tr 499); (61, St
      467); (63, Tr 488); (64, Tr 38); (95, St 467); (126, St 467)] [If (Below 65) (If (Within 36 59) (Go (St
      467)) Fall) (If (Above 90) (If (Within 97 122) (Go (St 467)) Fall) (Go (St 467)))] (St 0))]
  [].

(** Lines 4879 to 5001. *)
Definition lines_4879 : chunk := mkChunk
  [(496, mkState [(33, St 467); (35, Tr 485); (37, St 31); (46, St 495); (47, Tr 486); (58, Tr 499); (59, St
      467); (61, St 467); (63, Tr 488); (64, Tr 38); (95, St 467); (126, St 467)] [If (Below 48) (If (Within
      36 45) (Go (St 467)) Fall) (If (Above 57) (If (Above 90) (If (Within 97 122) (Go (St 467)) Fall) (If
      (AtLeast 65) (Go (St 467)) Fall)) (Go (St 497)))] (St 0));
    (497, mkState [(33, St 467); (35, Tr 485); (37, St 31); (46, St 495); (47, Tr 486); (58, Tr 499); (59, St
      467); (61, St 467); (63, Tr 488); (64, Tr 38); (95, St 467); (126, St 467)] [If (Below 48) (If (Within
      36 45) (Go (St 467)) Fall) (If (Above 57) (If (Above 90) (If (Within 97 122) (Go (St 467)) Fall) (If
      (AtLeast 65) (Go (St 467)) Fall)) (Go (St 494)))] (St 0));
    (498, mkState [(33, St 467); (35, Tr 485); (37, St 31); (46, St 495); (47, Tr 486); (53, St 499); (58, Tr
      499); (59, St 467); (61, St 467); (63, Tr 488); (64, Tr 38); (95, St 467); (126, St 467)] [If (Below 48)
      (If (Within 36 45) (Go (St 467)) Fall) (If (Above 57) (If (Above 90) (If (Within 97 122) (Go (St 467))
      Fall) (If (AtLeast 65) (Go (St 467)) Fall)) (Go (St 494)))] (St 0));
    (499, mkState [(33, St 467); (35, Tr 485); (37, St 31); (46, St 495); (47, Tr 486); (58, Tr 499); (61, St
      467); (63, Tr 488); (64, Tr 38); (95, St 467); (126, St 467)] [If (Below 54) (If (Above 45) (If (Within
      48 53) (Go (St 494)) Fall) (If (AtLeast 36) (Go (St 467)) Fall)) (If (Above 59) (If (Above 90) (If
      (Within 97 122) (Go (St 467)) Fall) (If (AtLeast 65) (Go (St 467)) Fall)) (Go (St 467)))] (St 0))]
  [].

(** Lines 5002 to 5128. *)
Definition lines_5002 : chunk := mkChunk
  [(500, mkState [(33, St 467); (35, Tr 485); (37, St 31); (46, St 493); (47, Tr 486); (58, Tr 499); (59, St
      467); (61, St 467); (63, Tr 488); (64, Tr 38); (95, St 467); (126, St 467)] [If (Below 48) (If (Within
      36 45) (Go (St 467)) Fall) (If (Above 57) (If (Above 90) (If (Within 97 122) (Go (St 467)) Fall) (If
      (AtLeast 65) (Go (St 467)) Fall)) (Go (St 501)))] (St 0));
    (501, mkState [(33, St 467); (35, Tr 485); (37, St 31); (46, St 493); (47, Tr 486); (58, Tr 499); (59, St
      467); (61, St 467); (63, Tr 488); (64, Tr 38); (95, St 467); (126, St 467)] [If (Below 48) (If (Within
      36 45) (Go (St 467)) Fall) (If (Above 57) (If (Above 90) (If (Within 97 122) (Go (St 467)) Fall) (If
      (AtLeast 65) (Go (St 467)) Fall)) (Go (St 492)))] (St 0));
    (502, mkState [(33, St 467); (35, Tr 485); (37, St 31); (46, St 493); (47, Tr 486); (53, St 503); (58, Tr
      499); (59, St 467); (61, St 467); (63, Tr 488); (64, Tr 38); (95, St 467); (126, St 467)] [If (Below 48)
      (If (Within 36 45) (Go (St 467)) Fall) (If (Above 57) (If (Above 90) (If (Within 97 122) (Go (St 467))
      Fall) (If (AtLeast 65) (Go (St 467)) Fall)) (Go (St 492)))] (St 0));
    (503, mkState [(33, St 467); (35, Tr 485); (37, St 31); (46, St 493); (47, Tr 486); (58, Tr 499); (61, St
      467); (63, Tr 488); (64, Tr 38); (95, St 467); (126, St 467)] [If (Below 54) (If (Above 45) (If (Within
      48 53) (Go (St 492)) Fall) (If (AtLeast 36) (Go (St 467)) Fall)) (If (Above 59) (If (Above 90) (If
      (Within 97 122) (Go (St 467)) Fall) (If (AtLeast 65) (Go (St 467)) Fall)) (Go (St 467)))] (St 0))]
  [(478, ([MarkH], 504))].

(** Lines 5129 to 5266. *)
Definition lines_5129 : chunk := mkChunk
  [(504, mkState [(33, St 467); (35, Tr 485); (37, St 31); (46, St 491); (47, Tr 486); (58, Tr 499); (59, St
      467); (61, St 467); (63, Tr 488); (64, Tr 38); (95, St 467); (126, St 467)] [If (Below 48) (If (Within
      36 45) (Go (St 467)) Fall) (If (Above 57) (If (Above 90) (If (Within 97 122) (Go (St 467)) Fall) (If
      (AtLeast 65) (Go (St 467)) Fall)) (Go (St 505)))] (St 0));
    (505, mkState [(33, St 467); (35, Tr 485); (37, St 31); (46, St 491); (47, Tr 486); (58, Tr 499); (59, St
      467); (61, St 467); (63, Tr 488); (64, Tr 38); (95, St 467); (126, St 467)] [If (Below 48) (If (Within
      36 45) (Go (St 467)) Fall) (If (Above 57) (If (Above 90) (If (Within 97 122) (Go (St 467)) Fall) (If
      (AtLeast 65) (Go (St 467)) Fall)) (Go (St 490)))] (St 0));
    (506, mkState [(33, St 467); (35, Tr 485); (37, St 31); (46, St 491); (47, Tr 486); (53, St 507); (58, Tr
      499); (59, St 467); (61, St 467); (63, Tr 488); (64, Tr 38); (95, St 467); (126, St 467)] [If (Below 48)
      (If (Within 36 45) (Go (St 467)) Fall) (If (Above 57) (If (Above 90) (If (Within 97 122) (Go (St 467))
      Fall) (If (AtLeast 65) (Go (St 467)) Fall)) (Go (St 490)))] (St 0));
    (507, mkState [(33, St 467); (35, Tr 485); (37, St 31); (46, St 491); (47, Tr 486); (58, Tr 499); (61, St
      467); (63, Tr 488); (64, Tr 38); (95, St 467); (126, St 467)] [If (Below 54) (If (Above 45) (If (Within
      48 53) (Go (St 490)) Fall) (If (AtLeast 36) (Go (St 467)) Fall)) (If (Above 59) (If (Above 90) (If
      (Within 97 122) (Go (St 467)) Fall) (If (AtLeast 65) (Go (St 467)) Fall)) (Go (St 467)))] (St 0))]
  [(480, ([MarkH], 505));
    (479, ([MarkH], 506));
    (461, ([MarkU], 508))].

(** Lines 5267 to 5411. *)
Definition lines_5267 : chunk := mkChunk
  [(508, mkState [(34, St 0); (35, St 453); (37, St 3); (43, St 508); (47, St 455); (58, Tr 543); (60, St 0);
      (62, St 0); (63, St 456); (96, St 0); (127, St 0)] [If (Below 65) (If (Above 32) (If (Within 45 57) (Go
      (St 508)) Fall) (If (AtLeast 0) (Go (St 0)) Fall)) (If (Above 90) (If (Below 97) (If (Within 91 94) (Go
      (St 0)) Fall) (If (Above 122) (If (Within 123 125) (Go (St 0)) Fall) (Go (St 508)))) (Go (St 508)))] (St
      452));
    (509, mkState [(34, St 0); (35, St 453); (37, St 5); (47, St 510); (60, St 0); (62, St 0); (63, St 456);
      (96, St 0); (127, St 0)] [If (Below 91) (If (Within 0 32) (Go (St 0)) Fall) (If (Above 94) (If (Within
      123 125) (Go (St 0)) Fall) (Go (St 0)))] (St 455));
    (510, mkState [(34, St 0); (35, St 453); (37, St 5); (47, St 511); (60, St 0); (62, St 0); (63, St 456);
      (96, St 0); (127, St 0)] [If (Below 91) (If (Within 0 32) (Go (St 0)) Fall) (If (Above 94) (If (Within
      123 125) (Go (St 0)) Fall) (Go (St 0)))] (St 455));
    (511, mkState [(2, Tr 546); (33, Tr 547); (35, Tr 548); (37, Tr 549); (47, Tr 550); (48, Tr 551); (49, Tr
      552); (50, Tr 553); (58, Tr 555); (59, Tr 547); (61, Tr 547); (63, Tr 556); (64, Tr 557); (91, Tr 558);
      (95, Tr 547); (126, Tr 547)] [If (Below 51) (If (Within 36 46) (Go (Tr 547)) Fall) (If (Above 57) (If
      (Above 90) (If (Within 97 122) (Go (Tr 547)) Fall) (If (AtLeast 65) (Go (Tr 547)) Fall)) (Go (Tr 554)))]
      (St 0));
    (229, mkState [] [If (Within 48 52) (Go (St 230)) Fall] (St 0));
    (230, mkState [] [If (Within 48 57) (Go (St 231)) Fall] (St 0))]
  [(543, ([SaveScheme], 509));
    (546, ([MarkH], 229))].

(** Lines 5412 to 5557. *)
Definition lines_5412 : chunk := mkChunk
  [(231, mkState [] [If (Equal 46) (Go (St 232)) Fall] (St 0));
    (232, mkState [(2, St 233); (48, St 235); (49, St 249); (50, St 251)] [If (Within 51 57) (Go (St 250))
      Fall] (St 0));
    (233, mkState [] [If (Within 48 52) (Go (St 234)) Fall] (St 0));
    (234, mkState [] [If (Within 48 57) (Go (St 235)) Fall] (St 0));
    (235, mkState [] [If (Equal 46) (Go (St 236)) Fall] (St 0));
    (236, mkState [(2, St 237); (48, St 239); (49, St 245); (50, St 247)] [If (Within 51 57) (Go (St 246))
      Fall] (St 0));
    (237, mkState [] [If (Within 48 52) (Go (St 238)) Fall] (St 0));
    (238, mkState [] [If (Within 48 57) (Go (St 239)) Fall] (St 0));
    (239, mkState [] [If (Equal 46) (Go (St 240)) Fall] (St 0));
    (240, mkState [(2, St 241); (48, St 512); (49, St 516); (50, St 518)] [If (Within 51 57) (Go (St 517))
      Fall] (St 0));
    (241, mkState [] [If (Within 48 52) (Go (St 242)) Fall] (St 0));
    (242, mkState [] [If (Within 48 57) (Go (St 512)) Fall] (St 0));
    (512, mkState [(35, Tr 559); (47, Tr 560); (58, Tr 561); (63, Tr 562)] [] (St 0))]
  [(550, ([MarkH; SaveHost], 513));
    (567, ([MarkH; SavePort], 513));
    (560, ([SaveHost; MarkH], 513))].

(** Lines 5558 to 5694. *)
Definition lines_5558 : chunk := mkChunk
  [(513, mkState [(34, St 0); (35, Tr 563); (37, St 243); (60, St 0); (62, St 0); (63, Tr 565); (96, St 0);
      (127, St 0)] [If (Below 91) (If (Within 0 32) (Go (St 0)) Fall) (If (Above 94) (If (Within 123 125) (Go
      (St 0)) Fall) (Go (St 0)))] (St 513));
    (243, mkState [] [If (Below 65) (If (Within 48 57) (Go (St 244)) Fall) (If (Above 70) (If (Within 97 102)
      (Go (St 244)) Fall) (Go (St 244)))] (St 0));
    (244, mkState [] [If (Below 65) (If (Within 48 57) (Go (St 513)) Fall) (If (Above 70) (If (Within 97 102)
      (Go (St 513)) Fall) (Go (St 513)))] (St 0));
    (514, mkState [(35, Tr 566); (47, Tr 567); (63, Tr 569)] [If (Within 48 57) (Go (Tr 568)) Fall] (St 0));
    (515, mkState [(35, Tr 570); (47, Tr 571); (63, Tr 573)] [If (Within 48 57) (Go (St 515)) Fall] (St 0));
    (516, mkState [(35, Tr 559); (47, Tr 560); (58, Tr 561); (63, Tr 562)] [If (Within 48 57) (Go (St 517))
      Fall] (St 0));
    (517, mkState [(35, Tr 559); (47, Tr 560); (58, Tr 561); (63, Tr 562)] [If (Within 48 57) (Go (St 512))
      Fall] (St 0))]
  [(571, ([SavePort; MarkH], 513));
    (584, ([MarkH; SaveHost], 514));
    (561, ([SaveHost], 514));
    (568, ([MarkH], 515))].

(** Lines 5695 to 5831. *)
Definition lines_5695 : chunk := mkChunk
  [(518, mkState [(35, Tr 559); (47, Tr 560); (53, St 519); (58, Tr 561); (63, Tr 562)] [If (Within 48 57)
      (Go (St 512)) Fall] (St 0));
    (519, mkState [(35, Tr 559); (47, Tr 560); (58, Tr 561); (63, Tr 562)] [If (Within 48 53) (Go (St 512))
      Fall] (St 0));
    (245, mkState [] [If (Equal 46) (Go (St 240)) Fall; If (Within 48 57) (Go (St 246)) Fall] (St 0));
    (246, mkState [] [If (Equal 46) (Go (St 240)) Fall; If (Within 48 57) (Go (St 239)) Fall] (St 0));
    (247, mkState [(46, St 240); (53, St 248)] [If (Within 48 57) (Go (St 239)) Fall] (St 0));
    (248, mkState [] [If (Equal 46) (Go (St 240)) Fall; If (Within 48 53) (Go (St 239)) Fall] (St 0));
    (249, mkState [] [If (Equal 46) (Go (St 236)) Fall; If (Within 48 57) (Go (St 250)) Fall] (St 0));
    (250, mkState [] [If (Equal 46) (Go (St 236)) Fall; If (Within 48 57) (Go (St 235)) Fall] (St 0));
    (251, mkState [(46, St 236); (53, St 252)] [If (Within 48 57) (Go (St 235)) Fall] (St 0));
    (252, mkState [] [If (Equal 46) (Go (St 236)) Fall; If (Within 48 53) (Go (St 235)) Fall] (St 0));
    (520, mkState [(33, St 520); (35, Tr 559); (37, St 253); (47, Tr 560); (58, Tr 576); (61, St 520); (63, Tr
      562); (64, Tr 263); (95, St 520); (126, St 520)] [If (Below 65) (If (Within 36 59) (Go (St 520)) Fall)
      (If (Above 90) (If (Within 97 122) (Go (St 520)) Fall) (Go (St 520)))] (St 0))]
  [(547, ([MarkH], 520));
    (549, ([MarkH], 253))].

(** Lines 5832 to 5981. *)
Definition lines_5832 : chunk := mkChunk
  [(253, mkState [] [If (Below 65) (If (Within 48 57) (Go (St 254)) Fall) (If (Above 70) (If (Within 97 102)
      (Go (St 254)) Fall) (Go (St 254)))] (St 0));
    (254, mkState [] [If (Below 65) (If (Within 48 57) (Go (St 520)) Fall) (If (Above 70) (If (Within 97 102)
      (Go (St 520)) Fall) (Go (St 520)))] (St 0));
    (521, mkState [(33, St 255); (35, Tr 566); (37, St 256); (47, Tr 567); (61, St 255); (63, Tr 569); (64, Tr
      263); (95, St 255); (126, St 255)] [If (Below 58) (If (Above 46) (If (Within 48 57) (Go (Tr 577)) Fall)
      (If (AtLeast 36) (Go (St 255)) Fall)) (If (Above 59) (If (Above 90) (If (Within 97 122) (Go (St 255))
      Fall) (If (AtLeast 65) (Go (St 255)) Fall)) (Go (St 255)))] (St 0));
    (255, mkState [(33, St 255); (37, St 256); (61, St 255); (64, Tr 263); (95, St 255); (126, St 255)] [If
      (Below 48) (If (Within 36 46) (Go (St 255)) Fall) (If (Above 59) (If (Above 90) (If (Within 97 122) (Go
      (St 255)) Fall) (If (AtLeast 65) (Go (St 255)) Fall)) (Go (St 255)))] (St 0));
    (256, mkState [] [If (Below 65) (If (Within 48 57) (Go (St 257)) Fall) (If (Above 70) (If (Within 97 102)
      (Go (St 257)) Fall) (Go (St 257)))] (St 0));
    (257, mkState [] [If (Below 65) (If (Within 48 57) (Go (St 255)) Fall) (If (Above 70) (If (Within 97 102)
      (Go (St 255)) Fall) (Go (St 255)))] (St 0))]
  [(555, ([MarkH; SaveHost], 521));
    (576, ([SaveHost], 521));
    (263, ([SaveUserinfo], 522));
    (557, ([MarkH; SaveUserinfo], 522))].

(** Lines 5982 to 6105. *)
Definition lines_5982 : chunk := mkChunk
  [(522, mkState [(2, Tr 546); (33, Tr 578); (35, Tr 548); (37, Tr 579); (47, Tr 550); (48, Tr 580); (49, Tr
      581); (50, Tr 582); (58, Tr 584); (59, Tr 578); (61, Tr 578); (63, Tr 556); (91, Tr 558); (95, Tr 578);
      (126, Tr 578)] [If (Below 51) (If (Within 36 46) (Go (Tr 578)) Fall) (If (Above 57) (If (Above 90) (If
      (Within 97 122) (Go (Tr 578)) Fall) (If (AtLeast 65) (Go (Tr 578)) Fall)) (Go (Tr 583)))] (St 0));
    (523, mkState [(33, St 523); (35, Tr 559); (37, St 258); (47, Tr 560); (58, Tr 561); (61, St 523); (63, Tr
      562); (95, St 523); (126, St 523)] [If (Below 65) (If (Within 36 59) (Go (St 523)) Fall) (If (Above 90)
      (If (Within 97 122) (Go (St 523)) Fall) (Go (St 523)))] (St 0));
    (258, mkState [] [If (Below 65) (If (Within 48 57) (Go (St 259)) Fall) (If (Above 70) (If (Within 97 102)
      (Go (St 259)) Fall) (Go (St 259)))] (St 0));
    (259, mkState [] [If (Below 65) (If (Within 48 57) (Go (St 523)) Fall) (If (Above 70) (If (Within 97 102)
      (Go (St 523)) Fall) (Go (St 523)))] (St 0));
    (524, mkState [(33, St 523); (35, Tr 559); (37, St 258); (46, St 525); (47, Tr 560); (58, Tr 561); (61, St
      523); (63, Tr 562); (95, St 523); (126, St 523)] [If (Below 65) (If (Within 36 59) (Go (St 523)) Fall)
      (If (Above 90) (If (Within 97 122) (Go (St 523)) Fall) (Go (St 523)))] (St 0))]
  [(578, ([MarkH], 523));
    (579, ([MarkH], 258));
    (580, ([MarkH], 524))].

(** Lines 6106 to 6244. *)
Definition lines_6106 : chunk := mkChunk
  [(525, mkState [(2, St 233); (33, St 523); (35, Tr 559); (37, St 258); (47, Tr 560); (48, St 526); (49, St
      534); (50, St 536); (58, Tr 561); (59, St 523); (61, St 523); (63, Tr 562); (95, St 523); (126, St 523)]
      [If (Below 51) (If (Within 36 46) (Go (St 523)) Fall) (If (Above 57) (If (Above 90) (If (Within 97 122)
      (Go (St 523)) Fall) (If (AtLeast 65) (Go (St 523)) Fall)) (Go (St 535)))] (St 0));
    (526, mkState [(33, St 523); (35, Tr 559); (37, St 258); (46, St 527); (47, Tr 560); (58, Tr 561); (61, St
      523); (63, Tr 562); (95, St 523); (126, St 523)] [If (Below 65) (If (Within 36 59) (Go (St 523)) Fall)
      (If (Above 90) (If (Within 97 122) (Go (St 523)) Fall) (Go (St 523)))] (St 0));
    (527, mkState [(2, St 237); (33, St 523); (35, Tr 559); (37, St 258); (47, Tr 560); (48, St 528); (49, St
      530); (50, St 532); (58, Tr 561); (59, St 523); (61, St 523); (63, Tr 562); (95, St 523); (126, St 523)]
      [If (Below 51) (If (Within 36 46) (Go (St 523)) Fall) (If (Above 57) (If (Above 90) (If (Within 97 122)
      (Go (St 523)) Fall) (If (AtLeast 65) (Go (St 523)) Fall)) (Go (St 531)))] (St 0));
    (528, mkState [(33, St 523); (35, Tr 559); (37, St 258); (46, St 529); (47, Tr 560); (58, Tr 561); (61, St
      523); (63, Tr 562); (95, St 523); (126, St 523)] [If (Below 65) (If (Within 36 59) (Go (St 523)) Fall)
      (If (Above 90) (If (Within 97 122) (Go (St 523)) Fall) (Go (St 523)))] (St 0));
    (529, mkState [(2, St 241); (33, St 523); (35, Tr 559); (37, St 258); (47, Tr 560); (58, Tr 561); (61, St
      523); (63, Tr 562); (95, St 523); (126, St 523)] [If (Below 65) (If (Within 36 59) (Go (St 523)) Fall)
      (If (Above 90) (If (Within 97 122) (Go (St 523)) Fall) (Go (St 523)))] (St 0))]
  [].

(** Lines 6245 to 6392. *)
Definition lines_6245 : chunk := mkChunk
  [(530, mkState [(33, St 523); (35, Tr 559); (37, St 258); (46, St 529); (47, Tr 560); (58, Tr 561); (59, St
      523); (61, St 523); (63, Tr 562); (95, St 523); (126, St 523)] [If (Below 48) (If (Within 36 45) (Go (St
      523)) Fall) (If (Above 57) (If (Above 90) (If (Within 97 122) (Go (St 523)) Fall) (If (AtLeast 65) (Go
      (St 523)) Fall)) (Go (St 531)))] (St 0));
    (531, mkState [(33, St 523); (35, Tr 559); (37, St 258); (46, St 529); (47, Tr 560); (58, Tr 561); (59, St
      523); (61, St 523); (63, Tr 562); (95, St 523); (126, St 523)] [If (Below 48) (If (Within 36 45) (Go (St
      523)) Fall) (If (Above 57) (If (Above 90) (If (Within 97 122) (Go (St 523)) Fall) (If (AtLeast 65) (Go
      (St 523)) Fall)) (Go (St 528)))] (St 0));
    (532, mkState [(33, St 523); (35, Tr 559); (37, St 258); (46, St 529); (47, Tr 560); (53, St 533); (58, Tr
      561); (59, St 523); (61, St 523); (63, Tr 562); (95, St 523); (126, St 523)] [If (Below 48) (If (Within
      36 45) (Go (St 523)) Fall) (If (Above 57) (If (Above 90) (If (Within 97 122) (Go (St 523)) Fall) (If
      (AtLeast 65) (Go (St 523)) Fall)) (Go (St 528)))] (St 0));
    (533, mkState [(33, St 523); (35, Tr 559); (37, St 258); (46, St 529); (47, Tr 560); (58, Tr 561); (61, St
      523); (63, Tr 562); (95, St 523); (126, St 523)] [If (Below 54) (If (Above 45) (If (Within 48 53) (Go
      (St 528)) Fall) (If (AtLeast 36) (Go (St 523)) Fall)) (If (Above 59) (If (Above 90) (If (Within 97 122)
      (Go (St 523)) Fall) (If (AtLeast 65) (Go (St 523)) Fall)) (Go (St 523)))] (St 0));
    (534, mkState [(33, St 523); (35, Tr 559); (37, St 258); (46, St 527); (47, Tr 560); (58, Tr 561); (59, St
      523); (61, St 523); (63, Tr 562); (95, St 523); (126, St 523)] [If (Below 48) (If (Within 36 45) (Go (St
      523)) Fall) (If (Above 57) (If (Above 90) (If (Within 97 122) (Go (St 523)) Fall) (If (AtLeast 65) (Go
      (St 523)) Fall)) (Go (St 535)))] (St 0))]
  [].

(** Lines 6393 to 6520. *)
Definition lines_6393 : chunk := mkChunk
  [(535, mkState [(33, St 523); (35, Tr 559); (37, St 258); (46, St 527); (47, Tr 560); (58, Tr 561); (59, St
      523); (61, St 523); (63, Tr 562); (95, St 523); (126, St 523)] [If (Below 48) (If (Within 36 45) (Go (St
      523)) Fall) (If (Above 57) (If (Above 90) (If (Within 97 122) (Go (St 523)) Fall) (If (AtLeast 65) (Go
      (St 523)) Fall)) (Go (St 526)))] (St 0));
    (536, mkState [(33, St 523); (35, Tr 559); (37, St 258); (46, St 527); (47, Tr 560); (53, St 537); (58, Tr
      561); (59, St 523); (61, St 523); (63, Tr 562); (95, St 523); (126, St 523)] [If (Below 48) (If (Within
      36 45) (Go (St 523)) Fall) (If (Above 57) (If (Above 90) (If (Within 97 122) (Go (St 523)) Fall) (If
      (AtLeast 65) (Go (St 523)) Fall)) (Go (St 526)))] (St 0));
    (537, mkState [(33, St 523); (35, Tr 559); (37, St 258); (46, St 527); (47, Tr 560); (58, Tr 561); (61, St
      523); (63, Tr 562); (95, St 523); (126, St 523)] [If (Below 54) (If (Above 45) (If (Within 48 53) (Go
      (St 526)) Fall) (If (AtLeast 36) (Go (St 523)) Fall)) (If (Above 59) (If (Above 90) (If (Within 97 122)
      (Go (St 523)) Fall) (If (AtLeast 65) (Go (St 523)) Fall)) (Go (St 523)))] (St 0));
    (538, mkState [(33, St 523); (35, Tr 559); (37, St 258); (46, St 525); (47, Tr 560); (58, Tr 561); (59, St
      523); (61, St 523); (63, Tr 562); (95, St 523); (126, St 523)] [If (Below 48) (If (Within 36 45) (Go (St
      523)) Fall) (If (Above 57) (If (Above 90) (If (Within 97 122) (Go (St 523)) Fall) (If (AtLeast 65) (Go
      (St 523)) Fall)) (Go (St 539)))] (St 0))]
  [(581, ([MarkH], 538));
    (583, ([MarkH], 539))].

(** Lines 6521 to 6668. *)
Definition lines_6521 : chunk := mkChunk
  [(539, mkState [(33, St 523); (35, Tr 559); (37, St 258); (46, St 525); (47, Tr 560); (58, Tr 561); (59, St
      523); (61, St 523); (63, Tr 562); (95, St 523); (126, St 523)] [If (Below 48) (If (Within 36 45) (Go (St
      523)) Fall) (If (Above 57) (If (Above 90) (If (Within 97 122) (Go (St 523)) Fall) (If (AtLeast 65) (Go
      (St 523)) Fall)) (Go (St 524)))] (St 0));
    (540, mkState [(33, St 523); (35, Tr 559); (37, St 258); (46, St 525); (47, Tr 560); (53, St 541); (58, Tr
      561); (59, St 523); (61, St 523); (63, Tr 562); (95, St 523); (126, St 523)] [If (Below 48) (If (Within
      36 45) (Go (St 523)) Fall) (If (Above 57) (If (Above 90) (If (Within 97 122) (Go (St 523)) Fall) (If
      (AtLeast 65) (Go (St 523)) Fall)) (Go (St 524)))] (St 0));
    (541, mkState [(33, St 523); (35, Tr 559); (37, St 258); (46, St 525); (47, Tr 560); (58, Tr 561); (61, St
      523); (63, Tr 562); (95, St 523); (126, St 523)] [If (Below 54) (If (Above 45) (If (Within 48 53) (Go
      (St 524)) Fall) (If (AtLeast 36) (Go (St 523)) Fall)) (If (Above 59) (If (Above 90) (If (Within 97 122)
      (Go (St 523)) Fall) (If (AtLeast 65) (Go (St 523)) Fall)) (Go (St 523)))] (St 0));
    (260, mkState [(58, St 368); (118, St 447)] [If (Below 65) (If (Within 48 57) (Go (St 261)) Fall) (If
      (Above 70) (If (Within 97 102) (Go (St 261)) Fall) (Go (St 261)))] (St 0));
    (261, mkState [] [If (Equal 58) (Go (St 265)) Fall; If (Below 65) (If (Within 48 57) (Go (St 262)) Fall)
      (If (Above 70) (If (Within 97 102) (Go (St 262)) Fall) (Go (St 262)))] (St 0));
    (262, mkState [] [If (Equal 58) (Go (St 265)) Fall; If (Below 65) (If (Within 48 57) (Go (St 263)) Fall)
      (If (Above 70) (If (Within 97 102) (Go (St 263)) Fall) (Go (St 263)))] (St 0))]
  [(582, ([MarkH], 540));
    (558, ([MarkH], 260))].

(** Lines 6669 to 6817. *)
Definition lines_6669 : chunk := mkChunk
  [(263, mkState [] [If (Equal 58) (Go (St 265)) Fall; If (Below 65) (If (Within 48 57) (Go (St 264)) Fall)
      (If (Above 70) (If (Within 97 102) (Go (St 264)) Fall) (Go (St 264)))] (St 0));
    (264, mkState [] [If (Equal 58) (Go (St 265)) Fall] (St 0));
    (265, mkState [] [If (Equal 58) (Go (St 363)) Fall; If (Below 65) (If (Within 48 57) (Go (St 266)) Fall)
      (If (Above 70) (If (Within 97 102) (Go (St 266)) Fall) (Go (St 266)))] (St 0));
    (266, mkState [] [If (Equal 58) (Go (St 270)) Fall; If (Below 65) (If (Within 48 57) (Go (St 267)) Fall)
      (If (Above 70) (If (Within 97 102) (Go (St 267)) Fall) (Go (St 267)))] (St 0));
    (267, mkState [] [If (Equal 58) (Go (St 270)) Fall; If (Below 65) (If (Within 48 57) (Go (St 268)) Fall)
      (If (Above 70) (If (Within 97 102) (Go (St 268)) Fall) (Go (St 268)))] (St 0));
    (268, mkState [] [If (Equal 58) (Go (St 270)) Fall; If (Below 65) (If (Within 48 57) (Go (St 269)) Fall)
      (If (Above 70) (If (Within 97 102) (Go (St 269)) Fall) (Go (St 269)))] (St 0));
    (269, mkState [] [If (Equal 58) (Go (St 270)) Fall] (St 0));
    (270, mkState [] [If (Equal 58) (Go (St 358)) Fall; If (Below 65) (If (Within 48 57) (Go (St 271)) Fall)
      (If (Above 70) (If (Within 97 102) (Go (St 271)) Fall) (Go (St 271)))] (St 0));
    (271, mkState [] [If (Equal 58) (Go (St 275)) Fall; If (Below 65) (If (Within 48 57) (Go (St 272)) Fall)
      (If (Above 70) (If (Within 97 102) (Go (St 272)) Fall) (Go (St 272)))] (St 0));
    (272, mkState [] [If (Equal 58) (Go (St 275)) Fall; If (Below 65) (If (Within 48 57) (Go (St 273)) Fall)
      (If (Above 70) (If (Within 97 102) (Go (St 273)) Fall) (Go (St 273)))] (St 0));
    (273, mkState [] [If (Equal 58) (Go (St 275)) Fall; If (Below 65) (If (Within 48 57) (Go (St 274)) Fall)
      (If (Above 70) (If (Within 97 102) (Go (St 274)) Fall) (Go (St 274)))] (St 0))]
  [].

(** Lines 6818 to 6958. *)
Definition lines_6818 : chunk := mkChunk
  [(274, mkState [] [If (Equal 58) (Go (St 275)) Fall] (St 0));
    (275, mkState [] [If (Equal 58) (Go (St 353)) Fall; If (Below 65) (If (Within 48 57) (Go (St 276)) Fall)
      (If (Above 70) (If (Within 97 102) (Go (St 276)) Fall) (Go (St 276)))] (St 0));
    (276, mkState [] [If (Equal 58) (Go (St 280)) Fall; If (Below 65) (If (Within 48 57) (Go (St 277)) Fall)
      (If (Above 70) (If (Within 97 102) (Go (St 277)) Fall) (Go (St 277)))] (St 0));
    (277, mkState [] [If (Equal 58) (Go (St 280)) Fall; If (Below 65) (If (Within 48 57) (Go (St 278)) Fall)
      (If (Above 70) (If (Within 97 102) (Go (St 278)) Fall) (Go (St 278)))] (St 0));
    (278, mkState [] [If (Equal 58) (Go (St 280)) Fall; If (Below 65) (If (Within 48 57) (Go (St 279)) Fall)
      (If (Above 70) (If (Within 97 102) (Go (St 279)) Fall) (Go (St 279)))] (St 0));
    (279, mkState [] [If (Equal 58) (Go (St 280)) Fall] (St 0));
    (280, mkState [] [If (Equal 58) (Go (St 348)) Fall; If (Below 65) (If (Within 48 57) (Go (St 281)) Fall)
      (If (Above 70) (If (Within 97 102) (Go (St 281)) Fall) (Go (St 281)))] (St 0));
    (281, mkState [] [If (Equal 58) (Go (St 285)) Fall; If (Below 65) (If (Within 48 57) (Go (St 282)) Fall)
      (If (Above 70) (If (Within 97 102) (Go (St 282)) Fall) (Go (St 282)))] (St 0));
    (282, mkState [] [If (Equal 58) (Go (St 285)) Fall; If (Below 65) (If (Within 48 57) (Go (St 283)) Fall)
      (If (Above 70) (If (Within 97 102) (Go (St 283)) Fall) (Go (St 283)))] (St 0));
    (283, mkState [] [If (Equal 58) (Go (St 285)) Fall; If (Below 65) (If (Within 48 57) (Go (St 284)) Fall)
      (If (Above 70) (If (Within 97 102) (Go (St 284)) Fall) (Go (St 284)))] (St 0));
    (284, mkState [] [If (Equal 58) (Go (St 285)) Fall] (St 0))]
  [].

(** Lines 6959 to 7100. *)
Definition lines_6959 : chunk := mkChunk
  [(285, mkState [] [If (Equal 58) (Go (St 335)) Fall; If (Below 65) (If (Within 48 57) (Go (St 286)) Fall)
      (If (Above 70) (If (Within 97 102) (Go (St 286)) Fall) (Go (St 286)))] (St 0));
    (286, mkState [] [If (Equal 58) (Go (St 290)) Fall; If (Below 65) (If (Within 48 57) (Go (St 287)) Fall)
      (If (Above 70) (If (Within 97 102) (Go (St 287)) Fall) (Go (St 287)))] (St 0));
    (287, mkState [] [If (Equal 58) (Go (St 290)) Fall; If (Below 65) (If (Within 48 57) (Go (St 288)) Fall)
      (If (Above 70) (If (Within 97 102) (Go (St 288)) Fall) (Go (St 288)))] (St 0));
    (288, mkState [] [If (Equal 58) (Go (St 290)) Fall; If (Below 65) (If (Within 48 57) (Go (St 289)) Fall)
      (If (Above 70) (If (Within 97 102) (Go (St 289)) Fall) (Go (St 289)))] (St 0));
    (289, mkState [] [If (Equal 58) (Go (St 290)) Fall] (St 0));
    (290, mkState [(2, St 291); (48, St 318); (49, St 326); (50, St 329); (58, St 333)] [If (Below 65) (If
      (Within 51 57) (Go (St 332)) Fall) (If (Above 70) (If (Within 97 102) (Go (St 334)) Fall) (Go (St
      334)))] (St 0));
    (291, mkState [] [If (Within 48 52) (Go (St 292)) Fall] (St 0));
    (292, mkState [] [If (Within 48 57) (Go (St 293)) Fall] (St 0));
    (293, mkState [] [If (Equal 46) (Go (St 294)) Fall] (St 0));
    (294, mkState [(2, St 295); (48, St 297); (49, St 314); (50, St 316)] [If (Within 51 57) (Go (St 315))
      Fall] (St 0));
    (295, mkState [] [If (Within 48 52) (Go (St 296)) Fall] (St 0));
    (296, mkState [] [If (Within 48 57) (Go (St 297)) Fall] (St 0));
    (297, mkState [] [If (Equal 46) (Go (St 298)) Fall] (St 0))]
  [].

(** Lines 7101 to 7244. *)
Definition lines_7101 : chunk := mkChunk
  [(298, mkState [(2, St 299); (48, St 301); (49, St 310); (50, St 312)] [If (Within 51 57) (Go (St 311))
      Fall] (St 0));
    (299, mkState [] [If (Within 48 52) (Go (St 300)) Fall] (St 0));
    (300, mkState [] [If (Within 48 57) (Go (St 301)) Fall] (St 0));
    (301, mkState [] [If (Equal 46) (Go (St 302)) Fall] (St 0));
    (302, mkState [(2, St 303); (48, St 305); (49, St 306); (50, St 308)] [If (Within 51 57) (Go (St 307))
      Fall] (St 0));
    (303, mkState [] [If (Within 48 52) (Go (St 304)) Fall] (St 0));
    (304, mkState [] [If (Within 48 57) (Go (St 305)) Fall] (St 0));
    (305, mkState [] [If (Equal 93) (Go (St 512)) Fall] (St 0));
    (306, mkState [] [If (Equal 93) (Go (St 512)) Fall; If (Within 48 57) (Go (St 307)) Fall] (St 0));
    (307, mkState [] [If (Equal 93) (Go (St 512)) Fall; If (Within 48 57) (Go (St 305)) Fall] (St 0));
    (308, mkState [(53, St 309); (93, St 512)] [If (Within 48 57) (Go (St 305)) Fall] (St 0));
    (309, mkState [] [If (Equal 93) (Go (St 512)) Fall; If (Within 48 53) (Go (St 305)) Fall] (St 0));
    (310, mkState [] [If (Equal 46) (Go (St 302)) Fall; If (Within 48 57) (Go (St 311)) Fall] (St 0));
    (311, mkState [] [If (Equal 46) (Go (St 302)) Fall; If (Within 48 57) (Go (St 301)) Fall] (St 0));
    (312, mkState [(46, St 302); (53, St 313)] [If (Within 48 57) (Go (St 301)) Fall] (St 0));
    (313, mkState [] [If (Equal 46) (Go (St 302)) Fall; If (Within 48 53) (Go (St 301)) Fall] (St 0))]
  [].

(** Lines 7245 to 7381. *)
Definition lines_7245 : chunk := mkChunk
  [(314, mkState [] [If (Equal 46) (Go (St 298)) Fall; If (Within 48 57) (Go (St 315)) Fall] (St 0));
    (315, mkState [] [If (Equal 46) (Go (St 298)) Fall; If (Within 48 57) (Go (St 297)) Fall] (St 0));
    (316, mkState [(46, St 298); (53, St 317)] [If (Within 48 57) (Go (St 297)) Fall] (St 0));
    (317, mkState [] [If (Equal 46) (Go (St 298)) Fall; If (Within 48 53) (Go (St 297)) Fall] (St 0));
    (318, mkState [(46, St 294); (58, St 322)] [If (Below 65) (If (Within 48 57) (Go (St 319)) Fall) (If
      (Above 70) (If (Within 97 102) (Go (St 319)) Fall) (Go (St 319)))] (St 0));
    (319, mkState [] [If (Equal 58) (Go (St 322)) Fall; If (Below 65) (If (Within 48 57) (Go (St 320)) Fall)
      (If (Above 70) (If (Within 97 102) (Go (St 320)) Fall) (Go (St 320)))] (St 0));
    (320, mkState [] [If (Equal 58) (Go (St 322)) Fall; If (Below 65) (If (Within 48 57) (Go (St 321)) Fall)
      (If (Above 70) (If (Within 97 102) (Go (St 321)) Fall) (Go (St 321)))] (St 0));
    (321, mkState [] [If (Equal 58) (Go (St 322)) Fall] (St 0));
    (322, mkState [] [If (Equal 58) (Go (St 305)) Fall; If (Below 65) (If (Within 48 57) (Go (St 323)) Fall)
      (If (Above 70) (If (Within 97 102) (Go (St 323)) Fall) (Go (St 323)))] (St 0));
    (323, mkState [] [If (Equal 93) (Go (St 512)) Fall; If (Below 65) (If (Within 48 57) (Go (St 324)) Fall)
      (If (Above 70) (If (Within 97 102) (Go (St 324)) Fall) (Go (St 324)))] (St 0));
    (324, mkState [] [If (Equal 93) (Go (St 512)) Fall; If (Below 65) (If (Within 48 57) (Go (St 325)) Fall)
      (If (Above 70) (If (Within 97 102) (Go (St 325)) Fall) (Go (St 325)))] (St 0))]
  [].

(** Lines 7382 to 7519. *)
Definition lines_7382 : chunk := mkChunk
  [(325, mkState [] [If (Equal 93) (Go (St 512)) Fall; If (Below 65) (If (Within 48 57) (Go (St 305)) Fall)
      (If (Above 70) (If (Within 97 102) (Go (St 305)) Fall) (Go (St 305)))] (St 0));
    (326, mkState [(46, St 294); (58, St 322)] [If (Below 65) (If (Within 48 57) (Go (St 327)) Fall) (If
      (Above 70) (If (Within 97 102) (Go (St 319)) Fall) (Go (St 319)))] (St 0));
    (327, mkState [(46, St 294); (58, St 322)] [If (Below 65) (If (Within 48 57) (Go (St 328)) Fall) (If
      (Above 70) (If (Within 97 102) (Go (St 320)) Fall) (Go (St 320)))] (St 0));
    (328, mkState [(46, St 294); (58, St 322)] [If (Below 65) (If (Within 48 57) (Go (St 321)) Fall) (If
      (Above 70) (If (Within 97 102) (Go (St 321)) Fall) (Go (St 321)))] (St 0));
    (329, mkState [(46, St 294); (53, St 331); (58, St 322)] [If (Below 65) (If (Within 48 57) (Go (St 330))
      Fall) (If (Above 70) (If (Within 97 102) (Go (St 319)) Fall) (Go (St 319)))] (St 0));
    (330, mkState [(46, St 294); (58, St 322)] [If (Below 65) (If (Within 48 57) (Go (St 320)) Fall) (If
      (Above 70) (If (Within 97 102) (Go (St 320)) Fall) (Go (St 320)))] (St 0));
    (331, mkState [(46, St 294); (58, St 322)] [If (Below 54) (If (Within 48 53) (Go (St 328)) Fall) (If
      (Above 57) (If (Above 70) (If (Within 97 102) (Go (St 320)) Fall) (If (AtLeast 65) (Go (St 320)) Fall))
      (Go (St 320)))] (St 0));
    (332, mkState [(46, St 294); (58, St 322)] [If (Below 65) (If (Within 48 57) (Go (St 330)) Fall) (If
      (Above 70) (If (Within 97 102) (Go (St 319)) Fall) (Go (St 319)))] (St 0))]
  [].

(** Lines 7520 to 7654. *)
Definition lines_7520 : chunk := mkChunk
  [(333, mkState [] [If (Below 65) (If (Within 48 57) (Go (St 323)) Fall) (If (Above 70) (If (Within 97 102)
      (Go (St 323)) Fall) (Go (St 323)))] (St 0));
    (334, mkState [] [If (Equal 58) (Go (St 322)) Fall; If (Below 65) (If (Within 48 57) (Go (St 319)) Fall)
      (If (Above 70) (If (Within 97 102) (Go (St 319)) Fall) (Go (St 319)))] (St 0));
    (335, mkState [(2, St 291); (48, St 336); (49, St 340); (50, St 343)] [If (Below 65) (If (Within 51 57)
      (Go (St 346)) Fall) (If (Above 70) (If (Within 97 102) (Go (St 347)) Fall) (Go (St 347)))] (St 0));
    (336, mkState [(46, St 294); (58, St 333)] [If (Below 65) (If (Within 48 57) (Go (St 337)) Fall) (If
      (Above 70) (If (Within 97 102) (Go (St 337)) Fall) (Go (St 337)))] (St 0));
    (337, mkState [] [If (Equal 58) (Go (St 333)) Fall; If (Below 65) (If (Within 48 57) (Go (St 338)) Fall)
      (If (Above 70) (If (Within 97 102) (Go (St 338)) Fall) (Go (St 338)))] (St 0));
    (338, mkState [] [If (Equal 58) (Go (St 333)) Fall; If (Below 65) (If (Within 48 57) (Go (St 339)) Fall)
      (If (Above 70) (If (Within 97 102) (Go (St 339)) Fall) (Go (St 339)))] (St 0));
    (339, mkState [] [If (Equal 58) (Go (St 333)) Fall] (St 0));
    (340, mkState [(46, St 294); (58, St 333)] [If (Below 65) (If (Within 48 57) (Go (St 341)) Fall) (If
      (Above 70) (If (Within 97 102) (Go (St 337)) Fall) (Go (St 337)))] (St 0));
    (341, mkState [(46, St 294); (58, St 333)] [If (Below 65) (If (Within 48 57) (Go (St 342)) Fall) (If
      (Above 70) (If (Within 97 102) (Go (St 338)) Fall) (Go (St 338)))] (St 0))]
  [].

(** Lines 7655 to 7801. *)
Definition lines_7655 : chunk := mkChunk
  [(342, mkState [(46, St 294); (58, St 333)] [If (Below 65) (If (Within 48 57) (Go (St 339)) Fall) (If
      (Above 70) (If (Within 97 102) (Go (St 339)) Fall) (Go (St 339)))] (St 0));
    (343, mkState [(46, St 294); (53, St 345); (58, St 333)] [If (Below 65) (If (Within 48 57) (Go (St 344))
      Fall) (If (Above 70) (If (Within 97 102) (Go (St 337)) Fall) (Go (St 337)))] (St 0));
    (344, mkState [(46, St 294); (58, St 333)] [If (Below 65) (If (Within 48 57) (Go (St 338)) Fall) (If
      (Above 70) (If (Within 97 102) (Go (St 338)) Fall) (Go (St 338)))] (St 0));
    (345, mkState [(46, St 294); (58, St 333)] [If (Below 54) (If (Within 48 53) (Go (St 342)) Fall) (If
      (Above 57) (If (Above 70) (If (Within 97 102) (Go (St 338)) Fall) (If (AtLeast 65) (Go (St 338)) Fall))
      (Go (St 338)))] (St 0));
    (346, mkState [(46, St 294); (58, St 333)] [If (Below 65) (If (Within 48 57) (Go (St 344)) Fall) (If
      (Above 70) (If (Within 97 102) (Go (St 337)) Fall) (Go (St 337)))] (St 0));
    (347, mkState [] [If (Equal 58) (Go (St 333)) Fall; If (Below 65) (If (Within 48 57) (Go (St 337)) Fall)
      (If (Above 70) (If (Within 97 102) (Go (St 337)) Fall) (Go (St 337)))] (St 0));
    (348, mkState [] [If (Below 65) (If (Within 48 57) (Go (St 349)) Fall) (If (Above 70) (If (Within 97 102)
      (Go (St 349)) Fall) (Go (St 349)))] (St 0));
    (349, mkState [] [If (Equal 58) (Go (St 335)) Fall; If (Below 65) (If (Within 48 57) (Go (St 350)) Fall)
      (If (Above 70) (If (Within 97 102) (Go (St 350)) Fall) (Go (St 350)))] (St 0));
    (350, mkState [] [If (Equal 58) (Go (St 335)) Fall; If (Below 65) (If (Within 48 57) (Go (St 351)) Fall)
      (If (Above 70) (If (Within 97 102) (Go (St 351)) Fall) (Go (St 351)))] (St 0))]
  [].

(** Lines 7802 to 7946. *)
Definition lines_7802 : chunk := mkChunk
  [(351, mkState [] [If (Equal 58) (Go (St 335)) Fall; If (Below 65) (If (Within 48 57) (Go (St 352)) Fall)
      (If (Above 70) (If (Within 97 102) (Go (St 352)) Fall) (Go (St 352)))] (St 0));
    (352, mkState [] [If (Equal 58) (Go (St 335)) Fall] (St 0));
    (353, mkState [] [If (Below 65) (If (Within 48 57) (Go (St 354)) Fall) (If (Above 70) (If (Within 97 102)
      (Go (St 354)) Fall) (Go (St 354)))] (St 0));
    (354, mkState [] [If (Equal 58) (Go (St 348)) Fall; If (Below 65) (If (Within 48 57) (Go (St 355)) Fall)
      (If (Above 70) (If (Within 97 102) (Go (St 355)) Fall) (Go (St 355)))] (St 0));
    (355, mkState [] [If (Equal 58) (Go (St 348)) Fall; If (Below 65) (If (Within 48 57) (Go (St 356)) Fall)
      (If (Above 70) (If (Within 97 102) (Go (St 356)) Fall) (Go (St 356)))] (St 0));
    (356, mkState [] [If (Equal 58) (Go (St 348)) Fall; If (Below 65) (If (Within 48 57) (Go (St 357)) Fall)
      (If (Above 70) (If (Within 97 102) (Go (St 357)) Fall) (Go (St 357)))] (St 0));
    (357, mkState [] [If (Equal 58) (Go (St 348)) Fall] (St 0));
    (358, mkState [] [If (Below 65) (If (Within 48 57) (Go (St 359)) Fall) (If (Above 70) (If (Within 97 102)
      (Go (St 359)) Fall) (Go (St 359)))] (St 0));
    (359, mkState [] [If (Equal 58) (Go (St 353)) Fall; If (Below 65) (If (Within 48 57) (Go (St 360)) Fall)
      (If (Above 70) (If (Within 97 102) (Go (St 360)) Fall) (Go (St 360)))] (St 0));
    (360, mkState [] [If (Equal 58) (Go (St 353)) Fall; If (Below 65) (If (Within 48 57) (Go (St 361)) Fall)
      (If (Above 70) (If (Within 97 102) (Go (St 361)) Fall) (Go (St 361)))] (St 0));
    (361, mkState [] [If (Equal 58) (Go (St 353)) Fall; If (Below 65) (If (Within 48 57) (Go (St 362)) Fall)
      (If (Above 70) (If (Within 97 102) (Go (St 362)) Fall) (Go (St 362)))] (St 0))]
  [].

(** Lines 7947 to 8080. *)
Definition lines_7947 : chunk := mkChunk
  [(362, mkState [] [If (Equal 58) (Go (St 353)) Fall] (St 0));
    (363, mkState [] [If (Below 65) (If (Within 48 57) (Go (St 364)) Fall) (If (Above 70) (If (Within 97 102)
      (Go (St 364)) Fall) (Go (St 364)))] (St 0));
    (364, mkState [] [If (Equal 58) (Go (St 358)) Fall; If (Below 65) (If (Within 48 57) (Go (St 365)) Fall)
      (If (Above 70) (If (Within 97 102) (Go (St 365)) Fall) (Go (St 365)))] (St 0));
    (365, mkState [] [If (Equal 58) (Go (St 358)) Fall; If (Below 65) (If (Within 48 57) (Go (St 366)) Fall)
      (If (Above 70) (If (Within 97 102) (Go (St 366)) Fall) (Go (St 366)))] (St 0));
    (366, mkState [] [If (Equal 58) (Go (St 358)) Fall; If (Below 65) (If (Within 48 57) (Go (St 367)) Fall)
      (If (Above 70) (If (Within 97 102) (Go (St 367)) Fall) (Go (St 367)))] (St 0));
    (367, mkState [] [If (Equal 58) (Go (St 358)) Fall] (St 0));
    (368, mkState [] [If (Equal 58) (Go (St 369)) Fall] (St 0));
    (369, mkState [(2, St 291); (48, St 370); (49, St 439); (50, St 442); (93, St 512)] [If (Below 65) (If
      (Within 51 57) (Go (St 445)) Fall) (If (Above 70) (If (Within 97 102) (Go (St 446)) Fall) (Go (St
      446)))] (St 0));
    (370, mkState [(46, St 294); (58, St 374); (93, St 512)] [If (Below 65) (If (Within 48 57) (Go (St 371))
      Fall) (If (Above 70) (If (Within 97 102) (Go (St 371)) Fall) (Go (St 371)))] (St 0));
    (371, mkState [(58, St 374); (93, St 512)] [If (Below 65) (If (Within 48 57) (Go (St 372)) Fall) (If
      (Above 70) (If (Within 97 102) (Go (St 372)) Fall) (Go (St 372)))] (St 0))]
  [].

(** Lines 8081 to 8223. *)
Definition lines_8081 : chunk := mkChunk
  [(372, mkState [(58, St 374); (93, St 512)] [If (Below 65) (If (Within 48 57) (Go (St 373)) Fall) (If
      (Above 70) (If (Within 97 102) (Go (St 373)) Fall) (Go (St 373)))] (St 0));
    (373, mkState [(58, St 374); (93, St 512)] [] (St 0));
    (374, mkState [(2, St 291); (48, St 375); (49, St 431); (50, St 434)] [If (Below 65) (If (Within 51 57)
      (Go (St 437)) Fall) (If (Above 70) (If (Within 97 102) (Go (St 438)) Fall) (Go (St 438)))] (St 0));
    (375, mkState [(46, St 294); (58, St 379); (93, St 512)] [If (Below 65) (If (Within 48 57) (Go (St 376))
      Fall) (If (Above 70) (If (Within 97 102) (Go (St 376)) Fall) (Go (St 376)))] (St 0));
    (376, mkState [(58, St 379); (93, St 512)] [If (Below 65) (If (Within 48 57) (Go (St 377)) Fall) (If
      (Above 70) (If (Within 97 102) (Go (St 377)) Fall) (Go (St 377)))] (St 0));
    (377, mkState [(58, St 379); (93, St 512)] [If (Below 65) (If (Within 48 57) (Go (St 378)) Fall) (If
      (Above 70) (If (Within 97 102) (Go (St 378)) Fall) (Go (St 378)))] (St 0));
    (378, mkState [(58, St 379); (93, St 512)] [] (St 0));
    (379, mkState [(2, St 291); (48, St 380); (49, St 423); (50, St 426)] [If (Below 65) (If (Within 51 57)
      (Go (St 429)) Fall) (If (Above 70) (If (Within 97 102) (Go (St 430)) Fall) (Go (St 430)))] (St 0));
    (380, mkState [(46, St 294); (58, St 384); (93, St 512)] [If (Below 65) (If (Within 48 57) (Go (St 381))
      Fall) (If (Above 70) (If (Within 97 102) (Go (St 381)) Fall) (Go (St 381)))] (St 0))]
  [].

(** Lines 8224 to 8365. *)
Definition lines_8224 : chunk := mkChunk
  [(381, mkState [(58, St 384); (93, St 512)] [If (Below 65) (If (Within 48 57) (Go (St 382)) Fall) (If
      (Above 70) (If (Within 97 102) (Go (St 382)) Fall) (Go (St 382)))] (St 0));
    (382, mkState [(58, St 384); (93, St 512)] [If (Below 65) (If (Within 48 57) (Go (St 383)) Fall) (If
      (Above 70) (If (Within 97 102) (Go (St 383)) Fall) (Go (St 383)))] (St 0));
    (383, mkState [(58, St 384); (93, St 512)] [] (St 0));
    (384, mkState [(2, St 291); (48, St 385); (49, St 415); (50, St 418)] [If (Below 65) (If (Within 51 57)
      (Go (St 421)) Fall) (If (Above 70) (If (Within 97 102) (Go (St 422)) Fall) (Go (St 422)))] (St 0));
    (385, mkState [(46, St 294); (58, St 389); (93, St 512)] [If (Below 65) (If (Within 48 57) (Go (St 386))
      Fall) (If (Above 70) (If (Within 97 102) (Go (St 386)) Fall) (Go (St 386)))] (St 0));
    (386, mkState [(58, St 389); (93, St 512)] [If (Below 65) (If (Within 48 57) (Go (St 387)) Fall) (If
      (Above 70) (If (Within 97 102) (Go (St 387)) Fall) (Go (St 387)))] (St 0));
    (387, mkState [(58, St 389); (93, St 512)] [If (Below 65) (If (Within 48 57) (Go (St 388)) Fall) (If
      (Above 70) (If (Within 97 102) (Go (St 388)) Fall) (Go (St 388)))] (St 0));
    (388, mkState [(58, St 389); (93, St 512)] [] (St 0));
    (389, mkState [(2, St 291); (48, St 390); (49, St 407); (50, St 410)] [If (Below 65) (If (Within 51 57)
      (Go (St 413)) Fall) (If (Above 70) (If (Within 97 102) (Go (St 414)) Fall) (Go (St 414)))] (St 0))]
  [].

(** Lines 8366 to 8506. *)
Definition lines_8366 : chunk := mkChunk
  [(390, mkState [(46, St 294); (58, St 394); (93, St 512)] [If (Below 65) (If (Within 48 57) (Go (St 391))
      Fall) (If (Above 70) (If (Within 97 102) (Go (St 391)) Fall) (Go (St 391)))] (St 0));
    (391, mkState [(58, St 394); (93, St 512)] [If (Below 65) (If (Within 48 57) (Go (St 392)) Fall) (If
      (Above 70) (If (Within 97 102) (Go (St 392)) Fall) (Go (St 392)))] (St 0));
    (392, mkState [(58, St 394); (93, St 512)] [If (Below 65) (If (Within 48 57) (Go (St 393)) Fall) (If
      (Above 70) (If (Within 97 102) (Go (St 393)) Fall) (Go (St 393)))] (St 0));
    (393, mkState [(58, St 394); (93, St 512)] [] (St 0));
    (394, mkState [(2, St 291); (48, St 395); (49, St 399); (50, St 402)] [If (Below 65) (If (Within 51 57)
      (Go (St 405)) Fall) (If (Above 70) (If (Within 97 102) (Go (St 406)) Fall) (Go (St 406)))] (St 0));
    (395, mkState [(46, St 294); (58, St 333); (93, St 512)] [If (Below 65) (If (Within 48 57) (Go (St 396))
      Fall) (If (Above 70) (If (Within 97 102) (Go (St 396)) Fall) (Go (St 396)))] (St 0));
    (396, mkState [(58, St 333); (93, St 512)] [If (Below 65) (If (Within 48 57) (Go (St 397)) Fall) (If
      (Above 70) (If (Within 97 102) (Go (St 397)) Fall) (Go (St 397)))] (St 0));
    (397, mkState [(58, St 333); (93, St 512)] [If (Below 65) (If (Within 48 57) (Go (St 398)) Fall) (If
      (Above 70) (If (Within 97 102) (Go (St 398)) Fall) (Go (St 398)))] (St 0));
    (398, mkState [(58, St 333); (93, St 512)] [] (St 0))]
  [].

(** Lines 8507 to 8653. *)
Definition lines_8507 : chunk := mkChunk
  [(399, mkState [(46, St 294); (58, St 333); (93, St 512)] [If (Below 65) (If (Within 48 57) (Go (St 400))
      Fall) (If (Above 70) (If (Within 97 102) (Go (St 396)) Fall) (Go (St 396)))] (St 0));
    (400, mkState [(46, St 294); (58, St 333); (93, St 512)] [If (Below 65) (If (Within 48 57) (Go (St 401))
      Fall) (If (Above 70) (If (Within 97 102) (Go (St 397)) Fall) (Go (St 397)))] (St 0));
    (401, mkState [(46, St 294); (58, St 333); (93, St 512)] [If (Below 65) (If (Within 48 57) (Go (St 398))
      Fall) (If (Above 70) (If (Within 97 102) (Go (St 398)) Fall) (Go (St 398)))] (St 0));
    (402, mkState [(46, St 294); (53, St 404); (58, St 333); (93, St 512)] [If (Below 65) (If (Within 48 57)
      (Go (St 403)) Fall) (If (Above 70) (If (Within 97 102) (Go (St 396)) Fall) (Go (St 396)))] (St 0));
    (403, mkState [(46, St 294); (58, St 333); (93, St 512)] [If (Below 65) (If (Within 48 57) (Go (St 397))
      Fall) (If (Above 70) (If (Within 97 102) (Go (St 397)) Fall) (Go (St 397)))] (St 0));
    (404, mkState [(46, St 294); (58, St 333); (93, St 512)] [If (Below 54) (If (Within 48 53) (Go (St 401))
      Fall) (If (Above 57) (If (Above 70) (If (Within 97 102) (Go (St 397)) Fall) (If (AtLeast 65) (Go (St
      397)) Fall)) (Go (St 397)))] (St 0));
    (405, mkState [(46, St 294); (58, St 333); (93, St 512)] [If (Below 65) (If (Within 48 57) (Go (St 403))
      Fall) (If (Above 70) (If (Within 97 102) (Go (St 396)) Fall) (Go (St 396)))] (St 0));
    (406, mkState [(58, St 333); (93, St 512)] [If (Below 65) (If (Within 48 57) (Go (St 396)) Fall) (If
      (Above 70) (If (Within 97 102) (Go (St 396)) Fall) (Go (St 396)))] (St 0))]
  [].

(** Lines 8654 to 8800. *)
Definition lines_8654 : chunk := mkChunk
  [(407, mkState [(46, St 294); (58, St 394); (93, St 512)] [If (Below 65) (If (Within 48 57) (Go (St 408))
      Fall) (If (Above 70) (If (Within 97 102) (Go (St 391)) Fall) (Go (St 391)))] (St 0));
    (408, mkState [(46, St 294); (58, St 394); (93, St 512)] [If (Below 65) (If (Within 48 57) (Go (St 409))
      Fall) (If (Above 70) (If (Within 97 102) (Go (St 392)) Fall) (Go (St 392)))] (St 0));
    (409, mkState [(46, St 294); (58, St 394); (93, St 512)] [If (Below 65) (If (Within 48 57) (Go (St 393))
      Fall) (If (Above 70) (If (Within 97 102) (Go (St 393)) Fall) (Go (St 393)))] (St 0));
    (410, mkState [(46, St 294); (53, St 412); (58, St 394); (93, St 512)] [If (Below 65) (If (Within 48 57)
      (Go (St 411)) Fall) (If (Above 70) (If (Within 97 102) (Go (St 391)) Fall) (Go (St 391)))] (St 0));
    (411, mkState [(46, St 294); (58, St 394); (93, St 512)] [If (Below 65) (If (Within 48 57) (Go (St 392))
      Fall) (If (Above 70) (If (Within 97 102) (Go (St 392)) Fall) (Go (St 392)))] (St 0));
    (412, mkState [(46, St 294); (58, St 394); (93, St 512)] [If (Below 54) (If (Within 48 53) (Go (St 409))
      Fall) (If (Above 57) (If (Above 70) (If (Within 97 102) (Go (St 392)) Fall) (If (AtLeast 65) (Go (St
      392)) Fall)) (Go (St 392)))] (St 0));
    (413, mkState [(46, St 294); (58, St 394); (93, St 512)] [If (Below 65) (If (Within 48 57) (Go (St 411))
      Fall) (If (Above 70) (If (Within 97 102) (Go (St 391)) Fall) (Go (St 391)))] (St 0));
    (414, mkState [(58, St 394); (93, St 512)] [If (Below 65) (If (Within 48 57) (Go (St 391)) Fall) (If
      (Above 70) (If (Within 97 102) (Go (St 391)) Fall) (Go (St 391)))] (St 0))]
  [].

(** Lines 8801 to 8947. *)
Definition lines_8801 : chunk := mkChunk
  [(415, mkState [(46, St 294); (58, St 389); (93, St 512)] [If (Below 65) (If (Within 48 57) (Go (St 416))
      Fall) (If (Above 70) (If (Within 97 102) (Go (St 386)) Fall) (Go (St 386)))] (St 0));
    (416, mkState [(46, St 294); (58, St 389); (93, St 512)] [If (Below 65) (If (Within 48 57) (Go (St 417))
      Fall) (If (Above 70) (If (Within 97 102) (Go (St 387)) Fall) (Go (St 387)))] (St 0));
    (417, mkState [(46, St 294); (58, St 389); (93, St 512)] [If (Below 65) (If (Within 48 57) (Go (St 388))
      Fall) (If (Above 70) (If (Within 97 102) (Go (St 388)) Fall) (Go (St 388)))] (St 0));
    (418, mkState [(46, St 294); (53, St 420); (58, St 389); (93, St 512)] [If (Below 65) (If (Within 48 57)
      (Go (St 419)) Fall) (If (Above 70) (If (Within 97 102) (Go (St 386)) Fall) (Go (St 386)))] (St 0));
    (419, mkState [(46, St 294); (58, St 389); (93, St 512)] [If (Below 65) (If (Within 48 57) (Go (St 387))
      Fall) (If (Above 70) (If (Within 97 102) (Go (St 387)) Fall) (Go (St 387)))] (St 0));
    (420, mkState [(46, St 294); (58, St 389); (93, St 512)] [If (Below 54) (If (Within 48 53) (Go (St 417))
      Fall) (If (Above 57) (If (Above 70) (If (Within 97 102) (Go (St 387)) Fall) (If (AtLeast 65) (Go (St
      387)) Fall)) (Go (St 387)))] (St 0));
    (421, mkState [(46, St 294); (58, St 389); (93, St 512)] [If (Below 65) (If (Within 48 57) (Go (St 419))
      Fall) (If (Above 70) (If (Within 97 102) (Go (St 386)) Fall) (Go (St 386)))] (St 0));
    (422, mkState [(58, St 389); (93, St 512)] [If (Below 65) (If (Within 48 57) (Go (St 386)) Fall) (If
      (Above 70) (If (Within 97 102) (Go (St 386)) Fall) (Go (St 386)))] (St 0))]
  [].

(** Lines 8948 to 9094. *)
Definition lines_8948 : chunk := mkChunk
  [(423, mkState [(46, St 294); (58, St 384); (93, St 512)] [If (Below 65) (If (Within 48 57) (Go (St 424))
      Fall) (If (Above 70) (If (Within 97 102) (Go (St 381)) Fall) (Go (St 381)))] (St 0));
    (424, mkState [(46, St 294); (58, St 384); (93, St 512)] [If (Below 65) (If (Within 48 57) (Go (St 425))
      Fall) (If (Above 70) (If (Within 97 102) (Go (St 382)) Fall) (Go (St 382)))] (St 0));
    (425, mkState [(46, St 294); (58, St 384); (93, St 512)] [If (Below 65) (If (Within 48 57) (Go (St 383))
      Fall) (If (Above 70) (If (Within 97 102) (Go (St 383)) Fall) (Go (St 383)))] (St 0));
    (426, mkState [(46, St 294); (53, St 428); (58, St 384); (93, St 512)] [If (Below 65) (If (Within 48 57)
      (Go (St 427)) Fall) (If (Above 70) (If (Within 97 102) (Go (St 381)) Fall) (Go (St 381)))] (St 0));
    (427, mkState [(46, St 294); (58, St 384); (93, St 512)] [If (Below 65) (If (Within 48 57) (Go (St 382))
      Fall) (If (Above 70) (If (Within 97 102) (Go (St 382)) Fall) (Go (St 382)))] (St 0));
    (428, mkState [(46, St 294); (58, St 384); (93, St 512)] [If (Below 54) (If (Within 48 53) (Go (St 425))
      Fall) (If (Above 57) (If (Above 70) (If (Within 97 102) (Go (St 382)) Fall) (If (AtLeast 65) (Go (St
      382)) Fall)) (Go (St 382)))] (St 0));
    (429, mkState [(46, St 294); (58, St 384); (93, St 512)] [If (Below 65) (If (Within 48 57) (Go (St 427))
      Fall) (If (Above 70) (If (Within 97 102) (Go (St 381)) Fall) (Go (St 381)))] (St 0));
    (430, mkState [(58, St 384); (93, St 512)] [If (Below 65) (If (Within 48 57) (Go (St 381)) Fall) (If
      (Above 70) (If (Within 97 102) (Go (St 381)) Fall) (Go (St 381)))] (St 0))]
  [].

(** Lines 9095 to 9241. *)
Definition lines_9095 : chunk := mkChunk
  [(431, mkState [(46, St 294); (58, St 379); (93, St 512)] [If (Below 65) (If (Within 48 57) (Go (St 432))
      Fall) (If (Above 70) (If (Within 97 102) (Go (St 376)) Fall) (Go (St 376)))] (St 0));
    (432, mkState [(46, St 294); (58, St 379); (93, St 512)] [If (Below 65) (If (Within 48 57) (Go (St 433))
      Fall) (If (Above 70) (If (Within 97 102) (Go (St 377)) Fall) (Go (St 377)))] (St 0));
    (433, mkState [(46, St 294); (58, St 379); (93, St 512)] [If (Below 65) (If (Within 48 57) (Go (St 378))
      Fall) (If (Above 70) (If (Within 97 102) (Go (St 378)) Fall) (Go (St 378)))] (St 0));
    (434, mkState [(46, St 294); (53, St 436); (58, St 379); (93, St 512)] [If (Below 65) (If (Within 48 57)
      (Go (St 435)) Fall) (If (Above 70) (If (Within 97 102) (Go (St 376)) Fall) (Go (St 376)))] (St 0));
    (435, mkState [(46, St 294); (58, St 379); (93, St 512)] [If (Below 65) (If (Within 48 57) (Go (St 377))
      Fall) (If (Above 70) (If (Within 97 102) (Go (St 377)) Fall) (Go (St 377)))] (St 0));
    (436, mkState [(46, St 294); (58, St 379); (93, St 512)] [If (Below 54) (If (Within 48 53) (Go (St 433))
      Fall) (If (Above 57) (If (Above 70) (If (Within 97 102) (Go (St 377)) Fall) (If (AtLeast 65) (Go (St
      377)) Fall)) (Go (St 377)))] (St 0));
    (437, mkState [(46, St 294); (58, St 379); (93, St 512)] [If (Below 65) (If (Within 48 57) (Go (St 435))
      Fall) (If (Above 70) (If (Within 97 102) (Go (St 376)) Fall) (Go (St 376)))] (St 0));
    (438, mkState [(58, St 379); (93, St 512)] [If (Below 65) (If (Within 48 57) (Go (St 376)) Fall) (If
      (Above 70) (If (Within 97 102) (Go (St 376)) Fall) (Go (St 376)))] (St 0))]
  [].

(** Lines 9242 to 9388. *)
Definition lines_9242 : chunk := mkChunk
  [(439, mkState [(46, St 294); (58, St 374); (93, St 512)] [If (Below 65) (If (Within 48 57) (Go (St 440))
      Fall) (If (Above 70) (If (Within 97 102) (Go (St 371)) Fall) (Go (St 371)))] (St 0));
    (440, mkState [(46, St 294); (58, St 374); (93, St 512)] [If (Below 65) (If (Within 48 57) (Go (St 441))
      Fall) (If (Above 70) (If (Within 97 102) (Go (St 372)) Fall) (Go (St 372)))] (St 0));
    (441, mkState [(46, St 294); (58, St 374); (93, St 512)] [If (Below 65) (If (Within 48 57) (Go (St 373))
      Fall) (If (Above 70) (If (Within 97 102) (Go (St 373)) Fall) (Go (St 373)))] (St 0));
    (442, mkState [(46, St 294); (53, St 444); (58, St 374); (93, St 512)] [If (Below 65) (If (Within 48 57)
      (Go (St 443)) Fall) (If (Above 70) (If (Within 97 102) (Go (St 371)) Fall) (Go (St 371)))] (St 0));
    (443, mkState [(46, St 294); (58, St 374); (93, St 512)] [If (Below 65) (If (Within 48 57) (Go (St 372))
      Fall) (If (Above 70) (If (Within 97 102) (Go (St 372)) Fall) (Go (St 372)))] (St 0));
    (444, mkState [(46, St 294); (58, St 374); (93, St 512)] [If (Below 54) (If (Within 48 53) (Go (St 441))
      Fall) (If (Above 57) (If (Above 70) (If (Within 97 102) (Go (St 372)) Fall) (If (AtLeast 65) (Go (St
      372)) Fall)) (Go (St 372)))] (St 0));
    (445, mkState [(46, St 294); (58, St 374); (93, St 512)] [If (Below 65) (If (Within 48 57) (Go (St 443))
      Fall) (If (Above 70) (If (Within 97 102) (Go (St 371)) Fall) (Go (St 371)))] (St 0));
    (446, mkState [(58, St 374); (93, St 512)] [If (Below 65) (If (Within 48 57) (Go (St 371)) Fall) (If
      (Above 70) (If (Within 97 102) (Go (St 371)) Fall) (Go (St 371)))] (St 0))]
  [].

(** Lines 9389 to 9529. *)
Definition lines_9389 : chunk := mkChunk
  [(447, mkState [] [If (Below 65) (If (Within 48 57) (Go (St 448)) Fall) (If (Above 70) (If (Within 97 102)
      (Go (St 448)) Fall) (Go (St 448)))] (St 0));
    (448, mkState [] [If (Equal 46) (Go (St 449)) Fall; If (Below 65) (If (Within 48 57) (Go (St 448)) Fall)
      (If (Above 70) (If (Within 97 102) (Go (St 448)) Fall) (Go (St 448)))] (St 0));
    (449, mkState [(33, St 450); (36, St 450); (61, St 450); (95, St 450); (126, St 450)] [If (Below 48) (If
      (Within 38 46) (Go (St 450)) Fall) (If (Above 59) (If (Above 90) (If (Within 97 122) (Go (St 450)) Fall)
      (If (AtLeast 65) (Go (St 450)) Fall)) (Go (St 450)))] (St 0));
    (450, mkState [(33, St 450); (36, St 450); (61, St 450); (93, St 512); (95, St 450); (126, St 450)] [If
      (Below 48) (If (Within 38 46) (Go (St 450)) Fall) (If (Above 59) (If (Above 90) (If (Within 97 122) (Go
      (St 450)) Fall) (If (AtLeast 65) (Go (St 450)) Fall)) (Go (St 450)))] (St 0));
    (542, mkState [(33, St 255); (35, Tr 570); (37, St 256); (47, Tr 571); (61, St 255); (63, Tr 573); (64, Tr
      263); (95, St 255); (126, St 255)] [If (Below 58) (If (Above 46) (If (Within 48 57) (Go (St 542)) Fall)
      (If (AtLeast 36) (Go (St 255)) Fall)) (If (Above 59) (If (Above 90) (If (Within 97 122) (Go (St 255))
      Fall) (If (AtLeast 65) (Go (St 255)) Fall)) (Go (St 255)))] (St 0));
    (543, mkState [(33, St 520); (35, Tr 559); (37, St 253); (46, St 544); (47, Tr 560); (58, Tr 576); (61, St
      520); (63, Tr 562); (64, Tr 263); (95, St 520); (126, St 520)] [If (Below 65) (If (Within 36 59) (Go (St
      520)) Fall) (If (Above 90) (If (Within 97 122) (Go (St 520)) Fall) (Go (St 520)))] (St 0))]
  [(577, ([MarkH], 542));
    (551, ([MarkH], 543))].

(** Lines 9530 to 9673. *)
Definition lines_9530 : chunk := mkChunk
  [(544, mkState [(2, St 233); (33, St 520); (35, Tr 559); (37, St 253); (47, Tr 560); (48, St 545); (49, St
      553); (50, St 555); (58, Tr 576); (59, St 520); (61, St 520); (63, Tr 562); (64, Tr 263); (95, St 520);
      (126, St 520)] [If (Below 51) (If (Within 36 46) (Go (St 520)) Fall) (If (Above 57) (If (Above 90) (If
      (Within 97 122) (Go (St 520)) Fall) (If (AtLeast 65) (Go (St 520)) Fall)) (Go (St 554)))] (St 0));
    (545, mkState [(33, St 520); (35, Tr 559); (37, St 253); (46, St 546); (47, Tr 560); (58, Tr 576); (61, St
      520); (63, Tr 562); (64, Tr 263); (95, St 520); (126, St 520)] [If (Below 65) (If (Within 36 59) (Go (St
      520)) Fall) (If (Above 90) (If (Within 97 122) (Go (St 520)) Fall) (Go (St 520)))] (St 0));
    (546, mkState [(2, St 237); (33, St 520); (35, Tr 559); (37, St 253); (47, Tr 560); (48, St 547); (49, St
      549); (50, St 551); (58, Tr 576); (59, St 520); (61, St 520); (63, Tr 562); (64, Tr 263); (95, St 520);
      (126, St 520)] [If (Below 51) (If (Within 36 46) (Go (St 520)) Fall) (If (Above 57) (If (Above 90) (If
      (Within 97 122) (Go (St 520)) Fall) (If (AtLeast 65) (Go (St 520)) Fall)) (Go (St 550)))] (St 0));
    (547, mkState [(33, St 520); (35, Tr 559); (37, St 253); (46, St 548); (47, Tr 560); (58, Tr 576); (61, St
      520); (63, Tr 562); (64, Tr 263); (95, St 520); (126, St 520)] [If (Below 65) (If (Within 36 59) (Go (St
      520)) Fall) (If (Above 90) (If (Within 97 122) (Go (St 520)) Fall) (Go (St 520)))] (St 0));
    (548, mkState [(2, St 241); (33, St 520); (35, Tr 559); (37, St 253); (47, Tr 560); (58, Tr 576); (61, St
      520); (63, Tr 562); (64, Tr 263); (95, St 520); (126, St 520)] [If (Below 65) (If (Within 36 59) (Go (St
      520)) Fall) (If (Above 90) (If (Within 97 122) (Go (St 520)) Fall) (Go (St 520)))] (St 0))]
  [].

(** Lines 9674 to 9796. *)
Definition lines_9674 : chunk := mkChunk
  [(549, mkState [(33, St 520); (35, Tr 559); (37, St 253); (46, St 548); (47, Tr 560); (58, Tr 576); (59, St
      520); (61, St 520); (63, Tr 562); (64, Tr 263); (95, St 520); (126, St 520)] [If (Below 48) (If (Within
      36 45) (Go (St 520)) Fall) (If (Above 57) (If (Above 90) (If (Within 97 122) (Go (St 520)) Fall) (If
      (AtLeast 65) (Go (St 520)) Fall)) (Go (St 550)))] (St 0));
    (550, mkState [(33, St 520); (35, Tr 559); (37, St 253); (46, St 548); (47, Tr 560); (58, Tr 576); (59, St
      520); (61, St 520); (63, Tr 562); (64, Tr 263); (95, St 520); (126, St 520)] [If (Below 48) (If (Within
      36 45) (Go (St 520)) Fall) (If (Above 57) (If (Above 90) (If (Within 97 122) (Go (St 520)) Fall) (If
      (AtLeast 65) (Go (St 520)) Fall)) (Go (St 547)))] (St 0));
    (551, mkState [(33, St 520); (35, Tr 559); (37, St 253); (46, St 548); (47, Tr 560); (53, St 552); (58, Tr
      576); (59, St 520); (61, St 520); (63, Tr 562); (64, Tr 263); (95, St 520); (126, St 520)] [If (Below
      48) (If (Within 36 45) (Go (St 520)) Fall) (If (Above 57) (If (Above 90) (If (Within 97 122) (Go (St
      520)) Fall) (If (AtLeast 65) (Go (St 520)) Fall)) (Go (St 547)))] (St 0));
    (552, mkState [(33, St 520); (35, Tr 559); (37, St 253); (46, St 548); (47, Tr 560); (58, Tr 576); (61, St
      520); (63, Tr 562); (64, Tr 263); (95, St 520); (126, St 520)] [If (Below 54) (If (Above 45) (If (Within
      48 53) (Go (St 547)) Fall) (If (AtLeast 36) (Go (St 520)) Fall)) (If (Above 59) (If (Above 90) (If
      (Within 97 122) (Go (St 520)) Fall) (If (AtLeast 65) (Go (St 520)) Fall)) (Go (St 520)))] (St 0))]
  [].

(** Lines 9797 to 9923. *)
Definition lines_9797 : chunk := mkChunk
  [(553, mkState [(33, St 520); (35, Tr 559); (37, St 253); (46, St 546); (47, Tr 560); (58, Tr 576); (59, St
      520); (61, St 520); (63, Tr 562); (64, Tr 263); (95, St 520); (126, St 520)] [If (Below 48) (If (Within
      36 45) (Go (St 520)) Fall) (If (Above 57) (If (Above 90) (If (Within 97 122) (Go (St 520)) Fall) (If
      (AtLeast 65) (Go (St 520)) Fall)) (Go (St 554)))] (St 0));
    (554, mkState [(33, St 520); (35, Tr 559); (37, St 253); (46, St 546); (47, Tr 560); (58, Tr 576); (59, St
      520); (61, St 520); (63, Tr 562); (64, Tr 263); (95, St 520); (126, St 520)] [If (Below 48) (If (Within
      36 45) (Go (St 520)) Fall) (If (Above 57) (If (Above 90) (If (Within 97 122) (Go (St 520)) Fall) (If
      (AtLeast 65) (Go (St 520)) Fall)) (Go (St 545)))] (St 0));
    (555, mkState [(33, St 520); (35, Tr 559); (37, St 253); (46, St 546); (47, Tr 560); (53, St 556); (58, Tr
      576); (59, St 520); (61, St 520); (63, Tr 562); (64, Tr 263); (95, St 520); (126, St 520)] [If (Below
      48) (If (Within 36 45) (Go (St 520)) Fall) (If (Above 57) (If (Above 90) (If (Within 97 122) (Go (St
      520)) Fall) (If (AtLeast 65) (Go (St 520)) Fall)) (Go (St 545)))] (St 0));
    (556, mkState [(33, St 520); (35, Tr 559); (37, St 253); (46, St 546); (47, Tr 560); (58, Tr 576); (61, St
      520); (63, Tr 562); (64, Tr 263); (95, St 520); (126, St 520)] [If (Below 54) (If (Above 45) (If (Within
      48 53) (Go (St 545)) Fall) (If (AtLeast 36) (Go (St 520)) Fall)) (If (Above 59) (If (Above 90) (If
      (Within 97 122) (Go (St 520)) Fall) (If (AtLeast 65) (Go (St 520)) Fall)) (Go (St 520)))] (St 0))]
  [(552, ([MarkH], 557))].

(** Lines 9924 to 10057. *)
Definition lines_9924 : chunk := mkChunk
  [(557, mkState [(33, St 520); (35, Tr 559); (37, St 253); (46, St 544); (47, Tr 560); (58, Tr 576); (59, St
      520); (61, St 520); (63, Tr 562); (64, Tr 263); (95, St 520); (126, St 520)] [If (Below 48) (If (Within
      36 45) (Go (St 520)) Fall) (If (Above 57) (If (Above 90) (If (Within 97 122) (Go (St 520)) Fall) (If
      (AtLeast 65) (Go (St 520)) Fall)) (Go (St 558)))] (St 0));
    (558, mkState [(33, St 520); (35, Tr 559); (37, St 253); (46, St 544); (47, Tr 560); (58, Tr 576); (59, St
      520); (61, St 520); (63, Tr 562); (64, Tr 263); (95, St 520); (126, St 520)] [If (Below 48) (If (Within
      36 45) (Go (St 520)) Fall) (If (Above 57) (If (Above 90) (If (Within 97 122) (Go (St 520)) Fall) (If
      (AtLeast 65) (Go (St 520)) Fall)) (Go (St 543)))] (St 0));
    (559, mkState [(33, St 520); (35, Tr 559); (37, St 253); (46, St 544); (47, Tr 560); (53, St 560); (58, Tr
      576); (59, St 520); (61, St 520); (63, Tr 562); (64, Tr 263); (95, St 520); (126, St 520)] [If (Below
      48) (If (Within 36 45) (Go (St 520)) Fall) (If (Above 57) (If (Above 90) (If (Within 97 122) (Go (St
      520)) Fall) (If (AtLeast 65) (Go (St 520)) Fall)) (Go (St 543)))] (St 0));
    (560, mkState [(33, St 520); (35, Tr 559); (37, St 253); (46, St 544); (47, Tr 560); (58, Tr 576); (61, St
      520); (63, Tr 562); (64, Tr 263); (95, St 520); (126, St 520)] [If (Below 54) (If (Above 45) (If (Within
      48 53) (Go (St 543)) Fall) (If (AtLeast 36) (Go (St 520)) Fall)) (If (Above 59) (If (Above 90) (If
      (Within 97 122) (Go (St 520)) Fall) (If (AtLeast 65) (Go (St 520)) Fall)) (Go (St 520)))] (St 0))]
  [(554, ([MarkH], 558));
    (553, ([MarkH], 559))].

(** The actions at the end of the input, lines 10623 to 10769. *)
Definition eof_a : list (list Z * list action) :=
  [([462; 489], [SavePort]);
    ([460; 463; 464; 465; 466; 467; 470; 471; 472; 473; 474; 475; 476; 477; 478; 479; 480; 481; 482; 483; 484;
      485; 486; 487; 488; 490; 491; 492; 493; 494; 495; 496; 497; 498; 499; 500; 501; 502; 503; 504; 505; 506;
      507], [SaveHost]);
    ([513], [SavePath]);
    ([457], [SaveQuery]);
    ([454], [SaveFragment]);
    ([456], [MarkU; SaveQuery]);
    ([453], [MarkU; SaveFragment]);
    ([461; 468], [MarkH; SavePort]);
    ([459; 469], [MarkH; SaveHost]);
    ([514; 521], [MarkH; SavePort; SavePath])].

(** The actions at the end of the input, lines 10770 to 10864. *)
Definition eof_b : list (list Z * list action) :=
  [([511; 522], [MarkH; SaveHost; SavePath]);
    ([515; 542], [SavePort; MarkH; SavePath]);
    ([512; 516; 517; 518; 519; 520; 523; 524; 525; 526; 527; 528; 529; 530; 531; 532; 533; 534; 535; 536; 537;
      538; 539; 540; 541; 543; 544; 545; 546; 547; 548; 549; 550; 551; 552; 553; 554; 555; 556; 557; 558; 559;
      560], [SaveHost; MarkH; SavePath])].

Definition chunks : list chunk :=
  [lines_48; lines_196; lines_334; lines_477; lines_621; lines_765; lines_914; lines_1064; lines_1187;
    lines_1311; lines_1450; lines_1598; lines_1726; lines_1874; lines_2023; lines_2164; lines_2306;
    lines_2450; lines_2587; lines_2725; lines_2860; lines_3007; lines_3152; lines_3286; lines_3429;
    lines_3571; lines_3712; lines_3859; lines_4006; lines_4153; lines_4300; lines_4447; lines_4594;
    lines_4735; lines_4879; lines_5002; lines_5129; lines_5267; lines_5412; lines_5558; lines_5695;
    lines_5832; lines_5982; lines_6106; lines_6245; lines_6393; lines_6521; lines_6669; lines_6818;
    lines_6959; lines_7101; lines_7245; lines_7382; lines_7520; lines_7655; lines_7802; lines_7947;
    lines_8081; lines_8224; lines_8366; lines_8507; lines_8654; lines_8801; lines_8948; lines_9095;
    lines_9242; lines_9389; lines_9530; lines_9674; lines_9797; lines_9924].
