(* ===== verification/Uri.v ===== *)
(** * class Uri (net/uri.h, net/uri.rl, net/uri.rl.cpp)

    The meaning of the scanner's code ([UriTable]), its actions on the object
    being built, [Uri::create], and the accessors and the text of a Uri. The
    text is a list of bytes; [char] is signed, as on the platforms the scanner
    was generated for. *)

From Stdlib Require Import Ascii String.
From S2P Require Import Prelude Codec Address Regex Scanner UriTable.
#[local] Open Scope Z_scope.

Definition text (s : string) : list byte := list_byte_of_string s.

Record Uri := mkUri {
  m_scheme : list byte;
  m_userinfo : list byte;
  m_host : list byte;
  m_port : Z;
  m_path : list byte;
  m_query : list byte;
  m_fragment : list byte;
}.

(** [Uri::Uri()] and the setters *)
Definition Uri_new : Uri := mkUri [] [] [] 0 [] [] [].
Definition setScheme (v : list byte) (u : Uri) : Uri :=
  mkUri v (m_userinfo u) (m_host u) (m_port u) (m_path u) (m_query u) (m_fragment u).
Definition setUserinfo (v : list byte) (u : Uri) : Uri :=
  mkUri (m_scheme u) v (m_host u) (m_port u) (m_path u) (m_query u) (m_fragment u).
Definition setHost (v : list byte) (u : Uri) : Uri :=
  mkUri (m_scheme u) (m_userinfo u) v (m_port u) (m_path u) (m_query u) (m_fragment u).
Definition setPort (v : Z) (u : Uri) : Uri :=
  mkUri (m_scheme u) (m_userinfo u) (m_host u) v (m_path u) (m_query u) (m_fragment u).
Definition setPath (v : list byte) (u : Uri) : Uri :=
  mkUri (m_scheme u) (m_userinfo u) (m_host u) (m_port u) v (m_query u) (m_fragment u).
Definition setQuery (v : list byte) (u : Uri) : Uri :=
  mkUri (m_scheme u) (m_userinfo u) (m_host u) (m_port u) (m_path u) v (m_fragment u).
Definition setFragment (v : list byte) (u : Uri) : Uri :=
  mkUri (m_scheme u) (m_userinfo u) (m_host u) (m_port u) (m_path u) (m_query u) v.

(** ** The scanner's code *)

Definition holds (c : cond) (p : Z) : bool :=
  match c with
  | Below n => p <? n
  | Above n => n <? p
  | AtLeast n => n <=? p
  | Equal n => p =? n
  | Within a b => (a <=? p) && (p <=? b)
  end.

(** The label a statement jumps to, [None] when control falls out of it. *)
Fixpoint jump (c : code) (p : Z) : option label :=
  match c with
  | Go l => Some l
  | If c yes no => if holds c p then jump yes p else jump no p
  | Fall => None
  end.

Fixpoint first_some {A B} (f : A → option B) (l : list A) : option B :=
  match l with
  | [] => None
  | x :: l => match f x with Some y => Some y | None => first_some f l end
  end.

(** [switch( *p ) { ... } if ... goto ...;] *)
Definition branch (st : state) (p : Z) : label :=
  match first_some (λ c, if c.1 =? p then Some c.2 else None) (cases st) with
  | Some l => l
  | None => default (otherwise st) (first_some (λ c, jump c p) (body st))
  end.

Definition uri_parser_start : Z := 451.
Definition uri_parser_first_final : Z := 451.
Definition uri_parser_error : Z := 0.

Definition states : gmap Z state := list_to_map (chunks ≫= chunk_states).
Definition transitions : gmap Z (list action * Z) := list_to_map (chunks ≫= chunk_trs).

(** [*p] as a [char] *)
Definition s_char (b : byte) : Z := wraps 8 (byte.unsigned b).

(** What state [cs] does with a byte: the actions and the next state, [None]
    for [goto st0]. *)
Definition delta (cs : Z) (b : byte) : option (list action * Z) :=
  st ← states !! cs;
  match branch st (s_char b) with
  | St n => if n =? uri_parser_error then None else Some ([], n)
  | Tr k => transitions !! k
  end.

#[global] Arguments delta : simpl never.
#[global] Strategy 1000 [states transitions chunks delta].

(** ** The actions *)

(** [mark], as an offset into the text, and the object. *)
Record scan := mkScan { mark : option nat; uri : Uri }.

Definition set_mark (m : option nat) : M scan unit := mmodify (λ s, mkScan m (uri s)).
Definition on_uri (f : Uri → Uri) : M scan unit := mmodify (λ s, mkScan (mark s) (f (uri s))).

(** [isspace], [isdigit] *)
Definition is_space (b : byte) : bool := in_class b [(32, 32); (9, 13)].
Definition is_digit (b : byte) : bool := in_class b [(48, 57)].
Definition digit_value (b : byte) : Z := byte.unsigned b - 48.

Fixpoint drop_spaces (l : list byte) : list byte :=
  match l with b :: l' => if is_space b then drop_spaces l' else l | [] => [] end.
Fixpoint digits (acc : Z) (l : list byte) : Z :=
  match l with b :: l' => if is_digit b then digits (10 * acc + digit_value b) l' else acc | [] => acc end.
(** [atoi]: a value outside [int] is undefined. *)
Definition atoi (l : list byte) : option Z :=
  let l := drop_spaces l in
  let v := match l with
           | b :: l' => if byte.unsigned b =? 45 then - digits 0 l' else
                        if byte.unsigned b =? 43 then digits 0 l' else digits 0 l
           | [] => 0
           end in
  if decide (srange 32 v) then Some v else None.

Section Actions.
Context (uristr : list byte).

(** [std::string(mark, p - mark)] *)
Definition marked (p : nat) : M scan (list byte) :=
  s <- mget;;
  match mark s with
  | None => mfault NullDeref
  | Some m => mreturn (take (p - m) (drop m uristr))
  end.

Definition perform (p : nat) (a : action) : M scan unit :=
  match a with
  | MarkU | MarkH => set_mark (Some p)
  | SaveScheme => v <- marked p;; on_uri (setScheme v);; set_mark None
  | SavePort =>
      s <- mget;;
      (if bool_decide (mark s = Some p) then mreturn tt else
       match mark s with
       | None => mfault NullDeref
       | Some m =>
           match atoi (drop m uristr) with
           | Some v => on_uri (setPort (u16 v))
           | None => mfault BadConversion
           end
       end);;
      set_mark None
  | SaveUserinfo =>
      s <- mget;;
      (if bool_decide (is_Some (mark s)) then v <- marked p;; on_uri (setUserinfo v) else mreturn tt);;
      set_mark None
  | SaveHost =>
      s <- mget;;
      if bool_decide (is_Some (mark s)) then v <- marked p;; on_uri (setHost v) else mreturn tt
  | SavePath => v <- marked p;; on_uri (setPath v);; set_mark None
  | SaveQuery => v <- marked p;; on_uri (setQuery v);; set_mark None
  | SaveFragment => v <- marked p;; on_uri (setFragment v);; set_mark None
  end.

Definition performs (p : nat) (l : list action) : M scan unit := mfor l (perform p).

(** From state [cs] with [rest] to read; the state at the end, [None] after
    [goto st0]. *)
Fixpoint scan_loop (rest : list byte) (p : nat) (cs : Z) : M scan (option Z) :=
  match rest with
  | [] => mreturn (Some cs)
  | b :: rest =>
      match delta cs b with
      | None => mreturn None
      | Some (l, t) => performs p l;; scan_loop rest (S p) t
      end
  end.

(** [if ( p == eof ) switch ( cs ) ...] *)
Definition eof_actions (cs : Z) : list action :=
  default [] (first_some (λ e, if bool_decide (cs ∈ e.1) then Some e.2 else None) (eof_a ++ eof_b)).
End Actions.

(** [Uri::create(uristr)] *)
Definition create_loop (uristr : list byte) : M scan (option Uri) :=
  cs <- scan_loop uristr uristr 0 uri_parser_start;;
  match cs with
  | None => mreturn None
  | Some cs =>
      performs uristr (length uristr) (eof_actions cs);;
      s <- mget;;
      mreturn (if cs =? uri_parser_error then None
               else if uri_parser_first_final <=? cs then Some (uri s) else None)
  end.
Definition Uri_create (uristr : list byte) : outcome scan (option Uri) :=
  create_loop uristr (mkScan None Uri_new).

(** ** Accessors *)

Definition PROTOCAL_MAP : list (string * Z) := [("http", 80); ("https", 443); ("rtsp", 554); ("mqtt", 1883)]%string.
Definition default_port (scheme : list byte) : option Z :=
  first_some (λ e, if bool_decide (scheme = text e.1) then Some e.2 else None) PROTOCAL_MAP.

Definition getScheme (u : Uri) : list byte := m_scheme u.
Definition getUserinfo (u : Uri) : list byte := m_userinfo u.
Definition getHost (u : Uri) : list byte := m_host u.
Definition getPort (u : Uri) : Z :=
  if negb (m_port u =? 0) then m_port u else default (m_port u) (default_port (m_scheme u)).
Definition getPath (u : Uri) : list byte := if bool_decide (m_path u = []) then text "/" else m_path u.
Definition getQuery (u : Uri) : list byte := m_query u.
Definition getFragment (u : Uri) : list byte := m_fragment u.

Definition isDefaultPort (u : Uri) : bool :=
  if m_port u =? 0 then true else
  match default_port (m_scheme u) with Some d => m_port u =? d | None => false end.

(** [lexical_cast<std::string>(m_port)] is the decimal number. *)
Definition port_text (n : Z) : list byte := text (dec n).
Definition unless_empty (v : list byte) (s : string) : list byte := if bool_decide (v = []) then [] else text s.

(** [toString()] *)
Definition Uri_toString (u : Uri) : list byte :=
  m_scheme u ++ text "://" ++ m_userinfo u ++ unless_empty (m_userinfo u) "@" ++ m_host u ++
  (if isDefaultPort u then [] else text ":" ++ port_text (m_port u)) ++ getPath u ++
  unless_empty (m_query u) "?" ++ m_query u ++ unless_empty (m_fragment u) "#" ++ m_fragment u.

(** [create() const] *)
Definition Uri_address `{Platform} {S} getaddrinfo (u : Uri) : M S (option Address) :=
  a <- parseIPAddress getaddrinfo (ascii_of_byte <$> m_host u);;
  mreturn (match a with Some a => Some (Address.setPort (getPort u) a) | None => None end).
