(* ===== verification/UriGrammar.v ===== *)
(** * The grammar of URIs (net/uri.rl)

    The machine definition the scanner was generated from, rule by rule, as
    regular expressions over bytes, without the actions. *)

From S2P Require Import Prelude Regex.
#[local] Open Scope Z_scope.

(** Ragel's builtin classes; [any - ascii] is the bytes from 128 on. *)
Definition alpha_c : list (Z * Z) := [(65, 90); (97, 122)].
Definition digit_c : list (Z * Z) := [(48, 57)].
Definition xdigit_c : list (Z * Z) := [(48, 57); (65, 70); (97, 102)].
Definition non_ascii_c : list (Z * Z) := [(128, 255)].

(** ["!" | "$" | "&" | "'" | "(" | ")" | "*" | "+" | "," | ";" | "="] *)
Definition sub_delims_c : list (Z * Z) :=
  [(33, 33); (36, 36); (38, 38); (39, 39); (40, 40); (41, 41); (42, 42); (43, 43); (44, 44); (59, 59); (61, 61)].
(** [alpha | digit | "-" | "." | "_" | "~"] *)
Definition unreserved_c : list (Z * Z) := alpha_c ++ digit_c ++ [(45, 45); (46, 46); (95, 95); (126, 126)].

Definition xdigit : re := RCls xdigit_c.
Definition digit : re := RCls digit_c.
Definition pct_encoded : re := RCats [chr 37; xdigit; xdigit].

Definition scheme : re := RCat (RCls alpha_c) (RStar (RCls (alpha_c ++ digit_c ++ [(43, 43); (45, 45); (46, 46)]))).

Definition userinfo : re := RStar (RAlt (RCls (unreserved_c ++ sub_delims_c ++ [(58, 58)])) pct_encoded).

(** The third of the five alternatives with two fixed digits begins with the
    number 2, which Ragel takes for the byte 2, not for the digit "2". *)
Definition dec_octet : re :=
  RAlts digit
    [RCat (RCls [(49, 57)]) digit; RCats [chr 49; digit; digit]; RCats [chr 2; RCls [(48, 52)]; digit];
     RCats [chr 50; chr 53; RCls [(48, 53)]]].
Definition IPv4address : re := RCats [dec_octet; chr 46; dec_octet; chr 46; dec_octet; chr 46; dec_octet].
(** [xdigit{1,4}] *)
Definition h16 : re := RCat xdigit (ROpt (RCat xdigit (ROpt (RCat xdigit (ROpt xdigit))))).
Definition h16_colon : re := RCat h16 (chr 58).
Definition ls32 : re := RAlt (RCats [h16; chr 58; h16]) IPv4address.
Definition colons : re := RCat (chr 58) (chr 58).
Definition IPv6address : re :=
  RAlts (RCats [RRep 6 h16_colon; ls32])
    [RCats [colons; RRep 5 h16_colon; ls32];
     RCats [ROpt h16; colons; RRep 4 h16_colon; ls32];
     RCats [ROpt (RCat h16_colon h16); colons; RRep 3 h16_colon; ls32];
     RCats [ROpt (RCat (RRep 2 h16_colon) h16); colons; RRep 2 h16_colon; ls32];
     RCats [ROpt (RCat (RRep 3 h16_colon) h16); colons; h16_colon; ls32];
     RCats [ROpt (RCat (RRep 4 h16_colon) h16); colons; ls32];
     RCats [ROpt (RCat (RRep 5 h16_colon) h16); colons; h16];
     RCats [ROpt (RCat (RRep 6 h16_colon) h16); colons]].
Definition IPvFuture : re :=
  RCats [chr 118; RPlus xdigit; chr 46; RPlus (RCls (unreserved_c ++ sub_delims_c ++ [(58, 58)]))].
Definition IP_literal : re := RCats [chr 91; RAlt IPv6address IPvFuture; chr 93].
Definition reg_name : re := RStar (RAlt (RCls (unreserved_c ++ sub_delims_c)) pct_encoded).
Definition host : re := RAlts IP_literal [IPv4address; reg_name].
Definition port : re := RStar digit.

Definition authority : re :=
  RCats [ROpt (RCat userinfo (chr 64)); host; ROpt (RCat (chr 58) port)].

Definition pchar_c : list (Z * Z) := non_ascii_c ++ unreserved_c ++ sub_delims_c ++ [(58, 58); (64, 64)].
Definition pchar : re := RAlt (RCls pchar_c) pct_encoded.
Definition segment : re := RStar pchar.
Definition segment_nz : re := RPlus pchar.
(** [(pchar - ":")+] *)
Definition segment_nz_nc : re :=
  RPlus (RAlt (RCls (non_ascii_c ++ unreserved_c ++ sub_delims_c ++ [(64, 64)])) pct_encoded).
Definition slash_segment : re := RCat (chr 47) segment.

Definition path_abempty : re := RCat (ROpt slash_segment) (RStar slash_segment).
Definition path_absolute : re := RCat (chr 47) (ROpt (RCat segment_nz (RStar slash_segment))).
Definition path_noscheme : re := RCat segment_nz_nc (RStar slash_segment).
Definition path_rootless : re := RCat segment_nz (RStar slash_segment).
Definition path_empty : re := REps.

(** [(pchar | "/" | "?")*] *)
Definition query : re := RStar (RAlt (RCls (pchar_c ++ [(47, 47); (63, 63)])) pct_encoded).
Definition fragment : re := query.

Definition slashes : re := RCat (chr 47) (chr 47).
Definition hier_part : re :=
  RAlts (RCats [slashes; authority; path_abempty]) [path_absolute; path_rootless; path_empty].
Definition relative_part : re :=
  RAlts (RCats [slashes; authority; path_abempty]) [path_absolute; path_noscheme; path_empty].
Definition tail : re := RCat (ROpt (RCat (chr 63) query)) (ROpt (RCat (chr 35) fragment)).
Definition relative_ref : re := RCat relative_part tail.
Definition URI : re := RCats [scheme; chr 58; hier_part; tail].
Definition URI_reference : re := RAlt URI relative_ref.
