(* ===== verification/UriSpec.v ===== *)
(** * The scanner of URIs accepts the grammar

    [uri_accepts_grammar]: the generated code accepts exactly the texts of the
    grammar of net/uri.rl, and so does [Uri::create] whenever it answers. *)

From Stdlib Require Import Ascii String.
From S2P Require Import Prelude Codec Address Regex Scanner UriTable Uri UriGrammar.
#[local] Open Scope Z_scope.

(** ** Representatives of bytes *)

(** Neither the grammar nor the scanner tells a byte from its representative. *)
Definition rep_table : list (Z * Z * Z) :=
  [(0, 1, 0); (2, 2, 2); (3, 32, 0); (33, 33, 33); (34, 34, 0); (35, 35, 35); (36, 36, 33); (37, 37, 37);
   (38, 42, 33); (43, 43, 43); (44, 44, 33); (45, 45, 43); (46, 46, 46); (47, 47, 47); (48, 48, 48); (49, 49, 49);
   (50, 50, 50); (51, 52, 51); (53, 53, 53); (54, 57, 54); (58, 58, 58); (59, 59, 33); (60, 60, 0); (61, 61, 33);
   (62, 62, 0); (63, 63, 63); (64, 64, 64); (65, 70, 65); (71, 90, 71); (91, 91, 91); (92, 92, 0); (93, 93, 93);
   (94, 94, 0); (95, 95, 33); (96, 96, 0); (97, 102, 65); (103, 117, 71); (118, 118, 118); (119, 122, 71);
   (123, 125, 0); (126, 126, 33); (127, 127, 0); (128, 255, 128)].
Definition rep (b : byte) : byte :=
  byte.of_Z (default 0 (first_some (λ e, if (e.1.1 <=? byte.unsigned b) && (byte.unsigned b <=? e.1.2)
                                         then Some e.2 else None) rep_table)).
Definition reps : list byte := Eval vm_compute in remove_dups (rep <$> all_bytes).

#[global] Instance label_eq_dec : EqDecision label.
Proof. solve_decision. Defined.

Lemma rep_in b : rep b ∈ reps.
Proof.
  assert (H : forall_bytes (λ b, bool_decide (rep b ∈ reps)) = true) by (vm_compute; reflexivity).
  pose proof (forall_bytes_spec _ H b) as Hb. by apply bool_decide_eq_true in Hb.
Qed.

(** The rest of a userinfo behind the first colon, when it does not begin with
    a digit. *)
Definition password : re :=
  RCat (RAlt (RCls (alpha_c ++ [(45, 45); (46, 46); (95, 95); (126, 126)] ++ sub_delims_c ++ [(58, 58)])) pct_encoded)
       userinfo.

(** The classes of bytes that occur in the grammar. *)
Fixpoint classes_of (r : re) : list (list (Z * Z)) :=
  match r with
  | REps => []
  | RCls l => [l]
  | RCat a b | RAlt a b => classes_of a ++ classes_of b
  | RStar a => classes_of a
  end.
Definition uri_classes : list (list (Z * Z)) :=
  Eval vm_compute in remove_dups (classes_of URI_reference ++ classes_of password).
Lemma uri_classes_rep : forallb (class_rep rep) uri_classes = true.
Proof. vm_cast_no_check (eq_refl true). Qed.

(** The code of a state compares the byte with constants only: it does the same
    from one cut to the next. *)
Definition cond_cuts (c : cond) : list Z :=
  match c with
  | Below n | AtLeast n => [n]
  | Above n => [n + 1]
  | Equal n => [n; n + 1]
  | Within a b => [a; b + 1]
  end.
Fixpoint code_cuts (c : code) : list Z :=
  match c with If c yes no => cond_cuts c ++ code_cuts yes ++ code_cuts no | _ => [] end.
Definition cuts (st : state) : list Z :=
  (cases st ≫= λ c, [c.1; c.1 + 1]) ++ (body st ≫= code_cuts).

Definition uncut (p q : Z) (l : list Z) : Prop := ∀ n, n ∈ l → ¬ (p < n ≤ q).

Lemma uncut_app p q l1 l2 : uncut p q (l1 ++ l2) → uncut p q l1 ∧ uncut p q l2.
Proof. intros H. split; intros n Hn; apply H, elem_of_app; auto. Qed.

Lemma holds_uncut p q c : p ≤ q → uncut p q (cond_cuts c) → holds c p = holds c q.
Proof.
  intros Hpq H. destruct c as [n|n|n|n|a b]; cbn [cond_cuts holds] in *.
  1-3: pose proof (H _ ltac:(by left)); lia.
  1, 2: pose proof (H _ ltac:(by left)); pose proof (H _ ltac:(by right; left)); lia.
Qed.

Lemma jump_uncut p q c : p ≤ q → uncut p q (code_cuts c) → jump c p = jump c q.
Proof.
  intros Hpq. induction c as [l|c yes IH1 no IH2|]; intros H; [done| |done]. cbn [code_cuts jump] in *.
  apply uncut_app in H as [H1 [H2 H3]%uncut_app]. rewrite (holds_uncut p q c) by done.
  destruct (holds c q); auto.
Qed.

Lemma first_some_ext {A B} (f g : A → option B) l : (∀ x, x ∈ l → f x = g x) → first_some f l = first_some g l.
Proof.
  induction l as [|x l IH]; intros H; [done|]. cbn [first_some]. rewrite (H x) by (by left).
  rewrite IH; [done|]. intros y Hy. apply H. by right.
Qed.

Lemma branch_uncut p q st : p ≤ q → uncut p q (cuts st) → branch st p = branch st q.
Proof.
  intros Hpq [H1 H2]%uncut_app. unfold branch.
  rewrite (first_some_ext _ (λ c, if c.1 =? q then Some c.2 else None) (cases st)).
  - by rewrite (first_some_ext (λ c, jump c p) (λ c, jump c q) (body st))
      by (intros c Hc; apply jump_uncut; [done|]; intros n Hn; apply H2, list_elem_of_bind; by exists c).
  - intros c Hc. assert (Hn : ∀ n, n ∈ [c.1; c.1 + 1] → ¬ (p < n ≤ q))
      by (intros n Hn; apply H1, list_elem_of_bind; by exists c).
    pose proof (Hn _ ltac:(by left)). pose proof (Hn _ ltac:(by right; left)).
    by replace (c.1 =? p) with (c.1 =? q) by lia.
Qed.

(** The ranges of [rep_table] as [char]s: first, last and representative. *)
Definition char_of (n : Z) : Z := wraps 8 n.
Definition ranges : list (Z * Z * Z) := Eval vm_compute in
  (λ e, (char_of e.1.1, char_of e.1.2, char_of e.2)) <$> rep_table.
Definition range_starts : list Z := Eval vm_compute in 128 :: ((λ e, e.1.1) <$> ranges).

Lemma starts_uncut : forallb (λ e, forallb (λ n, negb ((e.1.1 <? n) && (n <=? e.1.2))) range_starts) ranges = true.
Proof. vm_compute. reflexivity. Qed.

Lemma byte_range b : ∃ lo hi r, (lo, hi, r) ∈ ranges ∧ lo ≤ s_char b ≤ hi ∧ s_char (rep b) = r.
Proof.
  assert (H : forall_bytes (λ b, existsb (λ e, (e.1.1 <=? s_char b) && (s_char b <=? e.1.2) && (s_char (rep b) =? e.2))
    ranges) = true) by (vm_compute; reflexivity).
  pose proof (forall_bytes_spec _ H b) as ([[lo hi] r] & He & Hb)%existsb_exists.
  cbn [fst snd] in Hb. clear H. rewrite !andb_true_iff, !Z.leb_le, Z.eqb_eq in Hb. destruct Hb as [Hb Er].
  exists lo, hi, r. split; [apply list_elem_of_In, He|]. split; [exact Hb|exact Er].
Qed.

Definition state_respects (st : state) : bool :=
  forallb (λ n, existsb (Z.eqb n) range_starts) (cuts st) &&
  forallb (λ e, bool_decide (branch st e.1.1 = branch st e.2)) ranges.
Lemma states_respect : forallb (λ e, state_respects e.2) (map_to_list states) = true.
Proof. vm_cast_no_check (eq_refl true). Qed.

Lemma branch_rep st b : state_respects st = true → branch st (s_char b) = branch st (s_char (rep b)).
Proof.
  intros [H1 H2]%andb_true_iff. rewrite forallb_forall in H1, H2.
  destruct (byte_range b) as (lo & hi & r & He & Hb & ->). apply list_elem_of_In in He.
  specialize (H2 _ He). apply bool_decide_eq_true in H2. cbn [fst snd] in H2. rewrite <-H2. symmetry.
  apply branch_uncut; [lia|]. intros n Hn Hr. pose proof starts_uncut as H. rewrite forallb_forall in H.
  specialize (H _ He). rewrite forallb_forall in H. apply list_elem_of_In in Hn.
  destruct (proj1 (existsb_exists _ _) (H1 n Hn)) as (n' & Hn' & <-%Z.eqb_eq). specialize (H _ Hn').
  cbn [fst snd] in H. lia.
Qed.

Lemma delta_rep s b : delta s b = delta s (rep b).
Proof.
  unfold delta. destruct (states !! s) as [st|] eqn:E; [|done]. simpl.
  pose proof states_respect as H. rewrite forallb_forall in H.
  specialize (H (s, st) (proj1 (list_elem_of_In _ _) (proj2 (elem_of_map_to_list _ _ _) E))).
  by rewrite (branch_rep st b H).
Qed.

(** ** The scanner accepts the grammar *)

Definition is_final (s : Z) : bool := uri_parser_first_final <=? s.

(** 580 pairs of a state and a set of derivatives are enough. *)
Lemma uri_found : found (agrees delta reps is_final) (Z.to_nat 20000) [(uri_parser_start, [URI_reference])] = true.
Proof. vm_cast_no_check (eq_refl true). Qed.

Lemma uri_respects : respects uri_classes URI_reference = true.
Proof. vm_cast_no_check (eq_refl true). Qed.

Lemma scanner_accepts w : accepts delta is_final uri_parser_start w = true ↔ matches URI_reference w.
Proof.
  destruct (found_closed _ _ _ uri_found) as (P & HP & Hin). rewrite <-any_matches_single.
  apply (agree_accepts delta reps rep uri_classes uri_classes_rep rep_in delta_rep is_final P); [exact HP| |apply Hin; by left].
  intros r Hr. apply list_elem_of_singleton in Hr as ->. exact uri_respects.
Qed.

(** ** [Uri::create] *)

(** What a run that only sets fields and may fault ends with. *)
Definition fault_of {S A} (x : outcome S A) (P : A → S → Prop) : Prop :=
  match x with
  | Ret a s => P a s
  | Throw _ _ => False
  | Fault f => f = NullDeref ∨ f = BadConversion
  end.

Lemma fault_of_bind {S A B} (x : M S A) (f : A → M S B) s (P : B → S → Prop) :
  fault_of (x s) (λ a s', fault_of (f a s') P) → fault_of (mbind' x f s) P.
Proof. unfold mbind'. by destruct (x s). Qed.

Lemma fault_of_mono {S A} (x : outcome S A) (P Q : A → S → Prop) : (∀ a s, P a s → Q a s) → fault_of x P → fault_of x Q.
Proof. destruct x; simpl; auto. Qed.

Lemma perform_faults w p a c : fault_of (perform w p a c) (λ _ _, True).
Proof.
  destruct c as [[m|] u], a; unfold perform, marked; try done; mrun; cbn [mark].
  all: repeat case_bool_decide; try done; mrun; try (by left).
  destruct (atoi (drop m w)); [done|by right].
Qed.

Lemma performs_faults w p l c : fault_of (performs w p l c) (λ _ _, True).
Proof.
  unfold performs. revert c. induction l as [|a l IH]; intros c; [done|]. cbn [mfor].
  apply fault_of_bind. refine (fault_of_mono _ _ _ _ (perform_faults w p a c)). intros _ c' _. apply IH.
Qed.

(** The state the loop ends in is the one of [run]. *)
Lemma scan_loop_run w rest p s c : fault_of (scan_loop w rest p s c) (λ r _, r = fst <$> run delta s p rest).
Proof.
  revert p s c. induction rest as [|b rest IH]; intros p s c; [done|]. cbn [scan_loop run].
  destruct (delta s b) as [[A t]|]; [|done]. apply fault_of_bind.
  refine (fault_of_mono _ _ _ _ (performs_faults w p A c)). intros _ c' _.
  refine (fault_of_mono _ _ _ _ (IH (S p) t c')). intros r _ ->. cbn.
  by destruct (run delta t (S p) rest) as [[? ?]|].
Qed.

Lemma create_answer w : fault_of (Uri_create w) (λ r _, is_Some r ↔ matches URI_reference w).
Proof.
  eapply (fault_of_mono _ (λ r _, is_Some r ↔ accepts delta is_final uri_parser_start w = true));
    [intros r c; by rewrite scanner_accepts|].
  unfold Uri_create, create_loop, accepts. apply fault_of_bind.
  refine (fault_of_mono _ _ _ _ (scan_loop_run w w 0 uri_parser_start _)). intros r c ->.
  destruct (run delta uri_parser_start 0 w) as [[t evs]|]; cbn; [|split; [by intros [? ?]|done]].
  apply fault_of_bind. refine (fault_of_mono _ _ _ _ (performs_faults w _ _ c)). intros _ c' _. cbn. mrun. cbn.
  unfold is_final, uri_parser_error, uri_parser_first_final.
  destruct (Z.eqb_spec t 0) as [->|_]; [by split; [intros [? ?]|]|].
  by destruct (451 <=? t).
Qed.

(** C5: [Uri::create] answers with an object exactly for the texts of the
    grammar of uri.rl, and with a null pointer for all others; it never throws,
    and the only ways not to answer are reading a null [mark] and an [atoi] of
    a number outside int (see [uri_total] for when neither happens). *)
Theorem uri_accepts_grammar w :
  match Uri_create w with
  | Ret r _ => is_Some r ↔ matches URI_reference w
  | Throw _ _ => False
  | Fault f => f = NullDeref ∨ f = BadConversion
  end.
Proof. exact (create_answer w). Qed.
