(* ===== verification/UriParts.v ===== *)
(** * The parts of a URI

    A URI with an authority is taken apart into the parts it was made of, and
    the text of a Uri object parses to an object with the same accessors. *)

From Stdlib Require Import Ascii String.
From stdpp Require Import pretty.
From S2P Require Import Prelude Codec Address Regex Scanner UriTable Uri UriGrammar UriSpec.
#[local] Open Scope Z_scope.

(** ** Scanning along a stretch of the text *)
Section Scanning.
Context (w : list byte).

Lemma mfor_app {S A} (l1 l2 : list A) (f : A → M S unit) s :
  mfor (l1 ++ l2) f s = mbind' (mfor l1 f) (λ _, mfor l2 f) s.
Proof.
  revert s. induction l1 as [|a l1 IH]; intros s; [done|]. cbn [app mfor]. unfold mbind' at 1 3.
  unfold mbind' in IH |- *. destruct (f a s); [apply IH|done..].
Qed.

Lemma mfor_fmap {S A B} (g : A → B) (l : list A) (f : B → M S unit) s : mfor (g <$> l) f s = mfor l (λ x, f (g x)) s.
Proof.
  revert s. induction l as [|a l IH]; intros s; [done|]. cbn. unfold mbind'. by destruct (f (g a) s).
Qed.

(** Along a stretch the scanner can read, the actions of the run are performed. *)
Lemma scan_run x rest p s t evs c : run delta s p x = Some (t, evs) →
  scan_loop w (x ++ rest) p s c =
  mbind' (mfor evs (λ e, perform w e.1 e.2)) (λ _, scan_loop w rest (p + length x) t) c.
Proof.
  revert s p evs c. induction x as [|b x IH]; intros s p evs c E.
  - change (Some (s, []) = Some (t, evs)) in E. injection E as <- <-. cbn. by rewrite Nat.add_0_r.
  - apply run_cons in E as (A & s1 & evs' & Ed & Er & ->).
    cbn [app scan_loop length]. rewrite Ed. unfold mbind' at 1 2. unfold performs.
    rewrite mfor_app. unfold mbind'. rewrite mfor_fmap. cbn [fst snd].
    change (mfor A (λ x0, perform w p x0)) with (mfor A (perform w p)).
    destruct (mfor A (perform w p) c) as [[] c1| |]; [|done..].
    rewrite (IH _ _ _ _ Er). unfold mbind'. by rewrite Nat.add_succ_r.
Qed.

(** A segment, in the sense of [segment_run], and a single byte. *)
Lemma scan_segment T fuel S A r s x rest p c : segment_ok delta reps uri_classes T fuel S A r = true → s ∈ S →
  matches r x → x ≠ [] →
  ∃ t, t ∈ T ∧ scan_loop w (x ++ rest) p s c =
  mbind' (performs w p A) (λ _, scan_loop w rest (p + length x) t) c.
Proof.
  intros H1 H2 H3 H4.
  destruct (segment_run delta reps rep uri_classes uri_classes_rep rep_in delta_rep T fuel S A r s x p H1 H2 H3 H4) as (t & Ht & E).
  exists t. split; [done|]. rewrite (scan_run _ _ _ _ _ _ _ E). unfold mbind', performs. by rewrite mfor_fmap.
Qed.

Definition steps_ok (S : list Z) (b : byte) (A : list action) (T : list Z) : bool :=
  forallb (λ s, match delta s b with Some (A', t) => bool_decide (A' = A ∧ t ∈ T) | None => false end) S.

Lemma scan_step S b A T s rest p c : steps_ok S b A T = true → s ∈ S →
  ∃ t, t ∈ T ∧ scan_loop w (b :: rest) p s c =
  mbind' (performs w p A) (λ _, scan_loop w rest (Datatypes.S p) t) c.
Proof.
  unfold steps_ok. rewrite forallb_forall. intros H Hs. specialize (H s (proj1 (list_elem_of_In _ _) Hs)).
  destruct (delta s b) as [[A' t]|] eqn:E; [|done]. apply bool_decide_eq_true in H as [-> Ht].
  exists t. split; [done|]. cbn [scan_loop]. by rewrite E.
Qed.

(** *** The actions, with [mark] set *)

Definition sub (m p : nat) : list byte := take (p - m) (drop m w).

Lemma sub_mid pre x post m p : w = pre ++ x ++ post → m = length pre → p = (m + length x)%nat → sub m p = x.
Proof.
  intros E -> ->. unfold sub. rewrite E, drop_app_length. replace (_ + _ - _)%nat with (length x) by lia.
  by rewrite take_app_length.
Qed.

Section Perform.
Context (p m : nat) (u : Uri) (l : list action).

Lemma do_MarkH c : performs w p (MarkH :: l) c = performs w p l (mkScan (Some p) (uri c)).
Proof. done. Qed.
Lemma do_MarkU c : performs w p (MarkU :: l) c = performs w p l (mkScan (Some p) (uri c)).
Proof. done. Qed.
Lemma do_SaveScheme : performs w p (SaveScheme :: l) (mkScan (Some m) u) =
    performs w p l (mkScan None (setScheme (sub m p) u)).
Proof. done. Qed.
Lemma do_SaveUserinfo : performs w p (SaveUserinfo :: l) (mkScan (Some m) u) =
    performs w p l (mkScan None (setUserinfo (sub m p) u)).
Proof. done. Qed.
Lemma do_SaveHost : performs w p (SaveHost :: l) (mkScan (Some m) u) =
    performs w p l (mkScan (Some m) (setHost (sub m p) u)).
Proof. done. Qed.
Lemma do_SavePath : performs w p (SavePath :: l) (mkScan (Some m) u) =
    performs w p l (mkScan None (setPath (sub m p) u)).
Proof. done. Qed.
Lemma do_SaveQuery : performs w p (SaveQuery :: l) (mkScan (Some m) u) =
    performs w p l (mkScan None (setQuery (sub m p) u)).
Proof. done. Qed.
Lemma do_SaveFragment : performs w p (SaveFragment :: l) (mkScan (Some m) u) =
    performs w p l (mkScan None (setFragment (sub m p) u)).
Proof. done. Qed.
Lemma do_SavePort v : m ≠ p → atoi (drop m w) = Some v →
    performs w p (SavePort :: l) (mkScan (Some m) u) = performs w p l (mkScan None (setPort (u16 v) u)).
Proof.
  intros Hm Hv. unfold performs. cbn [mfor]. unfold mbind' at 1. cbn [perform]. mrun. cbn [mark].
  rewrite bool_decide_eq_false_2 by congruence. by rewrite Hv.
Qed.
End Perform.

Lemma sub_app pre x post : w = pre ++ x ++ post → sub (length pre) (length (pre ++ x)) = x.
Proof. intros E. eapply sub_mid; [exact E|reflexivity|apply length_app]. Qed.

Lemma sub_same p : sub p p = [].
Proof. unfold sub. by rewrite Nat.sub_diag. Qed.
End Scanning.

(** ** From a state to the end of the text *)
Section Finish.
Context (w : list byte).

(** What [Uri::create] does with the rest of the text. *)
Definition finish (rest : list byte) (p : nat) (s : Z) : M scan (option Uri) :=
  cs <- scan_loop w rest p s;;
  match cs with
  | None => mreturn None
  | Some cs =>
    performs w (length w) (eof_actions cs);;
    s <- mget;;
    mreturn (if cs =? uri_parser_error then None
             else if uri_parser_first_final <=? cs then Some (uri s) else None)
  end.

Lemma create_finish : Uri_create w = finish w 0 uri_parser_start (mkScan None Uri_new).
Proof. reflexivity. Qed.

Lemma finish_segment T fuel S A r s x rest p c c' :
  segment_ok delta reps uri_classes T fuel S A r = true → s ∈ S → matches r x → x ≠ [] →
  performs w p A c = Ret tt c' → ∃ t, t ∈ T ∧ finish (x ++ rest) p s c = finish rest (p + length x) t c'.
Proof.
  intros H1 H2 H3 H4 E. destruct (scan_segment w T fuel S A r s x rest p c H1 H2 H3 H4) as (t & Ht & Es).
  exists t. split; [done|]. unfold finish. unfold mbind' at 1. rewrite Es. unfold mbind' at 1. by rewrite E.
Qed.

Lemma finish_step S b A T s rest p c c' : steps_ok S b A T = true → s ∈ S → performs w p A c = Ret tt c' →
  ∃ t, t ∈ T ∧ finish (b :: rest) p s c = finish rest (Datatypes.S p) t c'.
Proof.
  intros H1 H2 E. destruct (scan_step w S b A T s rest p c H1 H2) as (t & Ht & Es).
  exists t. split; [done|]. unfold finish. unfold mbind' at 1. rewrite Es. unfold mbind' at 1. by rewrite E.
Qed.

Lemma finish_end s p c c' A : eof_actions s = A → is_final s = true → performs w (length w) A c = Ret tt c' →
  finish [] p s c = Ret (Some (uri c')) c'.
Proof.
  intros <- Hf E. unfold finish. cbn [scan_loop]. rewrite (bind_Ret (mreturn (Some s)) _ c (Some s) c eq_refl).
  mstep E. rewrite (bind_Ret mget _ c' c' c' eq_refl). mend. unfold is_final in Hf. rewrite Hf.
  destruct (Z.eqb_spec s uri_parser_error) as [->|]; [done|]. reflexivity.
Qed.

(** *** Fragment, query, path *)

Definition prefixed (c : string) (v : option (list byte)) : list byte :=
  match v with Some v => text c ++ v | None => [] end.
Definition set_opt (f : list byte → Uri → Uri) (v : option (list byte)) (u : Uri) : Uri :=
  match v with Some v => f v u | None => u end.
Definition opt_matches (r : re) (v : option (list byte)) : Prop :=
  match v with Some v => matches r v | None => True end.

Lemma finish_fragment pre f m u : w = pre ++ f → matches fragment f →
  ∃ c, finish f (length pre) 453 (mkScan m u) = Ret (Some (setFragment f u)) c.
Proof.
  intros E Hf. destruct f as [|b f].
  - eexists. rewrite (finish_end 453 _ _ (mkScan None (setFragment [] u)) [MarkU; SaveFragment]); [done|done|done|].
    rewrite do_MarkU, do_SaveFragment, sub_same. done.
  - destruct (finish_segment [454] 2000 [453] [MarkU] fragment 453 (b :: f) [] (length pre) (mkScan m u)
      (mkScan (Some (length pre)) u)) as (t & Ht & Ef); [vm_cast_no_check (eq_refl true)|set_solver|done|done|done|].
    rewrite app_nil_r in Ef. apply list_elem_of_singleton in Ht as ->. rewrite Ef. eexists.
    rewrite (finish_end 454 _ _ (mkScan None (setFragment (b :: f) u)) [SaveFragment]); [done|done|done|].
    rewrite do_SaveFragment, (sub_mid w pre (b :: f) []); [done|by rewrite app_nil_r|done|].
    rewrite E, length_app. done.
Qed.

(** The actions with which the part before the fragment ends are the same at
    "#" and at the end of the text; with "?", if it is before the query, too. *)
Definition ends_before_fragment (A : list action) (s : Z) : bool :=
  steps_ok [s] Byte.x23 A [453] && bool_decide (eof_actions s = A) && is_final s.
Definition ends_before_query (A : list action) (s : Z) : bool :=
  steps_ok [s] Byte.x3f A [456] && ends_before_fragment A s.

Lemma finish_hash A s pre f c m u : ends_before_fragment A s = true → w = pre ++ prefixed "#" f →
  opt_matches fragment f → performs w (length pre) A c = Ret tt (mkScan m u) →
  ∃ c', finish (prefixed "#" f) (length pre) s c = Ret (Some (set_opt setFragment f u)) c'.
Proof.
  intros [[H1 H2]%andb_true_iff H3]%andb_true_iff E Hf Ep. apply bool_decide_eq_true in H2. destruct f as [f|].
  - destruct (finish_step [s] Byte.x23 A [453] s f (length pre) c _ H1 ltac:(by left) Ep) as (t & Ht & Ef).
    apply list_elem_of_singleton in Ht as ->. change (prefixed "#" (Some f)) with (Byte.x23 :: f) in *. rewrite Ef.
    destruct (finish_fragment (pre ++ [Byte.x23]) f m u) as [c' Ec]; [by rewrite <-(assoc_L app)|done|].
    exists c'. cbn [set_opt]. rewrite <-Ec. f_equal. rewrite length_app. simpl. lia.
  - change (prefixed "#" None) with (@nil byte) in *. rewrite app_nil_r in E.
    assert (El : length w = length pre) by (by rewrite E). rewrite <-El in Ep.
    exists (mkScan m u). exact (finish_end s (length pre) c (mkScan m u) A H2 H3 Ep).
Qed.

Lemma finish_query pre q f m u : w = pre ++ q ++ prefixed "#" f → matches query q → opt_matches fragment f →
  ∃ c, finish (q ++ prefixed "#" f) (length pre) 456 (mkScan m u) = Ret (Some (set_opt setFragment f (setQuery q u))) c.
Proof.
  intros E Hq Hf. destruct q as [|b q].
  - apply (finish_hash [MarkU; SaveQuery] 456 pre f _ None (setQuery [] u)); [vm_compute; reflexivity|done|done|].
    by rewrite do_MarkU, do_SaveQuery, sub_same.
  - destruct (finish_segment [457] 2000 [456] [MarkU] query 456 (b :: q) (prefixed "#" f) (length pre) (mkScan m u)
      (mkScan (Some (length pre)) u)) as (t & Ht & Ef); [vm_cast_no_check (eq_refl true)|set_solver|done|done|done|].
    apply list_elem_of_singleton in Ht as ->. rewrite Ef, <-length_app.
    apply (finish_hash [SaveQuery] 457 (pre ++ b :: q) f _ None (setQuery (b :: q) u)); [vm_compute; reflexivity|by rewrite <-(assoc_L app)|done|].
    rewrite do_SaveQuery, (sub_app w _ _ _ E). reflexivity.
Qed.

(** The end of the part before the query. *)
Definition after_path (q f : option (list byte)) : list byte := prefixed "?" q ++ prefixed "#" f.

Lemma finish_flush A s pre q f c m u : ends_before_query A s = true → w = pre ++ after_path q f →
  opt_matches query q → opt_matches fragment f → performs w (length pre) A c = Ret tt (mkScan m u) →
  ∃ c', finish (after_path q f) (length pre) s c =
  Ret (Some (set_opt setFragment f (set_opt setQuery q u))) c'.
Proof.
  intros [H1 H2]%andb_true_iff E Hq Hf Ep. unfold after_path in *. destruct q as [q|].
  - destruct (finish_step [s] Byte.x3f A [456] s (q ++ prefixed "#" f) (length pre) c _ H1 ltac:(by left) Ep)
      as (t & Ht & Ef).
    apply list_elem_of_singleton in Ht as ->.
    change (prefixed "?" (Some q) ++ prefixed "#" f) with (Byte.x3f :: q ++ prefixed "#" f) in *. rewrite Ef.
    destruct (finish_query (pre ++ [Byte.x3f]) q f m u) as [c' Ec]; [by rewrite <-(assoc_L app)|done|done|].
    exists c'. cbn [set_opt]. rewrite <-Ec. f_equal. rewrite length_app. simpl. lia.
  - by eapply finish_hash.
Qed.

(** The end of an authority: [Ap] at the "/" of a path, [Af] without one. *)
Definition ends_authority (Ap Af : list action) (S : list Z) : bool :=
  segment_ok delta reps uri_classes [513] 2000 S Ap path_abempty && forallb (ends_before_query Af) S.

Lemma finish_authority S Ap Af s pre path q f c m u : ends_authority Ap Af S = true → s ∈ S →
  w = pre ++ path ++ after_path q f → matches path_abempty path → opt_matches query q → opt_matches fragment f →
  performs w (length pre) Ap c = Ret tt (mkScan (Some (length pre)) u) →
  performs w (length pre) Af c = Ret tt (mkScan m (setPath [] u)) →
  ∃ c', finish (path ++ after_path q f) (length pre) s c =
  Ret (Some (set_opt setFragment f (set_opt setQuery q (setPath path u)))) c'.
Proof.
  intros [H1 H2]%andb_true_iff Hs E Hp Hq Hf Ep Ef. destruct path as [|b path].
  - rewrite forallb_forall in H2.
    apply (finish_flush Af s pre q f c m (setPath [] u)); [|exact E|exact Hq|exact Hf|exact Ef].
    apply H2, list_elem_of_In, Hs.
  - destruct (finish_segment [513] 2000 S Ap path_abempty s (b :: path) (after_path q f) (length pre) c _
      H1 Hs Hp ltac:(done) Ep) as (t & Ht & Es).
    clear H1 H2. apply list_elem_of_singleton in Ht as ->. rewrite Es, <-length_app.
    apply (finish_flush [SavePath] 513 (pre ++ b :: path) q f _ None (setPath (b :: path) u)); [vm_compute; reflexivity|by rewrite <-(assoc_L app)|exact Hq|exact Hf|].
    rewrite do_SavePath, (sub_app w _ _ _ E). reflexivity.
Qed.
End Finish.

(** ** The authority *)

(** Where a segment can end, for the sets of states below. *)
Definition succs (s : Z) (R : list re) : option (list (Z * list re)) :=
  gather (λ b, Some match pds b R, delta s b with [], _ | _, None => [] | D, Some (_, t) => [(t, D)] end) reps.
Definition seg_states (S : list Z) (r : re) : list Z :=
  let todo := default [] (gather (λ s, succs s [r]) S) in
  remove_dups (fst <$> filter (λ e, existsb nullables e.2 = true)
    (map_to_list (default ∅ (search succs 4000 todo ∅)))).

(** After "scheme://", after the "@" behind the userinfo, in a host, in a
    userinfo without a colon, after its first colon, and in a port. *)
Definition at_authority : list Z := [511].
Definition at_host : list Z := [511; 522].
Definition in_host : list Z := Eval vm_compute in seg_states at_host host.
Definition in_user : list Z := Eval vm_compute in seg_states at_authority reg_name.
Definition at_port : list Z := [514; 521].
Definition in_port : list Z := [515; 542].

Lemma matches_star_class l x : matches (RStar (RCls l)) x → Forall (λ b, in_class b l = true) x.
Proof.
  remember (RStar (RCls l)) as r eqn:E. induction 1 as [| | | | | |? w1 w2 Hne H1 _ H2 IH]; try done.
  injection E as ->. apply Forall_app. split; [|by apply IH]. inversion H1; subst. by constructor.
Qed.

Definition not_digit (x : list byte) : Prop := match x with b :: _ => is_digit b = false | [] => True end.

Lemma digits_app ds x acc : Forall (λ b, is_digit b = true) ds → not_digit x → digits acc (ds ++ x) = digits acc ds.
Proof.
  intros Hd Hx. revert acc. induction Hd as [|b ds Hb _ IH]; intros acc; cbn [app digits].
  - destruct x as [|b x]; [done|]. cbn [digits]. unfold not_digit in Hx. by rewrite Hx.
  - rewrite Hb. apply IH.
Qed.

(** [atoi] of digits. *)
Lemma atoi_digits b ds x : Forall (λ b, is_digit b = true) (b :: ds) → not_digit x → srange 32 (digits 0 (b :: ds)) →
  atoi ((b :: ds) ++ x) = Some (digits 0 (b :: ds)).
Proof.
  intros Hd Hx Hr. pose proof (digits_app _ _ 0 Hd Hx) as E. apply Forall_cons in Hd as [Hb _].
  assert (Hs : forall_bytes (λ b, implb (is_digit b)
    (negb (is_space b) && negb (byte.unsigned b =? 45) && negb (byte.unsigned b =? 43))) = true)
    by (vm_compute; reflexivity).
  pose proof (forall_bytes_spec _ Hs b) as Hf. cbv beta in Hf. rewrite Hb in Hf. cbn [implb] in Hf.
  apply andb_true_iff in Hf as [[H1%negb_true_iff H2%negb_true_iff]%andb_true_iff H3%negb_true_iff].
  unfold atoi. cbn [app drop_spaces]. rewrite H1, H2, H3. change (b :: ds ++ x) with ((b :: ds) ++ x).
  rewrite E. by rewrite decide_True.
Qed.

(** What follows an authority begins with "/", "?" or "#". *)
Lemma after_authority_not_digit path q f : matches path_abempty path → not_digit (path ++ after_path q f).
Proof.
  intros Hp. destruct path as [|b path].
  - destruct q as [q|]; [reflexivity|]. by destruct f.
  - simpl. assert (H : forall_bytes (λ b, implb (is_digit b) (bool_decide (pds b [path_abempty] = []))) = true)
      by (vm_compute; reflexivity).
    pose proof (forall_bytes_spec _ H b) as Hb. cbv beta in Hb. destruct (is_digit b); [|done]. cbn [implb] in Hb.
    apply bool_decide_eq_true in Hb. apply any_matches_single, pds_matches in Hp. rewrite Hb in Hp.
    by apply not_any_matches_nil in Hp.
Qed.

Section Authority.
Context (w path : list byte) (q f : option (list byte)).
Context (Hp : matches path_abempty path) (Hq : opt_matches query q) (Hf : opt_matches fragment f).

Definition rest_set (u : Uri) : Uri := set_opt setFragment f (set_opt setQuery q (setPath path u)).

Lemma finish_port pre ds s c : s ∈ at_port → w = pre ++ ds ++ path ++ after_path q f → matches port ds → ds ≠ [] →
  srange 32 (digits 0 ds) →
  ∃ c', finish w (ds ++ path ++ after_path q f) (length pre) s c =
  Ret (Some (rest_set (setPort (u16 (digits 0 ds)) (uri c)))) c'.
Proof using Hp Hq Hf.
  intros Hs E Hds Hne Hr.
  destruct (finish_segment w in_port 2000 at_port [MarkH] port s ds (path ++ after_path q f) (length pre) c
    (mkScan (Some (length pre)) (uri c))) as (t & Ht & Es); [vm_cast_no_check (eq_refl true)|exact Hs|exact Hds|exact Hne|reflexivity|].
  rewrite Es, <-length_app.
  assert (Ea : atoi (drop (length pre) w) = Some (digits 0 ds)).
  { rewrite E, drop_app_length. destruct ds as [|b ds]; [done|].
    apply atoi_digits; [by apply matches_star_class in Hds|by apply after_authority_not_digit|exact Hr]. }
  assert (Hm : length pre ≠ length (pre ++ ds)) by (rewrite length_app; destruct ds; [done|simpl; lia]).
  apply (finish_authority w in_port [SavePort; MarkH] [SavePort; MarkH; SavePath] t (pre ++ ds) path q f _ None);
    [vm_cast_no_check (eq_refl true)|exact Ht|by rewrite <-(assoc_L app)|exact Hp|exact Hq|exact Hf| |].
  - by rewrite (do_SavePort w _ _ _ _ _ Hm Ea).
  - rewrite (do_SavePort w _ _ _ _ _ Hm Ea), do_MarkH, do_SavePath, sub_same. reflexivity.
Qed.

(** ":port", and the port it sets. *)
Definition port_part (pt : option (list byte)) : list byte := prefixed ":" pt.
Definition port_ok (pt : option (list byte)) : Prop :=
  match pt with Some ds => matches port ds ∧ ds ≠ [] ∧ srange 32 (digits 0 ds) | None => True end.
Definition set_port (pt : option (list byte)) (u : Uri) : Uri :=
  match pt with Some ds => setPort (u16 (digits 0 ds)) u | None => u end.

(** A host that was read, from a state that saves it with the actions [As]. *)
Lemma finish_after_host S As Ap Af pre pt s c m u :
  ends_authority Ap Af S = true → steps_ok S Byte.x3a As at_port = true → s ∈ S →
  w = pre ++ port_part pt ++ path ++ after_path q f → port_ok pt →
  performs w (length pre) As c = Ret tt (mkScan m u) →
  performs w (length pre) Ap c = Ret tt (mkScan (Some (length pre)) u) →
  performs w (length pre) Af c = Ret tt (mkScan None (setPath [] u)) →
  ∃ c', finish w (port_part pt ++ path ++ after_path q f) (length pre) s c = Ret (Some (rest_set (set_port pt u))) c'.
Proof using Hp Hq Hf.
  intros H1 H2 Hs E Hpt Es Ep Ef. destruct pt as [ds|].
  - clear H1. destruct Hpt as (Hds & Hne & Hr).
    change (port_part (Some ds)) with (Byte.x3a :: ds) in *. cbn [app] in *.
    destruct (finish_step w S Byte.x3a As at_port s (ds ++ path ++ after_path q f) (length pre) c _ H2 Hs Es)
      as (t & Ht & Et). clear H2. rewrite Et.
    destruct (finish_port (pre ++ [Byte.x3a]) ds t (mkScan m u) Ht) as [c' Ec];
      [by rewrite <-(assoc_L app)|exact Hds|exact Hne|exact Hr|].
    exists c'. cbn [set_port uri] in *. rewrite <-Ec. f_equal. rewrite length_app. simpl. lia.
  - clear H2. change (port_part None) with (@nil byte) in *. cbn [app] in *.
    exact (finish_authority w S Ap Af s pre path q f c None u H1 Hs E Hp Hq Hf Ep Ef).
Qed.

Lemma finish_host pre h pt s c : s ∈ at_host → w = pre ++ h ++ port_part pt ++ path ++ after_path q f →
  matches host h → port_ok pt →
  ∃ c', finish w (h ++ port_part pt ++ path ++ after_path q f) (length pre) s c =
  Ret (Some (rest_set (set_port pt (setHost h (uri c))))) c'.
Proof using Hp Hq Hf.
  intros Hs E Hh Hpt. destruct h as [|b h].
  - apply (finish_after_host at_host [MarkH; SaveHost] [MarkH; SaveHost] [MarkH; SaveHost; SavePath] pre pt s c
      (Some (length pre)) (setHost [] (uri c)));
      [vm_cast_no_check (eq_refl true)|vm_compute; reflexivity|exact Hs|exact E|exact Hpt|..];
      rewrite do_MarkH, do_SaveHost, sub_same; [reflexivity..|].
    rewrite do_SavePath, sub_same. reflexivity.
  - destruct (finish_segment w in_host 4000 at_host [MarkH] host s (b :: h) (port_part pt ++ path ++ after_path q f)
      (length pre) c (mkScan (Some (length pre)) (uri c))) as (t & Ht & Es);
      [vm_cast_no_check (eq_refl true)|exact Hs|exact Hh|discriminate|reflexivity|].
    rewrite Es, <-length_app. pose proof (sub_app w _ _ _ E) as Esub.
    apply (finish_after_host in_host [SaveHost] [SaveHost; MarkH] [SaveHost; MarkH; SavePath] (pre ++ b :: h) pt t _
      (Some (length pre)) (setHost (b :: h) (uri c)));
      [vm_cast_no_check (eq_refl true)|vm_compute; reflexivity|exact Ht|by rewrite <-(assoc_L app)|exact Hpt|..];
      rewrite do_SaveHost, Esub; [reflexivity..|].
    rewrite do_MarkH, do_SavePath, sub_same. reflexivity.
Qed.

(** The userinfo: a user, and a password behind a colon. What is saved of one
    whose password begins with a digit is the password only: [MarkH], meant for
    a port, moved [mark]. *)
Definition user_text (us : list byte * option (list byte)) : list byte := us.1 ++ prefixed ":" us.2.
Definition user_part (us : option (list byte * option (list byte))) : list byte :=
  match us with Some us => user_text us ++ text "@" | None => [] end.
Definition user_ok (us : option (list byte * option (list byte))) : Prop :=
  match us with
  | Some (x, None) => matches reg_name x
  | Some (x, Some y) => matches reg_name x ∧ matches userinfo y
  | None => True
  end.
Definition saved_user (us : list byte * option (list byte)) : list byte :=
  match us.2 with Some (b :: y) => if is_digit b then b :: y else user_text us | _ => user_text us end.

(** From the "@" behind a userinfo that was read. *)
Lemma finish_at pre x s c m u h pt : s ∈ in_user ++ [521; 255; 542] → mark c = Some m →
  w = pre ++ Byte.x40 :: h ++ port_part pt ++ path ++ after_path q f → sub w m (length pre) = x →
  matches host h → port_ok pt → set_opt setUserinfo (Some x) (setHost h (uri c)) = u →
  ∃ c', finish w (Byte.x40 :: h ++ port_part pt ++ path ++ after_path q f) (length pre) s c =
  Ret (Some (rest_set (set_port pt u))) c'.
Proof using Hp Hq Hf.
  intros Hs Hm E Hx Hh Hpt Hu. destruct c as [m' u0]. simpl in Hm. subst m'.
  destruct (finish_step w (in_user ++ [521; 255; 542]) Byte.x40 [SaveUserinfo] [522] s
    (h ++ port_part pt ++ path ++ after_path q f) (length pre) (mkScan (Some m) u0) (mkScan None (setUserinfo x u0)))
    as (t & Ht & Es); [vm_cast_no_check (eq_refl true)|exact Hs|by rewrite do_SaveUserinfo, Hx|].
  rewrite Es. apply list_elem_of_singleton in Ht as ->.
  destruct (finish_host (pre ++ [Byte.x40]) h pt 522 (mkScan None (setUserinfo x u0))) as [c' Ec];
    [by right; left|by rewrite <-(assoc_L app)|exact Hh|exact Hpt|].
  exists c'. rewrite <-Hu. cbn [uri set_opt] in *. change (setUserinfo x (setHost h u0)) with (setHost h (setUserinfo x u0)).
  rewrite <-Ec. f_equal. rewrite length_app. simpl. lia.
Qed.

(** The user, up to a state in which [mark] is its beginning. *)
Lemma finish_reg_name pre x z c : matches reg_name x → x ≠ [] → ∃ t, t ∈ in_user ∧
  finish w (x ++ z) (length pre) 511 c = finish w z (length (pre ++ x)) t (mkScan (Some (length pre)) (uri c)).
Proof using Type.
  intros Hm Hne. destruct (finish_segment w in_user 2000 [511] [MarkH] reg_name 511 x z (length pre) c
    (mkScan (Some (length pre)) (uri c))) as (t & Ht & Es);
    [vm_cast_no_check (eq_refl true)|by left|exact Hm|exact Hne|reflexivity|].
  exists t. split; [exact Ht|]. by rewrite length_app.
Qed.

(** The user and the colon behind it: what came before the colon is taken for
    the host, for now. *)
Lemma finish_colon pre x z c : matches reg_name x → w = pre ++ x ++ Byte.x3a :: z →
  ∃ u, (∀ h, setHost h u = setHost h (uri c)) ∧ finish w (x ++ Byte.x3a :: z) (length pre) 511 c =
  finish w z (length (pre ++ x ++ [Byte.x3a])) 521 (mkScan (Some (length pre)) u).
Proof using Type.
  intros Hm E. exists (setHost x (uri c)). split; [done|]. destruct x as [|b x].
  - destruct (finish_step w [511] Byte.x3a [MarkH; SaveHost] [521] 511 z (length pre) c
      (mkScan (Some (length pre)) (setHost [] (uri c)))) as (t & Ht & Es);
      [vm_compute; reflexivity|by left|by rewrite do_MarkH, do_SaveHost, sub_same|].
    apply list_elem_of_singleton in Ht as ->. cbn [app]. rewrite Es. f_equal. rewrite length_app. simpl. lia.
  - destruct (finish_reg_name pre (b :: x) (Byte.x3a :: z) c Hm ltac:(discriminate)) as (t & Ht & ->).
    destruct (finish_step w in_user Byte.x3a [SaveHost] [521] t z (length (pre ++ b :: x))
      (mkScan (Some (length pre)) (uri c)) (mkScan (Some (length pre)) (setHost (b :: x) (uri c)))) as (t' & Ht' & Es);
      [vm_compute; reflexivity|exact Ht|by rewrite do_SaveHost, (sub_app w _ _ _ E)|].
    apply list_elem_of_singleton in Ht' as ->. rewrite Es. f_equal. rewrite !length_app. simpl. lia.
Qed.

(** The first byte of a password tells which of the two it is. *)
Lemma userinfo_cons b y : matches userinfo (b :: y) →
  matches (if is_digit b then RCat digit userinfo else password) (b :: y).
Proof using Type.
  assert (H : forall_bytes (λ b, bool_decide (pds b [userinfo] =
    pds b [if is_digit b then RCat digit userinfo else password])) = true) by (vm_compute; reflexivity).
  pose proof (forall_bytes_spec _ H b) as Hb. apply bool_decide_eq_true in Hb.
  intros Hm%any_matches_single%pds_matches. apply any_matches_single, pds_matches. by rewrite <-Hb.
Qed.

Lemma finish_password pre x y R m u : w = pre ++ x ++ Byte.x3a :: y ++ R → matches userinfo y → m = length pre →
  ∃ t m', t ∈ in_user ++ [521; 255; 542] ∧
  finish w (y ++ R) (length (pre ++ x ++ [Byte.x3a])) 521 (mkScan (Some m) u) =
  finish w R (length ((pre ++ x ++ [Byte.x3a]) ++ y)) t (mkScan (Some m') u) ∧
  sub w m' (length ((pre ++ x ++ [Byte.x3a]) ++ y)) = saved_user (x, Some y).
Proof using Type.
  intros E Hy ->. set (q' := pre ++ x ++ [Byte.x3a]).
  assert (E1 : w = pre ++ (x ++ [Byte.x3a] ++ y) ++ R) by (rewrite E, <-!(assoc_L app); done).
  assert (E2 : w = q' ++ y ++ R) by (rewrite E; unfold q'; rewrite <-!(assoc_L app); done).
  assert (Eq : q' ++ y = pre ++ x ++ [Byte.x3a] ++ y) by (unfold q'; by rewrite <-!(assoc_L app)).
  destruct y as [|b y].
  - exists 521, (length pre). split; [apply elem_of_app; right; by left|]. split; [by rewrite app_nil_r|].
    rewrite Eq. exact (sub_app w _ _ _ E1).
  - pose proof (userinfo_cons b y Hy) as Hm. unfold saved_user. cbn [snd]. destruct (is_digit b).
    + destruct (finish_segment w [255; 542] 2000 [521] [MarkH] (RCat digit userinfo) 521 (b :: y) R (length q')
        (mkScan (Some (length pre)) u) (mkScan (Some (length q')) u)) as (t & Ht & Es);
        [vm_cast_no_check (eq_refl true)|by left|exact Hm|discriminate|reflexivity|].
      exists t, (length q'). split; [apply elem_of_app; right; by right|]. rewrite length_app.
      split; [exact Es|]. rewrite <-length_app. exact (sub_app w _ _ _ E2).
    + destruct (finish_segment w [255] 2000 [521] [] password 521 (b :: y) R (length q')
        (mkScan (Some (length pre)) u) (mkScan (Some (length pre)) u)) as (t & Ht & Es);
        [vm_cast_no_check (eq_refl true)|by left|exact Hm|discriminate|reflexivity|].
      apply list_elem_of_singleton in Ht as ->. exists 255, (length pre). rewrite length_app.
      split; [apply elem_of_app; right; right; by left|]. split; [exact Es|].
      rewrite <-length_app, Eq. exact (sub_app w _ _ _ E1).
Qed.

Lemma finish_user pre us h pt c : w = pre ++ user_part us ++ h ++ port_part pt ++ path ++ after_path q f →
  user_ok us → matches host h → port_ok pt →
  ∃ c', finish w (user_part us ++ h ++ port_part pt ++ path ++ after_path q f) (length pre) 511 c =
  Ret (Some (rest_set (set_port pt (setHost h (set_opt setUserinfo (saved_user <$> us) (uri c)))))) c'.
Proof using Hp Hq Hf.
  intros E Hus Hh Hpt. set (R := h ++ port_part pt ++ path ++ after_path q f) in *.
  destruct us as [[x [y|]]|]; [| |by apply finish_host; [left| | |]].
  - destruct Hus as [Hm Hy].
    assert (Ez : user_part (Some (x, Some y)) ++ R = x ++ Byte.x3a :: y ++ Byte.x40 :: R)
      by (unfold user_part, user_text; cbn [fst snd prefixed]; by rewrite <-!(assoc_L app)).
    rewrite Ez in E |- *. destruct (finish_colon pre x _ c Hm E) as (u & Hu & ->).
    destruct (finish_password pre x y (Byte.x40 :: R) _ u E Hy eq_refl) as (t & m & Ht & -> & Es).
    apply (finish_at _ (saved_user (x, Some y)) t _ m); [exact Ht|reflexivity| |exact Es|exact Hh|exact Hpt|].
    + rewrite E. by rewrite <-!(assoc_L app).
    + cbn [fmap option_fmap option_map set_opt uri].
      change (setHost h (setUserinfo ?v (uri c))) with (setUserinfo v (setHost h (uri c))). by rewrite Hu.
  - assert (Ez : user_part (Some (x, None)) ++ R = x ++ Byte.x40 :: R)
      by (unfold user_part, user_text; cbn [fst snd prefixed]; by rewrite <-!(assoc_L app)).
    assert (Et : saved_user (x, None) = x) by apply app_nil_r.
    rewrite Ez in E |- *. cbn [fmap option_fmap option_map set_opt]. rewrite Et. destruct x as [|b x].
    + cbn [app]. destruct (finish_step w [511] Byte.x40 [MarkH; SaveUserinfo] [522] 511 R (length pre) c
        (mkScan None (setUserinfo [] (uri c)))) as (t & Ht & Es);
        [vm_compute; reflexivity|by left|by rewrite do_MarkH, do_SaveUserinfo, sub_same|].
      apply list_elem_of_singleton in Ht as ->. rewrite Es.
      destruct (finish_host (pre ++ [Byte.x40]) h pt 522 (mkScan None (setUserinfo [] (uri c)))) as [c' Ec];
        [by right; left|by rewrite <-(assoc_L app)|exact Hh|exact Hpt|].
      exists c'. cbn [uri] in Ec. rewrite <-Ec. f_equal. rewrite length_app. simpl. lia.
    + destruct (finish_reg_name pre (b :: x) (Byte.x40 :: R) c Hus ltac:(discriminate)) as (t & Ht & ->).
      apply (finish_at (pre ++ b :: x) (b :: x) t _ (length pre));
        [apply elem_of_app; by left|reflexivity|by rewrite <-(assoc_L app)|exact (sub_app w _ _ _ E)|exact Hh|exact Hpt|done].
Qed.
End Authority.

(** ** The whole URI *)

Record parts := mkParts {
  p_scheme : list byte;
  p_user : option (list byte * option (list byte));
  p_host : list byte;
  p_port : option (list byte);
  p_path : list byte;
  p_query : option (list byte);
  p_fragment : option (list byte);
}.

(** scheme "://" [user [":" password] "@"] host [":" port] path ["?" query] ["#" fragment] *)
Definition render (x : parts) : list byte :=
  p_scheme x ++ text "://" ++ user_part (p_user x) ++ p_host x ++ port_part (p_port x) ++ p_path x ++
  after_path (p_query x) (p_fragment x).

(** Each part is in the grammar; a port is not empty and fits an int. *)
Definition parts_ok (x : parts) : Prop :=
  matches scheme (p_scheme x) ∧ user_ok (p_user x) ∧ matches host (p_host x) ∧ port_ok (p_port x) ∧
  matches path_abempty (p_path x) ∧ opt_matches query (p_query x) ∧ opt_matches fragment (p_fragment x).

Definition parts_uri (x : parts) : Uri :=
  mkUri (p_scheme x) (default [] (saved_user <$> p_user x)) (p_host x)
    (match p_port x with Some ds => u16 (digits 0 ds) | None => 0 end)
    (p_path x) (default [] (p_query x)) (default [] (p_fragment x)).

Definition in_scheme : list Z := Eval vm_compute in seg_states [uri_parser_start] scheme.
Definition after_scheme : list Z := Eval vm_compute in
  remove_dups (in_scheme ≫= λ s, match delta s Byte.x3a with Some (_, t) => [t] | None => [] end).
Definition after_slash : list Z := Eval vm_compute in
  remove_dups (after_scheme ≫= λ s, match delta s Byte.x2f with Some (_, t) => [t] | None => [] end).

Lemma scheme_nonempty x : matches scheme x → x ≠ [].
Proof. intros H ->. by apply matches_nil in H. Qed.

Lemma finish_scheme w s R : w = s ++ text "://" ++ R → matches scheme s →
  finish w (s ++ text "://" ++ R) 0 uri_parser_start (mkScan None Uri_new) =
  finish w R (length (s ++ text "://")) 511 (mkScan None (setScheme s Uri_new)).
Proof.
  intros E Hs. change (text "://" ++ R) with (Byte.x3a :: Byte.x2f :: Byte.x2f :: R) in *.
  destruct (finish_segment w in_scheme 2000 [uri_parser_start] [MarkU] scheme uri_parser_start s
    (Byte.x3a :: Byte.x2f :: Byte.x2f :: R) 0 (mkScan None Uri_new) (mkScan (Some 0%nat) Uri_new)) as (t & Ht & ->);
    [vm_cast_no_check (eq_refl true)|by left|exact Hs|by apply scheme_nonempty|reflexivity|].
  destruct (finish_step w in_scheme Byte.x3a [SaveScheme] after_scheme t (Byte.x2f :: Byte.x2f :: R) (0 + length s)
    (mkScan (Some 0%nat) Uri_new) (mkScan None (setScheme s Uri_new))) as (t1 & Ht1 & ->);
    [vm_compute; reflexivity|exact Ht|by rewrite do_SaveScheme, (sub_app w [] s _ E : sub w 0 (0 + length s) = s)|].
  destruct (finish_step w after_scheme Byte.x2f [] after_slash t1 (Byte.x2f :: R) (S (0 + length s))
    (mkScan None (setScheme s Uri_new)) (mkScan None (setScheme s Uri_new))) as (t2 & Ht2 & ->);
    [vm_compute; reflexivity|exact Ht1|reflexivity|].
  destruct (finish_step w after_slash Byte.x2f [] [511] t2 R (S (S (0 + length s)))
    (mkScan None (setScheme s Uri_new)) (mkScan None (setScheme s Uri_new))) as (t3 & Ht3 & ->);
    [vm_compute; reflexivity|exact Ht2|reflexivity|].
  apply list_elem_of_singleton in Ht3 as ->. f_equal. rewrite length_app. simpl. lia.
Qed.

Lemma create_render x : parts_ok x → ∃ c, Uri_create (render x) = Ret (Some (parts_uri x)) c.
Proof.
  intros (Hs & Hu & Hh & Hpt & Hp & Hq & Hf). rewrite create_finish. unfold render at 2.
  rewrite finish_scheme by (done || exact Hs).
  destruct (finish_user (render x) (p_path x) (p_query x) (p_fragment x) Hp Hq Hf (p_scheme x ++ text "://")
    (p_user x) (p_host x) (p_port x) (mkScan None (setScheme (p_scheme x) Uri_new))) as [c Ec];
    [unfold render; by rewrite <-(assoc_L app)|exact Hu|exact Hh|exact Hpt|].
  exists c. rewrite Ec. f_equal. f_equal. unfold rest_set, parts_uri. by destruct x as [? [[? ?]|] ? [?|] ? [?|] [?|]].
Qed.

(** C7: [Uri::create] takes a URI with an authority apart into the parts it
    was put together from: the scheme, the user and password, the host (a
    name, an IPv4 address or an IP literal), the port, the path, the query and
    the fragment, each with all the bytes the grammar allows there, and those
    that are missing left empty. A port, when there is one, has a digit at
    least and a value within int (without digits [uri_empty_port] says what
    happens), and is stored modulo 2^16; of a user with a password that begins
    with a digit the user is lost ([saved_user]). *)
Theorem uri_components x : parts_ok x → ∃ c, Uri_create (render x) = Ret (Some (parts_uri x)) c.
Proof. apply create_render. Qed.

Definition example_parts : parts :=
  mkParts (text "http") (Some (text "me", Some (text "p:w"))) (text "[2001:db8:0:0:0:0:0:1]") (Some (text "8443"))
    (text "/a/%20b") (Some (text "x=1&y=/?")) (Some (text "top")).

Lemma uri_components_witness : parts_ok example_parts ∧
  render example_parts = text "http://me:p:w@[2001:db8:0:0:0:0:0:1]:8443/a/%20b?x=1&y=/?#top" ∧
  ∃ c, Uri_create (render example_parts) = Ret (Some (parts_uri example_parts)) c.
Proof.
  assert (H : parts_ok example_parts).
  { unfold parts_ok, example_parts, user_ok, port_ok, opt_matches. cbn [p_scheme p_user p_host p_port p_path p_query p_fragment].
    repeat split; try (apply matches_compute; vm_compute; reflexivity); try (vm_compute; done). }
  split; [exact H|]. split; [reflexivity|]. exact (uri_components example_parts H).
Defined.

(** ** An empty port *)

Section EmptyPort.
Context (w path : list byte) (q f : option (list byte)) (Hp : matches path_abempty path).

Lemma finish_step_fault b A t s rest p c : steps_ok [s] b A [t] = true → performs w p A c = Fault NullDeref →
  finish w (b :: rest) p s c = Fault NullDeref.
Proof using Type.
  unfold steps_ok. cbn [forallb]. rewrite andb_true_r. destruct (delta s b) as [[A' t']|] eqn:Ed; [|done].
  intros [-> _]%bool_decide_eq_true E. unfold finish. cbn [scan_loop]. rewrite Ed.
  unfold mbind'. by rewrite E.
Qed.

Lemma finish_flush_fault A s p c : ends_before_query A s = true → (∀ p, performs w p A c = Fault NullDeref) →
  finish w (after_path q f) p s c = Fault NullDeref.
Proof using Type.
  unfold ends_before_query, ends_before_fragment.
  intros [H1 [[H2 H3]%andb_true_iff _]%andb_true_iff]%andb_true_iff E. apply bool_decide_eq_true in H3.
  unfold after_path. destruct q as [q'|]; [exact (finish_step_fault _ _ _ _ _ _ _ H1 (E p))|].
  destruct f as [f'|]; [exact (finish_step_fault _ _ _ _ _ _ _ H2 (E p))|].
  unfold finish. cbn [prefixed app scan_loop]. rewrite (bind_Ret (mreturn (Some s)) _ c (Some s) c eq_refl).
  rewrite H3. unfold mbind'. by rewrite E.
Qed.

Lemma do_SavePort_empty p l c : performs w p (MarkH :: SavePort :: l) c = performs w p l (mkScan None (uri c)).
Proof using Type.
  rewrite do_MarkH. unfold performs. cbn [mfor]. unfold mbind' at 1. cbn [perform]. mrun. cbn [mark].
  by rewrite bool_decide_eq_true_2.
Qed.

(** At an empty port [SavePort] clears [mark] and [SavePath] reads it. *)
Lemma finish_empty_port s p c : s ∈ at_port → finish w (path ++ after_path q f) p s c = Fault NullDeref.
Proof using Hp.
  intros Hs. assert (E : ∀ p, performs w p [MarkH; SavePort; SavePath] c = Fault NullDeref).
  { intros p'. by rewrite do_SavePort_empty. }
  destruct path as [|b path'] eqn:Epath.
  - apply (finish_flush_fault [MarkH; SavePort; SavePath]); [|exact E].
    assert (H : forallb (ends_before_query [MarkH; SavePort; SavePath]) at_port = true) by (vm_compute; reflexivity).
    rewrite forallb_forall in H. apply H, list_elem_of_In, Hs.
  - destruct (finish_segment w [513] 2000 at_port [MarkH; SavePort] path_abempty s (b :: path') (after_path q f) p c
      (mkScan None (uri c))) as (t & Ht & ->); [vm_cast_no_check (eq_refl true)|exact Hs|exact Hp|discriminate| |].
    + by rewrite do_SavePort_empty.
    + apply list_elem_of_singleton in Ht as ->.
      apply (finish_flush_fault [SavePath]); [vm_compute; reflexivity|reflexivity].
Qed.

Lemma finish_host_colon h R pre s c : s ∈ at_host → w = pre ++ h ++ Byte.x3a :: R → matches host h →
  ∃ t c', t ∈ at_port ∧ finish w (h ++ Byte.x3a :: R) (length pre) s c = finish w R (length (pre ++ h ++ [Byte.x3a])) t c'.
Proof using Type.
  intros Hs E Hh. destruct h as [|b h].
  - destruct (finish_step w at_host Byte.x3a [MarkH; SaveHost] at_port s R (length pre) c
      (mkScan (Some (length pre)) (setHost [] (uri c)))) as (t & Ht & Es);
      [vm_compute; reflexivity|exact Hs|by rewrite do_MarkH, do_SaveHost, sub_same|].
    exists t, (mkScan (Some (length pre)) (setHost [] (uri c))). split; [exact Ht|]. cbn [app].
    rewrite Es. f_equal. rewrite length_app. simpl. lia.
  - destruct (finish_segment w in_host 4000 at_host [MarkH] host s (b :: h) (Byte.x3a :: R) (length pre) c
      (mkScan (Some (length pre)) (uri c))) as (t & Ht & ->);
      [vm_cast_no_check (eq_refl true)|exact Hs|exact Hh|discriminate|reflexivity|].
    destruct (finish_step w in_host Byte.x3a [SaveHost] at_port t R (length pre + length (b :: h))
      (mkScan (Some (length pre)) (uri c)) (mkScan (Some (length pre)) (setHost (b :: h) (uri c)))) as (t' & Ht' & Es);
      [vm_compute; reflexivity|exact Ht|by rewrite <-length_app, do_SaveHost, (sub_app w _ _ _ E)|].
    exists t', (mkScan (Some (length pre)) (setHost (b :: h) (uri c))). split; [exact Ht'|]. rewrite Es. f_equal. rewrite !length_app. simpl. lia.
Qed.
End EmptyPort.

(** A URI whose authority ends in a ":" without a port, which the grammar
    allows, makes [Uri::create] build a string from a null pointer, whatever
    its scheme, host, path, query and fragment. *)
Theorem uri_empty_port s h path q f : matches scheme s → matches host h → matches path_abempty path →
  Uri_create (s ++ text "://" ++ h ++ text ":" ++ path ++ after_path q f) = Fault NullDeref.
Proof.
  intros Hs Hh Hp. set (R := path ++ after_path q f). change (text ":" ++ R) with (Byte.x3a :: R).
  set (w := s ++ text "://" ++ h ++ Byte.x3a :: R). rewrite create_finish. unfold w at 2.
  rewrite finish_scheme by (done || exact Hs).
  destruct (finish_host_colon w h R (s ++ text "://") 511 (mkScan None (setScheme s Uri_new))) as (t & c & Ht & ->);
    [by left|unfold w; by rewrite <-(assoc_L app)|exact Hh|].
  exact (finish_empty_port w path q f Hp t _ c Ht).
Qed.

Lemma uri_empty_port_witness : matches URI_reference (text "http://example.org:/a?b") ∧
  Uri_create (text "http://example.org:/a?b") = Fault NullDeref.
Proof.
  split; [apply matches_compute; vm_compute; reflexivity|].
  apply (uri_empty_port (text "http") (text "example.org") (text "/a") (Some (text "b")) None);
    apply matches_compute; vm_compute; reflexivity.
Defined.

(** ** The text of a Uri *)

(** The decimal text of a number consists of its digits. *)
Lemma pretty_digits (x : N) s : ∃ ds, text (pretty_N_go x s) = ds ++ text s ∧
  Forall (λ b, is_digit b = true) ds ∧ (0 < x → ds ≠ [])%N ∧ ∀ acc, digits acc ds = acc * 10 ^ zlen ds + Z.of_N x.
Proof.
  revert s. induction (N.lt_wf_0 x) as [x _ IH]. intros s. destruct (decide (0 < x)%N) as [Hx|Hx].
  - rewrite pretty_N_go_step by done. destruct (IH (x `div` 10)%N ltac:(apply N.div_lt; lia)
      (String (pretty_N_char (x `mod` 10)) s)) as (ds & E & Hd & _ & Hv).
    assert (Hc : ∃ b, text (String (pretty_N_char (x `mod` 10)) s) = b :: text s ∧ is_digit b = true ∧
      digit_value b = Z.of_N (x `mod` 10)).
    { assert (x `mod` 10 < 10)%N as Hm by (apply N.mod_lt; lia).
      generalize dependent (x `mod` 10)%N. intros y _ Hy.
      assert (Hc : (y = 0 ∨ y = 1 ∨ y = 2 ∨ y = 3 ∨ y = 4 ∨ y = 5 ∨ y = 6 ∨ y = 7 ∨ y = 8 ∨ y = 9)%N) by lia.
      destruct_or!; subst y; by eexists. }
    destruct Hc as (b & Eb & Hb & Vb). exists (ds ++ [b]). rewrite E, Eb, <-(assoc_L app).
    split; [done|]. split; [apply Forall_app; by repeat constructor|]. split; [by destruct ds|]. intros acc.
    assert (Happ : ∀ l a, Forall (λ b, is_digit b = true) l → digits a (l ++ [b]) = 10 * digits a l + digit_value b).
    { clear -Hb. intros l. induction l as [|c l IHl]; intros a Hl; cbn [app digits]; [by rewrite Hb|].
      apply Forall_cons in Hl as [-> Hl]. by apply IHl. }
    rewrite Happ, Hv, Vb, zlen_app by done. change (zlen [b]) with 1. rewrite Z.pow_add_r by (done || apply zlen_nonneg).
    rewrite Z.pow_1_r. pose proof (N.div_mod x 10 ltac:(lia)) as Hx'. apply (f_equal Z.of_N) in Hx'.
    rewrite N2Z.inj_add, N2Z.inj_mul in Hx'. change (Z.of_N 10) with 10 in Hx'. revert Hx'. generalize (Z.of_N x). intros y ->. ring.
  - exists []. assert (x = 0)%N as -> by (clear -Hx; lia). split; [done|]. split; [constructor|]. split; [by intros ?%N.lt_irrefl|].
    intros acc. change (acc = acc * 1 + 0). ring.
Qed.

Lemma Forall_digit_port ds : Forall (λ b, is_digit b = true) ds → matches port ds.
Proof.
  induction 1 as [|b ds Hb _ IH]; [constructor|]. apply (MStarApp _ [b]); [done| |done]. by constructor.
Qed.

Lemma port_text_ok n : 0 < n < 2 ^ 16 → matches port (port_text n) ∧ port_text n ≠ [] ∧ digits 0 (port_text n) = n.
Proof.
  intros Hn. unfold port_text, dec.
  assert (E : pretty n = pretty_N_go (Z.to_N n) "").
  { unfold pretty, pretty_Z. destruct n as [|p|p]; [lia| |lia]. unfold pretty, pretty_positive, pretty, pretty_N.
    by rewrite decide_False by done. }
  rewrite E. destruct (pretty_digits (Z.to_N n) "") as (ds & -> & Hd & Hne & Hv).
  rewrite app_nil_r. split; [by apply Forall_digit_port|]. split; [apply Hne; lia|]. rewrite Hv. lia.
Qed.

(** The parts of the text of an object. *)
Definition text_parts (us : option (list byte * option (list byte))) (u : Uri) : parts :=
  mkParts (m_scheme u) us (m_host u) (if isDefaultPort u then None else Some (port_text (m_port u)))
    (getPath u) (if bool_decide (m_query u = []) then None else Some (m_query u))
    (if bool_decide (m_fragment u = []) then None else Some (m_fragment u)).

Definition userinfo_parts (us : option (list byte * option (list byte))) (v : list byte) : Prop :=
  match us with Some us => user_text us = v ∧ saved_user us = v ∧ v ≠ [] | None => v = [] end.

(** An object whose members are in the grammar. *)
Definition uri_wf (us : option (list byte * option (list byte))) (u : Uri) : Prop :=
  matches scheme (m_scheme u) ∧ userinfo_parts us (m_userinfo u) ∧ user_ok us ∧ matches host (m_host u) ∧
  urange 16 (m_port u) ∧ matches path_abempty (m_path u) ∧ matches query (m_query u) ∧ matches fragment (m_fragment u).

Lemma toString_render us u : userinfo_parts us (m_userinfo u) → Uri_toString u = render (text_parts us u).
Proof.
  intros Hus. unfold Uri_toString, render, text_parts, after_path. cbn [p_scheme p_user p_host p_port p_path p_query p_fragment].
  f_equal. f_equal. unfold unless_empty.
  assert (E : m_userinfo u ++ (if bool_decide (m_userinfo u = []) then [] else text "@") = user_part us).
  { destruct us as [us|]; cbn [userinfo_parts] in Hus.
    - destruct Hus as (<- & _ & Hne). by rewrite bool_decide_eq_false_2.
    - by rewrite Hus. }
  rewrite (assoc_L app (m_userinfo u)), E. f_equal. f_equal. f_equal; [by destruct (isDefaultPort u)|].
  f_equal. rewrite (assoc_L app (if bool_decide (m_query u = []) then [] else text "?")).
  clear E. f_equal; by case_bool_decide as Hb; rewrite ?Hb.
Qed.

Lemma text_parts_ok us u : uri_wf us u → parts_ok (text_parts us u).
Proof.
  intros (Hs & _ & Hu & Hh & Hr & Hp & Hq & Hf). unfold parts_ok, text_parts.
  cbn [p_scheme p_user p_host p_port p_path p_query p_fragment].
  split; [exact Hs|]. split; [exact Hu|]. split; [exact Hh|]. split; [|split; [|split]].
  - destruct (isDefaultPort u) eqn:D; [done|]. unfold isDefaultPort in D. destruct (Z.eqb_spec (m_port u) 0); [done|].
    unfold urange in Hr. destruct (port_text_ok (m_port u) ltac:(lia)) as (H1 & H2 & H3).
    split; [exact H1|]. split; [exact H2|]. rewrite H3. unfold srange. lia.
  - unfold getPath. case_bool_decide; [apply matches_compute; vm_compute; reflexivity|exact Hp].
  - case_bool_decide; [done|exact Hq].
  - case_bool_decide; [done|exact Hf].
Qed.

(** C26: The text of an object whose members are in the grammar, and whose
    userinfo is empty or one that parsing keeps ([userinfo_parts]; a password
    that begins with a digit loses its user), parses to an object with the
    same scheme, userinfo, host, port, path, query and fragment as the
    accessors of the first give them (the default port of http, https, rtsp
    and mqtt is left out of the text and comes back through getPort, an empty
    path becomes "/"), and with the same text. *)
Theorem uri_text_roundtrip us u : uri_wf us u → ∃ u' c, Uri_create (Uri_toString u) = Ret (Some u') c ∧
  getScheme u' = getScheme u ∧ getUserinfo u' = getUserinfo u ∧ getHost u' = getHost u ∧ getPort u' = getPort u ∧
  getPath u' = getPath u ∧ getQuery u' = getQuery u ∧ getFragment u' = getFragment u ∧
  Uri_toString u' = Uri_toString u.
Proof.
  intros Hwf. pose proof (text_parts_ok us u Hwf) as Hok. destruct Hwf as (_ & Hus & _ & _ & Hr & _).
  destruct (create_render (text_parts us u) Hok) as [c Ec]. rewrite <-toString_render in Ec by done.
  exists (parts_uri (text_parts us u)), c. split; [exact Ec|].
  set (u' := parts_uri (text_parts us u)).
  assert (Eu : m_userinfo u' = m_userinfo u).
  { unfold u', parts_uri. cbn. destruct us as [us|]; cbn in *; [by destruct Hus as (? & ? & ?)|done]. }
  assert (Eq : m_query u' = m_query u) by (unfold u', parts_uri; cbn; by case_bool_decide).
  assert (Ef : m_fragment u' = m_fragment u) by (unfold u', parts_uri; cbn; by case_bool_decide).
  assert (Ep : getPath u' = getPath u) by (unfold u', getPath; cbn; unfold getPath; by repeat case_bool_decide).
  assert (Eport : m_port u' = (if isDefaultPort u then 0 else m_port u)).
  { unfold u', parts_uri, text_parts. cbn [p_port m_port]. destruct (isDefaultPort u) eqn:D; [done|].
    unfold isDefaultPort in D. destruct (Z.eqb_spec (m_port u) 0); [done|]. unfold urange in Hr.
    destruct (port_text_ok (m_port u) ltac:(lia)) as (_ & _ & ->). by apply wrapu_small. }
  assert (Es : m_scheme u' = m_scheme u) by done. assert (Eh : m_host u' = m_host u) by done.
  assert (Eg : getPort u' = getPort u ∧ isDefaultPort u' = isDefaultPort u ∧ (isDefaultPort u = false → m_port u' = m_port u)).
  { unfold getPort, isDefaultPort in *. rewrite Eport, Es. destruct (Z.eqb_spec (m_port u) 0) as [E0|E0]; [by rewrite E0|].
    destruct (default_port (m_scheme u)) as [d|]; cbn [negb].
    - destruct (Z.eqb_spec (m_port u) d) as [->|Hd]; [done|]. destruct (Z.eqb_spec (m_port u) 0); [done|].
      split_and!; [done|by apply Z.eqb_neq|done].
    - destruct (Z.eqb_spec (m_port u) 0); done. }
  clearbody u'. destruct Eg as (Eg & Ed & Em). split_and!; try done. unfold Uri_toString.
  rewrite Es, Eu, Eh, Ed, Ep, Eq, Ef. destruct (isDefaultPort u); [done|]. by rewrite Em.
Qed.

Lemma uri_text_roundtrip_witness :
  let u := mkUri (text "https") (text "me:pw") (text "example.org") 443 [] (text "a=b") [] in
  ∃ u' c, Uri_create (Uri_toString u) = Ret (Some u') c ∧
    getScheme u' = getScheme u ∧ getUserinfo u' = getUserinfo u ∧ getHost u' = getHost u ∧ getPort u' = getPort u ∧
    getPath u' = getPath u ∧ getQuery u' = getQuery u ∧ getFragment u' = getFragment u ∧
    Uri_toString u' = Uri_toString u.
Proof.
  apply (uri_text_roundtrip (Some (text "me", Some (text "pw")))). unfold uri_wf, userinfo_parts, user_ok.
  cbn [m_scheme m_userinfo m_host m_port m_path m_query m_fragment].
  repeat split; try (apply matches_compute; vm_compute; reflexivity); try (vm_compute; done).
Defined.
