(* ===== verification/UriSafe.v ===== *)
(** * When [Uri::create] returns

    The scanner's actions read [mark], which is null after they cleared it, and
    call [atoi]. [uri_total] says for which texts neither goes wrong. *)

From Stdlib Require Import Ascii String.
From S2P Require Import Prelude Codec Address Regex Scanner UriTable Uri UriGrammar UriSpec.
#[local] Open Scope Z_scope.

(** Everything up to and with the ":" of a port. *)
Definition to_port : re :=
  RCats [ROpt (RCat scheme (chr 58)); slashes; ROpt (RCat userinfo (chr 64)); host; chr 58].
Definition after_port_c : list (Z * Z) := [(47, 47); (63, 63); (35, 35)].

(** Whether [mark] is set after an action, given whether it is before; [None]
    when the action reads a null [mark]. *)
Definition mark_after (a : action) (m : bool) : option bool :=
  match a with
  | MarkU | MarkH => Some true
  | SaveUserinfo => Some false
  | SaveHost => Some m
  | SaveScheme | SavePort | SavePath | SaveQuery | SaveFragment => if m then Some false else None
  end.
Fixpoint marks_after (l : list action) (m : bool) : option bool :=
  match l with [] => Some m | a :: l => m' ← mark_after a m; marks_after l m' end.

(** A state with [mark]'s status, as a state of its own. *)
Definition pack (s : Z) (m : bool) : Z := 2 * s + Z.b2z m.
Definition packed_delta (k : Z) (b : byte) : option (option Z) :=
  match delta (Z.div2 k) b with
  | None => None
  | Some (A, t) => Some (pack t <$> marks_after A (Z.odd k))
  end.
Definition allowed (R : list re) (b : byte) : bool := negb (nullables R && in_class b after_port_c).

Definition safe_step (k : Z) (R : list re) : option (list (Z * list re)) :=
  if nullables R || bool_decide (is_Some (marks_after (eof_actions (Z.div2 k)) (Z.odd k))) then
    gather (λ b, if allowed R b then
      match packed_delta k b with
      | None => Some []
      | Some None => None
      | Some (Some k') => Some [(k', pds b R)]
      end else Some []) reps
  else None.

Lemma safe_found : found safe_step (Z.to_nat 40000) [(pack uri_parser_start false, [to_port])] = true.
Proof. vm_cast_no_check (eq_refl true). Qed.

Lemma to_port_respects : respects uri_classes to_port = true.
Proof. vm_cast_no_check (eq_refl true). Qed.

Lemma allowed_rep R b : allowed R b = allowed R (rep b).
Proof.
  unfold allowed. do 2 f_equal. apply Bool.eqb_prop.
  apply (forall_bytes_spec (λ b, Bool.eqb (in_class b after_port_c) (in_class (rep b) after_port_c))).
  vm_compute. reflexivity.
Qed.

Lemma pack_state s m : Z.div2 (pack s m) = s.
Proof. unfold pack. rewrite Z.div2_div. symmetry. apply (Z.div_unique _ 2 s (Z.b2z m)); destruct m; cbn [Z.b2z]; lia. Qed.
Lemma pack_mark s m : Z.odd (pack s m) = m.
Proof. unfold pack. rewrite Z.odd_add, Z.odd_mul. by destruct m. Qed.

(** ** Numbers *)

(** No ten digits in a row. *)
Definition short_numbers (w : list byte) : Prop :=
  ∀ pre ds post, w = pre ++ ds ++ post → Forall (λ b, is_digit b = true) ds → (length ds < 10)%nat.

Lemma short_suffix a w : short_numbers (a ++ w) → short_numbers w.
Proof. intros H pre ds post ->. apply (H (a ++ pre) ds post). by rewrite <-(assoc_L app). Qed.

Lemma digit_range b : is_digit b = true → 0 <= digit_value b <= 9.
Proof.
  unfold is_digit, in_class, digit_value. cbn. rewrite orb_false_r, andb_true_iff, !Z.leb_le. lia.
Qed.

Lemma digits_range l acc : 0 <= acc →
  ∃ ds post, l = ds ++ post ∧ Forall (λ b, is_digit b = true) ds ∧ 0 <= digits acc l < (acc + 1) * 10 ^ zlen ds.
Proof.
  revert acc. induction l as [|b l IH]; intros acc Ha.
  - exists [], []. split; [done|]. split; [constructor|]. cbn [digits]. change (zlen []) with 0. lia.
  - cbn [digits]. destruct (is_digit b) eqn:Hb.
    + pose proof (digit_range b Hb). destruct (IH (10 * acc + digit_value b) ltac:(lia)) as (ds & post & -> & Hd & Hr).
      exists (b :: ds), post. split; [done|]. split; [by constructor|].
      replace (zlen (b :: ds)) with (Z.succ (zlen ds)) by (unfold zlen; cbn; lia).
      rewrite Z.pow_succ_r by apply zlen_nonneg. pose proof (Z.pow_pos_nonneg 10 (zlen ds) ltac:(lia) (zlen_nonneg ds)). nia.
    + exists [], (b :: l). split; [done|]. split; [constructor|]. change (zlen []) with 0. lia.
Qed.

Lemma short_digits l : short_numbers l → 0 <= digits 0 l < 10 ^ 9.
Proof.
  intros H. destruct (digits_range l 0 ltac:(lia)) as (ds & post & -> & Hd & Hr).
  pose proof (H [] ds post eq_refl Hd). pose proof (Z.pow_le_mono_r 10 (zlen ds) 9 ltac:(lia) ltac:(unfold zlen; lia)). lia.
Qed.

Lemma drop_spaces_suffix l : ∃ a, l = a ++ drop_spaces l.
Proof.
  induction l as [|b l [a E]]; [by exists []|]. cbn [drop_spaces]. destruct (is_space b); [|by exists []].
  exists (b :: a). cbn. by rewrite <-E.
Qed.

Lemma short_atoi l : short_numbers l → is_Some (atoi l).
Proof.
  intros H. unfold atoi. destruct (drop_spaces_suffix l) as [a E]. rewrite E in H. apply short_suffix in H.
  destruct (drop_spaces l) as [|b l']; [by eexists|]. pose proof (short_digits _ H) as H1.
  pose proof (short_digits l' (short_suffix [b] l' H)) as H2. rewrite decide_True; [by eexists|].
  unfold srange. destruct (byte.unsigned b =? 45); [lia|]. destruct (byte.unsigned b =? 43); lia.
Qed.

(** ** The scanner *)
Section Safe.
Context (w : list byte) (Hw : short_numbers w).

Definition marked_now (c : scan) : bool := bool_decide (is_Some (mark c)).
Definition returns {A} (x : outcome scan A) (P : A → scan → Prop) : Prop := ∃ a c, x = Ret a c ∧ P a c.

Lemma returns_bind {A B} (x : M scan A) (f : A → M scan B) c (P : B → scan → Prop) :
  returns (x c) (λ a c', returns (f a c') P) → returns (mbind' x f c) P.
Proof. unfold mbind'. by intros (a & c' & -> & H). Qed.

Lemma perform_marks p a c m' : mark_after a (marked_now c) = Some m' →
  returns (perform w p a c) (λ _ c', marked_now c' = m').
Proof using Hw.
  assert (Hm : ∀ m, is_Some (atoi (drop m w))).
  { intros m. apply short_atoi, (short_suffix (take m w)). by rewrite take_drop. }
  destruct c as [[m|] u], a; cbn; intros [= <-]; try (by eexists _, _); unfold returns, perform; mrun; cbn [mark];
    try (by eexists _, _).
  case_bool_decide; [by eexists _, _|]. destruct (Hm m) as [v ->]. by eexists _, _.
Qed.

Lemma performs_marks p l c m' : marks_after l (marked_now c) = Some m' →
  returns (performs w p l c) (λ _ c', marked_now c' = m').
Proof using Hw.
  unfold performs. revert c. induction l as [|a l IH]; intros c; cbn [marks_after mfor].
  - intros [= <-]. by eexists _, _.
  - destruct (mark_after a (marked_now c)) as [m1|] eqn:E; [|done]. cbn. intros E'. apply returns_bind.
    destruct (perform_marks p a c m1 E) as (x & c1 & -> & <-). eexists _, _. split; [done|]. by apply IH.
Qed.

(** The text goes on after an empty port. *)
Definition ports_follow (R : list re) (rest : list byte) : Prop :=
  ∀ pre post, rest = pre ++ post → any_matches R pre → ∃ b post', post = b :: post' ∧ in_class b after_port_c = false.

Lemma loop_returns P R rest p s c : closed safe_step P → all_respect uri_classes R →
  P (pack s (marked_now c)) R → ports_follow R rest →
  returns (scan_loop w rest p s c) (λ r c', ∀ t, r = Some t → is_Some (marks_after (eof_actions t) (marked_now c'))).
Proof using Hw.
  intros HP. revert R p s c. induction rest as [|b rest IH]; intros R p s c HR Hk Hf;
    destruct (HP _ _ Hk) as (l & El & Hl); unfold safe_step in El; rewrite pack_state, pack_mark in El;
    destruct (nullables R || bool_decide (is_Some (marks_after (eof_actions s) (marked_now c)))) eqn:H2; try done.
  - eexists _, _. split; [done|]. intros t [= <-]. apply orb_true_iff in H2 as [H2|H2].
    + apply nullables_matches in H2. by destruct (Hf [] [] eq_refl H2) as (? & ? & ? & _).
    + by apply bool_decide_eq_true in H2.
  - destruct (gather_elem _ _ _ (rep b) El (rep_in b)) as (a & H1 & Hin).
    unfold packed_delta in H1. rewrite <-allowed_rep, <-delta_rep, pack_state, pack_mark, <-(pds_rep rep uri_classes uri_classes_rep) in H1 by done.
    assert (Ha : allowed R b = true).
    { unfold allowed. destruct (nullables R) eqn:E; [|done]. apply nullables_matches in E.
      destruct (Hf [] (b :: rest) eq_refl E) as (? & ? & [= <- _] & ->). done. }
    rewrite Ha in H1. cbn [scan_loop]. destruct (delta s b) as [[A t]|]; [|by eexists _, _].
    destruct (marks_after A (marked_now c)) as [m1|] eqn:Em; [|done]. injection H1 as <-. apply returns_bind.
    destruct (performs_marks p A c m1 Em) as (x & c1 & -> & <-). eexists _, _. split; [done|].
    apply (IH (pds b R)); [by apply all_respect_pds|apply Hl, Hin; by left|].
    intros pre post -> Hp. apply (Hf (b :: pre) post eq_refl). by apply pds_matches.
Qed.
End Safe.

Lemma create_returns w : short_numbers w → ports_follow [to_port] w → returns (Uri_create w) (λ _ _, True).
Proof.
  intros Hw Hf. destruct (found_closed _ _ _ safe_found) as (P & HP & Hin).
  unfold Uri_create, create_loop. apply returns_bind.
  assert (HR : all_respect uri_classes [to_port]) by (intros r ->%list_elem_of_singleton; exact to_port_respects).
  destruct (loop_returns w Hw P [to_port] w 0 uri_parser_start (mkScan None Uri_new) HP HR) as (r & c & -> & Hr);
    [apply Hin; by left|exact Hf|]. clear HP Hin HR Hf.
  eexists _, _. split; [done|]. destruct r as [t|]; [|by eexists _, _].
  apply returns_bind. destruct (Hr t eq_refl) as [m' Em].
  destruct (performs_marks w Hw (length w) _ c m' Em) as ([] & c' & -> & _). eexists _, _. split; [done|].
  by eexists _, _.
Qed.

(** C8: [Uri::create] returns, with an object exactly when the text is in the
    grammar of uri.rl, for every text that has no ten digits in a row and in
    which the ":" of a port is followed by a byte other than "/", "?" and "#". *)
Theorem uri_total w : short_numbers w →
  (∀ pre post, w = pre ++ post → matches to_port pre → ∃ b post', post = b :: post' ∧ in_class b after_port_c = false) →
  ∃ r c, Uri_create w = Ret r c ∧ (is_Some r ↔ matches URI_reference w).
Proof.
  intros Hw Hf. destruct (create_returns w Hw) as (r & c & E & _).
  - intros pre post Ew Hp. apply (Hf pre post Ew). by apply any_matches_single.
  - exists r, c. split; [exact E|]. pose proof (create_answer w) as H. by rewrite E in H.
Qed.

(** ** Checking the conditions on a text *)

Definition for_splits (w : list byte) (f : list byte → list byte → bool) : bool :=
  forallb (λ n, f (take n w) (drop n w)) (seq 0 (S (length w))).

Lemma for_splits_spec w f : for_splits w f = true → ∀ pre post, w = pre ++ post → f pre post = true.
Proof.
  unfold for_splits. rewrite forallb_forall. intros H pre post ->. specialize (H (length pre)).
  rewrite take_app_length, drop_app_length in H. apply H. apply in_seq. rewrite length_app. lia.
Qed.

Fixpoint digit_run (w : list byte) : nat :=
  match w with b :: w => if is_digit b then S (digit_run w) else O | [] => O end.

Lemma digit_run_app ds post : Forall (λ b, is_digit b = true) ds → (length ds ≤ digit_run (ds ++ post))%nat.
Proof. induction 1 as [|b ds Hb _ IH]; [apply Nat.le_0_l|]. cbn. cbn in Hb. rewrite Hb. cbn. lia. Qed.

Lemma short_numbers_compute w : for_splits w (λ _ post, Nat.ltb (digit_run post) 10) = true → short_numbers w.
Proof.
  intros H pre ds post E Hd. pose proof (for_splits_spec _ _ H pre (ds ++ post) E) as H1.
  apply Nat.ltb_lt in H1. pose proof (digit_run_app ds post Hd). lia.
Qed.

Lemma ports_compute w :
  for_splits w (λ pre post, negb (matchb [to_port] pre) ||
    match post with b :: _ => negb (in_class b after_port_c) | [] => false end) = true →
  ∀ pre post, w = pre ++ post → matches to_port pre → ∃ b post', post = b :: post' ∧ in_class b after_port_c = false.
Proof.
  intros H pre post E Hp. pose proof (for_splits_spec _ _ H pre post E) as H1. apply orb_true_iff in H1 as [H1|H1].
  - apply negb_true_iff in H1. by rewrite (proj2 (matchb_spec _ _) (proj2 (any_matches_single _ _) Hp)) in H1.
  - destruct post as [|b post']; [done|]. exists b, post'. split; [done|]. by apply negb_true_iff.
Qed.

Lemma uri_total_witness : let w := text "https://me:pw@www.example.org:8443/a/b?c=1#d" in
  short_numbers w ∧ ∃ r c, Uri_create w = Ret r c ∧ (is_Some r ↔ matches URI_reference w).
Proof.
  assert (Hs : short_numbers (text "https://me:pw@www.example.org:8443/a/b?c=1#d")).
  { apply short_numbers_compute. vm_compute. reflexivity. }
  split; [exact Hs|]. apply (uri_total _ Hs). apply ports_compute. vm_compute. reflexivity.
Defined.
