(* ===== verification/TcpServer.v ===== *)
(** * class TcpServer (server/tcpserver.h, server/tcpserver.cpp)

    The server, the Socket objects it shares with its jobs, and the jobs it
    schedules. Objects are shared pointers: a heap of sockets by number, and an
    object is destroyed, which closes it, when nothing refers to it any more.
    The accept scheduler runs its jobs and the accept loops on one thread: a
    job runs until it waits in [accept], and goes on when the call returns,
    with the kernel's answer as an argument: the call on an open socket returns
    when the network gives it a result, the one on a closed socket when its
    wait was cancelled, with a failure. Jobs are run in any order. Log
    output is left out, and so is what a subclass does in [handleClient]. *)

From Stdlib Require Import String.
From S2P Require Import Prelude Codec Hook IOScheduler Address Socket.
#[local] Open Scope Z_scope.

Record TcpServer := mkServer {
  m_sockets : list nat;
  m_client_timeout : Z;
  m_name : string;
  m_is_stop : bool;
}.

(** [startAccept(socket)] and the closing of the sockets. *)
Inductive job := JAccept (socket : nat) | JClose.
#[global] Instance job_eq_dec : EqDecision job.
Proof. solve_decision. Defined.

(** The wait of a hooked [accept]: the descriptor it was called on, and how
    many descriptors had been handed to [cancelAll] when it began. *)
Record wait := mkWait { on_fd : Z; since : nat }.

(** The server and its surroundings: the objects and the hooked system calls,
    the jobs of [m_accept_scheduler], the accept loops that wait, and the jobs
    of [m_scheduler], which are the clients to handle. *)
Record tcpw := mkTcp {
  srv : TcpServer;
  heap : gmap nat Socket;
  sys : hookw;
  accept_jobs : list job;
  accepting : list (nat * wait);
  client_jobs : list nat;
}.

Definition set_srv (f : TcpServer → TcpServer) (w : tcpw) : tcpw :=
  mkTcp (f (srv w)) (heap w) (sys w) (accept_jobs w) (accepting w) (client_jobs w).
Definition set_mem (h : gmap nat Socket) (o : hookw) (w : tcpw) : tcpw :=
  mkTcp (srv w) h o (accept_jobs w) (accepting w) (client_jobs w).
Definition set_jobs (l : list job) (w : tcpw) : tcpw :=
  mkTcp (srv w) (heap w) (sys w) l (accepting w) (client_jobs w).
Definition set_accepting (l : list (nat * wait)) (w : tcpw) : tcpw :=
  mkTcp (srv w) (heap w) (sys w) (accept_jobs w) l (client_jobs w).
Definition set_clients (l : list nat) (w : tcpw) : tcpw :=
  mkTcp (srv w) (heap w) (sys w) (accept_jobs w) (accepting w) l.

Definition with_sockets (l : list nat) (s : TcpServer) : TcpServer :=
  mkServer l (m_client_timeout s) (m_name s) (m_is_stop s).

(** ** Shared pointers *)

Definition new_ptr (s : Socket) : M tcpw nat :=
  w <- mget;;
  let id := fresh (dom (heap w)) in
  mput (set_mem (<[id := s]> (heap w)) (sys w) w);; mreturn id.

(** [ptr->m()] *)
Definition on_socket {A} (id : nat) (m : M sockw A) : M tcpw A := λ w,
  match heap w !! id with
  | None => Fault NullDeref
  | Some s =>
      match m (mkSockw s (sys w)) with
      | Ret a w' => Ret a (set_mem (<[id := sock w']> (heap w)) (os w') w)
      | Throw e w' => Throw e (set_mem (<[id := sock w']> (heap w)) (os w') w)
      | Fault f => Fault f
      end
  end.

Definition referenced (w : tcpw) (id : nat) : bool :=
  bool_decide (id ∈ m_sockets (srv w) ∨ JAccept id ∈ accept_jobs w ∨ id ∈ (accepting w).*1 ∨ id ∈ client_jobs w).

(** A pointer that was in use is gone: with the last one [~Socket()] runs. *)
Definition release (id : nat) : M tcpw unit :=
  w <- mget;;
  if referenced w id then mreturn tt else
  on_socket id close;;
  mmodify (λ w, set_mem (delete id (heap w)) (sys w) w).

(** ** The server *)

(** [TcpServer(scheduler, accept_scheduler, client_timeout, name)] *)
Definition LONETFW_VERSION : string := "1.0.0".
Definition TcpServer_new (client_timeout : Z) (name : string) : TcpServer :=
  mkServer [] client_timeout (name ++ "/LoNetfw-" ++ LONETFW_VERSION) true.

Definition setClientTimeout (t : Z) (s : TcpServer) : TcpServer := mkServer (m_sockets s) t (m_name s) (m_is_stop s).
Definition getClientTimeout (s : TcpServer) : Z := m_client_timeout s.
Definition setName (n : string) (s : TcpServer) : TcpServer :=
  mkServer (m_sockets s) (m_client_timeout s) n (m_is_stop s).
Definition getName (s : TcpServer) : string := m_name s.
Definition isStop (s : TcpServer) : bool := m_is_stop s.
Definition setStop (b : bool) (s : TcpServer) : TcpServer :=
  mkServer (m_sockets s) (m_client_timeout s) (m_name s) b.

(** An address to bind, and what the system calls answer: the descriptor
    [socket] returns, the success of [bind], the address [getsockname] gives,
    and the success of [listen]. *)
Record binding := mkBinding {
  b_addr : Address;
  b_fd : Z;
  b_bind : bool;
  b_name : option Address;
  b_listen : bool;
}.

Section Bind.
Context `{Platform}.

(** The body of the loop of [bind]: whether the address was bound. *)
Definition bind_one (b : binding) : M tcpw bool :=
  match Socket_create_for (b_addr b) TCP with
  | None => mfault NullDeref
  | Some s =>
      id <- new_ptr s;;
      ok <- on_socket id (Socket.bind (b_addr b) (b_fd b) (b_bind b) (b_name b));;
      if negb ok then release id;; mreturn false else
      ok <- on_socket id (listen (b_listen b));;
      if negb ok then release id;; mreturn false else
      mmodify (set_srv (λ s, with_sockets (m_sockets s ++ [id]) s));; mreturn true
  end.

(** The loop, with [bind_failed_addrs]. *)
Fixpoint bind_all (l : list binding) : M tcpw (list Address) :=
  match l with
  | [] => mreturn []
  | b :: l =>
      ok <- bind_one b;;
      failed <- bind_all l;;
      mreturn (if ok : bool then failed else b_addr b :: failed)
  end.

(** [m_sockets.clear()] *)
Definition clear_sockets : M tcpw unit :=
  w <- mget;;
  mmodify (set_srv (with_sockets []));;
  mfor (m_sockets (srv w)) release.

(** [bind(addrs, bind_failed_addrs)] with an empty [bind_failed_addrs]. *)
Definition bind (l : list binding) : M tcpw (bool * list Address) :=
  failed <- bind_all l;;
  match failed with
  | [] => mreturn (true, [])
  | _ => clear_sockets;; mreturn (false, failed)
  end.
(** [bind(addr)] *)
Definition bind_addr (b : binding) : M tcpw bool := r <- bind [b];; mreturn r.1.
End Bind.

(** [start()] *)
Definition start : M tcpw bool :=
  w <- mget;;
  if negb (isStop (srv w)) then mreturn true else
  mmodify (set_srv (setStop false));;
  mfor (m_sockets (srv w)) (λ id, mmodify (λ w, set_jobs (accept_jobs w ++ [JAccept id]) w));;
  mreturn true.

(** [stop()] *)
Definition stop : M tcpw bool :=
  w <- mget;;
  if isStop (srv w) then mreturn true else
  mmodify (set_srv (setStop true));;
  mmodify (λ w, set_jobs (accept_jobs w ++ [JClose]) w);;
  mreturn true.

(** [socket->cancelAll()]: [IOScheduler::getThis()->cancelAll(m_sockfd)]. *)
Definition cancel_all : M sockw unit :=
  w <- mget;;
  if negb (has_ios (os w)) then mfault NullDeref else
  if m_sockfd (sock w) <? 0 then mfault OutOfBounds else
  on_os (mmodify (λ o, mkHook (m_fds o) (m_size o) (kernel o) (is_enable o) (has_ios o)
    (cancelled o ++ [m_sockfd (sock w)]))).

(** The job [stop] schedules. *)
Definition close_job : M tcpw unit :=
  w <- mget;;
  mfor (m_sockets (srv w)) (λ id, on_socket id cancel_all;; on_socket id close;; mreturn tt);;
  clear_sockets.

(** [~TcpServer()] *)
Definition TcpServer_delete : M tcpw unit :=
  w <- mget;;
  mfor (m_sockets (srv w)) (λ id, on_socket id close;; mreturn tt);;
  clear_sockets.

(** ** Accepting *)

(** [socket->accept()] up to the wait in the system call, which is on the
    descriptor the socket has now. *)
Definition accept_begin (id : nat) : M tcpw wait :=
  on_socket id
    (w <- mget;;
     x <- on_os (fd_get (m_sockfd (sock w)) false);;
     mreturn (mkWait (m_sockfd (sock w)) (length (cancelled (os w))))).

(** The descriptor of the wait was handed to [cancelAll] since it began, which
    schedules the fiber that waits. *)
Definition woken (w : tcpw) (t : wait) : bool :=
  bool_decide (on_fd t ∈ drop (since t) (cancelled (sys w))).

(** What the call of [accept] can return: with the socket open whatever the
    kernel has for it (a wait that is cancelled goes on after EAGAIN), with the
    socket closed a failure, once the wait was cancelled. *)
Definition can_return (w : tcpw) (id : nat) (t : wait) (r : option Z) : bool :=
  match heap w !! id with
  | None => false
  | Some s => isValid s || (woken w t && bool_decide (r = None))
  end.

(** ... and from its return on: [r] is the new descriptor, [None] a failure. *)
Definition accept_end (id : nat) (r : option Z) (local peer : option Address) : M tcpw (option nat) :=
  match r with
  | None => mreturn None
  | Some n =>
      c <- on_socket id
        (w <- mget;;
         on_os (new_socket n 2);;
         x <- on_os (fd_get n true);;
         on_os (init n (Socket_new (m_family (sock w)) (m_type (sock w)) (m_protocol (sock w))) local peer));;
      match c with
      | None => mreturn None
      | Some s => id <- new_ptr s;; mreturn (Some id)
      end
  end.

(** [while (!isStop())]: from the head of the loop to the next wait. *)
Definition loop_head (id : nat) : M tcpw unit :=
  w <- mget;;
  if isStop (srv w) then release id else
  t <- accept_begin id;;
  mmodify (λ w, set_accepting (accepting w ++ [(id, t)]) w).

(** What the loop does with the result of [accept]. *)
Definition accepted (id : nat) (r : option Z) (local peer : option Address) (x : sysres) : M tcpw unit :=
  c <- accept_end id r local peer;;
  match c with
  | None => mreturn tt
  | Some c =>
      w <- mget;;
      on_socket c (setRecvTimeout (s64 (m_client_timeout (srv w))) x);;
      mmodify (λ w, set_clients (client_jobs w ++ [c]) w)
  end.

(** ** Events *)

(** A call of a method, the accept scheduler running a job, [accept] returning
    to a loop, and a client that was handled. *)
Inductive event :=
| EBind (l : list binding)
| EStart
| EStop
| ESetClientTimeout (t : Z)
| ERun (i : nat)
| EAccepted (i : nat) (r : option Z) (local peer : option Address) (x : sysres)
| EHandled (i : nat).

Definition exec `{Platform} (e : event) : M tcpw unit :=
  match e with
  | EBind l => r <- bind l;; mreturn tt
  | EStart => r <- start;; mreturn tt
  | EStop => r <- stop;; mreturn tt
  | ESetClientTimeout t => mmodify (set_srv (setClientTimeout t))
  | ERun i =>
      w <- mget;;
      match accept_jobs w !! i with
      | None => mreturn tt
      | Some j =>
          mput (set_jobs (delete i (accept_jobs w)) w);;
          match j with JAccept id => loop_head id | JClose => close_job end
      end
  | EAccepted i r local peer x =>
      w <- mget;;
      match accepting w !! i with
      | None => mreturn tt
      | Some (id, t) =>
          if negb (can_return w id t r) then mreturn tt else
          accepted id r local peer x;;
          mmodify (λ w, set_accepting (delete i (accepting w)) w);;
          loop_head id
      end
  | EHandled i =>
      w <- mget;;
      match client_jobs w !! i with
      | None => mreturn tt
      | Some c => mput (set_clients (delete i (client_jobs w)) w);; release c
      end
  end.
