(* ===== verification/TcpServerSpec.v ===== *)
(** * What a TcpServer promises

    The invariant of a server and its sockets, kept by every event as long as
    [start] is not called again before the accept loops of the last run ended;
    that a stopped server comes to rest, with its listening sockets closed; and
    what a restart that comes too early runs into. *)

From Stdlib Require Import String.
From S2P Require Import Prelude Codec Hook IOScheduler Address Socket TcpServer.
#[local] Open Scope Z_scope.

(** ** Sockets side by side *)

(** Each socket is in order, and no two have the same descriptor. *)
Definition net_ok (H : gmap nat Socket) (o : hookw) : Prop :=
  hooked o ∧ (∀ id s, H !! id = Some s → sock_ok (mkSockw s o)) ∧
  (∀ i j s t, i ≠ j → H !! i = Some s → H !! j = Some t → m_sockfd s = m_sockfd t → m_sockfd s = -1).

Lemma sock_ok_others k s o o' : sock_ok (mkSockw s o) → hooked o' → others k o o' →
  (m_sockfd s = k → k = -1) → sock_ok (mkSockw s o').
Proof.
  intros [_ Hs] Ho Oth Hk. split; [done|]. cbn [sock os] in *.
  destruct (Z.eqb_spec (m_sockfd s) (-1)) as [E|E]; [done|]. destruct Hs as (H0 & f & Hf & S). split; [done|].
  exists f. split; [|done]. assert (Hne : m_sockfd s ≠ k) by (intros Ek; pose proof (Hk Ek); congruence).
  by destruct (Oth _ Hne) as [-> _].
Qed.

(** One socket and its descriptor change. *)
Lemma net_update H o id s' o' k : net_ok H o → sock_ok (mkSockw s' o') → others k o o' →
  (∀ j t, j ≠ id → H !! j = Some t → m_sockfd t = k → k = -1) → 
  (m_sockfd s' = k ∨ (∃ s, H !! id = Some s ∧ m_sockfd s' = m_sockfd s) ∨ m_sockfd s' = -1) →
  net_ok (<[id := s']> H) o'.
Proof.
  intros (Ho & Hs & Hd) Hs' Oth Hk Hf.
  assert (Hnew : ∀ j t, j ≠ id → H !! j = Some t → m_sockfd t = m_sockfd s' → m_sockfd s' = -1).
  { intros j t Hj Ht Ef. destruct Hf as [Hf|[(s & Hi & Hf)|Hf]]; [|rewrite Hf in *|done].
    - rewrite Hf in *. by eapply Hk.
    - rewrite <-Ef. by apply (Hd j id t s). }
  split; [apply Hs'|]. split.
  - intros j t. rewrite lookup_insert. case_decide as E; [subst; by intros [= <-]|]. intros Ht.
    eapply sock_ok_others; [by apply (Hs j)|apply Hs'|exact Oth|]. by apply (Hk j).
  - intros i j s t Hij. rewrite !lookup_insert. repeat case_decide; subst; try done.
    + intros [= <-] Ht Ef. by eapply (Hnew j).
    + intros Hi [= <-] Ef. rewrite Ef. by eapply (Hnew i).
    + by apply Hd.
Qed.

Lemma net_delete H o id : net_ok H o → net_ok (delete id H) o.
Proof.
  intros (Ho & Hs & Hd). split; [done|]. split.
  - intros j t Hj. apply lookup_delete_Some in Hj as [_ Hj]. by apply (Hs j).
  - intros i j s t Hij Hi Hj. apply lookup_delete_Some in Hi as [_ Hi]. apply lookup_delete_Some in Hj as [_ Hj]. by apply (Hd i j).
Qed.

(** A descriptor the kernel does not have is nobody's. *)
Lemma net_fresh H o n : net_ok H o → 0 ≤ n → kernel o !! n = None → ∀ j t, H !! j = Some t → m_sockfd t ≠ n.
Proof.
  intros (Ho & Hs & _) Hn Hk j t Ht E. destruct (Hs j t Ht) as [_ Hf]. cbn [sock os] in Hf.
  destruct (Z.eqb_spec (m_sockfd t) (-1)); [lia|]. destruct Hf as (_ & f & Hf & _).
  destruct (wf_fds o (proj1 Ho) _ _ Hf) as (_ & _ & kf & E' & _). congruence.
Qed.

(** ** What is handed to cancelAll *)

(** A computation that hands no descriptor to [cancelAll]. *)
Definition quiet {A} (m : M hookw A) : Prop := ∀ w a w', m w = Ret a w' → cancelled w' = cancelled w.

Lemma put_slot_quiet fd x : quiet (put_slot fd x).
Proof.
  intros w a w' E. unfold put_slot in E. minv E as w1 w2 E1. injection E1 as <- <-.
  destruct (fd <? 0); [done|]. destruct (m_fds w !! _); [|done]. by injection E as _ <-.
Qed.
Lemma slot_same fd w a w' : slot fd w = Ret a w' → w' = w.
Proof.
  intros E. unfold slot in E. minv E as w1 w2 E1. injection E1 as <- <-.
  destruct (fd <? 0); [done|]. destruct (m_fds w !! _); [|done]. by injection E as _ <-.
Qed.
Lemma fd_create_quiet fd : quiet (fd_create fd).
Proof.
  intros w a w' E. unfold fd_create in E. minv E as w1 w2 E1. injection E1 as <- <-.
  destruct (Fd_new fd (kernel w !! fd)) as [f k]. minv E as [] w1 E1. injection E1 as <-.
  minv E as [] w2 E1. injection E1 as <-. minv E as [] w3 E1. apply put_slot_quiet in E1.
  injection E as _ <-. rewrite E1. unfold grow. by destruct (_ <=? _).
Qed.
Lemma fd_get_quiet fd c : quiet (fd_get fd c).
Proof.
  intros w a w' E. unfold fd_get in E. minv E as w1 w2 E1. injection E1 as <- <-.
  destruct (_ <=? _); [destruct c; [by apply fd_create_quiet in E|by injection E as _ <-]|].
  minv E as x w1 E1. apply slot_same in E1 as ->.
  destruct (_ || _); [by injection E as _ <-|by apply fd_create_quiet in E].
Qed.
Lemma h_socket_quiet r : quiet (h_socket r).
Proof.
  intros w a w' E. unfold h_socket in E. minv E as w1 w2 E1. injection E1 as <- <-.
  destruct (negb _); [by injection E as _ <-|]. destruct (_ <? _); [by injection E as _ <-|].
  minv E as x w1 E1. apply fd_get_quiet in E1. by injection E as _ <-.
Qed.
Lemma on_os_quiet {A} (m : M hookw A) w a w' : quiet m → on_os m w = Ret a w' → cancelled (os w') = cancelled (os w).
Proof. intros Q E. unfold on_os in E. destruct (m (os w)) eqn:Em; [|done..]. injection E as <- <-. by apply Q in Em. Qed.
Lemma bind_quiet `{Platform} addr fd ok name w a w' :
  Socket.bind addr fd ok name w = Ret a w' → cancelled (os w') = cancelled (os w).
Proof.
  intros E. unfold Socket.bind in E. minv E as p w1 E1.
  assert (Q : cancelled (os w1) = cancelled (os w)).
  { unfold prepare in E1. minv E1 as w2 w3 E2. injection E2 as <- <-. minv E1 as [] w2 E2.
    minv E1 as w3 w4 E3. injection E3 as <- <-. injection E1 as _ <-.
    destruct (isValid (sock w)); [by injection E2 as <-|]. unfold newSocket in E2. minv E2 as [] w3 E3.
    minv E2 as x w4 E4. injection E2 as <-. apply (on_os_quiet _ _ _ _ (h_socket_quiet fd)) in E4. cbn. rewrite E4.
    destruct (fd <? 0); [by injection E3 as <-|]. eapply on_os_quiet; [|exact E3]. by intros ? ? ? [= _ <-]. }
  rewrite <-Q. destruct (negb p); [by injection E as _ <-|]. destruct (negb ok); [by injection E as _ <-|].
  minv E as x w2 E2. injection E as _ <-. unfold getLocalAddress in E2. minv E2 as w3 w4 E3. injection E3 as <- <-.
  destruct (m_local_addr (sock w1)); [by injection E2 as _ <-|]. destruct name; [|by injection E2 as _ <-].
  minv E2 as [] w3 E3. injection E3 as <-. by injection E2 as _ <-.
Qed.

(** [close] of an open socket hands its descriptor to [cancelAll]. *)
Lemma close_cancels w w' : sock_ok w → close w = Ret true w' →
  cancelled (os w') = cancelled (os w) ++ (if isValid (sock w) then [m_sockfd (sock w)] else []).
Proof.
  intros [Ho Hs] E. unfold close in E. minv E as w1 w2 E1. injection E1 as <- <-. unfold isValid.
  destruct (Z.eqb_spec (m_sockfd (sock w)) (-1)) as [Ef|Ef]; cbn [negb].
  { rewrite Hs in E. injection E as <-. by rewrite app_nil_r. }
  rewrite andb_false_r in E. minv E as [] w1 E1. injection E1 as <-. minv E as [] w1 E1. injection E as <-.
  minv E1 as r w2 E2. injection E1 as <-. cbn [os]. unfold on_os in E2. cbn [os sock set_connected m_sockfd] in E2.
  destruct (h_close (m_sockfd (sock w)) (os w)) as [x o'| |] eqn:Ec; [|done..]. injection E2 as _ <-. cbn [os].
  destruct Hs as (H0 & f & Hf & _). pose proof Ho as (W & He & Hi). unfold h_close in Ec.
  minv Ec as o1 o2 E1. injection E1 as <- <-. rewrite He in Ec. cbn [negb] in Ec.
  minv Ec as y o1 E1. rewrite (fd_get_spec _ _ W H0), Hf in E1. injection E1 as <- <-. rewrite Hi in Ec. cbn [negb] in Ec.
  minv Ec as [] o1 E1. minv E1 as [] o2 E2. injection E2 as <-.
  assert (Q : cancelled o' = cancelled o1).
  { unfold close_fd in Ec. minv Ec as o3 o4 E3. injection E3 as <- <-. destruct (kernel o1 !! _); [|by injection Ec as _ <-].
    minv Ec as [] o3 E3. injection E3 as <-. by injection Ec as _ <-. }
  rewrite Q. unfold fd_del in E1. minv E1 as o3 o4 E3. injection E3 as <- <-.
  destruct (_ <=? _); [by injection E1 as <-|]. apply put_slot_quiet in E1. by rewrite E1.
Qed.

(** ** The invariant *)

(** A wait is on the descriptor of its socket as long as that is open, and was
    cancelled when it is not. *)
Definition wait_at (H : gmap nat Socket) (o : hookw) (it : nat * wait) : Prop :=
  (since it.2 ≤ length (cancelled o))%nat ∧
  ∀ s, H !! it.1 = Some s →
    if isValid s then m_sockfd s = on_fd it.2 else on_fd it.2 ∈ drop (since it.2) (cancelled o).

Lemma wait_at_mono H H' o o' it : wait_at H o it → cancelled o `prefix_of` cancelled o' → H' !! it.1 = H !! it.1 →
  wait_at H' o' it.
Proof.
  intros [Hl Hw] [l El] Hi. unfold wait_at. rewrite El, Hi, length_app. split; [lia|]. intros s Hs.
  specialize (Hw s Hs). destruct (isValid s); [done|]. rewrite drop_app_le by lia. apply elem_of_app. by left.
Qed.
(** The socket of the wait, or another one, is closed. *)
Lemma wait_at_closed H o o' it id s s' : wait_at H o it → H !! id = Some s → isValid s' = false →
  cancelled o `prefix_of` cancelled o' → (isValid s = true → m_sockfd s ∈ drop (length (cancelled o)) (cancelled o')) →
  wait_at (<[id := s']> H) o' it.
Proof.
  intros Hw Hs V P C. destruct (decide (it.1 = id)) as [E|E].
  2: { apply (wait_at_mono H _ o); [done|done|by apply lookup_insert_ne]. }
  destruct Hw as [Hl Hw]. rewrite E in Hw. specialize (Hw s Hs). destruct P as [l El]. unfold wait_at.
  rewrite E, lookup_insert_eq, El, length_app. split; [lia|]. intros u [= <-]. rewrite V.
  rewrite El in C. rewrite drop_app_le by lia. apply elem_of_app. destruct (isValid s).
  - right. rewrite <-Hw. specialize (C eq_refl). by rewrite drop_app_length in C.
  - by left.
Qed.

Definition valid_at (H : gmap nat Socket) (id : nat) : Prop := ∃ s, H !! id = Some s ∧ isValid s = true.
Definition client_at (H : gmap nat Socket) (id : nat) : Prop :=
  ∃ s, H !! id = Some s ∧ isValid s = true ∧ isConnected s = true.

(** The sockets an accept job or loop holds. *)
Definition held (w : tcpw) (id : nat) : Prop := JAccept id ∈ accept_jobs w ∨ id ∈ (accepting w).*1.

(** [X] are the pointers the running code holds besides. *)
Record inv (X : list nat) (w : tcpw) : Prop := {
  i_net : net_ok (heap w) (sys w);
  i_nodup : NoDup (m_sockets (srv w));
  i_listen : ∀ id, id ∈ m_sockets (srv w) → valid_at (heap w) id;
  i_held : ∀ id, held w id → is_Some (heap w !! id);
  i_run : m_is_stop (srv w) = false → (JClose ∉ accept_jobs w) ∧ ∀ id, held w id → valid_at (heap w) id;
  i_client : ∀ c, c ∈ client_jobs w → client_at (heap w) c ∧ (c ∉ m_sockets (srv w)) ∧ ¬ held w c;
  i_refs : ∀ id, is_Some (heap w !! id) → referenced w id = true ∨ id ∈ X;
  i_extra : ∀ id, id ∈ X → is_Some (heap w !! id);
  i_distinct : NoDup X;
  i_wait : ∀ it, it ∈ accepting w → wait_at (heap w) (sys w) it;
}.

Lemma referenced_spec w id : referenced w id = true ↔ id ∈ m_sockets (srv w) ∨ held w id ∨ id ∈ client_jobs w.
Proof. unfold referenced, held. rewrite bool_decide_eq_true. tauto. Qed.

(** The objects change, but not which there are, nor those that matter. *)
Lemma inv_mem X w H o : inv X w → net_ok H o → (∀ id, is_Some (H !! id) ↔ is_Some (heap w !! id)) →
  (∀ id, id ∈ m_sockets (srv w) ∨ held w id → valid_at (heap w) id → valid_at H id) →
  (∀ c, c ∈ client_jobs w → client_at (heap w) c → client_at H c) →
  (∀ it, it ∈ accepting w → wait_at (heap w) (sys w) it → wait_at H o it) → inv X (set_mem H o w).
Proof.
  intros I N D V C Wt. destruct I as [I1 I2 I3 I4 I5 I6 I7 I8 I9 IW].
  split; cbn [set_mem heap sys srv accept_jobs accepting client_jobs]; try done.
  - intros id Hid. apply V; auto.
  - intros id Hid. apply D. by apply I4.
  - intros Hs. destruct (I5 Hs) as [? Hv]. split; [done|]. intros id Hid. apply V; auto.
  - intros c Hc. destruct (I6 c Hc) as (? & ? & ?). split; [auto|done].
  - intros id Hid. apply I7. by apply D.
  - intros id Hid. apply D. by apply I8.
  - intros it Hit. apply Wt; auto.
Qed.

Lemma held_wait w it : it ∈ accepting w → held w it.1.
Proof. intros Hit. right. apply list_elem_of_fmap. by exists it. Qed.

Lemma on_socket_Ret {A} id (m : M sockw A) s a w' w : heap w !! id = Some s → m (mkSockw s (sys w)) = Ret a w' →
  on_socket id m w = Ret a (set_mem (<[id := sock w']> (heap w)) (os w') w).
Proof. intros E Em. unfold on_socket. by rewrite E, Em. Qed.

Lemma is_Some_insert {A} (H : gmap nat A) id s x : H !! id = Some s → ∀ j, is_Some (<[id := x]> H !! j) ↔ is_Some (H !! j).
Proof. intros E j. rewrite lookup_insert. case_decide; [subst; by rewrite E|done]. Qed.

(** ** Pointers *)

Lemma close_on X id w : inv X w → is_Some (heap w !! id) → ∃ s o, on_socket id close w =
    Ret true (set_mem (<[id := s]> (heap w)) o w) ∧ net_ok (<[id := s]> (heap w)) o ∧ cancelled (sys w) `prefix_of` cancelled o.
Proof.
  intros I [s Hs]. pose proof (i_net X w I) as N. pose proof N as (_ & Hok & Hd).
  destruct (sock_close_ok (mkSockw s (sys w)) (Hok id s Hs)) as (w' & E & Hok' & V & _ & Oth). exists (sock w'), (os w').
  split; [by apply (on_socket_Ret _ _ s)|]. split; [|rewrite (close_cancels _ _ (Hok id s Hs) E); by eexists].
  apply (net_update _ _ _ _ _ (m_sockfd s) N); [by destruct w'|exact Oth| |].
  - intros j t Hj Ht Ef. by eapply (Hd id j s t).
  - right; right. unfold isValid in V. apply negb_false_iff, Z.eqb_eq in V. exact V.
Qed.

Lemma release_ok X id w : inv (id :: X) w → ∃ H o, release id w = Ret tt (set_mem H o w) ∧ inv X (set_mem H o w) ∧
  (∀ j, j ≠ id ∨ referenced w j = true → H !! j = heap w !! j) ∧ cancelled (sys w) `prefix_of` cancelled o.
Proof.
  intros I. unfold release. rewrite (bind_Ret mget _ w w w eq_refl).
  pose proof (i_distinct _ _ I) as [Hn Hd]%NoDup_cons. destruct (referenced w id) eqn:R.
  - exists (heap w), (sys w). replace (set_mem (heap w) (sys w) w) with w by (by destruct w).
    split; [done|]. split; [|done]. destruct I as [I1 I2 I3 I4 I5 I6 I7 I8 I9 IW]. split; try done.
    + intros j Hj. destruct (I7 j Hj) as [?|[->|?]%elem_of_cons]; auto.
    + intros j Hj. apply I8. by right.
  - assert (Hid : is_Some (heap w !! id)) by (apply (i_extra _ _ I); by left).
    destruct (close_on _ id w I Hid) as (s & o & E & N & Hpre). mstep E. mend.
    exists (delete id (heap w)), o. cbn [set_mem heap sys]. rewrite delete_insert_eq. split; [done|].
    apply (net_delete _ _ id) in N. rewrite delete_insert_eq in N.
    assert (Hne : ∀ j, id ∈ m_sockets (srv w) ∨ held w id ∨ id ∈ client_jobs w → j = id → False)
      by (intros j Hr _; apply referenced_spec in Hr; congruence).
    assert (Hlk : ∀ j, j ∈ m_sockets (srv w) ∨ held w j ∨ j ∈ client_jobs w → delete id (heap w) !! j = heap w !! j)
      by (intros j Hj; apply lookup_delete_ne; intros <-; by eapply Hne).
    split; [|split; [intros j Hj; apply lookup_delete_ne; intros <-; destruct Hj; [done|congruence]|done]].
    destruct I as [I1 I2 I3 I4 I5 I6 I7 I8 I9 IW].
    split; cbn [set_mem heap sys srv accept_jobs accepting client_jobs]; try done.
    + intros j Hj. unfold valid_at. rewrite Hlk by auto. by apply I3.
    + intros j Hj. rewrite Hlk by auto. by apply I4.
    + intros Hs. destruct (I5 Hs) as [? Hv]. split; [done|]. intros j Hj. unfold valid_at. rewrite Hlk by auto. by apply Hv.
    + intros c Hc. unfold client_at. rewrite Hlk by auto. by apply I6.
    + intros j. rewrite lookup_delete. case_decide; [by intros [? ?]|]. intros Hj.
      destruct (I7 j Hj) as [?|[->|?]%elem_of_cons]; [by left|done|by right].
    + intros j Hj. rewrite lookup_delete_ne; [apply I8; by right|]. intros <-. done.
    + intros it Hit. apply (wait_at_mono (heap w) _ (sys w)); [by apply IW|done|].
      apply Hlk. right; left. by apply held_wait.
Qed.

Lemma releases_ok X l w : inv (l ++ X) w → ∃ H o, mfor l release w = Ret tt (set_mem H o w) ∧ inv X (set_mem H o w) ∧
  (∀ j, j ∉ l ∨ referenced w j = true → H !! j = heap w !! j) ∧ cancelled (sys w) `prefix_of` cancelled o.
Proof.
  revert w. induction l as [|id l IH]; intros w I.
  - exists (heap w), (sys w). replace (set_mem (heap w) (sys w) w) with w by (by destruct w). done.
  - destruct (release_ok (l ++ X) id w I) as (H & o & E & I1 & Hl & P). cbn [mfor]. mstep E.
    destruct (IH _ I1) as (H' & o' & E' & I' & Hl' & P'). exists H', o'. split; [exact E'|]. split; [exact I'|].
    split; [|by etrans]. intros j Hj. rewrite Hl', Hl; [done|..].
    + destruct Hj as [[? ?]%not_elem_of_cons|?]; [by left|by right].
    + destruct Hj as [[? ?]%not_elem_of_cons|?]; [by left|by right].
Qed.

Lemma new_ptr_ok X s w : inv X w → sock_ok (mkSockw s (sys w)) →
  (∀ j t, heap w !! j = Some t → m_sockfd t = m_sockfd s → m_sockfd s = -1) →
  ∃ id, heap w !! id = None ∧ new_ptr s w = Ret id (set_mem (<[id := s]> (heap w)) (sys w) w) ∧
    inv (id :: X) (set_mem (<[id := s]> (heap w)) (sys w) w).
Proof.
  intros I Hs Hd. set (id := fresh (dom (heap w))).
  assert (Hid : heap w !! id = None) by (apply not_elem_of_dom, is_fresh).
  exists id. split; [done|]. split; [done|].
  assert (Hne : ∀ j, is_Some (heap w !! j) → id ≠ j) by (intros j [? Hj] <-; congruence).
  assert (Hlk : ∀ j, is_Some (heap w !! j) → <[id := s]> (heap w) !! j = heap w !! j)
    by (intros j Hj; by rewrite lookup_insert_ne by (by apply Hne)).
  destruct I as [I1 I2 I3 I4 I5 I6 I7 I8 I9 IW].
  assert (L3 : ∀ j, valid_at (heap w) j → valid_at (<[id := s]> (heap w)) j)
    by (intros j (t & Ht & V); exists t; rewrite Hlk by (by exists t); done).
  split; cbn [set_mem heap sys srv accept_jobs accepting client_jobs]; try done.
  - apply (net_update _ (sys w) _ _ _ (m_sockfd s)); [exact I1|exact Hs|apply others_refl| |by left]. intros j t _. apply Hd.
  - auto.
  - intros j Hj. rewrite Hlk; by apply I4.
  - intros Hst. destruct (I5 Hst) as [? Hv]. split; [done|]. auto.
  - intros c Hc. destruct (I6 c Hc) as ((t & Ht & V) & ? & ?). split; [|done].
    exists t. by rewrite Hlk by (by exists t).
  - intros j. rewrite lookup_insert. case_decide as E; [intros _; right; apply elem_of_cons; by left|].
    intros Hj. destruct (I7 j Hj) as [?|?]; [by left|right; by right].
  - intros j [->|Hj]%elem_of_cons; [rewrite lookup_insert_eq; by eexists|]. rewrite Hlk; by apply I8.
  - constructor; [|done]. intros Hj%I8. by destruct (Hne id Hj).
  - intros it Hit. apply (wait_at_mono (heap w) _ (sys w)); [by apply IW|done|]. apply Hlk, I4. by apply held_wait.
Qed.

(** A call on an object that may only make it more valid. *)
Lemma inv_on X id s s' o' k w : inv X w → heap w !! id = Some s → sock_ok (mkSockw s' o') → others k (sys w) o' →
  (∀ j t, j ≠ id → heap w !! j = Some t → m_sockfd t = k → k = -1) →
  (m_sockfd s' = k ∨ (∃ s, heap w !! id = Some s ∧ m_sockfd s' = m_sockfd s) ∨ m_sockfd s' = -1) →
  (isValid s = true → isValid s' = true) → (isConnected s = true → isConnected s' = true) →
  cancelled o' = cancelled (sys w) → (held w id → s' = s) →
  inv X (set_mem (<[id := s']> (heap w)) o' w).
Proof.
  intros I Hid Hs' Oth Hk Hf Hv Hc Q Hsame.
  apply inv_mem; [done|by eapply net_update; [apply (i_net _ _ I)|..]|by eapply is_Some_insert| | |].
  - intros j _ (t & Ht & V). unfold valid_at. rewrite lookup_insert. case_decide; [|by exists t].
    subst j. exists s'. split; [done|]. apply Hv. congruence.
  - intros j _ (t & Ht & V & C). unfold client_at. rewrite lookup_insert. case_decide; [|by exists t].
    subst j. exists s'. rewrite Hid in Ht. injection Ht as <-. auto.
  - intros it Hit Hw. apply (wait_at_mono (heap w) _ (sys w)); [done|by rewrite Q|].
    rewrite lookup_insert. case_decide as E; [|done]. subst id. by rewrite Hsame, Hid by (by apply held_wait).
Qed.

(** ** Binding *)

Definition fresh_binding (w : tcpw) (b : binding) : Prop :=
  b_fd b = -1 ∨ (0 ≤ b_fd b ∧ kernel (sys w) !! b_fd b = None).

(** Each descriptor is new at the time [socket] returns it. *)
Fixpoint fresh_bindings `{Platform} (l : list binding) (w : tcpw) : Prop :=
  match l with
  | [] => True
  | b :: l => fresh_binding w b ∧ ∀ ok w', bind_one b w = Ret ok w' → fresh_bindings l w'
  end.

(** What an operation of the server keeps besides the invariant. *)
Definition same_jobs (w w' : tcpw) : Prop :=
  accept_jobs w' = accept_jobs w ∧ accepting w' = accepting w ∧ client_jobs w' = client_jobs w ∧
  m_is_stop (srv w') = m_is_stop (srv w).

Lemma push_socket_ok id w : inv [id] w → valid_at (heap w) id → ¬ held w id → id ∉ client_jobs w → id ∉ m_sockets (srv w) →
  inv [] (set_srv (λ s, with_sockets (m_sockets s ++ [id]) s) w).
Proof.
  intros I V Hh Hc Hm. destruct I as [I1 I2 I3 I4 I5 I6 I7 I8 I9 IW].
  split; cbn [set_srv with_sockets TcpServer.m_sockets m_is_stop heap sys srv accept_jobs accepting client_jobs]; try done.
  - apply NoDup_app. split; [done|]. split; [|apply NoDup_singleton]. intros j Hj ->%list_elem_of_singleton. done.
  - intros j [Hj| ->%list_elem_of_singleton]%elem_of_app; auto.
  - intros c Hcl. destruct (I6 c Hcl) as (? & ? & ?). split; [done|]. split; [|done].
    intros [?| ->%list_elem_of_singleton]%elem_of_app; done.
  - intros j Hj. left. apply referenced_spec. cbn. destruct (I7 j Hj) as [R%referenced_spec|R].
    + destruct R as [R|[R|R]]; [left; apply elem_of_app; by left|right; by left|right; by right].
    + left. apply elem_of_app. by right.
  - intros j Hj. by apply elem_of_nil in Hj.
  - constructor.
Qed.

Lemma fresh_unused X id w : inv X w → heap w !! id = None → ¬ held w id ∧ (id ∉ client_jobs w) ∧ id ∉ m_sockets (srv w).
Proof.
  intros I Hid. split; [|split].
  - intros Hh. destruct (i_held _ _ I _ Hh). congruence.
  - intros Hc. destruct (i_client _ _ I _ Hc) as ((s & Hs & _) & _). congruence.
  - intros Hm. destruct (i_listen _ _ I _ Hm) as (s & Hs & _). congruence.
Qed.

Lemma bind_one_ok `{Platform} b w : inv [] w → fresh_binding w b →
  ∃ ok w', bind_one b w = Ret ok w' ∧ inv [] w' ∧ same_jobs w w' ∧
    ∃ l, m_sockets (srv w') = m_sockets (srv w) ++ l.
Proof.
  intros I Hfr. unfold bind_one, Socket_create_for. cbn [orb Z.eqb].
  change (TCP =? TCP) with true. cbn [orb]. set (s := Socket_new (getFamily (b_addr b)) TCP 0).
  destruct (new_ptr_ok [] s w I) as (id & Hid & E & I1); [split; [apply (i_net _ _ I)|done]|done|]. mstep E.
  destruct (fresh_unused _ id w I Hid) as (Hh & Hc & Hm).
  set (w1 := set_mem _ _ w) in *. assert (Hs : heap w1 !! id = Some s) by apply lookup_insert_eq.
  destruct (bind_ok (b_addr b) (b_fd b) (b_bind b) (b_name b) (mkSockw s (sys w1))) as (ok & sw & Eb & Hok & Hv & Hf);
    [split; [apply (i_net _ _ I)|done]|by intros _|]. specialize (Hf eq_refl) as [Oth Hfd]. cbn [os] in Oth.
  mstep (on_socket_Ret id _ s _ _ w1 Hs Eb).
  assert (I2 : inv [id] (set_mem (<[id := sock sw]> (heap w1)) (os sw) w1)).
  { apply (inv_on _ _ s _ _ (b_fd b)); [done|done|by destruct sw|exact Oth| |left; exact Hfd|done|done|by apply bind_quiet in Eb|done].
    intros j t Hj Ht Ef. cbn [w1 set_mem heap] in Ht. rewrite lookup_insert_ne in Ht by done.
    destruct Hfr as [Hfr|[Hn Hk]]; [done|]. by destruct (net_fresh _ _ _ (i_net _ _ I) Hn Hk j t Ht). }
  set (w2 := set_mem _ _ w1) in *.
  assert (Hrel : ∀ ok, ∃ w', (release id;; mreturn ok) w2 = Ret (ok : bool) w' ∧ inv [] w' ∧ same_jobs w w' ∧
    ∃ l, m_sockets (srv w') = m_sockets (srv w) ++ l).
  { intros ok'. destruct (release_ok [] id w2 I2) as (H' & o' & Er & Ir & _ & _). mstep Er. eexists. split; [done|].
    split; [done|]. split; [done|]. exists []. by rewrite app_nil_r. }
  destruct ok; cbn [negb]; [|destruct (Hrel false) as (w' & Er & P); by exists false, w'].
  assert (Hs2 : heap w2 !! id = Some (sock sw)) by apply lookup_insert_eq.
  assert (El : listen (b_listen b) (mkSockw (sock sw) (sys w2)) = Ret (b_listen b) sw).
  { unfold listen. rewrite (bind_Ret mget _ _ _ _ eq_refl). cbn [sock]. rewrite Hv by done. by destruct sw. }
  mstep (on_socket_Ret id _ _ _ _ w2 Hs2 El).
  replace (set_mem (<[id := sock sw]> (heap w2)) (os sw) w2) with w2
    by (unfold w2; cbn [set_mem heap]; by rewrite insert_insert_eq).
  destruct (b_listen b); cbn [negb]; [|destruct (Hrel false) as (w' & Er & P); by exists false, w'].
  eexists true, _. split; [reflexivity|]. split; [|split; [done|by eexists]].
  apply push_socket_ok; [done| |done..]. exists (sock sw). by split; [|apply Hv].
Qed.

Lemma bind_all_ok `{Platform} l w : inv [] w → fresh_bindings l w →
  ∃ failed w', bind_all l w = Ret failed w' ∧ inv [] w' ∧ same_jobs w w'.
Proof.
  revert w. induction l as [|b l IH]; intros w I F; cbn [bind_all fresh_bindings] in *; [by exists [], w|].
  destruct F as [Fb Fl]. destruct (bind_one_ok b w I Fb) as (ok & w1 & E & I1 & J1 & _). mstep E.
  destruct (IH w1 I1 (Fl _ _ E)) as (failed & w2 & E2 & I2 & J2). mstep E2.
  eexists _, w2. split; [done|]. split; [done|]. unfold same_jobs in *. naive_solver congruence.
Qed.

Lemma clear_sockets_ok X w : inv X w → (∀ id, id ∈ X → id ∉ m_sockets (srv w)) →
  ∃ w', clear_sockets w = Ret tt w' ∧ inv X w' ∧ same_jobs w w' ∧ m_sockets (srv w') = [].
Proof.
  intros I HX. unfold clear_sockets. rewrite (bind_Ret mget _ w w w eq_refl), bind_modify.
  destruct (releases_ok X (m_sockets (srv w)) (set_srv (with_sockets []) w)) as (H & o & E & I' & _).
  - destruct I as [I1 I2 I3 I4 I5 I6 I7 I8 I9 IW].
    split; cbn [set_srv with_sockets TcpServer.m_sockets m_is_stop heap sys srv accept_jobs accepting client_jobs]; try done.
    + constructor.
    + intros j Hj. by apply elem_of_nil in Hj.
    + intros c Hc. destruct (I6 c Hc) as (? & ? & ?). split; [done|]. split; [apply not_elem_of_nil|done].
    + intros j Hj. destruct (I7 j Hj) as [R%referenced_spec|R]; [|right; apply elem_of_app; by right].
      destruct R as [R|R]; [right; apply elem_of_app; by left|left; apply referenced_spec; right; exact R].
    + intros j [Hj|Hj]%elem_of_app; [|by apply I8]. destruct (I3 j Hj) as (s & Hs & _). by exists s.
    + apply NoDup_app. split; [done|]. split; [|done]. intros j Hj Hx. by apply (HX j).
  - exists (set_mem H o (set_srv (with_sockets []) w)). split; [exact E|]. split; [exact I'|]. done.
Qed.

(** ** Starting and stopping *)

(** The jobs [start] schedules. *)
Lemma push_jobs l w : mfor l (λ id, mmodify (λ w, set_jobs (accept_jobs w ++ [JAccept id]) w)) w =
  Ret tt (set_jobs (accept_jobs w ++ (JAccept <$> l)) w).
Proof.
  revert w. induction l as [|id l IH]; intros w; cbn [mfor].
  - rewrite app_nil_r. by destruct w.
  - rewrite bind_modify, IH. cbn [set_jobs accept_jobs]. by rewrite <-(assoc_L app).
Qed.

(** [start] is called when the server is running or nothing is left of its
    last run. *)
Definition may_start (w : tcpw) : Prop := m_is_stop (srv w) = false ∨ (accept_jobs w = [] ∧ accepting w = []).

Lemma start_ok w : inv [] w → may_start w → ∃ w', start w = Ret true w' ∧ inv [] w' ∧
  m_is_stop (srv w') = false.
Proof.
  intros I M. unfold start. rewrite (bind_Ret mget _ w w w eq_refl). unfold isStop.
  destruct (m_is_stop (srv w)) eqn:Es; cbn [negb]; [|by exists w].
  destruct M as [?|[M1 M2]]; [congruence|]. rewrite bind_modify. mstep (push_jobs (m_sockets (srv w)) (set_srv (setStop false) w)).
  eexists. split; [done|]. split; [|done]. destruct I as [I1 I2 I3 I4 I5 I6 I7 I8 I9 IW].
  assert (Hheld : ∀ id, held (set_jobs (accept_jobs w ++ (JAccept <$> m_sockets (srv w))) (set_srv (setStop false) w)) id →
    id ∈ m_sockets (srv w)).
  { intros id. unfold held. cbn. rewrite M1, M2. cbn. rewrite list_elem_of_fmap.
    intros [(j & [= <-] & ?)|?%elem_of_nil]; done. }
  split; cbn [set_srv set_jobs setStop TcpServer.m_sockets m_is_stop heap sys srv accept_jobs accepting client_jobs]; try done.
  - intros id Hid%Hheld. destruct (I3 id Hid) as (s & ? & _). by exists s.
  - intros _. split; [|auto]. rewrite M1. cbn. rewrite list_elem_of_fmap. by intros (? & ? & _).
  - intros c Hc. destruct (I6 c Hc) as (? & ? & _). split; [done|]. split; [done|]. by intros Hx%Hheld.
  - intros id Hid. destruct (I7 id Hid) as [R%referenced_spec|?]; [left|by right]. apply referenced_spec. cbn.
    destruct R as [R|[R|R]]; auto. unfold held in R. rewrite M1, M2 in R. by destruct R as [R%elem_of_nil|R%elem_of_nil].
Qed.

Lemma stop_ok w : inv [] w → ∃ w', stop w = Ret true w' ∧ inv [] w' ∧ m_is_stop (srv w') = true.
Proof.
  intros I. unfold stop. rewrite (bind_Ret mget _ w w w eq_refl). unfold isStop.
  destruct (m_is_stop (srv w)) eqn:Es; [by exists w|]. rewrite !bind_modify.
  eexists. split; [done|]. split; [|done].
  assert (Hheld : ∀ id, held (set_jobs (accept_jobs w ++ [JClose]) (set_srv (setStop true) w)) id ↔ held w id).
  { intros id. unfold held. cbn. rewrite elem_of_app, list_elem_of_singleton. naive_solver. }
  destruct I as [I1 I2 I3 I4 I5 I6 I7 I8 I9 IW].
  split; try done.
  - intros id Hid%Hheld. by apply I4.
  - intros c Hc. destruct (I6 c Hc) as (? & ? & Hx). split; [done|]. split; [done|]. by rewrite Hheld.
  - intros id Hid. destruct (I7 id Hid) as [R%referenced_spec|?]; [left|by right]. apply referenced_spec. by rewrite Hheld.
Qed.

(** The closing job: while the server is stopped its sockets may be closed. *)
Definition close_each (l : list nat) : M tcpw unit :=
  mfor l (λ id, on_socket id cancel_all;; on_socket id close;; mreturn tt).

Lemma cancel_all_ok s o : sock_ok (mkSockw s o) → isValid s = true →
  ∃ o', cancel_all (mkSockw s o) = Ret tt (mkSockw s o') ∧ hooked o' ∧ (∀ fd, others fd o o') ∧
    cancelled o' = cancelled o ++ [m_sockfd s].
Proof.
  intros [(W & He & Hi) Hs] V. unfold cancel_all. rewrite (bind_Ret mget _ _ _ _ eq_refl). cbn [os sock] in *.
  rewrite Hi. cbn [negb]. unfold isValid in V. apply negb_true_iff in V. rewrite V in Hs. destruct Hs as (H0 & _).
  destruct (Z.ltb_spec (m_sockfd s) 0); [lia|]. eexists. split; [done|]. split; [|done].
  split; [|done]. by destruct W.
Qed.

Lemma cancel_close_ok id s w : heap w !! id = Some s → isValid s = true → net_ok (heap w) (sys w) →
  ∃ s' o, (on_socket id cancel_all;; on_socket id close;; mreturn tt) w = Ret tt (set_mem (<[id := s']> (heap w)) o w) ∧
    net_ok (<[id := s']> (heap w)) o ∧ isValid s' = false ∧
    ∀ it, wait_at (heap w) (sys w) it → wait_at (<[id := s']> (heap w)) o it.
Proof.
  intros Hs V N. pose proof N as (Ho & Hok & Hd).
  destruct (cancel_all_ok s (sys w) (Hok id s Hs) V) as (o1 & E1 & Ho1 & Oth1 & C1).
  mstep (on_socket_Ret id _ s _ _ w Hs E1). cbn [sock os]. rewrite (insert_id (heap w) id s) by done.
  assert (Hok1 : sock_ok (mkSockw s o1)).
  { eapply sock_ok_others; [exact (Hok id s Hs)|exact Ho1|exact (Oth1 (-1))|done]. }
  destruct (sock_close_ok (mkSockw s o1) Hok1) as (w' & E & Hok' & V' & _ & Oth).
  mstep (on_socket_Ret id close s _ _ (set_mem (heap w) o1 w) Hs E). exists (sock w'), (os w').
  split; [done|]. cbn [set_mem heap]. pose proof (close_cancels _ _ Hok1 E) as C2. cbn [sock os] in C2. rewrite C1, V in C2.
  split; [|split; [done|]].
  2: { intros it Hit. apply (wait_at_closed _ (sys w) _ _ _ s); [done|done|done|rewrite C2, <-app_assoc; by eexists|].
    intros _. rewrite C2, <-app_assoc, drop_app_length. by left. }
  apply (net_update _ (sys w) _ _ _ (m_sockfd s) N); [by destruct w'|by eapply others_trans; [apply Oth1|exact Oth]| |].
  - intros j t Hj Ht Ef. by eapply (Hd id j s t).
  - right; right. unfold isValid in V'. apply negb_false_iff, Z.eqb_eq in V'. exact V'.
Qed.

(** Sockets that are not in the list stay as they are. *)
Lemma close_each_ok l w : NoDup l → (∀ id, id ∈ l → valid_at (heap w) id) → net_ok (heap w) (sys w) →
  ∃ H o, close_each l w = Ret tt (set_mem H o w) ∧ net_ok H o ∧
    (∀ id, is_Some (H !! id) ↔ is_Some (heap w !! id)) ∧ (∀ id, id ∉ l → H !! id = heap w !! id) ∧
    (∀ id, id ∈ l → ∃ s, H !! id = Some s ∧ isValid s = false) ∧
    ∀ it, wait_at (heap w) (sys w) it → wait_at H o it.
Proof.
  revert w. induction l as [|id l IH]; intros w Hd V N.
  - exists (heap w), (sys w). split; [by destruct w|]. split; [done|]. split; [done|]. split; [done|].
    split; [by intros id ?%elem_of_nil|done].
  - apply NoDup_cons in Hd as [Hn Hd]. destruct (V id ltac:(by left)) as (s & Hs & Vs).
    destruct (cancel_close_ok id s w Hs Vs N) as (s' & o & E & N' & V' & Wt). unfold close_each. cbn [mfor]. mstep E.
    destruct (IH (set_mem (<[id := s']> (heap w)) o w) Hd) as (H & o' & E' & N2 & D & L & C & Wt'); [|done|].
    + intros j Hj. destruct (V j ltac:(by right)) as (t & Ht & Vt). exists t. cbn [set_mem heap].
      rewrite lookup_insert_ne by congruence. done.
    + exists H, o'. split; [exact E'|]. split; [exact N2|]. split.
      * intros j. rewrite D. by eapply is_Some_insert.
      * split.
        -- intros j [Hne Hj]%not_elem_of_cons. rewrite L by done. cbn [set_mem heap]. by rewrite lookup_insert_ne.
        -- split; [|intros it Hit; by apply Wt', Wt].
           intros j [->|Hj]%elem_of_cons; [|by apply C]. exists s'. split; [|done]. rewrite L by done. apply lookup_insert_eq.
Qed.

Lemma close_job_ok w : inv [] w → m_is_stop (srv w) = true → ∃ w', close_job w = Ret tt w' ∧ inv [] w' ∧
  same_jobs w w' ∧ m_sockets (srv w') = [] ∧
  ∀ id, id ∈ m_sockets (srv w) → held w id → ∃ s, heap w' !! id = Some s ∧ isValid s = false.
Proof.
  intros I Hst. unfold close_job. rewrite (bind_Ret mget _ w w w eq_refl).
  destruct (close_each_ok (m_sockets (srv w)) w) as (H & o & E & N & D & L & C & Wt); [apply I|apply I|apply I|].
  unfold close_each in E. mstep E.
  set (w1 := set_mem H o w). assert (I1 : inv (m_sockets (srv w)) (set_srv (with_sockets []) w1)).
  { destruct I as [I1 I2 I3 I4 I5 I6 I7 I8 I9 IW].
    split; unfold w1; cbn [set_mem set_srv with_sockets TcpServer.m_sockets m_is_stop heap sys srv accept_jobs accepting client_jobs]; try done.
    - intros j Hj. by apply elem_of_nil in Hj.
    - intros j Hj. apply D. by apply I4.
    - rewrite Hst. done.
    - intros c Hc. destruct (I6 c Hc) as (Hcl & Hm & ?). split; [|split; [apply not_elem_of_nil|done]].
      unfold client_at. by rewrite L.
    - intros j Hj. apply D in Hj. destruct (I7 j Hj) as [R%referenced_spec|R%elem_of_nil]; [|done].
      destruct R as [R|R]; [by right|left; apply referenced_spec; right; exact R].
    - intros j Hj. apply D. destruct (I3 j Hj) as (s & Hs & _). by exists s.
    - intros it Hit. by apply Wt, IW. }
  unfold clear_sockets. rewrite (bind_Ret mget _ w1 w1 w1 eq_refl), bind_modify.
  destruct (releases_ok [] (m_sockets (srv w)) (set_srv (with_sockets []) w1)) as (H' & o' & E' & I' & L' & _);
    [by rewrite app_nil_r|]. exists (set_mem H' o' (set_srv (with_sockets []) w1)). split; [exact E'|]. split; [exact I'|].
  split; [done|]. split; [done|]. intros id Hid Hh. cbn [set_mem heap]. rewrite L'; [by apply C|].
  right. apply referenced_spec. right; left. exact Hh.
Qed.

Lemma close_job_empty w : m_sockets (srv w) = [] → close_job w = Ret tt w.
Proof.
  intros E. unfold close_job. rewrite (bind_Ret mget _ w w w eq_refl), E. cbn [mfor].
  rewrite (bind_Ret (mreturn tt) _ w tt w eq_refl). unfold clear_sockets.
  rewrite (bind_Ret mget _ w w w eq_refl), bind_modify, E. cbn [mfor]. unfold mreturn. f_equal.
  destruct w as [[l c n s] H o j a k]. cbn in *. by subst l.
Qed.

(** ** Accepting *)

Lemma held_delete_job i j w id : accept_jobs w !! i = Some j →
  held w id ↔ held (set_jobs (delete i (accept_jobs w)) w) id ∨ JAccept id = j.
Proof.
  intros Hi. unfold held. cbn [set_jobs accept_jobs accepting].
  rewrite (delete_Permutation _ _ _ Hi) at 1. rewrite elem_of_cons. tauto.
Qed.

Lemma held_delete_loop i id' fd w id : accepting w !! i = Some (id', fd) →
  held w id ↔ held (set_accepting (delete i (accepting w)) w) id ∨ id = id'.
Proof.
  intros Hi. unfold held. cbn [set_accepting accept_jobs accepting].
  rewrite (delete_Permutation _ _ _ Hi) at 1. cbn [fmap list_fmap fst]. rewrite elem_of_cons. tauto.
Qed.

(** A job or loop that held [id] is being run. *)
Lemma inv_unheld w w' id : inv [] w → heap w' = heap w → sys w' = sys w → srv w' = srv w →
  client_jobs w' = client_jobs w → (JClose ∈ accept_jobs w' → JClose ∈ accept_jobs w) →
  (∀ j, held w j ↔ held w' j ∨ j = id) → accepting w' ⊆ accepting w → inv [id] w'.
Proof.
  intros [I1 I2 I3 I4 I5 I6 I7 I8 I9 IW] E1 E2 E3 E4 Hj Hh Ha.
  assert (Hid : held w id) by (apply Hh; by right).
  assert (Hw : ∀ j, held w' j → held w j) by (intros j ?; apply Hh; by left).
  split; rewrite ?E1, ?E2, ?E3, ?E4; try done.
  - intros j Hx. by apply I4, Hw.
  - intros Hs. destruct (I5 Hs) as [? Hv]. split; [auto|]. intros j Hx. by apply Hv, Hw.
  - intros c Hc. destruct (I6 c Hc) as (? & ? & Hx). split; [done|]. split; [done|]. intros Hy. by apply Hx, Hw.
  - intros j Hx. destruct (I7 j Hx) as [R%referenced_spec|R%elem_of_nil]; [|done].
    assert (R' : referenced w' j = true ∨ j = id).
    { rewrite referenced_spec, E3, E4. destruct R as [R|[R%Hh|R]]; [by left; left| |by left; right; right].
      destruct R as [R| ->]; [left; right; by left|by right]. }
    destruct R' as [R'| ->]; [by left|right; apply elem_of_cons; by left].
  - intros j ->%list_elem_of_singleton. by apply I4.
  - apply NoDup_singleton.
  - intros it Hit. by apply IW, Ha.
Qed.

Lemma loop_head_ok id w : inv [id] w → id ∉ client_jobs w → (m_is_stop (srv w) = false → valid_at (heap w) id) →
  ∃ w', loop_head id w = Ret tt w' ∧ inv [] w' ∧ srv w' = srv w ∧ client_jobs w' = client_jobs w ∧
    accept_jobs w' = accept_jobs w ∧
    (m_is_stop (srv w) = true → accepting w' = accepting w ∧ ∀ j, held w' j → heap w' !! j = heap w !! j).
Proof.
  intros I Hc Hv. unfold loop_head. rewrite (bind_Ret mget _ w w w eq_refl). unfold isStop.
  destruct (m_is_stop (srv w)) eqn:Es.
  - destruct (release_ok [] id w I) as (H & o & E & I' & Hl & _). exists (set_mem H o w). split; [exact E|].
    split; [done|]. do 3 (split; [done|]). intros _. split; [done|]. intros j Hj. apply Hl. right.
    apply referenced_spec. right; left. exact Hj.
  - destruct (Hv eq_refl) as (s & Hs & V). pose proof (i_net _ _ I) as (Ho & Hok & _).
    set (t := mkWait (m_sockfd s) (length (cancelled (sys w)))).
    assert (E : accept_begin id w = Ret t w).
    { assert (E0 : (w <- mget;; x <- on_os (fd_get (m_sockfd (sock w)) false);;
        mreturn (mkWait (m_sockfd (sock w)) (length (cancelled (os w))))) (mkSockw s (sys w)) = Ret t (mkSockw s (sys w))).
      { rewrite (bind_Ret mget _ _ _ _ eq_refl). cbn [sock os]. destruct (Hok id s Hs) as [_ Hf]. cbn [sock os] in Hf.
        unfold isValid in V. apply negb_true_iff in V. rewrite V in Hf. destruct Hf as (H0 & _).
        by mstep (on_os_Ret _ (mkSockw s (sys w)) _ _ (fd_get_spec (m_sockfd s) (sys w) (proj1 Ho) H0)). }
      unfold accept_begin. rewrite (on_socket_Ret id _ s _ _ w Hs E0). cbn [sock os]. rewrite insert_id by done.
      by destruct w. }
    mstep E. eexists. split; [reflexivity|]. split; [|done].
    assert (Hh : ∀ j, held (set_accepting (accepting w ++ [(id, t)]) w) j ↔ held w j ∨ j = id).
    { intros j. unfold held. cbn [set_accepting accept_jobs accepting]. rewrite fmap_app, elem_of_app. cbn.
      rewrite list_elem_of_singleton. tauto. }
    destruct I as [I1 I2 I3 I4 I5 I6 I7 I8 I9 IW]. split; try done.
    + intros j [Hj| ->]%Hh; [by apply I4|by exists s].
    + intros _. destruct (I5 Es) as [? Hx]. split; [done|]. intros j [Hj| ->]%Hh; [by apply Hx|by exists s].
    + intros c Hcl. destruct (I6 c Hcl) as (? & ? & ?). split; [done|]. split; [done|]. rewrite Hh. by intros [?| ->].
    + intros j Hj. left. apply referenced_spec. rewrite Hh.
      destruct (I7 j Hj) as [R%referenced_spec|R%list_elem_of_singleton]; [|auto]. destruct R as [R|[R|R]]; auto.
    + intros j Hj. by apply elem_of_nil in Hj.
    + constructor.
    + intros it [Hit| ->%list_elem_of_singleton]%elem_of_app; [by apply IW|]. split; [done|]. cbn. intros u Hu.
      rewrite Hs in Hu. injection Hu as <-. by rewrite V.
Qed.

(** The new object of a descriptor the kernel returned. *)
Lemma accept_op_ok n l p s o : hooked o → 0 ≤ n → kernel o !! n = None → ∃ f o',
  (w <- mget;; on_os (new_socket n 2);; x <- on_os (fd_get n true);;
   on_os (init n (Socket_new (m_family (sock w)) (m_type (sock w)) (m_protocol (sock w))) l p)) (mkSockw s o) =
  Ret (Some (mkSocket n (m_family s) (m_type s) (m_protocol s) true l p)) (mkSockw s o') ∧
  hooked o' ∧ others n o o' ∧ obj o' n = Some f ∧ isSocket f = true ∧ cancelled o' = cancelled o.
Proof.
  intros Ho Hn Hk. destruct (get_new_socket n 2 o Ho Hn Hk) as [H1 (f & o' & Eg & H' & Of & Sf & Oth)].
  exists f, o'. pose proof (fd_get_quiet n true _ _ _ Eg) as Q. split; [|done]. rewrite (bind_Ret mget _ _ _ _ eq_refl). cbn [sock os].
  mstep (on_os_Ret (new_socket n 2) (mkSockw s o) tt _ eq_refl). cbn [sock].
  mstep (on_os_Ret (fd_get n true) (mkSockw s (set_kernel (<[n:=mkKfd true 2]> (kernel o)) o)) _ _ Eg). cbn [sock].
  unfold on_os. cbn [os sock]. unfold init. mstep (fd_get_spec n o' (proj1 H') Hn).
  rewrite Of, Sf. destruct (wf_fds o' (proj1 H') _ _ Of) as (C & _). unfold isClose. by rewrite C.
Qed.

Definition fresh_accept (w : tcpw) (r : option Z) : Prop :=
  match r with Some n => 0 ≤ n ∧ kernel (sys w) !! n = None | None => True end.

(** The client an accept loop made of descriptor [n]. *)
Definition new_client (n : Z) (w w' : tcpw) : Prop :=
  ∃ c s f, client_jobs w' = client_jobs w ++ [c] ∧ heap w' !! c = Some s ∧ m_sockfd s = n ∧ isConnected s = true ∧
    obj (sys w') n = Some f ∧ getTimeout READ f = s64 (m_client_timeout (srv w)).

Lemma push_client_ok c w : inv [c] w → client_at (heap w) c → ¬ held w c → c ∉ m_sockets (srv w) →
  inv [] (set_clients (client_jobs w ++ [c]) w).
Proof.
  intros [I1 I2 I3 I4 I5 I6 I7 I8 I9 IW] Hc Hh Hm. split; try done.
  - intros j [Hj| ->%list_elem_of_singleton]%elem_of_app; [by apply I6|done].
  - intros j Hj. left. apply referenced_spec. cbn. rewrite elem_of_app, list_elem_of_singleton.
    destruct (I7 j Hj) as [R%referenced_spec|R%list_elem_of_singleton]; [|auto]. destruct R as [R|[R|R]]; auto.
  - intros j Hj. by apply elem_of_nil in Hj.
  - constructor.
Qed.

(** The object of an accepted connection, next to the others. *)
Lemma accept_end_ok id n l p w : inv [] w → is_Some (heap w !! id) → 0 ≤ n → kernel (sys w) !! n = None →
  ∃ cid c f o, accept_end id (Some n) l p w = Ret (Some cid) (set_mem (<[cid := c]> (heap w)) o w) ∧
    inv [cid] (set_mem (<[cid := c]> (heap w)) o w) ∧ heap w !! cid = None ∧ sock_ok (mkSockw c o) ∧
    m_sockfd c = n ∧ isConnected c = true ∧ obj o n = Some f.
Proof.
  intros I [s Hs] Hn Hk. pose proof (i_net _ _ I) as N.
  destruct (accept_op_ok n l p s (sys w) (proj1 N) Hn Hk) as (f & o & E & Ho & Oth & Of & Sf & Q).
  unfold accept_end. mstep (on_socket_Ret id _ s _ _ w Hs E). cbn [sock os]. set (c := mkSocket n _ _ _ true l p).
  assert (Hother : ∀ j t, heap w !! j = Some t → m_sockfd t = n → n = -1)
    by (intros j t Ht Ef; by destruct (net_fresh _ _ _ N Hn Hk j t Ht)).
  assert (Hso : sock_ok (mkSockw s o)).
  { eapply sock_ok_others; [by apply (proj1 (proj2 N) id)|done|exact Oth|by apply (Hother id)]. }
  assert (I1 : inv [] (set_mem (<[id := s]> (heap w)) o w)).
  { apply (inv_on _ _ s _ _ n); [done|done|done|exact Oth| |right; left; by exists s|done..].
    intros j t _ Ht Ef. by apply (Hother j t). }
  rewrite insert_id in I1 by done. rewrite insert_id by done.
  assert (Hc : sock_ok (mkSockw c o)).
  { split; [done|]. cbn [sock os c m_sockfd]. destruct (Z.eqb_spec n (-1)); [lia|]. split; [done|]. by exists f. }
  destruct (new_ptr_ok [] c (set_mem (heap w) o w) I1 Hc) as (cid & Hcid & E2 & I2);
    [intros j t Ht Ef; by apply (Hother j t)|].
  mstep E2. exists cid, c, f, o. split; [done|]. split; [exact I2|]. done.
Qed.

Lemma accepted_ok id r l p x w : inv [] w → is_Some (heap w !! id) → fresh_accept w r →
  ∃ w', accepted id r l p x w = Ret tt w' ∧ inv [] w' ∧ srv w' = srv w ∧ accept_jobs w' = accept_jobs w ∧
    accepting w' = accepting w ∧ match r with Some n => new_client n w w' | None => w' = w end.
Proof.
  intros I Hid Hfr. unfold accepted. destruct r as [n|]; [|by exists w]. destruct Hfr as [Hn Hk].
  destruct (accept_end_ok id n l p w I Hid Hn Hk) as (cid & c & f & o & E & I2 & Hcid & Hc & Ec & Cc & Of).
  mstep E. set (w2 := set_mem (<[cid := c]> (heap w)) o w) in *. rewrite (bind_Ret mget _ w2 w2 w2 eq_refl).
  assert (Hc2 : heap w2 !! cid = Some c) by apply lookup_insert_eq.
  assert (Vc : isValid c = true) by (unfold isValid; rewrite Ec; destruct (Z.eqb_spec n (-1)); [lia|done]).
  change (srv w2) with (srv w). set (t := s64 (m_client_timeout (srv w))).
  assert (Ht : s64 t = t) by (apply wraps_small; [lia|]; apply wraps_range; lia).
  pose proof (set_timeout_spec READ t x (mkSockw c o) f Hc Vc) as Et.
  pose proof (set_timeout_ok READ t (mkSockw c o) f Hc Vc) as Ot. cbn [sock os] in Et, Ot.
  rewrite Ec, Ht in Et, Ot. specialize (Et Of). destruct (Ot Of) as [Hc3 Of3].
  mstep (on_socket_Ret cid (setRecvTimeout t x) c _ _ w2 Hc2 Et). cbn [sock os].
  rewrite insert_id by exact Hc2. destruct (fresh_unused _ cid w I Hcid) as (Hh & _ & Hm).
  eexists. split; [reflexivity|]. split; [|split; [done|split; [done|split; [done|]]]].
  - apply push_client_ok; [|by exists c|done|done].
    pose proof (inv_on [cid] cid c c (with_obj n (Some (setTimeout READ t f)) o) n w2 I2 Hc2 Hc3) as P.
    rewrite insert_id in P by exact Hc2. apply P; [by apply others_with_obj, (obj_range _ _ f)| |by left|done..].
    intros j u Hj Hu Ef. cbn [w2 set_mem heap] in Hu. rewrite lookup_insert_ne in Hu by done.
    by destruct (net_fresh _ _ _ (i_net _ _ I) Hn Hk j u Hu).
  - exists cid, c, (setTimeout READ t f). done.
Qed.

(** ** Runs of a server *)

Definition allowed_event `{Platform} (w : tcpw) (e : event) : Prop :=
  match e with
  | EBind l => fresh_bindings l w
  | EStart => may_start w
  | EStop | ESetClientTimeout _ => True
  | ERun i => (i < length (accept_jobs w))%nat
  | EAccepted i r _ _ _ =>
      (∃ id t, accepting w !! i = Some (id, t) ∧ can_return w id t r = true) ∧ fresh_accept w r
  | EHandled i => (i < length (client_jobs w))%nat
  end.

(** A job of the accept scheduler. *)
Lemma run_ok `{Platform} i j w : inv [] w → accept_jobs w !! i = Some j →
  ∃ w', exec (ERun i) w = Ret tt w' ∧ inv [] w' ∧ m_is_stop (srv w') = m_is_stop (srv w) ∧
    client_jobs w' = client_jobs w ∧ accept_jobs w' = delete i (accept_jobs w) ∧
    (m_is_stop (srv w) = true → accepting w' = accepting w) ∧
    m_sockets (srv w') = (if decide (j = JClose) then [] else m_sockets (srv w)) ∧
    (j = JClose → ∀ id, id ∈ m_sockets (srv w) → held w' id → ∃ s, heap w' !! id = Some s ∧ isValid s = false) ∧
    (m_is_stop (srv w) = true → m_sockets (srv w) = [] ∨ j ≠ JClose → ∀ id, held w' id → heap w' !! id = heap w !! id).
Proof.
  intros I Hi. cbn [exec]. rewrite (bind_Ret mget _ w w w eq_refl), Hi.
  set (w1 := set_jobs (delete i (accept_jobs w)) w). rewrite (bind_Ret (mput w1) _ w tt w1 eq_refl). destruct j as [id|].
  - assert (Hh : ∀ j, held w j ↔ held w1 j ∨ j = id).
    { intros j. rewrite (held_delete_job _ _ _ _ Hi). fold w1. split; (intros [?|E]; [by left|right; congruence]). }
    assert (Hid : held w id) by (apply Hh; by right).
    assert (I1 : inv [id] w1).
    { apply (inv_unheld w); try done. cbn. rewrite (delete_Permutation _ _ _ Hi) at 2. intros ?. by right. }
    destruct (loop_head_ok id w1 I1) as (w' & E & I' & Es & Ec & Ej & Ea).
    + intros Hc. by destruct (i_client _ _ I _ Hc) as (_ & _ & Hx).
    + intros Hs. by apply (i_run _ _ I).
    + exists w'. rewrite Es, Ec, Ej. do 5 (split; [done|]). split; [by intros Hs; apply Ea|]. do 2 (split; [done|]).
      intros Hs _. by apply Ea.
  - assert (Hst : m_is_stop (srv w) = true).
    { destruct (m_is_stop (srv w)) eqn:Es; [done|]. destruct (i_run _ _ I Es) as [Hn _].
      destruct Hn. by eapply list_elem_of_lookup_2. }
    assert (Hh : ∀ j, held w j ↔ held w1 j) by (intros j; rewrite (held_delete_job _ _ _ _ Hi); fold w1; naive_solver).
    assert (I1 : inv [] w1).
    { destruct I as [I1 I2 I3 I4 I5 I6 I7 I8 I9 IW]. split; try done.
      - intros j Hj%Hh. by apply I4.
      - cbn. by rewrite Hst.
      - intros c Hc. rewrite <-Hh. by apply I6.
      - intros j Hj. rewrite referenced_spec, <-Hh. destruct (I7 j Hj) as [R%referenced_spec|R]; [by left|by right]. }
    destruct (close_job_ok w1 I1 Hst) as (w' & E & I' & (J1 & J2 & J3 & J4) & M & C). exists w'. rewrite J1, J2, J3, J4.
    split; [exact E|]. split; [exact I'|]. do 4 (split; [done|]). split; [done|]. split.
    { intros _ id Hid Hx. apply C; [done|]. unfold held in *. by rewrite J1, J2 in Hx. }
    intros _ [Hm|?] id _; [|done]. rewrite (close_job_empty w1 Hm) in E. by injection E as <-.
Qed.

(** A loop whose [accept] returned. *)
Lemma accepted_event_ok `{Platform} i id fd r l p x w : inv [] w → accepting w !! i = Some (id, fd) → fresh_accept w r →
  can_return w id fd r = true →
  ∃ w1 w', accepted id r l p x w = Ret tt w1 ∧ exec (EAccepted i r l p x) w = Ret tt w' ∧ inv [] w' ∧ srv w' = srv w ∧
    client_jobs w' = client_jobs w1 ∧ accept_jobs w' = accept_jobs w ∧
    (m_is_stop (srv w) = true → accepting w' = delete i (accepting w)) ∧
    match r with Some n => new_client n w w1 | None => w1 = w end ∧
    (m_is_stop (srv w) = true → r = None → ∀ j, held w' j → heap w' !! j = heap w !! j).
Proof.
  intros I Hi Hfr Hret.
  assert (Hid : held w id) by (right; apply list_elem_of_fmap; exists (id, fd); split; [done|by eapply list_elem_of_lookup_2]).
  destruct (accepted_ok id r l p x w I (i_held _ _ I _ Hid) Hfr) as (w1 & E & I1 & Es & Ej & Ea & Hr).
  exists w1. cbn [exec]. rewrite (bind_Ret mget _ w w w eq_refl), Hi, Hret. cbn [negb]. mstep E. rewrite bind_modify.
  set (w2 := set_accepting (delete i (accepting w1)) w1).
  assert (Hi1 : accepting w1 !! i = Some (id, fd)) by (by rewrite Ea).
  assert (Hh : ∀ j, held w1 j ↔ held w2 j ∨ j = id) by (intros j; by rewrite (held_delete_loop _ _ _ _ _ Hi1)).
  assert (Hid1 : held w1 id) by (apply Hh; by right).
  assert (I2 : inv [id] w2).
  { apply (inv_unheld w1); try done. intros it Hit. cbn in Hit. rewrite (delete_Permutation _ _ _ Hi1). by right. }
  destruct (loop_head_ok id w2 I2) as (w' & E' & I' & Es' & Ec' & Ej' & Ea').
  - intros Hc. by destruct (i_client _ _ I1 _ Hc) as (_ & _ & Hx).
  - intros Hs. by apply (i_run _ _ I1).
  - exists w'. split; [done|]. split; [exact E'|]. split; [exact I'|]. rewrite Es', Ec', Ej'. cbn [w2 set_accepting srv client_jobs accept_jobs].
    split; [done|]. split; [done|]. split; [done|]. split.
    { intros Hs. destruct Ea' as [Ea' _]; [cbn; by rewrite Es|]. rewrite Ea'. cbn. by rewrite Ea. }
    split; [done|]. intros Hs -> j Hj. destruct Ea' as [_ Eh]; [cbn; by rewrite Es|]. rewrite Eh by done.
    cbn. by rewrite Hr.
Qed.

(** A client that was handled. *)
Lemma handled_ok `{Platform} i c w : inv [] w → client_jobs w !! i = Some c →
  ∃ w', exec (EHandled i) w = Ret tt w' ∧ inv [] w' ∧ srv w' = srv w ∧ accept_jobs w' = accept_jobs w ∧
    accepting w' = accepting w ∧ ∀ j, held w j → heap w' !! j = heap w !! j.
Proof.
  intros I Hi. cbn [exec]. rewrite (bind_Ret mget _ w w w eq_refl), Hi.
  set (w1 := set_clients (delete i (client_jobs w)) w). rewrite (bind_Ret (mput w1) _ w tt w1 eq_refl).
  assert (Hc : ∀ j, j ∈ client_jobs w ↔ j = c ∨ j ∈ client_jobs w1)
    by (intros j; cbn; rewrite (delete_Permutation _ _ _ Hi) at 1; apply elem_of_cons).
  assert (I1 : inv [c] w1).
  { destruct I as [I1 I2 I3 I4 I5 I6 I7 I8 I9 IW]. split; try done.
    - intros j Hj. by apply I6, Hc; right.
    - intros j Hj. destruct (I7 j Hj) as [R%referenced_spec|R%elem_of_nil]; [|done].
      rewrite referenced_spec. rewrite list_elem_of_singleton. destruct R as [R|[R|R%Hc]]; [by left; left|by left; right; left|].
      destruct R as [R|R]; [by right|by left; right; right].
    - intros j ->%list_elem_of_singleton. destruct (I6 c) as ((s & Hs & _) & _); [apply Hc; by left|by exists s].
    - apply NoDup_singleton. }
  destruct (release_ok [] c w1 I1) as (H' & o & E & I' & Hl & _). exists (set_mem H' o w1). split; [exact E|].
  do 4 (split; [done|]). intros j Hj. cbn. rewrite Hl; [done|]. left. intros ->.
  destruct (i_client _ _ I c) as (_ & _ & Hx); [apply Hc; by left|by apply Hx].
Qed.

Lemma tcp_exec_ok `{Platform} e w : inv [] w → allowed_event w e → ∃ w', exec e w = Ret tt w' ∧ inv [] w'.
Proof.
  intros I A. destruct e as [l| | |t|i|i r l p x|i]; cbn [allowed_event] in A.
  - destruct (bind_all_ok l w I A) as (failed & w1 & E & I1 & _). cbn [exec]. unfold bind.
    assert (Hb : ∃ b w', (match failed with [] => mreturn (true, []) | _ => clear_sockets;; mreturn (false, failed) end) w1 =
      Ret b w' ∧ inv [] w').
    { destruct failed; [by eexists _, w1|]. destruct (clear_sockets_ok [] w1 I1) as (w2 & E2 & I2 & _);
        [by intros ? ?%elem_of_nil|]. mstep E2. by eexists _, w2. }
    destruct Hb as (b & w' & Eb & I'). exists w'. split; [|done]. unfold mbind' at 1. unfold mbind' at 1. by rewrite E, Eb.
  - destruct (start_ok w I A) as (w' & E & I' & _). cbn [exec]. mstep E. by exists w'.
  - destruct (stop_ok w I) as (w' & E & I' & _). cbn [exec]. mstep E. by exists w'.
  - eexists. split; [reflexivity|]. destruct I as [I1 I2 I3 I4 I5 I6 I7 I8 I9 IW]. by split.
  - destruct (lookup_lt_is_Some_2 _ _ A) as [j Hj]. destruct (run_ok i j w I Hj) as (w' & E & I' & _). by exists w'.
  - destruct A as ((id & fd & Hj & Hret) & Hfr).
    destruct (accepted_event_ok i id fd r l p x w I Hj Hfr Hret) as (w1 & w' & _ & E & I' & _). by exists w'.
  - destruct (lookup_lt_is_Some_2 _ _ A) as [c Hj]. destruct (handled_ok i c w I Hj) as (w' & E & I' & _). by exists w'.
Qed.

Definition tstep `{Platform} (w w' : tcpw) : Prop := ∃ e, allowed_event w e ∧ exec e w = Ret tt w'.

(** A server that was made. *)
Definition tcp_init (client_timeout : Z) (name : string) (o : hookw) : tcpw :=
  mkTcp (TcpServer_new client_timeout name) ∅ o [] [] [].

Lemma inv_init t name o : hooked o → inv [] (tcp_init t name o).
Proof.
  intros Ho. split; cbn [tcp_init TcpServer_new heap sys srv TcpServer.m_sockets m_is_stop]; try done.
  - constructor.
  - intros id Hid. by apply elem_of_nil in Hid.
  - intros id [Hid|Hid]; by apply elem_of_nil in Hid.
  - intros c Hc. by apply elem_of_nil in Hc.
  - intros id [s Hs]. done.
  - intros id Hid. by apply elem_of_nil in Hid.
  - constructor.
  - intros it Hit. by apply elem_of_nil in Hit.
Qed.

Lemma tcp_reach_inv `{Platform} t name o w : hooked o → rtc tstep (tcp_init t name o) w → inv [] w.
Proof.
  intros Ho R. pose proof (inv_init t name o Ho) as I. clear Ho. induction R as [|w0 w1 w2 (e & A & E) _ IH]; [done|].
  destruct (tcp_exec_ok e w0 I A) as (w1' & E' & I1). rewrite E in E'. injection E' as <-. auto.
Qed.

(** C9: Through any sequence of bind, start, stop and setClientTimeout, jobs of
    the accept scheduler, returns of accept and handled clients nothing faults,
    as long as start is called only while the server runs or after the jobs and
    accept loops of its last run are gone. Every accepted connection is handed
    to the scheduler once, as a connected socket of a managed descriptor with
    the client timeout as its receive timeout, which stays so until it is
    handled; a running accept loop has a valid socket; and every socket object
    that is left is referred to by the server, a job or a loop. *)
Theorem tcp_server_safe `{Platform} t name o w : hooked o → rtc tstep (tcp_init t name o) w →
  (∀ e, allowed_event w e → ∃ w', exec e w = Ret tt w') ∧
  (∀ i id fd n l p x, accepting w !! i = Some (id, fd) → fresh_accept w (Some n) →
     ∃ w', accepted id (Some n) l p x w = Ret tt w' ∧ new_client n w w') ∧
  (∀ c, c ∈ client_jobs w → ∃ s f, heap w !! c = Some s ∧ isConnected s = true ∧
     obj (sys w) (m_sockfd s) = Some f ∧ isSocket f = true) ∧
  (m_is_stop (srv w) = false → ∀ id fd, (id, fd) ∈ accepting w → ∃ s, heap w !! id = Some s ∧ isValid s = true) ∧
  (∀ id s, heap w !! id = Some s → referenced w id = true).
Proof.
  intros Ho R. pose proof (tcp_reach_inv t name o w Ho R) as I. split; [|split; [|split; [|split]]].
  - intros e A. destruct (tcp_exec_ok e w I A) as (w' & E & _). by exists w'.
  - intros i id fd n l p x Hi Hfr.
    assert (Hid : is_Some (heap w !! id)) by (apply (i_held _ _ I); by eapply (held_wait w (id, fd)), list_elem_of_lookup_2).
    destruct (accepted_ok id (Some n) l p x w I Hid Hfr) as (w1 & E & _ & _ & _ & _ & Hc). by exists w1.
  - intros c Hc. destruct (i_client _ _ I c Hc) as ((s & Hs & V & C) & _).
    destruct (i_net _ _ I) as (_ & Hok & _). destruct (Hok c s Hs) as [_ Hf]. cbn [sock os] in Hf.
    unfold isValid in V. apply negb_true_iff in V. rewrite V in Hf. destruct Hf as (_ & f & Hf & Sf). by exists s, f.
  - intros Hs id fd Hid. apply (i_run _ _ I Hs). right. apply list_elem_of_fmap. by exists (id, fd).
  - intros id s Hs. destruct (i_refs _ _ I id) as [?|?%elem_of_nil]; [by exists s|done|done].
Qed.

(** ** Stopping *)

(** Steps of the accept scheduler, with their number, and clients that are
    handled in between. *)
Definition accept_step (e : event) : Prop := match e with ERun _ | EAccepted _ _ _ _ _ => True | _ => False end.
Inductive drains `{Platform} : nat → tcpw → tcpw → Prop :=
| DDone w : drains 0 w w
| DAccept n e w w1 w2 : accept_step e → allowed_event w e → exec e w = Ret tt w1 → drains n w1 w2 → drains (S n) w w2
| DClient n i w w1 w2 : allowed_event w (EHandled i) → exec (EHandled i) w = Ret tt w1 → drains n w1 w2 → drains n w w2.

Lemma drains_one `{Platform} n e w w1 w2 : drains n w w1 → accept_step e → allowed_event w1 e → exec e w1 = Ret tt w2 →
  drains (S n) w w2.
Proof.
  intros D He A E. induction D as [w|m e' w wa wb He' A' E' _ IH|m i w wa wb A' E' _ IH].
  - exact (DAccept 0 e w w2 w2 He A E (DDone w2)).
  - exact (DAccept (S m) e' w wa w2 He' A' E' (IH A E)).
  - exact (DClient (S m) i w wa w2 A' E' (IH A E)).
Qed.

Definition work (w : tcpw) : nat := length (accept_jobs w) + length (accepting w).

(** What the accept scheduler does without the network: a job runs, or a loop
    goes on whose socket was closed and whose wait was cancelled. *)
Definition by_itself (w : tcpw) (e : event) : Prop :=
  match e with
  | ERun i => (i < length (accept_jobs w))%nat
  | EAccepted i r _ _ _ => r = None ∧ ∃ id t s, accepting w !! i = Some (id, t) ∧
      heap w !! id = Some s ∧ isValid s = false ∧ woken w t = true
  | _ => False
  end.

Lemma by_itself_allowed `{Platform} w e : by_itself w e → accept_step e ∧ allowed_event w e.
Proof.
  destruct e as [l| | |t|i|i r l p x|i]; try (intros []; fail); [done|]. intros (-> & id & t & s & Hi & Hs & V & Hw). split; [done|].
  split; [|done]. exists id, t. split; [done|]. unfold can_return. by rewrite Hs, V, Hw.
Qed.

(** A server that was told to stop: the closing job is still to run, or the
    sockets of all loops are closed. *)
Definition closed_at (w : tcpw) (id : nat) : Prop := ∃ s, heap w !! id = Some s ∧ isValid s = false.
Definition stopping (w : tcpw) : Prop :=
  inv [] w ∧ m_is_stop (srv w) = true ∧
  (JClose ∈ accept_jobs w ∧ (∀ it, it ∈ accepting w → it.1 ∈ m_sockets (srv w)) ∨
   m_sockets (srv w) = [] ∧ ∀ it, it ∈ accepting w → closed_at w it.1).

Lemma length_delete_lookup {A} (l : list A) i x : l !! i = Some x → length l = S (length (delete i l)).
Proof. intros Hi. by rewrite (Permutation_length (delete_Permutation _ _ _ Hi)). Qed.
Lemma delete_sub {A} (l : list A) i x y : l !! i = Some x → y ∈ delete i l → y ∈ l.
Proof. intros Hi Hy. rewrite (delete_Permutation _ _ _ Hi). by right. Qed.

Lemma run_stopping `{Platform} i w w' : stopping w → (i < length (accept_jobs w))%nat → exec (ERun i) w = Ret tt w' →
  stopping w' ∧ work w = S (work w').
Proof.
  intros (I & Hst & HJ) A E. destruct (lookup_lt_is_Some_2 _ _ A) as [j Hj].
  destruct (run_ok i j w I Hj) as (w1 & E1 & I1 & Es & _ & Ej & Ea & Em & C & L). rewrite E in E1. injection E1 as <-.
  rewrite Hst in Es. specialize (Ea Hst). unfold stopping, work. rewrite Es, Ej, Ea, (length_delete_lookup _ _ _ Hj).
  split; [|done]. split; [done|]. split; [done|].
  assert (Hheld : ∀ it, it ∈ accepting w → held w' it.1) by (intros it Hit; apply held_wait; by rewrite Ea).
  destruct (decide (j = JClose)) as [->|Hd].
  - right. split; [done|]. intros it Hit. destruct HJ as [[_ HJ]|[Hm HJ]].
    + apply (C eq_refl); auto.
    + destruct (HJ it Hit) as (s & Hs & V). exists s. split; [|done]. rewrite (L Hst); auto.
  - rewrite Em. destruct HJ as [[HJ Hl]|[Hm HJ]]; [left|right].
    + split; [|done]. rewrite (delete_Permutation _ _ _ Hj) in HJ. apply elem_of_cons in HJ as [?|HJ]; [by destruct Hd|exact HJ].
    + split; [done|]. intros it Hit. destruct (HJ it Hit) as (s & Hs & V). exists s. split; [|done]. rewrite (L Hst); auto.
Qed.

Lemma accepted_stopping `{Platform} i r l p x w w' : stopping w → allowed_event w (EAccepted i r l p x) →
  exec (EAccepted i r l p x) w = Ret tt w' → stopping w' ∧ work w = S (work w').
Proof.
  intros (I & Hst & HJ) ((id & t & Hj & Hret) & Hfr) E.
  destruct (accepted_event_ok i id t r l p x w I Hj Hfr Hret) as (w1 & w2 & _ & E1 & I1 & Es & _ & Ej & Ea & _ & L).
  rewrite E in E1. injection E1 as <-. specialize (Ea Hst). unfold stopping, work.
  rewrite Es, Ej, Ea, (length_delete_lookup _ _ _ Hj). split; [|lia]. split; [done|]. split; [done|].
  destruct HJ as [[HJ Hl]|[Hm HJ]]; [left|right]; (split; [done|]); intros it Hit.
  - apply Hl. by eapply delete_sub.
  - assert (Hr : r = None).
    { destruct (HJ (id, t)) as (s & Hs & V); [by eapply list_elem_of_lookup_2|]. unfold can_return in Hret.
      cbn [fst] in Hs. rewrite Hs, V in Hret. apply andb_true_iff in Hret as [_ Hr]. by apply bool_decide_eq_true in Hr. }
    destruct (HJ it) as (s & Hs & V); [by eapply delete_sub|]. exists s. split; [|done].
    rewrite L; [done|done|done|]. apply held_wait. by rewrite Ea.
Qed.

Lemma handled_stopping `{Platform} i w w' : stopping w → allowed_event w (EHandled i) → exec (EHandled i) w = Ret tt w' →
  stopping w' ∧ work w = work w'.
Proof.
  intros (I & Hst & HJ) A E. destruct (lookup_lt_is_Some_2 _ _ A) as [c Hc].
  destruct (handled_ok i c w I Hc) as (w1' & E' & I1 & Es & Ej & Ea & L). rewrite E in E'. injection E' as <-.
  unfold stopping, work. rewrite Es, Ej, Ea. split; [|done]. split; [done|]. split; [done|].
  destruct HJ as [?|[Hm HJ]]; [by left|right]. split; [done|]. intros it Hit.
  destruct (HJ it Hit) as (s & Hs & V). exists s. split; [|done]. rewrite L; [done|by apply held_wait].
Qed.

Lemma drains_stopping `{Platform} n w w' : drains n w w' → stopping w → stopping w' ∧ work w = (n + work w')%nat.
Proof.
  induction 1 as [w|n e w w1 w2 He A E _ IH|n i w w1 w2 A E _ IH]; intros S; [done| |].
  - assert (S1 : stopping w1 ∧ work w = Datatypes.S (work w1))
      by (destruct e; try done; [by eapply run_stopping|by eapply accepted_stopping]).
    destruct S1 as [S1 W1], (IH S1) as [S2 W2]. split; [done|lia].
  - destruct (handled_stopping i w w1 S A E) as [S1 W1], (IH S1) as [S2 W2]. split; [done|lia].
Qed.

Lemma stop_work w w' : inv [] w → m_is_stop (srv w) = false → (∀ it, it ∈ accepting w → it.1 ∈ m_sockets (srv w)) →
  stop w = Ret true w' → stopping w' ∧ work w' = S (work w).
Proof.
  intros I Hs Hl E. destruct (stop_ok w I) as (w1 & E1 & I1 & Es). rewrite E in E1. injection E1 as <-.
  unfold stop in E. rewrite (bind_Ret mget _ w w w eq_refl) in E. unfold isStop in E. rewrite Hs, !bind_modify in E.
  apply Ret_inj in E as [_ <-]. split.
  - split; [done|]. split; [done|]. left. split; [cbn; apply elem_of_app; right; by left|exact Hl].
  - unfold work. cbn. rewrite length_app. simpl. lia.
Qed.

(** While there is work the accept scheduler goes on by itself. *)
Lemma work_left `{Platform} w : stopping w → (0 < work w)%nat → ∃ e w', by_itself w e ∧ exec e w = Ret tt w'.
Proof.
  intros (I & Hst & HJ) Hw. assert (He : ∃ e, by_itself w e).
  { destruct (accept_jobs w) as [|j l] eqn:Ej.
    - destruct HJ as [[HJ _]|[_ HJ]]; [by apply elem_of_nil in HJ|]. unfold work in Hw. rewrite Ej in Hw.
      destruct (accepting w) as [|[id t] l] eqn:Ea; [by simpl in Hw; lia|].
      destruct (HJ (id, t)) as (s & Hs & V); [by left|]. exists (EAccepted 0 None None None (SVal 0)).
      split; [done|]. exists id, t, s. rewrite Ea. split; [done|]. split; [done|]. split; [done|].
      destruct (i_wait _ _ I (id, t)) as [_ Hi]; [rewrite Ea; by left|]. specialize (Hi s Hs). rewrite V in Hi.
      by apply bool_decide_eq_true_2.
    - exists (ERun 0). cbn. rewrite Ej. cbn. lia. }
  destruct He as (e & He). destruct (by_itself_allowed w e He) as [_ A].
  destruct (tcp_exec_ok e w I A) as (w' & E & _). by exists e, w'.
Qed.

(** C32: After stop() on a running server whose accept loops all have sockets of
    the server its accept scheduler comes to rest without any help of the
    network: the closing job closes every socket an accept loop waits with and
    cancels the wait, which then returns a failure and ends the loop. Each job
    that runs and each accept that returns, be it with a last connection or an
    error, is one less, as many steps are left as there were jobs and loops, and
    one for the closing job; and while there are any, a job or a loop whose
    socket is closed and whose wait was cancelled can go on. In the end the
    server has no sockets, and the only socket objects left are of clients that
    were accepted and not yet handled; all the others were closed. *)
Theorem tcp_server_stops `{Platform} t name o w w1 n w2 : hooked o → rtc tstep (tcp_init t name o) w →
  m_is_stop (srv w) = false → (∀ it, it ∈ accepting w → it.1 ∈ m_sockets (srv w)) →
  stop w = Ret true w1 → drains n w1 w2 →
  m_is_stop (srv w2) = true ∧ (n + work w2)%nat = S (work w) ∧
  ((0 < work w2)%nat → ∃ e w3, by_itself w2 e ∧ exec e w2 = Ret tt w3 ∧ drains (S n) w1 w3) ∧
  (work w2 = 0%nat → m_sockets (srv w2) = [] ∧ ∀ id s, heap w2 !! id = Some s → id ∈ client_jobs w2).
Proof.
  intros Ho R Hs Hl E D. destruct (stop_work w w1 (tcp_reach_inv t name o w Ho R) Hs Hl E) as [S1 W1].
  destruct (drains_stopping n w1 w2 D S1) as [S2 W2]. pose proof S2 as (I2 & Hst & HJ). split; [done|]. split; [lia|].
  split.
  - intros Hw. destruct (work_left w2 S2 Hw) as (e & w3 & He & E3). exists e, w3. split; [done|]. split; [done|].
    destruct (by_itself_allowed w2 e He). by apply (drains_one n e w1 w2).
  - unfold work. intros H0. assert (Ej : accept_jobs w2 = []) by (apply nil_length_inv; lia).
    assert (Ea : accepting w2 = []) by (apply nil_length_inv; lia).
    assert (Em : m_sockets (srv w2) = []) by (destruct HJ as [[HJ _]|[HJ _]]; [rewrite Ej in HJ; by apply elem_of_nil in HJ|done]).
    split; [done|]. intros id s Hid. destruct (i_refs _ _ I2 id) as [Rf%referenced_spec|?%elem_of_nil]; [by exists s| |done].
    unfold held in Rf. rewrite Em, Ej, Ea in Rf. cbn in Rf.
    destruct Rf as [?%elem_of_nil|[[?%elem_of_nil|?%elem_of_nil]|?]]; done.
Qed.

(** A restart that comes too early: when a running server is stopped, the
    closing job runs, and it is started again before an accept loop of the
    first run returned, that loop goes on with the socket that was closed and
    indexes the table of descriptors with -1. *)
Theorem tcp_restart_fault `{Platform} t name o w i id fd l p x : hooked o → rtc tstep (tcp_init t name o) w →
  m_is_stop (srv w) = false → accept_jobs w = [] → accepting w !! i = Some (id, fd) → id ∈ m_sockets (srv w) →
  (exec EStop;; exec (ERun 0);; exec EStart;; exec (EAccepted i None l p x)) w = Fault OutOfBounds.
Proof.
  intros Ho R Hs Hj Hi Hm. pose proof (tcp_reach_inv t name o w Ho R) as I.
  set (w1 := set_jobs (accept_jobs w ++ [JClose]) (set_srv (setStop true) w)).
  assert (E1 : stop w = Ret true w1).
  { unfold stop. rewrite (bind_Ret mget _ w w w eq_refl). unfold isStop. by rewrite Hs, !bind_modify. }
  destruct (stop_ok w I) as (w1' & E1' & I1 & _). rewrite E1 in E1'. injection E1' as <-.
  assert (X1 : exec EStop w = Ret tt w1) by (cbn [exec]; by mstep E1). mstep X1.
  assert (Hj1 : accept_jobs w1 !! 0%nat = Some JClose) by (cbn; by rewrite Hj).
  destruct (run_ok 0 JClose w1 I1 Hj1) as (w2 & E2 & I2 & Es2 & _ & Ej2 & Ea2 & Em2 & C2 & _). mstep E2.
  cbn in Es2, Ej2. rewrite Hj in Ej2. cbn in Ej2. specialize (Ea2 eq_refl). cbn in Ea2. rewrite decide_True in Em2 by done.
  assert (Hi2 : accepting w2 !! i = Some (id, fd)) by (by rewrite Ea2).
  destruct (C2 eq_refl id Hm) as (s & Hs2 & Vs).
  { right. apply list_elem_of_fmap. exists (id, fd). split; [done|by eapply list_elem_of_lookup_2]. }
  set (w3 := set_jobs (accept_jobs w2 ++ []) (set_srv (setStop false) w2)).
  assert (E3 : exec EStart w2 = Ret tt w3).
  { cbn [exec]. unfold start. assert (E : (w <- mget;; if negb (isStop (srv w)) then mreturn true else
      mmodify (set_srv (setStop false));;
      mfor (m_sockets (srv w)) (λ id, mmodify (λ w, set_jobs (accept_jobs w ++ [JAccept id]) w));; mreturn true) w2 = Ret true w3).
    { rewrite (bind_Ret mget _ w2 w2 w2 eq_refl). unfold isStop. rewrite Es2. cbn [negb]. rewrite bind_modify, Em2.
      cbn [mfor]. rewrite (bind_Ret (mreturn tt) _ _ tt _ eq_refl). unfold w3. by rewrite app_nil_r. }
    by mstep E. }
  mstep E3. cbn [exec]. rewrite (bind_Ret mget _ w3 w3 w3 eq_refl). change (accepting w3) with (accepting w2). rewrite Hi2.
  assert (Hret : can_return w3 id fd None = true).
  { unfold can_return, w3. cbn [set_jobs set_srv heap]. rewrite Hs2, Vs. cbn [orb]. apply andb_true_iff. split; [|done].
    destruct (i_wait _ _ I2 (id, fd)) as [_ Hw]; [by eapply list_elem_of_lookup_2|]. specialize (Hw s Hs2). rewrite Vs in Hw.
    by apply bool_decide_eq_true_2. }
  rewrite Hret. cbn [negb].
  rewrite (bind_Ret (accepted id None l p x) _ w3 tt w3 eq_refl), bind_modify. unfold loop_head.
  rewrite (bind_Ret mget _ _ _ _ eq_refl). cbn [w3 set_accepting set_jobs set_srv srv setStop isStop m_is_stop].
  unfold accept_begin, on_socket. unfold mbind' at 1. cbn [w3 set_accepting set_jobs set_srv heap sys]. rewrite Hs2.
  rewrite (bind_Ret mget _ _ _ _ eq_refl). unfold isValid in Vs. apply negb_false_iff, Z.eqb_eq in Vs. cbn [sock]. rewrite Vs.
  destruct (i_net _ _ I2) as ((W & _) & _ & _). unfold on_os, mbind'. cbn [os]. unfold fd_get, mbind', mget.
  rewrite (wf_size _ W). pose proof (wf_two _ W). destruct (Z.leb_spec (zlen (m_fds (sys w2))) (-1)); [lia|]. done.
Qed.

(** ** Instances *)

Definition demo_binding : binding := mkBinding (IPv4Address (IPv4_new (H := x86_64) 0 80)) 9 true None true.
Definition after (e : event) (w : tcpw) : tcpw := match exec (H := x86_64) e w with Ret _ w => w | _ => w end.
Definition demo_tcp : tcpw := tcp_init 120000 "demo" demo.
Definition demo_started : tcpw := after (ERun 0) (after EStart (after (EBind [demo_binding]) demo_tcp)).
Definition demo_client : event := EAccepted 0 (Some 11) None None (SVal 0).

Lemma demo_started_reach : rtc (tstep (H := x86_64)) demo_tcp demo_started.
Proof.
  eapply rtc_l; [exists (EBind [demo_binding])|].
  { split; [split; [right; split; [done|vm_compute; reflexivity]|done]|vm_compute; reflexivity]. }
  eapply rtc_l; [exists EStart|].
  { split; [right; split; vm_compute; reflexivity|vm_compute; reflexivity]. }
  eapply rtc_l; [exists (ERun 0)|constructor].
  split; [vm_compute; lia|vm_compute; reflexivity].
Qed.

Lemma tcp_server_safe_witness : 
  (∃ w', exec (H := x86_64) demo_client demo_started = Ret tt w') ∧
  ∃ w', accepted 0 (Some 11) None None (SVal 0) demo_started = Ret tt w' ∧ new_client 11 demo_started w'.
Proof.
  destruct (tcp_server_safe (H := x86_64) 120000 "demo" demo demo_started demo_hooked demo_started_reach) as (P & Q & _).
  split.
  - apply P. split; [exists 0%nat, (mkWait 9 1); split; vm_compute; reflexivity|]. split; [lia|vm_compute; reflexivity].
  - apply (Q 0%nat 0%nat (mkWait 9 1)); [vm_compute; reflexivity|]. split; [lia|vm_compute; reflexivity].
Defined.

(** Half-way, with the closing job done, the loop goes on by itself. *)
Lemma tcp_server_stops_witness :
  let w1 := after EStop demo_started in
  let w2 := after (ERun 0) w1 in
  let w3 := after (EAccepted 0 None None None (SVal 0)) w2 in
  (∃ e w3, by_itself w2 e ∧ exec (H := x86_64) e w2 = Ret tt w3 ∧ drains (H := x86_64) 2 w1 w3) ∧
  work w3 = 0%nat ∧ m_sockets (srv w3) = [] ∧ ∀ id s, heap w3 !! id = Some s → id ∈ client_jobs w3.
Proof.
  set (w1 := after EStop demo_started). set (w2 := after (ERun 0) w1).
  set (w3 := after (EAccepted 0 None None None (SVal 0)) w2).
  assert (D1 : drains (H := x86_64) 1 w1 w2)
    by (apply (DAccept 0 (ERun 0) w1 w2); [done|vm_compute; lia|vm_compute; reflexivity|constructor]).
  assert (D2 : drains (H := x86_64) 2 w1 w3).
  { apply (drains_one 1 (EAccepted 0 None None None (SVal 0)) w1 w2); [exact D1|done| |vm_compute; reflexivity].
    split; [exists 0%nat, (mkWait 9 1); split; vm_compute; reflexivity|done]. }
  assert (Hl : ∀ it, it ∈ accepting demo_started → it.1 ∈ m_sockets (srv demo_started))
    by (intros it ->%list_elem_of_singleton; vm_compute; left).
  assert (P := λ n w2, tcp_server_stops (H := x86_64) 120000 "demo" demo demo_started w1 n w2 demo_hooked demo_started_reach
    ltac:(vm_compute; reflexivity) Hl ltac:(vm_compute; reflexivity)).
  split; [|split; [vm_compute; reflexivity|]].
  - destruct (P 1%nat w2 D1) as (_ & _ & Q & _). apply Q. vm_compute. lia.
  - destruct (P 2%nat w3 D2) as (_ & _ & _ & Q). apply Q. vm_compute. reflexivity.
Defined.

(** A bind that fails while the server runs drops the sockets of the accept
    loops: after a stop and its closing job the loop still waits on an open
    socket, and nothing but the network can end it. *)
Definition demo_failed : binding := mkBinding (IPv4Address (IPv4_new (H := x86_64) 0 81)) 10 false None true.
Definition demo_leak : tcpw := Eval vm_compute in
  after (ERun 0) (after EStop (after (EBind [demo_failed]) demo_started)).
Theorem tcp_bind_failure_leak :
  rtc (tstep (H := x86_64)) demo_tcp demo_leak ∧ m_is_stop (srv demo_leak) = true ∧ work demo_leak = 1%nat ∧
  ∀ e, ¬ by_itself demo_leak e.
Proof.
  split.
  { etrans; [exact demo_started_reach|].
    eapply rtc_l; [exists (EBind [demo_failed])|].
    { split; [split; [right; split; [done|vm_compute; reflexivity]|done]|vm_compute; reflexivity]. }
    eapply rtc_l; [exists EStop; split; [done|vm_compute; reflexivity]|].
    eapply rtc_l; [exists (ERun 0); split; [vm_compute; lia|vm_compute; reflexivity]|constructor]. }
  split; [done|]. split; [done|].
  intros [l| | |t|i|i r l p x|i]; try (by intros ?); [simpl; lia|]. intros (_ & id & t & s & Hi & Hs & V & _).
  destruct i as [|i]; [|done]. injection Hi as <- _. injection Hs as <-. done.
Qed.

Lemma tcp_restart_fault_witness :
  (exec (H := x86_64) EStop;; exec (H := x86_64) (ERun 0);; exec (H := x86_64) EStart;;
   exec (H := x86_64) (EAccepted 0 None None None (SVal 0))) demo_started = Fault OutOfBounds.
Proof.
  apply (tcp_restart_fault (H := x86_64) 120000 "demo" demo demo_started 0 0 (mkWait 9 1)); 
    [exact demo_hooked|exact demo_started_reach|vm_compute; reflexivity..|].
  vm_compute. left.
Defined.
