(* ===== verification/Strings.v ===== *)
(** * Text functions (util/util.cpp, util/util.h)

    A std::string is a [string], a char its 8 bits; comparisons of chars are
    of signed chars. Positions are natural numbers and [char_at] reads the
    terminating zero at the end, as operator[] does. Strings are shorter than
    2^31 bytes (formatParser counts in an int). *)

From Stdlib Require Import Ascii String.
From S2P Require Import Prelude.
#[local] Open Scope Z_scope.

(** ** Characters *)

Definition code (c : ascii) : Z := Z.of_N (N_of_ascii c).
Definition schar (c : ascii) : Z := wraps 8 (code c).
Definition to_char (z : Z) : ascii := ascii_of_N (Z.to_N (wrapu 8 z)).

Definition toLower_char (ch : ascii) : ascii :=
  if (schar "A" <=? schar ch) && (schar ch <=? schar "Z") then to_char (schar ch + 32) else ch.
Definition toUpper_char (ch : ascii) : ascii :=
  if (schar "a" <=? schar ch) && (schar ch <=? schar "z") then to_char (schar ch - 32) else ch.

(** [for (auto &ch : res) ch = f(ch)] *)
Fixpoint each_char (f : ascii → ascii) (s : string) : string :=
  match s with EmptyString => EmptyString | String c s' => String (f c) (each_char f s') end.
Definition toLower (s : string) : string := each_char toLower_char s.
Definition toUpper (s : string) : string := each_char toUpper_char s.

(** std::isspace in the C locale. *)
Definition isspace (c : ascii) : bool := (code c =? 32) || ((9 <=? code c) && (code c <=? 13)).

(** ** std::string *)

Definition size (s : string) : nat := String.length s.
#[global] Arguments size : simpl never.
Definition char_at (s : string) (i : nat) : ascii := default zero (String.get i s).
(** [s.substr(pos, n)] and [s.substr(pos)] for [pos <= s.size()]. *)
Fixpoint from (pos : nat) (s : string) : string :=
  match pos, s with
  | O, _ => s
  | S pos', String _ s' => from pos' s'
  | S _, EmptyString => EmptyString
  end.
Definition substr (s : string) (pos n : nat) : string := String.substring 0 n (from pos s).
(** [s.find(d, pos)]; [None] is npos. *)
Fixpoint find_at (d s : string) (pos : nat) : option nat :=
  if String.prefix d s then Some pos
  else match s with EmptyString => None | String _ s' => find_at d s' (S pos) end.
Definition find (s d : string) (pos : nat) : option nat :=
  if decide (pos ≤ size s)%nat then find_at d (from pos s) pos else None.
(** [s < t], an order by unsigned chars. *)
Definition str_lt (s t : string) : bool :=
  match String.compare s t with Lt => true | _ => false end.
Definition one (c : ascii) : string := String c EmptyString.
Fixpoint chars (s : string) : list ascii :=
  match s with EmptyString => [] | String c s' => c :: chars s' end.

(** ** split, trim *)

Section Split.
Context {St : Type}.

(** [while ((end = s.find(delimiter, start)) != npos)] *)
Fixpoint split_loop (fuel : nat) (s delimiter : string) (tokens : list string) (start : nat) :
    M St (list string * nat) :=
  match fuel with
  | O => mfault OutOfFuel
  | S fuel =>
    match find s delimiter start with
    | None => mreturn (tokens, start)
    | Some stop => split_loop fuel s delimiter (tokens ++ [substr s start (stop - start)])
                     (stop + size delimiter)
    end
  end.
Definition split (fuel : nat) (s delimiter : string) : M St (list string) :=
  r <- split_loop fuel s delimiter [] 0;; mreturn (r.1 ++ [from r.2 s]).
End Split.

(** [while (start < end && isspace(str[start])) ++start] and
    [while (end > start && isspace(str[end - 1])) --end]; [n] is [end - start]. *)
Fixpoint trim_front (s : string) (n start : nat) : nat :=
  match n with
  | O => start
  | S n => if isspace (char_at s start) then trim_front s n (S start) else start
  end.
Fixpoint trim_back (s : string) (n start : nat) : nat :=
  match n with
  | O => start
  | S n' => if isspace (char_at s (start + n')) then trim_back s n' start else (start + n)%nat
  end.
Definition trim (s : string) : string :=
  let start := trim_front s (size s) 0 in
  let stop := trim_back s (size s - start) start in
  substr s start (stop - start).

(** ** Names *)

Definition isValidParamName (s : string) : bool :=
  forallb (λ c, bool_decide
    (c ∈ chars "abcdefghijklmnopqrstuvwxyzABCDEFGHIJKLMNOPQRSTUVWXYZ0123456789_.")) (chars s).

Definition InsensitiveStringCompare (lhs rhs : string) : bool :=
  str_lt (toLower lhs) (toLower rhs).

(** ** Decimal numbers: std::to_string and ostream << of an integer *)

Definition digit (d : Z) : ascii := ascii_of_N (Z.to_N (48 + d)).
Fixpoint digits (fuel : nat) (z : Z) (acc : string) : string :=
  match fuel with
  | O => acc
  | S fuel => let acc := String (digit (z mod 10)) acc in
              if z / 10 =? 0 then acc else digits fuel (z / 10) acc
  end.
Definition udec (z : Z) : string := digits (S (Z.to_nat (Z.log2 z))) z EmptyString.
Definition dec (z : Z) : string := if z <? 0 then String "-" (udec (- z)) else udec z.

(** ** Colours of a terminal *)

Inductive Color := CUnknown | DEFAULT | BLACK | RED | GREEN | YELLOW | BLUE | PURPLE | CYAN | WHITE.
Definition color_num (c : Color) : Z :=
  match c with
  | CUnknown => -1 | DEFAULT => 0 | BLACK => 1 | RED => 2 | GREEN => 3 | YELLOW => 4
  | BLUE => 5 | PURPLE => 6 | CYAN => 7 | WHITE => 8
  end.
Definition ESC : ascii := to_char 27.
Definition getColorStr (str : string) (color : Color) : string :=
  let color_num := color_num color in
  if color_num <? 1 then str
  else (String ESC ("[" +:+ dec (29 + color_num) +:+ "m")) +:+ str +:+ String ESC "[0m".

(** ** formatParser

    A token is the text and the type (0 text, 1 item, 2 date format); the maps
    of the code have one entry each. *)

Section FormatParser.
Context {St : Type}.

(** [while (str[i] != c && i < str.size()) { temp += str[i]; ++i; }] *)
Fixpoint until_loop (fuel : nat) (c : ascii) (str : string) (temp : string) (i : nat) :
    string * nat :=
  match fuel with
  | O => (temp, i)
  | S fuel => if negb (Ascii.eqb (char_at str i) c) && bool_decide (i < size str)%nat
              then until_loop fuel c str (temp +:+ one (char_at str i)) (S i)
              else (temp, i)
  end.

Fixpoint format_loop (fuel : nat) (str : string) (res : list (string * Z)) (i : nat) :
    M St (list (string * Z)) :=
  match fuel with
  | O => mfault OutOfFuel
  | S fuel =>
    if negb (bool_decide (i < size str)%nat) then mreturn res
    else if negb (Ascii.eqb (char_at str i) "%") then
      let '(temp, i) := until_loop (S (size str)) "%" str EmptyString i in
      let i := (i - 1)%nat in
      format_loop fuel str (res ++ [(temp, 0)]) (S i)
    else if bool_decide (i + 1 < size str)%nat && negb (Ascii.eqb (char_at str (i + 1)) "%") then
      if bool_decide (i + 2 < size str)%nat && Ascii.eqb (char_at str (i + 1)) "d"
         && Ascii.eqb (char_at str (i + 2)) "{" then
        let i := (i + 3)%nat in
        let '(temp, i) := until_loop (S (size str)) "}" str EmptyString i in
        if bool_decide (size str ≤ i)%nat
        then mthrow (runtime_error (temp +:+ ": format error") [])
        else format_loop fuel str (res ++ [(temp, 2)]) (S i)
      else
        let temp := EmptyString +:+ one (char_at str (i + 1)) in
        let i := S i in
        format_loop fuel str (res ++ [(temp, 1)]) (S i)
    else format_loop fuel str (res ++ [("%", 0)]) (S i)
  end.
Definition formatParser (str : string) : M St (list (string * Z)) :=
  format_loop (S (size str)) str [] 0.
End FormatParser.

Example format_1 : formatParser (St := unit) "a%d{%H}%m%%x%" tt =
  Ret [("a", 0); ("%H", 2); ("m", 1); ("%", 0); ("x", 1); ("%", 0)] tt.
Proof. vm_compute. reflexivity. Qed.
Example split_1 : split (St := unit) 10 "a,b,,c" "," tt = Ret ["a"; "b"; ""; "c"] tt.
Proof. vm_compute. reflexivity. Qed.
Example trim_1 : trim "  a b " = "a b".
Proof. vm_compute. reflexivity. Qed.
Example color_1 : toUpper (toLower "aBC-9") = "ABC-9" ∧ dec (-1200) = "-1200" ∧ dec 0 = "0".
Proof. vm_compute. auto. Qed.
