(* ===== verification/StringsSpec.v ===== *)
(** * Properties of the text functions

    Lemmas on strings, their suffixes and characters, then: case folding, the
    case-insensitive order, [split], [trim], decimal numbers, and the format
    strings of the log, whose grammar ([reads]) formatParser follows. *)

From Stdlib Require Import Ascii String.
From S2P Require Import Prelude Strings.
#[local] Open Scope nat_scope.

(** ** Strings *)

Lemma app_String c s t : String c s +:+ t = String c (s +:+ t).
Proof. done. Qed.
Lemma app_empty_l s : EmptyString +:+ s = s.
Proof. done. Qed.
Lemma app_empty_r s : s +:+ EmptyString = s.
Proof. induction s; [done|]. rewrite app_String. congruence. Qed.
Lemma sapp_assoc s t u : (s +:+ t) +:+ u = s +:+ t +:+ u.
Proof. induction s; [done|]. rewrite !app_String. congruence. Qed.
Lemma size_app s t : size (s +:+ t) = size s + size t.
Proof. induction s; [done|]. rewrite app_String. unfold size in *. simpl. by f_equal. Qed.
Lemma size_String c s : size (String c s) = S (size s).
Proof. done. Qed.
Lemma size_empty s : size s = 0 → s = EmptyString.
Proof. by destruct s. Qed.
Lemma chars_app s t : chars (s +:+ t) = chars s ++ chars t.
Proof. induction s; [done|]. rewrite app_String. simpl. by f_equal. Qed.
Lemma chars_inj s t : chars s = chars t → s = t.
Proof.
  revert t. induction s as [|c s IH]; intros [|d t]; simpl; try done.
  intros [= -> H]. f_equal. by apply IH.
Qed.
Lemma app_inv_suffix s t u : s +:+ u = t +:+ u → s = t.
Proof. intros H%(f_equal chars). rewrite !chars_app in H. by apply chars_inj, (app_inv_tail (chars u)). Qed.
Lemma length_chars s : length (chars s) = size s.
Proof. induction s; [done|]. rewrite size_String. simpl. by f_equal. Qed.
Lemma one_app c s : one c +:+ s = String c s.
Proof. done. Qed.

(** A suffix determines the characters from its position on. *)
Lemma from_S i s c t : from i s = String c t → from (S i) s = t.
Proof.
  revert s. induction i as [|i IH]; intros s; simpl; [by intros ->|].
  destruct s; [done|]. apply IH.
Qed.
Lemma from_add i s t u : from i s = t +:+ u → from (i + size t) s = u.
Proof.
  revert i. induction t as [|c t IH]; intros i H.
  - by rewrite Nat.add_0_r.
  - rewrite size_String, Nat.add_succ_r, <-Nat.add_succ_l. apply IH.
    by apply (from_S _ _ c).
Qed.
Lemma from_0 s : from 0 s = s.
Proof. by destruct s. Qed.
Lemma from_size i s t : from i s = t → t ≠ EmptyString → i + size t = size s.
Proof.
  revert s. induction i as [|i IH]; intros s H Ht; [by subst|].
  destruct s as [|c s]; simpl in H; [by subst|]. rewrite size_String. simpl. f_equal. by apply IH.
Qed.
Lemma from_nonempty i s c t : from i s = String c t → i < size s ∧ size s = i + S (size t).
Proof. intros H. apply from_size in H; [|done]. rewrite size_String in H. lia. Qed.
Lemma from_empty i s : size s ≤ i → from i s = EmptyString.
Proof.
  revert s. induction i as [|i IH]; intros [|c s] H; simpl; try done.
  - rewrite size_String in H. lia.
  - apply IH. rewrite size_String in H. lia.
Qed.
Lemma from_empty_inv i s : from i s = EmptyString → size s ≤ i.
Proof.
  revert s. induction i as [|i IH]; intros [|c s] H; try done; [apply le_0_n|].
  rewrite size_String. apply le_n_S, IH, H.
Qed.
Lemma char_at_from i s : char_at s i = match from i s with String c _ => c | _ => zero end.
Proof.
  revert s. induction i as [|i IH]; intros [|c s]; try done. apply (IH s).
Qed.
Lemma from_cases i s :
  (size s ≤ i ∧ from i s = EmptyString) ∨
  (i < size s ∧ ∃ t, from i s = String (char_at s i) t).
Proof.
  rewrite char_at_from. destruct (from i s) as [|c t] eqn:E.
  - left. split; [by apply from_empty_inv|done].
  - right. split; [by apply from_nonempty in E as []|by eexists].
Qed.

Lemma substring_all t u : String.substring 0 (size t) (t +:+ u) = t.
Proof.
  induction t as [|c t IH].
  - by destruct u.
  - rewrite app_String, size_String. simpl. by rewrite IH.
Qed.
Lemma substr_app s i t u : from i s = t +:+ u → substr s i (size t) = t.
Proof. unfold substr. intros ->. apply substring_all. Qed.

(** The longest part of a string without [c]. *)
Lemma span c s : ∃ t u, s = t +:+ u ∧ (c ∉ chars t) ∧
  (u = EmptyString ∨ ∃ v, u = String c v).
Proof.
  induction s as [|d s (t & u & -> & Hc & Hu)].
  - exists EmptyString, EmptyString. simpl. rewrite elem_of_nil. naive_solver.
  - destruct (decide (d = c)) as [->|Hn].
    + exists EmptyString, (String c (t +:+ u)). simpl. rewrite elem_of_nil. naive_solver.
    + exists (String d t), u. simpl. rewrite elem_of_cons. naive_solver.
Qed.

(** ** Case *)

Lemma each_char_app f s t : each_char f (s +:+ t) = each_char f s +:+ each_char f t.
Proof. induction s; [done|]. rewrite !app_String. simpl. rewrite app_String. congruence. Qed.
Lemma each_char_compose f g h s : (∀ c, f (g c) = h c) →
  each_char f (each_char g s) = each_char h s.
Proof. intros H. induction s; simpl; [done|]. by rewrite H, IHs. Qed.
Lemma toLower_toLower_char c : toLower_char (toLower_char c) = toLower_char c.
Proof. destruct c as [[] [] [] [] [] [] [] []]; vm_compute; reflexivity. Qed.
Lemma toLower_toUpper_char c : toLower_char (toUpper_char c) = toLower_char c.
Proof. destruct c as [[] [] [] [] [] [] [] []]; vm_compute; reflexivity. Qed.
Lemma toUpper_toLower_char c : toUpper_char (toLower_char c) = toUpper_char c.
Proof. destruct c as [[] [] [] [] [] [] [] []]; vm_compute; reflexivity. Qed.

Lemma toLower_idem s : toLower (toLower s) = toLower s.
Proof. apply each_char_compose, toLower_toLower_char. Qed.
Lemma toLower_toUpper s : toLower (toUpper s) = toLower s.
Proof. apply each_char_compose, toLower_toUpper_char. Qed.
Lemma toUpper_toLower s : toUpper (toLower s) = toUpper s.
Proof. apply each_char_compose, toUpper_toLower_char. Qed.
Lemma toLower_app s t : toLower (s +:+ t) = toLower s +:+ toLower t.
Proof. apply each_char_app. Qed.
Lemma toLower_empty s : toLower s = EmptyString → s = EmptyString.
Proof. by destruct s. Qed.

(** Lower case decides the equality of the upper cases, too. *)
Lemma toUpper_eq s t : toUpper s = toUpper t ↔ toLower s = toLower t.
Proof.
  split; intros H.
  - by rewrite <-(toLower_toUpper s), H, toLower_toUpper.
  - by rewrite <-(toUpper_toLower s), H, toUpper_toLower.
Qed.

(** The order of std::string. *)
Lemma str_lt_le s t : str_lt s t = true ↔ ¬ String.le t s.
Proof.
  unfold String.le, str_lt, String.leb. rewrite (String.compare_antisym t s).
  destruct (String.compare s t); simpl; split; intros H; try done; intros [].
Qed.
Lemma str_lt_irrefl s : str_lt s s = false.
Proof. apply not_true_is_false. rewrite str_lt_le. intros H. by apply H. Qed.
Lemma le_total s t : String.le s t ∨ String.le t s.
Proof.
  destruct (String.leb_total s t) as [H|H]; [left|right]; unfold String.le; by rewrite H.
Qed.
Lemma str_lt_trans s t u : str_lt s t = true → str_lt t u = true → str_lt s u = true.
Proof.
  rewrite !str_lt_le. intros H1 H2 H. apply H1. destruct (le_total t u) as [Ht|Ht]; [|done].
  by trans u.
Qed.
Lemma str_lt_eq s t : str_lt s t = false → str_lt t s = false → s = t.
Proof.
  rewrite <-!not_true_iff_false, !str_lt_le. intros H1%dec_stable H2%dec_stable.
  by apply (anti_symm String.le).
Qed.

(** The order that ignores case is strict and weak: a set or map that uses it
    identifies exactly the texts that differ in case only. *)
Theorem insensitive_order :
  (∀ s, InsensitiveStringCompare s s = false) ∧
  (∀ s t u, InsensitiveStringCompare s t = true → InsensitiveStringCompare t u = true →
    InsensitiveStringCompare s u = true) ∧
  (∀ s t, (InsensitiveStringCompare s t = false ∧ InsensitiveStringCompare t s = false) ↔
    toUpper s = toUpper t).
Proof.
  unfold InsensitiveStringCompare. split_and!.
  - intros. apply str_lt_irrefl.
  - intros s t u. apply str_lt_trans.
  - intros s t. rewrite toUpper_eq. split; [intros []; by apply str_lt_eq|].
    intros ->. by rewrite str_lt_irrefl.
Qed.

(** ** split *)

Definition occurs (d s : string) : Prop := ∃ t u, s = t +:+ d +:+ u.

Lemma prefix_app d s : String.prefix d s = true ↔ ∃ u, s = d +:+ u.
Proof.
  revert s. induction d as [|c d IH]; intros s.
  - simpl. rewrite (match s with EmptyString => eq_refl | _ => eq_refl end : String.prefix "" s = true).
    split; [by exists s|done].
  - destruct s as [|e s]; simpl; [split; [done|by intros (u & [=])]|].
    destruct (ascii_dec c e) as [->|Hn].
    + rewrite IH. split; intros [u H]; exists u; [by rewrite H|].
      rewrite app_String in H. by injection H.
    + split; [done|]. intros [u H]. rewrite app_String in H. by injection H.
Qed.

(** [find] gives the first occurrence. *)
Lemma find_at_Some d s pos q : find_at d s pos = Some q →
  ∃ t u, s = t +:+ d +:+ u ∧ q = pos + size t ∧ ∀ t' u', s = t' +:+ d +:+ u' → size t ≤ size t'.
Proof.
  revert pos. induction s as [|c s IH]; intros pos; cbn [find_at];
    destruct (String.prefix d _) eqn:E.
  1, 3: intros [= <-]; apply prefix_app in E as [u Hu]; exists EmptyString, u;
    split_and!; [done|unfold size; simpl; lia|intros; unfold size; simpl; lia].
  - done.
  - intros (t & u & -> & -> & Hmin)%IH. exists (String c t), u. split_and!; [done|rewrite size_String; lia|].
    intros [|e t'] u' H.
    + enough (String.prefix d (String c (t +:+ d +:+ u)) = true) by congruence.
      apply prefix_app. by exists u'.
    + rewrite app_String in H. injection H as -> H. rewrite !size_String. by apply le_n_S, (Hmin _ u').
Qed.
Lemma find_at_None d s pos : find_at d s pos = None → ¬ occurs d s.
Proof.
  revert pos. induction s as [|c s IH]; intros pos; cbn [find_at];
    destruct (String.prefix d _) eqn:E; try done; intros H (t & u & Ht);
    (enough (String.prefix d (t +:+ d +:+ u) = true ∨ t ≠ EmptyString) as [Hp|Hn];
      [rewrite <-Ht in Hp; congruence| |
       destruct t; [left; apply prefix_app; by exists u|by right]]).
  - by destruct t.
  - destruct t as [|e t]; [done|]. rewrite app_String in Ht. injection Ht as -> Ht.
    apply (IH _ H). by exists t, u.
Qed.

Lemma concat_cons d s l : l ≠ [] → String.concat d (s :: l) = s +:+ d +:+ String.concat d l.
Proof. by destruct l. Qed.

Section Split.
Context {St : Type} (w : St) (s d : string).

Lemma split_loop_spec fuel start tokens : d ≠ EmptyString →
  (start ≤ size s)%nat → (size s - start < fuel)%nat →
  ∃ more stop, split_loop fuel s d tokens start w = Ret (tokens ++ more, stop) w ∧
    String.concat d (more ++ [from stop s]) = from start s ∧
    Forall (λ t, ¬ occurs d t) (more ++ [from stop s]).
Proof.
  intros Hd. revert start tokens. induction fuel as [|fuel IH]; intros start tokens Hs Hf; [lia|].
  cbn [split_loop]. unfold find. rewrite decide_True by done.
  destruct (find_at d (from start s) start) as [q|] eqn:E.
  - apply find_at_Some in E as (t & u & Hu & -> & Hmin).
    replace (start + size t - start) with (size t) by lia.
    rewrite (substr_app _ _ _ (d +:+ u)) by done.
    assert (Hu' : from (start + size t + size d) s = u).
    { by apply (from_add _ _ d), from_add. }
    assert (0 < size d) by (destruct d; [done|unfold size; simpl; lia]).
    assert (start + size t + size d ≤ size s).
    { rewrite <-(from_size start s (t +:+ d +:+ u)); [rewrite !size_app; lia|done|].
      intros Hn. apply (f_equal size) in Hn. rewrite !size_app in Hn. unfold size in Hn at 4. simpl in Hn. lia. }
    destruct (IH (start + size t + size d) (tokens ++ [t])) as (more & stop & -> & Hj & Hn); [lia|lia|].
    exists (t :: more), stop. split_and!; [by rewrite <-app_assoc| |].
    + simpl app. rewrite concat_cons by (by destruct more). by rewrite Hj, Hu', Hu.
    + constructor; [|done]. intros (a & b & Hab). specialize (Hmin a (b +:+ d +:+ u)).
      rewrite Hu, Hab, !sapp_assoc in Hmin. specialize (Hmin eq_refl).
      apply (f_equal size) in Hab. rewrite !size_app in Hab, Hmin. lia.
  - exists [], start. rewrite app_nil_r. split_and!; [done|done|].
    repeat constructor. by apply find_at_None in E.
Qed.

Lemma split_loop_empty fuel start tokens : (start ≤ size s)%nat →
  split_loop fuel s EmptyString tokens start w = Fault OutOfFuel.
Proof.
  revert start tokens. induction fuel as [|fuel IH]; intros start tokens Hs; [done|].
  cbn [split_loop]. unfold find. rewrite decide_True by done.
  replace (find_at EmptyString (from start s) start) with (Some start).
  2:{ by destruct (from start s). }
  apply IH. unfold size at 1. simpl. lia.
Qed.
End Split.

(** [split] cuts a text at every occurrence of the delimiter: the tokens hold
    none and joined with it are the text. With an empty delimiter it does not
    end. *)
Theorem split_join {St} (w : St) s d fuel : (size s < fuel)%nat →
  (d ≠ EmptyString → ∃ tokens, split fuel s d w = Ret tokens w ∧ String.concat d tokens = s ∧
     Forall (λ t, ¬ occurs d t) tokens) ∧
  ∀ n, split n s EmptyString w = Fault OutOfFuel.
Proof.
  intros Hf. split.
  - intros Hd. destruct (split_loop_spec w s d fuel 0 [] Hd) as (more & stop & E & Hj & Hn); [lia|lia|].
    exists (more ++ [from stop s]). split_and!; [|by rewrite Hj, from_0|done].
    unfold split. by mstep E.
  - intros n. unfold split. by rewrite (bind_Fault _ _ _ _ (split_loop_empty w s n 0 [] (Nat.le_0_l _))).
Qed.
Lemma split_join_witness : ∃ tokens, split 8 "a, b,c" ", " tt = Ret tokens tt ∧
  String.concat ", " tokens = "a, b,c"%string ∧ Forall (λ t, ¬ occurs ", " t) tokens.
Proof. apply (split_join tt "a, b,c" ", " 8); [vm_compute; lia|done]. Defined.

(** ** The grammar of format strings

    [reads s r]: [s] is a sequence of texts without a percent sign, items
    [%c], date formats [%d{...}] and percent signs at the end or before another
    one, whose tokens are [inr l]; or the braces of a [%d{] are never closed,
    and [inl f] is what follows them. *)

Definition tokens := (string + list (string * Z))%type.
Definition before (tok : string * Z) (r : tokens) : tokens :=
  match r with inl f => inl f | inr l => inr (tok :: l) end.
Definition starts (c : ascii) (s : string) : Prop := ∃ t, s = String c t.

Inductive reads : string → tokens → Prop :=
| reads_nil : reads EmptyString (inr [])
| reads_text t s r : t ≠ EmptyString → ("%"%char ∉ chars t) → s = EmptyString ∨ starts "%" s →
    reads s r → reads (t +:+ s) (before (t, 0%Z) r)
| reads_percent s r : s = EmptyString ∨ starts "%" s → reads s r →
    reads (String "%" s) (before ("%", 0%Z) r)
| reads_item c s r : c ≠ "%"%char → ¬ (c = "d"%char ∧ starts "{" s) → reads s r →
    reads (String "%" (String c s)) (before (one c, 1%Z) r)
| reads_date f s r : ("}"%char ∉ chars f) → reads s r →
    reads ("%d{" +:+ f +:+ String "}" s) (before (f, 2%Z) r)
| reads_unclosed f : ("}"%char ∉ chars f) → reads ("%d{" +:+ f) (inl f).

(** The text a token was read from. *)
Definition source (tok : string * Z) : string :=
  match tok.2 with
  | 0%Z => tok.1
  | 1%Z => String "%" tok.1
  | _ => "%d{" +:+ tok.1 +:+ "}"
  end.
Definition sources (r : tokens) : string :=
  match r with
  | inl _ => EmptyString
  | inr l => foldr (λ tok s, source tok +:+ s) EmptyString l
  end.

Lemma sources_before tok r s l : before tok r = inr l → (∀ l', r = inr l' → sources (inr l') = s) →
  sources (inr l) = source tok +:+ s.
Proof. destruct r as [|l']; [done|]. intros [= <-] H. by rewrite <-(H _ eq_refl). Qed.
Lemma reads_lossless s r : reads s r → ∀ l, r = inr l → sources (inr l) = s.
Proof.
  induction 1 as [|t s r _ _ _ _ IH|s r _ _ IH|c s r _ _ _ IH|f s r _ _ IH|f _]; intros l Hl.
  1: by injection Hl as <-.
  5: done.
  all: rewrite (sources_before _ _ _ _ Hl IH); try done.
  unfold source. cbn [fst snd]. by rewrite !sapp_assoc.
Qed.

(** Every text reads in some way. *)
Lemma reads_total s : ∃ r, reads s r.
Proof.
  induction s as [s IH] using (induction_ltof1 _ size). unfold ltof in IH.
  assert (Hrec : ∀ t, size t < size s → ∃ r, reads t r) by apply IH. clear IH.
  destruct s as [|c s]; [eexists; constructor|]. rewrite size_String in Hrec.
  destruct (decide (c = "%"%char)) as [->|Hc].
  - destruct s as [|c s]; [eexists; eapply (reads_percent EmptyString); [by left|constructor]|].
    rewrite size_String in Hrec.
    destruct (decide (c = "%"%char)) as [->|Hp].
    { destruct (Hrec (String "%" s)) as [r Hr]; [rewrite size_String; lia|].
      eexists. eapply reads_percent; [right; by eexists|done]. }
    destruct (decide (c = "d"%char ∧ char_at s 0 = "{"%char ∧ s ≠ EmptyString)) as [(-> & Hb & Hs)|Hd].
    + destruct s as [|b s]; [done|]. unfold char_at in Hb. simpl in Hb. subst b.
      destruct (span "}" s) as (f & u & -> & Hf & [->|[v ->]]).
      { rewrite app_empty_r. eexists. by apply reads_unclosed. }
      destruct (Hrec v) as [r Hr]; [rewrite size_String, size_app, size_String; lia|].
      eexists. by apply reads_date.
    + destruct (Hrec s) as [r Hr]; [lia|]. eexists. apply reads_item; [done| |done].
      intros [-> [t ->]]. by apply Hd.
  - destruct (span "%" (String c s)) as (t & u & E & Ht & Hu).
    assert (t ≠ EmptyString) by (intros ->; rewrite app_empty_l in E; destruct Hu as [->|[v ->]]; by simplify_eq).
    destruct (Hrec u) as [r Hr].
    { apply (f_equal size) in E. rewrite size_String, size_app in E. destruct t; [done|].
      rewrite size_String in E. lia. }
    rewrite E. eexists. by apply reads_text.
Qed.

(** ** formatParser follows the grammar *)

Section Loop.
Context {St : Type} (w : St) (str : string).

Lemma until_loop_spec fuel c temp i t u : from i str = t +:+ u → (c ∉ chars t) →
  u = EmptyString ∨ starts c u → (size t < fuel)%nat →
  until_loop fuel c str temp i = (temp +:+ t, i + size t).
Proof.
  revert temp i t. induction fuel as [|fuel IH]; intros temp i t E Hc Hu Hf; [lia|].
  cbn [until_loop]. rewrite char_at_from, E. destruct t as [|e t].
  - rewrite app_empty_l in *. unfold size at 2. simpl. rewrite app_empty_r, Nat.add_0_r.
    destruct Hu as [->|[v ->]].
    + rewrite bool_decide_false, andb_false_r; [done|]. apply from_empty_inv in E. lia.
    + by rewrite Ascii.eqb_refl.
  - rewrite app_String in *. apply not_elem_of_cons in Hc as [Hc1 Hc2].
    rewrite (proj2 (Ascii.eqb_neq _ _)) by done.
    apply from_nonempty in E as Hi. rewrite bool_decide_true by (by destruct Hi). simpl.
    rewrite (IH _ _ t); [|by apply (from_S _ _ e)|done|done|rewrite size_String in Hf; lia].
    rewrite sapp_assoc, one_app, size_String. f_equal. lia.
Qed.

(** The end of a run of [format_loop] that is to add the tokens [r]. *)
Definition finished (res : list (string * Z)) (r : tokens) : outcome St (list (string * Z)) :=
  match r with
  | inl f => Throw (runtime_error (f +:+ ": format error") []) w
  | inr l => Ret (res ++ l) w
  end.
Lemma finished_before res tok r : finished (res ++ [tok]) r = finished res (before tok r).
Proof. destruct r; simpl; [done|]. by rewrite <-app_assoc. Qed.

Lemma size_suffix i s : from i str = s → s ≠ EmptyString → size s ≤ size str.
Proof. intros H Hn. rewrite <-(from_size _ _ _ H Hn). lia. Qed.

(** The braces of a [%d{] at [i]. *)
Lemma date_step i f u fuel res : from i str = "%d{" +:+ f +:+ u → ("}"%char ∉ chars f) →
  u = EmptyString ∨ starts "}" u →
  format_loop (S fuel) str res i w =
  (if bool_decide (size str ≤ i + 3 + size f)
   then mthrow (runtime_error (f +:+ ": format error") [])
   else format_loop fuel str (res ++ [(f, 2%Z)]) (S (i + 3 + size f))) w.
Proof.
  intros E Hf Hu. pose proof (size_suffix _ _ E ltac:(done)) as Hsz.
  pose proof (from_size _ _ _ E ltac:(done)) as Hi. rewrite size_app in Hsz, Hi.
  change (size "%d{") with 3 in Hsz, Hi. rewrite size_app in Hsz, Hi.
  change (from i str = String "%" (String "d" (String "{" (f +:+ u)))) in E.
  pose proof (from_S _ _ _ _ E) as E1. pose proof (from_S _ _ _ _ E1) as E2.
  pose proof (from_S _ _ _ _ E2) as E3.
  replace (i + 3) with (S (S (S i))) by lia. cbn [format_loop].
  replace (i + 3) with (S (S (S i))) by lia. replace (i + 2) with (S (S i)) by lia.
  replace (i + 1) with (S i) by lia.
  rewrite !char_at_from, E, E1, E2, (bool_decide_true (i < _)),
    (bool_decide_true (S i < _)), (bool_decide_true (S (S i) < _)) by lia.
  rewrite !Ascii.eqb_refl. cbn [negb andb Ascii.eqb Bool.eqb].
  by rewrite (until_loop_spec _ _ _ _ f u E3 Hf Hu) by lia.
Qed.

Lemma format_loop_spec s r : reads s r → ∀ fuel res i, from i str = s → (size s < fuel)%nat →
  format_loop fuel str res i w = finished res r.
Proof.
  induction 1 as [|t s r Ht Hp Hs _ IH|s r Hs _ IH|c s r Hc Hd _ IH|f s r Hf _ IH|f Hf];
    intros fuel res i E Hfuel; (destruct fuel as [|fuel]; [lia|]).
  1-4: cbn [format_loop].
  - rewrite bool_decide_false; [|apply from_empty_inv in E; lia]. simpl. by rewrite app_nil_r.
  - assert (Hn : t +:+ s ≠ EmptyString) by (by destruct t).
    pose proof (size_suffix _ _ E Hn) as Hsz. rewrite size_app in Hsz, Hfuel.
    rewrite (until_loop_spec _ _ _ _ t s) by (done || lia).
    destruct t as [|e t]; [done|]. rewrite char_at_from, E, app_String.
    rewrite bool_decide_true by (by apply from_nonempty in E as []).
    simpl in Hp. rewrite elem_of_cons in Hp. rewrite (proj2 (Ascii.eqb_neq _ _)) by naive_solver. simpl negb. cbv iota beta.
    rewrite app_empty_l, <-finished_before. rewrite size_String in *. apply IH; [|lia].
    replace (S (i + S (size t) - 1)) with (i + size (String e t)) by (rewrite size_String; lia).
    by apply from_add.
  - rewrite char_at_from, E, bool_decide_true by (by apply from_nonempty in E as []). simpl.
    rewrite <-finished_before. replace (bool_decide _ && _) with false.
    { apply IH; [by apply (from_S _ _ "%")|rewrite size_String in Hfuel; lia]. }
    apply from_S in E. rewrite Nat.add_1_r, char_at_from, E.
    destruct Hs as [->|[t ->]]; [|by rewrite andb_false_r].
    apply from_empty_inv in E. by rewrite bool_decide_false by lia.
  - pose proof (from_S _ _ _ _ E) as E1. pose proof (from_S _ _ _ _ E1) as E2.
    assert (Hlt : i + 1 < size str) by (rewrite Nat.add_1_r; by apply from_nonempty in E1 as []).
    rewrite char_at_from, E, bool_decide_true by lia. simpl.
    rewrite bool_decide_true by done. rewrite Nat.add_1_r, char_at_from, E1.
    rewrite (proj2 (Ascii.eqb_neq c _)) by done. simpl.
    replace (_ && _ && _) with false.
    { rewrite <-finished_before. apply IH; [done|rewrite !size_String in Hfuel; lia]. }
    symmetry. destruct (Ascii.eqb_spec c "d"); [|by rewrite andb_false_r].
    replace (i + 2) with (S (S i)) by lia. rewrite char_at_from, E2.
    destruct s as [|b s]; [by apply andb_false_r|].
    rewrite (proj2 (Ascii.eqb_neq b _)); [by apply andb_false_r|]. intros ->. apply Hd. split; [done|by eexists].
  - rewrite (date_step i f (String "}" s)) by (done || right; by eexists).
    pose proof (from_add _ _ ("%d{" +:+ f) (String "}" s) ltac:(by rewrite E, sapp_assoc)) as E3.
    rewrite size_app in E3. change (size "%d{") with 3 in E3. rewrite Nat.add_assoc in E3.
    rewrite bool_decide_false by (apply from_nonempty in E3; lia). rewrite <-finished_before.
    apply IH; [by apply (from_S _ _ "}")|].
    rewrite !size_app, (size_String "}") in Hfuel. lia.
  - rewrite (date_step i f EmptyString) by (done || by left || by rewrite app_empty_r).
    rewrite bool_decide_true; [done|].
    apply from_size in E; [|done]. rewrite size_app in E. change (size "%d{") with 3 in E. lia.
Qed.
End Loop.

Lemma formatParser_reads {St} (w : St) s r : reads s r → formatParser s w = finished w [] r.
Proof. intros H. apply (format_loop_spec w s s r H); [apply from_0|lia]. Qed.

Lemma formatParser_Ret {St} (w : St) s l : formatParser s w = Ret l w → reads s (inr l).
Proof.
  destruct (reads_total s) as [r Hr]. rewrite (formatParser_reads w s r Hr).
  intros H. by destruct r; simplify_eq/=.
Qed.

(** C30: formatParser reads exactly the texts of the grammar, in one way each; the
    tokens put together are the text; it throws exactly for a [%d{] whose brace
    is not closed, and never runs out of its loop bounds. *)
Theorem format_parser_grammar {St} (w : St) s :
  (∀ l, formatParser s w = Ret l w ↔ reads s (inr l)) ∧
  (∀ f, formatParser s w = Throw (runtime_error (f +:+ ": format error") []) w ↔ reads s (inl f)) ∧
  (exists! r, reads s r) ∧
  ∀ l, formatParser s w = Ret l w → sources (inr l) = s.
Proof.
  assert (Hdet : ∀ r r', reads s r → reads s r' → r = r').
  { intros r r' H%(formatParser_reads w) H'%(formatParser_reads w). rewrite H in H'.
    destruct r as [f|l], r' as [f'|l']; simplify_eq/=; try done. f_equal.
    by apply app_inv_suffix in H'. }
  destruct (reads_total s) as [r Hr]. pose proof (formatParser_reads w s r Hr) as E.
  assert (Hl : ∀ l, formatParser s w = Ret l w ↔ reads s (inr l)).
  { intros l. split; [apply formatParser_Ret|]. intros H. by rewrite (formatParser_reads w s _ H). }
  split_and!; [done| | |].
  - intros f. split; intros H; [|by rewrite (formatParser_reads w s _ H)].
    rewrite H in E. destruct r as [f'|]; simplify_eq/=. by apply app_inv_suffix in E as ->.
  - exists r. split; [done|]. intros r' Hr'. by apply Hdet.
  - intros l H%Hl. by apply (reads_lossless _ _ H).
Qed.
