(* ===== verification/ByteArrayText.v ===== *)
(** * A ByteArray in hexadecimal, and its end (util/serializer.cpp)

    toStringHex, which prints what toString gives, thirty-two bytes to a line,
    and the destructor, which walks the chain. *)

From Stdlib Require Import Ascii String.
From S2P Require Import Prelude Codec ByteArray Strings.
#[local] Open Scope Z_scope.

(** ** toStringHex *)

(** [<< std::setw(2) << std::setfill('0') << std::hex << x] for an x of at
    most two digits. *)
Definition hex_digit (d : Z) : ascii := ascii_of_N (Z.to_N (if d <? 10 then 48 + d else 87 + d)).
Definition hex (x : Z) : string :=
  if x <? 16 then one (hex_digit x) else one (hex_digit (x / 16)) +:+ one (hex_digit (x mod 16)).
Fixpoint fill (c : ascii) (n : nat) : string := match n with O => "" | S n => String c (fill c n) end.
Definition setw (w : nat) (c : ascii) (s : string) : string := fill c (w - String.length s) +:+ s.

Definition line_end : string := one (ascii_of_nat 10).
Fixpoint hex_loop (cnt : Z) (str : list byte) : string :=
  match str with
  | [] => ""
  | b :: str' =>
      (if (0 <? cnt) && (cnt mod 32 =? 0) then line_end else "") +:+
      setw 2 "0" (hex (byte.unsigned b)) +:+ " " +:+ hex_loop (cnt + 1) str'
  end.
Definition toStringHex `{Platform} : M ByteArray string :=
  str <- toString;; mreturn (hex_loop 0 str).

(** The reading that goes with it: digits in twos, blanks and ends of lines
    between them. *)
Definition hex_value (c : ascii) : option Z :=
  let z := Z.of_N (N_of_ascii c) in
  if (48 <=? z) && (z <=? 57) then Some (z - 48)
  else if (97 <=? z) && (z <=? 102) then Some (z - 87) else None.
Fixpoint unhex (high : option Z) (s : string) : option (list byte) :=
  match s with
  | EmptyString => match high with None => Some [] | Some _ => None end
  | String c s' =>
      match high, hex_value c with
      | None, Some h => unhex (Some h) s'
      | Some h, Some l => bs ← unhex None s'; Some (byte.of_Z (16 * h + l) :: bs)
      | None, None => if bool_decide (c = " "%char ∨ c = ascii_of_nat 10) then unhex None s' else None
      | Some _, None => None
      end
  end.

Definition all_bytes : list byte := byte.of_Z <$> seqZ 0 256.
Lemma all_bytes_elem b : b ∈ all_bytes.
Proof.
  apply list_elem_of_fmap. exists (byte.unsigned b). split; [by rewrite byte.of_Z_unsigned|].
  apply elem_of_seqZ. pose proof (byte.unsigned_range b). lia.
Qed.
(** A property of single bytes that computation decides. *)
Lemma for_all_bytes (P : byte → bool) : forallb P all_bytes = true → ∀ b, P b = true.
Proof. rewrite forallb_forall. intros H b. apply H, list_elem_of_In, all_bytes_elem. Qed.

(** A byte is two digits. *)
Definition two_digits (b : byte) : bool :=
  match setw 2 "0" (hex (byte.unsigned b)) with
  | String c (String d EmptyString) =>
      match hex_value c, hex_value d with
      | Some h, Some l => byte.unsigned b =? 16 * h + l
      | _, _ => false
      end
  | _ => false
  end.
Lemma byte_two_digits b : two_digits b = true.
Proof. revert b. apply for_all_bytes. vm_compute. reflexivity. Qed.
Lemma unhex_byte b rest : unhex None (setw 2 "0" (hex (byte.unsigned b)) +:+ rest) =
  (bs ← unhex None rest; Some (b :: bs)).
Proof.
  pose proof (byte_two_digits b) as H. unfold two_digits in H.
  destruct (setw _ _ _) as [|c [|d [|]]]; try done.
  change (unhex None (String c (String d rest)) = (bs ← unhex None rest; Some (b :: bs))). cbn [unhex].
  destruct (hex_value c) as [h|]; [|done]. destruct (hex_value d) as [l|]; [|done].
  apply Z.eqb_eq in H. rewrite <-H, byte.of_Z_unsigned. done.
Qed.
Lemma unhex_loop cnt bs : unhex None (hex_loop cnt bs) = Some bs.
Proof.
  revert cnt. induction bs as [|b bs IH]; intros cnt; [done|]. cbn [hex_loop].
  assert (E : unhex None (setw 2 "0" (hex (byte.unsigned b)) +:+ " " +:+ hex_loop (cnt + 1) bs) = Some (b :: bs)).
  { rewrite unhex_byte. change (unhex None (" " +:+ hex_loop (cnt + 1) bs)) with (unhex None (hex_loop (cnt + 1) bs)).
    by rewrite IH. }
  destruct ((0 <? cnt) && (cnt mod 32 =? 0)); exact E.
Qed.

(** The text of a ByteArray gives back what is left to read, and changes
    nothing. *)
Theorem hex_roundtrip `{Platform} ba : wf ba →
  ∃ s, toStringHex ba = Ret s ba ∧
    unhex None s = Some (drop (Z.to_nat (pos (abs ba))) (content (abs ba))).
Proof.
  intros W. eexists. split; [|apply (unhex_loop 0)]. unfold toStringHex.
  by rewrite (bind_Ret _ _ _ _ _ (toString_spec ba W)).
Qed.

(** ** The destructor *)

(** The loop over [tmp]: the blocks that [delete m_cur] gave back, in order. *)
Fixpoint delete_loop (fuel : nat) (nodes : list ByteArrayNode) (tmp : option nat) (deleted : list nat) :
    option (list nat) :=
  match tmp with
  | None => Some deleted
  | Some cur =>
      match fuel with
      | O => None
      | S fuel => delete_loop fuel nodes (next_of nodes cur) (deleted ++ [cur])
      end
  end.
(** [m_root] is the first block. *)
Definition ByteArray_delete : M ByteArray (list nat) := λ ba,
  match delete_loop (length (m_nodes ba)) (m_nodes ba) (if decide (m_nodes ba = []) then None else Some 0%nat) [] with
  | None => Fault OutOfFuel
  | Some deleted => Ret deleted (mkByteArray [] None (m_node_size ba) (m_total_size ba) (m_data_size ba)
                                   (m_position ba) (m_ba_endian ba))
  end.

Lemma delete_loop_run nodes k d n : (k + n)%nat = length nodes → (0 < n)%nat →
  delete_loop n nodes (Some k) d = Some (d ++ seq k n).
Proof.
  revert k d. induction n as [|n IH]; intros k d Hl Hn; [lia|]. cbn [delete_loop seq]. unfold next_of.
  destruct (Nat.ltb_spec (S k) (length nodes)) as [H|H].
  - rewrite IH by lia. by rewrite <-app_assoc.
  - assert (n = 0%nat) as -> by lia. done.
Qed.
(** The destructor gives back each block of the chain once. *)
Theorem delete_all ba : wf ba →
  ∃ ba', ByteArray_delete ba = Ret (seq 0 (length (m_nodes ba))) ba' ∧ m_nodes ba' = [].
Proof.
  intros W. pose proof (wf_nonempty ba W) as H. unfold zlen in H. unfold ByteArray_delete.
  rewrite decide_False by (intros E; rewrite E in H; simpl in H; lia).
  rewrite delete_loop_run by lia. eexists. by split.
Qed.
