(* ===== verification/Locks.v ===== *)
(** * Locks and scoped locks (thread/mutex.cpp, thread/scopedlock.h)

    A lock as the thread sees it that runs the modelled code: what it finds
    held, it holds itself, since other threads let go of theirs. Locking again
    what one holds exclusively, or exclusively what one holds shared, does not
    end ([Deadlock]). The pthread calls report no errors on initialised locks
    (a C library may answer EDEADLK to the writer of a read-write lock that
    asks for it again, which no modelled operation does). *)

From S2P Require Import Prelude.
#[local] Open Scope nat_scope.

Inductive lock := Unlocked | Shared (readers : nat) | Exclusive.
#[global] Instance lock_eq_dec : EqDecision lock.
Proof. solve_decision. Defined.

(** [Mutex::lock], [SpinLock::lock], [RWMutex::wrlock] *)
Definition wrlock : M lock unit :=
  l <- mget;; match l with Unlocked => mput Exclusive | _ => mfault Deadlock end.
(** [RWMutex::rdlock] *)
Definition rdlock : M lock unit :=
  l <- mget;;
  match l with
  | Unlocked => mput (Shared 1)
  | Shared n => mput (Shared (S n))
  | Exclusive => mfault Deadlock
  end.
(** [unlock] of all of them; what is not locked must not be unlocked. *)
Definition unlock : M lock unit :=
  l <- mget;;
  match l with
  | Exclusive => mput Unlocked
  | Shared (S (S n)) => mput (Shared (S n))
  | Shared _ => mput Unlocked
  | Unlocked => mfault AssertFailed
  end.

(** ** ScopedLock, ScopedRdLock, ScopedWrLock

    The object remembers in [m_locked] whether it locked its mutex. *)

Record ScopedLock := mkScoped { m_mutex : lock; m_locked : bool }.

Definition on_mutex (m : M lock unit) : M ScopedLock unit := λ s,
  match m (m_mutex s) with
  | Ret _ l => Ret tt (mkScoped l (m_locked s))
  | Throw e l => Throw e (mkScoped l (m_locked s))
  | Fault f => Fault f
  end.
Definition set_locked (b : bool) : M ScopedLock unit := mmodify (λ s, mkScoped (m_mutex s) b).

Section Guard.
Context (acquire : M lock unit).

Definition guard_lock : M ScopedLock unit :=
  s <- mget;; if negb (m_locked s) then (on_mutex acquire;; set_locked true) else mreturn tt.
Definition guard_unlock : M ScopedLock unit :=
  s <- mget;; if m_locked s then (on_mutex unlock;; set_locked false) else mreturn tt.

(** The constructor locks, the destructor unlocks; between them the owner of
    the guard may call [lock] and [unlock] as it likes. *)
Definition guard_new (l : lock) : outcome ScopedLock unit := guard_lock (mkScoped l false).
Definition guard_call (lock : bool) : M ScopedLock unit := if lock then guard_lock else guard_unlock.
Definition guard_life (calls : list bool) (l : lock) : outcome ScopedLock unit :=
  (guard_lock;; mfor calls guard_call;; guard_unlock) (mkScoped l false).
End Guard.

(** ** A guarded block

    [{ Lock lock(m_mutex); body }] on a lock inside a larger state: the guard
    is destroyed on each way out of the block. *)

Section Scoped.
Context {St : Type} (get : St → option lock) (set : lock → St → St).

(** A lock operation on the lock in the state; [None] is an object that is not there. *)
Definition at_lock (m : M lock unit) : M St unit := λ s,
  match get s with
  | None => Fault NullDeref
  | Some l => match m l with
              | Ret _ l' => Ret tt (set l' s)
              | Throw e l' => Throw e (set l' s)
              | Fault f => Fault f
              end
  end.

Definition finally {A} (body : M St A) (cleanup : M St unit) : M St A := λ s,
  match body s with
  | Ret a s1 => (cleanup;; mreturn a) s1
  | Throw e s1 => (cleanup;; mthrow e) s1
  | Fault f => Fault f
  end.

Definition scoped {A} (acquire : M lock unit) (body : M St A) : M St A :=
  at_lock acquire;; finally body (at_lock unlock).
End Scoped.

(** The lock of an object in a heap. *)
Section HeapLock.
Context {W X : Type} (heap : W → gmap nat X) (set_heap : gmap nat X → W → W).
Context (mutex : X → lock) (relock : lock → X → X).

Definition heap_lock {A} (acquire : M lock unit) (p : nat) (body : M W A) : M W A :=
  scoped (λ w, mutex <$> heap w !! p) (λ l w, set_heap (alter (relock l) p (heap w)) w) acquire body.
End HeapLock.

(** ** What guards promise *)

(** Whatever its owner calls, a guard that gets its lock gives it back. *)
Lemma guard_life_restores calls l :
  l = Unlocked → guard_life wrlock calls l = Ret tt (mkScoped Unlocked false).
Proof.
  intros ->. unfold guard_life.
  rewrite (bind_Ret _ _ _ tt (mkScoped Exclusive true)) by done.
  assert (H : ∀ calls s, s = mkScoped Exclusive true ∨ s = mkScoped Unlocked false →
    ∃ s', mfor calls (guard_call wrlock) s = Ret tt s' ∧
      (s' = mkScoped Exclusive true ∨ s' = mkScoped Unlocked false)).
  { clear calls. induction calls as [|b calls IH]; intros s Hs; [by eexists|].
    cbn [mfor]. destruct b, Hs as [->| ->];
      [rewrite (bind_Ret _ _ _ tt (mkScoped Exclusive true)) by done
      |rewrite (bind_Ret _ _ _ tt (mkScoped Exclusive true)) by done
      |rewrite (bind_Ret _ _ _ tt (mkScoped Unlocked false)) by done
      |rewrite (bind_Ret _ _ _ tt (mkScoped Unlocked false)) by done]; apply IH; auto. }
  destruct (H calls (mkScoped Exclusive true)) as (s' & E & Hs); [by left|].
  mstep E. by destruct Hs as [-> | ->].
Qed.

(** The state at the end of a run, changed or with a property. *)
Definition after {S A} (f : S → S) (o : outcome S A) : outcome S A :=
  match o with Ret a s => Ret a (f s) | Throw e s => Throw e (f s) | Fault x => Fault x end.
Definition ends {S A} (P : S → Prop) (o : outcome S A) : Prop :=
  match o with Ret _ s | Throw _ s => P s | Fault _ => True end.

Section ScopedLaws.
Context {St : Type} (get : St → option lock) (set : lock → St → St).

(** A guarded block whose body keeps the lock as it is; [held] is how it is
    held meanwhile. *)
Lemma scoped_run {A} acquire held (body : M St A) s :
  acquire Unlocked = Ret tt held → unlock held = Ret tt Unlocked →
  get s = Some Unlocked → ends (λ s', get s' = Some held) (body (set held s)) →
  scoped get set acquire body s = after (set Unlocked) (body (set held s)).
Proof using Type.
  intros Ha Hu Hs H. unfold scoped. rewrite (bind_Ret _ _ _ tt (set held s)).
  2:{ unfold at_lock. by rewrite Hs, Ha. }
  unfold finally. destruct (body (set held s)) as [a s'|e s'|f]; simpl in H |- *; [| |done].
  all: rewrite (bind_Ret _ _ _ tt (set Unlocked s')); [done|unfold at_lock; by rewrite H, Hu].
Qed.
Lemma scoped_held {A} (body : M St A) s l : get s = Some l → l ≠ Unlocked →
  scoped get set wrlock body s = Fault Deadlock.
Proof using Type.
  intros H1 Hl. unfold scoped. apply bind_Fault. unfold at_lock. rewrite H1. by destruct l.
Qed.
Lemma scoped_Fault {A} acquire held (body : M St A) s f :
  acquire Unlocked = Ret tt held → get s = Some Unlocked → body (set held s) = Fault f →
  scoped get set acquire body s = Fault f.
Proof using Type.
  intros Ha Hs H. unfold scoped. rewrite (bind_Ret _ _ _ tt (set held s)).
  2:{ unfold at_lock. by rewrite Hs, Ha. }
  unfold finally. by rewrite H.
Qed.
Lemma scoped_None {A} acquire (body : M St A) s : get s = None →
  scoped get set acquire body s = Fault NullDeref.
Proof using Type. intros H. apply bind_Fault. unfold at_lock. by rewrite H. Qed.
End ScopedLaws.

Lemma alter_Some {A} (f : A → A) (m : gmap nat A) p x : m !! p = Some x → alter f p m = <[p := f x]> m.
Proof. intros H. by rewrite alter_alt, H. Qed.

Section HeapLockLaws.
Context {W X : Type} (heap : W → gmap nat X) (set_heap : gmap nat X → W → W).
Context (mutex : X → lock) (relock : lock → X → X).

(** A guarded block on an unlocked object. *)
Lemma heap_lock_after {A} acquire held (body : M W A) w p x :
  acquire Unlocked = Ret tt held → unlock held = Ret tt Unlocked →
  heap w !! p = Some x → mutex x = Unlocked →
  ends (λ w', ∃ x', heap w' !! p = Some x' ∧ mutex x' = held)
    (body (set_heap (<[p := relock held x]> (heap w)) w)) →
  heap_lock heap set_heap mutex relock acquire p body w =
  after (λ w', set_heap (alter (relock Unlocked) p (heap w')) w')
    (body (set_heap (<[p := relock held x]> (heap w)) w)).
Proof using Type.
  intros Ha Hu Hx Hl Hb. unfold heap_lock.
  rewrite (scoped_run _ _ _ held); rewrite ?(alter_Some _ _ _ _ Hx); try done.
  - by rewrite Hx, <-Hl.
  - destruct (body _); simpl in *; try done; destruct Hb as (x' & -> & <-); done.
Qed.
Lemma heap_lock_run {A} acquire held (body : M W A) w p x x' a w' :
  acquire Unlocked = Ret tt held → unlock held = Ret tt Unlocked →
  heap w !! p = Some x → mutex x = Unlocked →
  body (set_heap (<[p := relock held x]> (heap w)) w) = Ret a w' →
  heap w' !! p = Some x' → mutex x' = held →
  heap_lock heap set_heap mutex relock acquire p body w =
  Ret a (set_heap (<[p := relock Unlocked x']> (heap w')) w').
Proof using Type.
  intros Ha Hu Hx Hl Hb Hx' Hl'. rewrite (heap_lock_after _ _ _ _ _ _ Ha Hu Hx Hl); rewrite Hb; simpl.
  - by rewrite (alter_Some _ _ _ _ Hx').
  - by exists x'.
Qed.
End HeapLockLaws.
