(* ===== verification/Mutexes.v ===== *)
(** * The locks of threads (thread/mutex.cpp, mutex.h, scopedlock.h)

    The classes of locks as several threads use them at once. The pthread
    object is who holds it; a pthread call gets [e], what the C library
    answers when it is not 0, and waits ([Deadlock]: there is no step yet)
    when the lock is not free. Readers do not wait for writers that wait,
    which is the default of glibc. Scoped locks are the local variables of a
    thread, the innermost first, and live no longer than their mutex. *)

From S2P Require Import Prelude Locks.
#[local] Open Scope nat_scope.

(** ** The pthread objects *)

(** The classes; those named Null do nothing. *)
Inductive mutex_class := MutexNull | Mutex | RWMutexNull | RWMutex | SpinLock.
#[global] Instance mutex_class_eq_dec : EqDecision mutex_class.
Proof. solve_decision. Defined.

(** A holder is a thread and whether it holds the lock exclusively. *)
Record mutex := mkMutex { m_class : mutex_class; holders : list (nat * bool) }.

Definition is_null (c : mutex_class) : bool := match c with MutexNull | RWMutexNull => true | _ => false end.

Definition free_for (exclusive : bool) (hs : list (nat * bool)) : bool :=
  if exclusive then bool_decide (hs = []) else forallb (λ h, negb h.2) hs.

(** [pthread_mutex_lock], [pthread_spin_lock], [pthread_rwlock_wrlock] and
    [pthread_rwlock_rdlock], called by thread [t]. *)
Definition pthread_acquire (t : nat) (exclusive : bool) (e : Z) : M mutex Z :=
  if negb (e =? 0)%Z then mreturn e else
  m <- mget;;
  if free_for exclusive (holders m) then
    mput (mkMutex (m_class m) ((t, exclusive) :: holders m));; mreturn 0%Z
  else mfault Deadlock.

Fixpoint remove_hold (t : nat) (hs : list (nat * bool)) : list (nat * bool) :=
  match hs with
  | [] => []
  | h :: hs' => if h.1 =? t then hs' else h :: remove_hold t hs'
  end.
(** [pthread_*_unlock]; for a thread that does not hold the lock it is not defined. *)
Definition pthread_unlock (t : nat) : M mutex Z :=
  m <- mget;;
  if existsb (λ h, h.1 =? t) (holders m) then
    mput (mkMutex (m_class m) (remove_hold t (holders m)));; mreturn 0%Z
  else mfault AssertFailed.

(** ** Mutex, RWMutex, SpinLock *)

(** [if (rt != 0) throw std::runtime_error(...)] *)
Definition check_rt {S} (what : string) (rt : Z) : M S unit :=
  if negb (rt =? 0)%Z then mthrow (runtime_error what [rt]) else mreturn tt.

Definition Mutex_lock (t : nat) (e : Z) : M mutex unit :=
  rt <- pthread_acquire t true e;; check_rt "pthread_mutex_lock failed, rt = " rt.
Definition Mutex_unlock (t : nat) : M mutex unit :=
  rt <- pthread_unlock t;; check_rt "pthread_mutex_unlock failed, rt = " rt.
Definition RWMutex_rdlock (t : nat) (e : Z) : M mutex unit :=
  rt <- pthread_acquire t false e;; check_rt "pthread_rwlock_rdlock failed, rt = " rt.
Definition RWMutex_wrlock (t : nat) (e : Z) : M mutex unit :=
  rt <- pthread_acquire t true e;; check_rt "pthread_rwlock_wrlock failed, rt = " rt.
Definition RWMutex_unlock (t : nat) : M mutex unit :=
  rt <- pthread_unlock t;; check_rt "pthread_rwlock_unlock failed, rt = " rt.
Definition SpinLock_lock (t : nat) (e : Z) : M mutex unit :=
  rt <- pthread_acquire t true e;; check_rt "pthread_spin_lock failed, rt = " rt.
Definition SpinLock_unlock (t : nat) : M mutex unit :=
  rt <- pthread_unlock t;; check_rt "pthread_spin_lock failed, rt = " rt.

(** ** ScopedLock, ScopedRdLock, ScopedWrLock *)

Inductive how := Scoped | ScopedRd | ScopedWr.
Definition exclusive (h : how) : bool := match h with ScopedRd => false | _ => true end.

(** The guards that each class defines: [Lock], or [RdLock] and [WrLock]. *)
Definition fits (c : mutex_class) (h : how) : bool :=
  match c, h with
  | (MutexNull | Mutex | SpinLock), Scoped => true
  | (RWMutexNull | RWMutex), (ScopedRd | ScopedWr) => true
  | _, _ => false
  end.

(** [m_mutex.lock()], [m_mutex.rdlock()], [m_mutex.wrlock()] *)
Definition acquire (h : how) (t : nat) (e : Z) : M mutex unit :=
  m <- mget;;
  match m_class m, h with
  | Mutex, Scoped => Mutex_lock t e
  | SpinLock, Scoped => SpinLock_lock t e
  | RWMutex, ScopedRd => RWMutex_rdlock t e
  | RWMutex, ScopedWr => RWMutex_wrlock t e
  | _, _ => mreturn tt
  end.
(** [m_mutex.unlock()] *)
Definition release (t : nat) : M mutex unit :=
  m <- mget;;
  match m_class m with
  | Mutex => Mutex_unlock t
  | SpinLock => SpinLock_unlock t
  | RWMutex => RWMutex_unlock t
  | MutexNull | RWMutexNull => mreturn tt
  end.

(** A scoped lock: its kind, the mutex it refers to and [m_locked]. *)
Record guard := mkGuard { g_how : how; g_mutex : nat; g_locked : bool }.
Record locking := mkLocking { mutexes : gmap nat mutex; stacks : gmap nat (list guard) }.

Definition stack (w : locking) (t : nat) : list guard := default [] (stacks w !! t).
Definition set_stack (t : nat) (gs : list guard) (w : locking) : locking :=
  mkLocking (mutexes w) (<[t := gs]> (stacks w)).

Definition at_mutex (p : nat) (m : M mutex unit) : M locking unit := λ w,
  match mutexes w !! p with
  | None => Fault Dangling
  | Some x => match m x with
              | Ret _ x' => Ret tt (mkLocking (<[p := x']> (mutexes w)) (stacks w))
              | Throw e x' => Throw e (mkLocking (<[p := x']> (mutexes w)) (stacks w))
              | Fault f => Fault f
              end
  end.

(** The [i]-th scoped lock of thread [t]. *)
Definition guard_at (t i : nat) : M locking guard := λ w,
  match stack w t !! i with Some g => Ret g w | None => Fault Dangling end.
Definition set_locked (t i : nat) (b : bool) : M locking unit :=
  g <- guard_at t i;;
  mmodify (λ w, set_stack t (<[i := mkGuard (g_how g) (g_mutex g) b]> (stack w t)) w).

(** [lock()] and [unlock()] *)
Definition scope_lock (t i : nat) (e : Z) : M locking unit :=
  g <- guard_at t i;;
  if negb (g_locked g) then at_mutex (g_mutex g) (acquire (g_how g) t e);; set_locked t i true
  else mreturn tt.
Definition scope_unlock (t i : nat) : M locking unit :=
  g <- guard_at t i;;
  if g_locked g then at_mutex (g_mutex g) (release t);; set_locked t i false
  else mreturn tt.

Definition pop (t : nat) : M locking unit := mmodify (λ w, set_stack t (tail (stack w t)) w).

(** The constructor; when it throws there is no object. *)
Definition scope_new (t : nat) (h : how) (p : nat) (e : Z) : M locking unit := λ w,
  match scope_lock t 0 e (set_stack t (mkGuard h p false :: stack w t) w) with
  | Throw x w' => (pop t;; mthrow x) w'
  | o => o
  end.
(** The destructor, of the innermost one; what it throws leaves a destructor. *)
Definition scope_delete (t : nat) : M locking unit := λ w,
  match scope_unlock t 0 w with
  | Throw _ _ => Fault Terminate
  | Ret _ w' => pop t w'
  | Fault f => Fault f
  end.

(** The constructors: [rt] is what [pthread_*_init] returns. *)
Definition Mutex_init (rt : Z) : M locking unit := check_rt "pthread_mutex_init failed, rt = " rt.
Definition RWMutex_init (rt : Z) : M locking unit := check_rt "pthread_rwlock_init failed, rt = " rt.
Definition SpinLock_init (rt : Z) : M locking unit := check_rt "pthread_spin_init failed, rt = " rt.
Definition mutex_new (p : nat) (c : mutex_class) (rt : Z) : M locking unit :=
  match c with
  | Mutex => Mutex_init rt
  | RWMutex => RWMutex_init rt
  | SpinLock => SpinLock_init rt
  | MutexNull | RWMutexNull => mreturn tt
  end;;
  mmodify (λ w, mkLocking (<[p := mkMutex c []]> (mutexes w)) (stacks w)).
(** The destructors; what is held must not be destroyed. *)
Definition mutex_delete (p : nat) : M locking unit := λ w,
  match mutexes w !! p with
  | None => Fault Dangling
  | Some m =>
      if bool_decide (holders m = []) then Ret tt (mkLocking (delete p (mutexes w)) (stacks w))
      else Fault Dangling
  end.

(** ** What threads do *)

Inductive lop :=
| LNew (p : nat) (c : mutex_class) (rt : Z)
| LDelete (p : nat)
| LScope (t : nat) (h : how) (p : nat) (e : Z)
| LLock (t i : nat) (e : Z)
| LUnlock (t i : nat)
| LLeave (t : nat).

Definition lexec (o : lop) : M locking unit :=
  match o with
  | LNew p c rt => mutex_new p c rt
  | LDelete p => mutex_delete p
  | LScope t h p e => scope_new t h p e
  | LLock t i e => scope_lock t i e
  | LUnlock t i => scope_unlock t i
  | LLeave t => scope_delete t
  end.

(** The thread that does it; objects are made and destroyed by any. *)
Definition actor (o : lop) : option nat :=
  match o with LScope t _ _ _ | LLock t _ _ | LUnlock t _ | LLeave t => Some t | _ => None end.

(** What the language lets a program do: a mutex is made in free memory and
    outlives its guards, guards are of a class that the mutex has and are
    left innermost first. *)
Definition lop_ok (w : locking) (o : lop) : Prop :=
  match o with
  | LNew p _ _ => mutexes w !! p = None
  | LDelete p => is_Some (mutexes w !! p) ∧ ∀ t g, g ∈ stack w t → g_mutex g ≠ p
  | LScope _ h p _ => ∃ m, mutexes w !! p = Some m ∧ fits (m_class m) h = true
  | LLock t i _ | LUnlock t i => is_Some (stack w t !! i)
  | LLeave t => stack w t ≠ []
  end.

(** A step is done when it returned or threw. *)
Inductive lstep (w w' : locking) (o : lop) : Prop :=
| lstep_ret : lop_ok w o → lexec o w = Ret tt w' → lstep w w' o
| lstep_throw e : lop_ok w o → lexec o w = Throw e w' → lstep w w' o.

Definition locking_start : locking := mkLocking ∅ ∅.
Inductive lreach : locking → Prop :=
| lreach_start : lreach locking_start
| lreach_step w w' o : lreach w → lstep w w' o → lreach w'.
(** Steps of threads other than [t]. *)
Inductive others (t : nat) : locking → locking → Prop :=
| others_refl w : others t w w
| others_step w w' w'' o : others t w w' → actor o ≠ Some t → lstep w' w'' o → others t w w''.

(** The lock as [Locks] has it: what thread [t] holds of it. *)
Definition holds (t : nat) (b : bool) (m : mutex) : nat :=
  length (filter (λ h, h = (t, b)) (holders m)).
Definition view (t : nat) (m : mutex) : lock :=
  if 0 <? holds t true m then Exclusive
  else match holds t false m with 0 => Unlocked | n => Shared n end.
Definition acquire_view (h : how) : M lock unit := if exclusive h then wrlock else rdlock.
