(* ===== verification/MutexesSpec.v ===== *)
(** * What the locks of threads promise

    The invariant of [Mutexes] over all interleavings, and that a thread sees
    of a lock what [Locks] says. *)

From S2P Require Import Prelude Locks Mutexes.
#[local] Open Scope nat_scope.

(** ** Counting *)

Definition bit (P : Prop) `{Decision P} : nat := if decide P then 1 else 0.
Lemma bit_iff (P Q : Prop) `{Decision P, Decision Q} : (P ↔ Q) → bit P = bit Q.
Proof. unfold bit. intros. repeat case_decide; naive_solver. Qed.
Lemma bit_false (P : Prop) `{Decision P} : ¬ P → bit P = 0.
Proof. unfold bit. by case_decide. Qed.
Lemma bit_true (P : Prop) `{Decision P} : P → bit P = 1.
Proof. unfold bit. by case_decide. Qed.

Section Count.
Context {A : Type} (P : A → Prop) `{!∀ x, Decision (P x)}.
Definition count (l : list A) : nat := length (filter P l).

Lemma count_cons x l : count (x :: l) = bit (P x) + count l.
Proof. unfold count, bit. rewrite filter_cons. by case_decide. Qed.
Lemma count_insert l i x y : l !! i = Some x → count (<[i := y]> l) + bit (P x) = count l + bit (P y).
Proof.
  revert i. induction l as [|z l IH]; intros [|i] Hi; try done; simpl in Hi |- *; rewrite !count_cons.
  - injection Hi as ->. lia.
  - specialize (IH i Hi). lia.
Qed.
Lemma count_pos_iff l : 0 < count l ↔ ∃ x, x ∈ l ∧ P x.
Proof.
  unfold count. split.
  - destruct (filter P l) as [|x l'] eqn:E; simpl; [lia|]. intros _. exists x.
    assert (Hx : x ∈ filter P l) by (rewrite E; left). apply list_elem_of_filter in Hx. naive_solver.
  - intros (x & Hx & Hp). assert (Hf : x ∈ filter P l) by (by apply list_elem_of_filter).
    destruct (filter P l); simpl; [by apply elem_of_nil in Hf|lia].
Qed.
End Count.

(** ** The invariant *)

Definition guards_on (p : nat) (b : bool) (gs : list guard) : nat :=
  count (λ g, g_locked g = true ∧ g_mutex g = p ∧ exclusive (g_how g) = b) gs.
Definition exclusion (m : mutex) : Prop := ∀ t, (t, true) ∈ holders m → holders m = [(t, true)].

Record lock_inv (w : locking) : Prop := {
  li_fit : ∀ t g, g ∈ stack w t → ∃ m, mutexes w !! g_mutex g = Some m ∧ fits (m_class m) (g_how g) = true;
  li_null : ∀ p m, mutexes w !! p = Some m → is_null (m_class m) = true → holders m = [];
  li_held : ∀ p m t b, mutexes w !! p = Some m → is_null (m_class m) = false →
    holds t b m = guards_on p b (stack w t);
  li_excl : ∀ p m, mutexes w !! p = Some m → exclusion m }.

Lemma stack_set t gs w t' : stack (set_stack t gs w) t' = if decide (t = t') then gs else stack w t'.
Proof.
  unfold stack, set_stack. simpl. destruct (decide (t = t')) as [->|H].
  - by rewrite lookup_insert_eq.
  - by rewrite lookup_insert_ne.
Qed.
Lemma holds_count t b m : holds t b m = count (λ h, h = (t, b)) (holders m).
Proof. done. Qed.
Lemma holds_pos t b m : 0 < holds t b m ↔ (t, b) ∈ holders m.
Proof. rewrite holds_count, count_pos_iff. naive_solver. Qed.

(** A guard of [t] and its mutex change together. *)
Definition with_guard (t i : nat) (g : guard) (m : mutex) (w : locking) : locking :=
  mkLocking (<[g_mutex g := m]> (mutexes w)) (<[t := <[i := g]> (stack w t)]> (stacks w)).
Definition relocked (b : bool) (g : guard) : guard := mkGuard (g_how g) (g_mutex g) b.

Lemma with_guard_stack t i g m w t' :
  stack (with_guard t i g m w) t' = if decide (t = t') then <[i := g]> (stack w t) else stack w t'.
Proof. exact (stack_set t (<[i := g]> (stack w t)) w t'). Qed.

Lemma flip_inv w t i g m m' b : lock_inv w → stack w t !! i = Some g → mutexes w !! g_mutex g = Some m →
  m_class m' = m_class m → (is_null (m_class m) = true → holders m' = []) → exclusion m' →
  (is_null (m_class m) = false → ∀ t' b',
     holds t' b' m' + bit (t = t' ∧ g_locked g = true ∧ exclusive (g_how g) = b') =
     holds t' b' m + bit (t = t' ∧ b = true ∧ exclusive (g_how g) = b')) →
  lock_inv (with_guard t i (relocked b g) m' w).
Proof.
  intros W Hg Hm Hc Hnull Hex Hcount. split.
  - intros t' g'. rewrite with_guard_stack. intros Hin.
    assert (Hold : ∃ g0, g0 ∈ stack w t' ∧ g_mutex g' = g_mutex g0 ∧ g_how g' = g_how g0).
    { destruct (decide (t = t')) as [<-|]; [|by exists g'].
      apply list_elem_of_lookup in Hin as [j Hj]. destruct (decide (i = j)) as [<-|Hij].
      - rewrite list_lookup_insert_eq in Hj by (by eapply lookup_lt_Some). injection Hj as <-.
        exists g. split; [by eapply list_elem_of_lookup_2|done].
      - rewrite list_lookup_insert_ne in Hj by done. exists g'. split; [by eapply list_elem_of_lookup_2|done]. }
    destruct Hold as (g0 & Hin0 & -> & ->). destruct (li_fit w W t' g0 Hin0) as (m0 & Hm0 & Hf).
    simpl. destruct (decide (g_mutex g = g_mutex g0)) as [E|E].
    + rewrite E, lookup_insert_eq. exists m'. split; [done|]. rewrite Hc. rewrite E in Hm. by simplify_eq.
    + rewrite lookup_insert_ne by done. by exists m0.
  - intros p m0 Hp Hn. simpl in Hp. apply lookup_insert_Some in Hp as [[_ <-]|[_ Hp]]; [|by apply (li_null w W p)].
    apply Hnull. by rewrite <-Hc.
  - intros p m0 t' b' Hp Hn. rewrite with_guard_stack. simpl in Hp.
    unfold guards_on. assert (Hch : ∀ p', count (λ g0, g_locked g0 = true ∧ g_mutex g0 = p' ∧ exclusive (g_how g0) = b')
        (<[i := relocked b g]> (stack w t)) + bit (g_locked g = true ∧ g_mutex g = p' ∧ exclusive (g_how g) = b')
      = guards_on p' b' (stack w t) + bit (b = true ∧ g_mutex g = p' ∧ exclusive (g_how g) = b')).
    { intros p'. exact (count_insert _ _ i g (relocked b g) Hg). }
    apply lookup_insert_Some in Hp as [[Ep <-]|[Ep Hp]]; simpl in Ep.
    + subst p. rewrite Hc in Hn. specialize (Hcount Hn t' b'). specialize (Hch (g_mutex g)).
      pose proof (li_held w W _ _ t' b' Hm Hn) as Hh. destruct (decide (t = t')) as [<-|Hne].
      * assert (Hb : ∀ c, bit (t = t ∧ c = true ∧ exclusive (g_how g) = b') =
          bit (c = true ∧ g_mutex g = g_mutex g ∧ exclusive (g_how g) = b')) by (intros; apply bit_iff; naive_solver).
        rewrite !Hb in Hcount. lia.
      * rewrite !bit_false in Hcount by naive_solver. unfold guards_on in Hh. lia.
    + specialize (Hch p). pose proof (li_held w W p m0 t' b' Hp Hn) as Hh.
      destruct (decide (t = t')) as [<-|Hne]; [|done]. rewrite !bit_false in Hch by naive_solver. lia.
  - intros p m0 Hp. simpl in Hp. apply lookup_insert_Some in Hp as [[_ <-]|[_ Hp]]; [done|by apply (li_excl w W p)].
Qed.

(** ** Acquiring and releasing *)

Definition add_hold (t : nat) (b : bool) (m : mutex) : mutex :=
  if is_null (m_class m) then m else mkMutex (m_class m) ((t, b) :: holders m).
Definition drop_hold (t : nat) (m : mutex) : mutex :=
  if is_null (m_class m) then m else mkMutex (m_class m) (remove_hold t (holders m)).
Definition lock_failed (c : mutex_class) (h : how) : string :=
  match c, h with
  | Mutex, _ => "pthread_mutex_lock failed, rt = "
  | SpinLock, _ => "pthread_spin_lock failed, rt = "
  | _, ScopedRd => "pthread_rwlock_rdlock failed, rt = "
  | _, _ => "pthread_rwlock_wrlock failed, rt = "
  end.

Lemma acquire_spec h t e m : fits (m_class m) h = true →
  acquire h t e m =
    if is_null (m_class m) then Ret tt m
    else if negb (e =? 0)%Z then Throw (runtime_error (lock_failed (m_class m) h) [e]) m
    else if free_for (exclusive h) (holders m) then Ret tt (add_hold t (exclusive h) m)
    else Fault Deadlock.
Proof.
  unfold acquire, Mutex_lock, SpinLock_lock, RWMutex_rdlock, RWMutex_wrlock, pthread_acquire, check_rt, add_hold.
  destruct m as [[] hs], h; intros Hf; try discriminate Hf; unfold mbind', mget, mput, mreturn, mthrow, mfault;
    cbn -[free_for Z.eqb]; try done.
  all: destruct (e =? 0)%Z eqn:E; cbn -[free_for Z.eqb]; rewrite ?E; try done; by destruct (free_for _ _).
Qed.

Lemma release_spec t m : (is_null (m_class m) = false → ∃ b, (t, b) ∈ holders m) →
  release t m = Ret tt (drop_hold t m).
Proof.
  intros H. assert (He : is_null (m_class m) = false → existsb (λ h, h.1 =? t) (holders m) = true).
  { intros Hn. destruct (H Hn) as [b Hb]. apply existsb_exists. exists (t, b).
    split; [by apply list_elem_of_In|apply Nat.eqb_refl]. }
  unfold release, Mutex_unlock, SpinLock_unlock, RWMutex_unlock, pthread_unlock, check_rt, drop_hold.
  destruct m as [[] hs]; unfold mbind', mget, mput, mreturn; simpl in He |- *; try done; by rewrite He.
Qed.

Lemma add_hold_class t b m : m_class (add_hold t b m) = m_class m.
Proof. unfold add_hold. by case_match. Qed.
Lemma drop_hold_class t m : m_class (drop_hold t m) = m_class m.
Proof. unfold drop_hold. by case_match. Qed.

Lemma holds_add t b m t' b' : is_null (m_class m) = false →
  holds t' b' (add_hold t b m) = bit (t = t' ∧ b = b') + holds t' b' m.
Proof.
  intros H. unfold add_hold. rewrite H, !holds_count. simpl. rewrite count_cons. f_equal. apply bit_iff. naive_solver.
Qed.
(** Of the holds of one thread, which are all of one kind, one goes. *)
Lemma holds_remove t b hs t' b' : (t, b) ∈ hs → (∀ c, (t, c) ∈ hs → c = b) →
  count (λ h, h = (t', b')) (remove_hold t hs) + bit (t = t' ∧ b = b') = count (λ h, h = (t', b')) hs.
Proof.
  induction hs as [|[t0 b0] hs IH]; intros Hin Ho; [by apply elem_of_nil in Hin|]. simpl. rewrite count_cons.
  destruct (t0 =? t) eqn:E; [apply Nat.eqb_eq in E as ->|apply Nat.eqb_neq in E].
  - rewrite (Ho b0) by left. rewrite Nat.add_comm. f_equal. apply bit_iff. naive_solver.
  - rewrite count_cons, <-IH; [lia| |intros c Hc; apply Ho; by right].
    apply elem_of_cons in Hin as [[=]|Hin]; [by subst|done].
Qed.
Lemma remove_hold_sub t hs h : h ∈ remove_hold t hs → h ∈ hs.
Proof.
  induction hs as [|h0 hs IH]; simpl; [done|]. case_match; [by right|].
  intros [->|Hh]%elem_of_cons; [left|right; by apply IH].
Qed.

(** Free for a thread is free of the others and of its own holds. *)
Lemma free_for_spec b hs : free_for b hs = true ↔ ∀ t c, (t, c) ∈ hs → b = false ∧ c = false.
Proof.
  unfold free_for. destruct b.
  - rewrite bool_decide_eq_true. split; [intros ->; by intros ? ? ?%elem_of_nil|].
    intros H. destruct hs as [|[t c] hs]; [done|]. destruct (H t c); [left|done].
  - rewrite forallb_forall. split.
    + intros H t c Hin%list_elem_of_In. split; [done|]. apply H in Hin. by destruct c.
    + intros H [t c] Hin%list_elem_of_In. by destruct (H t c Hin) as [_ ->].
Qed.

Lemma add_exclusion t b m : exclusion m → free_for b (holders m) = true → exclusion (add_hold t b m).
Proof.
  intros He Hf t'. unfold add_hold. case_match; [apply He|]. simpl.
  intros [[= -> <-]|Hin]%elem_of_cons; [|by destruct (proj1 (free_for_spec _ _) Hf t' true Hin)].
  destruct (holders m) as [|[t0 c] hs] eqn:Eh; [done|].
  by destruct (proj1 (free_for_spec _ _) Hf t0 c ltac:(left)).
Qed.
Lemma drop_exclusion t m : exclusion m → exclusion (drop_hold t m).
Proof.
  intros He t'. unfold drop_hold. case_match; [apply He|]. simpl. intros Hin.
  specialize (He t' (remove_hold_sub _ _ _ Hin)). rewrite He in Hin |- *. simpl in Hin |- *.
  by case_match; [apply elem_of_nil in Hin|].
Qed.

(** ** Scoped locks *)

Lemma guard_mutex w t i g : lock_inv w → stack w t !! i = Some g →
  ∃ m, mutexes w !! g_mutex g = Some m ∧ fits (m_class m) (g_how g) = true.
Proof. intros W Hg. eapply (li_fit w W t). by eapply list_elem_of_lookup_2. Qed.

Lemma set_locked_spec w t i g b m : stack w t !! i = Some g →
  set_locked t i b (mkLocking (<[g_mutex g := m]> (mutexes w)) (stacks w)) =
  Ret tt (with_guard t i (relocked b g) m w).
Proof.
  intros Hg. unfold set_locked, guard_at, mbind', mmodify. unfold stack in *. simpl. by rewrite Hg.
Qed.

Lemma scope_lock_spec w t i g m e : stack w t !! i = Some g → g_locked g = false →
  mutexes w !! g_mutex g = Some m → fits (m_class m) (g_how g) = true →
  scope_lock t i e w =
    if is_null (m_class m) || ((e =? 0)%Z && free_for (exclusive (g_how g)) (holders m)) then
      Ret tt (with_guard t i (relocked true g) (add_hold t (exclusive (g_how g)) m) w)
    else if (e =? 0)%Z then Fault Deadlock
    else Throw (runtime_error (lock_failed (m_class m) (g_how g)) [e]) w.
Proof.
  intros Hg Hl Hm Hf. unfold scope_lock.
  rewrite (bind_Ret _ _ _ g w) by (unfold guard_at; by rewrite Hg). rewrite Hl. cbn [negb].
  unfold mbind' at 1. unfold at_mutex at 1. rewrite Hm, acquire_spec by done.
  destruct (is_null (m_class m)) eqn:En; cbn [orb].
  { rewrite (set_locked_spec _ _ _ _ _ _ Hg). unfold add_hold. by rewrite En. }
  destruct (e =? 0)%Z; cbn [negb andb]; [|by rewrite insert_id by done; destruct w].
  destruct (free_for _ _); [by apply set_locked_spec|done].
Qed.

Lemma lock_keeps w t i g m : lock_inv w → stack w t !! i = Some g → g_locked g = false →
  mutexes w !! g_mutex g = Some m →
  is_null (m_class m) = true ∨ free_for (exclusive (g_how g)) (holders m) = true →
  lock_inv (with_guard t i (relocked true g) (add_hold t (exclusive (g_how g)) m) w).
Proof.
  intros W Hg Hl Hm Hfree. apply (flip_inv w t i g m); try done.
  - apply add_hold_class.
  - intros Hn. unfold add_hold. rewrite Hn. by apply (li_null w W _ m Hm).
  - destruct Hfree as [Hn|Hfree]; [|by apply add_exclusion, Hfree; apply (li_excl w W _ m Hm)].
    unfold add_hold. rewrite Hn. by apply (li_excl w W _ m Hm).
  - intros Hn t' b'. rewrite holds_add, (bit_false (t = t' ∧ g_locked g = true ∧ _)) by (done || naive_solver congruence).
    rewrite (bit_iff (t = t' ∧ true = true ∧ _) (t = t' ∧ exclusive (g_how g) = b')) by naive_solver. lia.
Qed.

(** What a locked guard holds. *)
Lemma locked_holds w t i g m : lock_inv w → stack w t !! i = Some g → g_locked g = true →
  mutexes w !! g_mutex g = Some m → is_null (m_class m) = false → (t, exclusive (g_how g)) ∈ holders m.
Proof.
  intros W Hg Hl Hm Hn. apply holds_pos. rewrite (li_held w W _ m _ _ Hm Hn). apply count_pos_iff.
  exists g. split; [by eapply list_elem_of_lookup_2|done].
Qed.
Lemma one_kind m t b c : exclusion m → (t, b) ∈ holders m → (t, c) ∈ holders m → c = b.
Proof.
  intros He Hb Hc. destruct b, c; try done.
  - rewrite (He t Hb) in Hc. by apply list_elem_of_singleton in Hc as [=].
  - rewrite (He t Hc) in Hb. by apply list_elem_of_singleton in Hb as [=].
Qed.

Lemma scope_unlock_spec w t i g m : lock_inv w → stack w t !! i = Some g → g_locked g = true →
  mutexes w !! g_mutex g = Some m →
  scope_unlock t i w = Ret tt (with_guard t i (relocked false g) (drop_hold t m) w) ∧
  lock_inv (with_guard t i (relocked false g) (drop_hold t m) w).
Proof.
  intros W Hg Hl Hm. pose proof (locked_holds w t i g m W Hg Hl Hm) as Hh. split.
  - unfold scope_unlock. rewrite (bind_Ret _ _ _ g w) by (unfold guard_at; by rewrite Hg). rewrite Hl.
    unfold mbind' at 1. unfold at_mutex at 1. rewrite Hm, release_spec by (intros Hn; eauto).
    by apply set_locked_spec.
  - apply (flip_inv w t i g m); try done.
    + apply drop_hold_class.
    + intros Hn. unfold drop_hold. rewrite Hn. by apply (li_null w W _ m Hm).
    + apply drop_exclusion, (li_excl w W _ m Hm).
    + intros Hn t' b'. rewrite (bit_false (t = t' ∧ false = true ∧ _)) by naive_solver.
      rewrite (bit_iff _ (t = t' ∧ exclusive (g_how g) = b')) by naive_solver.
      unfold drop_hold. rewrite Hn, Nat.add_0_r. apply holds_remove; [by apply Hh|].
      intros c Hc. apply (one_kind m t _ _ (li_excl w W _ m Hm) (Hh Hn) Hc).
Qed.

(** Guards that hold nothing come and go. *)
Lemma push_inv w t h p m : lock_inv w → mutexes w !! p = Some m → fits (m_class m) h = true →
  lock_inv (set_stack t (mkGuard h p false :: stack w t) w).
Proof.
  intros W Hm Hf. split.
  - intros t' g. rewrite stack_set. destruct (decide (t = t')) as [<-|]; [|apply (li_fit w W)].
    intros [->|Hg]%elem_of_cons; [by exists m|by apply (li_fit w W t)].
  - apply (li_null w W).
  - intros p' m' t' b Hp Hn. rewrite stack_set. rewrite (li_held w W p' m' t' b Hp Hn).
    destruct (decide (t = t')) as [<-|]; [|done]. unfold guards_on. rewrite count_cons, bit_false; [done|]. naive_solver.
  - apply (li_excl w W).
Qed.
Lemma pop_inv w t g gs : lock_inv w → stack w t = g :: gs → g_locked g = false →
  lock_inv (set_stack t gs w).
Proof.
  intros W Hs Hl. split.
  - intros t' g'. rewrite stack_set. destruct (decide (t = t')) as [<-|]; [|apply (li_fit w W)].
    intros Hg. apply (li_fit w W t). rewrite Hs. by right.
  - apply (li_null w W).
  - intros p' m' t' b Hp Hn. rewrite stack_set. rewrite (li_held w W p' m' t' b Hp Hn).
    destruct (decide (t = t')) as [<-|]; [|done]. unfold guards_on. rewrite Hs, count_cons, bit_false; [done|].
    naive_solver congruence.
  - apply (li_excl w W).
Qed.

(** The destructor of the innermost guard. *)
Definition left (t : nat) (w : locking) : locking :=
  match stack w t with
  | [] => w
  | g :: gs =>
      if g_locked g then
        set_stack t gs (mkLocking (match mutexes w !! g_mutex g with
                                   | Some m => <[g_mutex g := drop_hold t m]> (mutexes w)
                                   | None => mutexes w
                                   end) (stacks w))
      else set_stack t gs w
  end.
Lemma scope_delete_spec w t : lock_inv w → stack w t ≠ [] →
  scope_delete t w = Ret tt (left t w) ∧ lock_inv (left t w).
Proof.
  intros W Hs. destruct (stack w t) as [|g gs] eqn:Es; [done|]. clear Hs. unfold left. rewrite Es.
  assert (Hg : stack w t !! 0 = Some g) by (by rewrite Es).
  destruct (guard_mutex w t 0 g W Hg) as (m & Hm & Hf). unfold scope_delete.
  destruct (g_locked g) eqn:El.
  - destruct (scope_unlock_spec w t 0 g m W Hg El Hm) as [-> W1]. rewrite Hm.
    assert (E : set_stack t (tail (stack (with_guard t 0 (relocked false g) (drop_hold t m) w) t))
      (with_guard t 0 (relocked false g) (drop_hold t m) w) =
      set_stack t gs (mkLocking (<[g_mutex g := drop_hold t m]> (mutexes w)) (stacks w))).
    { rewrite with_guard_stack, decide_True, Es by done. unfold set_stack, with_guard. simpl. by rewrite insert_insert_eq. }
    unfold pop, mmodify. rewrite E. split; [done|]. rewrite <-E.
    apply (pop_inv _ t (relocked false g)); [done| |done]. rewrite with_guard_stack, decide_True, Es by done. done.
  - unfold scope_unlock. rewrite (bind_Ret _ _ _ g w) by (unfold guard_at; by rewrite Hg). rewrite El.
    unfold mreturn, pop, mmodify. rewrite Es. split; [done|]. by apply (pop_inv w t g gs).
Qed.

(** ** Every step *)

(** What the C library answers to the call of an operation, and the lock it asks for. *)
Definition answer (o : lop) : option Z :=
  match o with LNew _ _ e | LScope _ _ _ e | LLock _ _ e => Some e | _ => None end.
Definition asks (w : locking) (o : lop) : option (how * nat) :=
  match o with
  | LScope _ h p _ => Some (h, p)
  | LLock t i _ => (λ g, (g_how g, g_mutex g)) <$> stack w t !! i
  | _ => None
  end.
Definition refused (w : locking) (o : lop) (e : exn) (w' : locking) : Prop :=
  mutexes w' = mutexes w ∧ (∀ t, stack w' t = stack w t) ∧
  ∃ rt what, rt ≠ 0%Z ∧ answer o = Some rt ∧ e = runtime_error what [rt].
(** Somebody holds the lock in a way that excludes the request. *)
Definition taken (w : locking) (h : how) (p : nat) : Prop :=
  ∃ m t b, mutexes w !! p = Some m ∧ (t, b) ∈ holders m ∧ (exclusive h = true ∨ b = true).
Definition step_result (w : locking) (o : lop) (r : outcome locking unit) : Prop :=
  match r with
  | Ret _ w' => lock_inv w'
  | Throw e w' => lock_inv w' ∧ refused w o e w'
  | Fault f => f = Deadlock ∧ answer o = Some 0%Z ∧ ∃ h p, asks w o = Some (h, p) ∧ taken w h p
  end.

Lemma not_free w h p m : mutexes w !! p = Some m → free_for (exclusive h) (holders m) = false → taken w h p.
Proof.
  intros Hm Hf. destruct (existsb (λ x, exclusive h || x.2) (holders m)) eqn:E.
  - apply existsb_exists in E as ([t b] & Hin & Hb). exists m, t, b. split; [done|].
    split; [by apply list_elem_of_In|by apply orb_true_iff].
  - exfalso. assert (Ht : free_for (exclusive h) (holders m) = true); [|congruence].
    apply free_for_spec. intros t c Hin%list_elem_of_In. apply orb_false_iff.
    rewrite <-not_true_iff_false in E. apply not_true_iff_false. intros Hc. apply E, existsb_exists. by exists (t, c).
Qed.

Lemma scope_lock_result w t i g e o : lock_inv w → stack w t !! i = Some g →
  answer o = Some e → asks w o = Some (g_how g, g_mutex g) →
  match scope_lock t i e w with
  | Ret _ w' => lock_inv w'
  | Throw x w' => w' = w ∧ ∃ rt what, rt ≠ 0%Z ∧ answer o = Some rt ∧ x = runtime_error what [rt]
  | Fault f => f = Deadlock ∧ answer o = Some 0%Z ∧ ∃ h p, asks w o = Some (h, p) ∧ taken w h p
  end.
Proof.
  intros W Hg Ha Hk. destruct (guard_mutex w t i g W Hg) as (m & Hm & Hf). destruct (g_locked g) eqn:El.
  - unfold scope_lock. rewrite (bind_Ret _ _ _ g w) by (unfold guard_at; by rewrite Hg). by rewrite El.
  - rewrite (scope_lock_spec w t i g m e Hg El Hm Hf).
    destruct (is_null (m_class m)) eqn:En; cbn [orb]; [apply (lock_keeps w t i g m); auto|].
    destruct (Z.eqb_spec e 0) as [->|He]; cbn [andb].
    + destruct (free_for _ _) eqn:Ef; [apply (lock_keeps w t i g m); auto|].
      split; [done|]. split; [done|]. eexists _, _. split; [done|]. by eapply not_free.
    + split; [done|]. by eexists e, _.
Qed.

Lemma scope_new_result w t h p e : lock_inv w → lop_ok w (LScope t h p e) →
  step_result w (LScope t h p e) (scope_new t h p e w).
Proof.
  intros W (m & Hm & Hf). pose proof (push_inv w t h p m W Hm Hf) as W1.
  set (w1 := set_stack t (mkGuard h p false :: stack w t) w) in *.
  assert (Hs : stack w1 t = mkGuard h p false :: stack w t) by (unfold w1; by rewrite stack_set, decide_True).
  pose proof (scope_lock_result w1 t 0 (mkGuard h p false) e (LScope t h p e) W1 ltac:(by rewrite Hs) eq_refl eq_refl) as H.
  unfold scope_new, step_result. fold w1. destruct (scope_lock t 0 e w1) as [[] w2|x w2|f]; [done| |exact H].
  destruct H as [-> Hx]. unfold mbind', pop, mmodify, mthrow. rewrite Hs. split; [by eapply pop_inv|].
  split; [done|]. split; [|done]. intros t'. cbn [tail]. rewrite stack_set. destruct (decide (t = t')) as [<-|Hne]; [done|].
  unfold w1. by rewrite stack_set, decide_False.
Qed.

Lemma no_guards w p t b : lock_inv w → (∀ t g, g ∈ stack w t → g_mutex g ≠ p) → guards_on p b (stack w t) = 0.
Proof.
  intros W H. destruct (guards_on p b (stack w t)) eqn:E; [done|].
  assert (Hp : 0 < guards_on p b (stack w t)) by lia. apply count_pos_iff in Hp as (g & Hg & _ & Hp & _). by destruct (H t g).
Qed.
Lemma mutex_new_spec p c rt w :
  mutex_new p c rt w = Ret tt (mkLocking (<[p := mkMutex c []]> (mutexes w)) (stacks w)) ∨
  rt ≠ 0%Z ∧ ∃ what, mutex_new p c rt w = Throw (runtime_error what [rt]) w.
Proof.
  unfold mutex_new, Mutex_init, RWMutex_init, SpinLock_init, check_rt, mbind'.
  destruct c; try (by left); destruct (Z.eqb_spec rt 0) as [->|H]; (by left) || (right; split; [done|by eexists]).
Qed.
Lemma mutex_new_result w p c rt : lock_inv w → lop_ok w (LNew p c rt) →
  step_result w (LNew p c rt) (mutex_new p c rt w).
Proof.
  intros W Hp. simpl in Hp. destruct (mutex_new_spec p c rt w) as [->|[E (what & ->)]].
  2:{ split; [done|]. split; [done|]. split; [done|]. by exists rt, what. }
  - cbn. assert (Hno : ∀ t g, g ∈ stack w t → g_mutex g ≠ p).
    { intros t g Hg <-. destruct (li_fit w W t g Hg) as (m & Hm & _). congruence. }
    split.
    + intros t g Hg. destruct (li_fit w W t g Hg) as (m & Hm & Hf). exists m. split; [|done].
      simpl. rewrite lookup_insert_ne; [done|]. exact (not_eq_sym (Hno t g Hg)).
    + intros p' m Hm Hn. simpl in Hm. apply lookup_insert_Some in Hm as [[_ <-]|[_ Hm]]; [done|by apply (li_null w W p')].
    + intros p' m t b Hm Hn. simpl in Hm. apply lookup_insert_Some in Hm as [[<- <-]|[_ Hm]]; [|by apply (li_held w W)].
      symmetry. by apply (no_guards w).
    + intros p' m Hm. simpl in Hm. apply lookup_insert_Some in Hm as [[_ <-]|[_ Hm]]; [|by apply (li_excl w W p')].
      intros t Hin. by apply elem_of_nil in Hin.
Qed.
Lemma mutex_delete_result w p : lock_inv w → lop_ok w (LDelete p) → step_result w (LDelete p) (mutex_delete p w).
Proof.
  intros W [[m Hm] Hno]. unfold mutex_delete. rewrite Hm.
  assert (Hh : holders m = []).
  { destruct (is_null (m_class m)) eqn:En; [by apply (li_null w W p)|].
    destruct (holders m) as [|[t b] hs] eqn:E; [done|].
    assert (H0 : 0 < holds t b m) by (apply holds_pos; rewrite E; left).
    rewrite (li_held w W p m t b Hm En), (no_guards w p t b W Hno) in H0. lia. }
  rewrite bool_decide_eq_true_2 by done. split.
  - intros t g Hg. destruct (li_fit w W t g Hg) as (m' & Hm' & Hf). exists m'. split; [|done].
    simpl. rewrite lookup_delete_ne; [done|]. exact (not_eq_sym (Hno t g Hg)).
  - intros p' m' Hm'; simpl in Hm'; apply lookup_delete_Some in Hm' as [_ Hm']. by apply (li_null w W p').
  - intros p' m' t b Hm'; simpl in Hm'; apply lookup_delete_Some in Hm' as [_ Hm']. by apply (li_held w W).
  - intros p' m' Hm'; simpl in Hm'; apply lookup_delete_Some in Hm' as [_ Hm']. by apply (li_excl w W p').
Qed.

Lemma lexec_result w o : lock_inv w → lop_ok w o → step_result w o (lexec o w).
Proof.
  intros W Hok. destruct o as [p c rt|p|t h p e|t i e|t i|t]; simpl.
  - by apply mutex_new_result.
  - by apply mutex_delete_result.
  - by apply scope_new_result.
  - destruct Hok as [g Hg]. pose proof (scope_lock_result w t i g e (LLock t i e) W Hg eq_refl) as H.
    unfold step_result. simpl in H. rewrite Hg in H. specialize (H eq_refl).
    destruct (scope_lock t i e w); [done| |simpl in *; by rewrite Hg].
    destruct H as [-> H]. by split.
  - destruct Hok as [g Hg]. destruct (g_locked g) eqn:El.
    + destruct (guard_mutex w t i g W Hg) as (m & Hm & _).
      by destruct (scope_unlock_spec w t i g m W Hg El Hm) as [-> W'].
    + unfold scope_unlock. rewrite (bind_Ret _ _ _ g w) by (unfold guard_at; by rewrite Hg). by rewrite El.
  - by destruct (scope_delete_spec w t W Hok) as [-> W'].
Qed.

Lemma lstep_keeps w w' o : lock_inv w → lstep w w' o → lock_inv w'.
Proof.
  intros W [Hok E|e Hok E]; pose proof (lexec_result w o W Hok) as H; rewrite E in H; [done|by destruct H].
Qed.
Lemma lreach_lock_inv w : lreach w → lock_inv w.
Proof.
  induction 1 as [|w w' o _ IH H]; [|by eapply lstep_keeps].
  split; [intros t g Hg|intros p m Hp|intros p m t b Hp|intros p m Hp]; simpl in *;
    try by rewrite lookup_empty in Hp.
  unfold stack in Hg. simpl in Hg. rewrite lookup_empty in Hg. by apply elem_of_nil in Hg.
Qed.

(** ** What one thread sees *)

Lemma others_inv t w w' : lock_inv w → others t w w' → lock_inv w'.
Proof. intros W. induction 1 as [|w w' w'' o _ IH _ H]; [done|]. eapply lstep_keeps; [|done]. by apply IH. Qed.
Lemma others_app t w1 w2 w3 : others t w1 w2 → others t w2 w3 → others t w1 w3.
Proof. intros H. induction 1 as [|w w' w'' o _ IH Ho Hs]; [done|]. eapply others_step; [by apply IH|done|done]. Qed.

(** A step leaves the guards of the other threads alone. *)
Definition alone (t : nat) (w : locking) (r : outcome locking unit) : Prop :=
  match r with Ret _ w' | Throw _ w' => stack w' t = stack w t | Fault _ => True end.
Lemma flip_alone t t' i b p m w : t' ≠ t → alone t w ((at_mutex p m;; set_locked t' i b) w).
Proof.
  intros H. unfold mbind', at_mutex. destruct (mutexes w !! p) as [x|]; [|done].
  destruct (m x) as [[] x'|e x'|]; [|done|done].
  unfold set_locked, mbind', guard_at, mmodify. destruct (stack _ t' !! i); [|done].
  simpl. by rewrite stack_set, decide_False.
Qed.
Lemma scope_lock_alone t t' i e w : t' ≠ t → alone t w (scope_lock t' i e w).
Proof.
  intros H. unfold scope_lock, mbind' at 1, guard_at. destruct (stack w t' !! i) as [g|]; [|done].
  destruct (negb (g_locked g)); [by apply flip_alone|done].
Qed.
Lemma scope_unlock_alone t t' i w : t' ≠ t → alone t w (scope_unlock t' i w).
Proof.
  intros H. unfold scope_unlock, mbind' at 1, guard_at. destruct (stack w t' !! i) as [g|]; [|done].
  destruct (g_locked g); [by apply flip_alone|done].
Qed.
Lemma lexec_alone t w o : actor o ≠ Some t → alone t w (lexec o w).
Proof.
  intros Ho. destruct o as [p c rt|p|t' h p e|t' i e|t' i|t']; simpl in Ho |- *.
  - by destruct (mutex_new_spec p c rt w) as [->|[_ (what & ->)]].
  - unfold mutex_delete. destruct (mutexes w !! p); [|done]. by case_bool_decide.
  - assert (Hne : t' ≠ t) by congruence.
    pose proof (scope_lock_alone t t' 0 e (set_stack t' (mkGuard h p false :: stack w t') w) Hne) as H.
    unfold scope_new, alone in *. rewrite stack_set, decide_False in H by done.
    destruct (scope_lock t' 0 e _); [done| |done]. unfold mbind', pop, mmodify, mthrow.
    by rewrite stack_set, decide_False.
  - apply scope_lock_alone. congruence.
  - apply scope_unlock_alone. congruence.
  - assert (Hne : t' ≠ t) by congruence. pose proof (scope_unlock_alone t t' 0 w Hne) as H.
    unfold scope_delete, alone, pop, mmodify in *. destruct (scope_unlock t' 0 w); [|done|done].
    by rewrite stack_set, decide_False.
Qed.
Lemma others_stack t w w' : others t w w' → stack w' t = stack w t.
Proof.
  induction 1 as [|w w' w'' o _ IH Ho [_ E|e _ E]]; [done| |];
    pose proof (lexec_alone t w' o Ho) as H; rewrite E in H; simpl in H; congruence.
Qed.

(** A mutex keeps its class as long as it is not destroyed. *)
Definition same_class (p : nat) (w : locking) (r : outcome locking unit) : Prop :=
  match r with
  | Ret _ w' | Throw _ w' => ∀ m, mutexes w !! p = Some m → ∃ m', mutexes w' !! p = Some m' ∧ m_class m' = m_class m
  | Fault _ => True
  end.
Definition class_kept (f : M mutex unit) : Prop :=
  ∀ m, match f m with Ret _ m' | Throw _ m' => m_class m' = m_class m | Fault _ => True end.
Lemma acquire_class h t e : class_kept (acquire h t e).
Proof.
  unfold acquire, Mutex_lock, SpinLock_lock, RWMutex_rdlock, RWMutex_wrlock, pthread_acquire, check_rt, mbind', mget, mput.
  intros [[] hs]; destruct h; try done; cbn -[free_for Z.eqb].
  all: destruct (e =? 0)%Z eqn:E; cbn -[free_for Z.eqb]; rewrite ?E; try done; by destruct (free_for _ _).
Qed.
Lemma release_class t : class_kept (release t).
Proof.
  unfold release, Mutex_unlock, SpinLock_unlock, RWMutex_unlock, pthread_unlock, check_rt, mbind', mget, mput.
  intros [[] hs]; try done; simpl; by destruct (existsb _ hs).
Qed.
Lemma flip_class p t i b q f w : class_kept f → same_class p w ((at_mutex q f;; set_locked t i b) w).
Proof.
  intros Hf. unfold mbind', at_mutex. destruct (mutexes w !! q) as [x|] eqn:Ex; [|done]. specialize (Hf x).
  assert (Hk : ∀ x', m_class x' = m_class x → ∀ m, mutexes w !! p = Some m →
    ∃ m', <[q := x']> (mutexes w) !! p = Some m' ∧ m_class m' = m_class m).
  { intros x' Hx m Hm. destruct (decide (q = p)) as [->|Hne].
    - exists x'. rewrite lookup_insert_eq. split; [done|]. congruence.
    - exists m. by rewrite lookup_insert_ne. }
  destruct (f x) as [[] x'|e x'|]; [| |done]; [|intros m; by apply Hk].
  unfold set_locked, mbind', guard_at, mmodify. destruct (stack _ t !! i); [|done]. intros m. by apply Hk.
Qed.
Lemma scope_lock_class p t i e w : same_class p w (scope_lock t i e w).
Proof.
  unfold scope_lock, mbind' at 1, guard_at. destruct (stack w t !! i) as [g|]; [|done].
  destruct (negb (g_locked g)); [by apply flip_class, acquire_class|intros m; eauto].
Qed.
Lemma scope_unlock_class p t i w : same_class p w (scope_unlock t i w).
Proof.
  unfold scope_unlock, mbind' at 1, guard_at. destruct (stack w t !! i) as [g|]; [|done].
  destruct (g_locked g); [by apply flip_class, release_class|intros m; eauto].
Qed.
Lemma lexec_class p w o : lop_ok w o → o ≠ LDelete p → same_class p w (lexec o w).
Proof.
  intros Hok Hd. destruct o as [q c rt|q|t h q e|t i e|t i|t]; simpl in Hok |- *.
  - destruct (mutex_new_spec q c rt w) as [->|[_ (what & ->)]]; intros m Hm; simpl; [|by eauto].
    rewrite lookup_insert_ne by congruence. eauto.
  - unfold mutex_delete. destruct (mutexes w !! q); [|done]. case_bool_decide; [|done].
    intros m' Hm'. simpl. rewrite lookup_delete_ne by congruence. eauto.
  - pose proof (scope_lock_class p t 0 e (set_stack t (mkGuard h q false :: stack w t) w)) as H.
    unfold scope_new. by destruct (scope_lock t 0 e _).
  - apply scope_lock_class.
  - apply scope_unlock_class.
  - pose proof (scope_unlock_class p t 0 w) as H. unfold scope_delete. by destruct (scope_unlock t 0 w).
Qed.
Lemma others_class t p w w' g : others t w w' → g ∈ stack w t → g_mutex g = p →
  ∀ m, mutexes w !! p = Some m → ∃ m', mutexes w' !! p = Some m' ∧ m_class m' = m_class m.
Proof.
  intros H Hg Hp m Hm. induction H as [w|w w' w'' o H1 IH Ho Hs]; [by eauto|].
  destruct (IH Hg Hm) as (m1 & Hm1 & E1).
  assert (Hd : lop_ok w' o → o ≠ LDelete p).
  { intros Hok ->. destruct Hok as [_ Hno]. apply (Hno t g); [by rewrite (others_stack _ _ _ H1)|done]. }
  destruct Hs as [Hok E|e Hok E]; pose proof (lexec_class p w' o Hok (Hd Hok)) as Hc; rewrite E in Hc;
    destruct (Hc m1 Hm1) as (m2 & Hm2 & E2); exists m2; split; congruence.
Qed.

(** The other threads leave their guards. *)
Lemma leave_step w t : lock_inv w → stack w t ≠ [] → ∃ w', lstep w w' (LLeave t) ∧ stack w' t = tail (stack w t).
Proof.
  intros W Hs. destruct (scope_delete_spec w t W Hs) as [E _]. exists (left t w). split; [by apply lstep_ret|].
  unfold left. destruct (stack w t) as [|g gs]; [done|].
  destruct (g_locked g); rewrite stack_set; by rewrite decide_True.
Qed.
Lemma drain t t' w p m : t' ≠ t → lock_inv w → mutexes w !! p = Some m →
  ∃ w' m', others t w w' ∧ stack w' t' = [] ∧ (∀ t0, t0 ≠ t' → stack w' t0 = stack w t0) ∧
    mutexes w' !! p = Some m' ∧ m_class m' = m_class m.
Proof.
  intros Hne. remember (stack w t') as gs eqn:Egs. revert w m Egs.
  induction gs as [|g gs IH]; intros w m Egs W Hm.
  { exists w, m. split_and!; try done. apply others_refl. }
  destruct (leave_step w t' W ltac:(by rewrite <-Egs)) as (w1 & H1 & Hs1). rewrite <-Egs in Hs1. simpl in Hs1.
  assert (Hc : ∃ m1, mutexes w1 !! p = Some m1 ∧ m_class m1 = m_class m).
  { destruct H1 as [Hok E|e Hok E]; pose proof (lexec_class p w _ Hok ltac:(done)) as Hc; rewrite E in Hc; by apply Hc. }
  destruct Hc as (m1 & Hm1 & Ec).
  destruct (IH w1 m1 (eq_sym Hs1) (lstep_keeps _ _ _ W H1) Hm1) as (w2 & m2 & Ho & Hs2 & Hk & Hm2 & Ec2).
  assert (H1o : others t w w1) by (eapply others_step; [apply others_refl| |exact H1]; simpl; congruence).
  exists w2, m2. split; [by eapply others_app|]. split; [done|]. split; [|split; congruence].
  intros t0 Ht0. rewrite Hk by done.
  apply (others_stack t0 w w1). eapply others_step; [apply others_refl| |exact H1]. simpl. congruence.
Qed.
Lemma drain_all t (L : list nat) w p m : lock_inv w → mutexes w !! p = Some m →
  ∃ w' m', others t w w' ∧ (∀ t0, t0 ∈ L → t0 ≠ t → stack w' t0 = []) ∧ (∀ t0, t0 ∉ L → stack w' t0 = stack w t0) ∧
    mutexes w' !! p = Some m' ∧ m_class m' = m_class m.
Proof.
  revert w m. induction L as [|t1 L IH]; intros w m W Hm.
  { exists w, m. split_and!; try done; [apply others_refl|]. by intros t0 H%elem_of_nil. }
  destruct (IH w m W Hm) as (w1 & m1 & Ho & He & Hk & Hm1 & Ec). destruct (decide (t1 = t)) as [->|Hne].
  { exists w1, m1. split; [done|]. split; [|split; [|done]].
    - intros t0 [->|H]%elem_of_cons Ht0; [done|by apply He].
    - intros t0 H. apply Hk. intros Hin. apply H. by right. }
  destruct (drain t t1 w1 p m1 Hne (others_inv _ _ _ W Ho) Hm1) as (w2 & m2 & Ho2 & Hs2 & Hk2 & Hm2 & Ec2).
  exists w2, m2. split; [by eapply others_app|]. split; [|split; [|split; congruence]].
  - intros t0 Hin Ht0. destruct (decide (t0 = t1)) as [->|Hn]; [done|]. rewrite Hk2 by done.
    apply elem_of_cons in Hin as [->|Hin]; [done|by apply He].
  - intros t0 [Hn Hin]%not_elem_of_cons. rewrite Hk2 by done. by apply Hk.
Qed.

(** Then the lock is held by [t] alone, as before. *)
Lemma others_leave t w p m : lock_inv w → mutexes w !! p = Some m → is_null (m_class m) = false →
  ∃ w' m', others t w w' ∧ mutexes w' !! p = Some m' ∧ m_class m' = m_class m ∧
    (∀ t' b, (t', b) ∈ holders m' → t' = t) ∧ ∀ b, holds t b m' = holds t b m.
Proof.
  intros W Hm Hn. destruct (drain_all t (map fst (holders m)) w p m W Hm) as (w' & m' & Ho & He & Hk & Hm' & Ec).
  pose proof (others_inv _ _ _ W Ho) as W'. assert (Hn' : is_null (m_class m') = false) by congruence.
  exists w', m'. split; [done|]. split; [done|]. split; [done|]. split.
  - intros t' b Hin. destruct (decide (t' = t)) as [|Hne]; [done|]. exfalso. apply holds_pos in Hin.
    rewrite (li_held w' W' p m' t' b Hm' Hn') in Hin. destruct (decide (t' ∈ map fst (holders m))) as [Ht|Ht].
    + rewrite (He t' Ht Hne) in Hin. simpl in Hin. unfold guards_on, count in Hin. simpl in Hin. lia.
    + rewrite (Hk t' Ht), <-(li_held w W p m t' b Hm Hn) in Hin. apply holds_pos in Hin. apply Ht.
      apply list_elem_of_fmap. by exists (t', b).
  - intros b. rewrite (li_held w' W' p m' t b Hm' Hn'), (li_held w W p m t b Hm Hn). by rewrite (others_stack _ _ _ Ho).
Qed.

Lemma view_ext t m m' : (∀ b, holds t b m' = holds t b m) → view t m' = view t m.
Proof. intros H. unfold view. by rewrite !H. Qed.

(** A lock that a thread holds stays with it. *)
Lemma others_view t w w' p m : lock_inv w → mutexes w !! p = Some m → is_null (m_class m) = false →
  view t m ≠ Unlocked → others t w w' →
  ∃ m', mutexes w' !! p = Some m' ∧ m_class m' = m_class m ∧ ∀ b, holds t b m' = holds t b m.
Proof.
  intros W Hm Hn Hv Ho. pose proof (others_inv _ _ _ W Ho) as W'.
  assert (Hg : ∃ b, 0 < holds t b m).
  { unfold view in Hv. destruct (Nat.ltb_spec 0 (holds t true m)); [by exists true|].
    destruct (holds t false m) eqn:E; [done|]. exists false. lia. }
  destruct Hg as [b Hb]. rewrite (li_held w W p m t b Hm Hn) in Hb. apply count_pos_iff in Hb as (g & Hin & _ & Hp & _).
  destruct (others_class t p w w' g Ho Hin Hp m Hm) as (m' & Hm' & Ec). exists m'. split; [done|]. split; [done|].
  intros c. rewrite (li_held w' W' p m' t c Hm') by congruence.
  rewrite (li_held w W p m t c Hm Hn). by rewrite (others_stack _ _ _ Ho).
Qed.

(** The constructor of a guard. *)
Lemma scope_new_spec t h w p m : mutexes w !! p = Some m → fits (m_class m) h = true → is_null (m_class m) = false →
  lexec (LScope t h p 0) w =
    if free_for (exclusive h) (holders m) then
      Ret tt (mkLocking (<[p := add_hold t (exclusive h) m]> (mutexes w))
                        (<[t := mkGuard h p true :: stack w t]> (stacks w)))
    else Fault Deadlock.
Proof.
  intros Hm Hf Hn. simpl. unfold scope_new. set (w1 := set_stack t (mkGuard h p false :: stack w t) w).
  assert (Hs : stack w1 t = mkGuard h p false :: stack w t) by (unfold w1; by rewrite stack_set, decide_True).
  rewrite (scope_lock_spec w1 t 0 (mkGuard h p false) m 0) by (done || by rewrite Hs). rewrite Hn. cbn [orb andb Z.eqb g_how].
  destruct (free_for _ _); [|done]. f_equal. unfold with_guard. rewrite Hs. unfold w1, set_stack. simpl.
  by rewrite insert_insert_eq.
Qed.

Lemma acquire_view_spec h t m : exclusion m →
  acquire_view h (view t m) =
    if bool_decide (holds t true m = 0 ∧ (exclusive h = true → holds t false m = 0)) then
      Ret tt (if exclusive h then Exclusive else Shared (S (holds t false m)))
    else Fault Deadlock.
Proof.
  intros He. unfold acquire_view, view. destruct (Nat.ltb_spec 0 (holds t true m)) as [H|H].
  - rewrite bool_decide_eq_false_2 by lia. by destruct (exclusive h).
  - destruct (exclusive h), (holds t false m) eqn:E; unfold wrlock, rdlock, mbind', mget, mput, mfault.
    + by rewrite bool_decide_eq_true_2 by lia.
    + rewrite bool_decide_eq_false_2; [done|]. intros [_ Hf]. by specialize (Hf eq_refl).
    + rewrite bool_decide_eq_true_2; [done|]. split; [lia|done].
    + rewrite bool_decide_eq_true_2; [done|]. split; [lia|done].
Qed.

(** Free for [t] when nobody else holds it is what [Locks] asks. *)
Lemma alone_free t b m : (∀ t' c, (t', c) ∈ holders m → t' = t) →
  holds t true m = 0 → (b = true → holds t false m = 0) → free_for b (holders m) = true.
Proof.
  intros Ht H1 H2. apply free_for_spec. intros t' c Hin. pose proof (Ht t' c Hin) as ->. apply holds_pos in Hin.
  destruct c; [lia|]. destruct b; [|done]. specialize (H2 eq_refl). lia.
Qed.
Lemma held_not_free t b m : free_for b (holders m) = true → holds t true m = 0 ∧ (b = true → holds t false m = 0).
Proof.
  intros H. assert (Hz : ∀ c, holds t c m ≠ 0 → b = false ∧ c = false).
  { intros c Hc. apply (proj1 (free_for_spec _ _) H t). apply holds_pos. lia. }
  split; [|intros ->]; apply Nat.eq_dne; intros Hc; by destruct (Hz _ Hc).
Qed.
Lemma view_add t b m : is_null (m_class m) = false → holds t true m = 0 → (b = true → holds t false m = 0) →
  view t (add_hold t b m) = if b then Exclusive else Shared (S (holds t false m)).
Proof.
  intros Hn H1 H2. unfold view. rewrite !holds_add, H1 by done. destruct b.
  - by rewrite (bit_true (t = t ∧ true = true)) by naive_solver.
  - rewrite (bit_false (t = t ∧ false = true)) by naive_solver.
    by rewrite (bit_true (t = t ∧ false = false)) by naive_solver.
Qed.
Lemma view_drop t b m : exclusion m → is_null (m_class m) = false → (t, b) ∈ holders m →
  unlock (view t m) = Ret tt (view t (drop_hold t m)).
Proof.
  intros He Hn Hin. pose proof Hin as Hp. apply holds_pos in Hp.
  assert (Hc : ∀ c, holds t c (drop_hold t m) + bit (t = t ∧ b = c) = holds t c m).
  { intros c. unfold drop_hold. rewrite Hn. apply holds_remove; [done|].
    intros c' Hc'. by apply (one_kind m t). }
  assert (Hz : ∀ c, c ≠ b → holds t c m = 0).
  { intros c Hcb. destruct (holds t c m) eqn:E; [done|]. destruct Hcb. apply (one_kind m t); [done|done|].
    apply holds_pos. lia. }
  pose proof (Hc true) as Ht. pose proof (Hc false) as Hf. unfold view. destruct b.
  - rewrite bit_true in Ht by naive_solver. rewrite bit_false in Hf by naive_solver.
    rewrite (Hz false) in Hf |- * by done.
    assert (H1 : holds t true m = 1) by (unfold holds; by rewrite (He t Hin), filter_cons_True).
    replace (holds t true (drop_hold t m)) with 0 by lia. replace (holds t false (drop_hold t m)) with 0 by lia.
    by rewrite H1.
  - rewrite bit_true in Hf by naive_solver. rewrite bit_false in Ht by naive_solver.
    rewrite (Hz true) in Ht |- * by done. replace (holds t true (drop_hold t m)) with 0 by lia.
    replace (holds t false m) with (S (holds t false (drop_hold t m))) by lia.
    cbn [Nat.ltb Nat.leb]. by destruct (holds t false (drop_hold t m)).
Qed.

(** ** The theorems *)

(** C15: In every interleaving of threads that make, use and leave scoped locks
    of any class, each mutex is held exactly by the guards that say so, in
    m_locked, and a thread that holds it exclusively holds it alone. A step
    returns, or throws what the C library refused and changes nothing, or it
    waits for a lock that somebody holds in a way that excludes the request.
    So no unlock fails, no destructor of a guard throws, and no mutex is
    destroyed while it is held. *)
Theorem guards_exclude w o : lreach w → lop_ok w o →
  (∀ p m t b, mutexes w !! p = Some m → is_null (m_class m) = false →
     holds t b m = guards_on p b (stack w t)) ∧
  (∀ p m t, mutexes w !! p = Some m → (t, true) ∈ holders m → holders m = [(t, true)]) ∧
  match lexec o w with
  | Ret _ w' => lreach w'
  | Throw e w' => refused w o e w'
  | Fault f => f = Deadlock ∧ answer o = Some 0%Z ∧ ∃ h p, asks w o = Some (h, p) ∧ taken w h p
  end.
Proof.
  intros H Hok. pose proof (lreach_lock_inv w H) as W. pose proof (lexec_result w o W Hok) as Hr.
  split; [|split].
  - intros p m t b. apply (li_held w W).
  - intros p m t Hm. by apply (li_excl w W p).
  - destruct (lexec o w) as [[] w'|e w'|f] eqn:E; [|by destruct Hr|done].
    eapply lreach_step; [done|]. by apply lstep_ret.
Qed.

(** C16: Locks is what one thread sees of a lock that others use too. When
    Locks lets the thread have the lock, the others need only leave their
    guards and the guard is constructed, with the effect that Locks gives it;
    when Locks says deadlock, the constructor waits whatever the others do;
    what the thread holds stays with it under all steps of the others, and
    unlocking is the unlock of Locks. *)
Theorem locks_view w t h p m : lreach w → mutexes w !! p = Some m → is_null (m_class m) = false →
  fits (m_class m) h = true →
  match acquire_view h (view t m) with
  | Ret _ l => ∃ w' w'' m'', others t w w' ∧ lexec (LScope t h p 0) w' = Ret tt w'' ∧
      mutexes w'' !! p = Some m'' ∧ view t m'' = l
  | Throw _ _ => False
  | Fault f => f = Deadlock ∧ ∀ w', others t w w' → lexec (LScope t h p 0) w' = Fault Deadlock
  end ∧
  (∀ w', others t w w' → view t m ≠ Unlocked → ∃ m', mutexes w' !! p = Some m' ∧ view t m' = view t m) ∧
  (∀ i g, stack w t !! i = Some g → g_mutex g = p → g_locked g = true →
     ∃ w' m', lexec (LUnlock t i) w = Ret tt w' ∧ mutexes w' !! p = Some m' ∧
       unlock (view t m) = Ret tt (view t m')).
Proof.
  intros H Hm Hn Hf. pose proof (lreach_lock_inv w H) as W. pose proof (li_excl w W p m Hm) as He.
  split; [|split].
  - rewrite (acquire_view_spec h t m He). case_bool_decide as Hv; [destruct Hv as [H1 H2]|].
    + destruct (others_leave t w p m W Hm Hn) as (w' & m' & Ho & Hm' & Ec & Hal & Hh).
      assert (H1' : holds t true m' = 0) by (by rewrite Hh).
      assert (H2' : exclusive h = true → holds t false m' = 0) by (intros; rewrite Hh; auto).
      exists w'. eexists. exists (add_hold t (exclusive h) m'). split; [done|].
      rewrite (scope_new_spec t h w' p m'), (alone_free t) by congruence || done. split; [done|].
      split; [apply lookup_insert_eq|]. rewrite view_add, Hh by congruence || done. done.
    + split; [done|]. intros w' Ho. assert (Hvw : view t m ≠ Unlocked).
      { unfold view. destruct (Nat.ltb_spec 0 (holds t true m)); [done|].
        destruct (holds t false m) eqn:E; [|done]. destruct Hv. split; [lia|done]. }
      destruct (others_view t w w' p m W Hm Hn Hvw Ho) as (m' & Hm' & Ec & Hh).
      rewrite (scope_new_spec t h w' p m') by congruence.
      destruct (free_for _ _) eqn:E; [|done]. apply (held_not_free t) in E. rewrite !Hh in E. done.
  - intros w' Ho Hv. destruct (others_view t w w' p m W Hm Hn Hv Ho) as (m' & Hm' & _ & Hh).
    exists m'. split; [done|]. by apply view_ext.
  - intros i g Hg Hp Hl. subst p. destruct (scope_unlock_spec w t i g m W Hg Hl Hm) as [E _].
    eexists. exists (drop_hold t m). split; [exact E|]. split; [apply lookup_insert_eq|].
    eapply view_drop; [done|done|]. by apply (locked_holds w t i g m).
Qed.

(** ** A read-write lock, its writer and two readers *)

Definition after_op (o : lop) (w : locking) : locking :=
  match lexec o w with Ret _ w' | Throw _ w' => w' | Fault _ => w end.
Lemma after_reach o w w' : lreach w → lop_ok w o → lexec o w = Ret tt w' → lreach (after_op o w).
Proof. intros H Hok E. unfold after_op. rewrite E. eapply lreach_step; [done|]. by apply lstep_ret. Qed.

Definition demo_written : locking := after_op (LScope 1 ScopedWr 5 0) (after_op (LNew 5 RWMutex 0) locking_start).
Definition demo_read : locking := after_op (LScope 3 ScopedRd 5 0) (after_op (LScope 2 ScopedRd 5 0)
  (after_op (LLeave 1) demo_written)).
Lemma demo_written_reach : lreach demo_written.
Proof.
  eapply after_reach; [eapply after_reach; [apply lreach_start|done|done]| |vm_compute; reflexivity].
  eexists. split; [by vm_compute|done].
Qed.
Lemma demo_read_reach : lreach demo_read.
Proof.
  eapply after_reach; [|eexists; split; [by vm_compute|done]|vm_compute; reflexivity].
  eapply after_reach; [|eexists; split; [by vm_compute|done]|vm_compute; reflexivity].
  eapply after_reach; [apply demo_written_reach|by vm_compute|vm_compute; reflexivity].
Qed.

Lemma guards_exclude_witness :
  lexec (LScope 2 ScopedRd 5 0) demo_written = Fault Deadlock ∧
  taken demo_written ScopedRd 5 ∧
  match lexec (LScope 2 ScopedRd 5 11) demo_read with
  | Ret _ w' => lreach w'
  | Throw e w' => refused demo_read (LScope 2 ScopedRd 5 11) e w'
  | Fault f => False
  end.
Proof.
  assert (E : lexec (LScope 2 ScopedRd 5 0) demo_written = Fault Deadlock) by (vm_compute; reflexivity).
  destruct (guards_exclude demo_written (LScope 2 ScopedRd 5 0) demo_written_reach) as (_ & _ & H).
  { eexists. split; [by vm_compute|done]. }
  split; [done|]. rewrite E in H. split.
  - destruct H as (_ & _ & h & p & Hk & Ht). injection Hk as <- <-. exact Ht.
  - destruct (guards_exclude demo_read (LScope 2 ScopedRd 5 11) demo_read_reach) as (_ & _ & H2).
    { eexists. split; [by vm_compute|done]. }
    destruct (lexec (LScope 2 ScopedRd 5 11) demo_read) as [|e w'|f] eqn:E2; [done|done|].
    destruct H2 as (-> & Ha & _). discriminate Ha.
Defined.

Lemma locks_view_witness :
  (∃ w' w'' m'', others 2 demo_written w' ∧ lexec (LScope 2 ScopedRd 5 0) w' = Ret tt w'' ∧
     mutexes w'' !! 5 = Some m'' ∧ view 2 m'' = Shared 1) ∧
  ∀ w', others 1 demo_written w' → lexec (LScope 1 ScopedRd 5 0) w' = Fault Deadlock.
Proof.
  split.
  - exact (proj1 (locks_view demo_written 2 ScopedRd 5 (mkMutex RWMutex [(1, true)]) demo_written_reach
      eq_refl eq_refl eq_refl)).
  - exact (proj2 (proj1 (locks_view demo_written 1 ScopedRd 5 (mkMutex RWMutex [(1, true)]) demo_written_reach
      eq_refl eq_refl eq_refl))).
Defined.
