(* ===== verification/Threads.v ===== *)
(** * Threads and semaphores (thread/thread.cpp, thread/semaphore.cpp)

    Objects of class Thread live in a heap by address, an address is used once;
    the threads of the system are numbered, which is the pthread_t (null is
    [None]) and the answer of getThreadId. A system thread runs Thread::run one
    statement at a time ([pc]), so that its steps interleave with those of the
    thread that constructs the object, and of all others. What a callback does
    is opaque; while it runs, its thread may call any of the functions. The
    name given to pthread_setname_np is [s_comm]; it and t_thread_name, which a
    thread inherits at first and [run] sets, are empty until then. *)

From Stdlib Require Import Ascii String.
From S2P Require Import Prelude Strings.
#[local] Open Scope Z_scope.

Definition callback := nat.

Record Thread := mkThread {
  m_id : Z;
  m_thread : option nat;
  m_cb : option callback;
  m_name : string;
  m_count : Z;                  (* of m_semaphore *)
}.

(** The next statement of [Thread::run]. *)
Inductive pc :=
| AtStart                       (* t_thread = thread *)
| AtId                          (* thread->setId(...) *)
| AtName                        (* thread->setNameStatic(...), pthread_setname_np *)
| AtSwap                        (* cb.swap(thread->m_cb) *)
| AtNotify (cb : option callback)
| AtCall (cb : option callback)
| InCall
| Finished.
#[global] Instance pc_eq_dec : EqDecision pc.
Proof. solve_decision. Defined.

(** A thread of the system: the argument of [run], where it is, its
    thread_local variables, what it has called. *)
Record systhread := mkSys {
  s_arg : nat;
  s_pc : pc;
  t_thread : option nat;
  t_thread_name : string;
  s_comm : string;
  s_called : list callback;
  s_joinable : bool;            (* neither joined nor detached *)
}.
Record threads := mkThreads {
  objects : gmap nat Thread;
  system : gmap nat systhread;
  next : nat;                   (* the first address and number not used yet *)
}.

Definition set_objects o w := mkThreads o (system w) (next w).
Definition set_system s w := mkThreads (objects w) s (next w).

Definition object (p : nat) : M threads Thread := λ w,
  match objects w !! p with Some t => Ret t w | None => Fault Dangling end.
(** A write to a member. *)
Definition write (p : nat) (f : Thread → Thread) : M threads unit :=
  t <- object p;; mmodify (λ w, set_objects (<[p := f t]> (objects w)) w).
Definition sys (h : nat) : M threads systhread := λ w,
  match system w !! h with Some s => Ret s w | None => Fault AssertFailed end.
Definition write_sys (h : nat) (f : systhread → systhread) : M threads unit :=
  s <- sys h;; mmodify (λ w, set_system (<[h := f s]> (system w)) w).

Definition with_id id t := mkThread id (m_thread t) (m_cb t) (m_name t) (m_count t).
Definition with_handle h t := mkThread (m_id t) h (m_cb t) (m_name t) (m_count t).
Definition with_cb c t := mkThread (m_id t) (m_thread t) c (m_name t) (m_count t).
Definition with_name n t := mkThread (m_id t) (m_thread t) (m_cb t) n (m_count t).
Definition with_count n t := mkThread (m_id t) (m_thread t) (m_cb t) (m_name t) n.
Definition at_pc i s := mkSys (s_arg s) i (t_thread s) (t_thread_name s) (s_comm s) (s_called s) (s_joinable s).
Definition with_this p s := mkSys (s_arg s) (s_pc s) p (t_thread_name s) (s_comm s) (s_called s) (s_joinable s).
Definition with_local_name n s :=
  mkSys (s_arg s) (s_pc s) (t_thread s) n (s_comm s) (s_called s) (s_joinable s).
Definition with_comm n s :=
  mkSys (s_arg s) (s_pc s) (t_thread s) (t_thread_name s) n (s_called s) (s_joinable s).
Definition with_called l s :=
  mkSys (s_arg s) (s_pc s) (t_thread s) (t_thread_name s) (s_comm s) l (s_joinable s).
Definition with_joinable b s :=
  mkSys (s_arg s) (s_pc s) (t_thread s) (t_thread_name s) (s_comm s) (s_called s) b.

(** ** class Semaphore *)

Definition SEM_VALUE_MAX : Z := 2 ^ 31 - 1.

(** [wait]: the results of the calls of sem_wait; one that returns 0 takes from
    a positive count, the others were interrupted. No more results is a call
    that does not return. *)
Fixpoint Semaphore_wait (p : nat) (results : list Z) : M threads unit :=
  match results with
  | [] => mfault Deadlock
  | r :: results =>
    if r =? 0 then
      t <- object p;;
      if 0 <? m_count t then write p (with_count (m_count t - 1)) else mfault Deadlock
    else Semaphore_wait p results
  end.
Definition Semaphore_notify (p : nat) : M threads unit :=
  t <- object p;;
  if SEM_VALUE_MAX <=? m_count t then mthrow (runtime_error "sem_post failed, rt = " [-1])
  else write p (with_count (m_count t + 1)).

(** ** class Thread: the constructor and Thread::run *)

(** The constructor until it waits; [rt] is the answer of pthread_create. *)
Definition Thread_begin (cb : callback) (name : string) (rt : Z) : M threads nat :=
  w <- mget;;
  let p := next w in
  mput (mkThreads (<[p := mkThread (-1) None (Some cb) name 0]> (objects w)) (system w) (S p));;
  if rt =? 0 then
    w <- mget;;
    let h := next w in
    mput (mkThreads (objects w)
      (<[h := mkSys p AtStart None "" "" [] true]> (system w)) (S h));;
    write p (with_handle (Some h));; mreturn p
  else
    mmodify (λ w, set_objects (delete p (objects w)) w);;
    mthrow (runtime_error ("pthread create failed, rt = , name=" +:+ name) [rt]).
(** [m_semaphore.wait()]; the constructor returns. *)
Definition Thread_ready (p : nat) (results : list Z) : M threads unit := Semaphore_wait p results.

Definition setId (p : nat) (id : Z) : M threads unit := write p (with_id id).
Definition getId (p : nat) : M threads Z := t <- object p;; mreturn (m_id t).
Definition setName (p : nat) (name : string) : M threads unit := write p (with_name name).
Definition getName (p : nat) : M threads string := t <- object p;; mreturn (m_name t).

(** The static functions, called by the system thread [h]. *)
Definition getThis (h : nat) : M threads (option nat) := s <- sys h;; mreturn (t_thread s).
Definition getNameStatic (h : nat) : M threads string := s <- sys h;; mreturn (t_thread_name s).
Definition setNameStatic (h : nat) (name : string) : M threads unit :=
  s <- sys h;;
  (match t_thread s with Some p => setName p name | None => mreturn tt end);;
  write_sys h (with_local_name name).
Definition getIdStatic (h : nat) : M threads Z :=
  s <- sys h;; match t_thread s with Some p => getId p | None => mreturn (-1) end.
Definition setIdStatic (h : nat) (id : Z) : M threads unit :=
  s <- sys h;; match t_thread s with Some p => setId p id | None => mreturn tt end.

(** One statement of [run(arg)] on the system thread [h]; the callback begins
    and ends. *)
Definition run (h : nat) : M threads unit :=
  s <- sys h;;
  let thread := s_arg s in
  match s_pc s with
  | AtStart => write_sys h (with_this (Some thread));; write_sys h (at_pc AtId)
  | AtId => setId thread (Z.of_nat h);; write_sys h (at_pc AtName)
  | AtName =>
    name <- getName thread;; setNameStatic h name;;
    name <- getName thread;; write_sys h (with_comm (substr name 0 15));; write_sys h (at_pc AtSwap)
  | AtSwap =>
    t <- object thread;; write thread (with_cb None);; write_sys h (at_pc (AtNotify (m_cb t)))
  | AtNotify cb => Semaphore_notify thread;; write_sys h (at_pc (AtCall cb))
  | AtCall cb =>
    match cb with
    | Some c => write_sys h (with_called (s_called s ++ [c]));; write_sys h (at_pc InCall)
    | None => mfault Terminate                     (* std::bad_function_call *)
    end
  | InCall => write_sys h (at_pc Finished)
  | Finished => mreturn tt
  end.

(** [join()] by the thread [self] ([None] is the main thread): it returns when
    the thread has ended; waiting for oneself is an error (EDEADLK). *)
Definition EDEADLK : Z := 35.
Definition join (self : option nat) (p : nat) : M threads unit :=
  t <- object p;;
  match m_thread t with
  | None => mreturn tt
  | Some h =>
    if decide (self = Some h) then mthrow (runtime_error ("pthread join failed, rt = , name=" +:+ m_name t) [EDEADLK])
    else
      s <- sys h;;
      if decide (s_joinable s = false) then mfault AssertFailed     (* joined or detached before *)
      else if decide (s_pc s = Finished) then
        write_sys h (with_joinable false);; write p (with_handle None)
      else mfault Deadlock                                          (* still waiting *)
  end.

(** [~Thread()] *)
Definition Thread_delete (p : nat) : M threads unit :=
  t <- object p;;
  (match m_thread t with
   | Some h => s <- sys h;;
               if decide (s_joinable s = false) then mfault AssertFailed
               else write_sys h (with_joinable false)
   | None => mreturn tt
   end);;
  mmodify (λ w, set_objects (delete p (objects w)) w).

Definition threads_init : threads := mkThreads ∅ ∅ 0.
Example thread_1 :
  match (p <- Thread_begin 7%nat "worker" 0;;
         run 1;; run 1;; run 1;; run 1;; run 1;; Thread_ready p [-1; 0];; run 1;; run 1;;
         id <- getIdStatic 1;; join None p;; Thread_delete p;; mreturn id) threads_init with
  | Ret id w => id = 1 ∧ objects w = ∅ ∧ (s_called <$> system w !! 1%nat) = Some [7%nat]
  | _ => False
  end.
Proof. vm_compute. auto. Qed.
