(* ===== verification/ThreadsSpec.v ===== *)
(** * What the construction of a thread promises

    Over all interleavings: Thread::run never touches an object that is gone
    before it has notified, a callback is called once, the constructor returns
    in the end and join only when the callback has returned; and what happens
    to a thread whose object is destroyed while it runs. *)

From Stdlib Require Import Ascii String.
From S2P Require Import Prelude Strings Threads.
#[local] Open Scope Z_scope.

(** [run] has not notified the constructor. *)
Definition early (i : pc) : bool :=
  match i with AtStart | AtId | AtName | AtSwap | AtNotify _ => true | _ => false end.

(** What a thread has called, and what it is going to call. *)
Definition pending (w : threads) (s : systhread) : option callback :=
  match s_pc s with
  | AtStart | AtId | AtName | AtSwap => objects w !! s_arg s ≫= m_cb
  | AtNotify c | AtCall c => c
  | _ => None
  end.
Definition calls (w : threads) (s : systhread) : list callback := s_called s ++ option_list (pending w s).

(** What has been prepared before a statement of [run]. *)
Definition prepared (h : nat) (s : systhread) (t : Thread) : Prop :=
  let named := m_id t = Z.of_nat h ∧ t_thread_name s = m_name t ∧ s_comm s = substr (m_name t) 0 15 in
  match s_pc s with
  | AtName => m_id t = Z.of_nat h
  | AtSwap => named
  | AtNotify _ => named ∧ m_cb t = None
  | _ => True
  end.

Record sys_ok (w : threads) (h : nat) (s : systhread) : Prop := mkSysOk {
  so_bound : (h < next w)%nat ∧ (s_arg s < next w)%nat;
  so_calls : ∃ c, calls w s = [c];
  so_called : s_called s = [] ∨ s_pc s = InCall ∨ s_pc s = Finished;
  so_this : s_pc s ≠ AtStart → t_thread s = Some (s_arg s);
  so_early : early (s_pc s) = true → ∃ t, objects w !! s_arg s = Some t ∧ m_thread t = Some h ∧
    m_count t = 0 ∧ prepared h s t;
}.
Record tinv (w : threads) : Prop := mkTinv {
  ti_sys : ∀ h s, system w !! h = Some s → sys_ok w h s;
  ti_obj : ∀ p t, objects w !! p = Some t → (p < next w)%nat ∧ 0 ≤ m_count t ≤ 1 ∧
    ∀ h, m_thread t = Some h → ∃ s, system w !! h = Some s ∧ s_arg s = p ∧ s_joinable s = true;
  ti_inj : ∀ h h' s s', system w !! h = Some s → system w !! h' = Some s' → s_arg s = s_arg s' → h = h';
}.
(** The constructor of the object has returned. *)
Definition constructed (w : threads) (p : nat) : Prop :=
  (∃ t, objects w !! p = Some t ∧ m_count t = 0) ∧
  ∀ h s, system w !! h = Some s → s_arg s = p → early (s_pc s) = false.

Lemma object_write_run p f w t : objects w !! p = Some t →
  write p f w = Ret tt (set_objects (<[p := f t]> (objects w)) w).
Proof. intros Ht. unfold write, object, mbind'. by rewrite Ht. Qed.
Lemma write_sys_run h f w s : system w !! h = Some s →
  write_sys h f w = Ret tt (set_system (<[h := f s]> (system w)) w).
Proof. intros Hs. unfold write_sys, sys, mbind'. by rewrite Hs. Qed.
Lemma object_run p w t : objects w !! p = Some t → object p w = Ret t w.
Proof. unfold object. by intros ->. Qed.
Lemma sys_run h w s : system w !! h = Some s → sys h w = Ret s w.
Proof. unfold sys. by intros ->. Qed.

(** ** Steps that keep the invariant *)

(** A statement of [run] on the thread [h] with the object [t]. *)
Definition moved (w : threads) (h : nat) (s s' : systhread) (t' : Thread) : threads :=
  mkThreads (<[s_arg s := t']> (objects w)) (<[h := s']> (system w)) (next w).

Section Keep.
Context (w : threads) (Hw : tinv w).

(** Other threads do not see what changes on an object of theirs alone. *)
Lemma sys_ok_other h s p t' o n : sys_ok w h s → s_arg s ≠ p → (next w ≤ n)%nat →
  sys_ok (mkThreads (<[p := t']> (objects w)) o n) h s.
Proof using Type.
  intros [B C D T E] Hp Hn. split; simpl; [lia| |done|done|].
  - destruct C as [c C]. exists c. rewrite <-C. unfold calls, pending. simpl. by rewrite lookup_insert_ne.
  - intros (t & Ht & H)%E. exists t. by rewrite lookup_insert_ne.
Qed.
Lemma sys_ok_late h s o sy n : sys_ok w h s → early (s_pc s) = false → (next w ≤ n)%nat →
  sys_ok (mkThreads o sy n) h s.
Proof using Type.
  intros [B C D T E] Hp Hn. split; simpl; [lia| |done|done|by rewrite Hp].
  destruct C as [c C]. exists c. rewrite <-C. unfold calls, pending. by destruct (s_pc s).
Qed.

(** A thread that is early takes a step. *)
Lemma tinv_moved h s s' t t' : system w !! h = Some s → objects w !! s_arg s = Some t →
  early (s_pc s) = true → s_arg s' = s_arg s → s_joinable s' = s_joinable s →
  m_thread t' = Some h → 0 ≤ m_count t' ≤ 1 → sys_ok (moved w h s s' t') h s' → tinv (moved w h s s' t').
Proof using Hw.
  intros Hs Ht He Ha Hj Hth Hc Hok. destruct Hw as [SY OB IN].
  assert (Hoth : ∀ h' x, h' ≠ h → system w !! h' = Some x → s_arg x ≠ s_arg s).
  { intros h' x Hne Hx Heq. by apply Hne, (IN h' h x s). }
  split; simpl.
  - intros h' x. destruct (decide (h' = h)) as [->|Hne].
    + rewrite lookup_insert_eq. by intros [= <-].
    + rewrite lookup_insert_ne by done. intros Hx. apply sys_ok_other; [by apply SY|by eapply Hoth|done].
  - intros p x. destruct (decide (p = s_arg s)) as [->|Hne].
    + rewrite lookup_insert_eq. intros [= <-]. split; [by apply (OB _ t)|]. split; [done|].
      rewrite Hth. intros h0 [= <-]. exists s'. rewrite lookup_insert_eq. split; [done|]. split; [done|].
      rewrite Hj. destruct (so_early _ _ _ (SY h s Hs) He) as (t0 & Ht0 & Hth0 & _).
      destruct (OB _ _ Ht0) as (_ & _ & Hx). destruct (Hx h Hth0) as (s0 & Hs0 & _ & Hj0). congruence.
    + rewrite lookup_insert_ne by done. intros Hx. destruct (OB _ _ Hx) as (B & C & T).
      split; [done|]. split; [done|]. intros h0 Hh0. destruct (T h0 Hh0) as (s0 & Hs0 & Ha0 & Hj0).
      destruct (decide (h0 = h)) as [->|Hn0]; [congruence|]. exists s0. by rewrite lookup_insert_ne.
  - intros h1 h2 s1 s2. destruct (decide (h1 = h)) as [->|H1], (decide (h2 = h)) as [->|H2];
      rewrite ?lookup_insert_eq, ?lookup_insert_ne by done; try done.
    + intros [= <-] Hx Heq. exfalso. apply (Hoth h2 s2 H2 Hx). congruence.
    + intros Hx [= <-] Heq. exfalso. apply (Hoth h1 s1 H1 Hx). congruence.
    + apply IN.
Qed.

(** A thread that has notified takes a step, or is joined or detached. *)
Lemma tinv_late h s s' : system w !! h = Some s → early (s_pc s) = false → s_arg s' = s_arg s →
  s_joinable s' = s_joinable s → sys_ok (set_system (<[h := s']> (system w)) w) h s' →
  tinv (set_system (<[h := s']> (system w)) w).
Proof using Hw.
  intros Hs He Ha Hj Hok. destruct Hw as [SY OB IN]. split; simpl.
  - intros h' x. destruct (decide (h' = h)) as [->|Hne].
    + rewrite lookup_insert_eq. by intros [= <-].
    + rewrite lookup_insert_ne by done. intros Hx%SY. by destruct Hx.
  - intros p x Hx. destruct (OB _ _ Hx) as (B & C & T). split; [done|]. split; [done|].
    intros h0 Hh0. destruct (T h0 Hh0) as (s0 & Hs0 & Ha0 & Hj0).
    destruct (decide (h0 = h)) as [->|Hn0].
    + exists s'. rewrite lookup_insert_eq. split_and!; congruence.
    + exists s0. by rewrite lookup_insert_ne.
  - intros h1 h2 s1 s2. destruct (decide (h1 = h)) as [->|H1], (decide (h2 = h)) as [->|H2];
      rewrite ?lookup_insert_eq, ?lookup_insert_ne by done; try done.
    + intros [= <-] Hx Heq. apply (IN h h2 s s2); congruence.
    + intros Hx [= <-] Heq. apply (IN h1 h s1 s); congruence.
    + apply IN.
Qed.

(** The object [p], whose thread has notified, changes or is destroyed. *)
Lemma tinv_objects p o' : (∀ q, q ≠ p → o' !! q = objects w !! q) →
  (∀ h s, system w !! h = Some s → s_arg s = p → early (s_pc s) = false) →
  (∀ t', o' !! p = Some t' → (p < next w)%nat ∧ 0 ≤ m_count t' ≤ 1 ∧
     ∀ h, m_thread t' = Some h → ∃ s, system w !! h = Some s ∧ s_arg s = p ∧ s_joinable s = true) →
  tinv (set_objects o' w).
Proof using Hw.
  intros Ho Hl Hp. destruct Hw as [SY OB IN]. split; simpl; [| |done].
  - intros h s Hs. destruct (decide (s_arg s = p)) as [Heq|Hne].
    + apply sys_ok_late; [by apply SY|by eapply Hl|done].
    + destruct (SY h s Hs) as [B C D T E]. split; simpl; [done| |done|done|].
      * destruct C as [c C]. exists c. rewrite <-C. unfold calls, pending. simpl. by rewrite Ho.
      * intros (t & Ht & Hx)%E. exists t. by rewrite Ho.
  - intros q x. destruct (decide (q = p)) as [->|Hne]; [apply Hp|]. rewrite Ho by done. apply OB.
Qed.
Lemma tinv_object p t t' : objects w !! p = Some t →
  (∀ h s, system w !! h = Some s → s_arg s = p → early (s_pc s) = false) →
  m_thread t' = m_thread t → 0 ≤ m_count t' ≤ 1 → tinv (set_objects (<[p := t']> (objects w)) w).
Proof using Hw.
  intros Ht Hl Hth Hc. apply (tinv_objects p); [|done|].
  - intros q Hq. by rewrite lookup_insert_ne.
  - rewrite lookup_insert_eq. intros x [= <-]. rewrite Hth. destruct (ti_obj w Hw _ _ Ht) as (B & _ & T). by split.
Qed.
(** A thread without an object is joined or detached. *)
Lemma tinv_released h s : system w !! h = Some s → early (s_pc s) = false →
  (∀ p t, objects w !! p = Some t → m_thread t ≠ Some h) →
  tinv (set_system (<[h := with_joinable false s]> (system w)) w).
Proof using Hw.
  intros Hs He Hno. destruct Hw as [SY OB IN].
  assert (Harg : ∀ h' x, (<[h := with_joinable false s]> (system w)) !! h' = Some x →
    ∃ y, system w !! h' = Some y ∧ s_arg x = s_arg y).
  { intros h' x. destruct (decide (h' = h)) as [->|Hne].
    - rewrite lookup_insert_eq. intros [= <-]. by exists s.
    - rewrite lookup_insert_ne by done. intros Hx. by exists x. }
  split; simpl.
  - intros h' x. destruct (decide (h' = h)) as [->|Hne].
    + rewrite lookup_insert_eq. intros [= <-]. destruct (SY h s Hs). by split.
    + rewrite lookup_insert_ne by done. intros Hx%SY. by destruct Hx.
  - intros p x Hx. destruct (OB _ _ Hx) as (B & C & T). split; [done|]. split; [done|].
    intros h0 Hh0. destruct (T h0 Hh0) as (s0 & Hs0 & Ha0 & Hj0). exists s0.
    rewrite lookup_insert_ne; [done|]. intros <-. by apply (Hno p x).
  - intros h1 h2 s1 s2 (x1 & H1 & ->)%Harg (x2 & H2 & ->)%Harg. by apply IN.
Qed.
(** A new object with its thread. *)
Lemma tinv_begin cb name : tinv
  (mkThreads (<[next w := mkThread (-1) (Some (S (next w))) (Some cb) name 0]> (objects w))
     (<[S (next w) := mkSys (next w) AtStart None "" "" [] true]> (system w)) (S (S (next w)))).
Proof using Hw.
  destruct Hw as [SY OB IN]. split; simpl.
  - intros h s. destruct (decide (h = S (next w))) as [->|Hne].
    + rewrite lookup_insert_eq. intros [= <-]. split; simpl; [lia| |by left|done|].
      * exists cb. unfold calls, pending. simpl. by rewrite lookup_insert_eq.
      * intros _. eexists. by rewrite lookup_insert_eq.
    + rewrite lookup_insert_ne by done. intros Hs%SY. apply sys_ok_other; [done| |lia].
      destruct Hs as [[_ Ha] _ _ _ _]. lia.
  - intros p t. destruct (decide (p = next w)) as [->|Hne].
    + rewrite lookup_insert_eq. intros [= <-]. simpl. split; [lia|]. split; [lia|].
      intros h [= <-]. eexists. by rewrite lookup_insert_eq.
    + rewrite lookup_insert_ne by done. intros Ht. destruct (OB _ _ Ht) as (B & C & T). split; [lia|].
      split; [done|]. intros h Hh. destruct (T h Hh) as (s & Hs & Hx). exists s.
      rewrite lookup_insert_ne; [done|]. destruct (SY h s Hs) as [[Hb _] _ _ _ _]. lia.
  - assert (Hnew : ∀ h s, h ≠ S (next w) → system w !! h = Some s → s_arg s ≠ next w).
    { intros h s _ Hs. destruct (SY h s Hs) as [[_ Ha] _ _ _ _]. lia. }
    intros h1 h2 s1 s2. destruct (decide (h1 = S (next w))) as [->|H1], (decide (h2 = S (next w))) as [->|H2];
      rewrite ?lookup_insert_eq, ?lookup_insert_ne by done; try done.
    + intros [= <-] Hx Heq. by destruct (Hnew h2 s2).
    + intros Hx [= <-] Heq. by destruct (Hnew h1 s1).
    + apply IN.
Qed.
End Keep.

(** ** The statements of [run] *)

Definition rank (i : pc) : nat :=
  match i with AtStart => 5 | AtId => 4 | AtName => 3 | AtSwap => 2 | AtNotify _ => 1 | _ => 0 end.

(** One rewriting step of a run: an operation on a known object or thread. *)
Ltac trun :=
  erewrite bind_Ret by
    (first [apply sys_run | apply object_run | apply object_write_run | apply write_sys_run];
     simpl; rewrite ?lookup_insert_eq; first [eassumption | reflexivity]).

Lemma run_effect w h s : tinv w → system w !! h = Some s → early (s_pc s) = true →
  ∃ s' t t', objects w !! s_arg s = Some t ∧ run h w = Ret tt (moved w h s s' t') ∧
    rank (s_pc s) = S (rank (s_pc s')) ∧ s_arg s' = s_arg s ∧ s_joinable s' = s_joinable s ∧
    s_called s' = s_called s ∧ t_thread s' = Some (s_arg s) ∧ m_thread t' = Some h ∧
    (if early (s_pc s') then m_count t' = 0 ∧ prepared h s' t' else m_count t' = 1) ∧
    (match s_pc s with AtSwap => s_pc s' = AtNotify (m_cb t) | AtNotify c => s_pc s' = AtCall c
     | _ => m_cb t' = m_cb t ∧ rank (s_pc s') ≠ 1%nat end).
Proof.
  intros Hw Hs He. destruct (ti_sys w Hw h s Hs) as [B C D T E].
  destruct (E He) as (t & Ht & Hth & Hc & Hp).
  assert (Hsame : ∀ x : Thread, objects w !! s_arg s = Some x → <[s_arg s := x]> (objects w) = objects w).
  { intros x Hx. by apply insert_id. }
  unfold prepared in Hp. unfold run.
  rewrite (bind_Ret _ _ _ _ _ (sys_run h w s Hs)). destruct (s_pc s) eqn:Hpc; try done; simpl.
  - exists (at_pc AtId (with_this (Some (s_arg s)) s)), t, t. split; [done|]. split; [|done].
    trun. rewrite (write_sys_run h _ _ (with_this (Some (s_arg s)) s)) by (simpl; by rewrite lookup_insert_eq).
    unfold moved, set_system. simpl. by rewrite insert_insert_eq, Hsame.
  - exists (at_pc AtName s), t, (with_id (Z.of_nat h) t). split; [done|]. split; [|simpl; by rewrite T by done].
    unfold setId. trun. by rewrite (write_sys_run h _ _ s).
  - exists (at_pc AtSwap (with_comm (substr (m_name t) 0 15) (with_local_name (m_name t) s))), t, t.
    split; [done|]. split; [|simpl; rewrite T by done; unfold prepared; naive_solver].
    unfold getName, setNameStatic.
    assert (Hn : with_name (m_name t) t = t) by (by destruct t).
    rewrite (bind_Ret _ _ _ (m_name t) w) by (by trun).
    rewrite (bind_Ret _ _ _ tt (set_system (<[h := with_local_name (m_name t) s]> (system w)) w)).
    2:{ trun. rewrite T by done. unfold setName. trun. rewrite Hn, Hsame by done.
        rewrite (write_sys_run h _ _ s) by done. done. }
    rewrite (bind_Ret _ _ _ (m_name t) (set_system (<[h := with_local_name (m_name t) s]> (system w)) w))
      by (by trun).
    trun. erewrite write_sys_run by (simpl; by rewrite lookup_insert_eq).
    unfold moved, set_system. simpl. by rewrite !insert_insert_eq, Hsame.
  - exists (at_pc (AtNotify (m_cb t)) s), t, (with_cb None t). split; [done|].
    split; [|unfold prepared; simpl in *; rewrite T by done; destruct_and!; by split_and!].
    trun. trun. by rewrite (write_sys_run h _ _ s).
  - exists (at_pc (AtCall cb) s), t, (with_count 1 t). split; [done|]. split; [|simpl; by rewrite T by done].
    rewrite (bind_Ret _ _ _ tt (set_objects (<[s_arg s := with_count 1 t]> (objects w)) w)).
    + by rewrite (write_sys_run h _ _ s).
    + unfold Semaphore_notify. trun. rewrite Hc. simpl. by rewrite (object_write_run _ _ _ t).
Qed.

(** No thread is lost, and each calls what it was going to call. *)
Definition same_calls (w w' : threads) : Prop := ∀ h s, system w !! h = Some s →
  ∃ s', system w' !! h = Some s' ∧ calls w' s' = calls w s.
#[export] Instance same_calls_preorder : PreOrder same_calls.
Proof.
  split.
  - intros w h s Hs. by exists s.
  - intros w1 w2 w3 H1 H2 h s Hs. destruct (H1 h s Hs) as (s2 & Hs2 & E2).
    destruct (H2 h s2 Hs2) as (s3 & Hs3 & E3). exists s3. split; [done|congruence].
Qed.
(** Objects at most change where no thread is early. *)
Lemma same_calls_objects w w' p : tinv w → system w' = system w →
  (∀ h s, system w !! h = Some s → s_arg s = p → early (s_pc s) = false) →
  (∀ q, q ≠ p → objects w' !! q = objects w !! q) → same_calls w w'.
Proof.
  intros Hw Hsy Hl Ho h s Hs. exists s. rewrite Hsy. split; [done|]. unfold calls, pending. f_equal. f_equal.
  destruct (decide (s_arg s = p)) as [Heq|Hne].
  - specialize (Hl h s Hs Heq). by destruct (s_pc s).
  - by rewrite Ho.
Qed.
Lemma same_calls_released w h s : system w !! h = Some s →
  same_calls w (set_system (<[h := with_joinable false s]> (system w)) w).
Proof.
  intros Hs h' x Hx. simpl. destruct (decide (h' = h)) as [->|Hne].
  - exists (with_joinable false s). rewrite lookup_insert_eq. simplify_eq. done.
  - exists x. by rewrite lookup_insert_ne.
Qed.

Lemma run_early w h s : tinv w → system w !! h = Some s → early (s_pc s) = true →
  ∃ s' t', run h w = Ret tt (moved w h s s' t') ∧ tinv (moved w h s s' t') ∧
    same_calls w (moved w h s s' t') ∧ rank (s_pc s) = S (rank (s_pc s')) ∧ s_arg s' = s_arg s ∧
    (early (s_pc s') = false → m_count t' = 1).
Proof.
  intros Hw Hs He. destruct (run_effect w h s Hw Hs He)
    as (s' & t & t' & Ht & Er & Hr & Ha & Hj & Hc & Hth & Hmt & Hearly & Hcb).
  pose proof (ti_sys w Hw h s Hs) as [B [c C] D T E].
  assert (Hcalls : calls (moved w h s s' t') s' = calls w s).
  { unfold calls. rewrite Hc. f_equal. f_equal. unfold pending, moved. simpl. rewrite Ha, lookup_insert_eq, Ht. simpl.
    destruct (s_pc s); try done; try (destruct Hcb, (s_pc s'); done).
    - by rewrite Hcb.
    - by rewrite Hcb. }
  exists s', t'. split; [done|]. split; [|split; [|split_and!; [done|done|]]].
  - apply (tinv_moved w Hw h s s' t t'); try done.
    + destruct (early (s_pc s')); [destruct Hearly; lia|lia].
    + split; simpl.
      * by rewrite Ha.
      * exists c. by rewrite Hcalls.
      * left. rewrite Hc. destruct D as [D|[D|D]]; [done|by rewrite D in He|by rewrite D in He].
      * intros _. by rewrite Ha.
      * intros He'. rewrite He' in Hearly. destruct Hearly as [H1 H2]. exists t'. by rewrite Ha, lookup_insert_eq.
  - intros h' x Hx. destruct (decide (h' = h)) as [->|Hne].
    + exists s'. simpl. rewrite lookup_insert_eq. simplify_eq. done.
    + exists x. simpl. rewrite lookup_insert_ne by done. split; [done|]. unfold calls, pending, moved. simpl.
      rewrite lookup_insert_ne; [done|]. intros Heq. by apply Hne, (ti_inj w Hw h' h x s).
  - intros He'. by rewrite He' in Hearly.
Qed.

Lemma run_late w h s : tinv w → system w !! h = Some s → early (s_pc s) = false → s_pc s ≠ Finished →
  ∃ s', run h w = Ret tt (set_system (<[h := s']> (system w)) w) ∧
    tinv (set_system (<[h := s']> (system w)) w) ∧ same_calls w (set_system (<[h := s']> (system w)) w).
Proof.
  intros Hw Hs He Hf. pose proof (ti_sys w Hw h s Hs) as [B [c C] D T E].
  assert (Hdone : ∀ s', run h w = Ret tt (set_system (<[h := s']> (system w)) w) → s_arg s' = s_arg s →
    s_joinable s' = s_joinable s → t_thread s' = t_thread s → early (s_pc s') = false →
    s_pc s ≠ AtStart → s_called s' = [c] → s_pc s' = InCall ∨ s_pc s' = Finished →
    ∃ s', run h w = Ret tt (set_system (<[h := s']> (system w)) w) ∧
      tinv (set_system (<[h := s']> (system w)) w) ∧ same_calls w (set_system (<[h := s']> (system w)) w)).
  { intros s' Er Ha Hj Ht' He' Hns Hc Hp'. exists s'. split; [done|].
    assert (Hcalls : ∀ o, calls o s' = [c]).
    { intros o. unfold calls, pending. rewrite Hc. by destruct Hp' as [-> | ->]. }
    split.
    - apply (tinv_late w Hw h s s'); try done. split; simpl.
      + by rewrite Ha.
      + by exists c.
      + naive_solver.
      + intros _. rewrite Ht', Ha. by apply T.
      + by rewrite He'.
    - intros h' x Hx. simpl. destruct (decide (h' = h)) as [->|Hne].
      + exists s'. rewrite lookup_insert_eq. simplify_eq. by rewrite Hcalls.
      + exists x. by rewrite lookup_insert_ne. }
  unfold calls, pending in C. destruct (s_pc s) eqn:Hpc; try done.
  - destruct D as [D|[D|D]]; [|done|done]. rewrite D in C. destruct cb as [c'|]; [|done].
    simpl in C. injection C as ->.
    apply (Hdone (at_pc InCall (with_called [c] s))); try done; [|by left].
    unfold run. rewrite (bind_Ret _ _ _ _ _ (sys_run h w s Hs)), Hpc.
    rewrite (bind_Ret _ _ _ _ _ (write_sys_run h _ w s Hs)). rewrite D.
    erewrite write_sys_run by (simpl; by rewrite lookup_insert_eq).
    unfold set_system. simpl. by rewrite insert_insert_eq.
  - simpl in C. rewrite app_nil_r in C. apply (Hdone (at_pc Finished s)); try done; [|by right].
    unfold run. by rewrite (bind_Ret _ _ _ _ _ (sys_run h w s Hs)), Hpc, (write_sys_run h _ w s).
Qed.

(** ** Any use of threads *)

Inductive act :=
| Begin (cb : callback) (name : string) (rt : Z)
| Ready (p : nat) (results : list Z)
| Run (h : nat)
| Join (self : option nat) (p : nat)
| Delete (p : nat)
| SetName (p : nat) (name : string)
| SetId (p : nat) (id : Z)
| SetNameStatic (h : nat) (name : string)
| SetIdStatic (h : nat) (id : Z).

Definition exec (a : act) : M threads unit :=
  match a with
  | Begin cb name rt => Thread_begin cb name rt;; mreturn tt
  | Ready p results => Thread_ready p results
  | Run h => run h
  | Join self p => join self p
  | Delete p => Thread_delete p
  | SetName p name => setName p name
  | SetId p id => setId p id
  | SetNameStatic h name => setNameStatic h name
  | SetIdStatic h id => setIdStatic h id
  end.

(** A callback calls a static function while its object is there. *)
Definition calling (w : threads) (h : nat) : Prop := ∃ s p, system w !! h = Some s ∧ s_pc s = InCall ∧
  t_thread s = Some p ∧ is_Some (objects w !! p).
(** An operation may run: objects are used from the end of their constructor to
    their destructor, and what waits runs when it need not wait any more. *)
Definition allowed (w : threads) (a : act) : Prop :=
  match a with
  | Begin _ _ _ => True
  | Ready p results => (∃ t, objects w !! p = Some t ∧ 0 < m_count t) ∧ 0 ∈ results
  | Run h => ∃ s, system w !! h = Some s ∧ s_pc s ≠ Finished
  | Join self p => constructed w p ∧ ∀ t h s, objects w !! p = Some t → m_thread t = Some h →
      system w !! h = Some s → self = Some h ∨ s_pc s = Finished
  | Delete p | SetName p _ | SetId p _ => constructed w p
  | SetNameStatic h _ | SetIdStatic h _ => calling w h
  end.
(** pthread_create failed, or a thread waits for itself. *)
Definition refused (w : threads) (a : act) : Prop :=
  match a with
  | Begin _ _ rt => rt ≠ 0
  | Join self p => ∃ t h, objects w !! p = Some t ∧ m_thread t = Some h ∧ self = Some h
  | _ => False
  end.

Inductive reachable : threads → Prop :=
| reach_init : reachable threads_init
| reach_step w a w' : reachable w → allowed w a → exec a w = Ret tt w' → reachable w'
| reach_refused w a e w' : reachable w → allowed w a → exec a w = Throw e w' → reachable w'.

(** What an allowed operation does. *)
Definition goes_well (w : threads) (a : act) : Prop :=
  (∃ w', exec a w = Ret tt w' ∧ tinv w' ∧ same_calls w w') ∨
  (refused w a ∧ ∃ e w', exec a w = Throw e w' ∧ tinv w' ∧ same_calls w w').

Lemma wait_run p t w results : objects w !! p = Some t → 0 < m_count t → 0 ∈ results →
  Semaphore_wait p results w = Ret tt (set_objects (<[p := with_count (m_count t - 1) t]> (objects w)) w).
Proof.
  intros Ht Hc. induction results as [|r rs IH]; [by intros ?%elem_of_nil|]. intros Hin. simpl.
  destruct (Z.eqb_spec r 0) as [->|Hr].
  - rewrite (bind_Ret _ _ _ _ _ (object_run p w t Ht)). rewrite (proj2 (Z.ltb_lt _ _)) by done.
    by rewrite (object_write_run _ _ _ t).
  - apply elem_of_cons in Hin as [|Hin]; [congruence|auto].
Qed.

(** A thread that counts up its semaphore is past the notification. *)
Lemma counted_late w p t : tinv w → objects w !! p = Some t → 0 < m_count t →
  ∀ h s, system w !! h = Some s → s_arg s = p → early (s_pc s) = false.
Proof.
  intros Hw Ht Hc h s Hs Ha. destruct (early (s_pc s)) eqn:He; [|done].
  destruct (so_early _ _ _ (ti_sys w Hw h s Hs) He) as (t' & Ht' & _ & Hc' & _). subst. simplify_eq. lia.
Qed.

(** An operation that writes one object whose thread is late. *)
Lemma object_goes_well w a p t t' : tinv w → objects w !! p = Some t →
  (∀ h s, system w !! h = Some s → s_arg s = p → early (s_pc s) = false) →
  m_thread t' = m_thread t → 0 ≤ m_count t' ≤ 1 →
  exec a w = Ret tt (set_objects (<[p := t']> (objects w)) w) → goes_well w a.
Proof.
  intros Hw Ht Hl Hth Hc E. left. eexists. split; [exact E|]. split; [by eapply tinv_object|].
  apply (same_calls_objects w _ p); [done|done|done|]. intros q Hq. simpl. by rewrite lookup_insert_ne.
Qed.
(** The state when a constructor begins to wait. *)
Definition begun (cb : callback) (name : string) (w : threads) : threads :=
  mkThreads (<[next w := mkThread (-1) (Some (S (next w))) (Some cb) name 0]> (objects w))
    (<[S (next w) := mkSys (next w) AtStart None "" "" [] true]> (system w)) (S (S (next w))).
Lemma begin_run cb name w : Thread_begin cb name 0 w = Ret (next w) (begun cb name w).
Proof.
  unfold Thread_begin, mbind', mget, mput, mreturn. simpl.
  erewrite object_write_run by (simpl; by rewrite lookup_insert_eq). unfold set_objects. simpl.
  by rewrite insert_insert_eq.
Qed.
Lemma begin_goes_well w cb name rt : tinv w → goes_well w (Begin cb name rt).
Proof.
  intros Hw. unfold goes_well. simpl exec.
  set (o := <[next w := mkThread (-1) None (Some cb) name 0]> (objects w)).
  destruct (Z.eqb_spec rt 0) as [->|Hrt]; [left|right; split; [done|]].
  - exists (begun cb name w). split; [by rewrite (bind_Ret _ _ _ _ _ (begin_run cb name w))|].
    split; [by apply tinv_begin|]. intros h s Hs. exists s. simpl.
    destruct (so_bound _ _ _ (ti_sys w Hw h s Hs)) as [B1 B2].
    rewrite lookup_insert_ne by lia. split; [done|]. unfold calls, pending. simpl.
    by rewrite lookup_insert_ne by lia.
  - assert (Ho : delete (next w) o = objects w).
    { apply delete_insert_id. destruct (objects w !! next w) as [t|] eqn:Ht; [|done].
      destruct (ti_obj w Hw _ _ Ht) as [B _]. lia. }
    eexists _, (mkThreads (objects w) (system w) (S (next w))). split.
    { unfold Thread_begin, mbind', mget, mput, mmodify, mthrow, set_objects. simpl.
      rewrite (proj2 (Z.eqb_neq _ _)) by done. simpl. fold o. by rewrite Ho. }
    split.
    + destruct Hw as [SY OB IN]. split; simpl; [| |done].
      * intros h s Hs%SY. destruct Hs. split; simpl; [lia|done..].
      * intros p t Ht. destruct (OB _ _ Ht) as (B & HB). split; [lia|done].
    + intros h s Hs. by exists s.
Qed.

(** join and the destructor: the object lets go of its thread, [o'] is what
    becomes of the objects. *)
Lemma released_keeps w p t h s o' : tinv w → objects w !! p = Some t → m_thread t = Some h →
  system w !! h = Some s → constructed w p → (∀ q, q ≠ p → o' !! q = objects w !! q) →
  (∀ t', o' !! p = Some t' → m_count t' = m_count t ∧ m_thread t' = None) →
  let w' := mkThreads o' (<[h := with_joinable false s]> (system w)) (next w) in
  tinv w' ∧ same_calls w w'.
Proof.
  intros Hw Ht Hth Hs [_ Hl] Ho Hp w'.
  destruct (ti_obj w Hw _ _ Ht) as (B & Hc & T). destruct (T h Hth) as (s0 & Hs0 & Ha & Hj). simplify_eq.
  assert (H1 : tinv (set_objects o' w)).
  { apply (tinv_objects w Hw (s_arg s)); [done|done|]. intros t' [-> ->]%Hp. by split. }
  split.
  - apply (tinv_released _ H1 h s); [done|by eapply Hl|]. simpl. intros q t' Ht' Hth'.
    destruct (decide (q = s_arg s)) as [->|Hne]; [apply Hp in Ht' as [_ Ht']; congruence|].
    rewrite Ho in Ht' by done. destruct (ti_obj w Hw _ _ Ht') as (_ & _ & T').
    destruct (T' h Hth') as (s1 & Hs1 & Ha1 & _). congruence.
  - trans (set_objects o' w).
    + by apply (same_calls_objects w _ (s_arg s)).
    + by apply (same_calls_released (set_objects o' w) h s).
Qed.
Lemma handle_of w p t h : tinv w → objects w !! p = Some t → m_thread t = Some h →
  ∃ s, system w !! h = Some s ∧ s_joinable s = true.
Proof.
  intros Hw Ht Hth. destruct (ti_obj w Hw _ _ Ht) as (_ & _ & T). destruct (T h Hth) as (s & Hs & _ & Hj). eauto.
Qed.

Lemma join_goes_well w self p : tinv w → allowed w (Join self p) → goes_well w (Join self p).
Proof.
  intros Hw [Hcon Hend]. pose proof Hcon as [(t & Ht & Hc) Hl]. unfold goes_well. simpl exec. unfold join.
  rewrite (bind_Ret _ _ _ _ _ (object_run p w t Ht)).
  destruct (m_thread t) as [h|] eqn:Hth; [|left; exists w; done].
  destruct (handle_of w p t h Hw Ht Hth) as (s & Hs & Hj).
  destruct (decide (self = Some h)) as [Hself|Hself].
  - right. split; [by exists t, h|]. by eexists _, w.
  - left. destruct (Hend t h s Ht Hth Hs) as [|Hf]; [done|].
    eexists. split.
    { rewrite (bind_Ret _ _ _ _ _ (sys_run h w s Hs)). rewrite decide_False by congruence.
      rewrite decide_True by done. rewrite (bind_Ret _ _ _ _ _ (write_sys_run h _ w s Hs)).
      by rewrite (object_write_run _ _ _ t). }
    apply (released_keeps w p t h s (<[p := with_handle None t]> (objects w))); try done.
    + intros q Hq. by rewrite lookup_insert_ne.
    + rewrite lookup_insert_eq. by intros t' [= <-].
Qed.
Lemma delete_goes_well w p : tinv w → constructed w p → goes_well w (Delete p).
Proof.
  intros Hw Hcon. pose proof Hcon as [(t & Ht & Hc) Hl]. left. simpl exec. unfold Thread_delete.
  rewrite (bind_Ret _ _ _ _ _ (object_run p w t Ht)).
  assert (Ho : ∀ q, q ≠ p → delete p (objects w) !! q = objects w !! q).
  { intros q Hq. by rewrite lookup_delete_ne. }
  assert (Hp : ∀ t', delete p (objects w) !! p = Some t' → False).
  { intros t'. by rewrite lookup_delete_eq. }
  destruct (m_thread t) as [h|] eqn:Hth.
  - destruct (handle_of w p t h Hw Ht Hth) as (s & Hs & Hj). eexists. split.
    { erewrite bind_Ret; [done|]. rewrite (bind_Ret _ _ _ _ _ (sys_run h w s Hs)).
      rewrite decide_False by congruence. by apply write_sys_run. }
    apply (released_keeps w p t h s (delete p (objects w))); try done. by intros t' ?%Hp.
  - exists (set_objects (delete p (objects w)) w). split; [done|]. split.
    + apply (tinv_objects w Hw p); [done|done|by intros t' ?%Hp].
    + by apply (same_calls_objects w _ p).
Qed.

(** The static functions of a callback. *)
Lemma calling_object w h : tinv w → calling w h → ∃ s t, system w !! h = Some s ∧ s_pc s = InCall ∧
  t_thread s = Some (s_arg s) ∧ objects w !! s_arg s = Some t ∧
  ∀ h' s', system w !! h' = Some s' → s_arg s' = s_arg s → early (s_pc s') = false.
Proof.
  intros Hw (s & p & Hs & Hpc & Hp & [t Ht]).
  assert (Hthis : t_thread s = Some (s_arg s)) by (apply (so_this _ _ _ (ti_sys w Hw h s Hs)); congruence).
  rewrite Hthis in Hp. injection Hp as <-. exists s, t. split_and!; try done.
  intros h' s' Hs' Heq. rewrite (ti_inj w Hw h' h s' s Hs' Hs Heq) in Hs'. simplify_eq. by rewrite Hpc.
Qed.
Lemma set_name_goes_well w h name : tinv w → calling w h → goes_well w (SetNameStatic h name).
Proof.
  intros Hw Hcall. destruct (calling_object w h Hw Hcall) as (s & t & Hs & Hpc & Hthis & Ht & Hl).
  set (w1 := set_objects (<[s_arg s := with_name name t]> (objects w)) w).
  assert (H1 : goes_well w (SetName (s_arg s) name)).
  { apply (object_goes_well w _ (s_arg s) t (with_name name t)); try done.
    - apply (ti_obj w Hw _ _ Ht).
    - by apply object_write_run. }
  destruct H1 as [(w1' & E1 & Hw1 & S1)|[[] _]].
  assert (w1' = w1) as ->.
  { simpl in E1. unfold setName in E1. rewrite (object_write_run _ _ _ t Ht) in E1. by injection E1 as <-. }
  left. exists (set_system (<[h := with_local_name name s]> (system w1)) w1). split; [|split].
  - simpl exec. unfold setNameStatic. rewrite (bind_Ret _ _ _ _ _ (sys_run h w s Hs)), Hthis.
    rewrite (bind_Ret _ _ _ tt w1) by done. by apply write_sys_run.
  - apply (tinv_late w1 Hw1 h s (with_local_name name s)); try done; [by rewrite Hpc|].
    destruct (ti_sys w1 Hw1 h s Hs) as [B C D T E]. split; try done. simpl. rewrite Hpc. done.
  - trans w1; [done|]. intros h' x Hx. simpl. destruct (decide (h' = h)) as [->|Hne].
    + exists (with_local_name name s). rewrite lookup_insert_eq. simpl in Hx. simplify_eq. done.
    + exists x. by rewrite lookup_insert_ne.
Qed.

Lemma exec_goes_well w a : tinv w → allowed w a → goes_well w a.
Proof.
  intros Hw Ha. destruct a as [cb name rt|p results|h|self p|p|p name|p id|h name|h id].
  - by apply begin_goes_well.
  - destruct Ha as [(t & Ht & Hc) Hin]. destruct (ti_obj w Hw _ _ Ht) as (_ & Hb & _).
    apply (object_goes_well w _ p t (with_count (m_count t - 1) t)); try done.
    + by apply (counted_late w p t).
    + simpl. lia.
    + by apply wait_run.
  - destruct Ha as (s & Hs & Hf). left. destruct (early (s_pc s)) eqn:He.
    + destruct (run_early w h s Hw Hs He) as (s' & t' & E & H1 & H2 & _). eauto.
    + destruct (run_late w h s Hw Hs He Hf) as (s' & E & H1 & H2). eauto.
  - by apply join_goes_well.
  - by apply delete_goes_well.
  - destruct Ha as [(t & Ht & Hc) Hl]. apply (object_goes_well w _ p t (with_name name t)); try done.
    + simpl. lia.
    + by apply object_write_run.
  - destruct Ha as [(t & Ht & Hc) Hl]. apply (object_goes_well w _ p t (with_id id t)); try done.
    + simpl. lia.
    + by apply object_write_run.
  - by apply set_name_goes_well.
  - destruct (calling_object w h Hw Ha) as (s & t & Hs & Hpc & Hthis & Ht & Hl).
    apply (object_goes_well w _ (s_arg s) t (with_id id t)); try done; [apply (ti_obj w Hw _ _ Ht)|].
    simpl exec. unfold setIdStatic. rewrite (bind_Ret _ _ _ _ _ (sys_run h w s Hs)), Hthis. by apply object_write_run.
Qed.
Lemma threads_reachable w : reachable w → tinv w.
Proof.
  induction 1 as [|w a w' _ IH Ha E|w a e w' _ IH Ha E].
  - by split.
  - destruct (exec_goes_well w a IH Ha) as [(w1 & E1 & H & _)|(_ & e & w1 & E1 & H & _)]; congruence.
  - destruct (exec_goes_well w a IH Ha) as [(w1 & E1 & H & _)|(_ & e' & w1 & E1 & H & _)]; congruence.
Qed.

(** ** The promises *)

(** C13: However constructors, threads, callbacks, joins and destructors interleave,
    each operation that the owners of the objects may call returns, except that
    pthread_create may fail and that a thread cannot join itself; every thread
    calls one callback, that of its constructor, once; before it notifies the
    constructor its id, its names and its callback are in place; and join
    returns when the callback has ended. But a thread whose object is destroyed
    while it runs is left with a dangling pointer, which the static functions
    follow. *)
Theorem thread_runs_once w : reachable w →
  (∀ a, allowed w a → (∃ w', exec a w = Ret tt w' ∧ same_calls w w') ∨
     (refused w a ∧ ∃ e w', exec a w = Throw e w' ∧ same_calls w w')) ∧
  (∀ h s, system w !! h = Some s → ∃ c, calls w s = [c] ∧ (s_called s = [c] → s_pc s = InCall ∨ s_pc s = Finished)) ∧
  (∀ cb name, ∃ p w' h s, Thread_begin cb name 0 w = Ret p w' ∧ system w' !! h = Some s ∧ s_arg s = p ∧
     calls w' s = [cb]) ∧
  (∀ h s cb, system w !! h = Some s → s_pc s = AtNotify cb → ∃ t, objects w !! s_arg s = Some t ∧
     m_id t = Z.of_nat h ∧ t_thread_name s = m_name t ∧ s_comm s = substr (m_name t) 0 15 ∧ m_cb t = None ∧
     t_thread s = Some (s_arg s)) ∧
  (∀ self p w' t h s, join self p w = Ret tt w' → objects w !! p = Some t → m_thread t = Some h →
     system w !! h = Some s → s_pc s = Finished ∧ ∃ c, s_called s = [c]) ∧
  (∀ p h s, constructed w p → system w !! h = Some s → t_thread s = Some p →
     ∃ w', Thread_delete p w = Ret tt w' ∧ getIdStatic h w' = Fault Dangling ∧
       ∀ name, setNameStatic h name w' = Fault Dangling).
Proof.
  intros Hr. pose proof (threads_reachable w Hr) as Hw. split_and!.
  - intros a Ha. destruct (exec_goes_well w a Hw Ha) as [(w' & E & _ & S)|(Hf & e & w' & E & _ & S)]; eauto 8.
  - intros h s Hs. destruct (ti_sys w Hw h s Hs) as [_ [c C] D _ _]. exists c. split; [done|].
    intros Hc. destruct D as [D|D]; [congruence|done].
  - intros cb name. eexists _, _, (S (next w)), _. split; [apply begin_run|].
    simpl. rewrite lookup_insert_eq. split; [done|]. split; [done|]. unfold calls, pending. simpl.
    by rewrite lookup_insert_eq.
  - intros h s cb Hs Hpc. destruct (ti_sys w Hw h s Hs) as [_ _ _ T E].
    destruct E as (t & Ht & _ & _ & Hp); [by rewrite Hpc|]. exists t. unfold prepared in Hp. rewrite Hpc in Hp.
    destruct Hp as [(? & ? & ?) ?]. split_and!; try done. apply T. congruence.
  - intros self p w' t h s E Ht Hth Hs. unfold join in E. rewrite (bind_Ret _ _ _ _ _ (object_run p w t Ht)), Hth in E.
    case_decide; [done|]. rewrite (bind_Ret _ _ _ _ _ (sys_run h w s Hs)) in E. repeat case_decide; try done.
    split; [done|]. destruct (ti_sys w Hw h s Hs) as [_ [c C] _ _ _]. exists c. rewrite <-C.
    unfold calls, pending. rewrite H1. simpl. by rewrite app_nil_r.
  - intros p h s Hcon Hs Hp. destruct (delete_goes_well w p Hw Hcon) as [(w' & E & Hw' & _)|[[] _]].
    simpl exec in E. exists w'. split; [done|].
    assert (Hgone : objects w' !! p = None ∧ ∃ s', system w' !! h = Some s' ∧ t_thread s' = Some p).
    { unfold Thread_delete in E. destruct Hcon as [(t & Ht & _) _].
      rewrite (bind_Ret _ _ _ _ _ (object_run p w t Ht)) in E. destruct (m_thread t) as [h0|].
      - minv E as [] w1 E1. minv E1 as s0 w2 E2. unfold sys in E2.
        destruct (system w !! h0) as [s1|] eqn:Hs1; [|done]. simplify_eq. case_decide; [done|].
        rewrite (write_sys_run h0 _ _ s0 Hs1) in E1. injection E1 as <-. unfold mmodify in E. simplify_eq. simpl.
        split; [apply lookup_delete_eq|]. destruct (decide (h = h0)) as [->|Hne].
        + rewrite lookup_insert_eq. simplify_eq. by eexists.
        + rewrite lookup_insert_ne by done. eauto.
      - unfold mbind', mreturn, mmodify in E. simplify_eq. simpl. split; [apply lookup_delete_eq|eauto]. }
    destruct Hgone as (Hno & s' & Hs' & Hp'). unfold getIdStatic, setNameStatic. split.
    + rewrite (bind_Ret _ _ _ _ _ (sys_run h w' s' Hs')), Hp'. unfold getId. apply bind_Fault. unfold object. by rewrite Hno.
    + intros name. rewrite (bind_Ret _ _ _ _ _ (sys_run h w' s' Hs')), Hp'. apply bind_Fault.
      unfold setName, write. apply bind_Fault. unfold object. by rewrite Hno.
Qed.

(** The constructor of [p] has not returned. *)
Definition constructing (w : threads) (p : nat) : Prop :=
  (∃ h s, system w !! h = Some s ∧ s_arg s = p ∧ early (s_pc s) = true) ∨
  ∃ t, objects w !! p = Some t ∧ 0 < m_count t.

(** C14: A constructor does not wait for ever: from any state in which it waits, at
    most five statements of its own thread let it return, whatever signals
    interrupt it, and then the object is constructed. *)
Theorem thread_constructor_returns w p : reachable w → constructing w p →
  ∃ n h w1, (n ≤ 5)%nat ∧ mfor (replicate n h) run w = Ret tt w1 ∧ ∀ interrupted,
    Forall (λ r, r ≠ 0) interrupted →
    ∃ w2, Thread_ready p (interrupted ++ [0]) w1 = Ret tt w2 ∧ constructed w2 p.
Proof.
  intros Hr. pose proof (threads_reachable w Hr) as Hw. clear Hr.
  assert (Hlast : ∀ w t, tinv w → objects w !! p = Some t → 0 < m_count t → ∀ interrupted,
    ∃ w2, Thread_ready p (interrupted ++ [0]) w = Ret tt w2 ∧ constructed w2 p).
  { clear w Hw. intros w t Hw Ht Hc l. eexists. split.
    { apply (wait_run p t); [done|done|]. apply elem_of_app. right. by left. }
    split; simpl; [|by apply (counted_late w p t)].
    exists (with_count (m_count t - 1) t). rewrite lookup_insert_eq. split; [done|]. simpl.
    destruct (ti_obj w Hw _ _ Ht) as (_ & Hb & _). lia. }
  intros [(h & s & Hs & Ha & He)|(t & Ht & Hc)].
  2:{ exists 0%nat, 0%nat, w. split; [lia|]. split; [done|]. intros l _. by eapply Hlast. }
  assert (Hgen : ∀ r w s, tinv w → system w !! h = Some s → s_arg s = p → early (s_pc s) = true →
    rank (s_pc s) = r → ∃ w1 t, mfor (replicate r h) run w = Ret tt w1 ∧ tinv w1 ∧
      objects w1 !! p = Some t ∧ 0 < m_count t).
  { clear -p. induction r as [|r IH]; intros w s Hw Hs Ha He Hr; [by destruct (s_pc s)|].
    destruct (run_early w h s Hw Hs He) as (s' & t' & E & Hw' & _ & Hr' & Ha' & Hc).
    simpl. rewrite (bind_Ret _ _ _ _ _ E). rewrite Hr in Hr'. injection Hr' as Hr'.
    destruct (early (s_pc s')) eqn:He'.
    - apply (IH _ s'); try done; [simpl; by rewrite lookup_insert_eq|congruence].
    - assert (r = 0%nat) as -> by (rewrite Hr'; by destruct (s_pc s')). eexists _, t'. split; [done|].
      split; [done|]. simpl. rewrite Ha, lookup_insert_eq. split; [done|]. rewrite Hc by done. lia. }
  destruct (Hgen (rank (s_pc s)) w s Hw Hs Ha He eq_refl) as (w1 & t & E & Hw1 & Ht & Hc).
  exists (rank (s_pc s)), h, w1. split; [destruct (s_pc s); simpl; lia|]. split; [done|].
  intros l _. by eapply Hlast.
Qed.

(** A thread in its callback, whose constructor has returned. *)
Definition one_thread : threads :=
  match (Thread_begin 7%nat "worker" 0;; run 1;; run 1;; run 1) threads_init with Ret _ w => w | _ => threads_init end.
Definition in_callback : threads :=
  match (run 1;; run 1;; Thread_ready 0 [-1; 0];; run 1) one_thread with Ret _ w => w | _ => threads_init end.
Lemma runs_reachable n h w w' : reachable w → mfor (replicate n h) run w = Ret tt w' → reachable w'.
Proof.
  revert w. induction n as [|n IH]; intros w Hr E; simpl in E; [by injection E as <-|].
  minv E as [] w1 E1. apply (IH w1); [|done]. unfold run in E1.
  destruct (system w !! h) as [s|] eqn:Hs.
  - destruct (decide (s_pc s = Finished)) as [Hf|Hf].
    + rewrite (bind_Ret _ _ _ _ _ (sys_run h w s Hs)), Hf in E1. by injection E1 as <-.
    + apply (reach_step w (Run h)); [done|by exists s|done].
  - unfold mbind' at 1, sys in E1. by rewrite Hs in E1.
Qed.
Lemma one_thread_reachable : reachable one_thread.
Proof.
  apply (runs_reachable 3 1 (begun 7%nat "worker" threads_init)); [|vm_compute; reflexivity].
  eapply (reach_step _ (Begin 7%nat "worker" 0)); [constructor|done|vm_compute; reflexivity].
Qed.
Lemma in_callback_reachable : reachable in_callback.
Proof.
  set (w1 := match mfor (replicate 2 1%nat) run one_thread with Ret _ w => w | _ => one_thread end).
  assert (H1 : reachable w1) by (apply (runs_reachable 2 1 one_thread); [apply one_thread_reachable|reflexivity]).
  set (w2 := match Thread_ready 0 [-1; 0] w1 with Ret _ w => w | _ => w1 end).
  assert (H2 : reachable w2).
  { apply (reach_step w1 (Ready 0 [-1; 0])); [done| |reflexivity]. split; [by eexists|]. right. left. }
  apply (runs_reachable 1 1 w2); [done|]. vm_compute. reflexivity.
Qed.
Lemma thread_runs_once_witness :
  let s := mkSys 0 InCall (Some 0%nat) "worker" "worker" [7%nat] true in
  calls in_callback s = [7%nat] ∧
  ∃ w', Thread_delete 0 in_callback = Ret tt w' ∧ getIdStatic 1 w' = Fault Dangling.
Proof.
  intros s. destruct (thread_runs_once in_callback in_callback_reachable) as (_ & H2 & _ & _ & _ & H6).
  assert (Hs : system in_callback !! 1%nat = Some s) by (vm_compute; reflexivity). split.
  - destruct (H2 1%nat s Hs) as (c & Hc & _). rewrite Hc. vm_compute in Hc. symmetry. exact Hc.
  - destruct (H6 0%nat 1%nat s) as (w' & E & Hd & _); [|exact Hs|reflexivity|by exists w'].
    split; [by eexists|]. intros h x Hx _.
    assert (Hsys : system in_callback = {[1%nat := s]}) by (vm_compute; reflexivity).
    rewrite Hsys in Hx. apply lookup_singleton_Some in Hx as [_ <-]. reflexivity.
Defined.
Lemma thread_constructor_returns_witness : ∃ n h w1 w2, mfor (replicate n h) run one_thread = Ret tt w1 ∧
  Thread_ready 0 [-1; -1; 0] w1 = Ret tt w2 ∧ constructed w2 0.
Proof.
  destruct (thread_constructor_returns one_thread 0 one_thread_reachable) as (n & h & w1 & _ & E & H).
  { left. eexists 1%nat, _. split; [reflexivity|]. split; reflexivity. }
  destruct (H [-1; -1]) as (w2 & E2 & Hc); [by repeat constructor|]. by exists n, h, w1, w2.
Defined.
