(* ===== verification/LogFormat.v ===== *)
(** * Levels, events and formatters of the log (log/loglevel.cpp, logevent.cpp,
    logformatitem.cpp, logformatter.cpp)

    A formatter is built from a format string once; its items print an event.
    Text is appended to a stream, so an item is the text it prints. What
    localtime_r and strftime make of a time and a format is the argument
    [strftime]. *)

From Stdlib Require Import Ascii String.
From S2P Require Import Prelude Strings.
#[local] Open Scope Z_scope.

(** ** class LogLevel *)

Inductive Level := UNKNOWN | DEBUG | INFO | WARN | ERROR | FATAL.
#[global] Instance Level_eq_dec : EqDecision Level.
Proof. solve_decision. Defined.
(** The values of the enumeration, which the code compares. *)
Definition level_num (l : Level) : Z :=
  match l with UNKNOWN => 0 | DEBUG => 1 | INFO => 2 | WARN => 3 | ERROR => 4 | FATAL => 5 end.
Definition level_lt (a b : Level) : bool := level_num a <? level_num b.

Definition getLevelName (level : Level) : string :=
  match level with
  | DEBUG => "DEBUG" | INFO => "INFO" | WARN => "WARN" | ERROR => "ERROR" | FATAL => "FATAL"
  | UNKNOWN => "UNKNOWN"
  end.
Definition getLevelByName (level_name : string) : Level :=
  if decide (toUpper level_name = "DEBUG") then DEBUG
  else if decide (toUpper level_name = "INFO") then INFO
  else if decide (toUpper level_name = "WARN") then WARN
  else if decide (toUpper level_name = "ERROR") then ERROR
  else if decide (toUpper level_name = "FATAL") then FATAL
  else UNKNOWN.

(** ** class LogEvent *)

Record LogEvent := mkEvent {
  m_level : Level;
  m_file : string;
  m_line : Z;
  m_elapse : Z;
  m_thread_id : Z;
  m_fiber_id : Z;
  m_time : Z;
  m_ss : string;           (* the stream of the message *)
  m_thread_name : string;
}.
Definition LogEvent_create (level : Level) (filename : string) (line elapse thread_id fiber_id time : Z)
    (thread_name : string) : LogEvent :=
  mkEvent level filename line elapse thread_id fiber_id time "" thread_name.
(** [getMessageStream() << text], and setMessageStream, where vasprintf has
    made the text. *)
Definition append_message (text : string) (e : LogEvent) : LogEvent :=
  mkEvent (m_level e) (m_file e) (m_line e) (m_elapse e) (m_thread_id e) (m_fiber_id e) (m_time e)
    (m_ss e +:+ text) (m_thread_name e).
Definition setMessageStream (vasprintf : option string) (e : LogEvent) : LogEvent :=
  match vasprintf with None => e | Some buf => append_message buf e end.

(** ** class LogFormatItem and its subclasses *)

Inductive LogFormatItem :=
| LevelLogFormatItem (m_str : string)
| FilenameLogFormatItem (m_str : string)
| LineLogFormatItem (m_str : string)
| NameLogFormatItem (m_str : string)
| ElapseLogFormatItem (m_str : string)
| ThreadIdLogFormatItem (m_str : string)
| FiberIdLogFormatItem (m_str : string)
| DateTimeLogFormatItem (m_str m_format : string)
| MessageLogFormatItem (m_str : string)
| ThreadNameLogFormatItem (m_str : string)
| NewLineLogFormatItem (m_str : string)
| StringLogFormatItem (m_str : string)
| TabLogFormatItem (m_str : string).

Definition newline : string := one (to_char 10).
Definition tab : string := one (to_char 9).

Section Format.
Context (strftime : Z → string → string).

Definition getDateTime (time : Z) (format : string) : string := strftime time format.

(** The text that [format(os, logger_name, level, event)] adds to [os]. *)
Definition item_format (item : LogFormatItem) (logger_name : string) (level : Level) (event : LogEvent) :
    string :=
  match item with
  | LevelLogFormatItem _ => getLevelName level
  | FilenameLogFormatItem _ => m_file event
  | LineLogFormatItem _ => dec (m_line event)
  | NameLogFormatItem _ => logger_name
  | ElapseLogFormatItem _ => m_ss event
  | ThreadIdLogFormatItem _ => dec (m_thread_id event)
  | FiberIdLogFormatItem _ => dec (m_fiber_id event)
  | DateTimeLogFormatItem _ m_format =>
      if decide (m_format = "") then dec (m_time event) else getDateTime (m_time event) m_format
  | MessageLogFormatItem _ => m_ss event
  | ThreadNameLogFormatItem _ => m_thread_name event
  | NewLineLogFormatItem _ => newline
  | StringLogFormatItem m_str => m_str
  | TabLogFormatItem _ => tab
  end.

(** ** class LogFormatter *)

Record LogFormatter := mkFormatter {
  m_items : list LogFormatItem;
  m_format : string;
}.

(** [m_item_factory], the same map in every formatter. *)
Definition item_factory (key fmt : string) : option LogFormatItem :=
  if decide (key = "m") then Some (MessageLogFormatItem fmt)
  else if decide (key = "p") then Some (LevelLogFormatItem fmt)
  else if decide (key = "r") then Some (ElapseLogFormatItem fmt)
  else if decide (key = "c") then Some (NameLogFormatItem fmt)
  else if decide (key = "t") then Some (ThreadIdLogFormatItem fmt)
  else if decide (key = "l") then Some (LineLogFormatItem fmt)
  else if decide (key = "d") then Some (DateTimeLogFormatItem fmt "%Y-%m-%d %H:%M:%S")
  else if decide (key = "f") then Some (FilenameLogFormatItem fmt)
  else if decide (key = "F") then Some (FiberIdLogFormatItem fmt)
  else if decide (key = "N") then Some (ThreadNameLogFormatItem fmt)
  else if decide (key = "n") then Some (NewLineLogFormatItem fmt)
  else if decide (key = "T") then Some (TabLogFormatItem fmt)
  else None.

(** One token: the branches over [it.second]. *)
Definition push_item (items : list LogFormatItem) (it : string * Z) : list LogFormatItem :=
  if it.2 =? 0 then items ++ [StringLogFormatItem it.1]
  else if it.2 =? 1 then
    items ++ [match item_factory it.1 it.1 with
              | Some item => item
              | None => StringLogFormatItem ("<unknown format:%" +:+ it.1 +:+ ">")
              end]
  else if it.2 =? 2 then items ++ [DateTimeLogFormatItem it.1 it.1]
  else items.

Definition LogFormatter_create {St} (format : string) : M St LogFormatter :=
  vec <- formatParser format;;
  mreturn (mkFormatter (foldl push_item [] vec) format).

(** The stream starts empty; each item adds to it. *)
Definition LogFormatter_format (f : LogFormatter) (logger_name : string) (level : Level)
    (event : LogEvent) : string :=
  foldl (λ ss it, ss +:+ item_format it logger_name level event) "" (m_items f).

Definition setFormat (format : string) (f : LogFormatter) : LogFormatter :=
  mkFormatter (m_items f) format.
End Format.

Definition default_format : string :=
  "%d{%Y-%m-%d %H:%M:%S}%T%t%T%N%T%F%T[%p]%T[%c]%T%f:%l%T%m%n".

(** A date that shows its arguments, for examples. *)
Definition show_date (time : Z) (format : string) : string := "<" +:+ dec time +:+ "@" +:+ format +:+ ">".
Definition some_event : LogEvent :=
  append_message "hello" (LogEvent_create INFO "a.cpp" 12 0 77 3 1700000000 "main").
Example format_default :
  match LogFormatter_create "[%p] [%c] %f:%l %m%n%%r%q" tt with
  | Ret f _ => LogFormatter_format show_date f "root" WARN some_event
  | _ => "" end = "[WARN] [root] a.cpp:12 hello" +:+ newline +:+ "%hello<unknown format:%q>".
Proof. vm_compute. reflexivity. Qed.
