(* ===== verification/Logger.v ===== *)
(** * Appenders, loggers and their registry (log/logappender.cpp, logger.cpp,
    logmacro.h)

    Formatters, appenders and loggers are shared pointers: each kind lives in a
    heap, by number. The state of an object has its members; the fields are
    [la_] for LogAppender and its subclasses, [lg_] for Logger, [lm_] for
    LoggerManager, which is the singleton of LON_LOG_MANAGER. [out] is what
    std::cout was given, [files] what the files hold, buffered text included.
    Whether the system opens a file or takes the text of a write is the next
    entry of [disk], yes when there is none; [now] is time(0). getYaml is in
    [LogYaml]. *)

From Stdlib Require Import Ascii String.
From S2P Require Import Prelude Strings LogFormat Locks.
#[local] Open Scope Z_scope.

(** std::ofstream: whether its buffer has a file, and no error bit is set. *)
Record ofstream := mkOfs { is_open : bool; good : bool }.
Inductive AppenderKind := StdoutLogAppender | FileLogAppender (m_filename : string).

Record LogAppender := mkAppender {
  la_kind : AppenderKind;
  la_level : Level;
  la_formatter : option nat;
  la_mutex : lock;
  la_file : ofstream;
  la_last_time : Z;
}.
Record Logger := mkLogger {
  lg_name : string;
  lg_level : Level;
  lg_appenders : list nat;
  lg_formatter : nat;
  lg_mutex : lock;
}.
Record LoggerManager := mkManager {
  lm_loggers : gmap string (option nat);
  lm_root : nat;
  lm_mutex : lock;
}.
Record logw := mkLogw {
  formatters : gmap nat LogFormatter;
  appenders : gmap nat LogAppender;
  loggers : gmap nat Logger;
  manager : LoggerManager;
  out : string;
  files : gmap string string;
  now : Z;
  disk : list bool;
}.

Definition set_formatters h w :=
  mkLogw h (appenders w) (loggers w) (manager w) (out w) (files w) (now w) (disk w).
Definition set_appenders h w :=
  mkLogw (formatters w) h (loggers w) (manager w) (out w) (files w) (now w) (disk w).
Definition set_loggers h w :=
  mkLogw (formatters w) (appenders w) h (manager w) (out w) (files w) (now w) (disk w).
Definition set_manager m w :=
  mkLogw (formatters w) (appenders w) (loggers w) m (out w) (files w) (now w) (disk w).
Definition set_out o w :=
  mkLogw (formatters w) (appenders w) (loggers w) (manager w) o (files w) (now w) (disk w).
Definition set_files f d w :=
  mkLogw (formatters w) (appenders w) (loggers w) (manager w) (out w) f (now w) d.

(** ** Objects *)

Definition deref {A} (heap : logw → gmap nat A) (p : nat) : M logw A := λ w,
  match heap w !! p with Some x => Ret x w | None => Fault NullDeref end.
Definition upd_appender (p : nat) (f : LogAppender → LogAppender) : M logw unit :=
  mmodify (λ w, set_appenders (alter f p (appenders w)) w).
Definition upd_logger (p : nat) (f : Logger → Logger) : M logw unit :=
  mmodify (λ w, set_loggers (alter f p (loggers w)) w).
Definition upd_manager (f : LoggerManager → LoggerManager) : M logw unit :=
  mmodify (λ w, set_manager (f (manager w)) w).

Definition new_formatter (f : LogFormatter) : M logw nat :=
  w <- mget;; let p := fresh (dom (formatters w)) in
  mput (set_formatters (<[p := f]> (formatters w)) w);; mreturn p.
Definition new_appender (a : LogAppender) : M logw nat :=
  w <- mget;; let p := fresh (dom (appenders w)) in
  mput (set_appenders (<[p := a]> (appenders w)) w);; mreturn p.
Definition new_logger (l : Logger) : M logw nat :=
  w <- mget;; let p := fresh (dom (loggers w)) in
  mput (set_loggers (<[p := l]> (loggers w)) w);; mreturn p.

(** Their locks. *)
Definition relock (l : lock) (a : LogAppender) : LogAppender :=
  mkAppender (la_kind a) (la_level a) (la_formatter a) l (la_file a) (la_last_time a).
Definition relock_logger (l : lock) (g : Logger) : Logger :=
  mkLogger (lg_name g) (lg_level g) (lg_appenders g) (lg_formatter g) l.
Definition appender_lock {A} : nat → M logw A → M logw A :=
  heap_lock appenders set_appenders la_mutex relock wrlock.
Definition logger_lock {A} : nat → M logw A → M logw A :=
  heap_lock loggers set_loggers lg_mutex relock_logger wrlock.
Definition manager_lock {A} : M logw A → M logw A :=
  scoped (λ w, Some (lm_mutex (manager w)))
    (λ l w, set_manager (mkManager (lm_loggers (manager w)) (lm_root (manager w)) l) w) wrlock.

(** ** class LogAppender *)

Definition with_formatter (f : option nat) (a : LogAppender) : LogAppender :=
  mkAppender (la_kind a) (la_level a) f (la_mutex a) (la_file a) (la_last_time a).
Definition with_file (f : ofstream) (a : LogAppender) : LogAppender :=
  mkAppender (la_kind a) (la_level a) (la_formatter a) (la_mutex a) f (la_last_time a).
Definition with_last_time (t : Z) (a : LogAppender) : LogAppender :=
  mkAppender (la_kind a) (la_level a) (la_formatter a) (la_mutex a) (la_file a) t.

Definition setFormatter (p : nat) (formatter : option nat) : M logw unit :=
  appender_lock p (upd_appender p (with_formatter formatter)).
Definition getFormatter (p : nat) : M logw (option nat) :=
  appender_lock p (a <- deref appenders p;; mreturn (la_formatter a)).

(** [m_file.close()], [m_file.open(m_filename, app)]: closing what is not open
    and opening what is open are errors. *)
Definition ofs_close (f : ofstream) : ofstream := mkOfs false (good f && is_open f).
Definition ofs_open (ok : bool) (f : ofstream) : ofstream :=
  if is_open f then mkOfs true false else mkOfs ok ok.

Definition disk_ok : M logw bool :=
  w <- mget;;
  match disk w with
  | [] => mreturn true
  | b :: d => mput (set_files (files w) d w);; mreturn b
  end.

Definition reopen (p : nat) : M logw bool :=
  appender_lock p
    (a <- deref appenders p;;
     let f := if good (la_file a) then ofs_close (la_file a) else la_file a in
     ok <- (if is_open f then mreturn false else disk_ok);;
     upd_appender p (with_file (ofs_open ok f));;
     mreturn (good (ofs_open ok f))).

Definition StdoutLogAppender_create (level : Level) : M logw nat :=
  new_appender (mkAppender StdoutLogAppender level None Unlocked (mkOfs false true) 0).
Definition FileLogAppender_create (filename : string) (level : Level) : M logw nat :=
  p <- new_appender (mkAppender (FileLogAppender filename) level None Unlocked (mkOfs false true) 0);;
  reopen p;; mreturn p.

(** [m_file << text]: nothing on a stream with an error. *)
Definition file_write (p : nat) (filename text : string) : M logw unit :=
  a <- deref appenders p;;
  if good (la_file a) then
    ok <- disk_ok;;
    if ok : bool then
      mmodify (λ w, set_files (<[filename := default "" (files w !! filename) +:+ text]> (files w))
                              (disk w) w)
    else upd_appender p (with_file (mkOfs (is_open (la_file a)) false))
  else mreturn tt.

Definition level_color (level : Level) : Color :=
  match level with
  | INFO => GREEN | WARN => YELLOW | ERROR => RED | FATAL => PURPLE | _ => DEFAULT
  end.

Section Log.
Context (strftime : Z → string → string).

(** [m_formatter->format(logger_name, level, event)] *)
Definition formatted (f : option nat) (logger_name : string) (level : Level) (event : LogEvent) :
    M logw string :=
  match f with
  | None => mfault NullDeref
  | Some q => f <- deref formatters q;;
              mreturn (LogFormatter_format strftime f logger_name level event)
  end.

Definition StdoutLogAppender_log (p : nat) (logger_name : string) (level : Level) (event : LogEvent) :
    M logw unit :=
  a <- deref appenders p;;
  if level_lt level (la_level a) then mreturn tt
  else appender_lock p
    (a <- deref appenders p;;
     str <- formatted (la_formatter a) logger_name level event;;
     mmodify (λ w, set_out (out w +:+ getColorStr str (level_color level)) w)).

Definition FileLogAppender_log (p : nat) (filename logger_name : string) (level : Level)
    (event : LogEvent) : M logw unit :=
  a <- deref appenders p;;
  if level_lt level (la_level a) then mreturn tt
  else
    w <- mget;;
    (if now w =? la_last_time a then mreturn tt
     else reopen p;; upd_appender p (with_last_time (now w)));;
    appender_lock p
      (a <- deref appenders p;;
       str <- formatted (la_formatter a) logger_name level event;;
       file_write p filename str).

(** The virtual function. *)
Definition appender_log (p : nat) (logger_name : string) (level : Level) (event : LogEvent) :
    M logw unit :=
  a <- deref appenders p;;
  match la_kind a with
  | StdoutLogAppender => StdoutLogAppender_log p logger_name level event
  | FileLogAppender filename => FileLogAppender_log p filename logger_name level event
  end.

(** ** class Logger *)

Definition Logger_create (name : string) (level : Level) : M logw nat :=
  f <- LogFormatter_create default_format;;
  q <- new_formatter f;;
  new_logger (mkLogger name level [] q Unlocked).

Definition with_appenders (l : list nat) (g : Logger) : Logger :=
  mkLogger (lg_name g) (lg_level g) l (lg_formatter g) (lg_mutex g).
Definition with_level (l : Level) (g : Logger) : Logger :=
  mkLogger (lg_name g) l (lg_appenders g) (lg_formatter g) (lg_mutex g).

Definition log (p : nat) (level : Level) (event : LogEvent) : M logw unit :=
  logger_lock p
    (g <- deref loggers p;;
     if level_lt level (lg_level g) then mreturn tt
     else mfor (lg_appenders g) (λ a, appender_log a (lg_name g) level event)).
Definition debug (p : nat) (event : LogEvent) : M logw unit := log p DEBUG event.
Definition info (p : nat) (event : LogEvent) : M logw unit := log p INFO event.
Definition warn (p : nat) (event : LogEvent) : M logw unit := log p WARN event.
Definition error (p : nat) (event : LogEvent) : M logw unit := log p ERROR event.
Definition fatal (p : nat) (event : LogEvent) : M logw unit := log p FATAL event.

Definition addAppender (p appender : nat) : M logw unit :=
  logger_lock p
    (f <- getFormatter appender;;
     g <- deref loggers p;;
     (if decide (f = None) then setFormatter appender (Some (lg_formatter g)) else mreturn tt);;
     upd_logger p (with_appenders (lg_appenders g ++ [appender]))).

(** [erase] of the first element that is the appender. *)
Fixpoint erase_first (x : nat) (l : list nat) : list nat :=
  match l with [] => [] | y :: l' => if decide (y = x) then l' else y :: erase_first x l' end.
Definition delAppender (p appender : nat) : M logw unit :=
  logger_lock p
    (g <- deref loggers p;; upd_logger p (with_appenders (erase_first appender (lg_appenders g)))).
Definition clearAppenders (p : nat) : M logw unit :=
  logger_lock p (upd_logger p (with_appenders [])).
Definition setLevel (p : nat) (level : Level) : M logw unit :=
  deref loggers p;; upd_logger p (with_level level).
Definition setLevel_name (p : nat) (level : string) : M logw unit :=
  setLevel p (getLevelByName level).
Definition getLevel (p : nat) : M logw Level := g <- deref loggers p;; mreturn (lg_level g).

(** ** LON_LOG_LEVEL and class LoggerWrapper

    The macro evaluates the expression [logger] three times; the wrapper logs
    when it is destroyed, after the message was added. *)

Record site := mkSite { file_ : string; line_ : Z; thread_ : Z; fiber_ : Z; thread_name_ : string }.

Definition LoggerWrapper_destroy (logger : nat) (event : LogEvent) : M logw unit :=
  log logger (m_level event) event.

Definition LON_LOG_LEVEL (logger : M logw (option nat)) (level : Level) (at_ : site) (message : string) :
    M logw unit :=
  l <- logger;;
  match l with
  | None => mreturn tt
  | Some _ =>
    l <- logger;;
    match l with
    | None => mfault NullDeref
    | Some p =>
      threshold <- getLevel p;;
      if level_num threshold <=? level_num level then
        l <- logger;;
        match l with
        | None => mfault NullDeref
        | Some p =>
          w <- mget;;
          LoggerWrapper_destroy p
            (append_message message
               (LogEvent_create level (file_ at_) (line_ at_) 0 (thread_ at_) (fiber_ at_) (now w)
                  (thread_name_ at_)))
        end
      else mreturn tt
    end
  end.

(** ** class LoggerManager *)

Definition insert_logger (name : string) (logger : option nat) (m : LoggerManager) : LoggerManager :=
  mkManager (<[name := logger]> (lm_loggers m)) (lm_root m) (lm_mutex m).

(** A new logger that writes to std::cout. *)
Definition stdout_logger (name : string) : M logw nat :=
  p <- Logger_create name DEBUG;;
  a <- StdoutLogAppender_create DEBUG;;
  addAppender p a;;
  mreturn p.

(** The constructor, with the root logger or without. *)
Definition LoggerManager_create (logger_root : option nat) : M logw unit :=
  match logger_root with
  | None =>
    p <- stdout_logger "root";;
    upd_manager (λ m, insert_logger "root" (Some p) (mkManager ∅ p Unlocked))
  | Some p =>
    g <- deref loggers p;;
    upd_manager (λ m, insert_logger (lg_name g) (Some p) (mkManager ∅ p Unlocked))
  end.

Definition setLogger (name : string) (logger : option nat) : M logw unit :=
  manager_lock (upd_manager (insert_logger name logger)).

Definition getRoot : M logw (option nat) :=
  manager_lock
    (w <- mget;;
     mreturn (match lm_loggers (manager w) !! "root" with
              | None => Some (lm_root (manager w))
              | Some p => p
              end)).
Definition LON_LOG_ROOT : M logw (option nat) := getRoot.

Definition getLogger (at_ : site) (name : string) (auto_create : bool) : M logw (option nat) :=
  manager_lock
    (w <- mget;;
     match lm_loggers (manager w) !! name with
     | Some p => mreturn p
     | None =>
       if auto_create then
         p <- stdout_logger name;;
         upd_manager (insert_logger name (Some p));;
         mreturn (Some p)
       else
         LON_LOG_LEVEL LON_LOG_ROOT WARN at_ ("the logger has not been initialized: " +:+ name);;
         mreturn None
     end).
Definition LON_LOG_NAME (at_ : site) (name : string) : M logw (option nat) := getLogger at_ name true.

Definition delLogger (name : string) : M logw unit :=
  manager_lock
    (upd_manager (λ m, mkManager (delete name (lm_loggers m)) (lm_root m) (lm_mutex m))).
End Log.

(** A program before the manager is made. *)
Definition logw_init (time : Z) : logw :=
  mkLogw ∅ ∅ ∅ (mkManager ∅ 0 Unlocked) "" ∅ time [].
Definition here : site := mkSite "x.cpp" 1 10 0 "main".
Example log_1 :
  match (LoggerManager_create None;;
         LON_LOG_LEVEL show_date LON_LOG_ROOT INFO here "hi";;
         LON_LOG_LEVEL show_date (LON_LOG_NAME show_date here "net") DEBUG here "ho") (logw_init 5) with
  | Ret _ w => out w
  | _ => ""
  end = getColorStr ("<5@%Y-%m-%d %H:%M:%S>" +:+ tab +:+ "10" +:+ tab +:+ "main" +:+ tab +:+ "0" +:+ tab
    +:+ "[INFO]" +:+ tab +:+ "[root]" +:+ tab +:+ "x.cpp:1" +:+ tab +:+ "hi" +:+ newline) GREEN +:+
    "<5@%Y-%m-%d %H:%M:%S>" +:+ tab +:+ "10" +:+ tab +:+ "main" +:+ tab +:+ "0" +:+ tab
    +:+ "[DEBUG]" +:+ tab +:+ "[net]" +:+ tab +:+ "x.cpp:1" +:+ tab +:+ "ho" +:+ newline.
Proof. vm_compute. reflexivity. Qed.
Example log_2 :
  (LoggerManager_create None;; getLogger show_date here "net" false) (logw_init 5) = Fault Deadlock.
Proof. vm_compute. reflexivity. Qed.
