(* ===== verification/LogSpec.v ===== *)
(** * Properties of the log

    What a formatter prints, what a logger delivers to its appenders, that
    nothing faults as long as the registry is asked for loggers it has, and
    the two ways in which it ends badly: the lookup of an unknown logger, and a
    file whose write failed once. *)

From Stdlib Require Import Ascii String.
From S2P Require Import Prelude Strings StringsSpec LogFormat Locks Logger.
#[local] Open Scope Z_scope.

(** ** Levels and formatters *)

(** The names of the levels are read back as the levels, in any case; any
    other text is UNKNOWN. *)
Theorem level_names level name :
  (toLower name = toLower (getLevelName level) → getLevelByName name = level) ∧
  (getLevelByName name ≠ UNKNOWN → toUpper name = getLevelName (getLevelByName name)).
Proof.
  split.
  - intros H%toUpper_eq. unfold getLevelByName. rewrite H. by destruct level.
  - unfold getLevelByName. by repeat case_decide.
Qed.
Lemma level_names_witness : getLevelByName "warn" = WARN ∧ toUpper "Fatal" = getLevelName FATAL.
Proof.
  split; [apply (level_names WARN "warn"); reflexivity|].
  apply (level_names FATAL "Fatal"). vm_compute. discriminate.
Defined.

Section Formatter.
Context (strftime : Z → string → string).

(** The table of logformatter.h. *)
Definition documented_items : list (string * (string → Level → LogEvent → string)) :=
  [("m", λ _ _ e, m_ss e);
   ("p", λ _ level _, getLevelName level);
   ("r", λ _ _ e, dec (m_elapse e));
   ("c", λ name _ _, name);
   ("t", λ _ _ e, dec (m_thread_id e));
   ("n", λ _ _ _, newline);
   ("d", λ _ _ e, strftime (m_time e) "%Y-%m-%d %H:%M:%S");
   ("f", λ _ _ e, m_file e);
   ("l", λ _ _ e, dec (m_line e));
   ("T", λ _ _ _, tab);
   ("F", λ _ _ e, dec (m_fiber_id e));
   ("N", λ _ _ e, m_thread_name e)].
Fixpoint assoc {A} (k : string) (l : list (string * A)) : option A :=
  match l with [] => None | (x, a) :: l' => if decide (k = x) then Some a else assoc k l' end.

(** What a token is to print: text itself, an item what the table says, a date
    format the date in this format, an empty one the seconds. *)
Definition documented (tok : string * Z) (name : string) (level : Level) (e : LogEvent) : string :=
  let '(t, kind) := tok in
  if kind =? 0 then t
  else if kind =? 1 then
    match assoc t documented_items with
    | Some print => print name level e
    | None => "<unknown format:%" +:+ t +:+ ">"
    end
  else if decide (t = "") then dec (m_time e) else strftime (m_time e) t.

(** What the code prints for it. *)
Definition token_text (tok : string * Z) (name : string) (level : Level) (e : LogEvent) : string :=
  if decide (tok = ("r", 1)) then m_ss e else documented tok name level e.

Definition items_text (l : list LogFormatItem) name level e : string :=
  foldr (λ it s, item_format strftime it name level e +:+ s) "" l.
Definition tokens_text (l : list (string * Z)) name level e : string :=
  foldr (λ tok s, token_text tok name level e +:+ s) "" l.

Lemma foldl_items l ss name level e :
  foldl (λ ss it, ss +:+ item_format strftime it name level e) ss l = ss +:+ items_text l name level e.
Proof.
  revert ss. induction l as [|it l IH]; intros ss; simpl; [by rewrite app_empty_r|].
  by rewrite IH, sapp_assoc.
Qed.

(** The kinds of token that formatParser makes. *)
Definition token_ok (tok : string * Z) : Prop :=
  tok.2 = 0 ∨ (tok.2 = 1 ∧ ∃ c, tok.1 = one c) ∨ tok.2 = 2.
Lemma reads_token_ok s r : reads s r → ∀ l, r = inr l → Forall token_ok l.
Proof.
  induction 1 as [|t s r _ _ _ _ IH|s r _ _ IH|c s r _ _ _ IH|f s r _ _ IH|f _]; intros l Hl;
    try (destruct r as [|l']; [done|]); simplify_eq/=; try done;
    constructor; unfold token_ok; simpl; eauto.
Qed.

Lemma push_item_text items tok name level e : token_ok tok →
  items_text (push_item items tok) name level e = items_text items name level e +:+ token_text tok name level e.
Proof.
  assert (Happ : ∀ l it, items_text (l ++ [it]) name level e =
    items_text l name level e +:+ item_format strftime it name level e).
  { intros l it. induction l as [|x l IH]; simpl; [by rewrite app_empty_r|]. by rewrite IH, sapp_assoc. }
  destruct tok as [t k]. intros [Hk|[[Hk [c Hc]]|Hk]]; simpl in *; subst; unfold push_item; simpl;
    rewrite Happ; f_equal; unfold token_text.
  - by rewrite decide_False by congruence.
  - generalize (one c). intros t. unfold documented, assoc, item_factory. simpl.
    destruct (decide ((t, 1) = ("r", 1))) as [[= ->]|Hr]; [done|].
    assert (t ≠ "r") by congruence. by repeat (case_decide; simplify_eq).
  - rewrite decide_False by congruence. simpl. unfold getDateTime. by repeat case_decide.
Qed.

Lemma push_items_text l items name level e : Forall token_ok l →
  items_text (foldl push_item items l) name level e =
  items_text items name level e +:+ tokens_text l name level e.
Proof.
  intros Hl. revert items. induction Hl as [|tok l Ht _ IH]; intros items; simpl.
  - by rewrite app_empty_r.
  - by rewrite IH, push_item_text, sapp_assoc.
Qed.
Lemma tokens_text_documented l name level e : ("r", 1) ∉ l →
  tokens_text l name level e = foldr (λ tok s, documented tok name level e +:+ s) "" l.
Proof.
  induction l as [|tok l IH]; simpl; [done|]. rewrite not_elem_of_cons. intros [Hn Hl].
  rewrite IH by done. unfold token_text. by rewrite decide_False by congruence.
Qed.

(** C35: A formatter prints, token by token of its format string, what the table of
    logformatter.h says, except that %r prints the message; a format string
    with an open brace throws, and setFormat has no effect on what is
    printed. *)
Theorem formatter_prints {St} (w : St) s name level e :
  (∀ l, reads s (inr l) → ∃ f, LogFormatter_create s w = Ret f w ∧ m_format f = s ∧
    (("r", 1) ∉ l → LogFormatter_format strftime f name level e =
       foldr (λ tok s, documented tok name level e +:+ s) "" l) ∧
    LogFormatter_format strftime f name level e = tokens_text l name level e ∧
    ∀ s', LogFormatter_format strftime (setFormat s' f) name level e = tokens_text l name level e) ∧
  (∀ f, reads s (inl f) →
    LogFormatter_create s w = Throw (runtime_error (f +:+ ": format error") []) w).
Proof.
  split; intros l Hl; unfold LogFormatter_create; pose proof (formatParser_reads w s _ Hl) as E.
  - mstep E. assert (H : LogFormatter_format strftime (mkFormatter (foldl push_item [] l) s) name level e =
      tokens_text l name level e).
    { unfold LogFormatter_format. cbn [m_items]. rewrite foldl_items, push_items_text; [done|].
      by apply (reads_token_ok s (inr l)). }
    exists (mkFormatter (foldl push_item [] l) s).
    split_and!; [done|done| |done|intros; exact H].
    intros Hr. rewrite H. by apply tokens_text_documented.
  - by mstep E.
Qed.
End Formatter.

Lemma formatter_prints_witness : ∃ f, LogFormatter_create "%p: %m%% %n" tt = Ret f tt ∧
  LogFormatter_format show_date f "root" WARN some_event = "WARN: hello%<unknown format:% >" +:+ newline.
Proof.
  destruct (proj1 (formatter_prints show_date tt "%p: %m%% %n" "root" WARN some_event)
    [("p", 1); (": ", 0); ("m", 1); ("%", 0); (" ", 1); ("n", 1)]) as (f & H1 & _ & _ & H2 & _).
  - apply (formatParser_Ret tt). vm_compute. reflexivity.
  - exists f. split; [done|]. rewrite H2. reflexivity.
Defined.

(** ** What is delivered

    [emit1] is the effect of an appender without the locks: the reference for
    the runs below. *)

Definition disk_pop (d : list bool) : bool * list bool :=
  match d with [] => (true, []) | b :: d => (b, d) end.
Definition reopened (f : ofstream) (d : list bool) : ofstream * list bool :=
  let f := if good f then ofs_close f else f in
  if is_open f then (ofs_open false f, d) else let '(b, d) := disk_pop d in (ofs_open b f, d).

Section Delivery.
Context (strftime : Z → string → string).

(** The line an appender makes of an event. *)
Definition line (w : logw) (a : LogAppender) (name : string) (level : Level) (e : LogEvent) : string :=
  match la_formatter a ≫= (formatters w !!.) with
  | Some f => LogFormatter_format strftime f name level e
  | None => ""
  end.
Definition put_file (w : logw) (p : nat) (a : LogAppender) (path text : string) (d : list bool) : logw :=
  if good (la_file a) then
    let '(b, d) := disk_pop d in
    if b then set_files (<[path := default "" (files w !! path) +:+ text]> (files w)) d
                (set_appenders (<[p := a]> (appenders w)) w)
    else set_files (files w) d
           (set_appenders (<[p := with_file (mkOfs (is_open (la_file a)) false) a]> (appenders w)) w)
  else set_files (files w) d (set_appenders (<[p := a]> (appenders w)) w).
Definition emit1 (name : string) (level : Level) (e : LogEvent) (w : logw) (p : nat) : logw :=
  match appenders w !! p with
  | None => w
  | Some a =>
    if level_lt level (la_level a) then w
    else match la_kind a with
         | StdoutLogAppender => set_out (out w +:+ getColorStr (line w a name level e) (level_color level)) w
         | FileLogAppender path =>
           let '(f, d) := if now w =? la_last_time a then (la_file a, disk w)
                          else reopened (la_file a) (disk w) in
           put_file w p (with_last_time (now w) (with_file f a)) path (line w a name level e) d
         end
  end.

(** An appender that can print: unlocked, with a formatter. *)
Definition ready (w : logw) (p : nat) : Prop :=
  ∃ a, appenders w !! p = Some a ∧ la_mutex a = Unlocked ∧
    ∃ q, la_formatter a = Some q ∧ is_Some (formatters w !! q).

(** A guarded block on an unlocked appender. *)
Lemma appender_lock_run {A} (body : M logw A) w p a a' x w' :
  appenders w !! p = Some a → la_mutex a = Unlocked →
  body (set_appenders (<[p := relock Exclusive a]> (appenders w)) w) = Ret x w' →
  appenders w' !! p = Some a' → la_mutex a' = Exclusive →
  appender_lock p body w = Ret x (set_appenders (<[p := relock Unlocked a']> (appenders w')) w').
Proof.
  intros. by eapply heap_lock_run.
Qed.

Lemma relock_id a l : la_mutex a = Unlocked → relock Unlocked (relock l a) = a.
Proof. destruct a; simpl. by intros ->. Qed.
Lemma set_appenders_same w m : m = appenders w → set_appenders m w = w.
Proof. intros ->. by destruct w. Qed.

Lemma getFormatter_run w p a : appenders w !! p = Some a → la_mutex a = Unlocked →
  getFormatter p w = Ret (la_formatter a) w.
Proof.
  intros Ha Hl. unfold getFormatter.
  rewrite (appender_lock_run _ w p a (relock Exclusive a) (la_formatter a)
    (set_appenders (<[p := relock Exclusive a]> (appenders w)) w)); try done.
  - f_equal. destruct w; simpl in *. unfold set_appenders. simpl. f_equal.
    by rewrite insert_insert_eq, relock_id, insert_id.
  - unfold deref, mbind'. simpl. by rewrite lookup_insert_eq.
  - simpl. by rewrite lookup_insert_eq.
Qed.
Lemma setFormatter_run w p a f : appenders w !! p = Some a → la_mutex a = Unlocked →
  setFormatter p f w = Ret tt (set_appenders (<[p := with_formatter f a]> (appenders w)) w).
Proof.
  intros Ha Hl. unfold setFormatter.
  rewrite (appender_lock_run _ w p a (with_formatter f (relock Exclusive a)) tt
    (set_appenders (<[p := with_formatter f (relock Exclusive a)]> (appenders w)) w)); try done.
  - f_equal. unfold set_appenders. simpl. f_equal. rewrite insert_insert_eq. f_equal.
    by destruct a; simpl in *; subst.
  - unfold upd_appender, mmodify. simpl. by rewrite alter_insert_eq.
  - simpl. by rewrite lookup_insert_eq.
Qed.
Lemma formatted_run w a q f name level e : la_formatter a = Some q → formatters w !! q = Some f →
  formatted strftime (la_formatter a) name level e w = Ret (line w a name level e) w.
Proof.
  intros Hq Hf. unfold formatted, line, deref, mbind'. rewrite Hq. simpl. by rewrite Hf.
Qed.
Lemma disk_ok_run w :
  disk_ok w = Ret (disk_pop (disk w)).1 (set_files (files w) (disk_pop (disk w)).2 w).
Proof. destruct w as [? ? ? ? ? ? ? []]; done. Qed.

Lemma reopen_run w p a : appenders w !! p = Some a → la_mutex a = Unlocked →
  reopen p w = Ret (good (reopened (la_file a) (disk w)).1)
    (set_files (files w) (reopened (la_file a) (disk w)).2
      (set_appenders (<[p := with_file (reopened (la_file a) (disk w)).1 a]> (appenders w)) w)).
Proof.
  intros Ha Hl. unfold reopen.
  erewrite (appender_lock_run _ w p a (with_file (reopened (la_file a) (disk w)).1 (relock Exclusive a))
    (good (reopened (la_file a) (disk w)).1)
    (set_files (files w) (reopened (la_file a) (disk w)).2
      (set_appenders (<[p := with_file (reopened (la_file a) (disk w)).1 (relock Exclusive a)]> (appenders w)) w)));
    try done.
  - f_equal. unfold set_files, set_appenders. simpl. f_equal. rewrite insert_insert_eq. f_equal.
    by destruct a; simpl in *; subst.
  - unfold deref, mbind' at 1. simpl. rewrite lookup_insert_eq. unfold reopened. simpl.
    set (f := if good (la_file a) then _ else _). destruct (is_open f).
    + unfold mbind', upd_appender, mmodify, mreturn. simpl. rewrite alter_insert_eq.
      by destruct w.
    + unfold mbind'. rewrite disk_ok_run. simpl. destruct (disk_pop (disk w)) as [b d].
      unfold upd_appender, mmodify, mreturn. simpl. by rewrite alter_insert_eq.
  - simpl. by rewrite lookup_insert_eq.
Qed.
Lemma file_write_run w p a path text : appenders w !! p = Some a →
  file_write p path text w = Ret tt (put_file w p a path text (disk w)).
Proof.
  intros Ha. unfold file_write, put_file.
  rewrite (bind_Ret _ _ _ a w) by (unfold deref; by rewrite Ha).
  destruct (good (la_file a)).
  - mstep (disk_ok_run w). destruct (disk_pop (disk w)) as [[] d]; simpl.
    + unfold mmodify, set_files, set_appenders. destruct w; simpl in *. by rewrite (insert_id _ p a).
    + unfold upd_appender, mmodify. simpl. by rewrite (alter_Some _ _ _ _ Ha).
  - destruct w; simpl in *. unfold set_files, set_appenders. simpl. by rewrite insert_id.
Qed.

(** Printing under the lock is printing. *)
Lemma put_file_lock w p a path text d : la_mutex a = Unlocked →
  ∃ a', appenders (put_file w p (relock Exclusive a) path text d) !! p = Some a' ∧
    la_mutex a' = Exclusive ∧
    set_appenders (<[p := relock Unlocked a']> (appenders (put_file w p (relock Exclusive a) path text d)))
      (put_file w p (relock Exclusive a) path text d) = put_file w p a path text d.
Proof.
  intros Hl. unfold put_file. simpl. destruct (good (la_file a)); [destruct (disk_pop d) as [[] d']|].
  all: simpl; rewrite lookup_insert_eq; eexists; split_and!; [done|done|].
  all: unfold set_files, set_appenders; simpl; rewrite insert_insert_eq;
    destruct a; simpl in *; by subst.
Qed.
Lemma put_file_base w p a b path text d :
  put_file (set_appenders (<[p := b]> (appenders w)) w) p a path text d = put_file w p a path text d.
Proof.
  unfold put_file. destruct (good (la_file a)); [destruct (disk_pop d) as [[] d']|]; simpl;
    unfold set_files, set_appenders; simpl; by rewrite insert_insert_eq.
Qed.
Lemma put_file_files w fl p a path text d d' : fl = files w →
  put_file (set_files fl d' w) p a path text d = put_file w p a path text d.
Proof. by intros ->. Qed.

(** The text of a line does not depend on the appenders' locks and files. *)
Lemma line_eq w w' a a' name level e : formatters w' = formatters w → la_formatter a' = la_formatter a →
  line w' a' name level e = line w a name level e.
Proof. unfold line. by intros -> ->. Qed.

Lemma stdout_log_run w p a q f name level e : appenders w !! p = Some a → la_mutex a = Unlocked →
  la_formatter a = Some q → formatters w !! q = Some f → la_kind a = StdoutLogAppender →
  StdoutLogAppender_log strftime p name level e w = Ret tt (emit1 name level e w p).
Proof.
  intros Ha Hl Hq Hf Hk. unfold StdoutLogAppender_log, emit1. rewrite Ha, Hk.
  rewrite (bind_Ret _ _ _ a w) by (unfold deref; by rewrite Ha).
  destruct (level_lt level (la_level a)); [done|].
  erewrite (appender_lock_run _ w p a (relock Exclusive a) tt); try done.
  2:{ rewrite (bind_Ret _ _ _ (relock Exclusive a)
        (set_appenders (<[p := relock Exclusive a]> (appenders w)) w)).
      2:{ unfold deref. simpl. by rewrite lookup_insert_eq. }
      erewrite bind_Ret by (by eapply (formatted_run _ (relock Exclusive a))).
      unfold mmodify. simpl. reflexivity. }
  2:{ simpl. by rewrite lookup_insert_eq. }
  f_equal. unfold set_out, set_appenders. simpl. rewrite insert_insert_eq, relock_id, insert_id by done.
  by f_equal.
Qed.

(** The block that formats and writes. *)
Lemma write_block_run w p a q f path name level e : appenders w !! p = Some a → la_mutex a = Unlocked →
  la_formatter a = Some q → formatters w !! q = Some f →
  appender_lock p (a <- deref appenders p;;
    str <- formatted strftime (la_formatter a) name level e;; file_write p path str) w =
  Ret tt (put_file w p a path (line w a name level e) (disk w)).
Proof.
  intros Ha Hl Hq Hf.
  set (w1 := set_appenders (<[p := relock Exclusive a]> (appenders w)) w).
  assert (Hw1 : appenders w1 !! p = Some (relock Exclusive a)) by (simpl; by rewrite lookup_insert_eq).
  destruct (put_file_lock w p a path (line w a name level e) (disk w) Hl) as (a' & Ha' & Hl' & E).
  erewrite (appender_lock_run _ w p a a' tt); [by rewrite E|done|done| |done|done].
  fold w1. rewrite (bind_Ret _ _ _ (relock Exclusive a) w1).
  2:{ unfold deref. by rewrite Hw1. }
  erewrite bind_Ret by (by eapply (formatted_run _ (relock Exclusive a))).
  rewrite (file_write_run _ _ (relock Exclusive a)) by done. unfold w1. by rewrite put_file_base.
Qed.

Lemma with_same a : with_last_time (la_last_time a) (with_file (la_file a) a) = a.
Proof. by destruct a. Qed.

Lemma file_log_run w p a q f path name level e : appenders w !! p = Some a → la_mutex a = Unlocked →
  la_formatter a = Some q → formatters w !! q = Some f → la_kind a = FileLogAppender path →
  FileLogAppender_log strftime p path name level e w = Ret tt (emit1 name level e w p).
Proof.
  intros Ha Hl Hq Hf Hk. unfold FileLogAppender_log, emit1. rewrite Ha, Hk.
  rewrite (bind_Ret _ _ _ a w) by (unfold deref; by rewrite Ha).
  destruct (level_lt level (la_level a)); [done|]. rewrite (bind_Ret mget _ w w w eq_refl).
  destruct (Z.eqb_spec (now w) (la_last_time a)) as [->|Hn].
  - rewrite (bind_Ret _ _ _ tt w) by done.
    by rewrite (write_block_run w p a q f), with_same.
  - set (r := reopened (la_file a) (disk w)). destruct r as [f' d] eqn:Hr. subst r.
    set (a' := with_last_time (now w) (with_file f' a)).
    rewrite (bind_Ret _ _ _ tt (set_files (files w) d (set_appenders (<[p := a']> (appenders w)) w))).
    2:{ mstep (reopen_run w p a Ha Hl). rewrite Hr. unfold upd_appender, mmodify. simpl.
        by rewrite alter_insert_eq. }
    rewrite (write_block_run _ p a' q f); [|simpl; by rewrite lookup_insert_eq|done|done|done].
    rewrite (line_eq w _ a a') by done. by rewrite put_file_files, put_file_base by done.
Qed.

Lemma appender_log_run w p name level e : ready w p →
  appender_log strftime p name level e w = Ret tt (emit1 name level e w p).
Proof.
  intros (a & Ha & Hl & q & Hq & f & Hf). unfold appender_log.
  rewrite (bind_Ret _ _ _ a w) by (unfold deref; by rewrite Ha).
  destruct (la_kind a) eqn:Hk; [by eapply stdout_log_run|by eapply file_log_run].
Qed.

(** Printing leaves everything but the output and the appenders' files. *)
Record kept (w w' : logw) : Prop := mkKept {
  kept_formatters : formatters w' = formatters w;
  kept_loggers : loggers w' = loggers w;
  kept_manager : manager w' = manager w;
  kept_now : now w' = now w;
  kept_appenders : ∀ p, match appenders w !! p, appenders w' !! p with
    | Some a, Some a' => la_kind a' = la_kind a ∧ la_level a' = la_level a ∧
                         la_formatter a' = la_formatter a ∧ la_mutex a' = la_mutex a
    | None, None => True
    | _, _ => False
    end;
}.
#[export] Instance kept_preorder : PreOrder kept.
Proof.
  split.
  - intros w. split; try done. intros p. by destruct (appenders w !! p).
  - intros w1 w2 w3 [F1 L1 M1 N1 A1] [F2 L2 M2 N2 A2]. split; try congruence.
    intros p. specialize (A1 p). specialize (A2 p).
    repeat case_match; try done. destruct_and!. split_and!; congruence.
Qed.

Lemma kept_insert w w' p a a' : appenders w !! p = Some a → appenders w' = <[p := a']> (appenders w) →
  formatters w' = formatters w → loggers w' = loggers w → manager w' = manager w → now w' = now w →
  la_kind a' = la_kind a → la_level a' = la_level a → la_formatter a' = la_formatter a →
  la_mutex a' = la_mutex a → kept w w'.
Proof.
  intros Ha Hw. split; try done. intros x. rewrite Hw.
  destruct (decide (x = p)) as [->|Hn]; [by rewrite Ha, lookup_insert_eq|].
  rewrite lookup_insert_ne by done. by destruct (appenders w !! x).
Qed.
Lemma kept_emit1 name level e w p : kept w (emit1 name level e w p).
Proof.
  unfold emit1. destruct (appenders w !! p) as [a|] eqn:Ha; [|done].
  destruct (level_lt _ _); [done|]. destruct (la_kind a).
  - split; try done. intros x. simpl. by destruct (appenders w !! x).
  - destruct (if now w =? la_last_time a then _ else _) as [f d]. unfold put_file.
    destruct (good _); [destruct (disk_pop d) as [[] d']|]; by eapply kept_insert.
Qed.
Lemma kept_ready w w' p : kept w w' → ready w p → ready w' p.
Proof.
  intros [F _ _ _ A] (a & Ha & Hl & q & Hq & Hf). specialize (A p). rewrite Ha in A.
  destruct (appenders w' !! p) as [a'|] eqn:Ha'; [|done]. destruct A as (_ & _ & A1 & A2).
  exists a'. split; [done|]. split; [congruence|]. exists q. split; [congruence|]. by rewrite F.
Qed.

Definition emit_all (name : string) (level : Level) (e : LogEvent) (w : logw) (l : list nat) : logw :=
  foldl (emit1 name level e) w l.
Lemma kept_emit_all name level e l w : kept w (emit_all name level e w l).
Proof.
  revert w. induction l as [|p l IH]; intros w; [done|]. simpl. trans (emit1 name level e w p); [|apply IH].
  apply kept_emit1.
Qed.
Lemma mfor_log_run l w name level e : Forall (ready w) l →
  mfor l (λ a, appender_log strftime a name level e) w = Ret tt (emit_all name level e w l).
Proof.
  revert w. induction l as [|p l IH]; intros w H; [done|]. apply Forall_cons in H as [Hp Hl].
  simpl. mstep (appender_log_run w p name level e Hp). apply IH.
  eapply Forall_impl; [done|]. intros x. apply kept_ready, kept_emit1.
Qed.

(** ** The invariant

    Everything that is pointed to exists, the appenders of a logger have a
    formatter, and no lock is held but that of the manager, which is [l]. *)

Record wf (l : lock) (w : logw) : Prop := mkWf {
  wf_appenders : ∀ p a, appenders w !! p = Some a →
    la_mutex a = Unlocked ∧ ∀ q, la_formatter a = Some q → is_Some (formatters w !! q);
  wf_loggers : ∀ p g, loggers w !! p = Some g →
    lg_mutex g = Unlocked ∧ is_Some (formatters w !! lg_formatter g) ∧
    Forall (ready w) (lg_appenders g);
  wf_manager : lm_mutex (manager w) = l;
  wf_root : is_Some (loggers w !! lm_root (manager w));
  wf_names : ∀ n p, lm_loggers (manager w) !! n = Some (Some p) → is_Some (loggers w !! p);
}.

Lemma kept_wf l w w' : kept w w' → wf l w → wf l w'.
Proof.
  intros K [A L Mx R N]. pose proof K as [KF KL KM _ KA]. split; rewrite ?KL, ?KM; try done.
  - intros p a' Ha'. specialize (KA p). rewrite Ha' in KA.
    destruct (appenders w !! p) as [a|] eqn:Ha; [|done]. destruct KA as (_ & _ & K1 & ->).
    rewrite KF, K1. by apply A in Ha.
  - intros p g Hg. apply L in Hg as (H1 & H2 & H3). rewrite KF. split_and!; [done|done|].
    eapply Forall_impl; [done|]. intros x. by apply kept_ready.
Qed.

Lemma relock_logger_id g l : lg_mutex g = Unlocked → relock_logger Unlocked (relock_logger l g) = g.
Proof. destruct g; simpl. by intros ->. Qed.

(** A guarded block on an unlocked logger. *)
Lemma logger_lock_run {A} (body : M logw A) w p g g' x w' :
  loggers w !! p = Some g → lg_mutex g = Unlocked →
  body (set_loggers (<[p := relock_logger Exclusive g]> (loggers w)) w) = Ret x w' →
  loggers w' !! p = Some g' → lg_mutex g' = Exclusive →
  logger_lock p body w = Ret x (set_loggers (<[p := relock_logger Unlocked g']> (loggers w')) w').
Proof.
  intros. by eapply heap_lock_run.
Qed.

Lemma emit1_set_loggers name level e w p h :
  emit1 name level e (set_loggers h w) p = set_loggers h (emit1 name level e w p).
Proof.
  unfold emit1. simpl. destruct (appenders w !! p) as [a|]; [|done].
  destruct (level_lt _ _); [done|]. destruct (la_kind a); [done|].
  destruct (if now w =? la_last_time a then _ else _) as [f d]. unfold put_file. simpl.
  destruct (good f); [destruct (disk_pop d) as [[] d']|]; done.
Qed.
Lemma emit_all_set_loggers name level e l w h :
  emit_all name level e (set_loggers h w) l = set_loggers h (emit_all name level e w l).
Proof.
  revert w. induction l as [|p l IH]; intros w; [done|]. simpl. by rewrite emit1_set_loggers, IH.
Qed.

Lemma log_run l w p g level e : wf l w → loggers w !! p = Some g →
  log strftime p level e w =
  Ret tt (if level_lt level (lg_level g) then w else emit_all (lg_name g) level e w (lg_appenders g)).
Proof.
  intros Hw Hg. destruct (wf_loggers _ _ Hw _ _ Hg) as (Hl & _ & Hr). unfold log.
  set (w1 := set_loggers (<[p := relock_logger Exclusive g]> (loggers w)) w).
  set (w2 := if level_lt level (lg_level g) then w1
             else emit_all (lg_name g) level e w1 (lg_appenders g)).
  assert (Hw2 : loggers w2 = <[p := relock_logger Exclusive g]> (loggers w)).
  { unfold w2. destruct (level_lt _ _); [done|]. by rewrite (kept_loggers _ _ (kept_emit_all _ _ _ _ _)). }
  rewrite (logger_lock_run _ w p g (relock_logger Exclusive g) tt w2); try done.
  - rewrite Hw2, insert_insert_eq, relock_logger_id, (insert_id _ p g) by done.
    unfold w2, w1. destruct (level_lt _ _); [by destruct w|]. rewrite emit_all_set_loggers.
    pose proof (kept_loggers _ _ (kept_emit_all (lg_name g) level e (lg_appenders g) w)) as HL.
    destruct (emit_all _ _ _ w _). simpl in *. unfold set_loggers. simpl. by rewrite HL.
  - fold w1. rewrite (bind_Ret _ _ _ (relock_logger Exclusive g) w1).
    2:{ unfold deref. simpl. by rewrite lookup_insert_eq. }
    simpl. unfold w2. destruct (level_lt _ _); [done|]. by apply mfor_log_run.
  - by rewrite Hw2, lookup_insert_eq.
Qed.

(** What an appender adds to std::cout and to the file [path]. *)
Definition stdout_part (w : logw) (name : string) (level : Level) (e : LogEvent) (p : nat) : string :=
  match appenders w !! p with
  | Some a =>
    match la_kind a with
    | StdoutLogAppender => if level_lt level (la_level a) then ""
                           else getColorStr (line w a name level e) (level_color level)
    | _ => ""
    end
  | None => ""
  end.
Definition file_part (w : logw) (path : string) (name : string) (level : Level) (e : LogEvent) (p : nat) :
    string :=
  match appenders w !! p with
  | Some a =>
    match la_kind a with
    | FileLogAppender f => if level_lt level (la_level a) || negb (bool_decide (f = path)) then ""
                           else line w a name level e
    | _ => ""
    end
  | None => ""
  end.
Definition joined (part : nat → string) (l : list nat) : string := foldr (λ p s, part p +:+ s) "" l.
Definition content (w : logw) (path : string) : string := default "" (files w !! path).

(** The appender writes to the console or has its file open. *)
Definition healthy (w : logw) (p : nat) : Prop :=
  ∀ a f, appenders w !! p = Some a → la_kind a = FileLogAppender f → la_file a = mkOfs true true.

Lemma parts_kept w w' name level e p : kept w w' →
  stdout_part w' name level e p = stdout_part w name level e p ∧
  ∀ path, file_part w' path name level e p = file_part w path name level e p.
Proof.
  intros [F _ _ _ A]. specialize (A p). unfold stdout_part, file_part.
  destruct (appenders w !! p) as [a|], (appenders w' !! p) as [a'|]; try done.
  destruct A as (-> & -> & Hf & _). by rewrite (line_eq w w' a a') by done.
Qed.

(** One appender, when the system takes everything. *)
Lemma emit1_delivers name level e w p : disk w = [] → ready w p → healthy w p →
  let w' := emit1 name level e w p in
  disk w' = [] ∧ (∀ x, healthy w x → healthy w' x) ∧
  out w' = out w +:+ stdout_part w name level e p ∧
  ∀ path, content w' path = content w path +:+ file_part w path name level e p.
Proof.
  intros Hd (a & Ha & _) Hh. unfold emit1, stdout_part, file_part. rewrite Ha.
  destruct (level_lt level (la_level a)).
  { split_and!; try done; destruct (la_kind a); intros; by rewrite app_empty_r. }
  destruct (la_kind a) as [|f] eqn:Hk; simpl.
  { split_and!; try done. intros. by rewrite app_empty_r. }
  assert (Hr : (if now w =? la_last_time a then (la_file a, disk w) else reopened (la_file a) (disk w)) =
    (mkOfs true true, [])).
  { rewrite (Hh a f Ha Hk), Hd. by destruct (now w =? la_last_time a). }
  rewrite Hr. unfold put_file, content. simpl. split_and!; [done| |by rewrite app_empty_r|].
  - intros x Hx b g. simpl. destruct (decide (x = p)) as [->|Hn].
    + rewrite lookup_insert_eq. by intros [= <-].
    + rewrite lookup_insert_ne by done. apply Hx.
  - intros path. case_bool_decide as Hp; subst; simpl.
    + by rewrite lookup_insert_eq.
    + by rewrite lookup_insert_ne, app_empty_r.
Qed.

Lemma emit_all_delivers name level e l w : disk w = [] → Forall (ready w) l → Forall (healthy w) l →
  let w' := emit_all name level e w l in
  disk w' = [] ∧ (∀ x, healthy w x → healthy w' x) ∧
  out w' = out w +:+ joined (stdout_part w name level e) l ∧
  ∀ path, content w' path = content w path +:+ joined (file_part w path name level e) l.
Proof.
  revert w. induction l as [|p l IH]; intros w Hd Hr Hh; simpl.
  { split_and!; [done|done|by rewrite app_empty_r|intros; by rewrite app_empty_r]. }
  apply Forall_cons in Hr as [Hp Hr], Hh as [Hhp Hh].
  destruct (emit1_delivers name level e w p Hd Hp Hhp) as (Hd1 & Hh1 & Ho1 & Hf1).
  pose proof (kept_emit1 name level e w p) as K. set (w1 := emit1 name level e w p) in *.
  destruct (IH w1) as (Hd2 & Hh2 & Ho2 & Hf2); [done| | |].
  - apply (Forall_impl _ _ _ Hr). intros x. by apply kept_ready.
  - apply (Forall_impl _ _ _ Hh). intros x. apply Hh1.
  - assert (Hs : joined (stdout_part w1 name level e) l = joined (stdout_part w name level e) l).
    { clear -K. induction l as [|x l IH]; simpl; [done|]. by rewrite IH, (proj1 (parts_kept _ _ _ _ _ _ K)). }
    assert (Hfs : ∀ path, joined (file_part w1 path name level e) l = joined (file_part w path name level e) l).
    { clear -K. intros path. induction l as [|x l IH]; simpl; [done|].
      by rewrite IH, (proj2 (parts_kept _ _ _ _ _ _ K)). }
    split_and!; [done|auto| |].
    + by rewrite Ho2, Ho1, Hs, sapp_assoc.
    + intros path. by rewrite Hf2, Hf1, Hfs, sapp_assoc.
Qed.

(** C28: While the disk takes everything and the file appenders of the logger
    have their files open, an event at or above the level of a logger is
    printed once by each of its appenders with a level not above, in their
    order, on the console or at the end of its file; one below is not printed.
    Nothing else changes. (After an error of its file an appender prints
    nothing any more, [file_error_is_final].) *)
Theorem log_delivers w p g level e : wf Unlocked w → loggers w !! p = Some g → disk w = [] →
  Forall (healthy w) (lg_appenders g) →
  ∃ w', log strftime p level e w = Ret tt w' ∧ wf Unlocked w' ∧ kept w w' ∧
    (∀ x, healthy w x → healthy w' x) ∧
    if level_lt level (lg_level g) then w' = w
    else out w' = out w +:+ joined (stdout_part w (lg_name g) level e) (lg_appenders g) ∧
         ∀ path, content w' path =
           content w path +:+ joined (file_part w path (lg_name g) level e) (lg_appenders g).
Proof.
  intros Hw Hg Hd Hh. rewrite (log_run _ w p g level e Hw Hg). eexists. split; [done|].
  destruct (wf_loggers _ _ Hw _ _ Hg) as (_ & _ & Hr). destruct (level_lt _ _); [done|].
  pose proof (kept_emit_all (lg_name g) level e (lg_appenders g) w) as K.
  destruct (emit_all_delivers (lg_name g) level e _ w Hd Hr Hh) as (_ & Hh' & Ho & Hf).
  split; [by apply (kept_wf _ w)|done].
Qed.
End Delivery.
