(* ===== verification/LoggerSpec.v ===== *)
(** * The operations of appenders, loggers and the registry

    The exact effect of each on a well-formed state, the invariant through any
    sequence of them, and where it ends: the lookup of an unknown logger, and
    a file whose write failed. *)

From Stdlib Require Import Ascii String.
From S2P Require Import Prelude Strings StringsSpec LogFormat Locks Logger LogSpec.
#[local] Open Scope Z_scope.

(** ** How changes keep the invariant *)

Section Keep.
Context (l : lock) (w : logw) (Hw : wf l w).

Lemma ready_appenders p a x : (∀ b, appenders w !! p = Some b → is_Some (la_formatter b) → is_Some (la_formatter a)) →
  la_mutex a = Unlocked → (∀ q, la_formatter a = Some q → is_Some (formatters w !! q)) →
  ready w x → ready (set_appenders (<[p := a]> (appenders w)) w) x.
Proof using Type.
  intros Hf Hl Hq (b & Hb & Hbl & q & Hbq & Hq'). unfold ready. simpl.
  destruct (decide (x = p)) as [->|Hn].
  - rewrite lookup_insert_eq. exists a. split_and!; [done|done|].
    destruct (Hf b Hb) as [q' Hq'']; [by rewrite Hbq|]. exists q'. split; [done|by apply Hq].
  - rewrite lookup_insert_ne by done. exists b. eauto.
Qed.
Lemma wf_insert_appender p a : la_mutex a = Unlocked →
  (∀ q, la_formatter a = Some q → is_Some (formatters w !! q)) →
  (∀ b, appenders w !! p = Some b → is_Some (la_formatter b) → is_Some (la_formatter a)) →
  wf l (set_appenders (<[p := a]> (appenders w)) w).
Proof using Hw.
  intros Hl Hq Hf. destruct Hw as [A L Mx R N]. split; try done; simpl.
  - intros x b. destruct (decide (x = p)) as [->|Hn].
    + rewrite lookup_insert_eq. by intros [= <-].
    + rewrite lookup_insert_ne by done. apply A.
  - intros x g (H1 & H2 & H3)%L. split_and!; [done|done|].
    apply (Forall_impl _ _ _ H3). intros y. by apply ready_appenders.
Qed.
Lemma wf_insert_logger p g : lg_mutex g = Unlocked → is_Some (formatters w !! lg_formatter g) →
  Forall (ready w) (lg_appenders g) → wf l (set_loggers (<[p := g]> (loggers w)) w).
Proof using Hw.
  intros Hl Hf Ha. destruct Hw as [A L Mx R N].
  assert (H : ∀ x, is_Some (loggers w !! x) → is_Some ((<[p := g]> (loggers w)) !! x)).
  { intros x Hx. destruct (decide (x = p)) as [->|Hn]; [by rewrite lookup_insert_eq|].
    by rewrite lookup_insert_ne. }
  split; simpl; eauto. intros x h. destruct (decide (x = p)) as [->|Hn].
  - rewrite lookup_insert_eq. by intros [= <-].
  - rewrite lookup_insert_ne by done. apply L.
Qed.
Lemma wf_insert_formatter q f : wf l (set_formatters (<[q := f]> (formatters w)) w).
Proof using Hw.
  destruct Hw as [A L Mx R N].
  assert (H : ∀ x, is_Some (formatters w !! x) → is_Some ((<[q := f]> (formatters w)) !! x)).
  { intros x Hx. destruct (decide (x = q)) as [->|Hn]; [by rewrite lookup_insert_eq|].
    by rewrite lookup_insert_ne. }
  split; simpl; try done.
  - intros p a Ha. destruct (A p a Ha) as [H1 H2]. split; [done|]. intros q' Hq'. by apply H, H2.
  - intros p g (H1 & H2 & H3)%L. split_and!; [done|by apply H|].
    apply (Forall_impl _ _ _ H3). intros x (a & Ha & Hl & q' & Hq' & Hs).
    exists a. split_and!; [done|done|]. exists q'. split; [done|]. by apply H.
Qed.
Lemma wf_set_files fl d : wf l (set_files fl d w).
Proof using Hw. by destruct Hw. Qed.
Lemma wf_set_manager l' m : lm_mutex m = l' → is_Some (loggers w !! lm_root m) →
  (∀ n p, lm_loggers m !! n = Some (Some p) → is_Some (loggers w !! p)) → wf l' (set_manager m w).
Proof using Hw. intros. destruct Hw. by split. Qed.
Lemma wf_alloc_logger g : lg_mutex g = Unlocked → is_Some (formatters w !! lg_formatter g) →
  Forall (ready w) (lg_appenders g) →
  wf l (set_loggers (<[fresh (dom (loggers w)) := g]> (loggers w)) w).
Proof using Hw. apply wf_insert_logger. Qed.
End Keep.

(** ** Appenders and loggers *)

Section Runs.
Context (strftime : Z → string → string).

Lemma addAppender_run l w p a g x : wf l w → loggers w !! p = Some g → appenders w !! a = Some x →
  addAppender p a w =
  Ret tt (set_loggers (<[p := with_appenders (lg_appenders g ++ [a]) g]> (loggers w))
    (set_appenders (<[a := with_formatter (Some (default (lg_formatter g) (la_formatter x))) x]> (appenders w)) w)).
Proof.
  intros Hw Hg Hx. destruct (wf_loggers _ _ Hw _ _ Hg) as (Hl & _).
  destruct (wf_appenders _ _ Hw _ _ Hx) as (Hlx & _). unfold addAppender.
  set (ge := relock_logger Exclusive g).
  set (w1 := set_loggers (<[p := ge]> (loggers w)) w).
  set (w2 := set_appenders (<[a := with_formatter (Some (default (lg_formatter g) (la_formatter x))) x]>
    (appenders w)) w1).
  rewrite (logger_lock_run _ w p g (with_appenders (lg_appenders g ++ [a]) ge) tt
    (set_loggers (<[p := with_appenders (lg_appenders g ++ [a]) ge]> (loggers w2)) w2)); try done.
  - simpl. rewrite !insert_insert_eq. unfold set_loggers, set_appenders. simpl. do 3 f_equal.
    destruct g; simpl in *; by subst.
  - fold ge w1. rewrite (bind_Ret _ _ _ (la_formatter x) w1) by (by apply (getFormatter_run w1 a x)).
    rewrite (bind_Ret _ _ _ ge w1) by (unfold deref, w1; simpl; by rewrite lookup_insert_eq).
    rewrite (bind_Ret _ _ _ tt w2).
    + unfold upd_logger, mmodify. rewrite (alter_Some _ _ _ ge); [done|].
      simpl. by rewrite lookup_insert_eq.
    + unfold w2. destruct (la_formatter x) as [q|] eqn:Hq; simpl.
      * replace (with_formatter (Some q) x) with x by (destruct x; simpl in *; by subst).
        unfold set_appenders. by rewrite (insert_id _ a x).
      * by apply (setFormatter_run w1 a x).
  - simpl. by rewrite lookup_insert_eq.
Qed.

Lemma upd_logger_run l w p g f : wf l w → loggers w !! p = Some g →
  (∀ h k, f (relock_logger k h) = relock_logger k (f h)) →
  logger_lock p (upd_logger p f) w = Ret tt (set_loggers (<[p := f g]> (loggers w)) w).
Proof.
  intros Hw Hg Hf. destruct (wf_loggers _ _ Hw _ _ Hg) as (Hl & _).
  rewrite (logger_lock_run _ w p g (f (relock_logger Exclusive g)) tt
    (set_loggers (<[p := f (relock_logger Exclusive g)]> (loggers w)) w)); try done.
  - simpl. rewrite insert_insert_eq, <-Hf. unfold set_loggers. simpl. by rewrite relock_logger_id.
  - unfold upd_logger, mmodify. simpl. by rewrite alter_insert_eq.
  - simpl. by rewrite lookup_insert_eq.
  - by rewrite Hf.
Qed.
Lemma clearAppenders_run l w p g : wf l w → loggers w !! p = Some g →
  clearAppenders p w = Ret tt (set_loggers (<[p := with_appenders [] g]> (loggers w)) w).
Proof. intros Hw Hg. by eapply upd_logger_run. Qed.
Lemma delAppender_run l w p a g : wf l w → loggers w !! p = Some g →
  delAppender p a w =
  Ret tt (set_loggers (<[p := with_appenders (erase_first a (lg_appenders g)) g]> (loggers w)) w).
Proof.
  intros Hw Hg. destruct (wf_loggers _ _ Hw _ _ Hg) as (Hl & _). unfold delAppender.
  set (h := with_appenders (erase_first a (lg_appenders g)) (relock_logger Exclusive g)).
  rewrite (logger_lock_run _ w p g h tt (set_loggers (<[p := h]> (loggers w)) w)); try done.
  - simpl. rewrite insert_insert_eq. unfold set_loggers. simpl. do 3 f_equal.
    destruct g; simpl in *; by subst.
  - rewrite (bind_Ret _ _ _ (relock_logger Exclusive g)
      (set_loggers (<[p := relock_logger Exclusive g]> (loggers w)) w)).
    2:{ unfold deref. simpl. by rewrite lookup_insert_eq. }
    unfold upd_logger, mmodify. simpl. by rewrite alter_insert_eq.
  - simpl. by rewrite lookup_insert_eq.
Qed.
Lemma setLevel_run w p g level : loggers w !! p = Some g →
  setLevel p level w = Ret tt (set_loggers (<[p := with_level level g]> (loggers w)) w).
Proof.
  intros Hg. unfold setLevel. rewrite (bind_Ret _ _ _ g w) by (unfold deref; by rewrite Hg).
  unfold upd_logger, mmodify. by rewrite (alter_Some _ _ _ _ Hg).
Qed.

(** The formatter of a format string; it does not depend on the state. *)
Definition parsed (format : string) : option LogFormatter :=
  match LogFormatter_create format tt with Ret f _ => Some f | _ => None end.
Lemma parsed_run {St} (w : St) format f : parsed format = Some f → LogFormatter_create format w = Ret f w.
Proof.
  unfold parsed, LogFormatter_create.
  destruct (formatParser format tt) as [l []| |] eqn:E;
    [|by rewrite (bind_Throw _ _ _ _ _ E)|by rewrite (bind_Fault _ _ _ _ E)].
  rewrite (bind_Ret _ _ _ _ _ E). intros [= <-]. apply formatParser_Ret in E.
  by rewrite (bind_Ret _ _ _ _ _ (formatParser_reads w _ _ E)).
Qed.

(** The formatter of a new logger. *)
Definition default_formatter : LogFormatter := default (mkFormatter [] default_format) (parsed default_format).
Lemma default_formatter_run {St} (w : St) : LogFormatter_create default_format w = Ret default_formatter w.
Proof. apply parsed_run. vm_compute. reflexivity. Qed.

Definition add_formatter (f : LogFormatter) (w : logw) : logw :=
  set_formatters (<[fresh (dom (formatters w)) := f]> (formatters w)) w.
Definition add_logger (g : Logger) (w : logw) : logw :=
  set_loggers (<[fresh (dom (loggers w)) := g]> (loggers w)) w.
Definition add_appender (a : LogAppender) (w : logw) : logw :=
  set_appenders (<[fresh (dom (appenders w)) := a]> (appenders w)) w.


Definition logger_of (w : logw) (name : string) (level : Level) : Logger :=
  mkLogger name level [] (fresh (dom (formatters w))) Unlocked.
Lemma Logger_create_run w name level : Logger_create name level w =
  Ret (fresh (dom (loggers w))) (add_logger (logger_of w name level) (add_formatter default_formatter w)).
Proof. unfold Logger_create. by mstep (default_formatter_run w). Qed.

(** A logger with an appender to std::cout. *)
Definition console (level : Level) (q : option nat) : LogAppender :=
  mkAppender StdoutLogAppender level q Unlocked (mkOfs false true) 0.
Definition with_stdout_logger (name : string) (w : logw) : logw :=
  add_logger (mkLogger name DEBUG [fresh (dom (appenders w))] (fresh (dom (formatters w))) Unlocked)
    (add_appender (console DEBUG (Some (fresh (dom (formatters w))))) (add_formatter default_formatter w)).
Lemma wf_logger_added l w name level : wf l w →
  wf l (add_logger (logger_of w name level) (add_formatter default_formatter w)).
Proof.
  intros Hw. apply wf_insert_logger; [by apply wf_insert_formatter|done| |by constructor].
  simpl. by rewrite lookup_insert_eq.
Qed.
Lemma stdout_logger_run l w name : wf l w →
  stdout_logger name w = Ret (fresh (dom (loggers w))) (with_stdout_logger name w).
Proof.
  intros Hw. unfold stdout_logger. mstep (Logger_create_run w name DEBUG).
  pose proof (wf_logger_added l w name DEBUG Hw) as Hw1. set (w1 := add_logger _ _) in *.
  rewrite (bind_Ret _ _ _ (fresh (dom (appenders w))) (add_appender (console DEBUG None) w1)) by done.
  assert (Hw2 : wf l (add_appender (console DEBUG None) w1)).
  { by apply wf_insert_appender; simpl; rewrite ?fresh_None. }
  erewrite bind_Ret.
  2:{ eapply (addAppender_run l _ _ _ (logger_of w name DEBUG)); [exact Hw2| |].
      - simpl. by rewrite lookup_insert_eq.
      - simpl. by rewrite lookup_insert_eq. }
  unfold mreturn, with_stdout_logger, add_logger, add_appender, set_loggers, set_appenders. simpl.
  by rewrite !insert_insert_eq.
Qed.
Lemma wf_with_stdout_logger l w name : wf l w → wf l (with_stdout_logger name w).
Proof.
  intros Hw. apply wf_insert_logger; simpl.
  - apply wf_insert_appender; simpl; [by apply wf_insert_formatter|done| |].
    + intros q [= <-]. by rewrite lookup_insert_eq.
    + by rewrite fresh_None.
  - done.
  - by rewrite lookup_insert_eq.
  - constructor; [|done]. eexists. simpl. rewrite lookup_insert_eq. split_and!; [done|done|].
    eexists. split; [done|]. by rewrite lookup_insert_eq.
Qed.

(** ** The registry *)

Definition relock_manager (l : lock) (w : logw) : logw :=
  set_manager (mkManager (lm_loggers (manager w)) (lm_root (manager w)) l) w.
Lemma relock_manager_id l w : lm_mutex (manager w) = Unlocked →
  relock_manager Unlocked (relock_manager l w) = w.
Proof. destruct w as [? ? ? [] ? ? ? ?]; simpl. by intros ->. Qed.

Lemma manager_lock_run {A} (body : M logw A) w x w' : lm_mutex (manager w) = Unlocked →
  body (relock_manager Exclusive w) = Ret x w' → lm_mutex (manager w') = Exclusive →
  manager_lock body w = Ret x (relock_manager Unlocked w').
Proof.
  intros Hl Hb Hl'. unfold manager_lock. fold (relock_manager Exclusive w) in Hb.
  rewrite (scoped_run _ _ _ Exclusive); unfold relock_manager in *; rewrite ?Hb; try done; simpl;
    by rewrite ?Hl, ?Hl'.
Qed.

Definition root_of (w : logw) : option nat :=
  match lm_loggers (manager w) !! "root" with None => Some (lm_root (manager w)) | Some p => p end.
Lemma getRoot_run w : lm_mutex (manager w) = Unlocked → getRoot w = Ret (root_of w) w.
Proof.
  intros Hl. unfold getRoot. rewrite (manager_lock_run _ w (root_of w) (relock_manager Exclusive w)); try done.
  by rewrite relock_manager_id.
Qed.
Lemma getRoot_locked w : lm_mutex (manager w) = Exclusive → getRoot w = Fault Deadlock.
Proof. intros Hl. eapply scoped_held; [by rewrite Hl|done]. Qed.

Lemma upd_manager_run w f : lm_mutex (manager w) = Unlocked →
  (∀ m, lm_mutex (f m) = lm_mutex m) →
  (∀ m l, f (mkManager (lm_loggers m) (lm_root m) l) = mkManager (lm_loggers (f m)) (lm_root (f m)) l) →
  manager_lock (upd_manager f) w = Ret tt (set_manager (f (manager w)) w).
Proof.
  intros Hl Hf Hc. rewrite (manager_lock_run _ w tt (set_manager (f (manager (relock_manager Exclusive w)))
    (relock_manager Exclusive w))); try done.
  - f_equal. unfold relock_manager, set_manager. simpl. f_equal. rewrite Hc. simpl.
    specialize (Hf (manager w)). rewrite Hl in Hf. by destruct (f (manager w)); simpl in *; subst.
  - simpl. by rewrite Hf.
Qed.
Lemma setLogger_run w name p : lm_mutex (manager w) = Unlocked →
  setLogger name p w = Ret tt (set_manager (insert_logger name p (manager w)) w).
Proof. intros Hl. by apply upd_manager_run. Qed.
Lemma delLogger_run w name : lm_mutex (manager w) = Unlocked →
  delLogger name w = Ret tt (set_manager
    (mkManager (delete name (lm_loggers (manager w))) (lm_root (manager w)) Unlocked) w).
Proof. intros Hl. unfold delLogger. rewrite upd_manager_run by done. simpl. by rewrite Hl. Qed.

Lemma getLogger_found at_ w name b p : lm_mutex (manager w) = Unlocked →
  lm_loggers (manager w) !! name = Some p → getLogger strftime at_ name b w = Ret p w.
Proof.
  intros Hl Hp. unfold getLogger. rewrite (manager_lock_run _ w p (relock_manager Exclusive w)); try done.
  - by rewrite relock_manager_id.
  - rewrite (bind_Ret mget _ _ _ _ eq_refl). simpl. by rewrite Hp.
Qed.
(** A new logger is registered under its name. *)
Definition with_named_logger (name : string) (w : logw) : logw :=
  set_manager (insert_logger name (Some (fresh (dom (loggers w)))) (manager w)) (with_stdout_logger name w).
Lemma wf_relock_manager l l' w : wf l w → wf l' (relock_manager l' w).
Proof. intros Hw. apply (wf_set_manager l); [done|done|by destruct Hw|by destruct Hw]. Qed.
Lemma getLogger_create at_ w name : wf Unlocked w → lm_loggers (manager w) !! name = None →
  getLogger strftime at_ name true w = Ret (Some (fresh (dom (loggers w)))) (with_named_logger name w).
Proof.
  intros Hw Hn. pose proof (wf_manager _ _ Hw) as Hl. unfold getLogger.
  rewrite (manager_lock_run _ w (Some (fresh (dom (loggers w))))
    (relock_manager Exclusive (with_named_logger name w))); try done.
  - rewrite relock_manager_id; [done|]. simpl. by rewrite Hl.
  - rewrite (bind_Ret mget _ _ _ _ eq_refl). simpl. rewrite Hn.
    mstep (stdout_logger_run Exclusive _ name (wf_relock_manager _ Exclusive _ Hw)). done.
Qed.
Lemma wf_with_named_logger w name : wf Unlocked w → wf Unlocked (with_named_logger name w).
Proof.
  intros Hw. apply (wf_set_manager Unlocked); [by apply wf_with_stdout_logger|by destruct Hw| |].
  - destruct (wf_root _ _ (wf_with_stdout_logger _ _ name Hw)) as [g Hg]. by exists g.
  - intros n p. simpl. destruct (decide (n = name)) as [->|Hn].
    + rewrite lookup_insert_eq. intros [= <-]. by rewrite lookup_insert_eq.
    + rewrite lookup_insert_ne by done. apply (wf_names _ _ (wf_with_stdout_logger _ _ name Hw)).
Qed.

(** The lookup of an unknown logger logs a warning to the root logger while it
    holds the lock that getRoot takes. *)
Lemma getLogger_unknown at_ w name : lm_mutex (manager w) = Unlocked →
  lm_loggers (manager w) !! name = None → getLogger strftime at_ name false w = Fault Deadlock.
Proof.
  intros Hl Hn. eapply (scoped_Fault _ _ _ Exclusive); [done|by rewrite Hl|].
  rewrite (bind_Ret mget _ _ _ _ eq_refl). simpl. rewrite Hn.
  apply bind_Fault, bind_Fault. by apply getRoot_locked.
Qed.

(** ** LON_LOG_LEVEL *)

Definition event_of (w : logw) (level : Level) (at_ : site) (message : string) : LogEvent :=
  append_message message (LogEvent_create level (file_ at_) (line_ at_) 0 (thread_ at_) (fiber_ at_) (now w)
    (thread_name_ at_)).
Definition logged (w : logw) (p : nat) (level : Level) (e : LogEvent) : logw :=
  match loggers w !! p with
  | Some g => if level_lt level (lg_level g) then w
              else emit_all strftime (lg_name g) level e w (lg_appenders g)
  | None => w
  end.
Lemma kept_logged w p level e : kept w (logged w p level e).
Proof.
  unfold logged. destruct (loggers w !! p); [|done]. destruct (level_lt _ _); [done|]. apply kept_emit_all.
Qed.

Lemma LON_LOG_LEVEL_run logger level at_ message w p w1 : logger w = Ret p w1 → logger w1 = Ret p w1 →
  wf Unlocked w1 → (∀ x, p = Some x → is_Some (loggers w1 !! x)) →
  LON_LOG_LEVEL strftime logger level at_ message w =
  Ret tt (match p with Some x => logged w1 x level (event_of w1 level at_ message) | None => w1 end).
Proof.
  intros E E1 Hw Hp. unfold LON_LOG_LEVEL. mstep E. destruct p as [x|]; [|done].
  mstep E1. destruct (Hp x eq_refl) as [g Hg].
  rewrite (bind_Ret _ _ _ (lg_level g) w1).
  2:{ unfold getLevel. by rewrite (bind_Ret _ _ _ g w1) by (unfold deref; by rewrite Hg). }
  unfold logged. rewrite Hg. unfold level_lt.
  destruct (Z.leb_spec (level_num (lg_level g)) (level_num level)).
  - mstep E1. rewrite (bind_Ret mget _ _ _ _ eq_refl). unfold LoggerWrapper_destroy. simpl m_level.
    by rewrite (log_run strftime Unlocked w1 x g).
  - by rewrite (proj2 (Z.ltb_lt _ _)).
Qed.
End Runs.

(** ** Any use of the log

    An operation a program may call, the passing of time and what the disk
    will answer. *)

Inductive op :=
| NewFormatter (format : string)
| NewStdout (level : Level)
| NewFile (filename : string) (level : Level)
| SetFormatter (appender formatter : nat)
| NewLogger (name : string) (level : Level)
| AddAppender (logger appender : nat)
| DelAppender (logger appender : nat)
| ClearAppenders (logger : nat)
| SetLevel (logger : nat) (level : Level)
| SetLevelName (logger : nat) (level : string)
| Log (logger : nat) (level : Level) (event : LogEvent)
| SetLogger (name : string) (logger : option nat)
| GetLogger (name : string) (auto_create : bool)
| DelLogger (name : string)
| GetRoot
| LogRoot (level : Level) (message : string)
| LogName (name : string) (level : Level) (message : string)
| Environment (time : Z) (answers : list bool).

Section Program.
Context (strftime : Z → string → string) (at_ : site).

Definition exec (o : op) : M logw unit :=
  match o with
  | NewFormatter format => f <- LogFormatter_create format;; new_formatter f;; mreturn tt
  | NewStdout level => StdoutLogAppender_create level;; mreturn tt
  | NewFile filename level => FileLogAppender_create filename level;; mreturn tt
  | SetFormatter a q => setFormatter a (Some q)
  | NewLogger name level => Logger_create name level;; mreturn tt
  | AddAppender p a => addAppender p a
  | DelAppender p a => delAppender p a
  | ClearAppenders p => clearAppenders p
  | SetLevel p level => setLevel p level
  | SetLevelName p level => setLevel_name p level
  | Log p level e => log strftime p level e
  | SetLogger name p => setLogger name p
  | GetLogger name auto_create => getLogger strftime at_ name auto_create;; mreturn tt
  | DelLogger name => delLogger name
  | GetRoot => getRoot;; mreturn tt
  | LogRoot level message => LON_LOG_LEVEL strftime LON_LOG_ROOT level at_ message
  | LogName name level message => LON_LOG_LEVEL strftime (LON_LOG_NAME strftime at_ name) level at_ message
  | Environment time answers =>
      mmodify (λ w, mkLogw (formatters w) (appenders w) (loggers w) (manager w) (out w) (files w) time answers)
  end.

(** The objects an operation is called on are there. *)
Definition live (w : logw) (o : op) : Prop :=
  match o with
  | SetFormatter a q => is_Some (appenders w !! a) ∧ is_Some (formatters w !! q)
  | AddAppender p a | DelAppender p a => is_Some (loggers w !! p) ∧ is_Some (appenders w !! a)
  | ClearAppenders p | SetLevel p _ | SetLevelName p _ | Log p _ _ => is_Some (loggers w !! p)
  | SetLogger _ (Some p) => is_Some (loggers w !! p)
  | _ => True
  end.
(** An unknown logger is asked for. *)
Definition unknown (w : logw) (o : op) : Prop :=
  match o with
  | GetLogger name false => lm_loggers (manager w) !! name = None
  | _ => False
  end.

#[global] Instance unknown_dec w o : Decision (unknown w o).
Proof. destruct o as [| | | | | | | | | | | |name []| | | | |]; apply _. Defined.

Inductive reachable : logw → Prop :=
| reach_start time w : LoggerManager_create None (logw_init time) = Ret tt w → reachable w
| reach_return w o w' : reachable w → live w o → exec o w = Ret tt w' → reachable w'
| reach_throw w o e w' : reachable w → live w o → exec o w = Throw e w' → reachable w'.

Lemma wf_update_logger l w p f g : wf l w → loggers w !! p = Some g → lg_mutex (f g) = lg_mutex g →
  lg_formatter (f g) = lg_formatter g → Forall (ready w) (lg_appenders (f g)) →
  wf l (set_loggers (<[p := f g]> (loggers w)) w).
Proof.
  intros Hw Hg H1 H2 Ha. destruct (wf_loggers _ _ Hw _ _ Hg) as (Hl & Hf & _).
  apply wf_insert_logger; [done|by rewrite H1|by rewrite H2|done].
Qed.
Lemma erase_first_incl x l : ∀ y, y ∈ erase_first x l → y ∈ l.
Proof.
  induction l as [|z l IH]; intros y; simpl; [done|]. case_decide; rewrite !elem_of_cons; [auto|].
  intros [->|Hy]; auto.
Qed.

(** A new file appender tries to open its file. *)
Definition file_appender (filename : string) (level : Level) (f : ofstream) : LogAppender :=
  mkAppender (FileLogAppender filename) level None Unlocked f 0.
Lemma FileLogAppender_create_run w filename level : ∃ f d,
  FileLogAppender_create filename level w =
  Ret (fresh (dom (appenders w))) (set_files (files w) d (add_appender (file_appender filename level f) w)).
Proof.
  unfold FileLogAppender_create. set (a := mkAppender _ _ _ _ _ _).
  rewrite (bind_Ret _ _ _ (fresh (dom (appenders w))) (add_appender a w)) by done.
  eexists _, _. erewrite bind_Ret by (apply (reopen_run _ _ a); [simpl; by rewrite lookup_insert_eq|done]).
  unfold mreturn, add_appender, set_appenders. simpl. by rewrite insert_insert_eq.
Qed.
Lemma wf_add_appender l w a : wf l w → la_mutex a = Unlocked → la_formatter a = None →
  wf l (add_appender a w).
Proof.
  intros Hw Hl Hf. apply wf_insert_appender; [done|done|by rewrite Hf|by rewrite fresh_None].
Qed.
Lemma new_file_run l w filename level : wf l w →
  ∃ p w', FileLogAppender_create filename level w = Ret p w' ∧ wf l w'.
Proof.
  intros Hw. destruct (FileLogAppender_create_run w filename level) as (f & d & E).
  eexists _, _. split; [exact E|]. by apply wf_set_files, wf_add_appender.
Qed.
Lemma add_appender_wf l w p a g x : wf l w → loggers w !! p = Some g → appenders w !! a = Some x →
  ∃ w', addAppender p a w = Ret tt w' ∧ wf l w'.
Proof.
  intros Hw Hg Hx. eexists. split; [by eapply addAppender_run|].
  destruct (wf_loggers _ _ Hw _ _ Hg) as (Hl & Hf & Ha). destruct (wf_appenders _ _ Hw _ _ Hx) as (Hlx & Hq).
  set (x' := with_formatter _ x).
  assert (Hx' : ∀ q, la_formatter x' = Some q → is_Some (formatters w !! q)).
  { intros q [= <-]. destruct (la_formatter x) as [q'|] eqn:E; simpl; [by apply Hq|done]. }
  assert (Hw' : wf l (set_appenders (<[a := x']> (appenders w)) w)) by (by apply wf_insert_appender).
  apply (wf_insert_logger l _ Hw'); [done|done|]. simpl. apply Forall_app. split.
  - apply (Forall_impl _ _ _ Ha). intros y. by apply ready_appenders.
  - constructor; [|done]. exists x'. simpl. rewrite lookup_insert_eq. split_and!; [done|done|].
    eexists. split; [done|]. by apply Hx'.
Qed.
Lemma named_log_wf w name level message : wf Unlocked w →
  ∃ w', LON_LOG_LEVEL strftime (LON_LOG_NAME strftime at_ name) level at_ message w = Ret tt w' ∧
    wf Unlocked w'.
Proof.
  intros Hw. destruct (lm_loggers (manager w) !! name) as [p|] eqn:Hp.
  - pose proof (getLogger_found strftime at_ w name true p (wf_manager _ _ Hw) Hp) as E.
    eexists. split.
    { apply (LON_LOG_LEVEL_run _ _ _ _ _ _ p w E E Hw). intros x ->. by apply (wf_names _ _ Hw name). }
    destruct p as [x|]; [|done]. eapply kept_wf; [apply kept_logged|done].
  - pose proof (wf_with_named_logger w name Hw) as Hw'.
    assert (Hn : lm_loggers (manager (with_named_logger name w)) !! name = Some (Some (fresh (dom (loggers w))))).
    { simpl. by rewrite lookup_insert_eq. }
    eexists. split.
    { eapply LON_LOG_LEVEL_run.
      - by apply getLogger_create.
      - apply getLogger_found; [apply (wf_manager _ _ Hw')|done].
      - done.
      - intros x [= <-]. by apply (wf_names _ _ Hw' name). }
    eapply kept_wf; [apply kept_logged|done].
Qed.

Definition returns (o : outcome logw unit) : Prop := ∃ w, o = Ret tt w ∧ wf Unlocked w.
Definition fails (w : logw) (o : op) : Prop :=
  ∃ format e, o = NewFormatter format ∧ exec o w = Throw e w.

Lemma returns_wf w w' (m : M logw unit) : wf Unlocked w' → m w = Ret tt w' → returns (m w).
Proof. intros H E. exists w'. auto. Qed.

Lemma exec_object w o : wf Unlocked w → live w o →
  match o with
  | SetFormatter _ _ | AddAppender _ _ | DelAppender _ _ | ClearAppenders _ | SetLevel _ _
  | SetLevelName _ _ | Log _ _ _ => returns (exec o w)
  | _ => True
  end.
Proof.
  intros Hw. destruct o as [| | |a q| |p a|p a|p|p level|p level|p level e| | | | | | |]; try done; simpl.
  - intros [[x Hx] Hq]. eapply returns_wf; [|apply setFormatter_run; [done|by apply (wf_appenders _ _ Hw _ _ Hx)]].
    apply wf_insert_appender; [done|by apply (wf_appenders _ _ Hw _ _ Hx)|by intros ? [= <-]|done].
  - intros [[g Hg] [x Hx]]. destruct (add_appender_wf _ w p a g x Hw Hg Hx) as (w' & E & H). by exists w'.
  - intros [[g Hg] [x Hx]]. eapply returns_wf; [|by eapply delAppender_run].
    apply (wf_update_logger _ _ _ (with_appenders _)); try done. simpl.
    destruct (wf_loggers _ _ Hw _ _ Hg) as (_ & _ & Ha).
    apply Forall_forall. intros y Hy%erase_first_incl. by eapply Forall_forall in Ha.
  - intros [g Hg]. eapply returns_wf; [|by eapply clearAppenders_run].
    by apply (wf_update_logger _ _ _ (with_appenders [])).
  - intros [g Hg]. eapply returns_wf; [|by apply setLevel_run].
    apply (wf_update_logger _ _ _ (with_level _)); try done. by apply (wf_loggers _ _ Hw _ _ Hg).
  - intros [g Hg]. eapply returns_wf; [|by apply setLevel_run].
    apply (wf_update_logger _ _ _ (with_level _)); try done. by apply (wf_loggers _ _ Hw _ _ Hg).
  - intros [g Hg]. eapply returns_wf; [|by eapply log_run].
    destruct (level_lt _ _); [done|]. eapply kept_wf; [apply kept_emit_all|done].
Qed.

Lemma exec_registry w o : wf Unlocked w → live w o → ¬ unknown w o →
  match o with
  | SetLogger _ _ | GetLogger _ _ | DelLogger _ | GetRoot | LogRoot _ _ | LogName _ _ _ => returns (exec o w)
  | _ => True
  end.
Proof.
  intros Hw. pose proof (wf_manager _ _ Hw) as Hm.
  destruct o as [| | | | | | | | | | |name p|name b|name| |level message|name level message|]; try done; simpl.
  - intros Hp _. eapply returns_wf; [|by apply setLogger_run].
    apply (wf_set_manager Unlocked); [done|done|by destruct Hw|]. intros n x. simpl.
    destruct (decide (n = name)) as [->|Hn].
    + rewrite lookup_insert_eq. by intros [= ->].
    + rewrite lookup_insert_ne by done. apply (wf_names _ _ Hw).
  - intros _ Hu. destruct (lm_loggers (manager w) !! name) as [p|] eqn:Hp.
    + eapply returns_wf; [exact Hw|]. by rewrite (bind_Ret _ _ _ _ _ (getLogger_found strftime at_ w name b p Hm Hp)).
    + destruct b; [|done]. eapply returns_wf; [by apply (wf_with_named_logger w name)|].
      by rewrite (bind_Ret _ _ _ _ _ (getLogger_create strftime at_ w name Hw Hp)).
  - intros _ _. eapply returns_wf; [|by apply delLogger_run].
    apply (wf_set_manager Unlocked); [done|done|by destruct Hw|]. intros n x. simpl.
    intros [_ H]%lookup_delete_Some. by apply (wf_names _ _ Hw n).
  - intros _ _. eapply returns_wf; [exact Hw|]. by mstep (getRoot_run w Hm).
  - intros _ _. pose proof (getRoot_run w Hm) as E. eapply returns_wf.
    2:{ apply (LON_LOG_LEVEL_run _ _ _ _ _ _ (root_of w) w E E Hw). unfold root_of.
        intros x Hx. destruct (lm_loggers (manager w) !! "root") as [q|] eqn:Hq; simplify_eq.
        - by apply (wf_names _ _ Hw "root").
        - apply (wf_root _ _ Hw). }
    destruct (root_of w); [|done]. eapply kept_wf; [apply kept_logged|done].
  - intros _ _. destruct (named_log_wf w name level message Hw) as (w' & E & H). by exists w'.
Qed.

Lemma exec_new w o : wf Unlocked w →
  match o with
  | NewFormatter _ | NewStdout _ | NewFile _ _ | NewLogger _ _ | Environment _ _ =>
      returns (exec o w) ∨ fails w o
  | _ => True
  end.
Proof.
  intros Hw. destruct o as [format|level|filename level| |name level| | | | | | | | | | | | |time d]; try done; simpl.
  - destruct (reads_total format) as [[f|l] Hr]; pose proof (formatParser_reads w format _ Hr) as E.
    + right. eexists _, _. split; [done|]. unfold exec, LogFormatter_create. simpl in E.
      by rewrite (bind_Throw _ _ _ _ _ (bind_Throw _ _ _ _ _ E)).
    + left. eexists. unfold LogFormatter_create. split.
      * erewrite bind_Ret; [done|]. by rewrite (bind_Ret _ _ _ _ _ E).
      * by apply wf_insert_formatter.
  - left. apply (returns_wf _ (add_appender (console level None) w)); [|done].
    apply wf_insert_appender; [done|done|done|]. by rewrite fresh_None.
  - left. destruct (new_file_run _ w filename level Hw) as (p & w' & E & H). exists w'. by mstep E.
  - left. eapply returns_wf; [by apply (wf_logger_added _ w name level)|].
    by mstep (Logger_create_run w name level).
  - left. eapply returns_wf; [|done]. by destruct Hw.
Qed.

Lemma exec_wf w o : wf Unlocked w → live w o → ¬ unknown w o → returns (exec o w) ∨ fails w o.
Proof.
  intros Hw Hl Hu. pose proof (exec_object w o Hw Hl) as H1.
  pose proof (exec_registry w o Hw Hl Hu) as H2. pose proof (exec_new w o Hw) as H3. destruct o; auto.
Qed.
Lemma exec_unknown w o : wf Unlocked w → unknown w o → exec o w = Fault Deadlock.
Proof.
  intros Hw Hu. destruct o as [| | | | | | | | | | | |name []| | | | |]; try done. simpl.
  by rewrite (bind_Fault _ _ _ _ (getLogger_unknown strftime at_ w name (wf_manager _ _ Hw) Hu)).
Qed.

Definition started (time : Z) : logw :=
  set_manager (insert_logger "root" (Some 0%nat) (mkManager ∅ 0 Unlocked))
    (with_stdout_logger "root" (logw_init time)).
Lemma start_run time : LoggerManager_create None (logw_init time) = Ret tt (started time).
Proof. vm_compute. reflexivity. Qed.
Lemma wf_start time : wf Unlocked (started time).
Proof.
  unfold started, with_stdout_logger, add_logger, add_appender, add_formatter.
  change (fresh _) with 0%nat. split; simpl.
  - intros p a [[<- <-]|[_ H]]%lookup_insert_Some; [|by rewrite lookup_empty in H].
    split; [done|]. intros q [= <-]. by rewrite lookup_insert_eq.
  - intros p g [[<- <-]|[_ H]]%lookup_insert_Some; [|by rewrite lookup_empty in H]. simpl.
    split_and!; [done|by rewrite lookup_insert_eq|]. constructor; [|done].
    eexists. split_and!; [by apply lookup_insert_eq|done|].
    eexists. split; [done|]. simpl. by rewrite lookup_insert_eq.
  - done.
  - by rewrite lookup_insert_eq.
  - intros n p [[<- [= <-]]|[_ H]]%lookup_insert_Some; [|by rewrite lookup_empty in H].
    by rewrite lookup_insert_eq.
Qed.
Lemma reachable_wf w : reachable w → wf Unlocked w.
Proof.
  induction 1 as [time w E|w o w' _ IH Hl E|w o e w' _ IH Hl E].
  - rewrite start_run in E. injection E as <-. apply wf_start.
  - destruct (decide (unknown w o)) as [Hu|Hu]; [by rewrite (exec_unknown w o IH Hu) in E|].
    destruct (exec_wf w o IH Hl Hu) as [(w1 & E1 & H)|(f & e & -> & E1)]; rewrite E1 in E; by simplify_eq.
  - destruct (decide (unknown w o)) as [Hu|Hu]; [by rewrite (exec_unknown w o IH Hu) in E|].
    destruct (exec_wf w o IH Hl Hu) as [(w1 & E1 & H)|(f & e' & -> & E1)]; rewrite E1 in E; by simplify_eq.
Qed.

(** C10: Through any sequence of these calls: new formatters, appenders and
    loggers, an appender's formatter set to another (not to null), appenders
    added, deleted and cleared, levels set, events logged through a logger,
    the registry's loggers set, got, deleted and created, the macros of the
    log, while time passes and the disk answers as it likes, every logger,
    appender and formatter that is used exists, each appender of a logger has
    a formatter and no lock stays held; each call returns, but that a
    formatter with an open brace throws and the lookup of an unknown logger
    without creation waits for a lock that its own thread holds. *)
Theorem log_system_safe w o : reachable w → live w o →
  wf Unlocked w ∧
  (unknown w o → exec o w = Fault Deadlock) ∧
  (¬ unknown w o → (∃ w', exec o w = Ret tt w') ∨
     ∃ format e, o = NewFormatter format ∧ exec o w = Throw e w).
Proof.
  intros Hr Hl. pose proof (reachable_wf w Hr) as Hw. split_and!; [done|by apply exec_unknown|].
  intros Hu. destruct (exec_wf w o Hw Hl Hu) as [(w1 & E1 & H)|H]; [left; by exists w1|by right].
Qed.
End Program.

Lemma log_system_safe_witness :
  exec show_date here (GetLogger "net" false) (started 5) = Fault Deadlock ∧
  ∃ w', exec show_date here (LogName "net" INFO "hi") (started 5) = Ret tt w'.
Proof.
  assert (Hr : reachable show_date here (started 5)) by (eapply reach_start, (start_run 5)).
  destruct (log_system_safe show_date here (started 5) (GetLogger "net" false) Hr I) as (_ & H1 & _).
  destruct (log_system_safe show_date here (started 5) (LogName "net" INFO "hi") Hr I) as (_ & _ & H2).
  split; [apply H1; reflexivity|]. destruct (H2 (λ x, x)) as [H|(f & e & [=] & _)]. exact H.
Defined.

(** ** A file whose write failed *)

Definition broken (w : logw) (p : nat) (filename : string) : Prop :=
  ready w p ∧ ∃ a, appenders w !! p = Some a ∧ la_kind a = FileLogAppender filename ∧
    is_open (la_file a) = true ∧ good (la_file a) = false.

Section Broken.
Context (strftime : Z → string → string).

Lemma broken_emit1 name level e w p filename : broken w p filename →
  broken (emit1 strftime name level e w p) p filename ∧ files (emit1 strftime name level e w p) = files w.
Proof.
  intros [Hr (a & Ha & Hk & Ho & Hg)]. pose proof (kept_emit1 strftime name level e w p) as K.
  pose proof (kept_ready w _ p K Hr) as Hr'. revert Hr' K. unfold emit1. rewrite Ha, Hk.
  destruct (level_lt level (la_level a)); [intros; split; [split; [done|by exists a]|done]|].
  assert (Hf : (if now w =? la_last_time a then (la_file a, disk w) else reopened (la_file a) (disk w)) =
    (mkOfs true false, disk w)).
  { unfold reopened. rewrite Hg, Ho. destruct (now w =? la_last_time a).
    2:{ unfold ofs_open. by rewrite Ho. }
    f_equal. by destruct (la_file a); simpl in *; subst. }
  rewrite Hf. unfold put_file. simpl. intros Hr' _. split; [|done]. split; [done|].
  eexists. simpl. rewrite lookup_insert_eq. eauto.
Qed.

(** Once a write to its file has failed a FileLogAppender prints no event any
    more: an open stream with an error is neither closed nor opened again. *)
Theorem file_error_is_final w p a filename :
  appenders w !! p = Some a → ready w p → la_kind a = FileLogAppender filename →
  la_file a = mkOfs true true → la_last_time a = now w →
  (∀ name level e d, disk w = false :: d → level_lt level (la_level a) = false →
     ∃ w', appender_log strftime p name level e w = Ret tt w' ∧ broken w' p filename) ∧
  (∀ w0, broken w0 p filename → ∀ name level e time d,
     let w1 := mkLogw (formatters w0) (appenders w0) (loggers w0) (manager w0) (out w0) (files w0) time d in
     ∃ w', appender_log strftime p name level e w1 = Ret tt w' ∧ files w' = files w0 ∧
       broken w' p filename).
Proof.
  intros Ha Hr Hk Hf Ht. split.
  - intros name level e d Hd Hl. eexists. split; [by apply appender_log_run|].
    split; [by eapply kept_ready; [apply kept_emit1|]|].
    unfold emit1. rewrite Ha, Hl, Hk, Ht, Z.eqb_refl. unfold put_file. simpl. rewrite Hf, Hd. simpl.
    eexists. rewrite lookup_insert_eq. eauto.
  - intros w0 Hb name level e time d w1. assert (Hb1 : broken w1 p filename) by done.
    destruct (broken_emit1 name level e w1 p filename Hb1) as [H1 H2].
    eexists. split; [apply appender_log_run; by destruct Hb1|]. by split.
Qed.
End Broken.

(** A logger with a file, whose first write fails. *)
Definition with_log_file : logw :=
  mkLogw {[0%nat := default_formatter]}
    {[0%nat := mkAppender (FileLogAppender "a.log") DEBUG (Some 0%nat) Unlocked (mkOfs true true) 5]}
    {[0%nat := mkLogger "root" DEBUG [0%nat] 0 Unlocked]}
    (mkManager {["root" := Some 0%nat]} 0 Unlocked) "" ∅ 5 [false].
Lemma file_error_is_final_witness : ∃ w1 w2,
  appender_log show_date 0 "root" INFO some_event with_log_file = Ret tt w1 ∧
  appender_log show_date 0 "root" INFO some_event
    (mkLogw (formatters w1) (appenders w1) (loggers w1) (manager w1) (out w1) (files w1) 9 []) = Ret tt w2 ∧
  files w2 = files w1.
Proof.
  destruct (file_error_is_final show_date with_log_file 0
    (mkAppender (FileLogAppender "a.log") DEBUG (Some 0%nat) Unlocked (mkOfs true true) 5) "a.log")
    as [H1 H2]; try reflexivity.
  { eexists. split; [reflexivity|]. split; [reflexivity|]. exists 0%nat. split; [reflexivity|].
    by exists default_formatter. }
  destruct (H1 "root" INFO some_event [] eq_refl eq_refl) as (w1 & E1 & Hb).
  destruct (H2 w1 Hb "root" INFO some_event 9 []) as (w2 & E2 & Hf & _). by exists w1, w2.
Defined.

Lemma log_delivers_witness : ∃ w',
  log show_date 0 INFO some_event (started 5) = Ret tt w' ∧
  out w' = getColorStr (LogFormatter_format show_date default_formatter "root" INFO some_event) GREEN.
Proof.
  destruct (log_delivers show_date (started 5) 0 (mkLogger "root" DEBUG [0%nat] 0 Unlocked) INFO some_event
    (wf_start 5)) as (w' & E & _ & _ & _ & H); [reflexivity|reflexivity| |].
  - constructor; [|constructor]. intros a f Ha Hk. vm_compute in Ha. injection Ha as <-. discriminate.
  - exists w'. split; [exact E|]. destruct H as [-> _]. vm_compute. reflexivity.
Defined.
