(* ===== verification/Yaml.v ===== *)
(** * YAML nodes (yaml-cpp) and their flattening (util/util.cpp)

    yaml-cpp is third-party: class [Yaml] states what the code uses of a
    YAML::Node, class [YamlTree] that a node is a finite tree. [flat] is the
    reference for [convertYamlToVector]: every node of the tree under its
    dotted path in lower case. *)

From Stdlib Require Import Ascii String.
From S2P Require Import Prelude Strings.
#[local] Open Scope Z_scope.
#[local] Set Warnings "-register-all".

Inductive NodeType := Null | Scalar | Sequence | Map.
#[global] Instance NodeType_eq_dec : EqDecision NodeType.
Proof. solve_decision. Defined.

(** [Type()], [Scalar()] (empty where the node is no scalar), the entries of a
    map from begin() to end(), the elements [node[0]] to [node[size() - 1]],
    and the text [os << node]. *)
Class Yaml (Node : Type) := {
  node_type : Node → NodeType;
  node_scalar : Node → string;
  node_entries : Node → list (Node * Node);
  node_elements : Node → list Node;
  node_text : Node → string;
}.
Class YamlTree (Node : Type) `{Yaml Node} := {
  node_depth : Node → nat;
  entries_depth : ∀ n k v, (k, v) ∈ node_entries n → (node_depth v < node_depth n)%nat;
}.

(** [for (x : l) b = body(b, x)] *)
Fixpoint mfold {S A B} (body : B → A → M S B) (l : list A) (b : B) : M S B :=
  match l with
  | [] => mreturn b
  | x :: l' => b' <- body b x;; mfold body l' b'
  end.

Section Convert.
Context {Node : Type} `{Yaml Node} {St : Type}.

Definition IsMap (n : Node) : bool := bool_decide (node_type n = Map).
Definition IsScalar (n : Node) : bool := bool_decide (node_type n = Scalar).

(** The name of an entry below [prefix]. *)
Definition entry_name (prefix : string) (key : Node) : string :=
  if decide (prefix = "") then node_scalar key
  else toLower prefix +:+ "." +:+ node_scalar key.

Fixpoint convertYamlToVector (fuel : nat) (prefix : string) (node : Node) (vec : list (string * Node)) :
    M St (list (string * Node)) :=
  match fuel with
  | O => mfault OutOfFuel
  | S fuel =>
    if negb (isValidParamName (toLower prefix))
    then mthrow (runtime_error ("data name is invalid: " +:+ prefix) [])
    else
      let vec := vec ++ [(toLower prefix, node)] in
      if IsMap node then
        mfold (λ vec it, convertYamlToVector fuel (entry_name prefix it.1) it.2 vec) (node_entries node) vec
      else mreturn vec
  end.

(** ** The reference

    [flat prefix n r]: the nodes of [n] in the order of the text with their
    paths, or the first path that is not a valid name. *)

Definition flattened := (string + list (string * Node))%type.

Inductive flat : string → Node → flattened → Prop :=
| flat_invalid prefix n : isValidParamName (toLower prefix) = false → flat prefix n (inl prefix)
| flat_leaf prefix n : isValidParamName (toLower prefix) = true → node_type n ≠ Map →
    flat prefix n (inr [(toLower prefix, n)])
| flat_map prefix n r : isValidParamName (toLower prefix) = true → node_type n = Map →
    flat_entries prefix (node_entries n) r →
    flat prefix n (match r with inl bad => inl bad | inr l => inr ((toLower prefix, n) :: l) end)
with flat_entries : string → list (Node * Node) → flattened → Prop :=
| flat_nil prefix : flat_entries prefix [] (inr [])
| flat_bad prefix k v es bad : flat (entry_name prefix k) v (inl bad) →
    flat_entries prefix ((k, v) :: es) (inl bad)
| flat_cons prefix k v es l r : flat (entry_name prefix k) v (inr l) → flat_entries prefix es r →
    flat_entries prefix ((k, v) :: es) (match r with inl bad => inl bad | inr l' => inr (l ++ l') end).

Context {Htree : YamlTree Node}.

Lemma flat_total_aux d : ∀ prefix n, (node_depth n < d)%nat → ∃ r, flat prefix n r.
Proof using Htree.
  induction d as [|d IH]; intros prefix n Hd; [lia|].
  destruct (isValidParamName (toLower prefix)) eqn:E; [|eexists; by apply flat_invalid].
  destruct (decide (node_type n = Map)) as [Hm|Hm]; [|eexists; by apply flat_leaf].
  assert (Hes : ∀ es, (∀ k v, (k, v) ∈ es → (node_depth v < d)%nat) → ∃ r, flat_entries prefix es r).
  { induction es as [|[k v] es IHes]; intros He; [eexists; constructor|].
    destruct (IH (entry_name prefix k) v) as [[bad|l] Hr]; [apply (He k); by left|by eexists; constructor|].
    destruct IHes as [r Hr']; [intros k' v' Hi; apply (He k'); by right|]. eexists. by eapply flat_cons. }
  destruct (Hes (node_entries n)) as [r Hr]; [|eexists; by apply flat_map].
  intros k v Hi%entries_depth. lia.
Qed.
Lemma flat_total prefix n : ∃ r, flat prefix n r.
Proof using Htree. apply (flat_total_aux (S (node_depth n))). lia. Qed.

(** The end of a run that is to add [r]. *)
Definition converted (vec : list (string * Node)) (r : flattened) (w : St) :
    outcome St (list (string * Node)) :=
  match r with
  | inl bad => Throw (runtime_error ("data name is invalid: " +:+ bad) []) w
  | inr l => Ret (vec ++ l) w
  end.

Lemma convert_flat fuel : ∀ prefix n r vec w, flat prefix n r → (node_depth n < fuel)%nat →
  convertYamlToVector fuel prefix n vec w = converted vec r w.
Proof using Type.
  induction fuel as [|fuel IH]; intros prefix n r vec w Hr Hd; [lia|]. cbn [convertYamlToVector].
  destruct Hr as [prefix n E|prefix n E Hm|prefix n r E Hm Hes]; rewrite E; simpl; [done| |];
    unfold IsMap; [by rewrite bool_decide_false|]. rewrite bool_decide_true by done.
  assert (Hgen : ∀ es r vec, (∀ k v, (k, v) ∈ es → (node_depth v < fuel)%nat) → flat_entries prefix es r →
    mfold (λ vec it, convertYamlToVector fuel (entry_name prefix it.1) it.2 vec) es vec w =
    converted vec r w).
  { clear r vec Hes. induction es as [|[k v] es IHes]; intros r vec He Hr; inversion Hr; subst; simpl.
    - by rewrite app_nil_r.
    - rewrite (bind_Throw _ _ _ (runtime_error ("data name is invalid: " +:+ bad) []) w); [done|].
      apply (IH _ _ (inl bad)); [done|]. apply (He k). by left.
    - rewrite (bind_Ret _ _ _ (vec ++ l) w).
      2:{ apply (IH _ _ (inr l)); [done|]. apply (He k). by left. }
      rewrite (IHes r0); [|intros k' v' Hi; apply (He k'); by right|done].
      destruct r0; simpl; [done|]. by rewrite <-app_assoc. }
  rewrite (Hgen _ r); [|intros k v Hi%entries_depth; lia|done].
  destruct r; simpl; [done|]. by rewrite <-app_assoc.
Qed.
End Convert.

(** ** Trees, for examples *)

Inductive tree := TNull | TScalar (s : string) | TSeq (l : list tree) | TMap (l : list (string * tree)).
#[global] Instance tree_yaml : Yaml tree := {
  node_type t := match t with TNull => Null | TScalar _ => Scalar | TSeq _ => Sequence | TMap _ => Map end;
  node_scalar t := match t with TScalar s => s | _ => "" end;
  node_entries t := match t with TMap l => map (λ kv, (TScalar kv.1, kv.2)) l | _ => [] end;
  node_elements t := match t with TSeq l => l | _ => [] end;
  node_text t := match t with TScalar s => s | _ => "" end;
}.
Fixpoint tree_depth (t : tree) : nat :=
  match t with
  | TNull | TScalar _ => 0
  | TSeq l => S (list_max (map tree_depth l))
  | TMap l => S (list_max (map (λ kv, tree_depth kv.2) l))
  end.
#[global] Instance tree_tree : YamlTree tree.
Proof.
  refine {| node_depth := tree_depth |}.
  intros [| | |l] k v Hi; simpl in *; try by apply elem_of_nil in Hi.
  apply list_elem_of_fmap in Hi as ([k' v'] & [= _ ->] & Hi). simpl.
  assert (Hm : Forall (λ x, x ≤ list_max (map (λ kv, tree_depth kv.2) l))%nat (map (λ kv, tree_depth kv.2) l))
    by by apply list_max_le.
  apply le_n_S. rewrite Forall_forall in Hm. apply Hm, list_elem_of_fmap. by exists (k', v').
Defined.

Example convert_1 :
  convertYamlToVector 3 "" (TMap [("TCP", TMap [("Port", TScalar "80")]); ("log", TNull)]) [] tt =
  Ret [("", TMap [("TCP", TMap [("Port", TScalar "80")]); ("log", TNull)]);
       ("tcp", TMap [("Port", TScalar "80")]); ("tcp.port", TScalar "80"); ("log", TNull)] tt.
Proof. vm_compute. reflexivity. Qed.
