(* ===== verification/Config.v ===== *)
(** * class ConfigData and class Config (config/configdata.h, config.h,
    config.cpp)

    The template parameter T of ConfigData<T> is a code of [ctype]; class
    [ConfigTypes] gives its values, operator== and the conversions FromStr and
    ToStr. Data are shared pointers: a heap of ConfigData by number, which the
    registry [datas] maps lower-case names to. Callbacks are numbers; [call]
    is what they do, to the data themselves, too, and to the rest of the
    program, [ext]. A map with a std::map's order is needed for [visit] and
    [toString], which go through the sorted names. Log output is left out. *)

From Stdlib Require Import Ascii String.
From stdpp Require Import sorting.
From S2P Require Import Prelude Strings Locks Yaml.
#[local] Open Scope Z_scope.

Class ConfigTypes := {
  ctype : Type;
  #[global] ctype_eq :: EqDecision ctype;
  value : Type;
  type_of : value → ctype;
  veq : value → value → bool;
  FromStr : ctype → string → exn + value;
  ToStr : value → exn + string;
}.
(** FromStr makes a value of its type. *)
Class ConfigTyped `{ConfigTypes} :=
  FromStr_type : ∀ t s v, FromStr t s = inr v → type_of v = t.

Record ConfigData `{ConfigTypes} := mkData {
  m_name : string;
  m_description : string;
  m_type : ctype;
  m_data : value;
  m_cbs : list (Z * nat);       (* std::map, in the order of the keys *)
  m_mutex : lock;
}.
Arguments mkData {_}.
Arguments m_name {_}.
Arguments m_description {_}.
Arguments m_type {_}.
Arguments m_data {_}.
Arguments m_cbs {_}.
Arguments m_mutex {_}.
Record configw `{ConfigTypes} (W : Type) := mkConfig {
  datas : gmap string nat;
  heap : gmap nat ConfigData;
  s_mutex : lock;
  ext : W;
}.
Arguments mkConfig {_ W}.
Arguments datas {_ W}.
Arguments heap {_ W}.
Arguments s_mutex {_ W}.
Arguments ext {_ W}.

Section Config.
Context `{CT : ConfigTypes} {W : Type}.
Implicit Types (w : configw W) (d : ConfigData).

Definition set_heap h w : configw W := mkConfig (datas w) h (s_mutex w) (ext w).
Definition set_datas m w : configw W := mkConfig m (heap w) (s_mutex w) (ext w).
Definition set_mutex l w : configw W := mkConfig (datas w) (heap w) l (ext w).

Definition set_ext (e : W) w : configw W := mkConfig (datas w) (heap w) (s_mutex w) e.

Definition with_data (v : value) d := mkData (m_name d) (m_description d) (m_type d) v (m_cbs d) (m_mutex d).
Definition with_cbs c d := mkData (m_name d) (m_description d) (m_type d) (m_data d) c (m_mutex d).
Definition with_mutex l d := mkData (m_name d) (m_description d) (m_type d) (m_data d) (m_cbs d) l.

Definition the_data (p : nat) : M (configw W) ConfigData := λ w,
  match heap w !! p with Some d => Ret d w | None => Fault NullDeref end.
Definition upd_data (p : nat) (f : ConfigData → ConfigData) : M (configw W) unit :=
  mmodify (λ w, set_heap (alter f p (heap w)) w).

Definition data_lock {A} : M lock unit → nat → M (configw W) A → M (configw W) A :=
  heap_lock heap set_heap m_mutex with_mutex.
Definition map_lock {A} (acquire : M lock unit) : M (configw W) A → M (configw W) A :=
  scoped (λ w, Some (s_mutex w)) set_mutex acquire.

(** [try { body } catch (const std::runtime_error &) { handler }] *)
Definition catch_runtime {A} (body handler : M (configw W) A) : M (configw W) A := λ w,
  match body w with
  | Throw (runtime_error _ _) w' => handler w'
  | o => o
  end.

(** ** class ConfigData<T> *)

Definition ConfigData_create (name : string) (t : ctype) (data : value) (description : string) :
    M (configw W) nat :=
  w <- mget;; let p := fresh (dom (heap w)) in
  mput (set_heap (<[p := mkData (toLower name) description t data [] Unlocked]> (heap w)) w);; mreturn p.

Definition getName (p : nat) : M (configw W) string := d <- the_data p;; mreturn (m_name d).
Definition getDescription (p : nat) : M (configw W) string := d <- the_data p;; mreturn (m_description d).
Definition getType (p : nat) : M (configw W) ctype := d <- the_data p;; mreturn (m_type d).

Definition getData_value (p : nat) : M (configw W) value :=
  data_lock rdlock p (d <- the_data p;; mreturn (m_data d)).

(** The keys of callbacks: [m_key] is a static variable of the member function
    that nothing changes. *)
Definition m_key : Z := 0.
Fixpoint find_cb (key : Z) (l : list (Z * nat)) : option nat :=
  match l with [] => None | (k, c) :: l' => if k =? key then Some c else find_cb key l' end.
(** [m_cbs[key] = cb] for a key that is not there. *)
Fixpoint insert_cb (key : Z) (cb : nat) (l : list (Z * nat)) : list (Z * nat) :=
  match l with
  | [] => [(key, cb)]
  | (k, c) :: l' => if key <? k then (key, cb) :: l else (k, c) :: insert_cb key cb l'
  end.

Definition addConfigDataChangeCB (p cb : nat) : M (configw W) Z :=
  data_lock wrlock p
    (d <- the_data p;;
     match find_cb m_key (m_cbs d) with
     | Some _ => mreturn 0           (* return false *)
     | None => upd_data p (with_cbs (insert_cb m_key cb (m_cbs d)));; mreturn m_key
     end).
Definition delConfigDataChangeCB (p : nat) (key : Z) : M (configw W) bool :=
  data_lock wrlock p
    (d <- the_data p;;
     match find_cb key (m_cbs d) with
     | Some _ => mreturn false
     | None => mfault EraseEnd       (* m_cbs.erase(end()) *)
     end).
(** The callback that is returned, [None] for nullptr. *)
Definition getConfigDataChangeCB (p : nat) (key : Z) : M (configw W) (option nat) :=
  data_lock rdlock p
    (d <- the_data p;;
     match find_cb key (m_cbs d) with
     | Some _ => mreturn None
     | None => mfault EraseEnd       (* end()->second *)
     end).
Definition clearConfigDataChangeCB (p : nat) : M (configw W) unit :=
  data_lock wrlock p (upd_data p (with_cbs [])).

Section Calls.
Context (call : nat → value → value → M (configw W) unit).

(** The guarded block that may return from the function, and the rest of it. *)
Definition setData_value (p : nat) (data : value) : M (configw W) unit :=
  changed <- data_lock rdlock p
    (d <- the_data p;;
     if veq (m_data d) data then mreturn false
     else mfor (m_cbs d) (λ it, d <- the_data p;; call it.2 (m_data d) data);; mreturn true);;
  if changed : bool then data_lock wrlock p (upd_data p (with_data data)) else mreturn tt.

Definition fromString (p : nat) (str : string) : M (configw W) bool :=
  catch_runtime
    (d <- the_data p;;
     match FromStr (m_type d) str with
     | inl e => mthrow e
     | inr v => setData_value p v;; mreturn true
     end)
    (mreturn false).

Definition toString (p : nat) : M (configw W) string :=
  catch_runtime
    (v <- getData_value p;;
     match ToStr v with inl e => mthrow e | inr s => mreturn s end)
    (mreturn "").

(** ** class Config *)

(** [setData<T>(name, data, description)], with nullptr as [None]. *)
Definition setData (t : ctype) (name : string) (data : value) (description : string) :
    M (configw W) (option nat) :=
  map_lock wrlock
    (let name_lower := toLower name in
     if negb (isValidParamName name_lower) then mreturn None
     else
       w <- mget;;
       match datas w !! name_lower with
       | Some p =>
         (* dynamic_pointer_cast<ConfigData<T>> *)
         d <- the_data p;; mreturn (if decide (m_type d = t) then Some p else None)
       | None =>
         p <- ConfigData_create name t data description;;
         mmodify (λ w, set_datas (<[name_lower := p]> (datas w)) w);;
         mreturn (Some p)
       end).

(** [setData(data_ptr)] *)
Definition setData_ptr (p : nat) : M (configw W) unit :=
  map_lock wrlock
    (name <- getName p;;
     let name_lower := toLower name in
     if negb (isValidParamName name_lower) then mreturn tt
     else
       w <- mget;;
       match datas w !! name_lower with
       | Some q => getType q;; mreturn tt
       | None => mmodify (λ w, set_datas (<[name_lower := p]> (datas w)) w)
       end).

Definition getData (t : ctype) (name : string) : M (configw W) (option nat) :=
  map_lock rdlock
    (let name_lower := toLower name in
     w <- mget;;
     if negb (isValidParamName name_lower) then mreturn None
     else match datas w !! name_lower with
          | None => mreturn None
          | Some p => d <- the_data p;; mreturn (if decide (m_type d = t) then Some p else None)
          end).

(** Without a lock, and with the name as it is. *)
Definition getDataBase (name : string) : M (configw W) (option nat) :=
  w <- mget;; mreturn (datas w !! name).

(** The names in the order of the map. *)
Definition names w : list string := merge_sort String.le (elements (dom (datas w))).

Definition visit (cb : nat → M (configw W) unit) : M (configw W) unit :=
  map_lock rdlock
    (w <- mget;;
     mfor (names w) (λ name, w <- mget;; match datas w !! name with Some p => cb p | None => mreturn tt end)).

Definition Config_toString : M (configw W) string :=
  map_lock rdlock
    (w <- mget;;
     mfold (λ os name,
       w <- mget;;
       match datas w !! name with
       | Some p => s <- toString p;;
                   mreturn (os +:+ name +:+ ":" +:+ one (to_char 10) +:+ one (to_char 9) +:+ s +:+
                            one (to_char 10))
       | None => mreturn os
       end) (names w) "").

(** [parseFromYaml(node)]; the fuel is that of the flattening. *)
Section Parse.
Context {Node : Type} `{Yaml Node}.

Definition apply_node (it : string * Node) : M (configw W) unit :=
  let key := it.1 in
  if decide (key = "") then mreturn tt
  else
    data_base <- getDataBase key;;
    match data_base with
    | None => mreturn tt
    | Some p =>
      (if IsScalar it.2 then fromString p (node_scalar it.2) else fromString p (node_text it.2));; mreturn tt
    end.
Definition parseFromYaml (fuel : nat) (node : Node) : M (configw W) unit :=
  catch_runtime
    (all_nodes <- convertYamlToVector fuel "" node [];;
     mfor all_nodes apply_node)
    (mreturn tt).
End Parse.
End Calls.
End Config.
