(* ===== verification/ConfigSpec.v ===== *)
(** * Properties of the configuration

    The exact runs of the operations of one datum, the invariant of the
    registry with the types of its data, and the effect of a YAML tree. *)

From Stdlib Require Import Ascii String.
From S2P Require Import Prelude Strings StringsSpec Locks Yaml Config.
#[local] Open Scope Z_scope.

Section Spec.
Context `{CT : ConfigTypes} {W : Type}.
Implicit Types (w : configw W) (d : ConfigData).

(** A datum as it is found: unlocked, with a value of its type, its name in
    lower case. *)
Definition good_data (d : ConfigData) : Prop :=
  m_mutex d = Unlocked ∧ type_of (m_data d) = m_type d ∧ toLower (m_name d) = m_name d.

Record wf w : Prop := mkWf {
  wf_mutex : s_mutex w = Unlocked;
  wf_data : ∀ p d, heap w !! p = Some d → good_data d;
  wf_names : ∀ n p, datas w !! n = Some p →
    ∃ d, heap w !! p = Some d ∧ m_name d = n ∧ isValidParamName n = true;
}.

(** Nothing is taken out of the registry, and data keep their type and names. *)
Record extends w w' : Prop := mkExtends {
  ext_names : ∀ n p, datas w !! n = Some p → datas w' !! n = Some p;
  ext_data : ∀ p d, heap w !! p = Some d → ∃ d', heap w' !! p = Some d' ∧
    m_type d' = m_type d ∧ m_name d' = m_name d ∧ m_description d' = m_description d;
}.
#[export] Instance extends_preorder : PreOrder extends.
Proof.
  split.
  - intros w. split; [done|]. intros p d Hd. by exists d.
  - intros w1 w2 w3 [N1 D1] [N2 D2]. split; [auto|]. intros p d Hd.
    destruct (D1 p d Hd) as (d2 & H2 & ? & ? & ?). destruct (D2 p d2 H2) as (d3 & ? & ? & ? & ?).
    exists d3. split_and!; congruence.
Qed.

Lemma with_mutex_id d l : m_mutex d = Unlocked → with_mutex Unlocked (with_mutex l d) = d.
Proof. destruct d; simpl. by intros ->. Qed.
Lemma set_heap_same w h : h = heap w → set_heap h w = w.
Proof. intros ->. by destruct w. Qed.

Lemma wf_insert w p d : wf w → good_data d →
  (∀ d0, heap w !! p = Some d0 → m_name d = m_name d0) → wf (set_heap (<[p := d]> (heap w)) w).
Proof.
  intros [Mx D N] Hd Hn. split; [done| |]; simpl.
  - intros q x. destruct (decide (q = p)) as [->|Hq].
    + rewrite lookup_insert_eq. by intros [= <-].
    + rewrite lookup_insert_ne by done. apply D.
  - intros n q Hq. destruct (N n q Hq) as (x & Hx & <- & Hv).
    destruct (decide (q = p)) as [->|Hqp].
    + exists d. rewrite lookup_insert_eq. by rewrite (Hn x Hx).
    + exists x. by rewrite lookup_insert_ne.
Qed.
Lemma extends_insert w p d : 
  (∀ d0, heap w !! p = Some d0 → m_type d = m_type d0 ∧ m_name d = m_name d0 ∧
     m_description d = m_description d0) → extends w (set_heap (<[p := d]> (heap w)) w).
Proof.
  intros Hd. split; [done|]. intros q x Hx. simpl. destruct (decide (q = p)) as [->|Hq].
  - exists d. rewrite lookup_insert_eq. split; [done|]. by apply Hd.
  - exists x. by rewrite lookup_insert_ne.
Qed.

(** ** One datum *)

(** A block that reads. *)
Lemma read_run {A} acquire held (f : ConfigData → A) w p d :
  acquire Unlocked = Ret tt held → unlock held = Ret tt Unlocked →
  heap w !! p = Some d → m_mutex d = Unlocked →
  (∀ l, f (with_mutex l d) = f d) →
  data_lock acquire p (d <- the_data p;; mreturn (f d)) w = Ret (f d) w.
Proof.
  intros Ha Hu Hd Hl Hf. unfold data_lock.
  set (w1 := set_heap (<[p := with_mutex held d]> (heap w)) w).
  rewrite (heap_lock_run heap set_heap m_mutex with_mutex acquire held _ w p d (with_mutex held d) (f d) w1); try done.
  - f_equal. unfold w1. simpl. rewrite insert_insert_eq, with_mutex_id, insert_id by done. by destruct w.
  - unfold w1, the_data, mbind', mreturn. simpl. by rewrite lookup_insert_eq, Hf.
  - simpl. by rewrite lookup_insert_eq.
Qed.
Lemma getData_value_run w p d : heap w !! p = Some d → m_mutex d = Unlocked →
  getData_value p w = Ret (m_data d) w.
Proof. intros Hd Hl. by apply (read_run rdlock (Shared 1) m_data). Qed.

(** A block that writes. *)
Lemma write_run (f : ConfigData → ConfigData) w p d :
  heap w !! p = Some d → m_mutex d = Unlocked → (∀ l d, f (with_mutex l d) = with_mutex l (f d)) →
  data_lock wrlock p (upd_data p f) w = Ret tt (set_heap (<[p := f d]> (heap w)) w).
Proof.
  intros Hd Hl Hf. unfold data_lock.
  set (w1 := set_heap (<[p := f (with_mutex Exclusive d)]> (heap w)) w).
  rewrite (heap_lock_run heap set_heap m_mutex with_mutex wrlock Exclusive _ w p d
    (f (with_mutex Exclusive d)) tt w1); try done.
  - f_equal. unfold w1, set_heap. simpl. rewrite insert_insert_eq, <-Hf. by rewrite with_mutex_id.
  - unfold upd_data, mmodify, w1. simpl. by rewrite alter_insert_eq.
  - simpl. by rewrite lookup_insert_eq.
  - by rewrite Hf.
Qed.

Lemma addConfigDataChangeCB_run w p d cb : heap w !! p = Some d → m_mutex d = Unlocked →
  addConfigDataChangeCB p cb w =
  Ret 0 (match find_cb m_key (m_cbs d) with
         | Some _ => w
         | None => set_heap (<[p := with_cbs (insert_cb m_key cb (m_cbs d)) d]> (heap w)) w
         end).
Proof.
  intros Hd Hl. unfold addConfigDataChangeCB, data_lock.
  set (d' := match find_cb m_key (m_cbs d) with
             | Some _ => d | None => with_cbs (insert_cb m_key cb (m_cbs d)) d end).
  set (w1 := set_heap (<[p := with_mutex Exclusive d']> (heap w)) w).
  rewrite (heap_lock_run heap set_heap m_mutex with_mutex wrlock Exclusive _ w p d
    (with_mutex Exclusive d') 0 w1); try done.
  - f_equal. unfold w1, d', set_heap. simpl. rewrite insert_insert_eq.
    destruct (find_cb m_key (m_cbs d)); rewrite with_mutex_id by done; [|done].
    rewrite insert_id by done. by destruct w.
  - rewrite (bind_Ret _ _ _ (with_mutex Exclusive d) (set_heap (<[p := with_mutex Exclusive d]> (heap w)) w)).
    2:{ unfold the_data. simpl. by rewrite lookup_insert_eq. }
    simpl. unfold w1, d'. destruct (find_cb m_key (m_cbs d)); [done|].
    unfold upd_data, mbind', mmodify, mreturn. simpl. by rewrite alter_insert_eq.
  - simpl. by rewrite lookup_insert_eq.
Qed.

(** ** Setting a value

    The callbacks work on the rest of the program; they do not call back into
    the configuration (what happens then is below). *)

Section Callbacks.
Context (call : nat → value → value → M (configw W) unit).
Definition outside : Prop :=
  ∀ cb a b w, ends (λ w', w' = set_ext (ext w') w) (call cb a b w).
Context (Hcall : outside).

(** The callbacks of [d], while its lock is shared. *)
Definition locked p d w : configw W := set_heap (<[p := with_mutex (Shared 1) d]> (heap w)) w.
Definition run_cbs p d (v : value) w : outcome (configw W) unit :=
  mfor (m_cbs d) (λ it, call it.2 (m_data d) v) (locked p d w).

Lemma set_ext_twice e e' w : set_ext e (set_ext e' w) = set_ext e w.
Proof. done. Qed.
Lemma cbs_ends p d v (l : list (Z * nat)) w : heap w !! p = Some d →
  mfor l (λ it, d <- the_data p;; call it.2 (m_data d) v) w =
  mfor l (λ it, call it.2 (m_data d) v) w ∧
  ends (λ w', w' = set_ext (ext w') w) (mfor l (λ it, call it.2 (m_data d) v) w).
Proof using Hcall.
  revert w. induction l as [|[k cb] l IH]; intros w Hd; cbn [mfor]; [split; [done|by destruct w]|].
  assert (Eb : (x <- the_data p;; call (k, cb).2 (m_data x) v) w = call cb (m_data d) v w).
  { by rewrite (bind_Ret _ _ _ d w) by (unfold the_data; by rewrite Hd). }
  pose proof (Hcall cb (m_data d) v w) as Hc. cbn [snd] in *.
  destruct (call cb (m_data d) v w) as [[] w1|e w1|f] eqn:Ec; simpl in Hc.
  - rewrite (bind_Ret _ _ _ _ _ Eb), (bind_Ret _ _ _ _ _ Ec).
    destruct (IH w1) as [H1 H2]; [by rewrite Hc|]. split; [done|].
    clear -H2 Hc. destruct (mfor l _ w1); simpl in *; [rewrite Hc in H2; exact H2|rewrite Hc in H2; exact H2|done].
  - by rewrite (bind_Throw _ _ _ _ _ Eb), (bind_Throw _ _ _ _ _ Ec).
  - by rewrite (bind_Fault _ _ _ _ Eb), (bind_Fault _ _ _ _ Ec).
Qed.

Lemma setData_value_run w p d v : heap w !! p = Some d → m_mutex d = Unlocked →
  setData_value call p v w =
  if veq (m_data d) v then Ret tt w
  else match run_cbs p d v w with
       | Ret _ w1 => Ret tt (set_ext (ext w1) (set_heap (<[p := with_data v d]> (heap w)) w))
       | Throw e w1 => Throw e (set_ext (ext w1) w)
       | Fault f => Fault f
       end.
Proof using Hcall.
  intros Hd Hl. unfold setData_value.
  set (w1 := locked p d w).
  assert (Hw1 : heap w1 !! p = Some (with_mutex (Shared 1) d)) by (simpl; by rewrite lookup_insert_eq).
  destruct (cbs_ends p (with_mutex (Shared 1) d) v (m_cbs d) w1 Hw1) as [E1 E2].
  change (mfor (m_cbs d) (λ it, x <- the_data p;; call it.2 (m_data x) v) w1 = run_cbs p d v w) in E1.
  change (ends (λ w2, w2 = set_ext (ext w2) w1) (run_cbs p d v w)) in E2.
  set (r := run_cbs p d v w) in *. set (body := d <- the_data p;; _).
  assert (Eb : body w1 = if veq (m_data d) v then Ret false w1
    else match r with
         | Ret _ w2 => Ret true w2 | Throw e w2 => Throw e w2 | Fault f => Fault f end).
  { unfold body. rewrite (bind_Ret _ _ _ (with_mutex (Shared 1) d) w1) by (unfold the_data; by rewrite Hw1).
    simpl. destruct (veq (m_data d) v); [done|]. unfold mbind' at 1. rewrite E1. by destruct r. }
  assert (Hback : ∀ w2, w2 = set_ext (ext w2) w1 →
    set_heap (alter (with_mutex Unlocked) p (heap w2)) w2 = set_ext (ext w2) w ∧
    heap w2 !! p = Some (with_mutex (Shared 1) d)).
  { intros w2 H2. rewrite H2. split; [|done]. simpl. rewrite alter_insert_eq, with_mutex_id by done.
    rewrite insert_id by done. by destruct w. }
  assert (Eh : data_lock rdlock p body w =
    after (λ w2, set_heap (alter (with_mutex Unlocked) p (heap w2)) w2) (body w1)).
  { apply (heap_lock_after _ _ _ _ _ (Shared 1) _ _ _ d); try done. change (body _) with (body w1). rewrite Eb.
    destruct (veq (m_data d) v); [by exists (with_mutex (Shared 1) d)|].
    destruct r; simpl in *; try done.
    all: apply Hback in E2 as [_ E2]; by exists (with_mutex (Shared 1) d). }
  rewrite Eb in Eh. destruct (veq (m_data d) v).
  { simpl in Eh. rewrite (bind_Ret _ _ _ _ _ Eh). rewrite alter_insert_eq, with_mutex_id by done.
    rewrite insert_id by done. by destruct w. }
  destruct r as [[] w2|e w2|f]; simpl in Eh, E2.
  - destruct (Hback w2 E2) as [E3 _]. rewrite E3 in Eh. rewrite (bind_Ret _ _ _ _ _ Eh).
    by rewrite (write_run _ _ p d).
  - destruct (Hback w2 E2) as [E3 _]. rewrite E3 in Eh. by rewrite (bind_Throw _ _ _ _ _ Eh).
  - by rewrite (bind_Fault _ _ _ _ Eh).
Qed.
End Callbacks.

(** ** The registry *)

Lemma map_lock_after {A} acquire held (body : M (configw W) A) w :
  acquire Unlocked = Ret tt held → unlock held = Ret tt Unlocked → s_mutex w = Unlocked →
  ends (λ w', s_mutex w' = held) (body (set_mutex held w)) →
  map_lock acquire body w = after (set_mutex Unlocked) (body (set_mutex held w)).
Proof.
  intros Ha Hu Hl Hb. unfold map_lock. rewrite (scoped_run _ _ _ held); try done; [by rewrite Hl|].
  destruct (body _); simpl in *; by try rewrite Hb.
Qed.
Lemma set_mutex_id w l : s_mutex w = Unlocked → set_mutex Unlocked (set_mutex l w) = w.
Proof. destruct w; simpl. by intros ->. Qed.

(** What a name stands for at a type. *)
Definition typed_lookup w (t : ctype) (name : string) : option nat :=
  if isValidParamName (toLower name) then
    match datas w !! toLower name with
    | Some p => match heap w !! p with
                | Some d => if decide (m_type d = t) then Some p else None
                | None => None
                end
    | None => None
    end
  else None.

Lemma getData_run w t name : wf w → getData t name w = Ret (typed_lookup w t name) w.
Proof.
  intros [Mx D N]. unfold getData. lazymatch goal with |- map_lock _ ?b _ = _ => set (body := b) end.
  assert (Eb : body (set_mutex (Shared 1) w) = Ret (typed_lookup w t name) (set_mutex (Shared 1) w)).
  { unfold body, typed_lookup. rewrite (bind_Ret mget _ _ _ _ eq_refl).
    destruct (isValidParamName (toLower name)); [|done]. simpl.
    destruct (datas w !! toLower name) as [p|] eqn:Hp; [|done].
    destruct (N _ _ Hp) as (d & Hd & _). rewrite (bind_Ret _ _ _ d (set_mutex (Shared 1) w)).
    - by rewrite Hd.
    - unfold the_data. simpl. by rewrite Hd. }
  rewrite (map_lock_after rdlock (Shared 1)); try done; rewrite Eb; [|done]. simpl. by rewrite set_mutex_id.
Qed.

(** The world with a new datum under its name. *)
Definition new_data (name : string) (t : ctype) (v : value) (desc : string) : ConfigData :=
  mkData (toLower name) desc t v [] Unlocked.
Definition registered w (name : string) (t : ctype) (v : value) (desc : string) : configw W :=
  let p := fresh (dom (heap w)) in
  set_datas (<[toLower name := p]> (datas w)) (set_heap (<[p := new_data name t v desc]> (heap w)) w).

Lemma setData_run w t name v desc : wf w →
  setData t name v desc w =
  if negb (isValidParamName (toLower name)) then Ret None w
  else match datas w !! toLower name with
       | Some _ => Ret (typed_lookup w t name) w
       | None => Ret (Some (fresh (dom (heap w)))) (registered w name t v desc)
       end.
Proof.
  intros [Mx D N]. unfold setData. lazymatch goal with |- map_lock _ ?b _ = _ => set (body := b) end.
  assert (Eb : body (set_mutex Exclusive w) =
    if negb (isValidParamName (toLower name)) then Ret None (set_mutex Exclusive w)
    else match datas w !! toLower name with
         | Some _ => Ret (typed_lookup w t name) (set_mutex Exclusive w)
         | None => Ret (Some (fresh (dom (heap w)))) (set_mutex Exclusive (registered w name t v desc))
         end).
  { unfold body, typed_lookup. destruct (isValidParamName (toLower name)); [|done]. simpl.
    rewrite (bind_Ret mget _ _ _ _ eq_refl). simpl.
    destruct (datas w !! toLower name) as [p|] eqn:Hp; [|done].
    destruct (N _ _ Hp) as (d & Hd & _). rewrite (bind_Ret _ _ _ d (set_mutex Exclusive w)).
    - by rewrite Hd.
    - unfold the_data. simpl. by rewrite Hd. }
  rewrite (map_lock_after wrlock Exclusive); try done; rewrite Eb.
  - destruct (isValidParamName _); simpl; [|by rewrite set_mutex_id].
    destruct (datas w !! _); simpl; by rewrite ?set_mutex_id.
  - destruct (isValidParamName _); simpl; [|done]. by destruct (datas w !! _).
Qed.
Lemma wf_registered w name t v desc : wf w → type_of v = t → isValidParamName (toLower name) = true →
  datas w !! toLower name = None → wf (registered w name t v desc) ∧ extends w (registered w name t v desc).
Proof.
  intros Hw Ht Hv Hn. pose proof (fresh_None (heap w)) as Hf.
  assert (Hw1 : wf (set_heap (<[fresh (dom (heap w)) := new_data name t v desc]> (heap w)) w)).
  { apply wf_insert; [done|by repeat split; try apply toLower_idem|by rewrite Hf]. }
  assert (He : extends w (set_heap (<[fresh (dom (heap w)) := new_data name t v desc]> (heap w)) w)).
  { apply extends_insert. by rewrite Hf. }
  destruct Hw1 as [Mx D N], He as [EN ED]. split; split; simpl; try done.
  - intros n p. destruct (decide (n = toLower name)) as [->|Hne].
    + rewrite lookup_insert_eq. intros [= <-]. eexists. rewrite lookup_insert_eq. split_and!; done.
    + rewrite lookup_insert_ne by done. apply N.
  - intros n p Hp. rewrite lookup_insert_ne; [by apply EN|]. intros <-. congruence.
Qed.
End Spec.
