(* ===== verification/ConfigParse.v ===== *)
(** * Types of the configuration and the effect of YAML

    The type of a datum holds whatever a program does to it; a YAML tree sets
    the registered data it names, or nothing when one of its names is not
    valid; and where the callbacks of a datum leave what it promises. *)

From Stdlib Require Import Ascii String.
From S2P Require Import Prelude Strings StringsSpec Locks Yaml Config ConfigSpec.
#[local] Open Scope Z_scope.

Section Keep.
Context `{CT : ConfigTypes} {W : Type}.
Implicit Types (w : configw W) (d : ConfigData).

Definition keeps {A} w (o : outcome (configw W) A) : Prop := ends (λ w', wf w' ∧ extends w w') o.

Lemma keeps_Ret {A} w (a : A) : wf w → keeps w (Ret a w).
Proof. by split. Qed.
Lemma keeps_trans {A} w w1 (o : outcome (configw W) A) : extends w w1 → keeps w1 o → keeps w o.
Proof.
  intros H. destruct o as [a w2|e w2|f]; simpl; try done; intros [H1 H2];
    (split; [done|by trans w1]).
Qed.
Lemma keeps_bind {A B} w (m : M (configw W) A) (k : A → M (configw W) B) : keeps w (m w) →
  (∀ a w1, m w = Ret a w1 → wf w1 → extends w w1 → keeps w1 (k a w1)) → keeps w (mbind' m k w).
Proof.
  unfold mbind'. intros Hm Hk. destruct (m w) as [a w1|e w1|f] eqn:E; simpl in Hm; try done.
  destruct Hm as [H1 H2]. by eapply keeps_trans, Hk.
Qed.
Lemma keeps_for {A} w (l : list A) (body : A → M (configw W) unit) : wf w →
  (∀ x w1, x ∈ l → wf w1 → extends w w1 → keeps w1 (body x w1)) → keeps w (mfor l body w).
Proof.
  revert w. induction l as [|x l IH]; intros w Hw Hb; [by apply keeps_Ret|]. cbn [mfor].
  apply keeps_bind; [by apply Hb; [left|..]|]. intros _ w1 _ Hw1 He. apply IH; [done|].
  intros y w2 Hy Hw2 He2. apply Hb; [by right|done|by trans w1].
Qed.
Lemma keeps_catch {A} w (body handler : M (configw W) A) : keeps w (body w) →
  (∀ w1, wf w1 → extends w w1 → keeps w1 (handler w1)) → keeps w (catch_runtime body handler w).
Proof.
  intros Hb Hh. unfold catch_runtime. destruct (body w) as [a w1|e w1|f]; simpl in Hb; try done.
  destruct Hb as [H1 H2]. destruct e; [|done]. by eapply keeps_trans, Hh.
Qed.

Lemma wf_set_ext w e : wf w → wf (set_ext e w).
Proof. by intros []. Qed.
Lemma extends_set_ext w e : extends w (set_ext e w).
Proof. split; [done|]. intros p d Hd. by exists d. Qed.
Lemma keeps_insert {A} w p d d' e (a : A) : wf w → heap w !! p = Some d → good_data d' →
  m_type d' = m_type d → m_name d' = m_name d → m_description d' = m_description d →
  keeps w (Ret a (set_ext e (set_heap (<[p := d']> (heap w)) w))).
Proof.
  intros Hw Hd Hg Ht Hn Hs. split.
  - apply wf_set_ext, wf_insert; [done|done|]. intros d0 Hd0. by simplify_eq.
  - trans (set_heap (<[p := d']> (heap w)) w); [|apply extends_set_ext].
    apply extends_insert. intros d0 Hd0. by simplify_eq.
Qed.
Lemma keeps_insert' {A} w p d d' (a : A) : wf w → heap w !! p = Some d → good_data d' →
  m_type d' = m_type d → m_name d' = m_name d → m_description d' = m_description d →
  keeps w (Ret a (set_heap (<[p := d']> (heap w)) w)).
Proof. intros. by apply (keeps_insert w p d d' (ext w)). Qed.

(** Reading under a lock. *)
Lemma cb_read_run {A} acquire held (m : M (configw W) A) w p d :
  acquire Unlocked = Ret tt held → unlock held = Ret tt Unlocked →
  heap w !! p = Some d → m_mutex d = Unlocked →
  (∀ w1, heap w1 = <[p := with_mutex held d]> (heap w) → (∃ a, m w1 = Ret a w1) ∨ ∃ f, m w1 = Fault f) →
  ends (λ w', w' = w) (data_lock acquire p m w).
Proof.
  intros Ha Hu Hd Hl Hm. set (w1 := set_heap (<[p := with_mutex held d]> (heap w)) w).
  assert (E : ends (λ w', w' = w1) (m w1)) by (destruct (Hm w1 eq_refl) as [[a ->]|[f ->]]; done).
  unfold data_lock. rewrite (heap_lock_after heap set_heap m_mutex with_mutex acquire held _ w p d) by
    (done || (destruct (m _); simpl in *; subst; try done; simpl; rewrite lookup_insert_eq; by eexists)).
  fold w1. destruct (m w1) as [a w2|e w2|f]; simpl in *; try done; subst w2.
  all: unfold w1; simpl; rewrite alter_insert_eq, with_mutex_id, insert_id by done; by destruct w.
Qed.

Lemma mfold_same {A B} w (l : list A) (body : B → A → M (configw W) B) b :
  (∀ x b, x ∈ l → ends (λ w', w' = w) (body b x w)) → ends (λ w', w' = w) (mfold body l b w).
Proof.
  revert b. induction l as [|x l IH]; intros b Hb; [done|]. cbn [mfold]. unfold mbind'.
  pose proof (Hb x b) as Hx. destruct (body b x w) as [b' w1|e w1|f]; simpl in Hx; [|apply Hx; by left|done].
  rewrite Hx by (by left). apply IH. intros y b2 Hy. apply Hb. by right.
Qed.
Lemma keeps_map_lock {A} acquire held (body : M (configw W) A) w :
  acquire Unlocked = Ret tt held → unlock held = Ret tt Unlocked → wf w →
  ends (λ w', ∃ w1, w' = set_mutex held w1 ∧ wf w1 ∧ extends w w1) (body (set_mutex held w)) →
  keeps w (map_lock acquire body w).
Proof.
  intros Ha Hu Hw Hb. rewrite (map_lock_after acquire held); [|done|done|by destruct Hw|].
  - destruct (body _); simpl in *; try done; destruct Hb as (w1 & -> & Hw1 & He).
    all: unfold keeps; simpl; rewrite set_mutex_id by (by destruct Hw1); done.
  - destruct (body _); simpl in *; try done; by destruct Hb as (w1 & -> & _).
Qed.

(** ** What the operations keep *)

Section Operations.
Context {Htyped : ConfigTyped}.
Context (call : nat → value → value → M (configw W) unit) (Hcall : outside call).
Context {Node : Type} `{YamlTree Node}.

Lemma keeps_setData_value w p d v : wf w → heap w !! p = Some d → type_of v = m_type d →
  keeps w (setData_value call p v w).
Proof using Hcall.
  intros Hw Hd Ht. destruct (wf_data _ Hw _ _ Hd) as (Hl & Hty & Hn).
  rewrite (setData_value_run call Hcall w p d v Hd Hl). destruct (veq (m_data d) v); [by apply keeps_Ret|].
  destruct (run_cbs call p d v w) as [[] w1|e w1|f]; [|split; [by apply wf_set_ext|apply extends_set_ext]|done].
  by apply (keeps_insert w p d).
Qed.
Lemma keeps_fromString w p d s : wf w → heap w !! p = Some d → keeps w (fromString call p s w).
Proof using Hcall Htyped.
  intros Hw Hd. apply keeps_catch; [|by intros; apply keeps_Ret].
  rewrite (bind_Ret _ _ _ d w) by (unfold the_data; by rewrite Hd).
  destruct (FromStr (m_type d) s) as [e|v] eqn:E; [by split|].
  apply keeps_bind; [|by intros; apply keeps_Ret].
  by apply keeps_setData_value with d, FromStr_type with s.
Qed.
Lemma toString_same w p d : heap w !! p = Some d → m_mutex d = Unlocked →
  ends (λ w', w' = w) (toString p w).
Proof using Type.
  intros Hd Hl. unfold toString, catch_runtime.
  rewrite (bind_Ret _ _ _ _ _ (getData_value_run w p d Hd Hl)). by destruct (ToStr (m_data d)) as [[]|].
Qed.
Lemma keeps_same {A} w (o : outcome (configw W) A) : wf w → ends (λ w', w' = w) o → keeps w o.
Proof using Type. intros Hw. destruct o; simpl; intros; subst; done. Qed.
Lemma keeps_toString w p d : wf w → heap w !! p = Some d → keeps w (toString p w).
Proof using Type.
  intros Hw Hd. apply keeps_same, (toString_same w p d); [done|done|]. by apply (wf_data _ Hw p).
Qed.

Lemma convert_run node (vec : list (string * Node)) w :
  ∃ r, flat "" node r ∧ convertYamlToVector (S (node_depth node)) "" node vec w = converted vec r w.
Proof using Type.
  destruct (flat_total "" node) as [r Hr]. exists r. split; [done|].
  apply (convert_flat (S (node_depth node))); [done|lia].
Qed.
Lemma keeps_apply_node w (it : string * Node) : wf w → keeps w (apply_node call it w).
Proof using Hcall Htyped.
  intros Hw. unfold apply_node. case_decide; [by apply keeps_Ret|].
  rewrite (bind_Ret _ _ _ (datas w !! it.1) w) by done.
  destruct (datas w !! it.1) as [p|] eqn:Hp; [|by apply keeps_Ret].
  destruct (wf_names _ Hw _ _ Hp) as (d & Hd & _).
  apply keeps_bind; [|by intros; apply keeps_Ret]. destruct (IsScalar it.2); by apply keeps_fromString with d.
Qed.
Lemma keeps_parse w node : wf w → keeps w (parseFromYaml call (S (node_depth node)) node w).
Proof using Hcall Htyped.
  intros Hw. apply keeps_catch; [|by intros; apply keeps_Ret].
  destruct (convert_run node [] w) as (r & _ & E). destruct r as [bad|l]; simpl in E.
  - by mstep E.
  - mstep E. apply keeps_for; [done|]. intros x w1 _ Hw1 _. by apply keeps_apply_node.
Qed.
Lemma keeps_callbacks w p d : wf w → heap w !! p = Some d →
  (∀ cb, keeps w (addConfigDataChangeCB p cb w)) ∧ (∀ key, keeps w (delConfigDataChangeCB p key w)) ∧
  (∀ key, keeps w (getConfigDataChangeCB p key w)) ∧ keeps w (clearConfigDataChangeCB p w).
Proof using Type.
  intros Hw Hd. destruct (wf_data _ Hw _ _ Hd) as (Hl & Hty & Hn).
  assert (Hread : ∀ A acquire held (m : M (configw W) A), acquire Unlocked = Ret tt held →
    unlock held = Ret tt Unlocked →
    (∀ w1, heap w1 = <[p := with_mutex held d]> (heap w) → (∃ a, m w1 = Ret a w1) ∨ ∃ f, m w1 = Fault f) →
    keeps w (data_lock acquire p m w)).
  { intros A acquire held m Ha Hu Hm. pose proof (cb_read_run acquire held m w p d Ha Hu Hd Hl Hm) as Hr.
    destruct (data_lock acquire p m w); simpl in *; subst; try done. }
  assert (Hget : ∀ w1 held, heap w1 = <[p := with_mutex held d]> (heap w) →
    the_data p w1 = Ret (with_mutex held d) w1).
  { intros w1 held Hh. unfold the_data. by rewrite Hh, lookup_insert_eq. }
  split_and!.
  - intros cb. rewrite (addConfigDataChangeCB_run w p d cb Hd Hl).
    destruct (find_cb m_key (m_cbs d)); [by apply keeps_Ret|]. by apply (keeps_insert' w p d).
  - intros key. apply (Hread bool wrlock Exclusive); [done|done|]. intros w1 Hh.
    rewrite (bind_Ret _ _ _ _ _ (Hget w1 Exclusive Hh)). destruct (find_cb key _); [left; by eexists|right; by eexists].
  - intros key. apply (Hread (option nat) rdlock (Shared 1)); [done|done|]. intros w1 Hh.
    rewrite (bind_Ret _ _ _ _ _ (Hget w1 (Shared 1) Hh)). destruct (find_cb key _); [left; by eexists|right; by eexists].
  - unfold clearConfigDataChangeCB. rewrite (write_run (with_cbs []) w p d) by done. by apply (keeps_insert' w p d).
Qed.
Lemma keeps_setData_ptr w p d : wf w → heap w !! p = Some d → keeps w (setData_ptr p w).
Proof using Type.
  intros Hw Hd. apply (keeps_map_lock wrlock Exclusive); [done|done|done|].
  destruct (wf_data _ Hw _ _ Hd) as (_ & _ & Hn). unfold getName.
  rewrite (bind_Ret _ _ _ (m_name d) (set_mutex Exclusive w)).
  2:{ unfold the_data, mbind', mreturn. simpl. by rewrite Hd. }
  rewrite Hn. destruct (isValidParamName (m_name d)) eqn:Hv; simpl; [|by exists w].
  rewrite (bind_Ret mget _ _ _ _ eq_refl). simpl. destruct (datas w !! m_name d) as [q|] eqn:Hq.
  - destruct (wf_names _ Hw _ _ Hq) as (x & Hx & _). unfold getType.
    rewrite (bind_Ret _ _ _ (m_type x) (set_mutex Exclusive w)); [by exists w|].
    unfold the_data, mbind', mreturn. simpl. by rewrite Hx.
  - simpl. exists (set_datas (<[m_name d := p]> (datas w)) w). split; [done|].
    destruct Hw as [Mx D N]. split; split; simpl; try done.
    + intros n x. destruct (decide (n = m_name d)) as [->|Hne].
      * rewrite lookup_insert_eq. intros [= <-]. by exists d.
      * rewrite lookup_insert_ne by done. apply N.
    + intros n x Hx. rewrite lookup_insert_ne; [done|]. congruence.
    + intros q x Hx. by exists x.
Qed.
End Operations.

(** ** The types of the configuration *)

Section Program.
Context {Htyped : ConfigTyped}.
Context (call : nat → value → value → M (configw W) unit) (Hcall : outside call).
Context {Node : Type} `{YamlTree Node}.

Inductive op :=
| Create (name : string) (t : ctype) (v : value) (desc : string)
| SetData (t : ctype) (name : string) (v : value) (desc : string)
| SetDataPtr (p : nat)
| GetData (t : ctype) (name : string)
| GetDataBase (name : string)
| SetValue (p : nat) (v : value)
| GetValue (p : nat)
| FromString (p : nat) (s : string)
| ToString (p : nat)
| AddCB (p cb : nat)
| DelCB (p : nat) (key : Z)
| GetCB (p : nat) (key : Z)
| ClearCB (p : nat)
| Parse (node : Node)
| AllToString.

Definition exec (o : op) : M (configw W) unit :=
  match o with
  | Create name t v desc => ConfigData_create name t v desc;; mreturn tt
  | SetData t name v desc => setData t name v desc;; mreturn tt
  | SetDataPtr p => setData_ptr p
  | GetData t name => getData t name;; mreturn tt
  | GetDataBase name => getDataBase name;; mreturn tt
  | SetValue p v => setData_value call p v
  | GetValue p => getData_value p;; mreturn tt
  | FromString p s => fromString call p s;; mreturn tt
  | ToString p => toString p;; mreturn tt
  | AddCB p cb => addConfigDataChangeCB p cb;; mreturn tt
  | DelCB p key => delConfigDataChangeCB p key;; mreturn tt
  | GetCB p key => getConfigDataChangeCB p key;; mreturn tt
  | ClearCB p => clearConfigDataChangeCB p
  | Parse node => parseFromYaml call (S (node_depth node)) node
  | AllToString => Config_toString;; mreturn tt
  end.

(** What the compiler checks: values are of the type of the template
    parameter, and pointers are to data. *)
Definition well_typed w (o : op) : Prop :=
  match o with
  | Create _ t v _ | SetData t _ v _ => type_of v = t
  | SetValue p v => ∃ d, heap w !! p = Some d ∧ type_of v = m_type d
  | SetDataPtr p | GetValue p | FromString p _ | ToString p | AddCB p _ | DelCB p _ | GetCB p _
  | ClearCB p => is_Some (heap w !! p)
  | _ => True
  end.

Definition start (e : W) : configw W := mkConfig ∅ ∅ Unlocked e.
Inductive reachable : configw W → Prop :=
| reach_start e : reachable (start e)
| reach_return w o w' : reachable w → well_typed w o → exec o w = Ret tt w' → reachable w'
| reach_throw w o e w' : reachable w → well_typed w o → exec o w = Throw e w' → reachable w'.

Lemma keeps_unit {A} w (m : M (configw W) A) : keeps w (m w) → keeps w ((m;; mreturn tt) w).
Proof using Type. intros Hm. apply keeps_bind; [done|]. by intros; apply keeps_Ret. Qed.

Lemma keeps_Config_toString w : wf w → keeps w (Config_toString w).
Proof using Type.
  intros Hw. apply keeps_same; [done|]. set (w1 := set_mutex (Shared 1) w).
  assert (E : ends (λ w', w' = w1) ((w <- mget;;
     mfold (λ os name, w <- mget;;
       match datas w !! name with
       | Some p => s <- toString p;;
                   mreturn (os +:+ name +:+ ":" +:+ one (to_char 10) +:+ one (to_char 9) +:+ s +:+
                            one (to_char 10))
       | None => mreturn os
       end) (names w) "") w1)).
  { rewrite (bind_Ret mget _ _ _ _ eq_refl). apply mfold_same. intros name os _.
    rewrite (bind_Ret mget _ _ _ _ eq_refl). destruct (datas w1 !! name) as [p|] eqn:Hp; [|done].
    destruct (wf_names _ Hw _ _ Hp) as (d & Hd & _). destruct (wf_data _ Hw _ _ Hd) as (Hl & _).
    pose proof (toString_same w1 p d Hd Hl) as Hs. unfold mbind'.
    destruct (toString p w1); simpl in *; done. }
  unfold Config_toString. rewrite (map_lock_after rdlock (Shared 1)); [|done|done|by destruct Hw|].
  all: fold w1; destruct ((w <- mget;; _) w1); simpl in E |- *; subst; try done.
  all: unfold w1; apply set_mutex_id; by destruct Hw.
Qed.

Lemma exec_keeps w o : wf w → well_typed w o → keeps w (exec o w).
Proof using Hcall Htyped.
  intros Hw. destruct o as [name t v desc|t name v desc|p|t name|name|p v|p|p s|p|p cb|p key|p key|p|node|];
    cbn [well_typed exec].
  - intros Ht. apply keeps_unit. split.
    + apply wf_insert; [done|by repeat split; try apply toLower_idem|by rewrite fresh_None].
    + apply extends_insert. by rewrite fresh_None.
  - intros Ht. apply keeps_unit. rewrite (setData_run w t name v desc Hw).
    destruct (isValidParamName (toLower name)) eqn:Hv; cbn [negb]; [|by apply keeps_Ret].
    destruct (datas w !! toLower name) eqn:Hn; [by apply keeps_Ret|]. by apply wf_registered.
  - intros [d Hd]. by apply keeps_setData_ptr with d.
  - intros _. apply keeps_unit. rewrite (getData_run w t name Hw). by apply keeps_Ret.
  - intros _. apply keeps_unit. by apply keeps_Ret.
  - intros (d & Hd & Ht). by apply keeps_setData_value with d.
  - intros [d Hd]. apply keeps_unit. destruct (wf_data _ Hw _ _ Hd) as (Hl & _).
    rewrite (getData_value_run w p d Hd Hl). by apply keeps_Ret.
  - intros [d Hd]. apply keeps_unit. by apply keeps_fromString with d.
  - intros [d Hd]. apply keeps_unit. by apply keeps_toString with d.
  - intros [d Hd]. apply keeps_unit, (keeps_callbacks w p d Hw Hd).
  - intros [d Hd]. apply keeps_unit, (keeps_callbacks w p d Hw Hd).
  - intros [d Hd]. apply keeps_unit, (keeps_callbacks w p d Hw Hd).
  - intros [d Hd]. apply (keeps_callbacks w p d Hw Hd).
  - intros _. by apply keeps_parse.
  - intros _. by apply keeps_unit, keeps_Config_toString.
Qed.
Lemma config_reachable_wf w : reachable w → wf w.
Proof using Hcall Htyped.
  induction 1 as [e|w o w' _ IH Ho E|w o e w' _ IH Ho E].
  - split; simpl; [done| |]; intros ? ? Hx; by rewrite lookup_empty in Hx.
  - pose proof (exec_keeps w o IH Ho) as Hk. rewrite E in Hk. by destruct Hk.
  - pose proof (exec_keeps w o IH Ho) as Hk. rewrite E in Hk. by destruct Hk.
Qed.

(** C11: getData<T> gives nothing but data that hold a value of T, and that stay
    data of T with this name whatever is done to the configuration then: by
    strings, by YAML, by the registration of other data and by callbacks that
    work outside of it. *)
Theorem config_typed w t name p w' : reachable w → getData t name w = Ret (Some p) w' →
  w' = w ∧ (∃ d, heap w !! p = Some d ∧ m_type d = t ∧ type_of (m_data d) = t ∧ m_name d = toLower name) ∧
  ∀ o w1, well_typed w o → exec o w = Ret tt w1 ∨ (∃ e, exec o w = Throw e w1) →
    getData t name w1 = Ret (Some p) w1 ∧
    ∃ d, heap w1 !! p = Some d ∧ m_type d = t ∧ type_of (m_data d) = t.
Proof using Hcall Htyped.
  intros Hr E. pose proof (config_reachable_wf w Hr) as Hw. rewrite (getData_run w t name Hw) in E.
  injection E as E <-. split; [done|].
  assert (Hl : ∀ w1, typed_lookup w1 t name = Some p ↔ isValidParamName (toLower name) = true ∧
    datas w1 !! toLower name = Some p ∧ ∃ d, heap w1 !! p = Some d ∧ m_type d = t).
  { intros w1. unfold typed_lookup. split.
    - intros H1. repeat case_match; simplify_eq; eauto.
    - intros (-> & -> & d & -> & <-). by rewrite decide_True. }
  apply Hl in E as (Hv & Hn & d & Hd & Ht). destruct (wf_data _ Hw _ _ Hd) as (_ & Hty & _).
  destruct (wf_names _ Hw _ _ Hn) as (d' & Hd' & Hname & _). simplify_eq. split; [by exists d|].
  intros o w1 Ho E. pose proof (exec_keeps w o Hw Ho) as Hk.
  assert (Hk' : wf w1 ∧ extends w w1) by (destruct E as [E|[e E]]; by rewrite E in Hk).
  destruct Hk' as [Hw1 [EN ED]]. destruct (ED p d Hd) as (d1 & Hd1 & Ht1 & _).
  rewrite (getData_run w1 _ name Hw1). split.
  - f_equal. apply Hl. split_and!; [done|by apply EN|by exists d1].
  - exists d1. destruct (wf_data _ Hw1 _ _ Hd1) as (_ & Hty1 & _). split_and!; congruence.
Qed.
End Program.

(** ** What a YAML tree sets *)

Section Yaml.
Context {Htyped : ConfigTyped}.
Context (call : nat → value → value → M (configw W) unit).
Context (Hret : ∀ cb a b w, ∃ e, call cb a b w = Ret tt (set_ext e w)).
Context (Hfrom : ∀ t s e, FromStr t s = inl e → ∃ what args, e = runtime_error what args).
Context {Node : Type} `{YamlTree Node}.

Definition node_string (n : Node) : string := if IsScalar n then node_scalar n else node_text n.
(** The value of a datum after [fromString], where [==] keeps the old one. *)
Definition assigned (t : ctype) (v : value) (s : string) : value :=
  match FromStr t s with inr v' => if veq v v' then v else v' | inl _ => v end.
(** After the nodes [l]: each node under the name of [d] is tried in turn. *)
Definition value_after (d : ConfigData) (l : list (string * Node)) : value :=
  foldl (λ v it, if decide (it.1 = m_name d ∧ it.1 ≠ "") then assigned (m_type d) v (node_string it.2) else v)
    (m_data d) l.
(** The registered data have the values of [f], and nothing else has changed
    but the rest of the program. *)
Definition values_are (f : ConfigData → value) w w' : Prop :=
  datas w' = datas w ∧ s_mutex w' = s_mutex w ∧ ∀ p d, heap w !! p = Some d →
    heap w' !! p = Some (if decide (datas w !! m_name d = Some p) then with_data (f d) d else d).

Lemma outside_ret : outside call.
Proof using Hret. intros cb a b w. by destruct (Hret cb a b w) as [e ->]. Qed.
Lemma run_cbs_ret p d v w : ∃ w1, run_cbs call p d v w = Ret tt w1 ∧ w1 = set_ext (ext w1) (locked p d w).
Proof using Hret.
  unfold run_cbs. generalize (locked p d w). induction (m_cbs d) as [|[k cb] l IH]; intros w1; simpl.
  - exists w1. split; [done|by destruct w1].
  - destruct (Hret cb (m_data d) v w1) as [e E]. mstep E.
    destruct (IH (set_ext e w1)) as (w2 & E2 & H2). exists w2. split; [done|]. by rewrite H2.
Qed.
Lemma fromString_run w p d s : heap w !! p = Some d → m_mutex d = Unlocked →
  ∃ b e, fromString call p s w =
    Ret b (set_ext e (set_heap (<[p := with_data (assigned (m_type d) (m_data d) s) d]> (heap w)) w)).
Proof using Hfrom Hret.
  intros Hd Hl. assert (Hid : w = set_heap (<[p := with_data (m_data d) d]> (heap w)) w).
  { rewrite insert_id; [by destruct w|]. by destruct d. }
  unfold fromString, catch_runtime. assert (Eg : the_data p w = Ret d w) by (unfold the_data; by rewrite Hd).
  rewrite (bind_Ret _ _ _ _ _ Eg). unfold assigned. destruct (FromStr (m_type d) s) as [x|v] eqn:E.
  - destruct (Hfrom _ _ _ E) as (what & args & ->). simpl. exists false, (ext w). rewrite <-Hid. by destruct w.
  - unfold mbind'. rewrite (setData_value_run call outside_ret w p d v Hd Hl).
    destruct (veq (m_data d) v); [exists true, (ext w); rewrite <-Hid; by destruct w|].
    destruct (run_cbs_ret p d v w) as (w1 & -> & _). by exists true, (ext w1).
Qed.

Lemma apply_node_run w it : wf w → ∃ w', apply_node call it w = Ret tt w' ∧
  values_are (λ d, value_after d [it]) w w' ∧ wf w'.
Proof using Hfrom Hret Htyped.
  intros Hw. assert (Hsame : (it.1 = "" ∨ datas w !! it.1 = None) →
    values_are (λ d, value_after d [it]) w w).
  { intros Hk. split_and!; try done. intros p d Hd. case_decide as Hn; [|done].
    unfold value_after. simpl. rewrite decide_False; [by destruct d|]. intros [Hi Hi'].
    rewrite Hi in Hk. destruct Hk; congruence. }
  unfold apply_node. case_decide as He.
  { exists w. split_and!; [done|apply Hsame; by left|done]. }
  rewrite (bind_Ret _ _ _ (datas w !! it.1) w) by done.
  destruct (datas w !! it.1) as [p|] eqn:Hp; [|exists w; split_and!; [done|apply Hsame; by right|done]].
  destruct (wf_names _ Hw _ _ Hp) as (d & Hd & Hn & _). destruct (wf_data _ Hw _ _ Hd) as (Hl & Hty & Hlow).
  destruct (fromString_run w p d (node_string it.2) Hd Hl) as (b & e & E).
  exists (set_ext e (set_heap (<[p := with_data (assigned (m_type d) (m_data d) (node_string it.2)) d]> (heap w)) w)).
  split_and!.
  - replace (if IsScalar it.2 then _ else _) with (fromString call p (node_string it.2))
      by (unfold node_string; by destruct (IsScalar it.2)). by mstep E.
  - split_and!; [done|done|]. intros q x Hx. simpl. destruct (decide (q = p)) as [->|Hq].
    + simplify_eq. rewrite lookup_insert_eq, decide_True by congruence. unfold value_after. simpl.
      by rewrite decide_True.
    + rewrite lookup_insert_ne by done. case_decide as Hqn; [|done]. unfold value_after. simpl.
      rewrite decide_False; [by destruct x|]. intros [Hi _]. congruence.
  - apply wf_set_ext, wf_insert; [done| |intros d0 Hd0; by simplify_eq]. split_and!; [done| |done].
    simpl. unfold assigned. destruct (FromStr _ _) as [|v] eqn:Ev; [done|].
    destruct (veq _ _); [done|]. by apply FromStr_type in Ev.
Qed.

Lemma value_after_cons d it l : value_after d (it :: l) = value_after (with_data (value_after d [it]) d) l.
Proof using Type. done. Qed.
Lemma apply_nodes_run l w : wf w → ∃ w', mfor l (apply_node call) w = Ret tt w' ∧
  values_are (λ d, value_after d l) w w' ∧ wf w'.
Proof using Hfrom Hret Htyped.
  revert w. induction l as [|it l IH]; intros w Hw.
  { exists w. split_and!; [done| |done]. split_and!; try done. intros p d Hd. case_decide; [by destruct d|done]. }
  cbn [mfor]. destruct (apply_node_run w it Hw) as (w1 & E1 & (D1 & M1 & H1) & Hw1).
  destruct (IH w1 Hw1) as (w2 & E2 & (D2 & M2 & H2) & Hw2). exists w2. mstep E1. split_and!; [done| |done].
  split_and!; [congruence|congruence|]. intros p d Hd. specialize (H1 p d Hd).
  destruct (decide (datas w !! m_name d = Some p)) as [Hn|Hn]; apply H2 in H1; rewrite H1, D1.
  - by rewrite decide_True.
  - by rewrite decide_False.
Qed.

(** C27: parseFromYaml returns, whatever the tree, when every callback returns
    and leaves the configuration alone ([config_callback_limits] has others) and
    the conversions throw no exceptions but std::runtime_errors.
    When a name in the tree is not valid nothing at all has changed; otherwise
    each registered datum has the value that the nodes under its name give it in
    their order, each whose text does not convert left out, and no datum, name
    or type has changed besides. *)
Theorem yaml_sets w node : wf w →
  (∀ bad, flat "" node (inl bad) → parseFromYaml call (S (node_depth node)) node w = Ret tt w) ∧
  (∀ l, flat "" node (inr l) → ∃ w', parseFromYaml call (S (node_depth node)) node w = Ret tt w' ∧
     wf w' ∧ values_are (λ d, value_after d l) w w') ∧
  ∃ r, flat "" node r.
Proof using Hfrom Hret Htyped.
  intros Hw. unfold parseFromYaml, catch_runtime. split_and!; [| |apply flat_total].
  - intros bad Hb. rewrite (bind_Throw _ _ _ (runtime_error ("data name is invalid: " +:+ bad) []) w); [done|].
    apply (convert_flat (S (node_depth node)) "" node (inl bad)); [done|lia].
  - intros l Hl. destruct (apply_nodes_run l w Hw) as (w' & E & Hv & Hw'). exists w'.
    rewrite (bind_Ret _ _ _ l w); [by rewrite E|].
    apply (convert_flat (S (node_depth node)) "" node (inr l)); [done|lia].
Qed.
End Yaml.

(** ** Callbacks *)

Lemma reading_run {A} acquire held (m : M (configw W) A) o w p d :
  acquire Unlocked = Ret tt held → unlock held = Ret tt Unlocked →
  heap w !! p = Some d → m_mutex d = Unlocked →
  m (set_heap (<[p := with_mutex held d]> (heap w)) w) = o (set_heap (<[p := with_mutex held d]> (heap w)) w) →
  (∃ a, ∀ w, o w = Ret a w) ∨ (∃ f, ∀ w, o w = Fault f) → data_lock acquire p m w = o w.
Proof.
  intros Ha Hu Hd Hl Hm Ho. set (w1 := set_heap (<[p := with_mutex held d]> (heap w)) w) in *.
  assert (E : ends (λ w', w' = w1) (m w1)) by (rewrite Hm; destruct Ho as [[a ->]|[f ->]]; done).
  unfold data_lock. rewrite (heap_lock_after heap set_heap m_mutex with_mutex acquire held _ w p d) by
    (done || (destruct (m _); simpl in *; subst; try done; simpl; rewrite lookup_insert_eq; by eexists)).
  fold w1. rewrite Hm. destruct Ho as [[a Ho]|[f Ho]]; rewrite !Ho; [|done]. simpl. unfold w1. simpl.
  rewrite alter_insert_eq, with_mutex_id, insert_id by done. by destruct w.
Qed.

(** The callbacks of a datum: a second one is not kept and gets the key of the
    first; none can be deleted or looked up, and asking for a key that is not
    there goes behind the end of the map; an exception in one keeps the value
    as it was; and one that touches the callbacks of its own datum waits for
    ever. *)
Theorem config_callback_limits call w p d key : wf w → heap w !! p = Some d →
  (∀ cb c, find_cb 0 (m_cbs d) = Some c → addConfigDataChangeCB p cb w = Ret 0 w) ∧
  (delConfigDataChangeCB p key w = match find_cb key (m_cbs d) with
                                   | Some _ => Ret false w | None => Fault EraseEnd end) ∧
  (getConfigDataChangeCB p key w = match find_cb key (m_cbs d) with
                                   | Some _ => Ret None w | None => Fault EraseEnd end) ∧
  (∀ v e w', outside call → setData_value call p v w = Throw e w' → heap w' = heap w) ∧
  ∀ cb, addConfigDataChangeCB p cb (locked p d w) = Fault Deadlock ∧
        clearConfigDataChangeCB p (locked p d w) = Fault Deadlock.
Proof.
  intros Hw Hd. destruct (wf_data _ Hw _ _ Hd) as (Hl & _). split_and!.
  - intros cb c Hc. rewrite (addConfigDataChangeCB_run w p d cb Hd Hl). unfold m_key. by rewrite Hc.
  - apply (reading_run wrlock Exclusive _ (λ w, match find_cb key (m_cbs d) with
      | Some _ => Ret false w | None => Fault EraseEnd end) w p d); try done.
    + unfold the_data, mbind'. simpl. rewrite lookup_insert_eq. simpl. by destruct (find_cb key (m_cbs d)).
    + destruct (find_cb key (m_cbs d)); [left|right]; by eexists.
  - apply (reading_run rdlock (Shared 1) _ (λ w, match find_cb key (m_cbs d) with
      | Some _ => Ret None w | None => Fault EraseEnd end) w p d); try done.
    + unfold the_data, mbind'. simpl. rewrite lookup_insert_eq. simpl. by destruct (find_cb key (m_cbs d)).
    + destruct (find_cb key (m_cbs d)); [left|right]; by eexists.
  - intros v e w' Ho E. rewrite (setData_value_run call Ho w p d v Hd Hl) in E.
    destruct (veq (m_data d) v); [done|]. by destruct (run_cbs call p d v w); simplify_eq.
  - intros cb. by split; eapply scoped_held; simpl; rewrite ?lookup_insert_eq.
Qed.
End Keep.

(** ** An instance: numbers and words *)

#[global] Instance demo_types : ConfigTypes := {
  ctype := bool;
  value := Z + string;
  type_of v := match v with inl _ => true | inr _ => false end;
  veq v v' := bool_decide (v = v');
  FromStr t s := if t then match s with "80" => inr (inl 80) | _ => inl (runtime_error "error cast" []) end
                 else inr (inr s);
  ToStr v := match v with inl z => inr (dec z) | inr s => inr s end;
}.
Lemma demo_typed : ConfigTyped.
Proof.
  intros [] s v; simpl; [|by intros [= <-]]. intros E. repeat case_match; by simplify_eq.
Qed.
Definition num : @ctype demo_types := true.
Definition word : @ctype demo_types := false.
Definition a_num (z : Z) : @value demo_types := inl z.
Definition a_word (s : string) : @value demo_types := inr s.
Definition demo_call (cb : nat) (a b : value) : M (configw (list nat)) unit :=
  mmodify (λ w, set_ext (cb :: ext w) w).
Definition demo_world : configw (list nat) :=
  registered (registered (start []) "Tcp.Port" num (a_num 8080) "port") "name" word (a_word "x") "".
Definition demo_node : tree := TMap [("TCP", TMap [("port", TScalar "80")]); ("Name", TScalar "server")].
Lemma demo_outside : outside demo_call.
Proof. done. Qed.
Lemma demo_reachable : reachable demo_call (Node := tree) demo_world.
Proof.
  eapply (reach_return _ (registered (start []) "Tcp.Port" num (a_num 8080) "port")
    (SetData word "name" (a_word "x") "")); [|done|].
  - eapply (reach_return _ (start []) (SetData num "Tcp.Port" (a_num 8080) "port")); [constructor|done|].
    vm_compute. reflexivity.
  - vm_compute. reflexivity.
Qed.
Lemma demo_wf : wf demo_world.
Proof. exact (config_reachable_wf (Htyped := demo_typed) demo_call demo_outside demo_world demo_reachable). Qed.

Lemma config_typed_witness : getData num "TCP.port" demo_world = Ret (Some 0%nat) demo_world ∧
  ∃ d, heap demo_world !! 0%nat = Some d ∧ m_type d = num.
Proof.
  assert (E : getData num "TCP.port" demo_world = Ret (Some 0%nat) demo_world) by (vm_compute; reflexivity).
  destruct (config_typed (Htyped := demo_typed) demo_call demo_outside (Node := tree)
    demo_world num "TCP.port" 0%nat demo_world demo_reachable E) as (_ & (d & Hd & Ht & _) & _).
  split; [exact E|]. exists d. split; assumption.
Defined.

Definition demo_nodes : list (string * tree) :=
  [("", demo_node); ("tcp", TMap [("port", TScalar "80")]); ("tcp.port", TScalar "80"); ("name", TScalar "server")].
Lemma demo_flat : flat "" demo_node (inr demo_nodes).
Proof.
  apply (flat_map "" demo_node (inr (tail demo_nodes))); [reflexivity|reflexivity|].
  apply (flat_cons "" (TScalar "TCP") _ _ (take 2 (tail demo_nodes)) (inr [("name", TScalar "server")])).
  - apply (flat_map "TCP" _ (inr [("tcp.port", TScalar "80")])); [reflexivity|reflexivity|].
    apply (flat_cons "TCP" (TScalar "port") _ _ [("tcp.port", TScalar "80")] (inr [])); [|constructor].
    by apply (flat_leaf "tcp.port").
  - apply (flat_cons "" (TScalar "Name") _ _ [("name", TScalar "server")] (inr [])); [|constructor].
    by apply (flat_leaf "Name").
Qed.
Lemma yaml_sets_witness : ∃ w', parseFromYaml demo_call 4 demo_node demo_world = Ret tt w' ∧
  m_data <$> heap w' !! 0%nat = Some (a_num 80) ∧ m_data <$> heap w' !! 1%nat = Some (a_word "server").
Proof.
  destruct (yaml_sets (Htyped := demo_typed) demo_call (λ cb a b w, ex_intro _ (cb :: ext w) eq_refl)
    ltac:(intros [] s e E; simpl in E; repeat case_match; simplify_eq; eauto) demo_world demo_node demo_wf)
    as (_ & H & _).
  destruct (H demo_nodes demo_flat) as (w' & E & _ & (_ & _ & Hv)). exists w'. split; [exact E|].
  pose proof (Hv 0%nat _ eq_refl) as H0. pose proof (Hv 1%nat _ eq_refl) as H1.
  rewrite H0, H1. split; vm_compute; reflexivity.
Defined.

Lemma config_callback_limits_witness :
  delConfigDataChangeCB 0 0 demo_world = Fault EraseEnd ∧
  addConfigDataChangeCB 0 7 (locked 0 (new_data "Tcp.Port" num (a_num 8080) "port") demo_world) = Fault Deadlock.
Proof.
  destruct (config_callback_limits demo_call demo_world 0 (new_data "Tcp.Port" num (a_num 8080) "port") 0 demo_wf)
    as (_ & H1 & _ & _ & H2); [reflexivity|]. split; [exact H1|apply (H2 7%nat)].
Defined.
