(* ===== verification/LexicalCast.v ===== *)
(** * Conversions between values and text (util/lexicalcast.h)

    A specialisation LexicalCast<T, std::string> with its inverse is an
    instance of [Lexical T]: [cast_from] reads a value from a text, [cast_to]
    prints it, each with an exception instead. The scalars go through a
    std::stringstream, whose extraction of words and integers in the C locale
    is written out; the containers through YAML nodes ([YamlDoc]). A hashed
    container is the list of its elements in the order of an iteration, which
    the library chooses anew ([order]) whenever an element comes. *)

From Stdlib Require Import Ascii String.
From S2P Require Import Prelude Strings StringsSpec Yaml.
#[local] Open Scope Z_scope.

Class Lexical (T : Type) := {
  cast_from : string → exn + T;
  cast_to : T → exn + string;
}.

(** ** Extraction from a stream *)

(** [ss >> std::ws]: what is left. *)
Fixpoint skip_ws (s : string) : string :=
  match s with
  | String c s' => if isspace c then skip_ws s' else s
  | EmptyString => EmptyString
  end.
(** The word a [std::string] is extracted as, and the rest. *)
Fixpoint word (s : string) : string * string :=
  match s with
  | String c s' => if isspace c then (EmptyString, s) else let '(w, r) := word s' in (String c w, r)
  | EmptyString => (EmptyString, EmptyString)
  end.
Definition isdigit (c : ascii) : bool := (48 <=? code c) && (code c <=? 57).
(** The digits at the start, their number and the rest. *)
Fixpoint take_digits (s : string) (z : Z) (n : nat) : Z * nat * string :=
  match s with
  | String c s' => if isdigit c then take_digits s' (10 * z + (code c - 48)) (S n) else (z, n, s)
  | EmptyString => (z, n, EmptyString)
  end.
(** An 8-bit integer is a character to a stream: one that is no white space. *)
Definition get_char (signed : bool) (s : string) : option (Z * string) :=
  match skip_ws s with
  | String c s' => Some (if signed then schar c else code c, s')
  | EmptyString => None
  end.
(** A wider integer of [w] bits in base ten: a sign, digits; no digit and a
    value outside the type fail; a minus sign negates modulo 2^w in an unsigned
    type. *)
Definition get_number (signed : bool) (w : Z) (s : string) : option (Z * string) :=
  let s := skip_ws s in
  let '(neg, s) := match s with
                   | String "-" s' => (true, s')
                   | String "+" s' => (false, s')
                   | _ => (false, s)
                   end in
  let '(z, n, rest) := take_digits s 0 0 in
  if bool_decide (n = 0%nat) then None
  else if signed then
    let z := if neg : bool then - z else z in
    if (- 2 ^ (w - 1) <=? z) && (z <? 2 ^ (w - 1)) then Some (z, rest) else None
  else if z <? 2 ^ w then Some (if neg then wrapu w (- z) else z, rest) else None.

Definition get_int (signed : bool) (w : Z) (s : string) : option (Z * string) :=
  if w =? 8 then get_char signed s else get_number signed w s.
(** [ss << source] of an integer. *)
Definition put_int (w z : Z) : string :=
  if w =? 8 then String (to_char z) EmptyString else dec z.

Definition cast_error (text : string) : exn := runtime_error ("error cast: [" +:+ text +:+ "]") [].

(** [lexical_cast<T>(source)]: the text of the source, a value of T, and
    nothing but white space. *)
Definition lexical_cast {T} (get : string → option (T * string)) (text : string) : exn + T :=
  match get text with
  | Some (res, rest) => if decide (skip_ws rest = "") then inr res else inl (cast_error text)
  | None => inl (cast_error text)
  end.
Definition get_word (s : string) : option (string * string) :=
  let '(w, r) := word (skip_ws s) in if decide (w = "") then None else Some (w, r).

Definition Lexical_string : Lexical string := {|
  cast_from := lexical_cast get_word;
  cast_to := lexical_cast get_word;
|}.
Definition Lexical_bool : Lexical bool := {|
  cast_from source := inr (bool_decide (source = "true"));
  cast_to source := lexical_cast get_word (if source then "true" else "false");
|}.
#[global] Existing Instances Lexical_string Lexical_bool.
Definition Lexical_int (signed : bool) (w : Z) : Lexical Z := {|
  cast_from := lexical_cast (get_int signed w);
  cast_to z := lexical_cast get_word (put_int w z);
|}.

(** ** YAML documents

    [Load] (an exception is a std::runtime_error), a scalar node, an empty
    node, [push_back] and [node[key] = value]. *)
Class YamlDoc (Node : Type) `{Yaml Node} := {
  Load : string → exn + Node;
  mk_scalar : string → Node;
  mk_empty : Node;
  push_back : Node → Node → Node;
  set_key : Node → string → Node → Node;
}.

Fixpoint each {A B} (f : A → exn + B) (l : list A) : exn + list B :=
  match l with
  | [] => inr []
  | x :: l' => match f x with
               | inl e => inl e
               | inr y => match each f l' with inl e => inl e | inr ys => inr (y :: ys) end
               end
  end.

Section Containers.
Context {Node : Type} `{YamlDoc Node} {T : Type} `{Lexical T}.

(** Elements of a sequence, each printed and read as a T. *)
Definition read_elements (source : string) : exn + list T :=
  match Load source with
  | inl e => inl e
  | inr node => each (λ n, cast_from (node_text n)) (node_elements node)
  end.
(** Elements pushed as strings. *)
Definition print_elements (source : list T) : exn + string :=
  match each cast_to source with
  | inl e => inl e
  | inr texts => inr (node_text (foldl (λ node s, push_back node (mk_scalar s)) mk_empty texts))
  end.

(** std::vector and std::list. *)
Definition Lexical_vector : Lexical (list T) := {|
  cast_from := read_elements;
  cast_to := print_elements;
|}.
Definition Lexical_list : Lexical (list T) := {|
  cast_from := read_elements;
  cast_to := print_elements;
|}.

(** std::set, in the order of [less]; [insert] keeps what is there. *)
Section Set_.
Context (less : T → T → bool).
Fixpoint set_insert (x : T) (l : list T) : list T :=
  match l with
  | [] => [x]
  | y :: l' => if less x y then x :: l else if less y x then y :: set_insert x l' else l
  end.
Definition Lexical_set : Lexical (list T) := {|
  cast_from source := match read_elements source with
                      | inl e => inl e
                      | inr l => inr (foldl (λ res x, set_insert x res) [] l)
                      end;
  cast_to := print_elements;
|}.
End Set_.

(** std::map<std::string, T>, in the order of the keys. *)
Fixpoint map_insert (k : string) (x : T) (l : list (string * T)) : list (string * T) :=
  match l with
  | [] => [(k, x)]
  | (k', x') :: l' => if str_lt k k' then (k, x) :: l
                      else if str_lt k' k then (k', x') :: map_insert k x l' else l
  end.
Definition read_entry (it : Node * Node) : exn + (string * T) :=
  match cast_from (node_text it.2) with inl e => inl e | inr x => inr (node_scalar it.1, x) end.
Definition print_entry (it : string * T) : exn + (string * Node) :=
  match cast_to it.2 with
  | inl e => inl e
  | inr s => match Load s with inl e => inl e | inr n => inr (it.1, n) end
  end.
Definition read_entries (source : string) : exn + list (string * T) :=
  match Load source with
  | inl e => inl e
  | inr node => each read_entry (node_entries node)
  end.
Definition print_entries (source : list (string * T)) : exn + string :=
  match each print_entry source with
  | inl e => inl e
  | inr l => inr (node_text (foldl (λ node it, set_key node it.1 it.2) mk_empty l))
  end.
Definition Lexical_map : Lexical (list (string * T)) := {|
  cast_from source := match read_entries source with
                      | inl e => inl e
                      | inr l => inr (foldl (λ res it, map_insert it.1 it.2 res) [] l)
                      end;
  cast_to := print_entries;
|}.

(** std::unordered_set and std::unordered_map: [insert] keeps what is there. *)
Section UnorderedSet.
Context (eqb : T → T → bool) (order : list T → list T).
Definition hash_insert (x : T) (l : list T) : list T :=
  if existsb (eqb x) l then l else order (x :: l).
Definition Lexical_unordered_set : Lexical (list T) := {|
  cast_from source := match read_elements source with
                      | inl e => inl e
                      | inr l => inr (foldl (λ res x, hash_insert x res) [] l)
                      end;
  cast_to := print_elements;
|}.
End UnorderedSet.
Section UnorderedMap.
Context (order : list (string * T) → list (string * T)).
Definition hash_map_insert (k : string) (x : T) (l : list (string * T)) : list (string * T) :=
  if existsb (λ it, String.eqb k it.1) l then l else order ((k, x) :: l).
Definition Lexical_unordered_map : Lexical (list (string * T)) := {|
  cast_from source := match read_entries source with
                      | inl e => inl e
                      | inr l => inr (foldl (λ res it, hash_map_insert it.1 it.2 res) [] l)
                      end;
  cast_to := print_entries;
|}.
End UnorderedMap.
End Containers.

Example int_1 : cast_from (Lexical := Lexical_int false 32) " -1 " = inr (2 ^ 32 - 1).
Proof. reflexivity. Qed.
Example int_2 : ∃ e, cast_from (Lexical := Lexical_int true 16) "32768" = inl e.
Proof. eexists. vm_compute. reflexivity. Qed.
Example int_3 : ∃ e, cast_from (Lexical := Lexical_int true 32) "12a" = inl e.
Proof. eexists. vm_compute. reflexivity. Qed.
