(* ===== verification/LexicalSpec.v ===== *)
(** * Round trips of the conversions

    What is printed is read back: words, truth values, integers, and over a
    YAML library that reads what it prints ([YamlLaws]) the containers of
    scalars, maps of anything; a container inside a sequence is lost. *)

From Stdlib Require Import Ascii String Sorting.Sorted.
From S2P Require Import Prelude Strings StringsSpec Yaml LexicalCast.
#[local] Open Scope Z_scope.

(** ** Decimal numbers *)

Lemma digit_code d : 0 ≤ d < 10 →
  code (digit d) = 48 + d ∧ isdigit (digit d) = true ∧ isspace (digit d) = false.
Proof.
  intros Hd. assert (H : d = 0 ∨ d = 1 ∨ d = 2 ∨ d = 3 ∨ d = 4 ∨ d = 5 ∨ d = 6 ∨ d = 7 ∨ d = 8 ∨ d = 9) by lia.
  destruct_or!; subst; by vm_compute.
Qed.
Lemma digit_bounds z : 0 ≤ z → 0 ≤ z mod 10 < 10 ∧ 0 ≤ z / 10.
Proof. intros. split; [apply Z.mod_pos_bound; lia|apply Z.div_pos; lia]. Qed.

Definition words_only (s : string) : Prop := Forall (λ c, isspace c = false) (chars s).

Lemma digits_take fuel z acc : 0 ≤ z < 10 ^ Z.of_nat fuel → (0 < fuel)%nat →
  ∃ m, (0 < m)%nat ∧ ∀ a k,
    take_digits (digits fuel z acc) a k = take_digits acc (a * 10 ^ Z.of_nat m + z) (k + m).
Proof.
  revert z acc. induction fuel as [|fuel IH]; intros z acc Hz Hf; [lia|].
  destruct (digit_bounds z) as [Hm Hd]; [lia|]. destruct (digit_code (z mod 10) Hm) as (Hc & Hi & _).
  pose proof (Z.div_mod z 10). cbn [digits]. destruct (Z.eqb_spec (z / 10) 0) as [E|E].
  - exists 1%nat. split; [lia|]. intros a k. cbn [take_digits]. rewrite Hi, Hc. f_equal; lia.
  - rewrite Nat2Z.inj_succ, Z.pow_succ_r in Hz by lia.
    destruct (IH (z / 10) (String (digit (z mod 10)) acc)) as (m & Hm0 & Hrec).
    + split; [done|]. apply Z.div_lt_upper_bound; lia.
    + destruct fuel; [|lia]. change (10 ^ Z.of_nat 0) with 1 in Hz. assert (z / 10 = 0); [|done].
      apply Z.div_small. lia.
    + exists (S m). split; [lia|]. intros a k. rewrite Hrec. cbn [take_digits]. rewrite Hi, Hc.
      f_equal; [|lia]. rewrite Nat2Z.inj_succ, Z.pow_succ_r by lia. lia.
Qed.
Lemma digits_words fuel z acc : 0 ≤ z → words_only acc → words_only (digits fuel z acc).
Proof.
  revert z acc. induction fuel as [|fuel IH]; intros z acc Hz Ha; [done|]. cbn [digits].
  destruct (digit_bounds z Hz) as [Hm Hd]. destruct (digit_code (z mod 10) Hm) as (_ & _ & Hs).
  assert (Ha' : words_only (String (digit (z mod 10)) acc)) by (by constructor).
  destruct (z / 10 =? 0); [done|]. by apply IH.
Qed.
Lemma udec_fuel z : 0 ≤ z → 0 ≤ z < 10 ^ Z.of_nat (S (Z.to_nat (Z.log2 z))).
Proof.
  intros Hz. split; [done|]. rewrite Nat2Z.inj_succ, Z2Nat.id by apply Z.log2_nonneg.
  destruct (Z.eq_dec z 0) as [->|Hn]; [by vm_compute|].
  pose proof (Z.log2_spec z) as Hl. pose proof (Z.log2_nonneg z).
  pose proof (Z.pow_le_mono_l 2 10 (Z.succ (Z.log2 z))). lia.
Qed.
Lemma udec_take z : 0 ≤ z → ∃ m, (0 < m)%nat ∧ take_digits (udec z) 0 0 = (z, m, EmptyString).
Proof.
  intros Hz. destruct (digits_take _ z EmptyString (udec_fuel z Hz)) as (m & Hm & H); [lia|].
  exists m. split; [done|]. unfold udec. by rewrite H.
Qed.
Lemma udec_words z : 0 ≤ z → words_only (udec z).
Proof. intros. apply digits_words; [done|constructor]. Qed.
Lemma udec_cons z : 0 ≤ z → ∃ c s, udec z = String c s ∧ isdigit c = true.
Proof.
  intros Hz. destruct (udec_take z Hz) as (m & Hm & H). destruct (udec z) as [|c s]; [simpl in H; naive_solver lia|].
  exists c, s. split; [done|]. simpl in H. destruct (isdigit c); [done|]. injection H. intros. lia.
Qed.
Lemma dec_words z : words_only (dec z).
Proof.
  unfold dec. destruct (Z.ltb_spec z 0); [|by apply udec_words]. constructor; [done|].
  apply udec_words. lia.
Qed.
Lemma dec_nonempty z : dec z ≠ EmptyString.
Proof.
  unfold dec. destruct (Z.ltb_spec z 0); [done|]. destruct (udec_cons z) as (c & s & -> & _); done.
Qed.

(** ** Words *)

Lemma word_all s : words_only s → word s = (s, EmptyString).
Proof. induction s as [|c s IH]; [done|]. intros [Hc Hs]%Forall_cons. simpl. by rewrite Hc, IH. Qed.
Lemma skip_ws_words s : words_only s → skip_ws s = s.
Proof. destruct s; [done|]. intros [Hc _]%Forall_cons. simpl. by rewrite Hc. Qed.
Lemma cast_word s : words_only s → s ≠ EmptyString → lexical_cast get_word s = inr s.
Proof.
  intros Hs Hn. unfold lexical_cast, get_word. rewrite skip_ws_words, word_all by done.
  by rewrite decide_False.
Qed.

Lemma isdigit_sign c s {A} (f : string → A) (g : string → A) (h : A) : isdigit c = true →
  match String c s with String "-" s' => f s' | String "+" s' => g s' | _ => h end = h.
Proof. intros Hc. destruct c as [[] [] [] [] [] [] [] []]; done. Qed.

(** The integers of a type. *)
Definition in_range (signed : bool) (w z : Z) : Prop := if signed then srange w z else urange w z.

Lemma get_int_dec signed w z : 0 < w → w ≠ 8 → in_range signed w z →
  get_int signed w (dec z) = Some (z, EmptyString).
Proof.
  intros Hw H8 Hz. unfold get_int. rewrite (proj2 (Z.eqb_neq w 8)) by done. unfold get_number. rewrite skip_ws_words by apply dec_words. unfold dec.
  destruct (Z.ltb_spec z 0) as [Hn|Hn].
  - destruct (udec_take (- z)) as (m & Hm & E); [lia|]. rewrite E, bool_decide_false by lia.
    destruct signed; simpl in Hz; unfold srange, urange in Hz; [|lia].
    rewrite Z.opp_involutive, (proj2 (Z.leb_le _ _)), (proj2 (Z.ltb_lt _ _)) by lia. done.
  - destruct (udec_take z Hn) as (m & Hm & E). destruct (udec_cons z Hn) as (c & s & Hc & Hd).
    rewrite Hc in E |- *. rewrite (isdigit_sign c s) by done. rewrite E, bool_decide_false by lia.
    destruct signed; simpl in Hz; unfold srange, urange in Hz.
    + rewrite (proj2 (Z.leb_le _ _)), (proj2 (Z.ltb_lt _ _)) by lia. done.
    + rewrite (proj2 (Z.ltb_lt _ _)) by lia. done.
Qed.

(** ** Round trips *)

(** The values [good] are printed, and read back from their text. *)
Class RoundTrip {T} (L : Lexical T) (good : T → Prop) : Prop :=
  cast_roundtrip : ∀ x, good x → ∃ s, cast_to x = inr s ∧ cast_from s = inr x.

(** The same up to an equivalence of the values. *)
Definition RoundTripUpTo {T} (R : relation T) (L : Lexical T) (good : T → Prop) : Prop :=
  ∀ x, good x → ∃ s y, cast_to x = inr s ∧ cast_from s = inr y ∧ R y x.

Definition good_word (s : string) : Prop := words_only s ∧ s ≠ EmptyString.

Lemma roundtrip_string : RoundTrip Lexical_string good_word.
Proof. intros s [Hs Hn]. exists s. simpl. by rewrite cast_word. Qed.
Lemma roundtrip_bool : RoundTrip Lexical_bool (λ _, True).
Proof. intros b _. destruct b; [exists "true"%string|exists "false"%string]; done. Qed.
Lemma put_int_dec w z : w ≠ 8 → lexical_cast get_word (put_int w z) = inr (dec z).
Proof.
  intros H8. unfold put_int. rewrite (proj2 (Z.eqb_neq w 8)) by done.
  apply cast_word; [apply dec_words|apply dec_nonempty].
Qed.
Lemma roundtrip_int signed w : 0 < w → w ≠ 8 → RoundTrip (Lexical_int signed w) (in_range signed w).
Proof.
  intros Hw H8 z Hz. exists (dec z). simpl. rewrite put_int_dec by done.
  split; [done|]. unfold lexical_cast. by rewrite get_int_dec.
Qed.

(** An 8-bit integer is the character of its code. *)
Lemma code_to_char z : code (to_char z) = wrapu 8 z.
Proof.
  unfold code, to_char. rewrite N_ascii_embedding; [apply Z2N.id|].
  all: unfold wrapu; pose proof (Z.mod_pos_bound z (2 ^ 8)); lia.
Qed.
Lemma get_char_to_char signed z : in_range signed 8 z → isspace (to_char z) = false →
  get_char signed (String (to_char z) EmptyString) = Some (z, EmptyString).
Proof.
  intros Hz Hs. unfold get_char. cbn [skip_ws]. rewrite Hs. do 2 f_equal.
  destruct signed; simpl in Hz; [unfold schar|]; rewrite code_to_char.
  - rewrite wraps_wrapu. by apply wraps_small.
  - by apply wrapu_small.
Qed.
Lemma roundtrip_char signed :
  RoundTrip (Lexical_int signed 8) (λ z, in_range signed 8 z ∧ isspace (to_char z) = false).
Proof.
  intros z [Hz Hs]. exists (String (to_char z) EmptyString). split.
  - apply cast_word; [|done]. by constructor.
  - simpl. unfold lexical_cast, get_int. change (8 =? 8) with true. cbv iota. by rewrite get_char_to_char.
Qed.
Lemma space_not_printed signed z : isspace (to_char z) = true →
  ∃ e, cast_to (Lexical := Lexical_int signed 8) z = inl e.
Proof.
  intros Hs. exists (cast_error (put_int 8 z)). unfold cast_to, Lexical_int, lexical_cast, get_word.
  cbn [put_int Z.eqb Pos.eqb skip_ws]. by rewrite Hs.
Qed.
(** The decimal text of a number is read as the code of its digit. *)
Lemma number_as_char signed z : 0 ≤ z →
  (z < 10 → cast_from (Lexical := Lexical_int signed 8) (dec z) = inr (48 + z)) ∧
  (10 ≤ z → cast_from (Lexical := Lexical_int signed 8) (dec z) = inl (cast_error (dec z))).
Proof.
  intros Hz. split; intros H10.
  - assert (H : z = 0 ∨ z = 1 ∨ z = 2 ∨ z = 3 ∨ z = 4 ∨ z = 5 ∨ z = 6 ∨ z = 7 ∨ z = 8 ∨ z = 9) by lia.
    destruct signed; destruct_or!; subst; by vm_compute.
  - pose proof (dec_words z) as Hd. destruct (udec_take z Hz) as (m & Hm & E).
    assert (Hu : dec z = udec z) by (unfold dec; destruct (Z.ltb_spec z 0); [lia|done]). rewrite Hu in *.
    destruct (udec z) as [|c [|c' s]] eqn:Es; [naive_solver lia| |].
    + cbn [take_digits] in E. destruct (isdigit c) eqn:Ei; [|naive_solver lia]. simplify_eq.
      unfold isdigit in Ei. lia.
    + apply Forall_cons in Hd as [Hc [Hc' _]%Forall_cons].
      simpl. unfold lexical_cast, get_int, get_char. simpl. rewrite Hc. simpl. by rewrite Hc'.
Qed.

(** What the code relies on of yaml-cpp: a node is read back from its text,
    sequences and maps grow at the end, a scalar has no elements, and a decimal
    number is printed as it is. *)
Class YamlLaws (Node : Type) `{YamlDoc Node} : Prop := {
  load_text : ∀ n, Load (node_text n) = inr n;
  elements_empty : node_elements mk_empty = [];
  elements_push : ∀ n x, node_elements (push_back n x) = node_elements n ++ [x];
  elements_scalar : ∀ s, node_elements (mk_scalar s) = [];
  entries_empty : node_entries mk_empty = [];
  entries_set : ∀ n k v, (∀ k' v', (k', v') ∈ node_entries n → node_scalar k' ≠ k) →
    ∃ key, node_scalar key = k ∧ node_entries (set_key n k v) = node_entries n ++ [(key, v)];
  plain_number : ∀ z, node_text (mk_scalar (dec z)) = dec z;
}.

Section Each.
Context {A B : Type} (f : A → exn + B).

Lemma each_length l ys : each f l = inr ys → length ys = length l.
Proof.
  revert ys. induction l as [|x l IH]; intros ys; simpl; [by intros [= <-]|].
  destruct (f x); [done|]. destruct (each f l); [done|]. intros [= <-]. simpl. f_equal. by apply IH.
Qed.
Lemma each_Forall l : (∀ x, x ∈ l → ∃ y, f x = inr y) → ∃ ys, each f l = inr ys ∧ Forall2 (λ x y, f x = inr y) l ys.
Proof.
  induction l as [|x l IH]; intros Hf; [by exists []|]. destruct (Hf x) as [y Hy]; [by left|].
  destruct IH as (ys & E & H2); [intros z Hz; apply Hf; by right|]. exists (y :: ys). simpl.
  rewrite Hy, E. split; [done|by constructor].
Qed.
End Each.

Section Containers.
Context {Node : Type} `{YamlLaws Node} {T : Type} (L : Lexical T) (good : T → Prop).

Lemma foldl_push l n : node_elements (foldl (λ node s, push_back node (mk_scalar s)) n l) =
  node_elements n ++ map mk_scalar l.
Proof using H1.
  revert n. induction l as [|s l IH]; intros n; simpl; [by rewrite app_nil_r|].
  by rewrite IH, elements_push, <-app_assoc.
Qed.

(** The elements of what is printed, each as it is read. *)
Lemma print_read l texts : each cast_to l = inr texts →
  ∃ s, print_elements l = inr s ∧
    read_elements s = each (λ t, cast_from (node_text (mk_scalar t))) texts.
Proof using H1.
  intros E. unfold print_elements. rewrite E. eexists. split; [done|]. unfold read_elements.
  rewrite load_text, foldl_push, elements_empty. simpl. clear E.
  induction texts as [|t texts IH]; simpl; [done|]. by rewrite IH.
Qed.

(** Elements whose text is printed plainly. *)
Definition plain : Prop := ∀ x s, good x → cast_to x = inr s → node_text (mk_scalar s) = s.
Lemma elements_roundtrip l : RoundTrip L good → plain → Forall good l →
  ∃ s, print_elements l = inr s ∧ read_elements s = inr l.
Proof using H1.
  intros Hr Hp Hl. destruct (each_Forall cast_to l) as (texts & E & H2).
  { intros x Hx. rewrite Forall_forall in Hl. destruct (Hr x (Hl x Hx)) as (s & Hs & _). by exists s. }
  destruct (print_read l texts E) as (s & Hs & Hf). exists s. split; [done|]. rewrite Hf. clear s Hs Hf E.
  induction H2 as [|x t l texts Hx _ IH]; [done|]. apply Forall_cons in Hl as [Hg Hl]. simpl.
  destruct (Hr x Hg) as (t' & Ht & Hf). assert (t' = t) as -> by congruence.
  rewrite (Hp x t Hg Hx), Hf. by rewrite IH.
Qed.
Lemma roundtrip_vector : RoundTrip L good → plain → RoundTrip Lexical_vector (Forall good).
Proof using H1. intros Hr Hp l Hl. by apply elements_roundtrip. Qed.
Lemma roundtrip_list : RoundTrip L good → plain → RoundTrip Lexical_list (Forall good).
Proof using H1. intros Hr Hp l Hl. by apply elements_roundtrip. Qed.

(** A set in the order of its elements. *)
Lemma set_insert_snoc (less : T → T → bool) (l : list T) x :
  (∀ y, y ∈ l → less y x = true ∧ less x y = false) → set_insert less x l = l ++ [x].
Proof using Type.
  induction l as [|y l IH]; intros Hl; simpl; [done|]. destruct (Hl y) as [-> ->]; [by left|].
  rewrite IH; [done|]. intros z Hz. apply Hl. by right.
Qed.
Definition ordered (less : T → T → bool) (l : list T) : Prop :=
  StronglySorted (λ y x, less y x = true ∧ less x y = false) l.
Lemma foldl_set_insert less l r : ordered less (r ++ l) →
  foldl (λ res x, set_insert less x res) r l = r ++ l.
Proof using Type.
  revert r. induction l as [|x l IH]; intros r Hs; simpl; [by rewrite app_nil_r|].
  rewrite set_insert_snoc.
  - rewrite IH; by rewrite <-app_assoc.
  - intros y Hy. clear IH. induction r as [|z r IHr]; [by apply elem_of_nil in Hy|].
    inversion Hs as [|? ? Hs' Ha]; subst. apply elem_of_cons in Hy as [->|Hy]; [|by apply IHr].
    rewrite Forall_forall in Ha. apply Ha, elem_of_app. right. by left.
Qed.
Lemma roundtrip_set less : RoundTrip L good → plain →
  RoundTrip (Lexical_set less) (λ l, Forall good l ∧ ordered less l).
Proof using H1.
  intros Hr Hp l [Hl Ho]. destruct (elements_roundtrip l Hr Hp Hl) as (s & Hs & Hf).
  exists s. split; [done|]. simpl. rewrite Hf. by rewrite (foldl_set_insert less l []).
Qed.

(** A map in the order of its keys. *)
Definition keys_ordered (l : list (string * T)) : Prop :=
  StronglySorted (λ a b, str_lt a b = true) (map fst l).
Lemma str_lt_asym s t : str_lt s t = true → str_lt t s = false.
Proof using Type.
  intros Hs. destruct (str_lt t s) eqn:E; [|done].
  pose proof (str_lt_trans _ _ _ Hs E) as Hr. by rewrite str_lt_irrefl in Hr.
Qed.
Lemma map_insert_snoc l k (x : T) : (∀ y, y ∈ l → str_lt y.1 k = true) → map_insert k x l = l ++ [(k, x)].
Proof using Type.
  induction l as [|[k' y] l IH]; intros Hl; simpl; [done|]. assert (Hk : str_lt k' k = true) by (apply (Hl (k', y)); by left).
  rewrite (str_lt_asym k' k), Hk by done. rewrite IH; [done|]. intros z Hz. apply Hl. by right.
Qed.
Lemma foldl_map_insert l r : keys_ordered (r ++ l) →
  foldl (λ res it, map_insert it.1 it.2 res) r l = r ++ l.
Proof using Type.
  revert r. induction l as [|[k x] l IH]; intros r Hs; simpl; [by rewrite app_nil_r|].
  rewrite map_insert_snoc.
  - rewrite IH; by rewrite <-app_assoc.
  - intros y Hy. clear IH. unfold keys_ordered in Hs. rewrite map_app in Hs. simpl in Hs.
    induction r as [|z r IHr]; [by apply elem_of_nil in Hy|]. simpl in Hs.
    inversion Hs as [|? ? Hs' Ha]; subst. apply elem_of_cons in Hy as [->|Hy]; [|by apply IHr].
    rewrite Forall_forall in Ha. apply Ha, elem_of_app. right. by left.
Qed.

Lemma foldl_set_key (l : list (string * Node)) n : NoDup (map fst l) →
  (∀ k v it, (k, v) ∈ node_entries n → it ∈ l → node_scalar k ≠ it.1) →
  ∃ es, node_entries (foldl (λ node it, set_key node it.1 it.2) n l) = node_entries n ++ es ∧
    Forall2 (λ e it, node_scalar e.1 = it.1 ∧ e.2 = it.2) es l.
Proof using H1.
  revert n. induction l as [|[k v] l IH]; intros n Hd Hf; simpl; [exists []; by rewrite app_nil_r|].
  apply NoDup_cons in Hd as [Hk Hd].
  destruct (entries_set n k v) as (key & Hkey & E).
  { intros k' v' Hi. apply (Hf k' v' (k, v)); [done|by left]. }
  destruct (IH (set_key n k v) Hd) as (es & -> & H2).
  - intros k' v' it Hi Hit. rewrite E in Hi. apply elem_of_app in Hi as [Hi|Hi].
    + apply (Hf k' v'); [done|by right].
    + apply list_elem_of_singleton in Hi as [= -> ->]. rewrite Hkey. intros ->.
      apply Hk, list_elem_of_fmap. by exists it.
  - exists ((key, v) :: es). rewrite E, <-app_assoc. split; [done|by constructor].
Qed.
Lemma keys_NoDup (l : list string) : StronglySorted (λ a b, str_lt a b = true) l → NoDup l.
Proof using Type.
  induction 1 as [|k l Hs IH Ha]; constructor; [|done]. intros Hk. rewrite Forall_forall in Ha.
  specialize (Ha k Hk). by rewrite str_lt_irrefl in Ha.
Qed.
(** Values whose text is that of a node. *)
Definition loadable : Prop := ∀ x s, good x → cast_to x = inr s → ∃ n, Load s = inr n ∧ node_text n = s.
Lemma plain_loadable : plain → loadable.
Proof using H1. intros Hp x s Hg Hs. exists (mk_scalar s). rewrite <-(Hp x s Hg Hs) at 1. by rewrite load_text, (Hp x s). Qed.

Lemma each_entry l : RoundTrip L good → loadable → Forall (λ it, good it.2) l →
  ∃ ns, each print_entry l = inr ns ∧
    Forall2 (λ it m, m.1 = it.1 ∧ cast_from (node_text m.2) = inr it.2) l ns.
Proof using Type.
  intros Hr Hp Hl. induction Hl as [|[k x] l Hg _ IH]; [by exists []|].
  destruct IH as (ns & E & H2). destruct (Hr x Hg) as (s & Hs & Hf). destruct (Hp x s Hg Hs) as (n & Hn & Ht).
  exists ((k, n) :: ns). simpl. unfold print_entry at 1. simpl in *. rewrite Hs, Hn, E.
  split; [done|]. constructor; [|done]. simpl. by rewrite Ht.
Qed.
(** Entries with different keys, in any order. *)
Lemma entries_roundtrip l : RoundTrip L good → loadable → Forall (λ it, good it.2) l → NoDup (map fst l) →
  ∃ s, print_entries l = inr s ∧ read_entries s = inr l.
Proof using H1.
  intros Hr Hp Hl Ho. destruct (each_entry l Hr Hp Hl) as (ns & E & H2).
  assert (Hk : map fst ns = map fst l).
  { clear -H2. induction H2 as [|it m l ns [Hm _] _ IH]; simpl; [done|]. by rewrite Hm, IH. }
  destruct (foldl_set_key ns mk_empty) as (es & Ees & H3).
  { by rewrite Hk. }
  { intros k v it Hi. rewrite entries_empty in Hi. by apply elem_of_nil in Hi. }
  unfold print_entries, read_entries. rewrite E. eexists. split; [done|].
  rewrite load_text, Ees, entries_empty. simpl. clear -H2 H3. revert es H3.
  induction H2 as [|[k x] m l ns [Hm Hf] _ IH]; intros es H3; [by inversion H3|].
  inversion H3 as [|e ? es' ? [He1 He2] H4]; subst. simpl. unfold read_entry at 1.
  rewrite He2, Hf, (IH es' H4), He1, Hm. done.
Qed.
Lemma roundtrip_map : RoundTrip L good → loadable →
  RoundTrip Lexical_map (λ l, Forall (λ it, good it.2) l ∧ keys_ordered l).
Proof using H1.
  intros Hr Hp l [Hl Ho]. destruct (entries_roundtrip l Hr Hp Hl (keys_NoDup _ Ho)) as (s & Hs & Hf).
  exists s. split; [done|]. simpl. rewrite Hf. by rewrite (foldl_map_insert l []).
Qed.

(** Hashed containers are read back with the same elements, whatever order the
    library gives them. *)
Lemma foldl_hash_insert eqb (order : list T → list T) l r :
  (∀ x y, eqb x y = true ↔ x = y) → (∀ l, order l ≡ₚ l) → NoDup (r ++ l) →
  foldl (λ res x, hash_insert eqb order x res) r l ≡ₚ r ++ l.
Proof using Type.
  intros He Ho. revert r. induction l as [|x l IH]; intros r Hd; simpl; [by rewrite app_nil_r|].
  assert (Hx : hash_insert eqb order x r = order (x :: r)).
  { unfold hash_insert. destruct (existsb (eqb x) r) eqn:E; [|done].
    apply existsb_exists in E as (y & Hy & Hxy). apply He in Hxy as <-. apply list_elem_of_In in Hy.
    apply NoDup_app in Hd as (_ & Hd & _). destruct (Hd x Hy). by left. }
  assert (Hp : order (x :: r) ++ l ≡ₚ r ++ x :: l) by (rewrite Ho; apply (Permutation_middle r l)).
  rewrite Hx, IH; [done|]. by rewrite Hp.
Qed.
Lemma foldl_hash_map_insert (order : list (string * T) → list (string * T)) l r :
  (∀ l, order l ≡ₚ l) → NoDup (map fst (r ++ l)) →
  foldl (λ res it, hash_map_insert order it.1 it.2 res) r l ≡ₚ r ++ l.
Proof using Type.
  intros Ho. revert r. induction l as [|[k x] l IH]; intros r Hd; simpl; [by rewrite app_nil_r|].
  assert (Hx : hash_map_insert order k x r = order ((k, x) :: r)).
  { unfold hash_map_insert. destruct (existsb _ r) eqn:E; [|done].
    apply existsb_exists in E as (y & Hy & Hxy). apply String.eqb_eq in Hxy as ->.
    rewrite map_app in Hd. apply NoDup_app in Hd as (_ & Hd & _). destruct (Hd y.1); [|by left].
    apply list_elem_of_fmap. exists y. split; [done|by apply list_elem_of_In]. }
  assert (Hp : order ((k, x) :: r) ++ l ≡ₚ r ++ (k, x) :: l) by (rewrite Ho; apply (Permutation_middle r l)).
  rewrite Hx, IH; [done|]. by rewrite Hp.
Qed.

Lemma roundtrip_unordered_set eqb order : (∀ x y, eqb x y = true ↔ x = y) → (∀ l, order l ≡ₚ l) →
  RoundTrip L good → plain → RoundTripUpTo (≡ₚ) (Lexical_unordered_set eqb order) (λ l, Forall good l ∧ NoDup l).
Proof using H1.
  intros He Ho Hr Hp l [Hl Hd]. destruct (elements_roundtrip l Hr Hp Hl) as (s & Hs & Hf).
  eexists s, _. split; [done|]. simpl. rewrite Hf. split; [done|]. by rewrite (foldl_hash_insert eqb order l []).
Qed.
Lemma roundtrip_unordered_map order : (∀ l, order l ≡ₚ l) → RoundTrip L good → loadable →
  RoundTripUpTo (≡ₚ) (Lexical_unordered_map order) (λ l, Forall (λ it, good it.2) l ∧ NoDup (map fst l)).
Proof using H1.
  intros Ho Hr Hp l [Hl Hd]. destruct (entries_roundtrip l Hr Hp Hl Hd) as (s & Hs & Hf).
  eexists s, _. split; [done|]. simpl. rewrite Hf. split; [done|]. by rewrite (foldl_hash_map_insert order l []).
Qed.
End Containers.

(** A container inside a sequence is pushed as a string, and a string has no
    elements when it is read. *)
Lemma nested_lost {Node : Type} `{YamlLaws Node} {T : Type} (L : Lexical T) (l : list (list T)) texts :
  each (cast_to (Lexical := Lexical_vector)) l = inr texts →
  ∃ s, cast_to (Lexical := Lexical_vector (H1 := Lexical_vector)) l = inr s ∧
    cast_from (Lexical := Lexical_vector (H1 := Lexical_vector)) s = inr (map (λ _, []) l).
Proof.
  intros E. destruct (print_read Lexical_vector l texts E) as (s & Hs & Hf). exists s. split; [done|].
  pose proof (each_length _ _ _ E) as Hlen.
  assert (Hel : ∀ t, cast_from (Lexical := Lexical_vector) (node_text (mk_scalar t)) = inr []).
  { intros t. simpl. unfold read_elements. by rewrite load_text, elements_scalar. }
  transitivity (each (λ t, cast_from (Lexical := Lexical_vector) (node_text (mk_scalar t))) texts); [exact Hf|].
  clear -Hlen Hel. revert texts Hlen. induction l as [|x l IH]; intros [|t texts] Hlen; try done.
  cbn [each map]. rewrite Hel, (IH texts); [done|]. simpl in Hlen. lia.
Qed.

(** C36: The conversions that lexicalcast.h provides: words, truth values and
    integers of any width but 8 bits are read back as printed, and so are
    vectors, lists and sets of these integers, maps of them, and maps of vectors
    of them; so are hashed sets and maps, up to the order the library gives
    their elements; but a vector of vectors comes back as one of empty vectors,
    and a string that is empty cannot be printed. An integer of 8 bits is
    printed and read as a character: it is read back as printed when that is no
    white space, of which no text is made, and the decimal text of a number is
    read as the code of its digit, or refused when it has several. *)
Theorem lexical_roundtrip {Node : Type} `{YamlLaws Node} signed w : 0 < w → w ≠ 8 →
  let int := Lexical_int signed w in
  let ints := Forall (in_range signed w) in
  let in_map {T} (P : T → Prop) (l : list (string * T)) := Forall (λ it, P it.2) l ∧ keys_ordered l in
  let vec := Lexical_vector (H1 := int) in
  RoundTrip Lexical_string good_word ∧ RoundTrip Lexical_bool (λ _, True) ∧
  RoundTrip int (in_range signed w) ∧
  RoundTrip vec ints ∧ RoundTrip (Lexical_list (H1 := int)) ints ∧
  RoundTrip (Lexical_set (H1 := int) Z.ltb) (λ l, ints l ∧ ordered Z.ltb l) ∧
  RoundTrip (Lexical_map (H1 := int)) (in_map (in_range signed w)) ∧
  RoundTrip (Lexical_map (H1 := vec)) (in_map ints) ∧
  (∀ order, (∀ l, order l ≡ₚ l) →
     RoundTripUpTo (≡ₚ) (Lexical_unordered_set (H1 := int) Z.eqb order) (λ l, ints l ∧ NoDup l)) ∧
  (∀ order, (∀ l, order l ≡ₚ l) →
     RoundTripUpTo (≡ₚ) (Lexical_unordered_map (H1 := int) order)
       (λ l, Forall (λ it, in_range signed w it.2) l ∧ NoDup (map fst l))) ∧
  (∀ l, Forall ints l → ∃ s, cast_to (Lexical := Lexical_vector (H1 := vec)) l = inr s ∧
     cast_from (Lexical := Lexical_vector (H1 := vec)) s = inr (map (λ _, []) l)) ∧
  (∃ e, cast_to (Lexical := Lexical_string) EmptyString = inl e) ∧
  let char := Lexical_int signed 8 in
  RoundTrip char (λ z, in_range signed 8 z ∧ isspace (to_char z) = false) ∧
  (∀ z, isspace (to_char z) = true → ∃ e, cast_to (Lexical := char) z = inl e) ∧
  (∀ z, 0 ≤ z < 10 → cast_from (Lexical := char) (dec z) = inr (48 + z)) ∧
  ∀ z, 10 ≤ z → cast_from (Lexical := char) (dec z) = inl (cast_error (dec z)).
Proof.
  intros Hw H8 int ints in_map vec. pose proof (roundtrip_int signed w Hw H8) as Hi.
  assert (Hp : plain int (in_range signed w)).
  { intros z s Hz Hs. simpl in Hs. rewrite put_int_dec in Hs by done.
    injection Hs as <-. apply plain_number. }
  pose proof (roundtrip_vector int _ Hi Hp) as Hv.
  split_and!; [apply roundtrip_string|apply roundtrip_bool|done|done|by apply roundtrip_list
    |by apply roundtrip_set| | | | | | |].
  - by apply roundtrip_map, plain_loadable.
  - apply roundtrip_map; [done|]. intros x s _ Hs. simpl in Hs. unfold print_elements in Hs.
    destruct (each cast_to x) as [|texts]; simplify_eq. eexists. by rewrite load_text.
  - intros order Ho. apply roundtrip_unordered_set; try done. intros x y. apply Z.eqb_eq.
  - intros order Ho. by apply roundtrip_unordered_map, plain_loadable.
  - intros l Hl. destruct (each_Forall (cast_to (Lexical := vec)) l) as (texts & E & _).
    { intros x Hx. rewrite Forall_forall in Hl. destruct (Hv x (Hl x Hx)) as (s & Hs & _). by exists s. }
    by apply (nested_lost int l texts).
  - eexists. vm_compute. reflexivity.
  - intros char. split_and!; [apply roundtrip_char|apply space_not_printed|intros z [Hz H10]|intros z H10].
    + by apply number_as_char.
    + apply number_as_char; lia.
Qed.

(** ** A YAML library, for examples

    A node is its text: a sequence is a bracket and its elements, each behind
    its length in strokes; a map is a brace and its keys and values; any other
    text is a scalar, quoted if need be. *)

Fixpoint strokes (n : nat) (s : string) : string :=
  match n with O => String "0" s | S n => String "1" (strokes n s) end.
Definition item (s rest : string) : string := strokes (size s) (s +:+ rest).
Definition items (l : list string) : string := foldr item EmptyString l.
Fixpoint unitems (fuel n : nat) (s : string) : list string :=
  match fuel, s with
  | S fuel, String "1" s' => unitems fuel (S n) s'
  | S fuel, String "0" s' => String.substring 0 n s' :: unitems fuel 0 (from n s')
  | _, _ => []
  end.
Fixpoint pairs (l : list string) : list (string * string) :=
  match l with k :: v :: l' => (k, v) :: pairs l' | _ => [] end.
Fixpoint unpairs (l : list (string * string)) : list string :=
  match l with (k, v) :: l' => k :: v :: unpairs l' | [] => [] end.
Definition text_elements (n : string) : list string :=
  match n with String "[" s => unitems (S (size s)) 0 s | _ => [] end.
Definition text_entries (n : string) : list (string * string) :=
  match n with String "{" s => pairs (unitems (S (size s)) 0 s) | _ => [] end.
Definition quoted (s : string) : string :=
  match s with String "[" _ | String "{" _ | String "'" _ => String "'" s | _ => s end.
#[global] Instance text_yaml : Yaml string := {
  node_type n := match n with String "[" _ => Sequence | String "{" _ => Map | _ => Scalar end;
  node_scalar n := match n with String "'" s => s | _ => n end;
  node_entries := text_entries;
  node_elements := text_elements;
  node_text n := n;
}.
#[global] Instance text_doc : YamlDoc string := {
  Load s := inr s;
  mk_scalar := quoted;
  mk_empty := "~";
  push_back n x := String "[" (items (text_elements n ++ [x]));
  set_key n k v := String "{" (items (unpairs (text_entries n ++ [(quoted k, v)])));
}.

Lemma unitems_strokes fuel n m s : (m < fuel)%nat →
  unitems fuel n (strokes m s) = unitems (fuel - m) (n + m) (String "0" s).
Proof.
  revert fuel n. induction m as [|m IH]; intros fuel n Hf; simpl; [by rewrite Nat.sub_0_r, Nat.add_0_r|].
  destruct fuel as [|fuel]; [lia|]. simpl. rewrite IH by lia. f_equal. lia.
Qed.
Lemma size_strokes n s : size (strokes n s) = S (n + size s).
Proof. induction n as [|n IH]; [done|]. simpl. rewrite !size_String, IH. lia. Qed.
Lemma unitems_items l fuel : (size (items l) < fuel)%nat → unitems fuel 0 (items l) = l.
Proof.
  revert fuel. induction l as [|s l IH]; intros fuel Hf; [by destruct fuel|].
  unfold items in *. simpl in *. unfold item in *. rewrite size_strokes, size_app in Hf.
  rewrite unitems_strokes by lia. destruct (fuel - size s)%nat as [|f] eqn:Ef; [lia|]. simpl.
  rewrite substring_all, (from_add 0 _ s (foldr item EmptyString l)) by (by rewrite from_0).
  rewrite IH by lia. done.
Qed.
Lemma unpairs_pairs l : pairs (unpairs l) = l.
Proof. induction l as [|[k v] l IH]; [done|]. simpl. by rewrite IH. Qed.
Lemma quoted_head s : (∀ s', quoted s ≠ String "[" s') ∧ (∀ s', quoted s ≠ String "{" s').
Proof.
  destruct s as [|[[] [] [] [] [] [] [] []] s]; split; intros s'; done.
Qed.
Lemma text_entries_set (n k v : string) : text_entries (set_key n k v) = text_entries n ++ [(quoted k, v)].
Proof.
  set (l := text_entries n ++ [(quoted k, v)]).
  change (pairs (unitems (S (size (items (unpairs l)))) 0 (items (unpairs l))) = l).
  rewrite unitems_items by lia. apply unpairs_pairs.
Qed.
#[global] Instance text_laws : YamlLaws string.
Proof.
  split.
  - done.
  - done.
  - intros n x. apply (unitems_items (text_elements n ++ [x]) (S (size _))). lia.
  - intros s. simpl. destruct (quoted_head s) as [H _]. unfold text_elements.
    destruct (quoted s) as [|[[] [] [] [] [] [] [] []] t]; try done. by destruct (H t).
  - done.
  - intros n k v _. exists (quoted k). split.
    + destruct k as [|[[] [] [] [] [] [] [] []] s]; done.
    + apply text_entries_set.
  - intros z. simpl. unfold dec. destruct (Z.ltb_spec z 0); [done|].
    destruct (udec_cons z) as (c & s & -> & Hc); [done|].
    destruct c as [[] [] [] [] [] [] [] []]; done.
Qed.
Lemma lexical_roundtrip_witness :
  (∃ s, cast_to (Lexical := Lexical_map (H1 := Lexical_int true 32)) [("one", 1); ("two", -2)] = inr s ∧
        cast_from (Lexical := Lexical_map (H1 := Lexical_int true 32)) s = inr [("one", 1); ("two", -2)]) ∧
  ∃ s, cast_to (Lexical := Lexical_vector (H1 := Lexical_vector (H1 := Lexical_int true 32))) [[1; 2]; [3]] = inr s ∧
       cast_from (Lexical := Lexical_vector (H1 := Lexical_vector (H1 := Lexical_int true 32))) s = inr [[]; []].
Proof.
  destruct (lexical_roundtrip (Node := string) true 32 eq_refl ltac:(discriminate))
    as (_ & _ & _ & _ & _ & _ & Hm & _ & _ & _ & Hv & _). split.
  - apply Hm. split.
    + repeat constructor; simpl; lia.
    + repeat constructor.
  - apply (Hv [[1; 2]; [3]]). repeat constructor; simpl; lia.
Defined.
