(* ===== verification/GlobalConfig.v ===== *)
(** * The configuration of the framework (config/globalconfig.h)

    The description of the loggers, its conversions, and GlobalConfig: the
    data the framework registers and their callbacks, of which that of
    logs rebuilds the loggers. A std::set<ConfigLog> is the list of
    its elements in the order of their names. What the code reads of a YAML map
    is [YamlRecord]. *)

From Stdlib Require Import Ascii String.
From S2P Require Import Prelude Strings LogFormat Locks Logger Yaml LexicalCast Config.
#[local] Open Scope Z_scope.

Record ConfigLogAppender := mkConfigLogAppender {
  a_type : Z;
  a_level : Level;
  a_format : string;
  a_log_path : string;
}.
Record ConfigLog := mkConfigLog {
  l_name : string;
  l_level : Level;
  l_appenders : list ConfigLogAppender;
}.
#[global] Instance ConfigLogAppender_eq_dec : EqDecision ConfigLogAppender.
Proof. solve_decision. Defined.
#[global] Instance ConfigLog_eq_dec : EqDecision ConfigLog.
Proof. solve_decision. Defined.

Definition ConfigLogAppender_default : ConfigLogAppender :=
  mkConfigLogAppender 0 DEBUG default_format "~/.log/tmp.log".
Definition ConfigLog_default : ConfigLog := mkConfigLog "root" DEBUG [].

(** [operator==] of both, and [operator<], which compares the names. *)
Definition appender_eq (a b : ConfigLogAppender) : bool :=
  (a_type a =? a_type b) && bool_decide (a_level a = a_level b) &&
  bool_decide (a_format a = a_format b) && bool_decide (a_log_path a = a_log_path b).
Fixpoint appenders_eq (l l' : list ConfigLogAppender) : bool :=
  match l, l' with
  | [], [] => true
  | a :: l, b :: l' => appender_eq a b && appenders_eq l l'
  | _, _ => false
  end.
Definition log_eq (a b : ConfigLog) : bool :=
  bool_decide (l_name a = l_name b) && bool_decide (l_level a = l_level b) &&
  appenders_eq (l_appenders a) (l_appenders b).
Definition log_less (a b : ConfigLog) : bool := str_lt (l_name a) (l_name b).

(** [find] in a set: the element that is neither before nor behind. *)
Definition set_find (s : list ConfigLog) (data : ConfigLog) : option ConfigLog :=
  head (filter (λ it, log_less it data = false ∧ log_less data it = false) s).
(** [operator==] of sets. *)
Fixpoint logs_eq (s t : list ConfigLog) : bool :=
  match s, t with
  | [], [] => true
  | a :: s, b :: t => log_eq a b && logs_eq s t
  | _, _ => false
  end.

(** ** Conversions *)

(** [node[key]] ([None] when it is not defined), [as<std::string>()] and
    [as<int>()]; their exceptions are std::runtime_errors. *)
Class YamlRecord (Node : Type) `{YamlDoc Node} := {
  node_get : Node → string → exn + option Node;
  as_string : Node → exn + string;
  as_int : Node → exn + Z;
}.

Section Lexical.
Context {Node : Type} `{YamlRecord Node}.

(** [if (node[key].IsDefined()) res = f(node[key])] *)
Definition if_defined {A} (node : Node) (key : string) (f : Node → exn + A) (res : A) : exn + A :=
  match node_get node key with
  | inl e => inl e
  | inr None => inr res
  | inr (Some n) => f n
  end.
Definition bind_exn {A B} (m : exn + A) (f : A → exn + B) : exn + B :=
  match m with inl e => inl e | inr a => f a end.
Definition as_level (n : Node) : exn + Level :=
  bind_exn (as_string n) (λ s, inr (getLevelByName s)).

Definition Lexical_ConfigLogAppender : Lexical ConfigLogAppender := {|
  cast_from source :=
    bind_exn (Load source) (λ node,
    let res := ConfigLogAppender_default in
    bind_exn (if_defined node "format" as_string (a_format res)) (λ format,
    bind_exn (if_defined node "level" as_level (a_level res)) (λ level,
    bind_exn (if_defined node "log_path" as_string (a_log_path res)) (λ log_path,
    bind_exn (if_defined node "type" (λ n, bind_exn (as_int n) (λ z, inr (wrapu 8 z))) (a_type res)) (λ type,
    inr (mkConfigLogAppender type level format log_path))))));
  cast_to source :=
    inr (node_text
      (set_key (set_key (set_key (set_key mk_empty "format" (mk_scalar (a_format source)))
         "level" (mk_scalar (getLevelName (a_level source))))
         "log_path" (mk_scalar (a_log_path source)))
         "type" (mk_scalar (one (to_char (a_type source))))));
|}.

Definition Lexical_ConfigLog : Lexical ConfigLog := {|
  cast_from source :=
    bind_exn (Load source) (λ node,
    let res := ConfigLog_default in
    bind_exn (if_defined node "appenders" (λ n, inr (node_text n)) "") (λ ss,
    bind_exn (if_defined node "name" as_string (l_name res)) (λ name,
    bind_exn (if_defined node "level" as_level (l_level res)) (λ level,
    bind_exn (cast_from (Lexical := Lexical_vector (H1 := Lexical_ConfigLogAppender)) ss) (λ appenders,
    inr (mkConfigLog name level appenders))))));
  cast_to source :=
    bind_exn (cast_to (Lexical := Lexical_vector (H1 := Lexical_ConfigLogAppender)) (l_appenders source))
      (λ text,
       inr (node_text
         (set_key (set_key (set_key mk_empty "name" (mk_scalar (l_name source)))
            "level" (mk_scalar (getLevelName (l_level source))))
            "appenders" (mk_scalar text))));
|}.

(** ** The types of the data *)

Inductive GlobalType := TLogs | TSize | TUint32.
#[global] Instance GlobalType_eq_dec : EqDecision GlobalType.
Proof. solve_decision. Defined.
Inductive GlobalValue := VLogs (s : list ConfigLog) | VSize (z : Z) | VUint32 (z : Z).

Definition from_exn {A} (f : A → GlobalValue) (m : exn + A) : exn + GlobalValue :=
  bind_exn m (λ a, inr (f a)).
Definition global_types : ConfigTypes := {|
  ctype := GlobalType;
  value := GlobalValue;
  type_of v := match v with VLogs _ => TLogs | VSize _ => TSize | VUint32 _ => TUint32 end;
  veq v v' := match v, v' with
              | VLogs s, VLogs t => logs_eq s t
              | VSize a, VSize b | VUint32 a, VUint32 b => a =? b
              | _, _ => false
              end;
  FromStr t s := match t with
                 | TLogs => from_exn VLogs (cast_from (Lexical := Lexical_set (H1 := Lexical_ConfigLog) log_less) s)
                 | TSize => from_exn VSize (cast_from (Lexical := Lexical_int false 64) s)
                 | TUint32 => from_exn VUint32 (cast_from (Lexical := Lexical_int false 32) s)
                 end;
  ToStr v := match v with
             | VLogs l => cast_to (Lexical := Lexical_set (H1 := Lexical_ConfigLog) log_less) l
             | VSize z => cast_to (Lexical := Lexical_int false 64) z
             | VUint32 z => cast_to (Lexical := Lexical_int false 32) z
             end;
|}.
End Lexical.
#[global] Existing Instance global_types.

(** ** The callback of the description of the loggers *)

Section Callback.
Context (strftime : Z → string → string) (at_ : site).

Definition add_configured (logger : nat) (appender : nat) (a : ConfigLogAppender) : M logw unit :=
  f <- LogFormatter_create (a_format a);;
  q <- new_formatter f;;
  setFormatter appender (Some q);;
  addAppender logger appender.
Definition configure_appender (logger : nat) (a : ConfigLogAppender) : M logw unit :=
  if a_type a =? 0 then
    appender <- StdoutLogAppender_create (a_level a);; add_configured logger appender a
  else if a_type a =? 1 then
    appender <- FileLogAppender_create (a_log_path a) (a_level a);; add_configured logger appender a
  else mreturn tt.

(** One element of [new_data]: a new logger, the one that has changed, or the
    null pointer. *)
Definition configure_logger (old_data : list ConfigLog) (data : ConfigLog) : M logw unit :=
  logger <- match set_find old_data data with
            | None => p <- Logger_create (l_name data) (l_level data);; mreturn (Some p)
            | Some it => if negb (log_eq it data) then LON_LOG_NAME strftime at_ (l_name data)
                         else mreturn None
            end;;
  match logger with
  | None => mfault NullDeref                  (* logger->clearAppenders() *)
  | Some p =>
    clearAppenders p;;
    mfor (l_appenders data) (configure_appender p);;
    setLogger (l_name data) (Some p)
  end.
(** One element of [old_data]. *)
Definition remove_logger (new_data : list ConfigLog) (data : ConfigLog) : M logw unit :=
  match set_find new_data data with
  | None => mfault EraseEnd                   (* it->name, it == new_data.end() *)
  | Some _ => mreturn tt
  end.
Definition on_logs_changed (old_data new_data : list ConfigLog) : M logw unit :=
  LON_LOG_LEVEL strftime LON_LOG_ROOT INFO at_ "on config log data changed";;
  mfor new_data (configure_logger old_data);;
  mfor old_data (remove_logger new_data).

(** The other callbacks. *)
Definition on_number_changed (what : string) (old_data new_data : Z) : M logw unit :=
  LON_LOG_LEVEL strftime LON_LOG_ROOT INFO at_ what;;
  LON_LOG_LEVEL strftime LON_LOG_ROOT DEBUG at_
    ("old_data: " +:+ dec old_data +:+ " new_data: " +:+ dec new_data).

(** ** struct GlobalConfig *)

Context {Node : Type} `{YamlRecord Node}.

Definition on_log {A} (m : M logw A) : M (configw logw) A := λ w,
  match m (ext w) with
  | Ret a e => Ret a (set_ext e w)
  | Throw x e => Throw x (set_ext e w)
  | Fault f => Fault f
  end.
Definition global_call (cb : nat) (old_data new_data : value) : M (configw logw) unit :=
  match cb, old_data, new_data with
  | O, VLogs s, VLogs t => on_log (on_logs_changed s t)
  | 1%nat, VSize a, VSize b => on_log (on_number_changed "on config fiber data changed" a b)
  | 2%nat, VUint32 a, VUint32 b =>
      on_log (on_number_changed "on config tcp connect timeout data changed" a b)
  | 3%nat, VUint32 a, VUint32 b =>
      on_log (on_number_changed "on config tcp server client timeout data changed" a b)
  | _, _, _ => mreturn tt
  end.

(** [Config::setData(name, data, description)] and its callback. *)
Definition register (t : GlobalType) (name : string) (data : value) (description : string) (cb : nat) :
    M (configw logw) nat :=
  p <- setData t name data description;;
  match p with
  | None => mfault NullDeref
  | Some p => addConfigDataChangeCB p cb;; mreturn p
  end.
Definition GlobalConfig_create : M (configw logw) (nat * nat * nat * nat) :=
  config_log <- register TLogs "logs" (VLogs []) "logs config" 0;;
  config_fiber <- register TSize "fiber.stack_size" (VSize (1024 * 1024)) "fiber stack size" 1;;
  config_tcp_timeout <- register TUint32 "tcp.connect.timeout" (VUint32 5000) "tcp connect timeout ms" 2;;
  config_tcp_server_client_timeout <-
    register TUint32 "tcp.server.client_timeout" (VUint32 (1000 * 60 * 2))
      "tcp server client timeout ms(default 2min)" 3;;
  mreturn (config_log, config_fiber, config_tcp_timeout, config_tcp_server_client_timeout).
End Callback.
