(* ===== verification/GlobalSpec.v ===== *)
(** * What a change of the description of the loggers does

    The callback of logs, one element after the other: which loggers are
    registered afterwards with which appenders, and the two changes that the
    callback does not survive. *)

From Stdlib Require Import Ascii String.
From S2P Require Import Prelude Strings LogFormat Locks Logger LogSpec LoggerSpec GlobalConfig.
#[local] Open Scope Z_scope.

(** ** States that only grow

    What existed still does, with the formatters it had; files may have been
    opened and written. *)

Record grown (w w' : logw) : Prop := mkGrown {
  grown_formatters : ∀ q f, formatters w !! q = Some f → formatters w' !! q = Some f;
  grown_appenders : ∀ x a, appenders w !! x = Some a → ∃ a', appenders w' !! x = Some a' ∧
    la_kind a' = la_kind a ∧ la_level a' = la_level a ∧ la_formatter a' = la_formatter a;
}.
#[export] Instance grown_preorder : PreOrder grown.
Proof.
  split.
  - intros w. split; [done|]. intros x a Ha. by exists a.
  - intros w1 w2 w3 [F1 A1] [F2 A2]. split; [auto|]. intros x a (a' & Ha' & H1 & H2 & H3)%A1.
    apply A2 in Ha' as (a'' & ? & ? & ? & ?). exists a''. split_and!; congruence.
Qed.
Lemma grown_kept w w' : kept w w' → grown w w'.
Proof.
  intros [F _ _ _ A]. split; [by rewrite F|]. intros x a Ha. specialize (A x). rewrite Ha in A.
  destruct (appenders w' !! x) as [a'|]; [|done]. exists a'. naive_solver.
Qed.
(** Only what is new was added to the heaps of formatters and appenders. *)
Lemma grown_added w w' :
  (∀ q, is_Some (formatters w !! q) → formatters w' !! q = formatters w !! q) →
  (∀ x, is_Some (appenders w !! x) → appenders w' !! x = appenders w !! x) → grown w w'.
Proof.
  intros F A. split.
  - intros q f Hf. by rewrite F.
  - intros x a Ha. exists a. by rewrite A.
Qed.

(** ** The appenders that are wanted *)

Definition kind_of (a : ConfigLogAppender) : AppenderKind :=
  if a_type a =? 0 then StdoutLogAppender else FileLogAppender (a_log_path a).
(** Other types are skipped. *)
Definition wanted (l : list ConfigLogAppender) : list ConfigLogAppender :=
  filter (λ a, a_type a = 0 ∨ a_type a = 1) l.
(** The appender [x] is as [a] describes it. *)
Definition shows (w : logw) (x : nat) (a : ConfigLogAppender) : Prop :=
  ∃ ap q f, appenders w !! x = Some ap ∧ la_kind ap = kind_of a ∧ la_level ap = a_level a ∧
    la_formatter ap = Some q ∧ formatters w !! q = Some f ∧ parsed (a_format a) = Some f.
Definition valid (a : ConfigLogAppender) : Prop := is_Some (parsed (a_format a)).

Lemma shows_grown w w' x a : grown w w' → shows w x a → shows w' x a.
Proof.
  intros [F A] (ap & q & f & Hx & Hk & Hl & Hq & Hf & Hp). apply A in Hx as (ap' & ? & ? & ? & ?).
  exists ap', q, f. split_and!; try congruence. by apply F.
Qed.
Lemma all_shows_grown w w' l k : grown w w' → Forall2 (shows w) l k → Forall2 (shows w') l k.
Proof. intros G H. eapply Forall2_impl; [exact H|]. intros x a. by apply shows_grown. Qed.

Lemma add_configured_run w p g x ap a : wf Unlocked w → loggers w !! p = Some g →
  appenders w !! x = Some ap → la_formatter ap = None → la_kind ap = kind_of a →
  la_level ap = a_level a → valid a →
  ∃ w', add_configured p x a w = Ret tt w' ∧ wf Unlocked w' ∧ shows w' x a ∧
    loggers w' = <[p := with_appenders (lg_appenders g ++ [x]) g]> (loggers w) ∧
    manager w' = manager w ∧
    (∀ q, is_Some (formatters w !! q) → formatters w' !! q = formatters w !! q) ∧
    (∀ y, y ≠ x → appenders w' !! y = appenders w !! y).
Proof.
  intros Hw Hg Hx Hf Hk Hl [f Hp]. unfold add_configured. mstep (parsed_run w _ f Hp).
  set (q := fresh (dom (formatters w))).
  rewrite (bind_Ret _ _ _ q (set_formatters (<[q := f]> (formatters w)) w)) by done.
  pose proof (wf_insert_formatter _ _ Hw q f) as Hw1.
  set (w1 := set_formatters _ w) in *.
  destruct (wf_appenders _ _ Hw _ _ Hx) as [Hm _].
  mstep (setFormatter_run w1 x ap (Some q) Hx Hm). set (w2 := set_appenders _ w1).
  assert (Hw2 : wf Unlocked w2).
  { apply (wf_insert_appender Unlocked _ Hw1); [done|intros ? [= <-]|done]. simpl. by rewrite lookup_insert_eq. }
  destruct (add_appender_wf Unlocked w2 p x g (with_formatter (Some q) ap)) as (w3 & E & Hw3);
    [done|done|simpl; by rewrite lookup_insert_eq|].
  pose proof E as E'.
  erewrite (addAppender_run Unlocked w2) in E' by (done || (simpl; by rewrite lookup_insert_eq)).
  injection E' as <-. eexists. split; [exact E|]. split; [exact Hw3|]. simpl in *. split_and!.
  - eexists _, q, f. simpl. rewrite !lookup_insert_eq. split_and!; done.
  - done.
  - done.
  - intros y Hy. by rewrite lookup_insert_ne by by apply fresh_ne.
  - intros y Hy. by rewrite !lookup_insert_ne by done.
Qed.

Lemma grown_add_appender w a : grown w (add_appender a w).
Proof.
  apply grown_added; [done|]. intros x [b Hx]. simpl. rewrite lookup_insert_ne; [done|].
  apply fresh_ne. by exists b.
Qed.

(** The runs that give a logger its appenders. *)
Record appended (w w' : logw) (p : nat) (g : Logger) (l : list nat) : Prop := mkAppended {
  ap_wf : wf Unlocked w';
  ap_grown : grown w w';
  ap_loggers : loggers w' = <[p := with_appenders (lg_appenders g ++ l) g]> (loggers w);
  ap_manager : manager w' = manager w;
}.

Lemma configure_appender_run w p g a : wf Unlocked w → loggers w !! p = Some g → valid a →
  ∃ w' l, configure_appender p a w = Ret tt w' ∧ appended w w' p g l ∧ Forall2 (shows w') l (wanted [a]).
Proof.
  intros Hw Hg Hv. unfold configure_appender. set (x := fresh (dom (appenders w))).
  assert (H : ∀ ap w1, loggers w1 = loggers w → manager w1 = manager w → formatters w1 = formatters w →
    appenders w1 = <[x := ap]> (appenders w) → wf Unlocked w1 →
    la_formatter ap = None → la_kind ap = kind_of a → la_level ap = a_level a →
    ∃ w' l, add_configured p x a w1 = Ret tt w' ∧ appended w w' p g l ∧ Forall2 (shows w') l [a]).
  { intros ap w1 EL EM EF EA Hw1 Hf Hk Hl.
    destruct (add_configured_run w1 p g x ap a) as (w' & E & Hw' & Hs & HL & HM & HF & HA); try done.
    - by rewrite EL.
    - by rewrite EA, lookup_insert_eq.
    - exists w', [x]. split; [done|]. split; [|by constructor]. split; [done| |by rewrite HL, EL|congruence].
      apply grown_added; [by rewrite <-EF|]. intros y Hy%fresh_ne.
      by rewrite HA, EA, lookup_insert_ne. }
  unfold wanted. rewrite filter_cons, filter_nil. destruct (Z.eqb_spec (a_type a) 0) as [E0|E0];
    [|destruct (Z.eqb_spec (a_type a) 1) as [E1|E1]].
  - rewrite decide_True by auto.
    rewrite (bind_Ret _ _ _ x (add_appender (console (a_level a) None) w)) by done.
    apply (H (console (a_level a) None)); try done; [by apply wf_add_appender|].
    unfold kind_of. by rewrite E0.
  - rewrite decide_True by auto.
    destruct (FileLogAppender_create_run w (a_log_path a) (a_level a)) as (f & d & E). mstep E.
    apply (H (file_appender (a_log_path a) (a_level a) f)); try done.
    + by apply wf_set_files, wf_add_appender.
    + unfold kind_of. by rewrite E1.
  - rewrite decide_False by tauto. exists w, []. split; [done|]. split; [|constructor].
    split; [done|done| |done]. rewrite app_nil_r. rewrite insert_id; [done|]. by destruct g.
Qed.

Lemma wanted_cons a l : wanted (a :: l) = wanted [a] ++ wanted l.
Proof. unfold wanted. rewrite !filter_cons, filter_nil. by destruct (decide _). Qed.
Lemma configure_appenders_run w p g cfg : wf Unlocked w → loggers w !! p = Some g → Forall valid cfg →
  ∃ w' l, mfor cfg (configure_appender p) w = Ret tt w' ∧ appended w w' p g l ∧
    Forall2 (shows w') l (wanted cfg).
Proof.
  revert w g. induction cfg as [|a cfg IH]; intros w g Hw Hg Hv.
  { exists w, []. split; [done|]. split; [|constructor]. split; [done|done| |done].
    rewrite app_nil_r. rewrite insert_id; [done|]. by destruct g. }
  apply Forall_cons in Hv as [Ha Hv].
  destruct (configure_appender_run w p g a Hw Hg Ha) as (w1 & l1 & E1 & [W1 G1 L1 M1] & S1).
  destruct (IH w1 (with_appenders (lg_appenders g ++ l1) g) W1) as (w2 & l2 & E2 & [W2 G2 L2 M2] & S2);
    [by rewrite L1, lookup_insert_eq|done|].
  exists w2, (l1 ++ l2). split; [simpl; by mstep E1|]. split.
  - split; [done|by trans w1| |congruence]. rewrite L2, L1, insert_insert_eq. simpl. by rewrite app_assoc.
  - rewrite wanted_cons. apply Forall2_app; [|done]. by apply (all_shows_grown w1).
Qed.

(** ** The registry *)

Definition registered (w : logw) (name : string) : option Logger :=
  p ← lm_loggers (manager w) !! name; p' ← p; loggers w !! p'.
(** No null pointer is registered, and no logger under two names. *)
Record settled (w : logw) : Prop := mkSettled {
  st_wf : wf Unlocked w;
  st_some : ∀ n, lm_loggers (manager w) !! n ≠ Some None;
  st_inj : ∀ n n' p, lm_loggers (manager w) !! n = Some (Some p) →
    lm_loggers (manager w) !! n' = Some (Some p) → n = n';
}.
Lemma settled_registered w w' : kept w w' → settled w →
  settled w' ∧ ∀ n, registered w' n = registered w n.
Proof.
  intros K [W N I]. pose proof K as [_ KL KM _ _]. split.
  - split; [by apply (kept_wf _ w)| |]; by rewrite KM.
  - intros n. unfold registered. by rewrite KM, KL.
Qed.

Section Callback.
Context (strftime : Z → string → string) (at_ : site).

(** The logger [p], with other appenders and registered under [name], all else
    being what it was. *)
Lemma register_settled w w' p g name l : settled w →
  (∀ n, n ≠ name → lm_loggers (manager w) !! n ≠ Some (Some p)) →
  appended (set_loggers (<[p := with_appenders [] g]> (loggers w)) w) w' p (with_appenders [] g) l →
  let w3 := set_manager (insert_logger name (Some p) (manager w')) w' in
  setLogger name (Some p) w' = Ret tt w3 ∧ settled w3 ∧
  registered w3 name = Some (with_appenders l g) ∧
  ∀ n, n ≠ name → registered w3 n = registered w n.
Proof using Type.
  intros [W N I] Hn [W' G' L' M'] w3. simpl in L', M'. rewrite insert_insert_eq in L'.
  split; [apply setLogger_run, W'|]. split; [|split].
  - split.
    + apply (wf_set_manager Unlocked); [done|apply (wf_manager _ _ W')|apply (wf_root _ _ W')|].
      intros n x. simpl. destruct (decide (n = name)) as [->|Hne].
      * rewrite lookup_insert_eq. intros [= <-]. by rewrite L', lookup_insert_eq.
      * rewrite lookup_insert_ne by done. apply (wf_names _ _ W').
    + intros n. simpl. rewrite M'. destruct (decide (n = name)) as [->|Hne];
        [by rewrite lookup_insert_eq|by rewrite lookup_insert_ne].
    + intros n n' x. simpl. rewrite M'.
      destruct (decide (n = name)) as [->|Hne], (decide (n' = name)) as [->|Hne'];
        rewrite ?lookup_insert_eq, ?lookup_insert_ne by done; try done.
      * intros [= <-] Hx. by destruct (Hn n').
      * intros Hx [= <-]. by destruct (Hn n).
      * apply I.
  - unfold registered. simpl. rewrite lookup_insert_eq. simpl. by rewrite L', lookup_insert_eq.
  - intros n Hne. unfold registered. simpl. rewrite lookup_insert_ne, M' by done.
    destruct (lm_loggers (manager w) !! n) as [[x|]|] eqn:Hx; try done. simpl.
    rewrite L', lookup_insert_ne; [done|]. intros ->. by destruct (Hn n).
Qed.

(** A logger that is new to the registry. *)
Lemma named_settled w name : settled w → lm_loggers (manager w) !! name = None →
  let p := fresh (dom (loggers w)) in
  settled (with_named_logger name w) ∧ grown w (with_named_logger name w) ∧
  (∀ n, n ≠ name → registered (with_named_logger name w) n = registered w n) ∧
  ∀ n, n ≠ name → lm_loggers (manager (with_named_logger name w)) !! n ≠ Some (Some p).
Proof using Type.
  intros [W N I] Hno p.
  assert (Hp : ∀ n, lm_loggers (manager w) !! n ≠ Some (Some p)).
  { intros n Hn. pose proof (fresh_ne _ _ (wf_names _ _ W _ _ Hn)). done. }
  split; [|split; [|split]].
  - split; [by apply wf_with_named_logger| |]; simpl.
    + intros n. destruct (decide (n = name)) as [->|Hne];
        [by rewrite lookup_insert_eq|by rewrite lookup_insert_ne].
    + intros n n' x. destruct (decide (n = name)) as [->|Hne], (decide (n' = name)) as [->|Hne'];
        rewrite ?lookup_insert_eq, ?lookup_insert_ne by done; try done.
      * intros [= <-] Hx. by destruct (Hp n').
      * intros Hx [= <-]. by destruct (Hp n).
      * apply I.
  - apply grown_added; intros y Hy%fresh_ne; simpl; by rewrite lookup_insert_ne.
  - intros n Hne. unfold registered. simpl. rewrite lookup_insert_ne by done.
    destruct (lm_loggers (manager w) !! n) as [[x|]|] eqn:Hx; try done. simpl.
    rewrite lookup_insert_ne; [done|]. intros <-. by destruct (Hp n).
  - intros n Hne. simpl. by rewrite lookup_insert_ne.
Qed.

(** ** One element of the new description *)

Definition unchanged (old : list ConfigLog) (d : ConfigLog) : Prop :=
  ∃ it, set_find old d = Some it ∧ log_eq it d = true.
#[global] Instance unchanged_dec old d : Decision (unchanged old d).
Proof.
  unfold unchanged. destruct (set_find old d) as [it|].
  - destruct (log_eq it d) eqn:E; [left; by exists it|right; by intros (? & [= <-] & ?); congruence].
  - right. by intros (? & ? & _).
Defined.
(** The name and the level of the logger of an element: those of the element
    when its name is new, those of the logger that has the name, or of one made
    by the lookup. *)
Definition identity (old : list ConfigLog) (w : logw) (d : ConfigLog) : string * Level :=
  match set_find old d, registered w (l_name d) with
  | None, _ => (l_name d, l_level d)
  | Some _, Some g => (lg_name g, lg_level g)
  | Some _, None => (l_name d, DEBUG)
  end.
Definition applied (old : list ConfigLog) (w w' : logw) (d : ConfigLog) : Prop :=
  ∃ g, registered w' (l_name d) = Some g ∧ (lg_name g, lg_level g) = identity old w d ∧
    Forall2 (shows w') (lg_appenders g) (wanted (l_appenders d)).

Definition acquire (old : list ConfigLog) (data : ConfigLog) : M logw (option nat) :=
  match set_find old data with
  | None => p <- Logger_create (l_name data) (l_level data);; mreturn (Some p)
  | Some it => if negb (log_eq it data) then LON_LOG_NAME strftime at_ (l_name data)
               else mreturn None
  end.
Lemma acquire_run old w d : settled w → ¬ unchanged old d →
  ∃ p g w2, acquire old d w = Ret (Some p) w2 ∧ settled w2 ∧ grown w w2 ∧
    loggers w2 !! p = Some g ∧ (lg_name g, lg_level g) = identity old w d ∧
    (∀ n, n ≠ l_name d → registered w2 n = registered w n) ∧
    ∀ n, n ≠ l_name d → lm_loggers (manager w2) !! n ≠ Some (Some p).
Proof using Type.
  intros S Hu. pose proof S as [W N I]. unfold acquire, identity, unchanged in *.
  set (p := fresh (dom (loggers w))).
  assert (Hp : ∀ n, lm_loggers (manager w) !! n ≠ Some (Some p)).
  { intros n Hn. pose proof (fresh_ne _ _ (wf_names _ _ W _ _ Hn)). done. }
  destruct (set_find old d) as [it|].
  - assert (Hne : log_eq it d = false) by (apply not_true_is_false; intros E; apply Hu; by exists it).
    rewrite Hne. unfold LON_LOG_NAME. simpl.
    destruct (lm_loggers (manager w) !! l_name d) as [[x|]|] eqn:Hx.
    + destruct (wf_names _ _ W _ _ Hx) as [g Hg]. exists x, g, w.
      rewrite (getLogger_found strftime at_ w (l_name d) true (Some x) (wf_manager _ _ W) Hx).
      unfold registered. rewrite Hx. simpl. rewrite Hg. split_and!; try done.
      intros n Hn Hy. by apply Hn, (I n (l_name d) x).
    + by destruct (N (l_name d)).
    + destruct (named_settled w (l_name d) S Hx) as (S2 & G2 & R2 & U2).
      exists p. eexists _, _. rewrite getLogger_create by done. split; [done|].
      unfold registered at 1. rewrite Hx. simpl. rewrite lookup_insert_eq. split_and!; done.
  - mstep (Logger_create_run w (l_name d) (l_level d)). fold p.
    exists p. eexists _, _. split; [done|]. split; [|split; [|split; [|split; [|split]]]].
    + split; [by apply wf_logger_added|done|done].
    + apply grown_added; intros y Hy%fresh_ne; simpl; [by rewrite lookup_insert_ne|done].
    + simpl. by rewrite lookup_insert_eq.
    + done.
    + intros n Hn. unfold registered. simpl.
      destruct (lm_loggers (manager w) !! n) as [[x|]|] eqn:Hx; try done. simpl.
      rewrite lookup_insert_ne; [done|]. intros <-. by destruct (Hp n).
    + intros n _. simpl. apply Hp.
Qed.

Lemma configure_logger_run old w d : settled w → Forall valid (l_appenders d) → ¬ unchanged old d →
  ∃ w', configure_logger strftime at_ old d w = Ret tt w' ∧ settled w' ∧ grown w w' ∧
    applied old w w' d ∧ ∀ n, n ≠ l_name d → registered w' n = registered w n.
Proof using Type.
  intros S Hv Hu. destruct (acquire_run old w d S Hu) as (p & g & w2 & E2 & S2 & G2 & Hg & Hi & R2 & U2).
  unfold configure_logger. fold (acquire old d). mstep E2. pose proof (st_wf _ S2) as W2.
  mstep (clearAppenders_run Unlocked w2 p g W2 Hg).
  set (w3 := set_loggers _ w2).
  destruct (configure_appenders_run w3 p (with_appenders [] g) (l_appenders d))
    as (w4 & l & E4 & A & Hs); [|simpl; by rewrite lookup_insert_eq|done|].
  { by apply (wf_update_logger _ _ _ (with_appenders []) g). }
  mstep E4. destruct (register_settled w2 w4 p g (l_name d) l S2 U2 A) as (E5 & S5 & R5 & R5').
  eexists. split; [exact E5|]. split; [done|].
  assert (G4 : grown w2 w4) by (trans w3; [by apply grown_added|apply A]).
  split; [|split].
  - trans w2; [done|]. trans w4; [done|]. by apply grown_added.
  - eexists. split; [exact R5|]. split; [done|]. eapply all_shows_grown; [|exact Hs]. by apply grown_added.
  - intros n Hn. by rewrite R5', R2.
Qed.

(** All elements, up to the first that is unchanged. *)
Lemma configure_loggers_run old new w : settled w → NoDup (l_name <$> new) →
  Forall (λ d, Forall valid (l_appenders d)) new →
  (Forall (λ d, ¬ unchanged old d) new →
   ∃ w', mfor new (configure_logger strftime at_ old) w = Ret tt w' ∧ settled w' ∧ grown w w' ∧
     Forall (applied old w w') new ∧ ∀ n, n ∉ l_name <$> new → registered w' n = registered w n) ∧
  (Exists (unchanged old) new → mfor new (configure_logger strftime at_ old) w = Fault NullDeref).
Proof using Type.
  revert w. induction new as [|d new IH]; intros w S Hd Hv.
  { split; [|by rewrite Exists_nil]. intros _. exists w. by split_and!. }
  rewrite fmap_cons in Hd. apply NoDup_cons in Hd as [Hd Hds].
  apply Forall_cons in Hv as [Hv Hvs].
  destruct (decide (unchanged old d)) as [Hu|Hu].
  - split; [rewrite Forall_cons; tauto|]. intros _. simpl. apply bind_Fault. destruct Hu as (it & Hf & He).
    unfold configure_logger. rewrite Hf, He. done.
  - destruct (configure_logger_run old w d S Hv Hu) as (w1 & E1 & S1 & G1 & A1 & R1).
    destruct (IH w1 S1 Hds Hvs) as [IH1 IH2]. simpl. split.
    + intros [_ H]%Forall_cons. destruct (IH1 H) as (w' & E' & S' & G' & A' & R').
      exists w'. split; [by mstep E1|]. split; [done|]. split; [by trans w1|]. split.
      * constructor.
        -- destruct A1 as (g & Hr & Hi & Hs). exists g. rewrite R' by done. split_and!; [done|done|].
           by apply (all_shows_grown w1).
        -- apply Forall_forall. intros x Hx. pose proof (proj1 (Forall_forall _ _) A' x Hx) as (g & Hr & Hi & Hs).
           exists g. split_and!; [done| |done]. rewrite Hi. unfold identity.
           rewrite R1; [done|]. intros Hn. apply Hd. rewrite <-Hn. apply list_elem_of_fmap. by exists x.
      * intros n Hn. rewrite not_elem_of_cons in Hn. destruct Hn. by rewrite R', R1.
    + rewrite Exists_cons. intros [?|H]; [done|]. mstep E1. by apply IH2.
Qed.

Lemma remove_loggers_run new old w :
  mfor old (remove_logger new) w =
  if decide (Forall (λ d, is_Some (set_find new d)) old) then Ret tt w else Fault EraseEnd.
Proof using Type.
  induction old as [|d old IH]; [done|]. simpl. unfold mbind', remove_logger at 1.
  destruct (set_find new d) as [it|] eqn:E.
  - unfold mreturn at 1. rewrite IH. apply decide_ext. rewrite Forall_cons. rewrite E. naive_solver.
  - rewrite decide_False; [done|]. rewrite Forall_cons, E. by intros [[? ?] _].
Qed.

Lemma root_log_kept level message w : settled w →
  ∃ w1, LON_LOG_LEVEL strftime LON_LOG_ROOT level at_ message w = Ret tt w1 ∧ kept w w1.
Proof using Type.
  intros [W N I]. pose proof (getRoot_run w (wf_manager _ _ W)) as E. eexists. split.
  - apply (LON_LOG_LEVEL_run strftime _ _ _ _ _ _ w E E W). unfold root_of. intros x Hx.
    destruct (lm_loggers (manager w) !! "root") as [p|] eqn:Hr.
    + subst. by apply (wf_names _ _ W "root").
    + injection Hx as <-. apply (wf_root _ _ W).
  - destruct (root_of w); [apply kept_logged|done].
Qed.

(** C12: When every element of the new description is new or differs from the old
    one, and no old name is missing, the callback rebuilds the registry: every
    described name has a logger with exactly the described appenders, level and
    format and file each, in their order; a new logger has the described level,
    a known one keeps its level; the loggers of other names are left alone. An
    element that has not changed makes the callback dereference a null pointer,
    and a name that is gone the end of the set. *)
Theorem log_reconfiguration old new w : settled w → NoDup (l_name <$> new) →
  Forall (λ d, Forall valid (l_appenders d)) new →
  (Forall (λ d, ¬ unchanged old d) new → Forall (λ d, is_Some (set_find new d)) old →
   ∃ w', on_logs_changed strftime at_ old new w = Ret tt w' ∧ settled w' ∧
     Forall (applied old w w') new ∧ ∀ n, n ∉ l_name <$> new → registered w' n = registered w n) ∧
  (Exists (unchanged old) new → on_logs_changed strftime at_ old new w = Fault NullDeref) ∧
  (Forall (λ d, ¬ unchanged old d) new → Exists (λ d, set_find new d = None) old →
   on_logs_changed strftime at_ old new w = Fault EraseEnd).
Proof using Type.
  intros S Hd Hv. unfold on_logs_changed.
  destruct (root_log_kept INFO "on config log data changed" w S) as (w1 & E1 & K).
  destruct (settled_registered w w1 K S) as [S1 R1].
  destruct (configure_loggers_run old new w1 S1 Hd Hv) as [H1 H2].
  split_and!.
  - intros Hn Ho. destruct (H1 Hn) as (w' & E & S' & _ & A & R). exists w'.
    mstep E1. mstep E. rewrite remove_loggers_run, decide_True by done.
    split_and!; [done|done| |intros n Hx; by rewrite R].
    apply (Forall_impl _ _ _ A). intros d (g & Hg & Hi & Hs). exists g. split_and!; [done| |done].
    rewrite Hi. unfold identity. by rewrite R1.
  - intros He. mstep E1. apply bind_Fault. by apply H2.
  - intros Hn Ho. destruct (H1 Hn) as (w' & E & _). mstep E1. mstep E.
    rewrite remove_loggers_run, decide_False; [done|]. intros Hf.
    apply Exists_exists in Ho as (d & Hin & He). rewrite Forall_forall in Hf.
    destruct (Hf d Hin). congruence.
Qed.
End Callback.

(** From a fresh program: the root logger gets a file, the change of its level
    is not taken; the same description again is fatal, and so is an empty one. *)
Definition to_file : ConfigLogAppender := mkConfigLogAppender 1 WARN "%m%n" "a.log".
Definition first_logs : list ConfigLog := [mkConfigLog "root" DEBUG []].
Definition second_logs : list ConfigLog := [mkConfigLog "net" INFO []; mkConfigLog "root" ERROR [to_file]].
Lemma started_settled : settled (started 5).
Proof.
  split; [apply wf_start| |].
  - intros n. change (lm_loggers (manager (started 5))) with ({["root" := Some 0%nat]} : gmap string (option nat)).
    rewrite lookup_singleton. by case_decide.
  - intros n n' p. change (lm_loggers (manager (started 5))) with ({["root" := Some 0%nat]} : gmap string (option nat)).
    rewrite !lookup_singleton. intros H1 H2. by repeat case_decide; simplify_eq.
Qed.
Lemma log_reconfiguration_witness :
  (∃ w' g, on_logs_changed show_date here first_logs second_logs (started 5) = Ret tt w' ∧
     registered w' "root" = Some g ∧ (lg_name g, lg_level g) = ("root", DEBUG) ∧
     Forall2 (shows w') (lg_appenders g) [to_file]) ∧
  on_logs_changed show_date here second_logs second_logs (started 5) = Fault NullDeref ∧
  on_logs_changed show_date here second_logs [mkConfigLog "net" WARN []] (started 5) = Fault EraseEnd.
Proof.
  assert (Hv : Forall (λ d, Forall valid (l_appenders d)) second_logs).
  { repeat constructor. vm_compute. eauto. }
  assert (Hu : ∀ old d, bool_decide (unchanged old d) = false → ¬ unchanged old d).
  { intros old d. by rewrite bool_decide_eq_false. }
  split_and!.
  - destruct (log_reconfiguration show_date here first_logs second_logs (started 5) started_settled)
      as ((w' & E & _ & A & _) & _); [|done| | |].
    + apply (bool_decide_unpack _). vm_compute. exact I.
    + repeat constructor; apply Hu; reflexivity.
    + constructor; [|constructor]. by eexists.
    + apply Forall_cons in A as [_ A]. apply Forall_cons in A as [(g & Hg & Hi & Hs) _].
      exists w', g. split_and!; [exact E|exact Hg| |exact Hs]. rewrite Hi. vm_compute. reflexivity.
  - apply (log_reconfiguration show_date here second_logs second_logs (started 5) started_settled).
    + apply (bool_decide_unpack _). vm_compute. exact I.
    + done.
    + constructor. eexists. split; reflexivity.
  - apply (log_reconfiguration show_date here second_logs [mkConfigLog "net" WARN []] (started 5) started_settled).
    + apply (bool_decide_unpack _). vm_compute. exact I.
    + repeat constructor.
    + repeat constructor; apply Hu; reflexivity.
    + apply Exists_cons. right. apply Exists_cons. left. reflexivity.
Defined.
