(* ===== verification/GlobalWiring.v ===== *)
(** * The configuration of the framework at work

    GlobalConfig on an empty configuration, and what a change of one of its
    data does: the configuration (Config) calls the callback of the loggers
    (GlobalConfig), which changes the log (Logger). *)

From Stdlib Require Import Ascii String.
From S2P Require Import Prelude Strings StringsSpec LogFormat Locks Logger LogSpec LoggerSpec.
From S2P Require Import Yaml LexicalCast LexicalSpec Config ConfigSpec GlobalConfig GlobalSpec.
#[local] Open Scope Z_scope.

Section Wiring.
Context {Node : Type} `{YamlRecord Node} (strftime : Z → string → string) (at_ : site).
#[local] Abbreviation value := (@value (global_types (Node := Node))).
Implicit Types (c : configw logw) (v : value).

(** The datum [p], of type [t] with the value [v], has the callback [cb]. *)
Definition wired c (p : nat) (t : GlobalType) v (cb : nat) : Prop :=
  ∃ d, heap c !! p = Some d ∧ Config.m_mutex d = Unlocked ∧ m_type d = t ∧ m_data d = v ∧
    m_cbs d = [(0, cb)].
Definition valued c (p : nat) v : configw logw :=
  Config.set_heap (alter (with_data v) p (heap c)) c.

Lemma wired_valued c p t v v' cb : wired c p t v cb → wired (valued c p v') p t v' cb.
Proof using Type.
  intros (d & Hd & Hl & Ht & _ & Hc). exists (with_data v' d). simpl. rewrite (alter_Some _ _ _ _ Hd).
  by rewrite lookup_insert_eq.
Qed.

Lemma on_log_ends (m : M logw unit) c : ends (λ c', c' = set_ext (ext c') c) (on_log m c).
Proof using Type. unfold on_log. by destruct (m (ext c)). Qed.
Lemma global_outside : outside (global_call strftime at_).
Proof using Type.
  intros cb a b c. destruct cb as [|[|[|[|cb]]]], a, b; simpl; try apply on_log_ends; by destruct c.
Qed.

(** Setting a datum with one callback. *)
Lemma wired_set c p t v cb v' : wired c p t v cb →
  setData_value (global_call strftime at_) p v' c =
  if veq v v' then Ret tt c
  else match global_call strftime at_ cb v v' c with
       | Ret _ c1 => Ret tt (set_ext (ext c1) (valued c p v'))
       | Throw e c1 => Throw e (set_ext (ext c1) c)
       | Fault f => Fault f
       end.
Proof using Type.
  intros (d & Hd & Hl & Ht & <- & Hc). rewrite (setData_value_run _ global_outside c p d v' Hd Hl).
  destruct (veq (m_data d) v'); [done|]. unfold run_cbs, valued. rewrite Hc, (alter_Some _ _ _ _ Hd).
  cbn [mfor snd]. set (call := global_call strftime at_ cb (m_data d) v').
  assert (E : match call (locked p d c) with
    | Ret _ c1 => ∃ c2, call c = Ret tt c2 ∧ ext c2 = ext c1
    | Throw e c1 => ∃ c2, call c = Throw e c2 ∧ ext c2 = ext c1
    | Fault f => call c = Fault f
    end).
  { assert (Hlog : ∀ m : M logw unit, match on_log m (locked p d c) with
      | Ret _ c1 => ∃ c2, on_log m c = Ret tt c2 ∧ ext c2 = ext c1
      | Throw e c1 => ∃ c2, on_log m c = Throw e c2 ∧ ext c2 = ext c1
      | Fault f => on_log m c = Fault f end).
    { intros m. unfold on_log. simpl. destruct (m (ext c)) as [[]| |]; try done; by eexists. }
    unfold call. destruct cb as [|[|[|[|cb]]]], (m_data d), v'; simpl; try apply Hlog; by exists c. }
  unfold mbind'. destruct (call (locked p d c)) as [[] c1|e c1|f]; [| |by rewrite E].
  all: destruct E as (c2 & -> & ->); done.
Qed.

(** A new datum with its callback. *)
Record wired_new c c' (name : string) (p : nat) (t : GlobalType) v (cb : nat) : Prop := mkWiredNew {
  wn_wf : ConfigSpec.wf c';
  wn_ext : ext c' = ext c;
  wn_wired : wired c' p t v cb;
  wn_new : heap c !! p = None;
  wn_datas : datas c' = <[name := p]> (datas c);
  wn_heap : ∀ q, is_Some (heap c !! q) → heap c' !! q = heap c !! q;
}.
Lemma wired_same c c' p t v cb : (∀ q, is_Some (heap c !! q) → heap c' !! q = heap c !! q) →
  wired c p t v cb → wired c' p t v cb.
Proof using Type. intros Hh (d & Hd & Hx). exists d. by rewrite Hh. Qed.

Lemma register_run c t name v desc cb : ConfigSpec.wf c → type_of v = t →
  isValidParamName name = true → toLower name = name → datas c !! name = None →
  ∃ p c', register t name v desc cb c = Ret p c' ∧ wired_new c c' name p t v cb.
Proof using Type.
  intros Hw Ht Hv Hlow Hn. unfold register. set (p := fresh (dom (heap c))).
  pose proof (setData_run c t name v desc Hw) as E. rewrite Hlow, Hv, Hn in E. simpl in E. mstep E. fold p.
  destruct (wf_registered c name t v desc Hw Ht) as [Hw1 _]; [by rewrite Hlow..|].
  set (c1 := ConfigSpec.registered c name t v desc) in *. set (d := new_data name t v desc).
  assert (Hd : heap c1 !! p = Some d) by (simpl; by rewrite lookup_insert_eq).
  mstep (addConfigDataChangeCB_run c1 p d cb Hd eq_refl). simpl. eexists p, _. split; [done|]. split; simpl.
  - apply (wf_insert c1); [done|by repeat split; try apply toLower_idem|].
    intros d0. rewrite Hd. by intros [= <-].
  - done.
  - exists (with_cbs [(0, cb)] d). simpl. by rewrite lookup_insert_eq.
  - apply fresh_None.
  - by rewrite Hlow.
  - intros q Hq%fresh_ne. by rewrite !lookup_insert_ne.
Qed.

Lemma number_log_kept what old new w : settled w →
  ∃ e, on_number_changed strftime at_ what old new w = Ret tt e ∧ kept w e.
Proof using Type.
  intros S. unfold on_number_changed. destruct (root_log_kept strftime at_ INFO what w S) as (w1 & E1 & K1).
  destruct (root_log_kept strftime at_ DEBUG ("old_data: " +:+ dec old +:+ " new_data: " +:+ dec new) w1)
    as (w2 & E2 & K2); [by apply (settled_registered w)|].
  exists w2. split; [by mstep E1|by trans w1].
Qed.

(** The data of the framework that are numbers, each with its callback. *)
Definition numbers : list ((Z → GlobalValue) * GlobalType * nat) :=
  [(VSize, TSize, 1%nat); (VUint32, TUint32, 2%nat); (VUint32, TUint32, 3%nat)].

(** On a configuration without its names GlobalConfig registers four data with
    their defaults and callbacks. From then on a change of the description of
    the loggers is the change of the registry of loggers that its callback
    makes, and the new description is stored when the callback returns only;
    an equal one changes nothing. A change of a number is stored, and the
    loggers stay what they are. *)
Theorem global_config_wires c : ConfigSpec.wf c →
  (Forall (λ name, datas c !! name = None)
     ["logs"; "fiber.stack_size"; "tcp.connect.timeout"; "tcp.server.client_timeout"] →
   ∃ p0 p1 p2 p3 c', GlobalConfig_create c = Ret (p0, p1, p2, p3) c' ∧ ConfigSpec.wf c' ∧ ext c' = ext c ∧
     wired c' p0 TLogs (VLogs []) 0 ∧ wired c' p1 TSize (VSize (2 ^ 20)) 1 ∧
     wired c' p2 TUint32 (VUint32 5000) 2 ∧ wired c' p3 TUint32 (VUint32 120000) 3 ∧
     typed_lookup c' TLogs "logs" = Some p0) ∧
  (∀ p old new, wired c p TLogs (VLogs old) 0 →
     setData_value (global_call strftime at_) p (VLogs new) c =
     if logs_eq old new then Ret tt c
     else match on_logs_changed strftime at_ old new (ext c) with
          | Ret _ e => Ret tt (set_ext e (valued c p (VLogs new)))
          | Throw x e => Throw x (set_ext e c)
          | Fault f => Fault f
          end) ∧
  ∀ mk t cb, (mk, t, cb) ∈ numbers → settled (ext c) → ∀ p old new, wired c p t (mk old) cb →
    ∃ e, kept (ext c) e ∧ setData_value (global_call strftime at_) p (mk new) c =
      Ret tt (if old =? new then c else set_ext e (valued c p (mk new))).
Proof using Type.
  intros Hw. split; [|split].
  - intros Hn. rewrite !Forall_cons in Hn. destruct Hn as (N0 & N1 & N2 & N3 & _). unfold GlobalConfig_create.
    destruct (register_run c TLogs "logs" (VLogs []) "logs config" 0 Hw) as (p0 & c0 & E0 & [W0 X0 R0 _ D0 G0]);
      [done..|]. mstep E0.
    destruct (register_run c0 TSize "fiber.stack_size" (VSize (1024 * 1024)) "fiber stack size" 1 W0)
      as (p1 & c1 & E1 & [W1 X1 R1 _ D1 G1]); [done|done|done|by rewrite D0, lookup_insert_ne|]. mstep E1.
    destruct (register_run c1 TUint32 "tcp.connect.timeout" (VUint32 5000) "tcp connect timeout ms" 2 W1)
      as (p2 & c2 & E2 & [W2 X2 R2 _ D2 G2]);
      [done|done|done|by rewrite D1, D0, !lookup_insert_ne|]. mstep E2.
    destruct (register_run c2 TUint32 "tcp.server.client_timeout" (VUint32 (1000 * 60 * 2))
      "tcp server client timeout ms(default 2min)" 3 W2) as (p3 & c3 & E3 & [W3 X3 R3 _ D3 G3]);
      [done|done|done|by rewrite D2, D1, D0, !lookup_insert_ne|]. mstep E3.
    exists p0, p1, p2, p3, c3. split; [done|]. split; [done|]. split; [congruence|].
    apply (wired_same _ _ _ _ _ _ G3) in R2.
    apply (wired_same _ _ _ _ _ _ G2), (wired_same _ _ _ _ _ _ G3) in R1.
    apply (wired_same _ _ _ _ _ _ G1), (wired_same _ _ _ _ _ _ G2), (wired_same _ _ _ _ _ _ G3) in R0.
    split_and!; try done. destruct R0 as (d & Hd & _ & Ht & _). unfold typed_lookup. simpl.
    rewrite D3, D2, D1, D0. rewrite !lookup_insert_ne, lookup_insert_eq, Hd by done. by rewrite decide_True.
  - intros p old new Hp. rewrite (wired_set c p _ _ _ (VLogs new) Hp). simpl. destruct (logs_eq old new); [done|].
    unfold on_log. by destruct (on_logs_changed strftime at_ old new (ext c)).
  - intros mk t cb Hin S p old new Hp.
    assert (E : veq (mk old : value) (mk new) = (old =? new) ∧ ∃ what,
      global_call strftime at_ cb (mk old : value) (mk new) c = on_log (on_number_changed strftime at_ what old new) c).
    { unfold numbers in Hin. rewrite !elem_of_cons in Hin.
      destruct Hin as [[= -> -> ->]|[[= -> -> ->]|[[= -> -> ->]|[]%not_elem_of_nil]]]; (split; [done|by eexists]). }
    destruct E as (Ev & what & Ec). destruct (number_log_kept what old new _ S) as (e & Ee & K).
    exists e. split; [done|]. rewrite (wired_set c p _ _ _ (mk new) Hp), Ev, Ec. unfold on_log. rewrite Ee.
    by destruct (old =? new).
Qed.
End Wiring.

(** Texts as YAML nodes, with the entries of a map by their keys. *)
#[global] Instance text_record : YamlRecord string := {
  node_get n key := inr (assoc key (text_entries n));
  as_string n := inr (node_scalar n);
  as_int := lexical_cast (get_int true 32);
}.
Definition fresh_config : configw logw := mkConfig ∅ ∅ Unlocked (started 5).
Lemma fresh_config_wf : ConfigSpec.wf fresh_config.
Proof. by split. Qed.
Lemma global_config_wires_witness : ∃ p0 p1 p2 p3 (c' : configw logw) e,
  GlobalConfig_create fresh_config = Ret (p0, p1, p2, p3) c' ∧
  setData_value (global_call show_date here) p0 (VLogs []) c' = Ret tt c' ∧
  setData_value (global_call show_date here) p2 (VUint32 250) c' = Ret tt (set_ext e (valued c' p2 (VUint32 250))).
Proof.
  destruct (global_config_wires show_date here fresh_config fresh_config_wf) as (H & _ & _).
  destruct H as (p0 & p1 & p2 & p3 & c' & E & Hw & Hx & R0 & _ & R2 & _); [by repeat constructor|].
  destruct (global_config_wires show_date here c' Hw) as (_ & H1 & H2).
  destruct (H2 VUint32 TUint32 2%nat) with (p := p2) (old := 5000) (new := 250) as (e & _ & E2).
  - vm_compute. right. left.
  - rewrite Hx. apply started_settled.
  - exact R2.
  - exists p0, p1, p2, p3, c', e. split_and!; [exact E|by rewrite (H1 p0 [] []) |exact E2].
Defined.
