(* ===== verification/LogYaml.v ===== *)
(** * The log as YAML (log/logappender.cpp, log/logger.cpp: getYaml)

    The text that the appenders, loggers and their registry give of
    themselves, and that the conversions of the configuration read it back as
    the description that makes such loggers. *)

From Stdlib Require Import Ascii String.
From stdpp Require Import sorting.
From S2P Require Import Prelude Strings StringsSpec LogFormat Locks Logger LogSpec LoggerSpec.
From S2P Require Import Yaml LexicalCast LexicalSpec Config GlobalConfig GlobalSpec GlobalWiring.
#[local] Open Scope Z_scope.

Section GetYaml.
Context {Node : Type} `{YamlDoc Node}.

(** [YAML::Load(text)] *)
Definition load {St} (text : string) : M St Node :=
  match Load text with inl e => mthrow e | inr n => mreturn n end.

(** [m_formatter->getFormat()] *)
Definition formatter_getFormat (f : option nat) : M logw string :=
  match f with
  | None => mfault NullDeref
  | Some q => f <- deref formatters q;; mreturn (m_format f)
  end.

Definition StdoutLogAppender_getYaml (p : nat) : M logw string :=
  appender_lock p
    (a <- deref appenders p;;
     let node := set_key mk_empty "type" (mk_scalar (dec 0)) in
     format <- formatter_getFormat (la_formatter a);;
     let node := set_key node "format" (mk_scalar format) in
     let node := set_key node "level" (mk_scalar (getLevelName (la_level a))) in
     mreturn (node_text node)).
Definition FileLogAppender_getYaml (p : nat) (m_filename : string) : M logw string :=
  appender_lock p
    (a <- deref appenders p;;
     let node := set_key mk_empty "type" (mk_scalar (dec 1)) in
     format <- formatter_getFormat (la_formatter a);;
     let node := set_key node "format" (mk_scalar format) in
     let node := set_key node "level" (mk_scalar (getLevelName (la_level a))) in
     let node := set_key node "log_path" (mk_scalar m_filename) in
     mreturn (node_text node)).
(** The virtual function. *)
Definition appender_getYaml (p : nat) : M logw string :=
  a <- deref appenders p;;
  match la_kind a with
  | StdoutLogAppender => StdoutLogAppender_getYaml p
  | FileLogAppender filename => FileLogAppender_getYaml p filename
  end.

(** [auto node = root[key]] with elements pushed to it: without any the key
    stays undefined and is not printed. *)
Definition with_elements (root : Node) (key : string) {A} (l : list A) (node : Node) : Node :=
  match l with [] => root | _ => set_key root key node end.

Definition Logger_getYaml (p : nat) : M logw string :=
  logger_lock p
    (g <- deref loggers p;;
     let root := set_key mk_empty "name" (mk_scalar (lg_name g)) in
     let root := set_key root "level" (mk_scalar (getLevelName (lg_level g))) in
     node <- mfold (λ node it, s <- appender_getYaml it;; n <- load s;; mreturn (push_back node n))
               (lg_appenders g) mk_empty;;
     mreturn (node_text (with_elements root "appenders" (lg_appenders g) node))).

(** A [std::map] from its first key to its last. *)
Definition key_le {A} (a b : string * A) : Prop := str_lt b.1 a.1 = false.
#[global] Instance key_le_dec {A} : RelDecision (@key_le A).
Proof. intros a b. unfold key_le. apply _. Defined.
Definition in_order {A} (m : gmap string A) : list (string * A) := merge_sort key_le (map_to_list m).

Definition LoggerManager_getYaml : M logw string :=
  manager_lock
    (w <- mget;;
     let logs := in_order (lm_loggers (manager w)) in
     node <- mfold (λ node it,
                match it.2 with
                | None => mfault NullDeref
                | Some p => s <- Logger_getYaml p;; n <- load s;; mreturn (push_back node n)
                end) logs mk_empty;;
     mreturn (node_text (with_elements mk_empty "logs" logs node))).
End GetYaml.

(** ** What it describes *)

(** A map made by assignments, and what the code reads of it. *)
Definition record {Node} `{YamlDoc Node} (l : list (string * Node)) : Node :=
  foldl (λ node it, set_key node it.1 it.2) mk_empty l.
Class YamlRecordLaws (Node : Type) `{YamlRecord Node} : Prop := {
  record_get : ∀ l k, NoDup (map fst l) → Forall (λ k, isValidParamName k = true) (k :: map fst l) →
    node_get (record l) k = inr (assoc k l);
  string_of_scalar : ∀ s, as_string (mk_scalar s) = inr s;
  int_of_scalar : ∀ z, srange 32 z → as_int (mk_scalar (dec z)) = inr z;
  load_nothing : ∃ n, Load "" = inr n ∧ node_elements n = [];
}.

Definition describe (w : logw) (x : nat) : option ConfigLogAppender :=
  a ← appenders w !! x; q ← la_formatter a; f ← formatters w !! q;
  Some (match la_kind a with
        | StdoutLogAppender => mkConfigLogAppender 0 (la_level a) (m_format f) (a_log_path ConfigLogAppender_default)
        | FileLogAppender filename => mkConfigLogAppender 1 (la_level a) (m_format f) filename
        end).
Definition description (w : logw) (g : Logger) : ConfigLog :=
  mkConfigLog (lg_name g) (lg_level g) (omap (describe w) (lg_appenders g)).

(** The path of an appender that is not a file is not kept. *)
Definition standard (a : ConfigLogAppender) : ConfigLogAppender :=
  if a_type a =? 0 then mkConfigLogAppender 0 (a_level a) (a_format a) (a_log_path ConfigLogAppender_default) else a.

(** ** Locks around what only reads *)

Lemma appender_lock_read {A} (body : M logw A) w p a x :
  appenders w !! p = Some a → la_mutex a = Unlocked →
  (∀ w', appenders w' !! p = Some (relock Exclusive a) → formatters w' = formatters w → body w' = Ret x w') →
  appender_lock p body w = Ret x w.
Proof.
  intros Ha Hl Hb. set (w1 := set_appenders (<[p := relock Exclusive a]> (appenders w)) w).
  rewrite (appender_lock_run body w p a (relock Exclusive a) x w1); try done.
  - rewrite relock_id by done. f_equal. unfold w1. destruct w. unfold set_appenders. simpl in *.
    by rewrite insert_insert_eq, insert_id.
  - apply Hb; [apply lookup_insert_eq|done].
  - apply lookup_insert_eq.
Qed.
Lemma logger_lock_read {A} (body : M logw A) w p g x :
  loggers w !! p = Some g → lg_mutex g = Unlocked →
  (∀ w', loggers w' !! p = Some (relock_logger Exclusive g) → appenders w' = appenders w →
     formatters w' = formatters w → body w' = Ret x w') →
  logger_lock p body w = Ret x w.
Proof.
  intros Hg Hl Hb. set (w1 := set_loggers (<[p := relock_logger Exclusive g]> (loggers w)) w).
  unfold logger_lock. rewrite (heap_lock_run _ _ _ _ _ Exclusive body w p g (relock_logger Exclusive g) x w1); try done.
  - f_equal. destruct w, g. unfold w1, relock_logger, set_loggers in *. simpl in *. subst. f_equal.
    by rewrite insert_insert_eq, insert_id.
  - apply Hb; [apply lookup_insert_eq|done|done].
  - apply lookup_insert_eq.
Qed.

(** ** The texts *)

Section Texts.
Context {Node : Type} `{YamlLaws Node} {YR : YamlRecord Node} {RL : YamlRecordLaws Node}.

Definition appender_fields (a : LogAppender) (f : LogFormatter) : list (string * Node) :=
  [("type", mk_scalar (dec (match la_kind a with StdoutLogAppender => 0 | _ => 1 end)));
   ("format", mk_scalar (m_format f)); ("level", mk_scalar (getLevelName (la_level a)))] ++
  match la_kind a with StdoutLogAppender => [] | FileLogAppender filename => [("log_path", mk_scalar filename)] end.
Definition logger_fields (g : Logger) (nodes : list Node) : list (string * Node) :=
  [("name", mk_scalar (lg_name g)); ("level", mk_scalar (getLevelName (lg_level g)))] ++
  match nodes with [] => [] | _ => [("appenders", foldl push_back mk_empty nodes)] end.

Lemma load_node {St} n (w : St) : load (node_text n) w = Ret n w.
Proof using All. unfold load. by rewrite load_text. Qed.
Lemma elements_nodes nodes n : node_elements (foldl push_back n nodes) = node_elements n ++ nodes.
Proof using All.
  revert n. induction nodes as [|x nodes IH]; intros n; simpl; [by rewrite app_nil_r|].
  by rewrite IH, elements_push, <-app_assoc.
Qed.

Lemma appender_getYaml_run w x a q f : appenders w !! x = Some a → la_mutex a = Unlocked →
  la_formatter a = Some q → formatters w !! q = Some f →
  appender_getYaml x w = Ret (node_text (record (appender_fields a f))) w.
Proof using Type.
  intros Ha Hl Hq Hf. unfold appender_getYaml.
  rewrite (bind_Ret _ _ _ a w) by (unfold deref; by rewrite Ha).
  unfold appender_fields. destruct (la_kind a) eqn:Ek; [unfold StdoutLogAppender_getYaml|unfold FileLogAppender_getYaml].
  all: apply (appender_lock_read _ w x a _ Ha Hl); intros w' Ha' Hf'; unfold mbind', deref at 1;
    rewrite Ha'; unfold formatter_getFormat, mbind', deref; simpl; by rewrite Hq, Hf', Hf.
Qed.

(** Nodes that a loop makes one by one. *)
Lemma mfold_push {A} (body : Node → A → M logw Node) (node_of : A → Node) l w n :
  (∀ x n, x ∈ l → body n x w = Ret (push_back n (node_of x)) w) →
  mfold body l n w = Ret (foldl push_back n (node_of <$> l)) w.
Proof using Type.
  revert n. induction l as [|x l IH]; intros n Hb; simpl; [done|].
  rewrite (bind_Ret _ _ _ _ _ (Hb x n ltac:(left))). apply IH. intros y m Hy. apply Hb. by right.
Qed.

(** The appenders of a logger and their nodes. *)
Definition appender_node (w : logw) (x : nat) : Node :=
  match appenders w !! x with
  | Some a => match la_formatter a ≫= λ q, formatters w !! q with
              | Some f => record (appender_fields a f)
              | None => mk_empty
              end
  | None => mk_empty
  end.
Lemma with_elements_fields g (nodes : list Node) l : length l = length nodes →
  with_elements (set_key (set_key mk_empty "name" (mk_scalar (lg_name g))) "level" (mk_scalar (getLevelName (lg_level g))))
    "appenders" (l : list nat) (foldl push_back mk_empty nodes) = record (logger_fields g nodes).
Proof using Type. by destruct l, nodes. Qed.

Lemma Logger_getYaml_run w p g : lg_mutex g = Unlocked → loggers w !! p = Some g → Forall (ready w) (lg_appenders g) →
  Logger_getYaml p w = Ret (node_text (record (logger_fields g (appender_node w <$> lg_appenders g)))) w.
Proof using All.
  intros Hl Hg Hr. unfold Logger_getYaml. apply (logger_lock_read _ w p g _ Hg Hl). intros w' Hg' Ha Hf.
  unfold mbind' at 1, deref at 1. rewrite Hg'. cbn [relock_logger lg_name lg_level lg_appenders].
  rewrite (bind_Ret _ _ _ (foldl push_back mk_empty (appender_node w <$> lg_appenders g)) w').
  { unfold mreturn. f_equal. f_equal. apply with_elements_fields. by rewrite length_fmap. }
  apply mfold_push. intros x n Hx. rewrite Forall_forall in Hr. destruct (Hr x Hx) as (a & Hxa & Hla & q & Hq & f & Hqf).
  rewrite (bind_Ret _ _ _ _ _ (appender_getYaml_run w' x a q f ltac:(by rewrite Ha) Hla Hq ltac:(by rewrite Hf))).
  rewrite (bind_Ret _ _ _ _ _ (load_node _ w')). unfold appender_node. by rewrite Hxa, Hq; simpl; rewrite Hqf.
Qed.

(** ** Reading them back *)

Lemma level_of_name l : getLevelByName (getLevelName l) = l.
Proof using Type. by destruct l. Qed.
Lemma describe_read w x a q f : appenders w !! x = Some a → la_formatter a = Some q → formatters w !! q = Some f →
  ∃ d, describe w x = Some d ∧
    cast_from (Lexical := Lexical_ConfigLogAppender) (node_text (record (appender_fields a f))) = inr d.
Proof using All.
  intros Ha Hq Hf. unfold describe. rewrite Ha. simpl. rewrite Hq. simpl. rewrite Hf. simpl. eexists. split; [done|].
  simpl. rewrite load_text. simpl. unfold if_defined, appender_fields. destruct (la_kind a).
  all: rewrite !record_get by (repeat constructor; set_solver); simpl; unfold as_level;
    rewrite !string_of_scalar; simpl; rewrite int_of_scalar by done; simpl; by rewrite level_of_name.
Qed.

Lemma each_omap {A B} (f : A → exn + B) (g : nat → option B) (h : nat → A) l :
  Forall (λ x, ∃ d, g x = Some d ∧ f (h x) = inr d) l → each f (h <$> l) = inr (omap g l).
Proof using Type.
  induction 1 as [|x l (d & Hd & Hf) _ IH]; [done|]. rewrite fmap_cons. simpl. by rewrite Hf, Hd, IH.
Qed.
Lemma appenders_read w l : Forall (ready w) l → l ≠ [] →
  cast_from (Lexical := Lexical_vector (H1 := Lexical_ConfigLogAppender))
    (node_text (foldl push_back mk_empty (appender_node w <$> l))) = inr (omap (describe w) l).
Proof using All.
  intros Hr _. unfold Lexical_vector, cast_from at 1, read_elements.
  rewrite load_text, elements_nodes, elements_empty. simpl. apply each_omap.
  apply (Forall_impl _ _ _ Hr). intros x (a & Ha & _ & q & Hq & f & Hf).
  destruct (describe_read w x a q f Ha Hq Hf) as (d & Hd & Hc). exists d. split; [done|].
  unfold appender_node. rewrite Ha, Hq. simpl. by rewrite Hf.
Qed.
Lemma description_read w g : Forall (ready w) (lg_appenders g) →
  cast_from (Lexical := Lexical_ConfigLog)
    (node_text (record (logger_fields g (appender_node w <$> lg_appenders g)))) = inr (description w g).
Proof using All.
  intros Hr. unfold Lexical_ConfigLog. simpl. rewrite load_text. simpl. unfold if_defined, logger_fields, description.
  destruct (lg_appenders g) as [|x l] eqn:El.
  - rewrite !record_get by (repeat constructor; set_solver). simpl. unfold as_level. rewrite !string_of_scalar. simpl.
    rewrite level_of_name. unfold read_elements. destruct load_nothing as (n & -> & ->). done.
  - pose proof (appenders_read w (x :: l) Hr ltac:(done)) as Ha. rewrite !record_get by (repeat constructor; set_solver).
    simpl in Ha |- *. unfold as_level. rewrite !string_of_scalar. simpl. rewrite level_of_name.
    unfold cast_from, Lexical_vector in Ha. by rewrite Ha.
Qed.

(** ** The registry *)

Definition entry_node (w : logw) (it : string * option nat) : Node :=
  match it.2 ≫= λ p, loggers w !! p with
  | Some g => record (logger_fields g (appender_node w <$> lg_appenders g))
  | None => mk_empty
  end.
Lemma in_order_perm {A} (m : gmap string A) : in_order m ≡ₚ map_to_list m.
Proof using Type. apply merge_sort_Permutation. Qed.
Lemma in_order_elem {A} (m : gmap string A) k x : (k, x) ∈ in_order m ↔ m !! k = Some x.
Proof using Type. by rewrite in_order_perm, elem_of_map_to_list. Qed.

Lemma manager_lock_read {A} (body : M logw A) w x : lm_mutex (manager w) = Unlocked →
  body (relock_manager Exclusive w) = Ret x (relock_manager Exclusive w) → manager_lock body w = Ret x w.
Proof using Type.
  intros Hl Hb. rewrite (manager_lock_run body w x (relock_manager Exclusive w)) by done. by rewrite relock_manager_id.
Qed.
Lemma ready_wf w p g : wf Unlocked w → loggers w !! p = Some g → Forall (ready w) (lg_appenders g).
Proof using Type. intros W Hg. by destruct (wf_loggers _ _ W p g Hg) as (_ & _ & Hr). Qed.

Lemma manager_getYaml_run w : wf Unlocked w → (∀ n, lm_loggers (manager w) !! n ≠ Some None) →
  LoggerManager_getYaml w =
    Ret (node_text (record (match in_order (lm_loggers (manager w)) with
                            | [] => []
                            | l => [("logs", foldl push_back mk_empty (entry_node w <$> l))]
                            end))) w.
Proof using All.
  intros W Hn. apply manager_lock_read; [apply (wf_manager _ _ W)|]. unfold mbind' at 1, mget. simpl.
  set (w1 := relock_manager Exclusive w). set (l := in_order (lm_loggers (manager w))).
  rewrite (bind_Ret _ _ _ (foldl push_back mk_empty (entry_node w <$> l)) w1).
  { unfold mreturn. f_equal. f_equal. by destruct l. }
  apply mfold_push. intros [n [p|]] y Hin; apply in_order_elem in Hin; [|by destruct (Hn n)]. simpl.
  destruct (wf_names _ _ W n p Hin) as [g Hg]. pose proof (ready_wf w p g W Hg) as Hr.
  destruct (wf_loggers _ _ W p g Hg) as (Hl & _).
  rewrite (bind_Ret _ _ _ _ _ (Logger_getYaml_run w1 p g Hl Hg Hr)).
  rewrite (bind_Ret _ _ _ _ _ (load_node _ w1)). unfold entry_node. simpl. by rewrite Hg.
Qed.
Lemma manager_getYaml_null w n : wf Unlocked w → lm_loggers (manager w) !! n = Some None →
  LoggerManager_getYaml w = Fault NullDeref.
Proof using All.
  intros W Hn. unfold LoggerManager_getYaml. apply (scoped_Fault _ _ _ Exclusive); [done|by rewrite (wf_manager _ _ W)|].
  fold (relock_manager Exclusive w). set (w1 := relock_manager Exclusive w). unfold mbind' at 1, mget. apply bind_Fault.
  change (manager w1) with (mkManager (lm_loggers (manager w)) (lm_root (manager w)) Exclusive). cbn [lm_loggers].
  apply in_order_elem in Hn. revert Hn. generalize (mk_empty (Node := Node)) as y.
  assert (Hk : ∀ k p, (k, Some p) ∈ in_order (lm_loggers (manager w)) → is_Some (loggers w !! p)).
  { intros k p Hin%in_order_elem. by apply (wf_names _ _ W k). }
  revert Hk. induction (in_order (lm_loggers (manager w))) as [|[k [p|]] l IH]; intros Hk y Hin; simpl; [by apply elem_of_nil in Hin| |done].
  destruct (Hk k p ltac:(left)) as [g Hg]. pose proof (ready_wf w p g W Hg) as Hr.
  destruct (wf_loggers _ _ W p g Hg) as (Hl & _).
  rewrite (bind_Ret _ _ _ (push_back y (record (logger_fields g (appender_node w <$> lg_appenders g)))) w1).
  - apply IH; [intros k' p' Hin'; apply (Hk k'); by right|]. apply elem_of_cons in Hin as [[=]|]; done.
  - unfold mbind' at 1. rewrite (Logger_getYaml_run w1 p g Hl Hg Hr). unfold mbind'. by rewrite load_node.
Qed.

(** ** The registry as a description *)

Definition entry_description (w : logw) (it : string * option nat) : option ConfigLog :=
  p ← it.2; description w <$> loggers w !! p.
Definition descriptions (w : logw) : list ConfigLog := omap (entry_description w) (in_order (lm_loggers (manager w))).
(** Each logger is registered under its own name. *)
Definition own_names (w : logw) : Prop :=
  ∀ n p g, lm_loggers (manager w) !! n = Some (Some p) → loggers w !! p = Some g → lg_name g = n.

Lemma key_le_spec {A} (a b : string * A) : key_le a b ↔ String.le a.1 b.1.
Proof using Type.
  unfold key_le. rewrite <-not_true_iff_false, str_lt_le. split; [apply dec_stable|tauto].
Qed.
#[local] Instance key_le_trans {A} : Transitive (@key_le A).
Proof using Type. intros a b c. rewrite !key_le_spec. intros ??. by trans b.1. Qed.
#[local] Instance key_le_total {A} : Total (@key_le A).
Proof using Type. intros a b. rewrite !key_le_spec. apply le_total. Qed.

Lemma in_order_sorted {A} (m : gmap string A) : StronglySorted key_le (in_order m) ∧ NoDup (map fst (in_order m)).
Proof using Type.
  split; [apply (StronglySorted_merge_sort key_le)|]. unfold in_order.
  rewrite (fmap_Permutation fst _ _ (merge_sort_Permutation key_le (map_to_list m))). apply NoDup_fst_map_to_list.
Qed.
Lemma descriptions_ordered w l : StronglySorted key_le l → NoDup (map fst l) →
  Forall (λ it, ∃ d, entry_description w it = Some d ∧ l_name d = it.1) l →
  ordered log_less (omap (entry_description w) l).
Proof using Type.
  intros Hs Hd Hl. induction Hl as [|[k p] l (d & Ed & En) Hl IH]; [constructor|]. simpl in Hd, En |- *.
  apply NoDup_cons in Hd as [Hk Hd]. inversion Hs as [|? ? Hs' Ha]; subst. rewrite Ed. constructor; [by apply IH|].
  apply Forall_forall. intros d' Hin. apply list_elem_of_omap in Hin as ([k' p'] & Hin & Ed').
  rewrite Forall_forall in Hl, Ha. destruct (Hl _ Hin) as (d2 & Ed2 & En2). rewrite Ed2 in Ed'. injection Ed' as <-. simpl in En2.
  specialize (Ha _ Hin). unfold key_le in Ha. simpl in Ha. unfold log_less. rewrite En2. split; [|done].
  apply not_false_iff_true. intros Hlt. apply Hk. rewrite (str_lt_eq _ _ Hlt Ha).
  apply list_elem_of_fmap. by exists (k', p').
Qed.

Lemma registry_read w : wf Unlocked w → (∀ n, lm_loggers (manager w) !! n ≠ Some None) →
  each (λ n, cast_from (Lexical := Lexical_ConfigLog) (node_text n))
    (entry_node w <$> in_order (lm_loggers (manager w))) = inr (descriptions w).
Proof using All.
  intros W Hn. unfold descriptions. assert (Hl : Forall (λ it, ∃ d, entry_description w it = Some d ∧
      cast_from (Lexical := Lexical_ConfigLog) (node_text (entry_node w it)) = inr d) (in_order (lm_loggers (manager w)))).
  { apply Forall_forall. intros [n [p|]] Hin%in_order_elem; [|by destruct (Hn n)].
    destruct (wf_names _ _ W n p Hin) as [g Hg]. exists (description w g).
    unfold entry_description, entry_node. simpl. rewrite Hg. split; [done|]. apply description_read. by eapply ready_wf. }
  induction Hl as [|it l (d & Ed & Ec) _ IH]; [done|]. rewrite fmap_cons. cbn [each omap list_omap]. by rewrite Ec, Ed, IH.
Qed.

Lemma shows_describe w xs ds : Forall (λ a, a_type a = 0 ∨ a_type a = 1) ds → Forall2 (shows w) xs ds →
  omap (describe w) xs = standard <$> ds.
Proof using Type.
  intros Ht Hs. induction Hs as [|x a xs ds (ap & q & f & Hx & Hk & Hl & Hq & Hf & Hp) _ IH]; [done|].
  apply Forall_cons in Ht as [Ha Ht]. assert (Hm : m_format f = a_format a).
  { unfold parsed, LogFormatter_create, mbind' in Hp. destruct (formatParser (a_format a) tt); [|done|done].
    by injection Hp as <-. }
  assert (Hd : describe w x = Some (standard a)).
  { unfold describe. rewrite Hx. simpl. rewrite Hq. simpl. rewrite Hf. simpl. rewrite Hk, Hl, Hm. f_equal.
    unfold standard, kind_of. destruct a as [ty lv fm pa]. simpl in *. by destruct Ha as [->| ->]. }
  rewrite fmap_cons. cbn [omap list_omap]. by rewrite Hd, IH.
Qed.

(** C29: getYaml describes the log as the configuration does. The text of a
    logger is read by the conversion of the configuration as the description
    of it, with its appenders in order; for a logger that shows a description
    that is the description in standard form, without the paths of appenders
    that are no files and without appenders of unknown types. The text of the
    registry has under logs, the name of the datum of the loggers, a node that
    the conversion of that datum reads as all their descriptions when each
    logger is registered under its own name; no node when no logger is
    registered, and a registered null pointer is dereferenced. *)
Theorem log_yaml_roundtrip w : wf Unlocked w →
  (∀ p g, loggers w !! p = Some g → ∃ s, Logger_getYaml p w = Ret s w ∧
     cast_from (Lexical := Lexical_ConfigLog) s = inr (description w g)) ∧
  (∀ g d, Forall2 (shows w) (lg_appenders g) (wanted (l_appenders d)) →
     description w g = mkConfigLog (lg_name g) (lg_level g) (standard <$> wanted (l_appenders d))) ∧
  ((∀ n, lm_loggers (manager w) !! n ≠ Some None) → ∃ s doc, LoggerManager_getYaml w = Ret s w ∧ Load s = inr doc ∧
     if decide (lm_loggers (manager w) = ∅) then node_get doc "logs" = inr None
     else ∃ node, node_get doc "logs" = inr (Some node) ∧
       (own_names w → FromStr (ConfigTypes := global_types) TLogs (node_text node) = inr (VLogs (descriptions w)))) ∧
  (∀ n, lm_loggers (manager w) !! n = Some None → LoggerManager_getYaml w = Fault NullDeref).
Proof using All.
  intros W. split; [|split; [|split]].
  - intros p g Hg. pose proof (ready_wf w p g W Hg) as Hr. destruct (wf_loggers _ _ W p g Hg) as (Hl & _).
    eexists. split; [by apply Logger_getYaml_run|]. by apply description_read.
  - intros g d Hs. unfold description. f_equal. apply shows_describe; [|done].
    apply Forall_forall. intros a Ha. by apply list_elem_of_filter in Ha as [? _].
  - intros Hn. eexists _, _. split; [by apply manager_getYaml_run|]. split; [apply load_text|].
    destruct (in_order_sorted (lm_loggers (manager w))) as [Hsort Hdup].
    pose proof (registry_read w W Hn) as Hr. unfold descriptions in *.
    case_decide as He.
    + rewrite He. change (in_order (∅ : gmap string (option nat))) with (@nil (string * option nat)).
      by rewrite record_get by (repeat constructor).
    + destruct (in_order (lm_loggers (manager w))) as [|it l] eqn:El.
      { destruct He. apply map_to_list_empty_iff, Permutation_nil. rewrite <-El. apply in_order_perm. }
      eexists. split; [by rewrite record_get by (repeat constructor; set_solver)|]. intros Ho.
      rewrite <-El in *. simpl. unfold read_elements. rewrite load_text, elements_nodes, elements_empty.
      cbn [app]. rewrite Hr. simpl. rewrite (foldl_set_insert log_less _ []); [done|]. cbn [app].
      apply descriptions_ordered; [done|done|]. apply Forall_forall. intros [n [p|]] Hin%in_order_elem; [|by destruct (Hn n)].
      destruct (wf_names _ _ W n p Hin) as [g Hg]. exists (description w g). unfold entry_description. simpl.
      rewrite Hg. split; [done|]. simpl. by apply (Ho n p g).
  - intros n Hn. by apply (manager_getYaml_null w n).
Qed.
End Texts.

(** ** The first program of the log, with texts as nodes *)

Lemma valid_quoted k : isValidParamName k = true → quoted k = k.
Proof.
  intros Hv. destruct k as [|c s]; [done|]. unfold isValidParamName in Hv. cbn [chars forallb] in Hv.
  apply andb_true_iff in Hv as [Hc _]. destruct c as [[] [] [] [] [] [] [] []]; done.
Qed.
#[global] Instance text_record_laws : YamlRecordLaws string.
Proof.
  split.
  - intros l k Hd Hv. apply Forall_cons in Hv as [Hk Hv]. simpl. f_equal. unfold record.
    assert (E : ∀ n, text_entries (foldl (λ node it, set_key node it.1 it.2) n l) = text_entries n ++ l).
    { clear Hd. induction l as [|[k' v] l IH]; intros n; [by rewrite app_nil_r|].
      cbn [foldl fst snd]. simpl in Hv. apply Forall_cons in Hv as [Hk' Hv]. rewrite IH by done.
      rewrite text_entries_set, valid_quoted by done. by rewrite <-app_assoc. }
    by rewrite E.
  - intros s. simpl. f_equal. destruct s as [|[[] [] [] [] [] [] [] []] s]; done.
  - intros z Hz. pose proof (plain_number (Node := string) z) as Hp. simpl in Hp |- *. rewrite Hp.
    unfold lexical_cast. by rewrite get_int_dec by done.
  - by exists ""%string.
Qed.

Definition first_description : ConfigLog := mkConfigLog "root" DEBUG [ConfigLogAppender_default].
Lemma log_yaml_roundtrip_witness :
  (∃ s, Logger_getYaml (Node := string) 0 (started 5) = Ret s (started 5) ∧
     cast_from (Lexical := Lexical_ConfigLog (Node := string)) s = inr first_description) ∧
  (∃ s doc node, LoggerManager_getYaml (Node := string) (started 5) = Ret s (started 5) ∧ Load s = inr doc ∧
     node_get doc "logs" = inr (Some node) ∧
     FromStr (ConfigTypes := global_types (Node := string)) TLogs (node_text node) = inr (VLogs [first_description])).
Proof.
  destruct (log_yaml_roundtrip (Node := string) (started 5) (wf_start 5)) as (H1 & _ & H3 & _). split.
  - exact (H1 0%nat (mkLogger "root" DEBUG [0%nat] 0 Unlocked) ltac:(vm_compute; reflexivity)).
  - destruct H3 as (s & doc & E & L & H).
    { apply started_settled. }
    rewrite decide_False in H by (intros Hm; by vm_compute in Hm). destruct H as (node & Hn & Hf).
    exists s, doc, node. split; [exact E|]. split; [exact L|]. split; [exact Hn|].
    apply Hf. intros n p g Hp Hg. change (lm_loggers (manager (started 5))) with ({["root" := Some 0%nat]} : gmap string (option nat)) in Hp.
    apply lookup_singleton_Some in Hp as [<- [= <-]]. vm_compute in Hg. by injection Hg as <-.
Defined.
